(* ===== verification/_CoqProject ===== *)
-Q . S2P
Prelude.v
PyFloat.v
PyDecimal.v
PyFormat.v
PySort.v
PyDict.v
Errors.v
Money.v
Clock.v
PyJson.v
PyText.v
Checkpoint.v
CheckpointProps.v
CheckpointStore.v
S3Store.v
S3StoreProps.v
States.v
Models.v
Config.v
Tables.v
Store.v
StoreInv.v
StoreSafe.v
Fixture.v
StoreProps.v
Admission.v
FairShare.v
Commands.v
Hosts.v
Backend.v
Volumes.v
Environments.v
Aws.v
Ec2.v
Ec2Props.v
Fake.v
FakeProps.v
Placement.v
Gce.v
GceProps.v
Lab.v
LabText.v
LabProps.v
Ssh.v
Idle.v
Metrics.v
PriceList.v
Pricing.v
Forecast.v
Report.v
ReportProps.v
Reaper.v
Scheduler.v
SchedulerSafe.v
SchedulerStates.v
SchedulerProps.v
Broker.v
Digest.v
WebAuth.v
ConfigLoad.v
ConfigProps.v
Trace.v
TraceProps.v
Adapters.v
Migrations.v
Tracing.v
WebPublic.v
WebApp.v
BrokerSafe.v
WebSafe.v
Doctor.v
Cli.v
CliSafe.v
System.v
Calls.v
BrokerProps.v
WebProps.v
WebStream.v
Club.v
CliProps.v
