(* ===== verification/Prelude.v ===== *)
(** * gpu-broker: a verification development

    gpu-broker lets a club share a budget and a few machines with GPUs.  Members
    submit jobs; the broker checks each against the budgets, reserves its cost in
    a ledger, queues it, and a scheduler places it on a backend (AWS, Google
    Cloud, machines in the lab), follows it, charges for it and gives back what
    was not used.  Everything it knows is in one SQLite database.

    This library models the Python package [src/gpu_broker]: what decides and what
    writes, what is sent to the clouds and to the lab, the command line and the web
    pages as far as they are computed, and what runs inside a training job.  File
    names below are relative to [src/gpu_broker].

    ** The parts and where they are modelled

    What Python itself provides:
    - [Prelude]: outcomes ([Ok], [Raise]), the state-and-exception monad [M] with
      its notations, lemmas on lists and maps, the tactics shared by the proofs;
    - [PyFloat], [PyDecimal], [PyFormat], [PySort], [PyDict]: [float] as binary64
      with [repr] and bounds on products, [decimal.Decimal] with its context, the
      string formatting of the messages, [sorted], and [dict] with its insertion
      order; [PyJson] is [json.dumps] and [json.loads]; [PyText] the methods of
      [str], [shlex.quote] and [base64];
    - [Errors]: the exception classes of errors.py, of Python and of sqlite3.

    The records and the tables:
    - [Money] (money.py), [Clock] (clock.py, [datetime], and what the ISO text of a
      moment promises), [States] (states.py, the lifecycle), [Models] (models.py),
      [Config] (config.py: the record, the defaults, [validate]), [ConfigLoad]
      (config.py: reading config.json, with the nested settings of aws.py,
      local/hosts.py, volumes.py and web/auth.py) and [ConfigProps];
    - [Tables]: the tables of db/migrations/*.sql, the single statements of
      store.py and its pure queries; [Migrations] (db/migrations.py).

    The operations:
    - [Store]: store.py and [transaction] of db/connection.py, one definition per
      method; the state is [St W], that is the committed database, the clock, and
      the world [W] the backends act on; [StoreProps] is what it promises;
    - [Admission] (admission.py), [FairShare] (fairshare.py), [Placement]
      (placement.py), [Idle] (idle.py), [Metrics] (metrics.py), [PriceList] and
      [Pricing] (pricing.py), [Forecast] (forecast.py), [Reaper] (reaper.py),
      [Report] and [ReportProps] (report.py), [Digest] (digest.py), [Trace] and
      [TraceProps] (schedule_trace.py);
    - [Scheduler] (scheduler.py): [tick], [plan], [advance_job], [decisions],
      [dispatch_one], [reconcile]; [SchedulerStates] and [SchedulerProps];
    - [Broker] (broker.py): the facade over all of them; [BrokerProps];
    - [System]: the broker, the store, the web app and the command line serving a
      sequence of requests, with crashes between any two commits and a world that
      changes by itself; [Calls]: what a request does to that world, it does
      through the protocol of the backends.

    The backends:
    - [Backend]: the protocol of backends/base.py as a record of operations over an
      arbitrary world.  Theorems quantify over it: a backend may answer anything
      and raise anything, unless a hypothesis says otherwise;
    - [Aws] (aws.py), [Ec2] (backends/ec2.py) and [Ec2Props];
    - [Gce] (backends/gce.py) and [GceProps];
    - the lab pool: [Commands] (local/commands.py), [Hosts] (local/hosts.py and
      the protocol of local/transport.py), [Ssh] (the SSH transport of
      local/transport.py), [Volumes] (volumes.py), [Environments]
      (environments.py) and [Lab] (backends/local.py) over any transport;
      [LabText] and [LabProps] are what it promises;
    - [Fake] (backends/fake.py), the simulated backend, and [FakeProps];
    - [Checkpoint] (checkpoint.py): the manifest and the local store, [put] as its
      sequence of writes; [CheckpointProps]; [S3Store] is the store in S3, over any
      client; [CheckpointStore] is the protocol of both as a record, an abstract
      shelf, and the contract between them as a class, of which it holds the
      instance of the local store and [S3StoreProps] that of the S3 store;
    - [Adapters] (adapters/*.py): the other end, in the training job.

    What members see:
    - [WebAuth] (web/auth.py), [WebPublic] (web/public.py, web/publicapp.py),
      [WebApp] (web/app.py); [WebSafe], [WebProps] and [WebStream] are what
      they promise;
    - [Doctor] (doctor.py), [Cli] (cli.py), [CliSafe] and [CliProps];
    - [Tracing] (tracing.py): what is said to the telemetry.

    A call of [Broker] composes the definitions the way the source composes the
    calls: [submit] runs the checks of [Admission] on the balances of [Store] and
    then [create_job]; [broker_tick] is [tick], which runs [advance_job] on each
    active job and [walk_queue] on the queue of [FairShare], asking [Placement]
    where each job goes, and ends with the gauges of [Metrics].  A command of [Cli]
    opens a broker over a screen and prints, [main] turning what it ends in into
    the status of the process; a request of [WebApp] opens a broker without
    backends and answers with a template and its values.

    ** The invariant

    [StoreInv] states what every committed image of the database satisfies
    ([db_ok]) and how images may follow each other ([extends]); [safe] is the
    specification of an operation against them, with a rule per construct of the
    monad.  [StoreSafe], [SchedulerSafe], [BrokerSafe], [WebSafe] and
    [CliSafe] discharge it for every operation that writes, and [System] concludes
    for every reachable system.

    ** What the theorems show

    - Money ([System.money_conserved], [StoreProps.settle_converts],
      [StoreProps.terminal_releases_hold]): in every image on disk, what is held
      and what was settled for a job never exceed its reservation, add up to it
      while it lives, and nothing is held once it has ended; [settle] moves an
      amount from held to spent and touches no other balance; a transition that
      ends a job leaves held what its own writes settle and no more.
    - Lifecycle ([System.lifecycle_forward], [System.history_legal],
      [StoreProps.transition_atomic], [StoreProps.stale_transition_refused],
      [SchedulerStates.advance_state], [States.lifecycle_table_sound]): jobs move
      along legal edges only, their history says so, a transition is all or
      nothing, a stale one is refused, and each answer of a backend leads where
      it should.
    - Policy ([SchedulerProps.decisions_policy], [FairShare.order_queue_total],
      [Placement.choose_first_fit], [SchedulerProps.plan_changes_nothing]): one
      decision per queued job in an order that does not depend on how they were
      read, within the pool, suspensions and per-member limits; placement is
      first fit; a dry run changes nothing.
    - Submission and privileges ([BrokerProps.submit_admits], [submit_refuses],
      [submit_raises_clean], [cancel_policy], [officer_gate]).
    - Idle, orphaned and lost machines ([Idle.reclaimable_justified],
      [BrokerProps.reclaim_justified], [reclaim_unready], [reap_charges_once],
      [Reaper.reap_exact], [StoreProps.abandoned_charged_once],
      [SchedulerProps.reconcile_exact]).
    - Checkpoints and training ([CheckpointStore.local_store_refines],
      [S3StoreProps.s3_store_refines], [s3_upload_interrupted],
      [CheckpointProps.put_visible_last], [fetch_put], [prune_keeps_newest],
      [Adapters.training_exact], [FakeProps.accumulator_exact]): a client cannot
      tell either store from the shelf; a checkpoint is invisible until its last
      write, comes back whole, and the newest survives pruning and interrupted
      uploads; a training run that was preempted ends where one that was not does, if
      its loop keeps the order of its data, and simulated work is counted once.
    - The clouds ([Ec2Props.ec2_launch_tagged], [ec2_start_once],
      [ec2_terminate_asks], [ec2_poll_evidence], [Calls.fleet_bounded]):
      what is asked of an account, how often, and on what evidence a job ends; and,
      through the broker and the web app, how many machines there can be.
    - The lab ([LabProps.lab_launch_placed], [lab_poll_safe],
      [LabText.launch_carries_command], [lab_tags_roundtrip], [canonical_exact],
      [Ssh.ssh_exchanges]): jobs only go to hosts that proved their limits and have
      room, only a host's report ends a job, commands and metadata survive the
      shell, equal specs share an environment, and no command goes over a
      connection that is closed, broken or another host's.
    - The web ([WebProps.web_writes_authorised], [web_revoked_shut_out],
      [WebPublic.public_page_blind], [WebStream.stream_delivers]): who can change
      what, who is shut out at once, what the public page cannot show, and that a
      live log shows each line once and in order.
    - The command line ([CliProps.cli_looks_only], [cli_submit_status]): a command
      that looks changes nothing, and the status of a submission says what became
      of it.  Telemetry ([Tracing.telemetry_hides], [tracing_transparent]): no
      credential in it, and no effect of it on what it watches.
    - Data in and out ([ConfigProps.load_config_exact],
      [Migrations.migrations_hold], [Clock.iso_roundtrip], [iso_order],
      [TraceProps.trace_blind], [replay_exact], [ReportProps.report_accounts]): a
      setting lands in its own field, in the nested objects too, or is refused; a
      database is always at the end
      of some script, whoever else migrates it; moments survive the database and SQL
      compares them rightly; an exported trace tells nothing but the work.
    - The rest: termination of the loop ([BrokerProps.run_until_idle_spec]), the cap
      on logs ([StoreProps.log_cap]), prices, forecasts, charts.
    [Club] and [Fixture] are concrete states with the theorems instantiated there;
    the examples in the other files are runs that show what surprises in the code.

    ** Representation, bounds and fuel

    A moment is a number of microseconds since the epoch.  An amount that is
    stored is a number of hundredths ([Z]); one that is not is an exact
    [Decimal].  A SQLite integer is a [Z].  A string is a list of 8-bit
    characters, so lengths in characters and bytes coincide.  [run_until_idle] is
    bounded by its own [max_ticks].  Recursion on something other than its
    argument's structure has fuel from the length of the texts ([like_fuel],
    [PyJson.value], [Tracing.sub_from]), from the number of objects in a bucket
    ([S3StoreProps.manifests_spec]), from the size of the number ([commas_fuel],
    [letters_fuel]) or from the format of a float (17 digits are enough for
    [repr]).  A command that waits for others ([Cli.follow_logs]) and a live log
    ([WebStream.stream_run]) are given the list of what the others do.  Sums of
    [Decimal] are exact, which agrees with the 28 digits of Python's context below
    10^26 dollars ([PyDecimal.ctx_add_exact]).

    ** Parameters

    Code outside the repository is an argument: the clients of boto3 for EC2, SSM,
    S3, the price list and Cost Explorer, the Compute SDK of Google, asyncssh, the
    HTTP client of the webhook and of GitHub, the signature of cookies
    (itsdangerous), torch, the OpenTelemetry SDK, SHA-256 and HMAC, the environment
    and the files the settings name, the UTC offset of a time zone ([TimeZones]),
    the C library's power function ([pow]), the execution of an SQL script, and the
    order Python iterates a set in.  Where a theorem needs what such code documents,
    it is a class or a record of laws ([S3StoreProps.S3Laws], [GceProps.GceLaws])
    with a concrete instance beside it.

    ** Not modelled

    Of the components: the demonstration (demo/scenario.py), [gpu web] and
    [gpu demo], which hand over to uvicorn and to it, and the parts that are not in
    Python, the HTML templates among them.  Inside the components: the spans
    around the operations of the scheduler and the broker; the text of SQL and the
    row decoding; [SystemClock]; the construction of the clients of AWS and Google;
    the event loop of the SSH transport and ctrl-c; the text of the fake backend's
    state file.  Of the data: a decimal that is NaN or infinite ends in an error
    where it is read, while Python carries it on to the first comparison; signed
    zeros of decimals; divisions by settings [validate] refuses to be zero; ISO
    dates in basic or week form; a price book half updated when a fetch raises
    something other than [PricingError].  Two processes are interleaved at whole
    requests, except where a theorem is about less ([Migrations],
    [StoreProps.stale_transition_refused], [WebStream]). *)

From Stdlib Require Export ZArith Lia List Ascii.
From stdpp Require Export base option list strings gmap.

#[global] Open Scope Z_scope.
#[global] Open Scope string_scope.
#[global] Open Scope list_scope.

(** ** Outcomes: a Python call returns a value or raises *)

Inductive outcome (E A : Type) : Type :=
| Ok (a : A)
| Raise (e : E).
Arguments Ok {E A} a.
Arguments Raise {E A} e.

Definition obind {E A B} (r : outcome E A) (f : A -> outcome E B) : outcome E B :=
  match r with Ok a => f a | Raise e => Raise e end.

Definition is_ok {E A} (r : outcome E A) : bool :=
  match r with Ok _ => true | Raise _ => false end.

Definition of_option {E A} (o : option A) (e : E) : outcome E A :=
  match o with Some a => Ok a | None => Raise e end.

(** ** The state-and-exception monad

    A raise keeps the state reached so far: the statements a Python function
    ran before the exception have happened.  Rolling back is what
    [transaction] does, and nothing else. *)

Definition M (S E A : Type) : Type := S -> S * outcome E A.

Section Monad.
Context {S E : Type}.

Definition ret {A} (a : A) : M S E A := fun s => (s, Ok a).
Definition raise {A} (e : E) : M S E A := fun s => (s, Raise e).
Definition bind {A B} (m : M S E A) (f : A -> M S E B) : M S E B :=
  fun s => match m s with
           | (s', Ok a) => f a s'
           | (s', Raise e) => (s', Raise e)
           end.
Definition get : M S E S := fun s => (s, Ok s).
Definition gets {A} (f : S -> A) : M S E A := fun s => (s, Ok (f s)).
Definition modify (f : S -> S) : M S E unit := fun s => (f s, Ok tt).
Definition lift_outcome {A} (r : outcome E A) : M S E A := fun s => (s, r).

(** [try: m except e if caught e: h e] *)
Definition try_catch {A} (m : M S E A) (caught : E -> bool) (h : E -> M S E A)
  : M S E A :=
  fun s => match m s with
           | (s', Raise e) => if caught e then h e s' else (s', Raise e)
           | r => r
           end.

(** [acc = init; for x in xs: acc = f(acc, x)] *)
Fixpoint foldM {A B} (f : A -> B -> M S E A) (acc : A) (xs : list B) : M S E A :=
  match xs with
  | [] => ret acc
  | x :: xs' => bind (f acc x) (fun acc' => foldM f acc' xs')
  end.

Fixpoint mapM_ {A B} (f : A -> M S E B) (xs : list A) : M S E (list B) :=
  match xs with
  | [] => ret []
  | x :: xs' => bind (f x) (fun y => bind (mapM_ f xs') (fun ys => ret (y :: ys)))
  end.
End Monad.

Fixpoint omapM {E A B} (f : A -> outcome E B) (xs : list A) : outcome E (list B) :=
  match xs with
  | [] => Ok []
  | x :: xs' => obind (f x) (fun y => obind (omapM f xs') (fun ys => Ok (y :: ys)))
  end.

Declare Scope py_scope.
Delimit Scope py_scope with py.
Notation "x <- m ;; k" := (bind m (fun x => k))
  (at level 100, m at next level, right associativity) : py_scope.
Notation "'let!' p := m 'in' k" := (bind m (fun x => match x with p => k end))
  (at level 10, p pattern, m at level 100, k at level 200) : py_scope.
Notation "m ;;; k" := (bind m (fun _ => k))
  (at level 100, right associativity) : py_scope.
Notation "x <-? r ;; k" := (obind r (fun x => k))
  (at level 100, r at next level, right associativity) : py_scope.

(** ** Hoare triples

    [triple P m Q R]: run from a state satisfying [P], [m] ends in a state
    satisfying [Q a] when it returns [a] and [R e] when it raises [e]. *)

Section Triples.
Context {S E : Type}.

Definition triple {A} (P : S -> Prop) (m : M S E A)
    (Q : A -> S -> Prop) (R : E -> S -> Prop) : Prop :=
  forall s, P s -> match m s with
                   | (s', Ok a) => Q a s'
                   | (s', Raise e) => R e s'
                   end.

(** [m] keeps [I] whether it returns or raises. *)
Definition keeps {A} (I : S -> Prop) (m : M S E A) : Prop :=
  triple I m (fun _ => I) (fun _ => I).

(** [m] only reads. *)
Definition reads {A} (m : M S E A) : Prop := forall s, fst (m s) = s.

Lemma triple_conseq {A} (P P' : S -> Prop) (m : M S E A) Q Q' R R' :
  triple P' m Q' R' -> (forall s, P s -> P' s) ->
  (forall a s, Q' a s -> Q a s) -> (forall e s, R' e s -> R e s) ->
  triple P m Q R.
Proof.
  intros H HP HQ HR s Hs. specialize (H s (HP s Hs)).
  destruct (m s) as [s' [a|e]]; auto.
Qed.

Lemma triple_ret {A} (a : A) (P : S -> Prop) (Q : A -> S -> Prop) R :
  (forall s, P s -> Q a s) -> triple P (ret a) Q R.
Proof. intros H s Hs. cbn. auto. Qed.

Lemma triple_raise {A} (e : E) (P : S -> Prop) (Q : A -> S -> Prop) (R : E -> S -> Prop) :
  (forall s, P s -> R e s) -> triple P (raise e) Q R.
Proof. intros H s Hs. cbn. auto. Qed.

Lemma triple_bind {A B} (m : M S E A) (f : A -> M S E B) P Q' Q R :
  triple P m Q' R -> (forall a, triple (Q' a) (f a) Q R) ->
  triple P (bind m f) Q R.
Proof.
  intros Hm Hf s Hs. unfold bind. specialize (Hm s Hs).
  destruct (m s) as [s' [a|e]]; [apply Hf|]; auto.
Qed.

Lemma triple_try {A} (m : M S E A) caught (h : E -> M S E A) P Q R R' :
  triple P m Q R' ->
  (forall e, caught e = true -> triple (R' e) (h e) Q R) ->
  (forall e s, caught e = false -> R' e s -> R e s) ->
  triple P (try_catch m caught h) Q R.
Proof.
  intros Hm Hh Hn s Hs. unfold try_catch. specialize (Hm s Hs).
  destruct (m s) as [s' [a|e]]; auto.
  destruct (caught e) eqn:Hc; [by apply Hh|by apply Hn].
Qed.

Lemma triple_foldM {A B} (f : A -> B -> M S E A) xs
    (I : A -> list B -> S -> Prop) R acc :
  (forall a x xs', triple (I a (x :: xs')) (f a x) (fun a' => I a' xs') R) ->
  triple (I acc xs) (foldM f acc xs) (fun a => I a []) R.
Proof.
  intros Hf. revert acc. induction xs as [|x xs IH]; intros acc; cbn.
  - apply triple_ret. auto.
  - eapply triple_bind; [apply Hf|]. intros a. apply IH.
Qed.

Lemma keeps_ret {A} (I : S -> Prop) (a : A) : keeps I (ret a).
Proof. by apply triple_ret. Qed.
Lemma keeps_raise {A} (I : S -> Prop) (e : E) : keeps I (@raise S E A e).
Proof. by apply triple_raise. Qed.
Lemma keeps_get (I : S -> Prop) : keeps I get.
Proof. intros s Hs. exact Hs. Qed.
Lemma keeps_gets {A} (I : S -> Prop) (f : S -> A) : keeps I (gets f).
Proof. intros s Hs. exact Hs. Qed.
Lemma keeps_lift {A} (I : S -> Prop) (r : outcome E A) : keeps I (lift_outcome r).
Proof. intros s Hs. cbn. by destruct r. Qed.
Lemma keeps_bind {A B} (I : S -> Prop) (m : M S E A) (f : A -> M S E B) :
  keeps I m -> (forall a, keeps I (f a)) -> keeps I (bind m f).
Proof. intros Hm Hf. eapply triple_bind; [exact Hm|exact Hf]. Qed.
Lemma keeps_try {A} (I : S -> Prop) (m : M S E A) c (h : E -> M S E A) :
  keeps I m -> (forall e, keeps I (h e)) -> keeps I (try_catch m c h).
Proof. intros Hm Hh. eapply triple_try; [exact Hm|by intros; apply Hh|done]. Qed.
Lemma keeps_foldM {A B} (I : S -> Prop) (f : A -> B -> M S E A) acc xs :
  (forall a x, keeps I (f a x)) -> keeps I (foldM f acc xs).
Proof. intros Hf. apply (triple_foldM f xs (fun _ _ => I)). intros. apply Hf. Qed.
Lemma keeps_mapM {A B} (I : S -> Prop) (f : A -> M S E B) xs :
  (forall x, keeps I (f x)) -> keeps I (mapM_ f xs).
Proof.
  intros Hf. induction xs as [|x xs IH]; cbn; [apply keeps_ret|].
  apply keeps_bind; [apply Hf|]. intros y. apply keeps_bind; [apply IH|].
  intros. apply keeps_ret.
Qed.
Lemma keeps_reads {A} (I : S -> Prop) (m : M S E A) : reads m -> keeps I m.
Proof.
  intros H s Hs. specialize (H s). destruct (m s) as [s' [a|e]]; cbn in *; by subst.
Qed.

Lemma reads_bind {A B} (m : M S E A) (f : A -> M S E B) :
  reads m -> (forall a, reads (f a)) -> reads (bind m f).
Proof.
  intros Hm Hf s. unfold bind. specialize (Hm s).
  destruct (m s) as [s' [a|e]]; cbn in *; subst; [apply Hf|done].
Qed.
Lemma reads_ret {A} (a : A) : reads (ret a).
Proof. done. Qed.
Lemma reads_raise {A} (e : E) : reads (@raise S E A e).
Proof. done. Qed.
Lemma reads_gets {A} (f : S -> A) : reads (gets f).
Proof. done. Qed.
Lemma reads_lift {A} (r : outcome E A) : reads (lift_outcome r).
Proof. done. Qed.
Lemma reads_foldM {A B} (f : A -> B -> M S E A) acc xs :
  (forall a x, reads (f a x)) -> reads (foldM f acc xs).
Proof.
  intros Hf. revert acc. induction xs as [|x xs IH]; intros acc; cbn; [apply reads_ret|].
  apply reads_bind; auto.
Qed.
Lemma reads_mapM {A B} (f : A -> M S E B) xs :
  (forall x, reads (f x)) -> reads (mapM_ f xs).
Proof.
  intros Hf. induction xs as [|x xs IH]; cbn; [apply reads_ret|].
  apply reads_bind; auto. intros y. apply reads_bind; auto. intros. apply reads_ret.
Qed.

(** A bind that returned: both halves returned. *)
Lemma bind_ok {A B} (m : M S E A) (f : A -> M S E B) s s' b :
  bind m f s = (s', Ok b) ->
  exists s1 a, m s = (s1, Ok a) /\ f a s1 = (s', Ok b).
Proof.
  unfold bind. destruct (m s) as [s1 [a|e]]; [|discriminate]. eauto.
Qed.
End Triples.

Lemma obind_ok {E A B} (r : outcome E A) (f : A -> outcome E B) b :
  obind r f = Ok b -> exists a, r = Ok a /\ f a = Ok b.
Proof. destruct r; cbn; [eauto|discriminate]. Qed.

Create HintDb keeps discriminated.
#[export] Hint Constants Opaque : keeps.
#[export] Hint Resolve keeps_ret keeps_raise keeps_get keeps_gets keeps_lift
  keeps_foldM keeps_mapM keeps_try : keeps.

Create HintDb reads discriminated.
#[export] Hint Constants Opaque : reads.
#[export] Hint Resolve reads_ret reads_raise reads_gets reads_lift reads_foldM
  reads_mapM : reads.

(** A filter that keeps nothing, or everything *)
Lemma filter_nil {A} (p : A -> bool) l : (forall x, x ∈ l -> p x = false) -> List.filter p l = [].
Proof.
  induction l as [|x l IH]; intros H; cbn; [done|]. rewrite H by left. apply IH. intros. apply H. by right.
Qed.

Lemma filter_all {A} (p : A -> bool) l : (forall x, x ∈ l -> p x = true) -> List.filter p l = l.
Proof.
  induction l as [|x l IH]; intros H; cbn; [done|]. rewrite H by left. f_equal. apply IH. intros. apply H. by right.
Qed.

(** What a list of computations gave *)
Lemma omapM_elem {E A B} (f : A -> outcome E B) xs ys : omapM f xs = Ok ys ->
  forall y, y ∈ ys <-> exists x, x ∈ xs /\ f x = Ok y.
Proof.
  revert ys. induction xs as [|x xs IH]; intros ys H; cbn in H.
  - injection H as <-. intros y. split; [by intros ?%elem_of_nil|by intros (x & ?%elem_of_nil & _)].
  - apply obind_ok in H as (y0 & H0 & H). apply obind_ok in H as (ys0 & H1 & H). injection H as <-.
    intros y. rewrite elem_of_cons, (IH _ H1). split.
    + intros [->|(x' & Hx & Hf)]; [exists x; split; [left|done]|exists x'; split; [by right|done]].
    + intros (x' & [->|Hx]%elem_of_cons & Hf); [left; congruence|right; by exists x'].
Qed.

(** Walk a monadic body that keeps an assertion, splitting every match. *)
Ltac walk :=
  repeat match goal with
  | |- forall _, _ => intros ?
  | |- keeps _ (bind _ _) => apply keeps_bind
  | |- keeps _ (try_catch _ _ _) => apply keeps_try
  | |- _ => solve [auto with keeps]
  | |- context [match ?x with _ => _ end] => destruct x eqn:?
  end.

(** A property of a list holds of its sublists. *)
Lemma Forall_sub {A} (P : A -> Prop) l k : l ⊆ k -> Forall P k -> Forall P l.
Proof. rewrite !Forall_forall. set_solver. Qed.

(** The members of a list of lists built from two lists side by side. *)
Lemma elem_of_concat_zip {A B C} (f : A -> B -> list C) xs ys c :
  c ∈ concat (zip_with f xs ys) <-> exists i x y, xs !! i = Some x /\ ys !! i = Some y /\ c ∈ f x y.
Proof.
  rewrite list_elem_of_In, in_concat. split.
  - intros (l & Hl & Hc). apply list_elem_of_In, list_elem_of_lookup in Hl as [i Hi].
    rewrite lookup_zip_with in Hi. destruct (xs !! i) as [x|] eqn:Hx; [|done].
    destruct (ys !! i) as [y|] eqn:Hy; [|done]. injection Hi as <-.
    exists i, x, y. split_and!; [done..|by apply list_elem_of_In].
  - intros (i & x & y & Hx & Hy & Hc). exists (f x y). split; [|by apply list_elem_of_In].
    apply list_elem_of_In, (list_elem_of_lookup_2 _ i). by rewrite lookup_zip_with, Hx, Hy.
Qed.

(** Invert a computation that returned [Ok], one bind at a time. *)
Ltac inv_ok :=
  repeat match goal with
  | H : bind _ _ _ = (_, Ok _) |- _ =>
      apply bind_ok in H; destruct H as (? & ? & ? & ?)
  | H : obind _ _ = Ok _ |- _ =>
      apply obind_ok in H; destruct H as (? & ? & ?)
  | H : ret _ _ = (_, Ok _) |- _ => injection H as ? ?; subst
  | H : gets _ _ = (_, Ok _) |- _ => injection H as ? ?; subst
  | H : raise _ _ = (_, Ok _) |- _ => discriminate H
  | H : lift_outcome _ _ = (_, Ok _) |- _ => injection H as ? ?; subst
  | H : Ok _ = Ok _ |- _ => injection H as ?; subst
  | H : Raise _ = Ok _ |- _ => discriminate H
  end.
