(* ===== verification/PyFloat.v ===== *)
(** * Python's [float], and the [Decimal] a float is turned into

    [float] is IEEE-754 binary64, computed with the Standard Library's
    executable specification ([SpecFloat], 53 bits of precision, exponent bound
    1024, round half to even).  Every value below is a canonical number of that
    format, because every operation ends in [binary_round].  [repr_digits] is
    CPython's [repr]: the shortest decimal string that reads back as the same
    float, the closest one when several are that short. *)

From Stdlib Require Import SpecFloat.
From S2P Require Import Prelude.
Local Open Scope Z_scope.

Definition float := spec_float.

Definition prec := 53.
Definition emax := 1024.

(** [m * 2^e], correctly rounded. *)
Definition f_of_bin (m e : Z) : float := binary_normalize prec emax m e false.

(** [float(n)] for an [int] *)
Definition f_of_Z (n : Z) : float := f_of_bin n 0.

(** [n / d] for two [int]s: Python's true division is correctly rounded. *)
Definition f_of_ratio (n d : Z) : float :=
  match n, d with
  | Z0, _ => S754_zero false
  | Zpos p, Zpos q =>
      SFdiv prec emax (S754_finite false p 0) (S754_finite false q 0)
  | Zneg p, Zpos q =>
      SFdiv prec emax (S754_finite true p 0) (S754_finite false q 0)
  | _, _ => S754_nan
  end.

(** [float("<m>e<k>")]: the decimal [m * 10^k], correctly rounded. *)
Definition f_of_dec (m k : Z) : float :=
  if 0 <=? k then f_of_Z (m * 10 ^ k) else f_of_ratio m (10 ^ (- k)).

Definition f_add (x y : float) : float := SFadd prec emax x y.
Definition f_sub (x y : float) : float := SFsub prec emax x y.
Definition f_mul (x y : float) : float := SFmul prec emax x y.
Definition f_div (x y : float) : float := SFdiv prec emax x y.
Definition f_neg (x : float) : float := SFopp x.

Definition f_lt (x y : float) : bool := SFltb x y.
Definition f_le (x y : float) : bool := SFleb x y.
Definition f_eq (x y : float) : bool := SFeqb x y.

(** [max(a, b)] and [min(a, b)] keep the first argument unless the second one
    beats it. *)
Definition f_max (a b : float) : float := if f_lt a b then b else a.
Definition f_min (a b : float) : float := if f_lt b a then b else a.

Definition f0 : float := S754_zero false.
Definition f1 : float := f_of_Z 1.

(** [float ** float] is the C library's [pow], which IEEE-754 leaves to the
    platform: the functions that use it take it as an argument. *)
Definition pow_fun := float -> float -> float.

Definition is_nan (x : float) : bool :=
  match x with S754_nan => true | _ => false end.

Definition is_finite (x : float) : bool :=
  match x with S754_zero _ | S754_finite _ _ _ => true | _ => false end.

(** The value of a finite float as an integer ratio (denominator positive). *)
Definition f_ratio (x : float) : Z * Z :=
  match x with
  | S754_finite s m e =>
      let n := cond_Zopp s (Zpos m) in
      if 0 <=? e then (n * 2 ^ e, 1) else (n, 2 ^ (- e))
  | _ => (0, 1)
  end.

(** [n / d] rounded to the nearest integer, ties to even ([d] positive). *)
Definition round_half_even (n d : Z) : Z :=
  let q := n / d in
  let r := n mod d in
  match Z.compare (2 * r) d with
  | Lt => q
  | Gt => q + 1
  | Eq => if Z.even q then q else q + 1
  end.

(** [int(x)]: towards zero. *)
Definition f_trunc (x : float) : Z :=
  let '(n, d) := f_ratio x in Z.quot n d.

(** [math.ceil(x)] *)
Definition f_ceil (x : float) : Z :=
  let '(n, d) := f_ratio x in - ((- n) / d).

(** [round(x)] to an [int]. *)
Definition f_round (x : float) : Z :=
  let '(n, d) := f_ratio x in round_half_even n d.

(** [sum(xs)] of floats, from the left. *)
Definition f_sum (xs : list float) : float := fold_left f_add xs (f_of_Z 0).

(** ** Decimal digits *)

(** Number of decimal digits of [|n|]; 1 for 0. *)
Fixpoint ndigits_fuel (fuel : nat) (n : Z) : Z :=
  match fuel with
  | O => 1
  | S k => if n <? 10 then 1 else 1 + ndigits_fuel k (n / 10)
  end.

Definition ndigits (n : Z) : Z :=
  ndigits_fuel (Z.to_nat (Z.log2_up (Z.abs n) + 1)) (Z.abs n).

(** ** [repr] *)

(** [floor(n/d * 10^(-k))], exactly. *)
Definition scaled_floor (n d k : Z) : Z :=
  if 0 <=? k then n / (d * 10 ^ k) else (n * 10 ^ (- k)) / d.

(** The decimal exponent of [n/d > 0]: the [k] with [10^k <= n/d < 10^(k+1)]. *)
Definition dec_exponent (n d : Z) : Z :=
  let k := ndigits n - ndigits d in
  (* n/d is in [10^(k-1), 10^(k+1)) *)
  if 0 <=? k
  then (if n <? d * 10 ^ k then k - 1 else k)
  else (if n * 10 ^ (- k) <? d then k - 1 else k).

(** Is [|m * 10^k - n/d|] at most [|m' * 10^k - n/d|]? *)
Definition closer (n d k m m' : Z) : bool :=
  let num x := Z.abs (if 0 <=? k then x * 10 ^ k * d - n
                      else x * d - n * 10 ^ (- k)) in
  num m <=? num m'.

(** With [p] significant digits, the decimals just below and just above
    [n/d]; the one that reads back as [x], the closer one if both do. *)
Definition repr_at (x : float) (n d p : Z) : option (Z * Z) :=
  let k := dec_exponent n d - (p - 1) in
  let lo := scaled_floor n d k in
  let hi := lo + 1 in
  let back m := f_eq (f_of_dec m k) x in
  match back lo, back hi with
  | true, true => Some (if closer n d k lo hi then lo else hi, k)
  | true, false => Some (lo, k)
  | false, true => Some (hi, k)
  | false, false => None
  end.

Fixpoint repr_search (x : float) (n d : Z) (p : Z) (fuel : nat) : Z * Z :=
  match fuel with
  | O => (scaled_floor n d (dec_exponent n d - 16), dec_exponent n d - 16)
  | S fuel' =>
      match repr_at x n d p with
      | Some r => r
      | None => repr_search x n d (p + 1) fuel'
      end
  end.

(** [repr(x)] of a finite float, as the pair [(m, k)] of [m * 10^k].  17
    significant digits always identify a binary64 number, so 17 rounds are
    enough. *)
Definition repr_digits (x : float) : Z * Z :=
  match x with
  | S754_finite s m e =>
      let '(n, d) := f_ratio (S754_finite false m e) in
      let '(c, k) := repr_search (S754_finite false m e) n d 1 17 in
      (cond_Zopp s c, k)
  | _ => (0, 0)
  end.

(** ** Comparison of binary64 numbers is a total order away from NaN *)

(** Position of a float in the order; the exponent is the high part and the
    mantissa the low one, as [SFcompare] compares them. *)
Lemma f_compare_antisym x y : SFcompare y x = option_map CompOpp (SFcompare x y).
Proof.
  destruct x as [sx|sx| |sx mx ex], y as [sy|sy| |sy my ey]; cbn; try done;
    try (destruct sx; done); try (destruct sy; done); try (destruct sx, sy; done).
  destruct sx, sy; cbn; try done; rewrite (Z.compare_antisym ex ey);
    destruct (ex ?= ey)%Z; cbn; try done;
    change (Pos.compare_cont Eq my mx) with (my ?= mx)%positive;
    change (Pos.compare_cont Eq mx my) with (mx ?= my)%positive;
    rewrite (Pos.compare_antisym mx my); by destruct (mx ?= my)%positive.
Qed.

Definition f_key (x : float) : Z * Z * Z :=
  match x with
  | S754_infinity true => (-2, 0, 0)
  | S754_finite true m e => (-1, - e, - Zpos m)
  | S754_finite false m e => (1, e, Zpos m)
  | S754_infinity false => (2, 0, 0)
  | _ => (0, 0, 0)
  end.

Definition key_lt (a b : Z * Z * Z) : Prop :=
  let '(a1, a2, a3) := a in
  let '(b1, b2, b3) := b in
  a1 < b1 \/ (a1 = b1 /\ (a2 < b2 \/ (a2 = b2 /\ a3 < b3))).

Lemma f_lt_key x y :
  is_nan x = false -> is_nan y = false -> f_lt x y = true <-> key_lt (f_key x) (f_key y).
Proof.
  unfold f_lt, SFltb. intros Hx Hy.
  destruct x as [sx|sx| |sx mx ex], y as [sy|sy| |sy my ey]; try done;
    try destruct sx; try destruct sy; cbn;
    try (split; [done|lia]); try (split; [lia|done]); try (split; lia).
  all: destruct (Z.compare_spec ex ey); cbn;
    try change (Pos.compare_cont Eq mx my) with (mx ?= my)%positive.
  all: try (split; [done|lia]); try (split; [lia|done]).
  all: destruct (Pos.compare_spec mx my); cbn; split; try done; try lia.
Qed.

Lemma f_lt_irrefl x : f_lt x x = false.
Proof.
  destruct (is_nan x) eqn:Hx; [by destruct x|].
  apply not_true_is_false. rewrite f_lt_key by done.
  destruct (f_key x) as [[? ?] ?]. cbn. lia.
Qed.

Lemma f_lt_nan_l x y : is_nan x = true -> f_lt x y = false.
Proof. by destruct x. Qed.
Lemma f_lt_nan_r x y : is_nan y = true -> f_lt x y = false.
Proof. destruct y; try done. by destruct x as [[]|[]| |[] ? ?]. Qed.

Lemma f_lt_not_nan x y : f_lt x y = true -> is_nan x = false /\ is_nan y = false.
Proof.
  intros H. split; apply not_true_is_false; intros Hn.
  - by rewrite (f_lt_nan_l x y Hn) in H.
  - by rewrite (f_lt_nan_r x y Hn) in H.
Qed.

Lemma f_lt_trans x y z : f_lt x y = true -> f_lt y z = true -> f_lt x z = true.
Proof.
  intros H1 H2. destruct (f_lt_not_nan _ _ H1), (f_lt_not_nan _ _ H2).
  rewrite f_lt_key in * by done.
  destruct (f_key x) as [[? ?] ?], (f_key y) as [[? ?] ?], (f_key z) as [[? ?] ?].
  cbn in *. lia.
Qed.

Lemma f_lt_cotrans x y z :
  is_nan y = false -> f_lt x z = true -> f_lt x y = true \/ f_lt y z = true.
Proof.
  intros Hy H. destruct (f_lt_not_nan _ _ H).
  rewrite !f_lt_key in * by done.
  destruct (f_key x) as [[? ?] ?], (f_key y) as [[? ?] ?], (f_key z) as [[? ?] ?].
  cbn in *. lia.
Qed.

(** [max(0.0, x)] is never negative. *)
Lemma f_max0_nonneg x : f_lt (f_max f0 x) f0 = false.
Proof.
  unfold f_max. destruct (f_lt f0 x) eqn:H; [|done].
  apply not_true_is_false. intros H'. pose proof (f_lt_trans _ _ _ H H') as Hc.
  discriminate Hc.
Qed.

Lemma f_max_ge_l a b : f_lt (f_max a b) a = false.
Proof.
  unfold f_max. destruct (f_lt a b) eqn:H; [|apply f_lt_irrefl].
  apply not_true_is_false. intros H'. pose proof (f_lt_trans _ _ _ H H') as Hc.
  by rewrite f_lt_irrefl in Hc.
Qed.

(** ** Checks of the executable definitions against CPython *)

Example repr_0_1 : repr_digits (f_of_dec 1 (-1)) = (1, -1).
Proof. vm_compute. reflexivity. Qed.
Example repr_third : repr_digits (f_div f1 (f_of_Z 3)) = (3333333333333333, -16).
Proof. vm_compute. reflexivity. Qed.
Example repr_sum : repr_digits (f_add (f_of_dec 1 (-1)) (f_of_dec 2 (-1)))
  = (30000000000000004, -17).
Proof. vm_compute. reflexivity. Qed.
Example repr_pow2 : repr_digits (f_of_bin 1 (-44)) = (5684341886080802, -29).
Proof. vm_compute. reflexivity. Qed.
Example repr_big : repr_digits (f_of_Z 123456) = (123456, 0).
Proof. vm_compute. reflexivity. Qed.

(** * A fraction of a whole number, in floating point

    What [int(fraction * n)] can be when [fraction] is [min(max(a / b, 0.0), 1.0)]
    and [n] is below 2^53: rounding never takes it past [n].  From the executable
    definitions of [SpecFloat]: the shift records what it lost, so rounding up
    happens only where there was room. *)

Local Open Scope Z_scope.

Ltac Zify.zify_post_hook ::= Z.div_mod_to_equations.

Lemma iter_pos_nat {A} (f : A -> A) p x : SpecFloat.iter_pos f p x = Nat.iter (Pos.to_nat p) f x.
Proof.
  revert x. induction p as [p IH|p IH|]; intros x; cbn [SpecFloat.iter_pos]; [| |done].
  - rewrite !IH, Pos2Nat.inj_xI. cbn [Nat.iter Nat.add Nat.mul].
    rewrite <- Nat.iter_add, <- Nat.iter_succ_r. f_equal. lia.
  - rewrite !IH, Pos2Nat.inj_xO, <- Nat.iter_add. f_equal. lia.
Qed.

Definition lost (r : shr_record) : bool := shr_r r || shr_s r.

Lemma shr_1_spec r : 0 <= shr_m r ->
  shr_m (shr_1 r) = shr_m r / 2 /\ (lost (shr_1 r) = false <-> lost r = false /\ shr_m r mod 2 = 0).
Proof.
  destruct r as [[|[p|p|]|p] b s]; cbn [shr_m]; intros H; [| | | |lia]; unfold lost;
    cbn [shr_1 shr_m shr_r shr_s].
  - split; [done|]. destruct b, s; naive_solver.
  - rewrite Pos2Z.inj_xI. split; [lia|]. destruct b, s; cbn; split; (done || lia).
  - rewrite Pos2Z.inj_xO. split; [lia|]. destruct b, s; cbn; split; (done || lia).
  - split; [done|]. destruct b, s; cbn; split; (done || lia).
Qed.

Lemma shift_spec r k : 0 <= shr_m r ->
  let r' := Nat.iter k shr_1 r in
  shr_m r' = shr_m r / 2 ^ Z.of_nat k /\
  (lost r' = false <-> lost r = false /\ shr_m r mod 2 ^ Z.of_nat k = 0).
Proof.
  intros Hm. induction k as [|k [IH1 IH2]]; cbn [Nat.iter nat_rect].
  - change (2 ^ Z.of_nat 0) with 1. rewrite Z.div_1_r, Z.mod_1_r. naive_solver.
  - cbv zeta in IH1, IH2. set (r' := Nat.iter k shr_1 r) in *.
    change (nat_rect _ r (fun _ => shr_1) k) with r'.
    assert (Hp : 0 < 2 ^ Z.of_nat k) by (apply Z.pow_pos_nonneg; lia).
    destruct (shr_1_spec r') as [H1 H2]; [rewrite IH1; by apply Z.div_pos|].
    rewrite Nat2Z.inj_succ, Z.pow_succ_r by lia. rewrite (Z.mul_comm 2).
    rewrite H1, IH1, Z.div_div by lia. split; [done|]. rewrite H2, IH2, IH1.
    rewrite (Z.rem_mul_r (shr_m r)) by lia.
    pose proof (Z.mod_pos_bound (shr_m r) (2 ^ Z.of_nat k) Hp) as Ha.
    pose proof (Z.mod_pos_bound (shr_m r / 2 ^ Z.of_nat k) 2 eq_refl) as Hb.
    set (a := shr_m r mod 2 ^ Z.of_nat k) in *. set (b := (shr_m r / 2 ^ Z.of_nat k) mod 2) in *.
    set (P := 2 ^ Z.of_nat k) in *. clearbody a b P. clear -Ha Hb Hp.
    split; [intros [[H1 H2] H3]|intros [H1 H2]]; repeat split; try done; nia.
Qed.

(** [shr], for a shift of any sign. *)
Lemma shr_spec r e n : 0 <= shr_m r ->
  let k := Z.max 0 n in
  snd (shr r e n) = e + k /\ shr_m (fst (shr r e n)) = shr_m r / 2 ^ k /\
  (lost (fst (shr r e n)) = false <-> lost r = false /\ shr_m r mod 2 ^ k = 0).
Proof.
  intros Hm k. subst k. destruct n as [|p|p]; cbn [shr fst snd].
  - change (2 ^ Z.max 0 0) with 1. rewrite Z.div_1_r, Z.mod_1_r. split_and!; [lia|done|naive_solver].
  - rewrite iter_pos_nat. replace (Z.max 0 (Z.pos p)) with (Z.of_nat (Pos.to_nat p)) by lia.
    split; [lia|]. by apply shift_spec.
  - change (2 ^ Z.max 0 (Z.neg p)) with 1. rewrite Z.div_1_r, Z.mod_1_r. split_and!; [lia|done|naive_solver].
Qed.

Lemma lost_exact r : lost r = false <-> loc_of_shr_record r = loc_Exact.
Proof. by destruct r as [m [] []]. Qed.

Lemma digits_spec p : 2 ^ (Z.pos (digits2_pos p) - 1) <= Z.pos p < 2 ^ Z.pos (digits2_pos p).
Proof.
  induction p as [p IH|p IH|]; cbn [digits2_pos]; [| |done];
    rewrite Pos2Z.inj_succ, Z.pow_succ_r by lia;
    replace (Z.succ (Z.pos (digits2_pos p)) - 1) with (Z.succ (Z.pos (digits2_pos p) - 1)) by lia;
    rewrite Z.pow_succ_r by lia; lia.
Qed.

(** Rounding adds one at most, and nothing to an exact value. *)
Lemma round_bounds m l : m <= round_nearest_even m l <= m + 1 /\ (l = loc_Exact -> round_nearest_even m l = m).
Proof. destruct l as [|[]]; cbn; [lia|destruct (Z.even m)| |]; split; (lia || done). Qed.

Abbreviation round_aux := (binary_round_aux prec emax).

Lemma fexp_ge d e : d + e - 53 <= fexp prec emax (d + e).
Proof. unfold fexp, prec. lia. Qed.

(** One alignment: by [k], enough for 53 bits to be left. *)
Lemma align_spec m e l : 0 <= m -> exists r k,
  shr_fexp prec emax m e l = (r, e + k) /\ 0 <= k /\ shr_m r = m / 2 ^ k /\ shr_m r < 2 ^ 53 /\
  (l = loc_Exact -> (loc_of_shr_record r = loc_Exact <-> m mod 2 ^ k = 0)) /\
  (k = 0 \/ e + k = fexp prec emax (Zdigits2 m + e)).
Proof.
  intros Hm. unfold shr_fexp. set (n := fexp prec emax (Zdigits2 m + e) - e).
  assert (Hr : shr_m (shr_record_of_loc m l) = m) by (by destruct l as [|[]]).
  pose proof (shr_spec (shr_record_of_loc m l) e n ltac:(by rewrite Hr)) as (H1 & H2 & H3).
  cbv zeta in *. rewrite Hr in H2, H3. set (k := Z.max 0 n) in *.
  exists (fst (shr (shr_record_of_loc m l) e n)), k. rewrite <- H1. split_and!.
  - by destruct (shr _ _ _).
  - lia.
  - done.
  - rewrite H2. apply Z.div_lt_upper_bound; [apply Z.pow_pos_nonneg; lia|].
    destruct m as [|p|p]; [apply Z.mul_pos_pos; apply Z.pow_pos_nonneg; lia| |lia].
    destruct (digits_spec p) as [_ Hd]. eapply Z.lt_le_trans; [exact Hd|]. rewrite <- Z.pow_add_r by lia.
    apply Z.pow_le_mono_r; [lia|]. pose proof (fexp_ge (Z.pos (digits2_pos p)) e). cbn [Zdigits2] in *. lia.
  - intros ->. rewrite <- lost_exact, H3. cbn. naive_solver.
  - lia.
Qed.

(** A rounded result has at most 53 bits. *)
Lemma round_aux_small s m e l s' m2 e2 : 0 <= m ->
  round_aux s m e l = S754_finite s' m2 e2 -> s' = s /\ Z.pos m2 < 2 ^ 53.
Proof.
  intros Hm. unfold binary_round_aux. destruct (align_spec m e l Hm) as (r & k & -> & Hk & Hr & _).
  pose proof (round_bounds (shr_m r) (loc_of_shr_record r)) as [[Hlo _] _].
  assert (0 <= shr_m r) by (rewrite Hr; apply Z.div_pos; [done|apply Z.pow_pos_nonneg; lia]).
  destruct (align_spec (round_nearest_even (shr_m r) (loc_of_shr_record r)) (e + k) loc_Exact ltac:(lia))
    as (r2 & k2 & -> & _ & _ & Hs & _).
  destruct (shr_m r2) as [|p|p]; [done| |done]. case_match; [|done]. by intros [= -> -> _].
Qed.

(** Rounding does not go past a number of 53 bits. *)
Lemma round_aux_le s m e my ey s' m2 e2 : 0 < m -> e <= ey -> emin prec emax <= ey -> 0 <= my < 2 ^ 53 ->
  m <= my * 2 ^ (ey - e) -> round_aux s m e loc_Exact = S754_finite s' m2 e2 ->
  e <= e2 /\ Z.pos m2 * 2 ^ (e2 - e) <= my * 2 ^ (ey - e).
Proof.
  intros Hm He Hmin Hmy Hle. unfold binary_round_aux.
  destruct (align_spec m e loc_Exact ltac:(lia)) as (r & k & -> & Hk & Hr & _ & Hex & Hfit).
  specialize (Hex eq_refl). assert (Hp : 0 < 2 ^ k) by (apply Z.pow_pos_nonneg; lia).
  (* the grid of the result is not coarser than [ey] *)
  assert (Hgrid : e + k <= ey).
  { destruct Hfit as [->|Hfit]; [lia|]. apply Z.le_ngt. intros Hlt.
    destruct m as [|p|p]; [done| |done]. destruct (digits_spec p) as [Hd _]. cbn [Zdigits2] in Hfit.
    set (d := Z.pos (digits2_pos p)) in *. assert (e + k = d + e - 53) by (unfold fexp in Hfit; unfold prec in *; lia).
    assert (my * 2 ^ (ey - e) < 2 ^ 53 * 2 ^ (ey - e)) by (apply Z.mul_lt_mono_pos_r; [apply Z.pow_pos_nonneg|]; lia).
    rewrite <- Z.pow_add_r in * by lia.
    assert (2 ^ (53 + (ey - e)) <= 2 ^ (d - 1)) by (apply Z.pow_le_mono_r; lia). lia. }
  set (R1 := my * 2 ^ (ey - (e + k))).
  assert (HR : my * 2 ^ (ey - e) = R1 * 2 ^ k).
  { subst R1. rewrite <- Z.mul_assoc, <- Z.pow_add_r by lia. do 2 f_equal. lia. }
  rewrite HR in Hle |- *.
  assert (H1 : round_nearest_even (shr_m r) (loc_of_shr_record r) <= R1).
  { destruct (round_bounds (shr_m r) (loc_of_shr_record r)) as [[_ Hub] Hsame].
    pose proof (Z.div_mod m (2 ^ k) ltac:(lia)) as Hdm. pose proof (Z.mod_pos_bound m (2 ^ k) Hp) as Hmod.
    rewrite <- Hr in Hdm. destruct (Z.eq_dec (m mod 2 ^ k) 0) as [E|E].
    - rewrite Hsame by (by apply Hex). apply Z.lt_succ_r, (Z.mul_lt_mono_pos_r (2 ^ k)); nia.
    - etransitivity; [exact Hub|]. apply Z.le_succ_l, (Z.mul_lt_mono_pos_r (2 ^ k)); nia. }
  assert (H0 : 0 <= shr_m r) by (rewrite Hr; apply Z.div_pos; lia).
  pose proof (round_bounds (shr_m r) (loc_of_shr_record r)) as [[Hlo _] _].
  set (q := round_nearest_even _ _) in *.
  destruct (align_spec q (e + k) loc_Exact ltac:(lia)) as (r2 & k2 & -> & Hk2 & Hr2 & _).
  destruct (shr_m r2) as [|p|p] eqn:Ep; [done| |done]. case_match; [|done]. intros [= <- <- <-]. split; [lia|].
  replace (e + k + k2 - e) with (k2 + k) by lia. rewrite Z.pow_add_r by lia. rewrite Z.mul_assoc.
  apply Z.mul_le_mono_nonneg_r; [lia|]. etransitivity; [|exact H1]. rewrite Hr2.
  rewrite Z.mul_comm. apply Z.mul_div_le, Z.pow_pos_nonneg; lia.
Qed.

(** ** Whole numbers are exact below 2^53 *)

Lemma iter_xO p k : Z.pos (Pos.iter xO p k) = Z.pos p * 2 ^ Z.pos k.
Proof.
  induction k as [|k IH] using Pos.peano_ind; [cbn; lia|].
  rewrite Pos.iter_succ, Pos2Z.inj_xO, IH, Pos2Z.inj_succ, Z.pow_succ_r by lia. lia.
Qed.

Lemma digits_unique p d : 2 ^ (d - 1) <= Z.pos p < 2 ^ d -> 0 < d -> Z.pos (digits2_pos p) = d.
Proof.
  intros [H1 H2] Hd. destruct (digits_spec p) as [H3 H4].
  assert (d - 1 < Z.pos (digits2_pos p)) by (apply (Z.pow_lt_mono_r_iff 2); lia).
  assert (Z.pos (digits2_pos p) - 1 < d) by (apply (Z.pow_lt_mono_r_iff 2); lia). lia.
Qed.

(** With 53 digits there is nothing to round. *)
Lemma round_aux_exact s p e : Z.pos (digits2_pos p) = 53 -> -1074 <= e <= 971 ->
  round_aux s (Z.pos p) e loc_Exact = S754_finite s p e.
Proof.
  intros Hd He. unfold binary_round_aux.
  assert (Hs : shr_fexp prec emax (Z.pos p) e loc_Exact = (Build_shr_record (Z.pos p) false false, e)).
  { unfold shr_fexp. cbn [Zdigits2]. rewrite Hd. unfold fexp, emin, prec, emax. cbn [shr_record_of_loc].
    replace (Z.max (53 + e - 53) (3 - 1024 - 53) - e) with 0 by lia. done. }
  rewrite Hs. cbn [shr_m loc_of_shr_record round_nearest_even]. rewrite Hs. cbn [shr_m].
  unfold emax, prec. by rewrite (proj2 (Z.leb_le e (1024 - 53))) by lia.
Qed.

Lemma f_of_Z_exact n : 0 < n < 2 ^ 53 -> exists my ey,
  f_of_Z n = S754_finite false my ey /\ Z.pos my < 2 ^ 53 /\ -52 <= ey <= 0 /\ Z.pos my = n * 2 ^ (- ey).
Proof.
  intros Hn. destruct n as [|p|p]; [lia| |lia]. unfold f_of_Z, f_of_bin, binary_normalize, binary_round.
  rewrite Z.add_0_r. destruct (digits_spec p) as [H1 H2]. set (d := Z.pos (digits2_pos p)) in *.
  assert (Hd : 1 <= d <= 53).
  { split; [lia|]. assert (d - 1 < 53); [|lia]. apply (Z.pow_lt_mono_r_iff 2); lia. }
  unfold shl_align. replace (fexp prec emax d - 0) with (d - 53) by (unfold fexp, emin, prec, emax; lia).
  destruct (d - 53) as [|k|k] eqn:E; [|lia|].
  - exists p, 0. rewrite round_aux_exact by lia. rewrite Z.mul_1_r. split_and!; (done || lia).
  - replace (fexp prec emax d) with (Z.neg k) by (unfold fexp, emin, prec, emax; lia).
    pose proof (iter_xO p k) as Hi. exists (Pos.iter xO p k), (Z.neg k).
    assert (Hb : 2 ^ 52 <= Z.pos (Pos.iter xO p k) < 2 ^ 53).
    { rewrite Hi. replace 52 with (d - 1 + Z.pos k) by lia. replace 53 with (d + Z.pos k) by lia.
      rewrite !Z.pow_add_r by lia. assert (0 < 2 ^ Z.pos k) by (apply Z.pow_pos_nonneg; lia). nia. }
    rewrite round_aux_exact by (try lia; by apply digits_unique).
    split_and!; [done|lia|lia|lia|]. by rewrite Hi.
Qed.

(** ** The fraction *)

Lemma small_div a b s m e : f_div a b = S754_finite s m e -> Z.pos m < 2 ^ 53.
Proof.
  unfold f_div, SFdiv. destruct a, b; try done. unfold SFdiv_core_binary.
  set (e' := Z.min _ _). set (m' := match _ with Z0 => _ | Zpos _ => _ | Zneg _ => _ end).
  assert (Hm' : 0 <= m').
  { subst m'. match goal with |- context [match ?x with Z0 => _ | Zpos _ => _ | Zneg _ => _ end] => destruct x end;
      try lia. by apply Z.shiftl_nonneg. }
  destruct (Z.div_eucl m' (Z.pos m1)) as [q r] eqn:Hq. intros H.
  eapply round_aux_small in H; [by destruct H|].
  pose proof (Z.div_pos m' (Z.pos m1) Hm' eq_refl). unfold Z.div in *. by rewrite Hq in *.
Qed.

(** Zero, or a finite positive number of 53 bits at most one. *)
Inductive unit_float : float -> Prop :=
| unit_zero s : unit_float (S754_zero s)
| unit_finite m e : e <= 0 -> Z.pos m < 2 ^ 53 -> Z.pos m <= 2 ^ (- e) -> unit_float (S754_finite false m e).

Lemma unit_clamp a b : is_nan (f_div a b) = false -> unit_float (f_min (f_max (f_div a b) f0) f1).
Proof.
  intros Hn. pose proof (small_div a b) as Hs. set (q := f_div a b) in *. clearbody q.
  change f1 with (S754_finite false 4503599627370496 (-52)).
  unfold f_max, f0. destruct q as [s|[]| |[] m e]; [destruct s; constructor| | |done| |].
  - cbn. constructor.
  - cbn. constructor; [lia|done|done].
  - cbn. constructor.
  - change (f_lt (S754_finite false m e) (S754_zero false)) with false. cbn match.
    unfold f_min. specialize (Hs false m e eq_refl).
    destruct (f_lt _ _) eqn:Hlt; [by constructor|].
    unfold f_lt, SFltb, SFcompare in Hlt. destruct (Z.compare_spec (-52) e) as [<-|E|E]; [|done|].
    + constructor; [lia|done|]. change (- -52) with 52. destruct (Pos.compare_cont Eq 4503599627370496 m) eqn:Hc; [|done|].
      * change (Pos.compare 4503599627370496 m = Eq) in Hc. apply Pos.compare_eq in Hc. by subst m.
      * change (Pos.compare 4503599627370496 m = Gt) in Hc. apply Pos.compare_gt_iff in Hc.
        change (2 ^ 52) with (Z.pos 4503599627370496). apply Z.lt_le_incl. exact Hc.
    + constructor; [lia|done|]. etransitivity; [apply Z.lt_le_incl, Hs|]. apply Z.pow_le_mono_r; lia.
Qed.

(** [int(x * n)] for such an [x]. *)
Lemma scaled_bounds x n : unit_float x -> 0 <= n < 2 ^ 53 -> 0 <= f_trunc (f_mul x (f_of_Z n)) <= n.
Proof.
  intros Hx Hn. destruct (Z.eq_dec n 0) as [->|Hn0]; [by destruct Hx|].
  destruct (f_of_Z_exact n ltac:(lia)) as (my & ey & -> & Hmy & Hey & Hval).
  assert (Hzero : forall y, (forall s m e, y <> S754_finite s m e) -> 0 <= f_trunc y <= n).
  { clear -Hn. intros [s|s| |s m e] Hy; [change (0 <= 0 <= n); lia..|]. by destruct (Hy s m e). }
  destruct Hx as [s|m e He Hm Hone]; [by apply Hzero|].
  unfold f_mul, SFmul. destruct (round_aux _ _ _ _) as [s'|s'| |s' m2 e2] eqn:Hr; [by apply Hzero..|].
  destruct (round_aux_small _ (Z.pos (m * my)) _ _ _ _ _ ltac:(lia) Hr) as [-> _].
  apply (round_aux_le _ _ _ (Z.pos my) ey) in Hr as [H1 H2]; [|lia|lia|unfold emin, prec, emax; lia|lia|].
  2: { replace (ey - (e + ey)) with (- e) by lia. rewrite Pos2Z.inj_mul, (Z.mul_comm (Z.pos m)).
       apply Z.mul_le_mono_nonneg_l; lia. }
  set (b := e + ey) in *. rewrite Hval, <- Z.mul_assoc, <- Z.pow_add_r in H2 by lia.
  replace (- ey + (ey - b)) with (- b) in H2 by lia.
  unfold f_trunc, f_ratio. cbn [xorb cond_Zopp]. destruct (Z.leb_spec 0 e2) as [E|E].
  - rewrite Z.quot_1_r. assert (0 < 2 ^ e2) by (apply Z.pow_pos_nonneg; lia). split; [lia|].
    apply (Z.mul_le_mono_pos_r _ _ (2 ^ (- b))); [apply Z.pow_pos_nonneg; lia|].
    by rewrite <- Z.mul_assoc, <- Z.pow_add_r by lia.
  - assert (Hp : 0 < 2 ^ (- e2)) by (apply Z.pow_pos_nonneg; lia).
    rewrite Z.quot_div_nonneg by lia. split; [apply Z.div_pos; lia|]. apply Z.div_le_upper_bound; [done|].
    apply (Z.mul_le_mono_pos_r _ _ (2 ^ (e2 - b))); [apply Z.pow_pos_nonneg; lia|].
    rewrite (Z.mul_comm (2 ^ (- e2))), <- Z.mul_assoc, <- Z.pow_add_r by lia.
    by replace (- e2 + (e2 - b)) with (- b) by lia.
Qed.
