(* ===== verification/PyDecimal.v ===== *)
(** * Python's [decimal.Decimal]

    A [Decimal] is [coef * 10^dexp].  Sums, differences and products are exact
    here; CPython's default context rounds a result to 28 significant digits,
    half to even.  [ctx_add], [ctx_sub] and [ctx_mul] are the operations with
    that rounding, and [ctx_add_exact] and its companions show that they agree
    with the exact ones as long as the result fits in 28 digits, which for
    amounts of money means below 10^26 dollars.  Division always goes through
    the context ([dec_div]).  Signed zeros and NaN are left out. *)

From S2P Require Import Prelude PyFloat.
Local Open Scope Z_scope.

Record Decimal := mkDec { coef : Z; dexp : Z }.

#[export] Instance Decimal_eq_dec : EqDecision Decimal.
Proof. solve_decision. Defined.

(** The coefficient at exponent [e <= dexp d]. *)
Definition at_exp (d : Decimal) (e : Z) : Z := coef d * 10 ^ (dexp d - e).

Definition common (a b : Decimal) : Z := Z.min (dexp a) (dexp b).

Definition dec_add (a b : Decimal) : Decimal :=
  let e := common a b in mkDec (at_exp a e + at_exp b e) e.
Definition dec_sub (a b : Decimal) : Decimal :=
  let e := common a b in mkDec (at_exp a e - at_exp b e) e.
Definition dec_mul (a b : Decimal) : Decimal :=
  mkDec (coef a * coef b) (dexp a + dexp b).
Definition dec_neg (a : Decimal) : Decimal := mkDec (- coef a) (dexp a).

Definition dec_compare (a b : Decimal) : comparison :=
  let e := common a b in Z.compare (at_exp a e) (at_exp b e).
Definition dec_leb (a b : Decimal) : bool :=
  let e := common a b in at_exp a e <=? at_exp b e.
Definition dec_ltb (a b : Decimal) : bool :=
  let e := common a b in at_exp a e <? at_exp b e.
Definition dec_eqb (a b : Decimal) : bool :=
  let e := common a b in at_exp a e =? at_exp b e.

Definition dec_of_Z (n : Z) : Decimal := mkDec n 0.
Definition dzero : Decimal := mkDec 0 0.

(** [min(a, b)] and [max(a, b)]: the first argument unless the second beats it. *)
Definition dec_min (a b : Decimal) : Decimal := if dec_ltb b a then b else a.
Definition dec_max (a b : Decimal) : Decimal := if dec_ltb a b then b else a.

(** ** The 28-digit context *)

Definition ctx_prec := 28.

Definition div_half_even (n p : Z) : Z := round_half_even n p.

(** [Decimal._fix]: round to 28 digits; a carry to 29 digits is renormalised. *)
Definition ctx_fix (d : Decimal) : Decimal :=
  let k := ndigits (coef d) - ctx_prec in
  if k <=? 0 then d
  else
    let c := Z.sgn (coef d) * div_half_even (Z.abs (coef d)) (10 ^ k) in
    if ndigits c <=? ctx_prec then mkDec c (dexp d + k)
    else mkDec (c / 10) (dexp d + k + 1).

Definition ctx_add (a b : Decimal) : Decimal := ctx_fix (dec_add a b).
Definition ctx_sub (a b : Decimal) : Decimal := ctx_fix (dec_sub a b).
Definition ctx_mul (a b : Decimal) : Decimal := ctx_fix (dec_mul a b).

(** Strip trailing zeros, up to the ideal exponent. *)
Fixpoint strip_zeros (fuel : nat) (c e ideal : Z) : Z * Z :=
  match fuel with
  | O => (c, e)
  | S k => if (e <? ideal) && (c mod 10 =? 0)
           then strip_zeros k (c / 10) (e + 1) ideal else (c, e)
  end.

(** [Decimal.__truediv__]; [None] is [DivisionByZero] or [InvalidOperation]. *)
Definition dec_div (a b : Decimal) : option Decimal :=
  if coef b =? 0 then None
  else if coef a =? 0 then Some (mkDec 0 (dexp a - dexp b))
  else
    let sign := Z.sgn (coef a) * Z.sgn (coef b) in
    let op1 := Z.abs (coef a) in
    let op2 := Z.abs (coef b) in
    let shift := ndigits op2 - ndigits op1 + ctx_prec + 1 in
    let e := dexp a - dexp b - shift in
    let num := if 0 <=? shift then op1 * 10 ^ shift else op1 in
    let den := if 0 <=? shift then op2 else op2 * 10 ^ (- shift) in
    let q := num / den in
    let r := num mod den in
    let '(c, e') :=
      if negb (r =? 0) then ((if q mod 5 =? 0 then q + 1 else q), e)
      else strip_zeros 64 q e (dexp a - dexp b) in
    Some (ctx_fix (mkDec (sign * c) e')).

(** [float(d)] *)
Definition dec_to_float (d : Decimal) : float := f_of_dec (coef d) (dexp d).

(** [Decimal(repr(x))] *)
Definition dec_of_float (x : float) : Decimal :=
  let '(c, k) := repr_digits x in mkDec c k.

(** [d.quantize(Decimal("0.01"), rounding=ROUND_HALF_UP)], as its coefficient:
    the number of hundredths, ties away from zero. *)
Definition half_up (n p : Z) : Z :=
  Z.sgn n * ((2 * Z.abs n + p) / (2 * p)).

Definition quantize_cents (d : Decimal) : Z :=
  if - 2 <=? dexp d then at_exp d (- 2) else half_up (coef d) (10 ^ (- 2 - dexp d)).

(** [quantize] raises [InvalidOperation] when the result needs more than 28
    digits. *)
Definition quantize_checked (d : Decimal) : option Z :=
  let c := quantize_cents d in
  if ndigits c <=? ctx_prec then Some c else None.

Definition of_cents (c : Z) : Decimal := mkDec c (- 2).

(** ** Lemmas *)

Lemma pow10_pos k : 0 <= k -> 0 < 10 ^ k.
Proof. intros. apply Z.pow_pos_nonneg; lia. Qed.
#[export] Hint Resolve pow10_pos : core.

(** Re-expressing a decimal at a lower exponent scales its coefficient. *)
Lemma at_exp_scale d e e' :
  e' <= e -> e <= dexp d -> at_exp d e' = at_exp d e * 10 ^ (e - e').
Proof.
  intros. unfold at_exp. rewrite <- Z.mul_assoc, <- Z.pow_add_r by lia.
  f_equal. f_equal. lia.
Qed.

Lemma dec_leb_at a b e :
  e <= dexp a -> e <= dexp b -> dec_leb a b = (at_exp a e <=? at_exp b e).
Proof.
  intros Ha Hb. unfold dec_leb, common.
  rewrite (at_exp_scale a (Z.min (dexp a) (dexp b)) e) by lia.
  rewrite (at_exp_scale b (Z.min (dexp a) (dexp b)) e) by lia.
  set (k := 10 ^ _). assert (0 < k) by (subst k; apply pow10_pos; lia).
  destruct (Z.leb_spec (at_exp a (Z.min (dexp a) (dexp b)))
                       (at_exp b (Z.min (dexp a) (dexp b)))), (Z.leb_spec
    (at_exp a (Z.min (dexp a) (dexp b)) * k) (at_exp b (Z.min (dexp a) (dexp b)) * k));
    try done; nia.
Qed.

Lemma dec_ltb_leb a b : dec_ltb a b = negb (dec_leb b a).
Proof.
  unfold dec_ltb, dec_leb, common. rewrite (Z.min_comm (dexp b)).
  by rewrite Z.ltb_antisym.
Qed.

Lemma dec_ltb_at a b e :
  e <= dexp a -> e <= dexp b -> dec_ltb a b = (at_exp a e <? at_exp b e).
Proof.
  intros. rewrite dec_ltb_leb, (dec_leb_at b a e) by done. by rewrite Z.ltb_antisym.
Qed.

Lemma dec_leb_trans a b c : dec_leb a b = true -> dec_leb b c = true -> dec_leb a c = true.
Proof.
  set (e := Z.min (dexp a) (Z.min (dexp b) (dexp c))).
  rewrite (dec_leb_at a b e), (dec_leb_at b c e), (dec_leb_at a c e) by lia. lia.
Qed.

Lemma dec_leb_total a b : dec_leb a b = true \/ dec_leb b a = true.
Proof. unfold dec_leb, common. rewrite (Z.min_comm (dexp b)). lia. Qed.

Lemma dec_leb_refl a : dec_leb a a = true.
Proof. destruct (dec_leb_total a a); done. Qed.

Lemma dec_leb_lt_trans a b c :
  dec_leb a b = true -> dec_ltb b c = true -> dec_ltb a c = true.
Proof.
  set (e := Z.min (dexp a) (Z.min (dexp b) (dexp c))).
  rewrite (dec_leb_at a b e), (dec_ltb_at b c e), (dec_ltb_at a c e) by lia. lia.
Qed.

Lemma at_exp_cents c e : e <= -2 -> at_exp (of_cents c) e = c * 10 ^ (- 2 - e).
Proof. reflexivity. Qed.

Lemma dec_leb_cents a b : dec_leb (of_cents a) (of_cents b) = (a <=? b).
Proof. unfold dec_leb, common, at_exp, of_cents. cbn. by rewrite !Z.mul_1_r. Qed.
Lemma dec_ltb_cents a b : dec_ltb (of_cents a) (of_cents b) = (a <? b).
Proof. unfold dec_ltb, common, at_exp, of_cents. cbn. by rewrite !Z.mul_1_r. Qed.
Lemma dec_add_cents a b : dec_add (of_cents a) (of_cents b) = of_cents (a + b).
Proof. unfold dec_add, common, at_exp, of_cents. cbn. by rewrite !Z.mul_1_r. Qed.
Lemma dec_sub_cents a b : dec_sub (of_cents a) (of_cents b) = of_cents (a - b).
Proof. unfold dec_sub, common, at_exp, of_cents. cbn. by rewrite !Z.mul_1_r. Qed.
Lemma dec_min_cents a b : dec_min (of_cents a) (of_cents b) = of_cents (Z.min a b).
Proof.
  unfold dec_min. rewrite dec_ltb_cents. destruct (Z.ltb_spec b a); f_equal; lia.
Qed.
Lemma dec_leb_zero_cents c : dec_leb (of_cents c) dzero = (c <=? 0).
Proof. rewrite (dec_leb_at _ _ (-2)) by (cbn; lia). unfold at_exp. cbn. by rewrite Z.mul_1_r. Qed.
Lemma dec_ltb_zero_cents c : dec_ltb dzero (of_cents c) = (0 <? c).
Proof. rewrite (dec_ltb_at _ _ (-2)) by (cbn; lia). unfold at_exp. cbn. by rewrite Z.mul_1_r. Qed.
Lemma dec_max_zero_cents c :
  dec_max dzero (of_cents c) = if 0 <? c then of_cents c else dzero.
Proof. unfold dec_max. by rewrite dec_ltb_zero_cents. Qed.

Lemma dec_add_comm a b : dec_add a b = dec_add b a.
Proof. unfold dec_add, common. by rewrite Z.min_comm, Z.add_comm. Qed.

(** [a <= b - c] exactly when [a + c <= b]. *)
Lemma dec_leb_sub a b c : dec_leb a (dec_sub b c) = dec_leb (dec_add a c) b.
Proof.
  set (e := Z.min (dexp a) (Z.min (dexp b) (dexp c))).
  assert (Hs : at_exp (dec_sub b c) e = at_exp b e - at_exp c e).
  { unfold at_exp at 1. cbn. rewrite Z.mul_sub_distr_r. unfold common.
    rewrite (at_exp_scale b (Z.min (dexp b) (dexp c)) e) by lia.
    rewrite (at_exp_scale c (Z.min (dexp b) (dexp c)) e) by lia. done. }
  assert (Ha : at_exp (dec_add a c) e = at_exp a e + at_exp c e).
  { unfold at_exp at 1. cbn. rewrite Z.mul_add_distr_r. unfold common.
    rewrite (at_exp_scale a (Z.min (dexp a) (dexp c)) e) by lia.
    rewrite (at_exp_scale c (Z.min (dexp a) (dexp c)) e) by lia. done. }
  rewrite (dec_leb_at a _ e) by (cbn; unfold common; lia).
  rewrite (dec_leb_at (dec_add a c) b e) by (cbn; unfold common; lia).
  rewrite Hs, Ha. lia.
Qed.

Lemma quantize_cents_of_cents c : quantize_cents (of_cents c) = c.
Proof. unfold quantize_cents, at_exp. cbn. by rewrite Z.mul_1_r. Qed.

Lemma half_up_bounds n p :
  0 < p -> 2 * Z.abs (half_up n p * p - n) <= p.
Proof.
  intros Hp. unfold half_up.
  pose proof (Z.div_mod (2 * Z.abs n + p) (2 * p) ltac:(lia)) as Hd.
  pose proof (Z.mod_pos_bound (2 * Z.abs n + p) (2 * p) ltac:(lia)).
  set (q := (2 * Z.abs n + p) / (2 * p)) in *.
  destruct (Z.lt_trichotomy n 0) as [H'|[->|H']].
  - rewrite (Z.sgn_neg n), (Z.abs_neq n) in * by lia. nia.
  - cbn in *. lia.
  - rewrite (Z.sgn_pos n), (Z.abs_eq n) in * by lia. nia.
Qed.

Lemma half_up_mono n m p : 0 < p -> n <= m -> half_up n p <= half_up m p.
Proof.
  intros Hp Hnm. pose proof (half_up_bounds n p Hp). pose proof (half_up_bounds m p Hp).
  destruct (Z.le_gt_cases (half_up n p) (half_up m p)) as [|Hlt]; [done|exfalso].
  (* then n and m both sit exactly half way between the two roundings *)
  assert (half_up n p = half_up m p + 1) as Heq by nia.
  assert (n = m) by nia. subst. lia.
Qed.

(** The context leaves a result of at most 28 digits alone. *)
Lemma ctx_fix_small d : ndigits (coef d) <= ctx_prec -> ctx_fix d = d.
Proof. intros H. unfold ctx_fix. destruct (Z.leb_spec (ndigits (coef d) - ctx_prec) 0); [done|lia]. Qed.

Lemma ctx_add_exact a b :
  ndigits (coef (dec_add a b)) <= ctx_prec -> ctx_add a b = dec_add a b.
Proof. apply ctx_fix_small. Qed.
Lemma ctx_sub_exact a b :
  ndigits (coef (dec_sub a b)) <= ctx_prec -> ctx_sub a b = dec_sub a b.
Proof. apply ctx_fix_small. Qed.
Lemma ctx_mul_exact a b :
  ndigits (coef (dec_mul a b)) <= ctx_prec -> ctx_mul a b = dec_mul a b.
Proof. apply ctx_fix_small. Qed.


Create Rewrite HintDb dec.
#[export] Hint Rewrite dec_leb_cents dec_ltb_cents dec_add_cents dec_sub_cents
  dec_min_cents dec_leb_zero_cents dec_ltb_zero_cents quantize_cents_of_cents : dec.

(** ** Checks against CPython *)

Example div_ex : dec_div (dec_of_Z 1) (dec_of_Z 3)
  = Some (mkDec 3333333333333333333333333333 (-28)).
Proof. vm_compute. reflexivity. Qed.
Example div_ex2 : dec_div (mkDec 2500 (-2)) (mkDec 1006 (-3))
  = Some (mkDec 2485089463220675944333996024 (-26)).
Proof. vm_compute. reflexivity. Qed.
Example quant_ex : quantize_cents (mkDec 1005 (-3)) = 101 /\ quantize_cents (mkDec (-1005) (-3)) = -101.
Proof. vm_compute. split; reflexivity. Qed.
