(* ===== verification/PyFormat.v ===== *)
(** * Python's string formatting, as far as the broker's messages use it

    [str] and [:d] of integers, [:0Nd], [:,], [:.Nf] and [:g] of floats, [str.lower]
    on ASCII, slices and [join]. *)

From stdpp Require Import pretty.
From S2P Require Import Prelude PyFloat.
Local Open Scope Z_scope.

Lemma str_app_assoc (a b c : string) : (a +:+ b) +:+ c = a +:+ b +:+ c.
Proof. induction a as [|x a IH]; [done|]. change (String x ((a +:+ b) +:+ c) = String x (a +:+ b +:+ c)). by rewrite IH. Qed.

Lemma str_app_nil (a : string) : a +:+ "" = a.
Proof. induction a as [|x a IH]; [done|]. change (String x (a +:+ "") = String x a). by rewrite IH. Qed.

Lemma str_length_app (a b : string) : String.length (a +:+ b) = (String.length a + String.length b)%nat.
Proof. induction a as [|x a IH]; [done|]. change (S (String.length (a +:+ b)) = S (String.length a + String.length b)). by rewrite IH. Qed.

(** [str(n)] *)
Definition str_of_Z (n : Z) : string := pretty n.

Fixpoint str_repeat (s : string) (n : nat) : string :=
  match n with O => "" | S k => s +:+ str_repeat s k end.

(** [f"{n:0wd}"] for [n >= 0] *)
Definition pad0 (w : nat) (n : Z) : string :=
  let s := str_of_Z n in str_repeat "0" (w - String.length s) +:+ s.

(** [s[:n]] *)
Definition str_take (n : nat) (s : string) : string := String.substring 0 n s.

(** [sep.join(xs)] *)
Fixpoint str_join (sep : string) (xs : list string) : string :=
  match xs with
  | [] => ""
  | [x] => x
  | x :: xs' => x +:+ sep +:+ str_join sep xs'
  end.

(** [repr(list)] of strings without quotes or escapes *)
Definition repr_list (l : list string) : string :=
  "[" +:+ str_join ", " (map (fun x => "'" +:+ x +:+ "'") l) +:+ "]".

(** Thousands separators in a string of digits, from the right. *)
Fixpoint commas_fuel (fuel : nat) (n : Z) : string :=
  match fuel with
  | O => ""
  | S k => if n <? 1000 then str_of_Z n
           else commas_fuel k (n / 1000) +:+ "," +:+ pad0 3 (n mod 1000)
  end.

(** [f"{n:,}"] *)
Definition str_commas (n : Z) : string :=
  (if n <? 0 then "-" else "") +:+
  commas_fuel (Z.to_nat (Z.log2_up (Z.abs n) + 2)) (Z.abs n).

(** [f"{q:,.2f}"] of a decimal already quantised to hundredths. *)
Definition str_cents (c : Z) : string :=
  let a := Z.abs c in
  (if c <? 0 then "-" else "") +:+
  commas_fuel (Z.to_nat (Z.log2_up a + 2)) (a / 100) +:+ "." +:+ pad0 2 (a mod 100).

(** [f"{x:.Nf}"]: the exact value rounded half to even at the [N]th digit. *)
Definition f_fixed (digits : nat) (x : float) : string :=
  match x with
  | SpecFloat.S754_nan => "nan"
  | SpecFloat.S754_infinity s => if s then "-inf" else "inf"
  | _ =>
      let '(n, d) := f_ratio x in
      let p := 10 ^ Z.of_nat digits in
      let q := round_half_even (Z.abs n * p) d in
      let neg := match x with
                 | SpecFloat.S754_zero s => s
                 | SpecFloat.S754_finite s _ _ => s
                 | _ => false
                 end in
      (if neg then "-" else "") +:+ str_of_Z (q / p) +:+
      (match digits with O => "" | _ => "." +:+ pad0 digits (q mod p) end)
  end.

(** Drop the zeros that end the fraction of [c * 10^(-k)]. *)
Fixpoint drop_zeros (k : nat) (c : Z) : nat * Z :=
  match k with
  | O => (O, c)
  | S k' => if c mod 10 =? 0 then drop_zeros k' (c / 10) else (k, c)
  end.

Definition dec_str (c : Z) (k : nat) : string :=
  match k with
  | O => str_of_Z c
  | _ => let p := 10 ^ Z.of_nat k in str_of_Z (c / p) +:+ "." +:+ pad0 k (c mod p)
  end.

(** [f"{x:g}"]: six significant digits, trailing zeros dropped, scientific
    notation outside [1e-4, 1e6). *)
Definition f_general (x : float) : string :=
  match x with
  | SpecFloat.S754_nan => "nan"
  | SpecFloat.S754_infinity s => if s then "-inf" else "inf"
  | SpecFloat.S754_zero s => if s then "-0" else "0"
  | SpecFloat.S754_finite s m e =>
      let '(n, d) := f_ratio (SpecFloat.S754_finite false m e) in
      let k := dec_exponent n d - 5 in
      let c := if 0 <=? k then round_half_even n (d * 10 ^ k)
               else round_half_even (n * 10 ^ (- k)) d in
      let '(c, k) := if c =? 1000000 then (100000, k + 1) else (c, k) in
      let ex := k + 5 in
      (if s then "-" else "") +:+
      (if (- 4 <=? ex) && (ex <? 6) then
         let '(fr, c') := drop_zeros (Z.to_nat (- k)) c in dec_str c' fr
       else
         let '(fr, c') := drop_zeros 5 c in
         dec_str c' fr +:+ (if ex <? 0 then "e-" else "e+") +:+ pad0 2 (Z.abs ex))
  end.

(** [str(x)], the same as [repr(x)]: the shortest digits, ".0" kept on whole
    numbers, scientific notation outside [1e-4, 1e16). *)
Definition f_repr (x : float) : string :=
  match x with
  | SpecFloat.S754_nan => "nan"
  | SpecFloat.S754_infinity s => if s then "-inf" else "inf"
  | SpecFloat.S754_zero s => if s then "-0.0" else "0.0"
  | SpecFloat.S754_finite s m e =>
      let '(c, k) := repr_digits (SpecFloat.S754_finite false m e) in
      let ex := ndigits c + k - 1 in
      (if s then "-" else "") +:+
      (if (- 4 <=? ex) && (ex <? 16) then
         if 0 <=? k then str_of_Z (c * 10 ^ k) +:+ ".0"
         else dec_str c (Z.to_nat (- k))
       else
         let n := Z.to_nat (ndigits c - 1) in
         dec_str c n +:+ (if ex <? 0 then "e-" else "e+") +:+ pad0 2 (Z.abs ex))
  end.

Definition ascii_lower (a : Ascii.ascii) : Ascii.ascii :=
  let n := Ascii.nat_of_ascii a in
  if (65 <=? n)%nat && (n <=? 90)%nat then Ascii.ascii_of_nat (n + 32) else a.

(** [s.lower()] on ASCII *)
Fixpoint str_lower (s : string) : string :=
  match s with
  | EmptyString => EmptyString
  | String a s' => String (ascii_lower a) (str_lower s')
  end.

(** Truth value of an [Optional[str]]: [None] and [""] are false. *)
Definition truthy (o : option string) : bool :=
  match o with Some (String _ _) => true | _ => false end.

(** [a or b] where [a] is an [Optional[str]] *)
Definition str_or (o : option string) (d : string) : string :=
  match o with Some (String a s) => String a s | _ => d end.

(** [s.split(c)] *)
Fixpoint split_char (c : ascii) (s : string) : list string :=
  match s with
  | EmptyString => [""]
  | String a s' =>
      if Ascii.eqb a c then "" :: split_char c s'
      else match split_char c s' with
           | p :: ps => String a p :: ps
           | [] => [String a ""]
           end
  end.

(** [s.partition(c)], when [c] occurs in [s] *)
Fixpoint partition_char (c : ascii) (s : string) : option (string * string) :=
  match s with
  | EmptyString => None
  | String a s' =>
      if Ascii.eqb a c then Some ("", s')
      else option_map (fun p => (String a (fst p), snd p)) (partition_char c s')
  end.

(** [s] without the prefix [p], when it has it *)
Fixpoint strip_prefix (p s : string) : option string :=
  match p, s with
  | EmptyString, _ => Some s
  | String a p', String b s' => if Ascii.eqb a b then strip_prefix p' s' else None
  | _, _ => None
  end.

Lemma strip_prefix_app p s : strip_prefix p (p +:+ s) = Some s.
Proof.
  induction p as [|a p IH]; [done|]. change (String a p +:+ s) with (String a (p +:+ s)).
  cbn [strip_prefix]. by rewrite Ascii.eqb_refl.
Qed.

(** Text without the separator is one part; the separator starts another. *)
Lemma split_char_free c s : forallb (fun a => negb (Ascii.eqb a c)) (String.list_ascii_of_string s) = true ->
  split_char c s = [s].
Proof.
  induction s as [|a s IH]; [done|]. cbn. intros [Ha Hs]%andb_true_iff. rewrite IH by done.
  by destruct (Ascii.eqb a c).
Qed.

Lemma split_char_app c s t : forallb (fun a => negb (Ascii.eqb a c)) (String.list_ascii_of_string s) = true ->
  split_char c (s +:+ String c t) = s :: split_char c t.
Proof.
  induction s as [|a s IH]; intros Hs.
  - change ("" +:+ String c t) with (String c t). cbn. by rewrite Ascii.eqb_refl.
  - change (String a s +:+ String c t) with (String a (s +:+ String c t)). cbn in *.
    apply andb_true_iff in Hs as [Ha Hs]. rewrite IH by done. by destruct (Ascii.eqb a c).
Qed.

Example fixed_ex : f_fixed 2 (f_of_dec 2675 (-3)) = "2.67" /\ f_fixed 0 (f_of_dec 25 (-1)) = "2".
Proof. vm_compute. split; reflexivity. Qed.
Example general_ex : (f_general (f_of_dec 25 (-1)), f_general (f_of_Z 24), f_general (f_of_dec 1 20),
                      f_general (f_of_dec 1 (-5)), f_general (f_of_Z 123456))
  = ("2.5", "24", "1e+20", "1e-05", "123456").
Proof. vm_compute. reflexivity. Qed.
Example repr_ex : (f_repr (f_of_dec 25 (-1)), f_repr (f_of_Z 24), f_repr (f_of_dec 1 20),
                   f_repr (f_of_dec 15 (-6)), f_repr (f_of_dec 3 (-2)))
  = ("2.5", "24.0", "1e+20", "1.5e-05", "0.03").
Proof. vm_compute. reflexivity. Qed.
Example commas_ex : (str_commas 1234567, str_cents 123456789, str_cents 5, str_commas 4096)
  = ("1,234,567", "1,234,567.89", "0.05", "4,096").
Proof. vm_compute. reflexivity. Qed.
