(* ===== verification/PySort.v ===== *)
(** * Python's [sorted], and sums over lists

    [py_sort lt] is the stable sort by the strict order [lt] (Python compares
    keys with [<] only).  When [lt] is a strict weak order the result is a
    sorted permutation of the input, and when it is total on the input it does
    not depend on the order of the input. *)

From Stdlib Require Import Permutation Sorted.
From S2P Require Import Prelude PyFloat.
Local Open Scope Z_scope.

Section Sort.
Context {A : Type} (lt : A -> A -> bool).

Fixpoint insert_sorted (x : A) (l : list A) : list A :=
  match l with
  | [] => [x]
  | y :: l' => if lt y x then y :: insert_sorted x l' else x :: y :: l'
  end.

Definition py_sort (l : list A) : list A := foldr insert_sorted [] l.

Lemma insert_sorted_perm x l : Permutation (insert_sorted x l) (x :: l).
Proof.
  induction l as [|y l IH]; cbn; [done|].
  destruct (lt y x); [|done]. rewrite IH. apply perm_swap.
Qed.

Lemma py_sort_perm l : Permutation (py_sort l) l.
Proof.
  induction l as [|x l IH]; cbn; [done|]. by rewrite insert_sorted_perm, IH.
Qed.

Lemma py_sort_elem x l : x ∈ py_sort l <-> x ∈ l.
Proof. by rewrite (py_sort_perm l). Qed.

Lemma py_sort_length l : length (py_sort l) = length l.
Proof. apply Permutation_length, py_sort_perm. Qed.

(** [a] may stand before [b]: not [b < a]. *)
Definition sort_le (a b : A) : Prop := lt b a = false.

Class StrictWeakOrder : Prop := {
  swo_asym : forall a b, lt a b = true -> lt b a = false;
  swo_cotrans : forall a b c, lt a c = true -> lt a b = true \/ lt b c = true
}.

Context `{StrictWeakOrder}.

Lemma sort_le_trans a b c : sort_le a b -> sort_le b c -> sort_le a c.
Proof.
  unfold sort_le. intros Hab Hbc. apply not_true_is_false. intros Hca.
  destruct (swo_cotrans c b a Hca); congruence.
Qed.

Lemma insert_sorted_sorted x l :
  StronglySorted sort_le l -> StronglySorted sort_le (insert_sorted x l).
Proof.
  induction 1 as [|y l Hs IH Hf]; cbn; [by repeat constructor|].
  destruct (lt y x) eqn:Hyx.
  - constructor; [done|]. apply List.Forall_forall. intros z Hz.
    apply (Permutation_in _ (insert_sorted_perm x l)) in Hz as [<-|Hz].
    + by apply swo_asym.
    + by eapply List.Forall_forall in Hf.
  - constructor; [by constructor|]. constructor; [done|].
    eapply List.Forall_impl; [|exact Hf]. intros z. by apply sort_le_trans.
Qed.

Lemma py_sort_sorted l : StronglySorted sort_le (py_sort l).
Proof. induction l; cbn; [constructor|by apply insert_sorted_sorted]. Qed.

(** Two sorted permutations of each other are equal when ties are equalities. *)
Lemma sorted_perm_eq l1 l2 :
  (forall a b, a ∈ l1 -> b ∈ l1 -> sort_le a b -> sort_le b a -> a = b) ->
  StronglySorted sort_le l1 -> StronglySorted sort_le l2 -> Permutation l1 l2 -> l1 = l2.
Proof.
  intros Hanti Hs1. revert l2 Hanti. induction Hs1 as [|x l1 Hs1 IH Hf1]; intros l2 Hanti Hs2 Hp.
  - symmetry. by apply Permutation_nil.
  - destruct Hs2 as [|y l2 Hs2 Hf2]; [by symmetry in Hp; apply Permutation_nil in Hp|].
    assert (x = y) as <-.
    { assert (y ∈ x :: l1) as Hy by (rewrite Hp; left).
      assert (x ∈ y :: l2) as Hx by (rewrite <- Hp; left).
      apply elem_of_cons in Hy as [->|Hy]; [done|].
      apply elem_of_cons in Hx as [->|Hx]; [done|].
      rewrite list_elem_of_In in Hx, Hy.
      eapply List.Forall_forall in Hf1; [|exact Hy].
      eapply List.Forall_forall in Hf2; [|exact Hx].
      apply Hanti; try done; [left|right; by apply list_elem_of_In]. }
    f_equal. apply IH; [|done|by eapply Permutation_cons_inv].
    intros. apply Hanti; by try right.
Qed.

Lemma py_sort_perm_eq l1 l2 :
  (forall a b, a ∈ l1 -> b ∈ l1 -> sort_le a b -> sort_le b a -> a = b) ->
  Permutation l1 l2 -> py_sort l1 = py_sort l2.
Proof.
  intros Hanti Hp. apply sorted_perm_eq.
  - intros a b. rewrite !py_sort_elem. apply Hanti.
  - apply py_sort_sorted.
  - apply py_sort_sorted.
  - by rewrite !py_sort_perm.
Qed.
End Sort.

Arguments StrictWeakOrder {A} lt.

(** ** Orders on keys *)

Definition str_lt (a b : string) : bool := String.ltb a b.

Lemma str_lt_leb a b : str_lt a b = negb (String.leb b a).
Proof.
  unfold str_lt, String.ltb, String.leb. rewrite (String.compare_antisym b a).
  by destruct (String.compare a b).
Qed.

Lemma str_leb_trans a b c :
  String.leb a b = true -> String.leb b c = true -> String.leb a c = true.
Proof.
  intros H1 H2. apply Is_true_true.
  apply (transitivity (R := String.le) (y := b)); unfold String.le; by apply Is_true_true.
Qed.

#[export] Instance str_lt_swo : StrictWeakOrder str_lt.
Proof.
  split; intros a b.
  - rewrite !str_lt_leb. destruct (String.leb_total a b) as [H1|H1]; rewrite H1; cbn; [done|].
    by destruct (String.leb a b).
  - intros c. rewrite !str_lt_leb. intros Hac%negb_true_iff. apply not_true_iff_false in Hac.
    destruct (String.leb b a) eqn:Hba; [|by left]. right. apply negb_true_iff.
    apply not_true_is_false. intros Hcb. apply Hac. by eapply str_leb_trans.
Qed.

Lemma str_lt_total a b : str_lt a b = false -> str_lt b a = false -> a = b.
Proof.
  rewrite !str_lt_leb, !negb_false_iff. intros. by apply String.leb_antisym.
Qed.

(** A renaming that keeps the alphabetical order takes no two names together. *)
Lemma keeps_order_inj (h : string -> string) : (forall a b, str_lt (h a) (h b) = str_lt a b) -> Inj (=) (=) h.
Proof.
  intros Hh a b E. apply str_lt_total; rewrite <- Hh, E; [|rewrite <- E]; apply not_true_is_false; intros H;
    pose proof (swo_asym str_lt _ _ H); congruence.
Qed.

#[export] Instance Z_ltb_swo : StrictWeakOrder Z.ltb.
Proof. split; intros a b; [lia|]. intros c. rewrite !Z.ltb_lt. lia. Qed.

(** The lexicographic order of two key orders: compare the first key, and the
    second when neither first key is smaller. *)
Definition lex {A} (lt1 lt2 : A -> A -> bool) (a b : A) : bool :=
  lt1 a b || (negb (lt1 b a) && lt2 a b).

#[export] Instance lex_swo {A} (lt1 lt2 : A -> A -> bool) :
  StrictWeakOrder lt1 -> StrictWeakOrder lt2 -> StrictWeakOrder (lex lt1 lt2).
Proof.
  intros H1 H2. unfold lex. split.
  - intros a b [Hab|[Hba Hab]%andb_true_iff]%orb_true_iff.
    + by rewrite Hab, (swo_asym lt1 _ _ Hab).
    + apply negb_true_iff in Hba. rewrite Hba. cbn.
      by rewrite (swo_asym lt2 _ _ Hab), andb_false_r.
  - intros a b c [Hac|[Hca Hac]%andb_true_iff]%orb_true_iff.
    + destruct (swo_cotrans lt1 _ b _ Hac) as [->| ->]; auto.
    + apply negb_true_iff in Hca. destruct (swo_cotrans lt2 _ b _ Hac) as [Hab|Hbc].
      * destruct (lt1 b a) eqn:Hba; [right|left; by rewrite Hab, orb_true_r].
        destruct (swo_cotrans lt1 _ c _ Hba) as [E|]; [by rewrite E|congruence].
      * destruct (lt1 c b) eqn:Hcb; [left|right; by rewrite Hbc, orb_true_r].
        destruct (swo_cotrans lt1 _ a _ Hcb) as [|E]; [congruence|by rewrite E].
Qed.

(** An order on a projection. *)
Definition on {A B} (f : A -> B) (lt : B -> B -> bool) (a b : A) : bool := lt (f a) (f b).

#[export] Instance on_swo {A B} (f : A -> B) (lt : B -> B -> bool) :
  StrictWeakOrder lt -> StrictWeakOrder (on f lt).
Proof.
  intros H. unfold on. split; intros; [by apply (swo_asym lt)|by apply (swo_cotrans lt)].
Qed.

(** Float keys: [<] on floats is not a strict weak order because of NaN;
    [f_ltk] orders every float and agrees with [<] when neither is NaN. *)
Definition key_ltb (a b : Z * Z * Z) : bool :=
  let '(a1, a2, a3) := a in
  let '(b1, b2, b3) := b in
  (a1 <? b1) || ((a1 =? b1) && ((a2 <? b2) || ((a2 =? b2) && (a3 <? b3)))).

Lemma key_ltb_spec a b : key_ltb a b = true <-> key_lt a b.
Proof. destruct a as [[? ?] ?], b as [[? ?] ?]. cbn. lia. Qed.

#[export] Instance key_ltb_swo : StrictWeakOrder key_ltb.
Proof.
  split; intros [[a1 a2] a3] [[b1 b2] b3].
  - intros H. apply not_true_is_false. revert H. cbn. lia.
  - intros [[c1 c2] c3]. cbn. lia.
Qed.

Definition f_ltk (x y : float) : bool := key_ltb (f_key x) (f_key y).

#[export] Instance f_ltk_swo : StrictWeakOrder f_ltk.
Proof. apply (on_swo f_key key_ltb). apply _. Qed.

Lemma f_ltk_lt x y : is_nan x = false -> is_nan y = false -> f_ltk x y = f_lt x y.
Proof.
  intros Hx Hy. apply Bool.eq_iff_eq_true. unfold f_ltk.
  by rewrite key_ltb_spec, f_lt_key.
Qed.

(** Sorting looks at comparisons between elements of the list only. *)
Lemma py_sort_ext {A} (lt lt' : A -> A -> bool) l :
  (forall a b, a ∈ l -> b ∈ l -> lt a b = lt' a b) -> py_sort lt l = py_sort lt' l.
Proof.
  assert (Hins : forall x l, (forall b, b ∈ l -> lt b x = lt' b x) ->
            insert_sorted lt x l = insert_sorted lt' x l).
  { intros x k. induction k as [|y k IH]; intros H; cbn; [done|].
    rewrite H by left. rewrite IH; [done|]. intros. apply H. by right. }
  induction l as [|x l IH]; intros H; [done|].
  change (insert_sorted lt x (py_sort lt l) = insert_sorted lt' x (py_sort lt' l)).
  rewrite IH by (intros; apply H; by right). apply Hins.
  intros b Hb%py_sort_elem. apply H; [by right|by left].
Qed.

(** Sorting commutes with a map that keeps the order. *)
Lemma py_sort_map {A B} (lt : A -> A -> bool) (lt' : B -> B -> bool) (h : A -> B) l :
  (forall a b, a ∈ l -> b ∈ l -> lt' (h a) (h b) = lt a b) -> py_sort lt' (map h l) = map h (py_sort lt l).
Proof.
  assert (Hins : forall x k, (forall b, b ∈ k -> lt' (h b) (h x) = lt b x) ->
            insert_sorted lt' (h x) (map h k) = map h (insert_sorted lt x k)).
  { intros x k. induction k as [|y k IH]; intros H; cbn; [done|].
    rewrite H by left. destruct (lt y x); cbn; [|done]. f_equal. apply IH. intros. apply H. by right. }
  induction l as [|x l IH]; intros H; [done|].
  change (insert_sorted lt' (h x) (py_sort lt' (map h l)) = map h (insert_sorted lt x (py_sort lt l))).
  rewrite IH by (intros; apply H; by right). apply Hins.
  intros b Hb%py_sort_elem. apply H; [by right|by left].
Qed.

(** ** Sums *)

Fixpoint zsum {A} (f : A -> Z) (l : list A) : Z :=
  match l with [] => 0 | x :: l' => f x + zsum f l' end.

Lemma zsum_app {A} (f : A -> Z) l1 l2 : zsum f (l1 ++ l2) = zsum f l1 + zsum f l2.
Proof. induction l1 as [|x l1 IH]; cbn; [done|]. rewrite IH. lia. Qed.

Lemma zsum_filter {A} (f : A -> Z) p l :
  zsum f (List.filter p l) = zsum (fun x => if p x then f x else 0) l.
Proof. induction l as [|x l IH]; cbn; [done|]. destruct (p x); cbn; lia. Qed.

Lemma zsum_nil {A} (f : A -> Z) : zsum f [] = 0.
Proof. done. Qed.

Lemma zsum_cons {A} (f : A -> Z) x l : zsum f (x :: l) = f x + zsum f l.
Proof. done. Qed.

Lemma zsum_ext {A} (f g : A -> Z) l :
  (forall x, x ∈ l -> f x = g x) -> zsum f l = zsum g l.
Proof.
  induction l as [|x l IH]; intros H; cbn; [done|].
  rewrite H by left. rewrite IH; [done|]. intros. apply H. by right.
Qed.

Lemma zsum_nonneg {A} (f : A -> Z) l : (forall x, x ∈ l -> 0 <= f x) -> 0 <= zsum f l.
Proof.
  induction l as [|x l IH]; intros H; cbn; [done|].
  assert (0 <= f x) by (apply H; left). assert (0 <= zsum f l); [|lia].
  apply IH. intros. apply H. by right.
Qed.

Lemma zsum_le {A} (f g : A -> Z) l :
  (forall x, x ∈ l -> f x <= g x) -> zsum f l <= zsum g l.
Proof.
  induction l as [|x l IH]; intros H; cbn; [done|].
  assert (f x <= g x) by (apply H; left). assert (zsum f l <= zsum g l); [|lia].
  apply IH. intros. apply H. by right.
Qed.

Lemma zsum_zero {A} (f : A -> Z) l : (forall x, x ∈ l -> f x = 0) -> zsum f l = 0.
Proof.
  intros H. rewrite (zsum_ext f (fun _ => 0)) by done. clear H.
  induction l as [|x l IH]; cbn; [done|]. lia.
Qed.

Lemma zsum_perm {A} (f : A -> Z) l1 l2 : Permutation l1 l2 -> zsum f l1 = zsum f l2.
Proof. induction 1; cbn; lia. Qed.

Create Rewrite HintDb zsum.
#[export] Hint Rewrite @zsum_app @zsum_cons @zsum_nil : zsum.
