(* ===== verification/PyDict.v ===== *)
(** * Python's [dict], when its order matters

    An association list in insertion order: assigning to a present key keeps
    its place, assigning to a new one appends. *)

From S2P Require Import Prelude.

Section Dict.
Context {K V : Type} `{EqDecision K}.

Definition dict := list (K * V).

Fixpoint dict_get (k : K) (m : dict) : option V :=
  match m with
  | [] => None
  | (k', v) :: m' => if decide (k' = k) then Some v else dict_get k m'
  end.

Fixpoint dict_set (k : K) (v : V) (m : dict) : dict :=
  match m with
  | [] => [(k, v)]
  | (k', v') :: m' => if decide (k' = k) then (k', v) :: m' else (k', v') :: dict_set k v m'
  end.

(** [m[k] = f(m.get(k, d))] *)
Definition dict_upd (k : K) (d : V) (f : V -> V) (m : dict) : dict :=
  dict_set k (f (default d (dict_get k m))) m.

Lemma dict_get_set k k' v m :
  dict_get k' (dict_set k v m) = if decide (k = k') then Some v else dict_get k' m.
Proof.
  induction m as [|[k1 v1] m IH]; cbn.
  - by destruct (decide (k = k')).
  - destruct (decide (k1 = k)) as [->|]; cbn.
    + by destruct (decide (k = k')).
    + rewrite IH. destruct (decide (k1 = k')) as [->|]; [|done].
      by destruct (decide (k = k')).
Qed.

Lemma dict_get_in k v m : dict_get k m = Some v -> (k, v) ∈ m.
Proof.
  induction m as [|[k1 v1] m IH]; cbn; [done|].
  destruct (decide (k1 = k)) as [->|].
  - intros [= ->]. left.
  - intros H. right. by apply IH.
Qed.
End Dict.

Arguments dict : clear implicits.
