(* ===== verification/Errors.v ===== *)
(** * errors.py: what the broker raises on purpose, and what Python and SQLite raise

    One constructor per exception class.  The message is kept where the class
    takes one; [IllegalTransition], [UnknownJob], [UnknownUser] and
    [UnknownGpuType] keep the arguments their constructors build it from. *)

From S2P Require Import Prelude PyFloat PyFormat PySort.

Inductive exn : Type :=
| BrokerError (message : string)
| ConfigError (message : string)
| MigrationError (message : string)
| IllegalTransition (job_id from_state to_state : string)
| Unauthorized (message : string)
| UnknownJob (job_id : string)
| UnknownUser (user_id : string)
| UnknownGpuType (gpu_type : string) (known : list string)
| BackendError (message : string)
| CheckpointError (message : string)
| PricingError (message : string)
| AuthError (message : string)
(* not BrokerErrors: raised by SQLite, by the language and by the web framework *)
| IntegrityError (message : string)
| RuntimeError (message : string)
| ValueError (message : string)
| IndexError (message : string)
| ArithmeticError (message : string)
| OverflowError (message : string)
| TypeError (message : string)
| KeyError (message : string)
| AttributeError (message : string)
| TraceError (message : string)
| HTTPException (status_code : Z) (detail : string).

#[export] Instance exn_eq_dec : EqDecision exn.
Proof. solve_decision. Defined.

(** [except BrokerError]: the class and its subclasses. *)
Definition is_broker_error (e : exn) : bool :=
  match e with
  | IntegrityError _ | RuntimeError _ | ValueError _ | IndexError _
  | ArithmeticError _ | OverflowError _ | TypeError _ | KeyError _
  | AttributeError _ | TraceError _ | HTTPException _ _ => false
  | _ => true
  end.

(** [except BackendError] *)
Definition is_backend_error (e : exn) : bool :=
  match e with BackendError _ => true | _ => false end.

(** [except PricingError] *)
Definition is_pricing_error (e : exn) : bool :=
  match e with PricingError _ => true | _ => false end.

(** [except UnknownJob] *)
Definition is_unknown_job (e : exn) : bool :=
  match e with UnknownJob _ => true | _ => false end.

(** [except Exception] *)
Definition any_exception (e : exn) : bool := true.

(** [str(e)] *)
Definition exn_str (e : exn) : string :=
  match e with
  | BrokerError m | ConfigError m | MigrationError m | Unauthorized m
  | BackendError m | CheckpointError m | PricingError m | AuthError m
  | IntegrityError m | RuntimeError m | ValueError m | IndexError m
  | ArithmeticError m | OverflowError m | TypeError m | KeyError m
  | AttributeError m | TraceError m => m
  | HTTPException code m => str_of_Z code +:+ ": " +:+ m
  | IllegalTransition j f t =>
      "job " +:+ j +:+ ": " +:+ f +:+ " -> " +:+ t +:+ " is not a legal transition"
  | UnknownJob j => "no job with id '" +:+ j +:+ "'"
  | UnknownUser u =>
      "no user '" +:+ u +:+ "'. Add them with: gpu admin add-user " +:+ u
  | UnknownGpuType g known => "unknown gpu type '" +:+ g +:+ "'. Known types: " +:+ str_join ", " (py_sort str_lt known)
  end.
