(* ===== verification/Money.v ===== *)
(** * money.py: two currencies

    [money] keeps a [Decimal] and reads a float through its [repr]; [quantize]
    rounds to hundredths, half up, and is represented by the number of
    hundredths; [fmt] renders it; [billing_period] is the [YYYY-MM] bucket of a
    moment in the club's time zone.  The time-zone database is not part of the
    repository: [TimeZones] provides the UTC offset of a zone at a moment. *)

From S2P Require Import Prelude PyFloat PyDecimal PyFormat.
Local Open Scope Z_scope.

Inductive Currency : Type := USD | GPU_HOUR.

#[export] Instance Currency_eq_dec : EqDecision Currency.
Proof. solve_decision. Defined.

(** [for currency in Currency] *)
Definition all_currencies : list Currency := [USD; GPU_HOUR].

Lemma all_currencies_complete c : c ∈ all_currencies.
Proof. destruct c; set_solver. Qed.

Definition currency_str (c : Currency) : string :=
  match c with USD => "USD" | GPU_HOUR => "GPU_HOUR" end.

Definition symbol (c : Currency) : string :=
  match c with USD => "$" | GPU_HOUR => "" end.

Definition suffix (c : Currency) : string :=
  match c with USD => "" | GPU_HOUR => " gpu-hr" end.

(** [Currency.quantum]: both currencies are tracked to hundredths. *)
Definition quantum (c : Currency) : Decimal := mkDec 1 (-2).

(** [money(x)] for a float: [Decimal(repr(x))], never the binary value. *)
Definition money (x : float) : Decimal := dec_of_float x.

(** [quantize(value, currency)], in units of [quantum currency]. *)
Definition quantize (value : Decimal) (c : Currency) : Z := quantize_cents value.

(** [fmt(value, currency)] *)
Definition fmt (value : Decimal) (c : Currency) : string :=
  symbol c +:+ str_cents (quantize value c) +:+ suffix c.

Definition ZERO : Decimal := dzero.

(** ** Dates: the proleptic Gregorian calendar of [datetime] *)

(** Days since 1970-01-01 to (year, month, day). *)
Definition civil_of_days (days : Z) : Z * Z * Z :=
  let z := days + 719468 in
  let era := z / 146097 in
  let doe := z mod 146097 in
  let yoe := (doe - doe / 1460 + doe / 36524 - doe / 146096) / 365 in
  let doy := doe - (365 * yoe + yoe / 4 - yoe / 100) in
  let mp := (5 * doy + 2) / 153 in
  let d := doy - (153 * mp + 2) / 5 + 1 in
  let m := if mp <? 10 then mp + 3 else mp - 9 in
  (yoe + era * 400 + (if m <=? 2 then 1 else 0), m, d).

Definition days_of_civil (ymd : Z * Z * Z) : Z :=
  let '(y0, m, d) := ymd in
  let y := if m <=? 2 then y0 - 1 else y0 in
  let era := y / 400 in
  let yoe := y mod 400 in
  let doy := (153 * (if m <=? 2 then m + 9 else m - 3) + 2) / 5 + d - 1 in
  era * 146097 + (yoe * 365 + yoe / 4 - yoe / 100 + doy) - 719468.

Definition us_per_day : Z := 86400000000.

(** Moments are microseconds since the epoch, UTC. *)
Class TimeZones := {
  (** UTC offset of a zone at a moment, in microseconds ([zoneinfo]) *)
  utcoffset : string -> Z -> Z
}.

Definition local_ymd `{TimeZones} (moment : Z) (timezone : string) : Z * Z * Z :=
  civil_of_days ((moment + utcoffset timezone moment) / us_per_day).

(** [billing_period(moment, timezone)] *)
Definition billing_period `{TimeZones} (moment : Z) (timezone : string) : string :=
  let '(y, m, _) := local_ymd moment timezone in
  pad0 4 y +:+ "-" +:+ pad0 2 m.

(** ** Rounding *)

(** Rounding to hundredths moves an amount by at most half a hundredth. *)
Lemma quantize_error value c :
  let e := Z.min (dexp value) (-2) in
  2 * Z.abs (at_exp (of_cents (quantize value c)) e - at_exp value e)
  <= at_exp (quantum c) e.
Proof.
  unfold quantize, quantize_cents, of_cents, quantum, at_exp. cbn [coef dexp].
  destruct (Z.leb_spec (-2) (dexp value)) as [Hle|Hlt].
  - rewrite (Z.min_r (dexp value) (-2)) by lia.
    replace (-2 - -2) with 0 by lia. rewrite Z.pow_0_r. lia.
  - rewrite (Z.min_l (dexp value) (-2)) by lia.
    pose proof (half_up_bounds (coef value) (10 ^ (-2 - dexp value))
                  ltac:(apply pow10_pos; lia)) as Hb.
    replace (dexp value - dexp value) with 0 by lia. rewrite Z.pow_0_r. lia.
Qed.

(** [quantize] computed at any exponent fine enough for the value. *)
Lemma quantize_at d c e :
  e <= dexp d -> e <= -2 -> quantize d c = half_up (at_exp d e) (10 ^ (-2 - e)).
Proof.
  intros Hd He. unfold quantize, quantize_cents, at_exp.
  destruct (Z.leb_spec (-2) (dexp d)) as [Hle|Hlt].
  - replace (dexp d - e) with ((dexp d - -2) + (-2 - e)) by lia.
    rewrite Z.pow_add_r, Z.mul_assoc by lia.
    set (x := coef d * 10 ^ (dexp d - -2)). set (p := 10 ^ (-2 - e)).
    pose proof (pow10_pos (-2 - e) ltac:(lia)).
    pose proof (half_up_bounds (x * p) p ltac:(done)). nia.
  - replace (-2 - e) with ((-2 - dexp d) + (dexp d - e)) by lia.
    rewrite Z.pow_add_r by lia. set (p := 10 ^ (-2 - dexp d)). set (k := 10 ^ (dexp d - e)).
    pose proof (pow10_pos (-2 - dexp d) ltac:(lia)). pose proof (pow10_pos (dexp d - e) ltac:(lia)).
    unfold half_up. rewrite Z.abs_mul, (Z.abs_eq k), Z.sgn_mul, (Z.sgn_pos k) by (subst k; lia).
    rewrite Z.mul_1_r. f_equal.
    replace (2 * (Z.abs (coef d) * k) + p * k) with ((2 * Z.abs (coef d) + p) * k) by ring.
    replace (2 * (p * k)) with (2 * p * k) by ring.
    rewrite Z.div_mul_cancel_r by (subst p k; lia). done.
Qed.

(** Rounding is monotone, so a ceiling stated in hundredths survives it. *)
Lemma quantize_mono a b c : dec_leb a b = true -> quantize a c <= quantize b c.
Proof.
  set (e := Z.min (Z.min (dexp a) (dexp b)) (-2)).
  rewrite (dec_leb_at a b e) by lia. intros H%Z.leb_le.
  rewrite !(quantize_at _ c e) by (subst e; lia). apply half_up_mono; [apply pow10_pos; lia|done].
Qed.

Lemma at_exp_sub_cents b a e :
  e <= dexp b -> e <= -2 ->
  at_exp (dec_sub b (of_cents a)) e = at_exp b e - a * 10 ^ (-2 - e).
Proof.
  intros Hb He. rewrite <- (at_exp_cents a e) by done.
  unfold at_exp at 1. cbn. rewrite Z.mul_sub_distr_r. unfold common.
  rewrite (at_exp_scale b (Z.min (dexp b) (dexp (of_cents a))) e) by (cbn; lia).
  by rewrite (at_exp_scale (of_cents a) (Z.min (dexp b) (dexp (of_cents a))) e) by (cbn; lia).
Qed.

(** What is left of an amount after its rounding is taken away rounds to
    nothing: a ledger topped up to [b] once is not topped up again. *)
Lemma quantize_residue b a c :
  let delta := quantize (dec_sub b (of_cents a)) c in
  0 < delta -> quantize (dec_sub b (of_cents (a + delta))) c <= 0.
Proof.
  cbn zeta. set (e := Z.min (dexp b) (-2)). set (p := 10 ^ (-2 - e)).
  assert (Hp : 0 < p) by (apply pow10_pos; lia).
  rewrite !(quantize_at _ c e), !at_exp_sub_cents by (cbn; unfold common; cbn; lia). fold p.
  set (n := at_exp b e - a * p). intros Hpos.
  assert (Hn : 0 < n).
  { unfold half_up in Hpos. destruct (Z.lt_trichotomy n 0) as [H|[H|H]]; [|by rewrite H in Hpos|done].
    rewrite (Z.sgn_neg n) in Hpos by done.
    pose proof (Z.div_pos (2 * Z.abs n + p) (2 * p) ltac:(lia) ltac:(lia)). lia. }
  assert (Hlt : 2 * (n - half_up n p * p) < p).
  { unfold half_up. rewrite (Z.sgn_pos n), (Z.abs_eq n) by lia.
    pose proof (Z.mul_succ_div_gt (2 * n + p) (2 * p) ltac:(lia)). nia. }
  replace (at_exp b e - (a + half_up n p) * p) with (n - half_up n p * p) by (subst n; ring).
  set (m := n - half_up n p * p) in *. clearbody m. unfold half_up.
  pose proof (Z.div_pos (2 * Z.abs m + p) (2 * p) ltac:(lia) ltac:(lia)).
  destruct (Z.lt_trichotomy m 0) as [H'|[->|H']]; [by rewrite (Z.sgn_neg m) by done; lia|done|].
  rewrite (Z.sgn_pos m), (Z.abs_eq m), Z.div_small by lia. lia.
Qed.

Example fmt_ex : (fmt (mkDec 12 0) USD, fmt (mkDec 4 0) GPU_HOUR, fmt (mkDec 1234565 (-3)) USD)
  = ("$12.00", "4.00 gpu-hr", "$1,234.57").
Proof. vm_compute. reflexivity. Qed.
