(* ===== verification/Clock.v ===== *)
(** * clock.py and the [datetime] arithmetic the broker does

    A [datetime] is a number of microseconds since the epoch, always UTC.
    [timedelta(days=x)] with a float [x] is rounded to the microsecond the way
    CPython does it, and [total_seconds()] is the correctly rounded quotient.
    [to_iso] is the text SQLite stores and compares.  [fromisoformat] covers the
    dashed calendar forms of [datetime.fromisoformat]: a date alone, or a date,
    any separator and a time to the hour, minute, second or fraction, with [Z],
    an offset or nothing; a naive result is read as UTC. *)

From Stdlib Require Import Ascii.
From S2P Require Import Prelude PyFloat PyDecimal PyFormat Money.
Local Open Scope Z_scope.

Definition us_per_second : Z := 1000000.
Definition us_per_minute : Z := 60000000.
Definition us_per_hour : Z := 3600000000.

(** [datetime.min] and [datetime.max], in UTC *)
Definition MIN_DATETIME : Z := days_of_civil (1, 1, 1) * us_per_day.
Definition MAX_DATETIME : Z := days_of_civil (9999, 12, 31) * us_per_day + us_per_day - 1.

(** [math.modf(x)]: integer part and (exact) fraction, both with the sign of [x]. *)
Definition f_modf (x : float) : Z * float :=
  let i := f_trunc x in (i, f_sub x (f_of_Z i)).

(** [timedelta(<unit>=x)] for a float, [us] the unit in microseconds: the
    integer part is exact, the fraction is scaled in floating point, and what is
    left over is rounded half to even. *)
Definition timedelta (us : Z) (x : float) : Z :=
  let '(i, frac) := f_modf x in
  let scaled := f_mul (f_of_Z us) frac in
  let '(j, rest) := f_modf scaled in
  i * us + j + f_round rest.

Definition timedelta_days (x : float) : Z := timedelta us_per_day x.
Definition timedelta_hours (x : float) : Z := timedelta us_per_hour x.
Definition timedelta_minutes (x : float) : Z := timedelta us_per_minute x.
Definition timedelta_seconds (x : float) : Z := timedelta us_per_second x.

(** [(a - b).total_seconds()] for [a - b] microseconds *)
Definition total_seconds (delta : Z) : float := f_of_ratio delta 1000000.

(** [moment.timestamp()] *)
Definition timestamp (moment : Z) : float := total_seconds moment.

(** [datetime.fromtimestamp(t, utc)] *)
Definition fromtimestamp (t : float) : Z :=
  let '(i, frac) := f_modf t in
  i * 1000000 + f_round (f_mul frac (f_of_Z 1000000)).

(** ** ManualClock *)

(** [ManualClock.advance]: the new time, or [None] for the [ValueError] on a
    negative step.  [timedelta(seconds=, minutes=, hours=, days=)] adds the
    units. *)
Definition advance (now : Z) (seconds minutes hours days : float) : option Z :=
  let delta := timedelta_days days + timedelta_seconds seconds
               + timedelta_minutes minutes + timedelta_hours hours in
  if f_lt (total_seconds delta) f0 then None else Some (now + delta).

(** [ManualClock.sleep] *)
Definition sleep (now : Z) (seconds : float) : option Z :=
  advance now seconds f0 f0 f0.

(** ** ISO text *)

(** [to_iso(moment)]: [YYYY-MM-DDTHH:MM:SS.ffffff+00:00] *)
Definition to_iso (moment : Z) : string :=
  let '(y, m, d) := civil_of_days (moment / us_per_day) in
  let us := moment mod us_per_day in
  pad0 4 y +:+ "-" +:+ pad0 2 m +:+ "-" +:+ pad0 2 d +:+ "T" +:+
  pad0 2 (us / us_per_hour) +:+ ":" +:+
  pad0 2 (us / us_per_minute mod 60) +:+ ":" +:+
  pad0 2 (us / us_per_second mod 60) +:+ "." +:+
  pad0 6 (us mod us_per_second) +:+ "+00:00".

Definition digit_val (a : Ascii.ascii) : option Z :=
  let n := Z.of_nat (Ascii.nat_of_ascii a) - 48 in
  if (0 <=? n) && (n <=? 9) then Some n else None.

Fixpoint read_digits (n : nat) (acc : Z) (s : string) : option (Z * string) :=
  match n, s with
  | O, _ => Some (acc, s)
  | S n', String a s' =>
      match digit_val a with
      | Some v => read_digits n' (acc * 10 + v) s'
      | None => None
      end
  | S _, EmptyString => None
  end.

Definition read_char (c : Ascii.ascii) (s : string) : option string :=
  match s with
  | String a s' => if Ascii.eqb a c then Some s' else None
  | EmptyString => None
  end.

Definition days_in_month (y m : Z) : Z :=
  if m =? 2 then
    (if (y mod 4 =? 0) && (negb (y mod 100 =? 0) || (y mod 400 =? 0)) then 29 else 28)
  else if (m =? 4) || (m =? 6) || (m =? 9) || (m =? 11) then 30 else 31.

(** Two digits after a character, when that character comes next. *)
Definition two_after (c : ascii) (s : string) : option (Z * string) :=
  s' ← read_char c s; read_digits 2 0 s'.

(** The digits at the head of [s], at most [n] of them kept, padded to [n]. *)
Fixpoint fraction (n : nat) (acc : Z) (s : string) : Z * string :=
  match s with
  | String a s' =>
      match digit_val a with
      | Some v => match n with
                  | O => fraction O acc s'
                  | S n' => fraction n' (acc * 10 + v) s'
                  end
      | None => (acc * 10 ^ Z.of_nat n, s)
      end
  | EmptyString => (acc * 10 ^ Z.of_nat n, s)
  end.

Definition starts_digit (s : string) : bool :=
  match s with String a _ => match digit_val a with Some _ => true | None => false end | _ => false end.

(** [HH[:MM[:SS[.f...]]]] in microseconds, and the rest. *)
Definition read_time (s : string) : option (Z * string) :=
  '(hh, s) ← read_digits 2 0 s;
  if negb (hh <? 24) then None
  else match two_after ":" s with
  | None => Some (hh * us_per_hour, s)
  | Some (mm, s) =>
      if negb (mm <? 60) then None
      else
        let upto := hh * us_per_hour + mm * us_per_minute in
        match two_after ":" s with
        | None => Some (upto, s)
        | Some (ss, s) =>
            if negb (ss <? 60) then None
            else
              let upto := upto + ss * us_per_second in
              match s with
              | String a s' =>
                  if (Ascii.eqb a "." || Ascii.eqb a ",") && starts_digit s'
                  then let '(us, s'') := fraction 6 0 s' in Some (upto + us, s'')
                  else Some (upto, s)
              | EmptyString => Some (upto, s)
              end
        end
  end.

(** The UTC offset that ends the text, in microseconds. *)
Definition read_offset (s : string) : option Z :=
  match s with
  | EmptyString => Some 0
  | String a s' =>
      if Ascii.eqb a "Z" && String.eqb s' "" then Some 0
      else
        let sign := if Ascii.eqb a "+" then 1 else if Ascii.eqb a "-" then -1 else 0 in
        if sign =? 0 then None
        else match read_time s' with
             | Some (us, EmptyString) => Some (sign * us)
             | _ => None
             end
  end.

(** [datetime.fromisoformat(stamp)], a naive result read as UTC; [None] for
    the [ValueError]. *)
Definition fromisoformat (stamp : string) : option Z :=
  '(y, s) ← read_digits 4 0 stamp;
  '(m, s) ← two_after "-" s;
  '(d, s) ← two_after "-" s;
  if negb ((1 <=? y) && (1 <=? m) && (m <=? 12) && (1 <=? d) && (d <=? days_in_month y m)) then None
  else
    let midnight := days_of_civil (y, m, d) * us_per_day in
    match s with
    | EmptyString => Some midnight
    | String _ s' =>
        '(us, s'') ← read_time s';
        offset ← read_offset s'';
        Some (midnight + us - offset)
    end.

(** [from_iso(text)] *)
Definition from_iso (text : string) : option Z := fromisoformat text.

Example fromisoformat_ex :
  map fromisoformat ["2026-01-15T12:00:00.000000+00:00"; "2026-01-15"; "2026-01-15 04:00-08:00";
                     "2026-01-15T12:00:00.5Z"; "t-1"; "2026-02-30"]
  = [Some 1768478400000000; Some 1768435200000000; Some 1768478400000000;
     Some 1768478400500000; None; None].
Proof. vm_compute. reflexivity. Qed.

Example iso_ex : to_iso 1768478400000000 = "2026-01-15T12:00:00.000000+00:00"
  /\ from_iso "2026-01-15T12:00:00.000000+00:00" = Some 1768478400000000.
Proof. vm_compute. split; reflexivity. Qed.

(** ** The calendar round trip *)

Ltac Zify.zify_post_hook ::= Z.div_mod_to_equations.

(** Every calendar quantity of a day, with its range. *)
Lemma civil_of_days_ranges days :
  let z := days + 719468 in
  let doe := z mod 146097 in
  let yoe := (doe - doe / 1460 + doe / 36524 - doe / 146096) / 365 in
  let doy := doe - (365 * yoe + yoe / 4 - yoe / 100) in
  0 <= doe < 146097 /\ 0 <= yoe <= 399 /\ 0 <= doy <= 365.
Proof.
  intros z doe yoe doy.
  assert (0 <= doe < 146097) by (subst doe; apply Z.mod_pos_bound; lia).
  split; [done|]. subst doy yoe. clearbody doe. lia.
Qed.

Lemma civil_of_days_month days :
  let '(_, m, d) := civil_of_days days in 1 <= m <= 12 /\ 1 <= d <= 31.
Proof.
  pose proof (civil_of_days_ranges days) as H. unfold civil_of_days. cbn in H.
  set (doy := _ - (365 * _ + _ - _)) in *. destruct H as (_ & _ & H). clearbody doy.
  destruct (Z.ltb_spec ((5 * doy + 2) / 153) 10); lia.
Qed.

Lemma days_of_civil_of_days days : days_of_civil (civil_of_days days) = days.
Proof.
  pose proof (civil_of_days_ranges days) as H. unfold civil_of_days. cbn in H.
  set (doe := (days + 719468) mod 146097) in *.
  set (yoe := (doe - _ + _ - _) / 365) in *.
  set (doy := doe - (365 * yoe + _ - _)) in *.
  destruct H as (Hdoe & Hyoe & Hdoy).
  set (era := (days + 719468) / 146097).
  assert (Hz : days = era * 146097 + doe - 719468).
  { subst era doe. pose proof (Z.div_mod (days + 719468) 146097). lia. }
  assert (Hdd : doe = 365 * yoe + yoe / 4 - yoe / 100 + doy) by (subst doy; lia).
  clearbody doe yoe doy era.
  set (mp := (5 * doy + 2) / 153).
  assert (Hmp : 0 <= mp <= 11) by (subst mp; lia).
  assert (Hd : 153 * mp <= 5 * doy + 2 < 153 * mp + 153) by (subst mp; lia).
  clearbody mp. unfold days_of_civil.
  destruct (Z.ltb_spec mp 10) as [Hm|Hm].
  - destruct (Z.leb_spec (mp + 3) 2); [lia|].
    replace ((yoe + era * 400 + 0) / 400) with era by lia.
    replace ((yoe + era * 400 + 0) mod 400) with yoe by lia.
    replace (mp + 3 - 3) with mp by lia. lia.
  - destruct (Z.leb_spec (mp - 9) 2); [|lia].
    replace ((yoe + era * 400 + 1 - 1) / 400) with era by lia.
    replace ((yoe + era * 400 + 1 - 1) mod 400) with yoe by lia.
    replace (mp - 9 + 9) with mp by lia. lia.
Qed.

(** * The text of a moment: it reads back, and it sorts

    SQLite stores [to_iso] of every moment and compares those texts in WHERE and
    ORDER BY.  [Tables.v] compares the moments themselves; the two theorems here
    are what makes that the same thing.  Both come from one description of a
    zero-padded number, digit by digit ([dec_digits]). *)

From stdpp Require Import pretty.
Local Open Scope Z_scope.

Ltac Zify.zify_post_hook ::= Z.div_mod_to_equations.

(** ** Padded numbers, digit by digit *)

Definition digit (v : Z) : Ascii.ascii := pretty_N_char (Z.to_N v).

Fixpoint dec_digits (w : nat) (v : Z) (rest : string) : string :=
  match w with
  | O => rest
  | S k => dec_digits k (v / 10) (String (digit (v mod 10)) rest)
  end.

Lemma dec_digits_app w v s t : dec_digits w v s +:+ t = dec_digits w v (s +:+ t).
Proof. revert v s. induction w as [|w IH]; intros v s; [done|]. cbn. by rewrite IH. Qed.

Lemma str_repeat_snoc c n s : str_repeat (String c "") n +:+ String c s = str_repeat (String c "") (S n) +:+ s.
Proof.
  induction n as [|n IH]; [done|].
  change (String c (str_repeat (String c "") n +:+ String c s)
          = String c (str_repeat (String c "") (S n) +:+ s)). by rewrite IH.
Qed.

Lemma pretty_go_digits w v s : 0 <= v < 10 ^ Z.of_nat w ->
  let g := pretty_N_go (Z.to_N v) s in
  (String.length g <= w + String.length s)%nat /\
  str_repeat "0" (w + String.length s - String.length g) +:+ g = dec_digits w v s.
Proof.
  revert v s. induction w as [|w IH]; intros v s Hv.
  - replace v with 0 by lia. cbn zeta. change (Z.to_N 0) with 0%N.
    rewrite pretty_N_go_0, Nat.add_0_l, Nat.sub_diag. by split.
  - rewrite Nat2Z.inj_succ, Z.pow_succ_r in Hv by lia.
    assert (Hq : 0 <= v / 10 < 10 ^ Z.of_nat w)
      by (split; [apply Z.div_pos; lia|apply Z.div_lt_upper_bound; lia]).
    destruct (IH (v / 10) (String (digit (v mod 10)) s) Hq) as [Hl He]. cbn [dec_digits String.length] in *.
    destruct (decide (v = 0)) as [->|Hn].
    + rewrite pretty_N_go_0. split; [lia|]. rewrite <- He. rewrite pretty_N_go_0. cbn [String.length].
      replace (S w + String.length s - String.length s)%nat with (S w) by lia.
      replace (w + S (String.length s) - S (String.length s))%nat with w by lia.
      by rewrite str_repeat_snoc.
    + rewrite pretty_N_go_step by lia.
      replace (Z.to_N v `div` 10)%N with (Z.to_N (v / 10)) by (by rewrite Z2N.inj_div by lia).
      replace (Z.to_N v `mod` 10)%N with (Z.to_N (v mod 10)) by (by rewrite Z2N.inj_mod by lia).
      change (pretty_N_char (Z.to_N (v mod 10))) with (digit (v mod 10)).
      split; [lia|]. rewrite <- He. f_equal. f_equal. lia.
Qed.

Lemma pad0_digits w v s : (0 < w)%nat -> 0 <= v < 10 ^ Z.of_nat w -> pad0 w v +:+ s = dec_digits w v s.
Proof.
  intros Hw Hv. change s with ("" +:+ s) at 2. rewrite <- dec_digits_app. f_equal.
  destruct (decide (v = 0)) as [->|Hn].
  - rewrite <- (proj2 (pretty_go_digits w 0 "" Hv)). rewrite pretty_N_go_0. destruct w as [|w]; [lia|].
    unfold pad0, str_of_Z. change (pretty 0) with "0".
    replace (S w - String.length "0")%nat with w by (cbn; lia).
    replace (S w + String.length "" - String.length "")%nat with (S w) by (cbn; lia).
    by rewrite str_repeat_snoc.
  - destruct (pretty_go_digits w v "" Hv) as [_ <-]. unfold pad0, str_of_Z.
    replace (pretty v) with (pretty_N_go (Z.to_N v) "").
    { cbn [String.length]. by rewrite Nat.add_0_r. }
    destruct v as [|p|p]; [done| |lia]. change (pretty (Z.pos p)) with (pretty (N.pos p)).
    unfold pretty, pretty_N. by rewrite decide_False.
Qed.

(** ** Reading them back *)

Lemma digit_val_digit v : 0 <= v < 10 -> digit_val (digit v) = Some v.
Proof.
  intros Hv. assert (v = 0 \/ v = 1 \/ v = 2 \/ v = 3 \/ v = 4 \/ v = 5 \/ v = 6 \/ v = 7 \/ v = 8 \/ v = 9)
    as Hc by lia. by repeat destruct Hc as [->|Hc]; subst.
Qed.

Lemma read_digits_app n m acc s :
  read_digits (n + m) acc s = '(acc', s') ← read_digits n acc s; read_digits m acc' s'.
Proof.
  revert acc s. induction n as [|n IH]; intros acc s; [done|]. cbn.
  destruct s as [|a s]; [done|]. destruct (digit_val a); [apply IH|done].
Qed.

Lemma read_dec_digits w v s acc : 0 <= v < 10 ^ Z.of_nat w ->
  read_digits w acc (dec_digits w v s) = Some (acc * 10 ^ Z.of_nat w + v, s).
Proof.
  revert v s acc. induction w as [|w IH]; intros v s acc Hv.
  - cbn in *. do 2 f_equal. lia.
  - rewrite Nat2Z.inj_succ, Z.pow_succ_r in * by lia. cbn [dec_digits].
    rewrite <- (Nat.add_1_r w), read_digits_app, IH by
      (split; [apply Z.div_pos; lia|apply Z.div_lt_upper_bound; lia]).
    cbn. rewrite digit_val_digit by lia. do 2 f_equal. lia.
Qed.

Lemma read_padded w v s : (0 < w)%nat -> 0 <= v < 10 ^ Z.of_nat w ->
  read_digits w 0 (pad0 w v +:+ s) = Some (v, s).
Proof. intros Hw Hv. by rewrite pad0_digits, read_dec_digits by done. Qed.

Lemma read_char_app c s : read_char c (String c "" +:+ s) = Some s.
Proof. change (String c "" +:+ s) with (String c s). unfold read_char. by rewrite Ascii.eqb_refl. Qed.

Lemma fraction_read n acc s v s' :
  read_digits n acc s = Some (v, s') -> starts_digit s' = false -> fraction n acc s = (v, s').
Proof.
  revert acc s. induction n as [|n IH]; intros acc s Hr Hs.
  - injection Hr as -> ->. destruct s' as [|a s']; cbn [fraction]; [f_equal; lia|].
    cbn [starts_digit] in Hs. destruct (digit_val a); [done|]. f_equal. lia.
  - destruct s as [|a s]; [done|]. cbn in *. destruct (digit_val a); [by apply IH|done].
Qed.

Lemma starts_digit_padded w v s : (0 < w)%nat -> 0 <= v < 10 ^ Z.of_nat w ->
  starts_digit (pad0 w v +:+ s) = true.
Proof.
  intros Hw Hv. pose proof (read_padded w v s Hw Hv) as Hr. destruct w as [|w]; [lia|].
  destruct (pad0 (S w) v +:+ s) as [|a s']; [done|]. cbn in *. by destruct (digit_val a).
Qed.

Lemma two_after_padded c v s : 0 <= v < 100 ->
  two_after c (String c "" +:+ pad0 2 v +:+ s) = Some (v, s).
Proof. intros Hv. unfold two_after. rewrite read_char_app. cbn [mbind option_bind]. by apply read_padded; cbn; lia. Qed.

(** ** Comparing them *)

Lemma compare_digit a b : 0 <= a < 10 -> 0 <= b < 10 -> Ascii.compare (digit a) (digit b) = (a ?= b).
Proof.
  intros Ha Hb.
  assert (a = 0 \/ a = 1 \/ a = 2 \/ a = 3 \/ a = 4 \/ a = 5 \/ a = 6 \/ a = 7 \/ a = 8 \/ a = 9) as Hc by lia.
  assert (b = 0 \/ b = 1 \/ b = 2 \/ b = 3 \/ b = 4 \/ b = 5 \/ b = 6 \/ b = 7 \/ b = 8 \/ b = 9) as Hd by lia.
  clear Ha Hb. repeat destruct Hc as [->|Hc]; subst; by repeat destruct Hd as [->|Hd]; subst.
Qed.

(** First by one comparison, then by the next. *)
Definition then_compare (c d : comparison) : comparison := match c with Eq => d | _ => c end.

Lemma then_compare_assoc a b c : then_compare (then_compare a b) c = then_compare a (then_compare b c).
Proof. by destruct a. Qed.

Lemma compare_div_mod a b : 0 <= a -> 0 <= b ->
  (a ?= b) = then_compare (a / 10 ?= b / 10) (a mod 10 ?= b mod 10).
Proof.
  intros Ha Hb. destruct (Z.compare_spec (a / 10) (b / 10)) as [E|E|E]; cbn.
  - destruct (Z.compare_spec (a mod 10) (b mod 10)); destruct (Z.compare_spec a b); done || lia.
  - apply Z.compare_lt_iff. lia.
  - apply Z.compare_gt_iff. lia.
Qed.

Lemma compare_dec_digits w a b s t : 0 <= a < 10 ^ Z.of_nat w -> 0 <= b < 10 ^ Z.of_nat w ->
  String.compare (dec_digits w a s) (dec_digits w b t) = then_compare (a ?= b) (String.compare s t).
Proof.
  revert a b s t. induction w as [|w IH]; intros a b s t Ha Hb.
  - assert (a = b) as -> by (cbn in *; lia). by rewrite Z.compare_refl.
  - rewrite Nat2Z.inj_succ, Z.pow_succ_r in * by lia. cbn [dec_digits].
    rewrite IH by (split; [apply Z.div_pos; lia|apply Z.div_lt_upper_bound; lia]).
    rewrite (compare_div_mod a b), then_compare_assoc by lia. f_equal. cbn [String.compare].
    rewrite compare_digit by lia. by destruct (_ ?= _).
Qed.

Lemma compare_padded w a b s t : (0 < w)%nat -> 0 <= a < 10 ^ Z.of_nat w -> 0 <= b < 10 ^ Z.of_nat w ->
  String.compare (pad0 w a +:+ s) (pad0 w b +:+ t) = then_compare (a ?= b) (String.compare s t).
Proof. intros. by rewrite !pad0_digits, compare_dec_digits. Qed.

Lemma compare_same_char c s t :
  String.compare (String c "" +:+ s) (String c "" +:+ t) = String.compare s t.
Proof.
  change (String.compare (String c s) (String c t) = String.compare s t).
  cbn [String.compare]. unfold Ascii.compare. by rewrite N.compare_refl.
Qed.

(** ** The calendar is monotone *)

(** The day in the era of March-based years, and what it is the day of. *)
Definition year_of_era (doe : Z) : Z := (doe - doe / 1460 + doe / 36524 - doe / 146096) / 365.
Definition day_of_year (doe : Z) : Z :=
  let yoe := year_of_era doe in doe - (365 * yoe + yoe / 4 - yoe / 100).

Lemma year_of_era_mono a b : 0 <= a <= b -> b < 146097 -> year_of_era a <= year_of_era b.
Proof. intros H1 H2. unfold year_of_era. apply Z.div_le_mono; [lia|]. lia. Qed.

(** A day as March-based year and day of that year. *)
Definition march (days : Z) : Z * Z :=
  let z := days + 719468 in
  (year_of_era (z mod 146097) + z / 146097 * 400, day_of_year (z mod 146097)).

Lemma march_ranges days :
  0 <= year_of_era ((days + 719468) mod 146097) <= 399 /\ 0 <= snd (march days) <= 365.
Proof. pose proof (civil_of_days_ranges days) as H. cbn in H. cbn. unfold day_of_year, year_of_era. lia. Qed.

Lemma march_mono a b : a < b ->
  fst (march a) < fst (march b) \/ fst (march a) = fst (march b) /\ snd (march a) < snd (march b).
Proof.
  intros Hab. pose proof (march_ranges a) as [Ha _]. pose proof (march_ranges b) as [Hb _].
  cbn in *. set (x := a + 719468) in *. set (y := b + 719468) in *.
  assert (Hxy : x < y) by lia. clearbody x y.
  destruct (Z.lt_trichotomy (x / 146097) (y / 146097)) as [E|[E|E]]; [lia| |lia].
  assert (Hm : 0 <= x mod 146097 < y mod 146097 /\ y mod 146097 < 146097) by lia.
  rewrite E. unfold day_of_year. set (p := x mod 146097) in *. set (q := y mod 146097) in *.
  clearbody p q. pose proof (year_of_era_mono p q ltac:(lia) ltac:(lia)).
  destruct (decide (year_of_era p = year_of_era q)) as [->|Hn]; [right; lia|left; lia].
Qed.

Lemma civil_of_march days :
  civil_of_days days =
    let '(y, doy) := march days in
    let mp := (5 * doy + 2) / 153 in
    (y + (if 10 <=? mp then 1 else 0), (if mp <? 10 then mp + 3 else mp - 9), doy - (153 * mp + 2) / 5 + 1).
Proof.
  unfold civil_of_days, march, day_of_year, year_of_era. cbn. f_equal. f_equal.
  match goal with |- context [(5 * ?d + 2) / 153] => set (doy := d) end.
  pose proof (march_ranges days) as [_ Hr]. cbn in Hr. unfold day_of_year, year_of_era in Hr.
  change (0 <= doy <= 365) in Hr. clearbody doy. f_equal.
  destruct (Z.ltb_spec ((5 * doy + 2) / 153) 10), (Z.leb_spec 10 ((5 * doy + 2) / 153)); try lia;
    match goal with |- (if ?b then _ else _) = _ => destruct b eqn:E end; lia.
Qed.

(** Later days have later dates. *)
Lemma civil_mono a b : a < b ->
  let '(y, m, d) := civil_of_days a in let '(y', m', d') := civil_of_days b in
  y < y' \/ y = y' /\ (m < m' \/ m = m' /\ d < d').
Proof.
  intros H%march_mono. rewrite !civil_of_march. pose proof (march_ranges a) as [_ Ha].
  pose proof (march_ranges b) as [_ Hb]. destruct (march a) as [Y p], (march b) as [Y' q]. cbn in *.
  assert (Hp : p < q -> (5 * p + 2) / 153 < (5 * q + 2) / 153 \/ (5 * p + 2) / 153 = (5 * q + 2) / 153) by lia.
  assert (0 <= (5 * p + 2) / 153 <= 11) by lia. assert (0 <= (5 * q + 2) / 153 <= 11) by lia.
  set (mp := (5 * p + 2) / 153) in *. set (mq := (5 * q + 2) / 153) in *. clearbody mp mq.
  destruct (Z.leb_spec 10 mp), (Z.ltb_spec mp 10), (Z.leb_spec 10 mq), (Z.ltb_spec mq 10); try lia.
  all: destruct H as [H|[-> H]]; [try (left; lia); right; split; [lia|left; lia]|].
  all: destruct (Hp H) as [?|<-]; [first [right; split; [lia|left; lia]|left; lia]|]; right; split; [lia|right; lia].
Qed.

(** ** Dates are valid *)

(** Day 366 of a March-based year is the 29th of February of a leap year. *)
Lemma leap_table : forallb (fun y =>
    negb (year_of_era (365 * y + y / 4 - y / 100 + 365) =? y) ||
    (((y + 1) mod 4 =? 0) && (negb ((y + 1) mod 100 =? 0) || ((y + 1) mod 400 =? 0))))
  (map Z.of_nat (seq 0 400)) = true.
Proof. vm_compute. reflexivity. Qed.

Lemma leap_day days : snd (march days) = 365 ->
  let y := fst (march days) + 1 in
  (y mod 4 =? 0) && (negb (y mod 100 =? 0) || (y mod 400 =? 0)) = true.
Proof.
  intros H. pose proof (march_ranges days) as [Hy _]. cbn in *. unfold day_of_year in H.
  set (doe := (days + 719468) mod 146097) in *. set (yoe := year_of_era doe) in *.
  assert (Hdoe : doe = 365 * yoe + yoe / 4 - yoe / 100 + 365) by lia.
  pose proof leap_table as Ht. rewrite forallb_forall in Ht.
  specialize (Ht yoe). rewrite <- Hdoe in Ht. fold yoe in Ht. rewrite Z.eqb_refl in Ht. cbn [negb orb] in Ht.
  assert (Hin : In yoe (map Z.of_nat (seq 0 400))).
  { apply in_map_iff. exists (Z.to_nat yoe). rewrite in_seq. lia. }
  specialize (Ht Hin). set (era := (days + 719468) / 146097).
  replace ((yoe + era * 400 + 1) mod 4) with ((yoe + 1) mod 4) by lia.
  replace ((yoe + era * 400 + 1) mod 100) with ((yoe + 1) mod 100) by lia.
  by replace ((yoe + era * 400 + 1) mod 400) with ((yoe + 1) mod 400) by lia.
Qed.

Lemma civil_valid days :
  let '(y, m, d) := civil_of_days days in 1 <= m <= 12 /\ 1 <= d <= days_in_month y m.
Proof.
  pose proof (leap_day days) as Hleap. pose proof (march_ranges days) as [_ Hr].
  rewrite civil_of_march. destruct (march days) as [Y doy]. cbn in *.
  assert (Hm : 0 <= (5 * doy + 2) / 153 <= 11) by lia.
  assert (Hb : 153 * ((5 * doy + 2) / 153) <= 5 * doy + 2 < 153 * ((5 * doy + 2) / 153) + 153) by lia.
  set (mp := (5 * doy + 2) / 153) in *. clearbody mp.
  set (y := Y + _). assert (Hy : 10 <= mp -> y = Y + 1) by (subst y; destruct (Z.leb_spec 10 mp); lia).
  set (d := doy - _ + 1). assert (Hd : d = doy - (153 * mp + 2) / 5 + 1) by done. clearbody y d.
  assert (mp = 0 \/ mp = 1 \/ mp = 2 \/ mp = 3 \/ mp = 4 \/ mp = 5 \/ mp = 6 \/ mp = 7 \/ mp = 8 \/ mp = 9
    \/ mp = 10 \/ mp = 11) as Hc by lia.
  repeat destruct Hc as [->|Hc]; subst;
    match goal with |- 1 <= ?m <= 12 /\ _ => let v := eval vm_compute in m in change m with v end;
    unfold days_in_month; cbn -[Z.modulo]; try lia.
  split; [lia|]. rewrite Hy by lia.
  destruct (decide (doy = 365)) as [->|Hn]; [rewrite Hleap by done; lia|case_match; lia].
Qed.

(** A moment a [datetime] can hold. *)
Definition representable (t : Z) : Prop := MIN_DATETIME <= t <= MAX_DATETIME.

Lemma calendar_ends :
  MIN_DATETIME = -719162 * us_per_day /\ MAX_DATETIME = 2932896 * us_per_day + us_per_day - 1 /\
  civil_of_days (-719162) = (1, 1, 1) /\ civil_of_days 2932896 = (9999, 12, 31).
Proof. vm_compute. by split_and!. Qed.

Lemma representable_year t : representable t -> let '(y, _, _) := civil_of_days (t / us_per_day) in 1 <= y <= 9999.
Proof.
  unfold representable. destruct calendar_ends as (-> & -> & Efirst & Elast). intros [H1 H2].
  assert (Hd : -719162 <= t / us_per_day <= 2932896) by (unfold us_per_day in *; lia).
  set (n := t / us_per_day) in *. clearbody n. clear H1 H2.
  assert (Hlo : let '(y, _, _) := civil_of_days n in 1 <= y).
  { destruct (decide (n = -719162)) as [->|]; [by rewrite Efirst|].
    pose proof (civil_mono (-719162) n ltac:(lia)) as H. rewrite Efirst in H.
    destruct (civil_of_days n) as [[y m] d]. lia. }
  assert (Hhi : let '(y, _, _) := civil_of_days n in y <= 9999).
  { destruct (decide (n = 2932896)) as [->|]; [by rewrite Elast|].
    pose proof (civil_mono n 2932896 ltac:(lia)) as H. rewrite Elast in H.
    destruct (civil_of_days n) as [[y m] d]. lia. }
  destruct (civil_of_days n) as [[y m] d]. lia.
Qed.

(** The time of day, in the units [to_iso] writes. *)
Lemma time_of_day t : let us := t mod us_per_day in
  0 <= us / us_per_hour < 24 /\ 0 <= us / us_per_minute mod 60 < 60 /\
  0 <= us / us_per_second mod 60 < 60 /\ 0 <= us mod us_per_second < 1000000 /\
  t = t / us_per_day * us_per_day + us / us_per_hour * us_per_hour
      + us / us_per_minute mod 60 * us_per_minute + us / us_per_second mod 60 * us_per_second
      + us mod us_per_second.
Proof.
  cbv zeta. pose proof (Z.mod_pos_bound t us_per_day ltac:(done)) as Hu.
  pose proof (Z.div_mod t us_per_day ltac:(done)) as Ht.
  set (us := t mod us_per_day) in *. set (n := t / us_per_day) in *. clearbody us n.
  unfold us_per_day, us_per_hour, us_per_minute, us_per_second in *. lia.
Qed.

(** The time as [to_iso] writes it. *)
Lemma read_time_written hh mm ss us : 0 <= hh < 24 -> 0 <= mm < 60 -> 0 <= ss < 60 -> 0 <= us < 1000000 ->
  read_time (pad0 2 hh +:+ ":" +:+ pad0 2 mm +:+ ":" +:+ pad0 2 ss +:+ "." +:+ pad0 6 us +:+ "+00:00")
  = Some (hh * us_per_hour + mm * us_per_minute + ss * us_per_second + us, "+00:00").
Proof.
  intros Hh Hm Hs Hu. unfold read_time. rewrite read_padded by (cbn; lia). cbn [mbind option_bind].
  rewrite (proj2 (Z.ltb_lt hh 24)) by lia. cbn [negb]. rewrite two_after_padded by lia.
  rewrite (proj2 (Z.ltb_lt mm 60)) by lia. cbn [negb]. rewrite two_after_padded by lia.
  rewrite (proj2 (Z.ltb_lt ss 60)) by lia. cbn [negb].
  change ("." +:+ ?x) with (String "." x). cbn match. change (Ascii.eqb "." ".") with true. cbn [orb].
  rewrite starts_digit_padded by (cbn; lia). cbn [andb].
  by rewrite (fraction_read 6 0 _ us "+00:00") by (done || (rewrite read_padded by (cbn; lia); done)).
Qed.

(** The text of a moment reads back. *)
Lemma from_to_iso t : representable t -> from_iso (to_iso t) = Some t.
Proof.
  intros Hr%representable_year. pose proof (civil_valid (t / us_per_day)) as Hv.
  pose proof (days_of_civil_of_days (t / us_per_day)) as Hd.
  pose proof (time_of_day t) as (Hh & Hm & Hs & Hu & Ht). cbv zeta in *.
  unfold to_iso, from_iso. destruct (civil_of_days (t / us_per_day)) as [[y m] d].
  assert (days_in_month y m <= 31) by (unfold days_in_month; repeat case_match; lia).
  set (hh := _ / us_per_hour) in *. set (mm := _ / us_per_minute mod 60) in *.
  set (ss := _ / us_per_second mod 60) in *. set (us := _ mod us_per_second) in *. clearbody hh mm ss us.
  unfold fromisoformat. rewrite read_padded by (cbn; lia). cbn [mbind option_bind].
  rewrite !two_after_padded by lia. cbn [mbind option_bind]. rewrite two_after_padded by lia. cbn [mbind option_bind].
  repeat match goal with |- context [?a <=? ?b] => rewrite (proj2 (Z.leb_le a b)) by lia end.
  cbn [andb negb]. change ("T" +:+ ?x) with (String "T" x). cbn match. rewrite read_time_written by done. cbn [mbind option_bind].
  change (read_offset "+00:00") with (Some 0). cbn [mbind option_bind]. rewrite Hd. f_equal. lia.
Qed.

(** C24: the text the database keeps of a moment reads back as that moment, for
    every moment a [datetime] can hold, so no two moments have one text. *)
Theorem iso_roundtrip t : representable t ->
  from_iso (to_iso t) = Some t /\ forall t', representable t' -> to_iso t' = to_iso t -> t' = t.
Proof.
  intros Ht. pose proof (from_to_iso t Ht) as E. split; [done|]. intros t' Ht' Heq.
  pose proof (from_to_iso t' Ht') as E'. rewrite Heq, E in E'. by injection E'.
Qed.

(** The comparison of two moments, unit by unit. *)
Lemma compare_by_units a b :
  let ua := a mod us_per_day in let ub := b mod us_per_day in
  (a ?= b) =
    then_compare (a / us_per_day ?= b / us_per_day)
   (then_compare (ua / us_per_hour ?= ub / us_per_hour)
   (then_compare (ua / us_per_minute mod 60 ?= ub / us_per_minute mod 60)
   (then_compare (ua / us_per_second mod 60 ?= ub / us_per_second mod 60)
                 (ua mod us_per_second ?= ub mod us_per_second)))).
Proof.
  pose proof (time_of_day a) as (A1 & A2 & A3 & A4 & A5).
  pose proof (time_of_day b) as (B1 & B2 & B3 & B4 & B5). cbv zeta in *.
  rewrite A5, B5 at 1. clear A5 B5.
  set (a0 := a / us_per_day) in *. set (b0 := b / us_per_day) in *.
  set (a1 := _ / us_per_hour) in *. set (b1 := (b mod _) / us_per_hour) in *.
  set (a2 := _ / us_per_minute mod 60) in *. set (b2 := (b mod _) / us_per_minute mod 60) in *.
  set (a3 := _ / us_per_second mod 60) in *. set (b3 := (b mod _) / us_per_second mod 60) in *.
  set (a4 := _ mod us_per_second) in *. set (b4 := (b mod us_per_day) mod us_per_second) in *.
  clearbody a0 a1 a2 a3 a4 b0 b1 b2 b3 b4. unfold us_per_day, us_per_hour, us_per_minute, us_per_second in *.
  unfold then_compare.
  repeat match goal with |- context [match ?x ?= ?y with _ => _ end] =>
    destruct (Z.compare_spec x y); try subst x end.
  all: match goal with |- (?x ?= ?y) = _ => destruct (Z.compare_spec x y) end; try lia; try done.
  all: symmetry; first [apply Z.compare_eq_iff|apply Z.compare_lt_iff|apply Z.compare_gt_iff]; lia.
Qed.

Lemma compare_civil a b :
  let '(y, m, d) := civil_of_days a in let '(y', m', d') := civil_of_days b in
  (a ?= b) = then_compare (y ?= y') (then_compare (m ?= m') (d ?= d')).
Proof.
  destruct (Z.compare_spec a b) as [->|H|H].
  - destruct (civil_of_days b) as [[y m] d]. by rewrite !Z.compare_refl.
  - pose proof (civil_mono _ _ H) as Hc. destruct (civil_of_days a) as [[y m] d], (civil_of_days b) as [[y' m'] d'].
    destruct (Z.compare_spec y y'); cbn; [|done|lia]. destruct (Z.compare_spec m m'); cbn; [|done|lia].
    symmetry. apply Z.compare_lt_iff. lia.
  - pose proof (civil_mono _ _ H) as Hc. destruct (civil_of_days a) as [[y m] d], (civil_of_days b) as [[y' m'] d'].
    destruct (Z.compare_spec y y'); cbn; [|lia|done]. destruct (Z.compare_spec m m'); cbn; [|lia|done].
    symmetry. apply Z.compare_gt_iff. lia.
Qed.

(** The texts of two moments compare as the moments do, for all the moments
    a [datetime] can hold: SQLite's ORDER BY and WHERE on the text columns are
    comparisons of moments. *)
Theorem iso_order a b : representable a -> representable b ->
  String.compare (to_iso a) (to_iso b) = (a ?= b).
Proof.
  intros Ha%representable_year Hb%representable_year.
  rewrite compare_by_units. pose proof (compare_civil (a / us_per_day) (b / us_per_day)) as Hc.
  pose proof (civil_of_days_month (a / us_per_day)) as Hma. pose proof (civil_of_days_month (b / us_per_day)) as Hmb.
  pose proof (time_of_day a) as (A1 & A2 & A3 & A4 & _).
  pose proof (time_of_day b) as (B1 & B2 & B3 & B4 & _). cbv zeta in *. unfold to_iso.
  destruct (civil_of_days (a / us_per_day)) as [[y m] d], (civil_of_days (b / us_per_day)) as [[y' m'] d'].
  rewrite Hc, !then_compare_assoc.
  do 6 (rewrite compare_padded by (cbn; lia); f_equal; rewrite compare_same_char).
  rewrite compare_padded by (cbn; lia). change (String.compare "+00:00" "+00:00") with Eq.
  by match goal with |- then_compare ?c _ = _ => destruct c end.
Qed.

Lemma iso_roundtrip_witness : representable 0 /\ from_iso (to_iso 0) = Some 0.
Proof.
  assert (H : representable 0) by (split; vm_compute; discriminate).
  exact (conj H (proj1 (iso_roundtrip 0 H))).
Defined.

(** A thousandth of a second apart, and a year apart. *)
Lemma iso_order_witness :
  String.compare (to_iso 1768478400000000) (to_iso 1768478400001000) = Lt /\
  String.compare (to_iso 1768478400000000) (to_iso 1736942400000000) = Gt.
Proof.
  assert (H : representable 1768478400000000) by (split; vm_compute; discriminate).
  split; rewrite iso_order; [reflexivity|exact H| |reflexivity|exact H|]; split; vm_compute; discriminate.
Defined.
