(* ===== verification/PyJson.v ===== *)
(** * Python's [json]: [dumps] and [loads]

    A [dict] is an association list in insertion order.  [dumps st v] is the text
    in one of the styles the source asks for (the default, an indent, or
    separators without spaces); [loads] is the scanner of [json.decoder], [None]
    for a [JSONDecodeError].  Characters are the 256 of the model, so an escape
    beyond [\u00ff] is refused.  Floats are written with [repr]. *)

From Stdlib Require Import Ascii.
From stdpp Require Import pretty.
From S2P Require Import Prelude PyFloat PyFormat PySort PyDict Money Clock.
Local Open Scope Z_scope.

Set Warnings "-register-all".

Inductive json : Type :=
| JNull
| JBool (b : bool)
| JInt (n : Z)
| JFloat (x : float)
| JStr (s : string)
| JList (xs : list json)
| JDict (kvs : list (string * json)).

(** Induction that goes into the lists. *)
Lemma json_rect_nested (P : json -> Prop) :
  P JNull -> (forall b, P (JBool b)) -> (forall n, P (JInt n)) -> (forall x, P (JFloat x)) ->
  (forall s, P (JStr s)) -> (forall xs, Forall P xs -> P (JList xs)) ->
  (forall kvs, Forall (fun kv => P (snd kv)) kvs -> P (JDict kvs)) -> forall v, P v.
Proof.
  intros Hn Hb Hi Hf Hs Hl Hd. fix self 1.
  intros [|b|n|x|s|xs|kvs]; [exact Hn|apply Hb|apply Hi|apply Hf|apply Hs|..].
  - apply Hl. induction xs as [|x xs IH]; constructor; [apply self|apply IH].
  - apply Hd. induction kvs as [|[k v] kvs IH]; constructor; [apply self|apply IH].
Qed.

(** ** Writing *)

(** [indent=], and whether a space follows [,] and [:]. *)
Record style := mkStyle { st_indent : option nat; st_item_space : bool; st_key_space : bool }.

(** [dumps(v)], [dumps(v, indent=2)], [dumps(v, separators=(",", ":"))] *)
Definition default_style : style := mkStyle None true true.
Definition indented : style := mkStyle (Some 2%nat) false true.
Definition compact : style := mkStyle None false false.

Definition quote_char : ascii := ascii_of_nat 34.
Definition backslash : ascii := ascii_of_nat 92.
Definition newline : string := String (ascii_of_nat 10) "".

Definition hex_digit (n : nat) : ascii :=
  ascii_of_nat (if (n <? 10)%nat then 48 + n else 87 + n).

(** [ensure_ascii]: what is not printable ASCII is escaped. *)
Definition escape_char (c : ascii) : string :=
  let n := nat_of_ascii c in
  let short (l : ascii) := String backslash (String l "") in
  if Ascii.eqb c quote_char then short quote_char
  else if Ascii.eqb c backslash then short backslash
  else if (n =? 10)%nat then short "n"%char else if (n =? 13)%nat then short "r"%char
  else if (n =? 9)%nat then short "t"%char else if (n =? 12)%nat then short "f"%char
  else if (n =? 8)%nat then short "b"%char
  else if (32 <=? n)%nat && (n <=? 126)%nat then String c ""
  else String backslash ("u00" +:+ String (hex_digit (n / 16)) (String (hex_digit (n mod 16)) "")).

Fixpoint escape (s : string) : string :=
  match s with EmptyString => "" | String c s' => escape_char c +:+ escape s' end.

Definition print_str (s : string) : string :=
  String quote_char (escape s +:+ String quote_char "").

Definition print_float (x : float) : string :=
  match x with
  | SpecFloat.S754_nan => "NaN"
  | SpecFloat.S754_infinity s => if s then "-Infinity" else "Infinity"
  | _ => f_repr x
  end.

Section Print.
Context (st : style).

(** A new line at this depth, when indenting. *)
Definition line (depth : nat) : string :=
  match st_indent st with
  | None => ""
  | Some k => newline +:+ str_repeat " " (k * depth)
  end.

Definition space (b : bool) : string := if b then " " else "".

Definition enclose (l r : ascii) (depth : nat) (items : list string) : string :=
  match items with
  | [] => String l (String r "")
  | _ => String l (line (S depth) +:+
           str_join ("," +:+ space (st_item_space st) +:+ line (S depth)) items
           +:+ line depth +:+ String r "")
  end.

Definition member (key value : string) : string :=
  print_str key +:+ ":" +:+ space (st_key_space st) +:+ value.

Fixpoint print (depth : nat) (v : json) : string :=
  match v with
  | JNull => "null"
  | JBool b => if b then "true" else "false"
  | JInt n => str_of_Z n
  | JFloat x => print_float x
  | JStr s => print_str s
  | JList xs => enclose "[" "]" depth (map (print (S depth)) xs)
  | JDict kvs => enclose "{" "}" depth (map (fun kv => member (fst kv) (print (S depth) (snd kv))) kvs)
  end.
End Print.

(** [json.dumps(v, ...)] *)
Definition dumps (st : style) (v : json) : string := print st 0 v.

(** ** Reading *)

Definition is_space (c : ascii) : bool :=
  let n := nat_of_ascii c in (n =? 32)%nat || (n =? 9)%nat || (n =? 10)%nat || (n =? 13)%nat.

Fixpoint skip (s : string) : string :=
  match s with
  | String c s' => if is_space c then skip s' else s
  | EmptyString => ""
  end.

Definition hex_val (c : ascii) : option Z :=
  let n := Z.of_nat (nat_of_ascii c) in
  if (48 <=? n) && (n <=? 57) then Some (n - 48)
  else if (97 <=? n) && (n <=? 102) then Some (n - 87)
  else if (65 <=? n) && (n <=? 70) then Some (n - 55) else None.

(** What follows a backslash and is not [u]. *)
Definition unescape (c : ascii) : option ascii :=
  if Ascii.eqb c quote_char || Ascii.eqb c backslash || Ascii.eqb c "/" then Some c
  else if Ascii.eqb c "n" then Some (ascii_of_nat 10)
  else if Ascii.eqb c "r" then Some (ascii_of_nat 13)
  else if Ascii.eqb c "t" then Some (ascii_of_nat 9)
  else if Ascii.eqb c "f" then Some (ascii_of_nat 12)
  else if Ascii.eqb c "b" then Some (ascii_of_nat 8)
  else None.

(** [scanstring], after the opening quote. *)
Fixpoint scan_str (s : string) : option (string * string) :=
  match s with
  | EmptyString => None
  | String c s' =>
      if Ascii.eqb c quote_char then Some ("", s')
      else if Ascii.eqb c backslash then
        match s' with
        | String "u"%char (String a (String b (String c (String d s'')))) =>
            a ← hex_val a; b ← hex_val b; c ← hex_val c; d ← hex_val d;
            let code := ((a * 16 + b) * 16 + c) * 16 + d in
            if code <? 256 then
              '(r, s3) ← scan_str s''; Some (String (ascii_of_nat (Z.to_nat code)) r, s3)
            else None
        | String e s'' =>
            e ← unescape e; '(r, s3) ← scan_str s''; Some (String e r, s3)
        | EmptyString => None
        end
      else if (nat_of_ascii c <? 32)%nat then None
      else '(r, s3) ← scan_str s'; Some (String c r, s3)
  end.

(** The digits at the head of [s]: their value, how many, and the rest. *)
Fixpoint digits (acc : Z) (n : nat) (s : string) : Z * nat * string :=
  match s with
  | String c s' => match digit_val c with
                   | Some v => digits (acc * 10 + v) (S n) s'
                   | None => (acc, n, s)
                   end
  | EmptyString => (acc, n, s)
  end.

Definition starts (c : ascii) (s : string) : bool :=
  match s with String a _ => Ascii.eqb a c | EmptyString => false end.

Definition tail (s : string) : string := match s with String _ s' => s' | EmptyString => "" end.

(** An optional minus, an integer without leading zeros, then perhaps a
    fraction and an exponent, which make it a float. *)
Definition scan_number (s : string) : option (json * string) :=
  let neg := starts "-" s in
  let s := if neg then tail s else s in
  let '(whole, n, s1) := if starts "0" s then (0, 1%nat, tail s) else digits 0 0 s in
  if (n =? 0)%nat then None
  else
    let '(frac, nf, s2) :=
      if starts "." s1 then
        let '(v, k, r) := digits whole 0 (tail s1) in
        if (k =? 0)%nat then (whole, 0%nat, s1) else (v, k, r)
      else (whole, 0%nat, s1) in
    let '(ex, ne, s3) :=
      if starts "e" s2 || starts "E" s2 then
        let after := tail s2 in
        let minus := starts "-" after in
        let after := if minus || starts "+" after then tail after else after in
        let '(v, k, r) := digits 0 0 after in
        if (k =? 0)%nat then (0, 0%nat, s2) else ((if minus then - v else v), k, r)
      else (0, 0%nat, s2) in
    if (nf =? 0)%nat && (ne =? 0)%nat then Some (JInt (if neg then - whole else whole), s1)
    else
      let x := f_of_dec frac (ex - Z.of_nat nf) in
      Some (JFloat (if neg then f_neg x else x), s3).

Definition literals : list (string * json) :=
  [("null", JNull); ("true", JBool true); ("false", JBool false);
   ("NaN", JFloat SpecFloat.S754_nan); ("Infinity", JFloat (SpecFloat.S754_infinity false));
   ("-Infinity", JFloat (SpecFloat.S754_infinity true))].

Fixpoint scan_literal (ls : list (string * json)) (s : string) : option (json * string) :=
  match ls with
  | [] => None
  | (w, v) :: ls' => match strip_prefix w s with Some r => Some (v, r) | None => scan_literal ls' s end
  end.

(** [dict(pairs)]: the last value of a key, at its first place. *)
Definition dict_of (pairs : list (string * json)) : list (string * json) :=
  fold_left (fun m kv => dict_set (fst kv) (snd kv) m) pairs [].

(** [scan_once], with fuel for the nesting and the members; [items] and
    [members] are [JSONArray] and [JSONObject] from a member on. *)
Fixpoint value (fuel : nat) (s : string) : option (json * string) :=
  match fuel with
  | O => None
  | S k =>
      if starts quote_char s then '(r, s') ← scan_str (tail s); Some (JStr r, s')
      else if starts "[" s then
        let s := skip (tail s) in
        if starts "]" s then Some (JList [], tail s)
        else '(xs, s') ← items k s; Some (JList xs, s')
      else if starts "{" s then
        let s := skip (tail s) in
        if starts "}" s then Some (JDict [], tail s)
        else '(kvs, s') ← members k s; Some (JDict (dict_of kvs), s')
      else match scan_literal literals s with
           | Some r => Some r
           | None => scan_number s
           end
  end
with items (fuel : nat) (s : string) : option (list json * string) :=
  match fuel with
  | O => None
  | S k =>
      '(v, s) ← value k s;
      let s := skip s in
      if starts "]" s then Some ([v], tail s)
      else if starts "," s then '(vs, s') ← items k (skip (tail s)); Some (v :: vs, s')
      else None
  end
with members (fuel : nat) (s : string) : option (list (string * json) * string) :=
  match fuel with
  | O => None
  | S k =>
      if negb (starts quote_char s) then None
      else
        '(key, s) ← scan_str (tail s);
        let s := skip s in
        if negb (starts ":" s) then None
        else
          '(v, s) ← value k (skip (tail s));
          let s := skip s in
          if starts "}" s then Some ([(key, v)], tail s)
          else if starts "," s then
            '(kvs, s') ← members k (skip (tail s)); Some ((key, v) :: kvs, s')
          else None
  end.

(** [json.loads(s)]: every value takes at least one character. *)
Definition loads (s : string) : option json :=
  '(v, r) ← value (S (String.length s)) (skip s);
  match skip r with EmptyString => Some v | _ => None end.

Definition sample : json :=
  JDict [("step", JInt (-12)); ("files", JList [JStr "a"; JStr (newline +:+ String quote_char "é"); JDict []]);
         ("none", JNull); ("ok", JBool true); ("nested", JList [JList []; JList [JInt 0]])].

Example loads_ex :
  map loads [dumps default_style sample; dumps indented sample; dumps compact sample]
  = [Some sample; Some sample; Some sample] /\
  map loads ["{}"; " [ 1 , 2.5e1 ]"; "01"; "[1,]"; "nul"; ""]
  = [Some (JDict []); Some (JList [JInt 1; JFloat (f_of_Z 25)]); None; None; None; None].
Proof. vm_compute. split; reflexivity. Qed.

(** ** Reading back what was written *)

(** No float, and no key twice in one object. *)
Fixpoint plain (v : json) : bool :=
  match v with
  | JFloat _ => false
  | JList xs => forallb plain xs
  | JDict kvs => forallb (fun kv => plain (snd kv)) kvs && bool_decide (NoDup (map fst kvs))
  | _ => true
  end.

Fixpoint size (v : json) : nat :=
  match v with
  | JList xs => S (list_sum (map (fun x => S (size x)) xs))
  | JDict kvs => S (list_sum (map (fun kv => S (size (snd kv))) kvs))
  | _ => 1
  end.

(** What can follow a number without being read as part of it. *)
Definition ends (s : string) : bool :=
  match s with
  | EmptyString => true
  | String c _ => match digit_val c with
                  | Some _ => false
                  | None => negb (Ascii.eqb c "." || Ascii.eqb c "e" || Ascii.eqb c "E")
                  end
  end.

(** What a value starts with. *)
Definition solid (s : string) : bool :=
  match s with
  | EmptyString => false
  | String c _ => negb (is_space c || Ascii.eqb c "]" || Ascii.eqb c "}")
  end.

Lemma solid_skip s : solid s = true -> skip s = s.
Proof. destruct s as [|c s]; cbn; [done|]. by destruct (is_space c). Qed.

Lemma solid_open s : solid s = true -> starts "]" s = false /\ starts "}" s = false.
Proof. destruct s as [|c s]; cbn; [done|]. by destruct (is_space c), (Ascii.eqb c "]"), (Ascii.eqb c "}"). Qed.

Lemma skip_app a s : skip a = "" -> skip (a +:+ s) = skip s.
Proof.
  induction a as [|c a IH]; [done|]. change (String c a +:+ s) with (String c (a +:+ s)).
  cbn [skip]. destruct (is_space c); [apply IH|done].
Qed.

Lemma skip_repeat n : skip (str_repeat " " n) = "".
Proof. by induction n. Qed.

Lemma skip_line st d s : skip (line st d +:+ s) = skip s.
Proof. apply skip_app. unfold line. destruct (st_indent st); [|done]. cbn. apply skip_repeat. Qed.

Lemma skip_space b s : skip (space b +:+ s) = skip s.
Proof. by destruct b. Qed.

Lemma ends_line st d s : ends s = true -> ends (line st d +:+ s) = true.
Proof. unfold line. by destruct (st_indent st). Qed.

(** Strings. *)
Lemma scan_escape_char c s :
  scan_str (escape_char c +:+ s) = '(r, s3) ← scan_str s; Some (String c r, s3).
Proof. destruct c as [[] [] [] [] [] [] [] []]; reflexivity. Qed.

Lemma scan_escape s rest : scan_str (escape s +:+ String quote_char rest) = Some (s, rest).
Proof.
  induction s as [|c s IH]; [done|]. cbn [escape]. rewrite str_app_assoc, scan_escape_char, IH. done.
Qed.

(** Integers. *)
Lemma digits_go x s : (0 < x)%N -> exists k d t,
  pretty_N_go x s = String (digit d) t /\ 1 <= d <= 9 /\
  forall acc n, digits acc n (pretty_N_go x s) = digits (acc * 10 ^ Z.of_nat (S k) + Z.of_N x) (n + S k) s.
Proof.
  revert s. induction (N.lt_wf_0 x) as [x _ IH]; intros s Hx. rewrite pretty_N_go_step by done.
  assert (Hc : pretty_N_char (x `mod` 10) = digit (Z.of_N (x `mod` 10))) by (unfold digit; by rewrite N2Z.id).
  assert (Hm : (x `mod` 10 < 10)%N) by (apply N.mod_lt; lia).
  pose proof (N.div_mod x 10 ltac:(lia)) as Hdm. rewrite Hc.
  destruct (N.eq_dec (x `div` 10)%N 0%N) as [E|E].
  - rewrite E, pretty_N_go_0. rewrite E in Hdm. exists O, (Z.of_N (x `mod` 10)), s. split_and!; [done|lia|lia|].
    intros acc n. cbn [digits]. rewrite digit_val_digit by lia. f_equal; [|lia]. cbn. lia.
  - destruct (IH (x `div` 10)%N ltac:(apply N.div_lt; lia) (String (digit (Z.of_N (x `mod` 10))) s) ltac:(lia))
      as (k & d & t & H1 & H2 & H3).
    exists (S k), d, t. split_and!; [done|lia|lia|]. intros acc n. rewrite H3. cbn [digits].
    rewrite digit_val_digit by lia. f_equal; [|lia].
    rewrite (Nat2Z.inj_succ (S k)), Z.pow_succ_r by lia. set (p := 10 ^ Z.of_nat (S k)). lia.
Qed.

Lemma digits_rest acc n s : ends s = true -> digits acc n s = (acc, n, s).
Proof. destruct s as [|c s]; cbn; [done|]. by destruct (digit_val c). Qed.

Lemma ends_starts s : ends s = true ->
  starts "." s = false /\ starts "e" s || starts "E" s = false.
Proof.
  destruct s as [|c s]; cbn; [done|]. destruct (digit_val c); [done|].
  by destruct (Ascii.eqb c "."), (Ascii.eqb c "e"), (Ascii.eqb c "E").
Qed.

(** [pretty_N_go] only prepends. *)
Lemma pretty_go_app x s t : pretty_N_go x (s +:+ t) = pretty_N_go x s +:+ t.
Proof.
  revert s. induction (N.lt_wf_0 x) as [x _ IH]; intros s.
  destruct (N.eq_dec x 0%N) as [->|E]; [by rewrite !pretty_N_go_0|].
  rewrite (pretty_N_go_step x (s +:+ t)), (pretty_N_go_step x s) by lia.
  rewrite <- IH by (apply N.div_lt; lia). done.
Qed.

Lemma one_to_nine d : 1 <= d <= 9 ->
  d = 1 \/ d = 2 \/ d = 3 \/ d = 4 \/ d = 5 \/ d = 6 \/ d = 7 \/ d = 8 \/ d = 9.
Proof. lia. Qed.

(** A positive integer: its first digit is not zero. *)
Lemma positive_text p s : ends s = true -> exists d t k,
  str_of_Z (Z.pos p) +:+ s = String (digit d) t /\ 1 <= d <= 9 /\
  digits 0 0 (String (digit d) t) = (Z.pos p, S k, s).
Proof.
  intros Hs. change (str_of_Z (Z.pos p)) with (pretty_N_go (N.pos p) ""). rewrite <- pretty_go_app.
  destruct (digits_go (N.pos p) s ltac:(lia)) as (k & d & t & E & Hd & Hdig). specialize (Hdig 0 O).
  change ("" +:+ s) with s. rewrite E in Hdig |- *. rewrite (digits_rest _ _ s Hs), Z.mul_0_l in Hdig.
  by exists d, t, k.
Qed.

Lemma value_int n s k : ends s = true -> value (S k) (str_of_Z n +:+ s) = Some (JInt n, s).
Proof.
  intros Hs. destruct (ends_starts s Hs) as [H1 H2]. destruct n as [|p|p].
  - change (str_of_Z 0 +:+ s) with (String "0" s). cbn [value]. unfold scan_number. cbn.
    by rewrite H1, H2.
  - destruct (positive_text p s Hs) as (d & t & m & -> & Hd & Hdig).
    assert (Hsc : scan_number (String (digit d) t) = Some (JInt (Z.pos p), s)).
    { unfold scan_number. assert (starts "-" (String (digit d) t) = false /\ starts "0" (String (digit d) t) = false)
        as [-> ->] by (destruct (one_to_nine d Hd) as [->|Hc]; [done|]; by repeat destruct Hc as [->|Hc]; subst).
      rewrite Hdig. cbn. by rewrite H1, H2. }
    rewrite <- Hsc. clear Hsc Hdig. destruct (one_to_nine d Hd) as [->|Hc]; [reflexivity|].
    repeat destruct Hc as [->|Hc]; subst; reflexivity.
  - change (str_of_Z (Z.neg p) +:+ s) with (String "-" (str_of_Z (Z.pos p) +:+ s)).
    destruct (positive_text p s Hs) as (d & t & m & -> & Hd & Hdig).
    assert (Hsc : scan_number (String "-" (String (digit d) t)) = Some (JInt (Z.neg p), s)).
    { assert (starts "0" (String (digit d) t) = false) as E
        by (destruct (one_to_nine d Hd) as [->|Hc]; [done|]; by repeat destruct Hc as [->|Hc]; subst).
      set (u := String (digit d) t) in *. clearbody u. unfold scan_number.
      change (starts "-" (String "-" u)) with true. change (tail (String "-" u)) with u. cbn match.
      rewrite E, Hdig. cbn. by rewrite H1, H2. }
    rewrite <- Hsc. clear Hsc Hdig. destruct (one_to_nine d Hd) as [->|Hc]; [reflexivity|].
    repeat destruct Hc as [->|Hc]; subst; reflexivity.
Qed.

Lemma solid_app a b : solid a = true -> solid (a +:+ b) = true.
Proof. by destruct a. Qed.

Lemma solid_int n : solid (str_of_Z n) = true.
Proof.
  destruct n as [|p|p]; [done| |done]. destruct (positive_text p "" eq_refl) as (d & t & k & E & Hd & _).
  rewrite str_app_nil in E. rewrite E. destruct (one_to_nine d Hd) as [->|Hc]; [done|].
  by repeat destruct Hc as [->|Hc]; subst.
Qed.

Lemma solid_enclose l r st d xs : solid (String l "") = true -> solid (enclose st l r d xs) = true.
Proof. by destruct xs. Qed.

Section RoundTrip.
Context (st : style).

Lemma solid_print d v : plain v = true -> solid (print st d v) = true.
Proof.
  destruct v as [|[]|n|x|s|xs|kvs]; intros Hp; try done; [apply solid_int|by apply solid_enclose..].
Qed.

(** The text of a list after its bracket, from its first item on. *)
Definition rest_of (r : ascii) (d : nat) (rest : string) (items : list string) : string :=
  str_join ("," +:+ space (st_item_space st) +:+ line st (S d)) items
  +:+ line st d +:+ String r rest.

Lemma enclose_app l r d x xs rest :
  enclose st l r d (x :: xs) +:+ rest = String l (line st (S d) +:+ rest_of r d rest (x :: xs)).
Proof.
  unfold enclose, rest_of. change (String l ?a +:+ rest) with (String l (a +:+ rest)). f_equal.
  by rewrite !str_app_assoc.
Qed.

Lemma rest_of_cons r d rest x y xs :
  rest_of r d rest (x :: y :: xs)
  = x +:+ String "," (space (st_item_space st) +:+ line st (S d) +:+ rest_of r d rest (y :: xs)).
Proof. unfold rest_of. cbn [str_join]. by rewrite !str_app_assoc. Qed.

Lemma rest_of_one r d rest x : rest_of r d rest [x] = x +:+ line st d +:+ String r rest.
Proof. done. Qed.

Lemma skip_rest_of r d rest x xs : solid x = true -> skip (rest_of r d rest (x :: xs)) = rest_of r d rest (x :: xs).
Proof.
  intros Hx. apply solid_skip. destruct xs as [|y xs]; [rewrite rest_of_one|rewrite rest_of_cons]; by apply solid_app.
Qed.

(** What a value printed at some depth reads as. *)
Definition reads_back (d : nat) (v : json) : Prop := forall fuel rest,
  ends rest = true -> (size v <= fuel)%nat -> value fuel (print st d v +:+ rest) = Some (v, rest).

Lemma items_read d xs rest fuel :
  Forall (fun x => plain x = true /\ reads_back (S d) x) xs -> xs <> [] ->
  (list_sum (map (fun x => S (size x)) xs) <= fuel)%nat ->
  items fuel (rest_of "]" d rest (map (print st (S d)) xs)) = Some (xs, rest).
Proof.
  intros Hxs. revert fuel. induction Hxs as [|x xs [Hpx Hx] Hxs IH]; [done|]. intros fuel _ Hf.
  cbn [map list_sum] in Hf. destruct fuel as [|k]; [cbn in Hf; lia|].
  destruct xs as [|y xs]; cbn [map items].
  - rewrite rest_of_one, Hx by (by apply ends_line || (cbn in Hf; lia)). cbn [mbind option_bind].
    by rewrite skip_line.
  - rewrite rest_of_cons, Hx by (done || (cbn in Hf; lia)). cbn [mbind option_bind].
    change (skip (String "," ?s)) with (String "," s). cbn [starts tail].
    change (Ascii.eqb "," "]") with false. change (Ascii.eqb "," ",") with true. cbn match.
    rewrite skip_space, skip_line.
    rewrite skip_rest_of by (apply solid_print; by inversion Hxs as [|?? [? ?]]).
    cbn [map] in IH. rewrite IH by (done || (cbn in Hf |- *; lia)). done.
Qed.

Definition entry (d : nat) (kv : string * json) : string := member st (fst kv) (print st d (snd kv)).

Lemma entry_app d kv s :
  entry d kv +:+ s
  = String quote_char (escape (fst kv) +:+ String quote_char (String ":" (space (st_key_space st)
      +:+ print st d (snd kv) +:+ s))).
Proof.
  unfold entry, member, print_str. rewrite !str_app_assoc.
  change (String quote_char ?a +:+ ?b) with (String quote_char (a +:+ b)). by rewrite !str_app_assoc.
Qed.

Lemma members_read d kvs rest fuel :
  Forall (fun kv => plain (snd kv) = true /\ reads_back (S d) (snd kv)) kvs -> kvs <> [] ->
  (list_sum (map (fun kv => S (size (snd kv))) kvs) <= fuel)%nat ->
  members fuel (rest_of "}" d rest (map (entry (S d)) kvs)) = Some (kvs, rest).
Proof.
  intros Hkvs. revert fuel. induction Hkvs as [|[key v] kvs [Hpx Hx] Hkvs IH]; [done|]. intros fuel _ Hf.
  cbn [map list_sum] in Hf. destruct fuel as [|k]; [cbn in Hf; lia|].
  assert (Hhead : forall s, members (S k) (entry (S d) (key, v) +:+ s) =
    ('(v, s) ← value k (print st (S d) v +:+ s);
     let s := skip s in
     if starts "}" s then Some ([(key, v)], tail s)
     else if starts "," s then '(kvs, s') ← members k (skip (tail s)); Some ((key, v) :: kvs, s')
     else None)).
  { intros s. rewrite entry_app. cbn [members starts tail fst snd].
    change (Ascii.eqb quote_char quote_char) with true. cbn [negb]. rewrite scan_escape. cbn [mbind option_bind].
    change (skip (String ":" ?s)) with (String ":" s). cbn [starts tail].
    change (Ascii.eqb ":" ":") with true. cbn [negb]. rewrite skip_space.
    rewrite solid_skip by (by apply solid_app, solid_print). done. }
  destruct kvs as [|kv kvs]; cbn [map].
  - rewrite rest_of_one, Hhead, Hx by (by apply ends_line || (cbn in Hf |- *; lia)). cbn [mbind option_bind].
    by rewrite skip_line.
  - rewrite rest_of_cons, Hhead, Hx by (done || (cbn in Hf |- *; lia)). cbn [mbind option_bind].
    change (skip (String "," ?s)) with (String "," s). cbn [starts tail].
    change (Ascii.eqb "," "}") with false. change (Ascii.eqb "," ",") with true. cbn match.
    rewrite skip_space, skip_line. rewrite skip_rest_of by done.
    cbn [map] in IH. rewrite IH by (done || (cbn in Hf |- *; lia)). done.
Qed.
Lemma dict_set_new {K V} `{EqDecision K} (k : K) (v : V) m : k ∉ map fst m -> dict_set k v m = m ++ [(k, v)].
Proof.
  induction m as [|[k' v'] m IH]; intros Hk; [done|]. cbn in *. rewrite not_elem_of_cons in Hk.
  destruct (decide (k' = k)) as [E|_]; [by destruct (proj1 Hk)|]. by rewrite IH by apply Hk.
Qed.

Lemma dict_of_nodup kvs : NoDup (map fst kvs) -> dict_of kvs = kvs.
Proof.
  intros Hn. unfold dict_of. change kvs with ([] ++ kvs) in Hn at 1. change kvs with ([] ++ kvs) at 2.
  generalize dependent (@nil (string * json)). induction kvs as [|[k v] kvs IH]; intros m Hn; cbn [fold_left].
  { by rewrite app_nil_r. }
  cbn [fst snd]. rewrite map_app in Hn. cbn in Hn. rewrite dict_set_new.
  - rewrite IH; [by rewrite <- app_assoc|]. by rewrite <- app_assoc, map_app.
  - apply NoDup_app in Hn as (_ & Hd & _). intros Hk. apply (Hd k Hk). left.
Qed.

Lemma print_reads v d : plain v = true -> reads_back d v.
Proof.
  revert d. induction v as [|b|n|x|s|xs IH|kvs IH] using json_rect_nested; intros d Hp fuel rest Hr Hf;
    cbn [size] in Hf; destruct fuel as [|k]; try lia.
  - done.
  - by destruct b.
  - by apply value_int.
  - done.
  - cbn [print]. unfold print_str. change (String quote_char ?a +:+ rest) with (String quote_char (a +:+ rest)).
    cbn [value starts tail]. change (Ascii.eqb quote_char quote_char) with true. cbn match.
    rewrite str_app_assoc. change (String quote_char "" +:+ rest) with (String quote_char rest).
    by rewrite scan_escape.
  - cbn [print]. destruct xs as [|x xs]; [done|]. cbn [map]. rewrite enclose_app. cbn [value starts tail].
    change (Ascii.eqb "[" quote_char) with false. change (Ascii.eqb "[" "[") with true. cbn match.
    cbn [plain] in Hp. rewrite forallb_forall in Hp.
    rewrite skip_line, skip_rest_of by (apply solid_print, Hp; by left).
    assert (Hs : solid (rest_of "]" d rest (map (print st (S d)) (x :: xs))) = true).
    { cbn [map]. destruct xs; [rewrite rest_of_one|cbn [map]; rewrite rest_of_cons]; apply solid_app, solid_print, Hp; by left. }
    cbn [map] in Hs. rewrite (proj1 (solid_open _ Hs)).
    pose proof (items_read d (x :: xs) rest k) as Hi. cbn [map] in Hi. rewrite Hi; [done| |done|cbn in Hf |- *; lia].
    rewrite Forall_forall in IH |- *. intros y Hy%list_elem_of_In. split; [by apply Hp|].
    apply IH; [by apply list_elem_of_In|by apply Hp].
  - cbn [print]. destruct kvs as [|kv kvs]; [done|]. cbn [plain] in Hp. apply andb_true_iff in Hp as [Hp Hn].
    apply bool_decide_eq_true in Hn. rewrite forallb_forall in Hp.
    change (map ?f (kv :: kvs)) with (map (entry (S d)) (kv :: kvs)). cbn [map].
    rewrite enclose_app. cbn [value starts tail].
    change (Ascii.eqb "{" quote_char) with false. change (Ascii.eqb "{" "[") with false.
    change (Ascii.eqb "{" "{") with true. cbn match.
    rewrite skip_line, skip_rest_of by done.
    assert (Hs : solid (rest_of "}" d rest (map (entry (S d)) (kv :: kvs))) = true).
    { cbn [map]. by destruct kvs; [rewrite rest_of_one|cbn [map]; rewrite rest_of_cons]. }
    cbn [map] in Hs. rewrite (proj2 (solid_open _ Hs)).
    pose proof (members_read d (kv :: kvs) rest k) as Hi. cbn [map] in Hi.
    rewrite Hi; [cbn [mbind option_bind]; by rewrite dict_of_nodup| |done|cbn in Hf |- *; lia].
    rewrite Forall_forall in IH |- *. intros y Hy%list_elem_of_In. split; [by apply Hp|].
    apply IH; [by apply list_elem_of_In|by apply Hp].
Qed.
End RoundTrip.

Lemma join_length sep items : (1 <= String.length sep)%nat -> items <> [] ->
  (list_sum (map (fun x => S (String.length x)) items) <= S (String.length (str_join sep items)))%nat.
Proof.
  intros Hs. induction items as [|x items IH]; [done|]. intros _. destruct items as [|y items]; [cbn; lia|].
  specialize (IH ltac:(done)). cbn [str_join map list_sum foldr] in *.
  rewrite !str_length_app. cbn in *. lia.
Qed.

Lemma list_sum_mono {A} (f g : A -> nat) l : (forall x, x ∈ l -> (f x <= g x)%nat) ->
  (list_sum (map f l) <= list_sum (map g l))%nat.
Proof.
  induction l as [|x l IH]; intros H; [done|]. specialize (IH ltac:(intros; apply H; by right)).
  specialize (H x ltac:(by left)). unfold list_sum in *. cbn. lia.
Qed.

Lemma enclose_length st l r d items : items <> [] ->
  (S (list_sum (map (fun x => S (String.length x)) items)) <= String.length (enclose st l r d items))%nat.
Proof.
  intros Hi. destruct items as [|x items]; [done|]. unfold enclose.
  set (sep := "," +:+ _). assert (Hsep : (1 <= String.length sep)%nat) by (subst sep; rewrite str_length_app; cbn; lia).
  pose proof (join_length sep (x :: items) Hsep Hi) as Hj.
  set (joined := str_join sep (x :: items)) in *. clearbody joined.
  change (String.length (String l ?s)) with (S (String.length s)). rewrite !str_length_app.
  change (String.length (String r "")) with 1%nat. lia.
Qed.

Lemma size_length st d v : plain v = true -> (size v <= String.length (print st d v))%nat.
Proof.
  revert d. induction v as [|b|n|x|s|xs IH|kvs IH] using json_rect_nested; intros d Hp;
    cbn [size print]; try (cbn; lia).
  - destruct b; cbn; lia.
  - pose proof (solid_int n) as Hs. destruct (str_of_Z n); [done|cbn; lia].
  - done.
  - cbn [plain] in Hp. rewrite forallb_forall in Hp. rewrite Forall_forall in IH.
    destruct xs as [|x xs]; [cbn; lia|]. etransitivity; [|by apply enclose_length].
    rewrite map_map. apply le_n_S, list_sum_mono. intros y Hy. apply le_n_S, IH; [done|].
    by apply Hp, list_elem_of_In.
  - cbn [plain] in Hp. apply andb_true_iff in Hp as [Hp _]. rewrite forallb_forall in Hp.
    rewrite Forall_forall in IH.
    destruct kvs as [|kv kvs]; [cbn; lia|]. etransitivity; [|by apply enclose_length].
    rewrite map_map. apply le_n_S, list_sum_mono. intros y Hy. apply le_n_S.
    unfold member. rewrite !str_length_app.
    specialize (IH y Hy (S d) (Hp y (proj1 (list_elem_of_In _ _) Hy))). lia.
Qed.

(** Text written in any of the styles reads back as the value. *)
Lemma loads_dumps st v : plain v = true -> loads (dumps st v) = Some v.
Proof.
  intros Hp. unfold loads, dumps. rewrite solid_skip by (by apply solid_print).
  pose proof (print_reads st v 0 Hp (S (String.length (print st 0 v))) "") as Hr.
  rewrite str_app_nil in Hr. rewrite Hr; [done|done|]. pose proof (size_length st 0 v Hp). lia.
Qed.
