(* ===== verification/PyText.v ===== *)
(** * Methods of Python's [str], and what [shlex] and [base64] do to it

    [strip], [splitlines], [split], [isdigit], [isalnum], [int] and [float] of a
    text, on the 256 characters of the model; [shlex.quote]; [base64.b64encode] of
    the UTF-8 bytes.  [sh_word] is the reading of one word by the POSIX shell, as
    far as [shlex.quote] needs it: the specification [quote] is proved against. *)

From Stdlib Require Import Ascii.
From S2P Require Import Prelude PyFloat PyDecimal PyFormat PySort Errors Money Clock PyJson.
Local Open Scope Z_scope.

(** ** Spaces and lines *)

Definition is_py_space (c : ascii) : bool :=
  let n := nat_of_ascii c in
  ((9 <=? n) && (n <=? 13) || (28 <=? n) && (n <=? 32) || (n =? 133) || (n =? 160))%nat.

Fixpoint all_space (s : string) : bool :=
  match s with EmptyString => true | String c s' => is_py_space c && all_space s' end.

Fixpoint lstrip (s : string) : string :=
  match s with String c s' => if is_py_space c then lstrip s' else s | EmptyString => "" end.

(** Digits with single underscores between them, then spaces only. *)
Fixpoint int_digits (acc : Z) (started : bool) (s : string) : option Z :=
  match s with
  | EmptyString => if started then Some acc else None
  | String c s' =>
      match digit_val c with
      | Some v => int_digits (acc * 10 + v) true s'
      | None =>
          if started && Ascii.eqb c "_" then
            match s' with
            | String d s'' => match digit_val d with
                              | Some v => int_digits (acc * 10 + v) true s''
                              | None => None
                              end
            | EmptyString => None
            end
          else if started && all_space s then Some acc else None
      end
  end.

(** [int(s)] of a text *)
Definition int_text (s : string) : option Z :=
  let s := lstrip s in
  if starts "-" s then option_map Z.opp (int_digits 0 false (tail s))
  else if starts "+" s then int_digits 0 false (tail s)
  else int_digits 0 false s.


(** [int(v)] of a value read from JSON *)
Definition int_of (v : json) : outcome exn Z :=
  match v with
  | JInt n => Ok n
  | JBool b => Ok (if b then 1 else 0)
  | JFloat x =>
      if is_nan x then Raise (ValueError "cannot convert float NaN to integer")
      else if is_finite x then Ok (f_trunc x)
      else Raise (OverflowError "cannot convert float infinity to integer")
  | JStr s => of_option (int_text s) (ValueError ("invalid literal for int() with base 10: '" +:+ s +:+ "'"))
  | _ => Raise (TypeError "int() argument must be a string, a bytes-like object or a real number")
  end.

Fixpoint rstrip (s : string) : string :=
  match s with
  | EmptyString => ""
  | String c s' => match rstrip s' with
                   | EmptyString => if is_py_space c then "" else String c ""
                   | r => String c r
                   end
  end.

(** [s.strip()] *)
Definition strip (s : string) : string := rstrip (lstrip s).

Definition is_line_break (c : ascii) : bool :=
  let n := nat_of_ascii c in
  ((10 <=? n) && (n <=? 13) || (28 <=? n) && (n <=? 30) || (n =? 133))%nat.

(** [s.splitlines()] *)
Fixpoint splitlines (s : string) : list string :=
  match s with
  | EmptyString => []
  | String c s' =>
      if is_line_break c then
        "" :: match s' with
              | String d s'' => if Ascii.eqb c "013" && Ascii.eqb d "010" then splitlines s'' else splitlines s'
              | EmptyString => []
              end
      else match splitlines s' with
           | l :: ls => String c l :: ls
           | [] => [String c ""]
           end
  end.

(** The word at the head of [s], and the words after it. *)
Fixpoint words (s : string) : string * list string :=
  match s with
  | EmptyString => ("", [])
  | String c s' =>
      let '(w, ws) := words s' in
      if is_py_space c then ("", if String.eqb w "" then ws else w :: ws) else (String c w, ws)
  end.

(** [s.split()] *)
Definition split_space (s : string) : list string :=
  let '(w, ws) := words s in if String.eqb w "" then ws else w :: ws.

Definition non_empty (s : string) : bool := match s with EmptyString => false | _ => true end.

Definition str_forall (p : ascii -> bool) (s : string) : bool := forallb p (String.list_ascii_of_string s).

(** [c.isdigit()], [c.isalnum()] *)
Definition is_digit_char (c : ascii) : bool :=
  let n := nat_of_ascii c in ((48 <=? n) && (n <=? 57) || (n =? 178) || (n =? 179) || (n =? 185))%nat.

Definition is_alnum_char (c : ascii) : bool :=
  let n := nat_of_ascii c in
  is_digit_char c || ((65 <=? n) && (n <=? 90) || (97 <=? n) && (n <=? 122) || (n =? 170) || (n =? 181) || (n =? 186)
   || (188 <=? n) && (n <=? 190) || (192 <=? n) && negb (n =? 215) && negb (n =? 247))%nat.

(** [s.isdigit()] *)
Definition isdigit (s : string) : bool := non_empty s && str_forall is_digit_char s.

(** [s.removeprefix(p)], [s.removesuffix(p)] *)
Definition removeprefix (p s : string) : string := default s (strip_prefix p s).

Fixpoint removesuffix (p s : string) : string :=
  if String.eqb s p then ""
  else match s with EmptyString => "" | String c s' => String c (removesuffix p s') end.

Definition starts_with (p s : string) : bool := bool_decide (is_Some (strip_prefix p s)).

(** [s.endswith(suffix)] *)
Fixpoint ends_with (suffix s : string) : bool :=
  String.eqb s suffix || match s with EmptyString => false | String _ s' => ends_with suffix s' end.

(** [s.rsplit("/", 1)[0]] *)
Definition parent_of (s : string) : string :=
  match split_char "/" s with [one] => one | parts => String.concat "/" (removelast parts) end.

Lemma ends_with_self s : ends_with s s = true.
Proof. destruct s; cbn [ends_with]; by rewrite String.eqb_refl. Qed.

Fixpoint str_filter (p : ascii -> bool) (s : string) : string :=
  match s with
  | EmptyString => ""
  | String c s' => if p c then String c (str_filter p s') else str_filter p s'
  end.

(** ** [float(s)] *)

(** Digits with single underscores between them: their value, how many, and the rest. *)
Fixpoint spaced_digits (acc : Z) (n : nat) (s : string) : Z * nat * string :=
  match s with
  | String c s' =>
      match digit_val c with
      | Some v => spaced_digits (acc * 10 + v) (S n) s'
      | None =>
          if Ascii.eqb c "_" && negb (n =? 0)%nat then
            match s' with
            | String d s'' => match digit_val d with
                              | Some v => spaced_digits (acc * 10 + v) (S n) s''
                              | None => (acc, n, s)
                              end
            | EmptyString => (acc, n, s)
            end
          else (acc, n, s)
      end
  | EmptyString => (acc, n, s)
  end.

(** Digits with a point and an exponent: the number is [c * 10 ^ e]. *)
Definition number_unsigned (s : string) : option (Z * Z) :=
  let '(whole, n, s1) := spaced_digits 0 0 s in
  let '(c, nf, s2) :=
    if starts "." s1 then
      let '(v, k, r) := spaced_digits 0 0 (tail s1) in (whole * 10 ^ Z.of_nat k + v, k, r)
    else (whole, O, s1) in
  if (n + nf =? 0)%nat then None
  else if String.eqb s2 "" then Some (c, - Z.of_nat nf)
  else if starts "e" s2 || starts "E" s2 then
    let after := tail s2 in
    let minus := starts "-" after in
    let after := if minus || starts "+" after then tail after else after in
    let '(ex, ne, s3) := spaced_digits 0 0 after in
    if (ne =? 0)%nat || non_empty s3 then None
    else Some (c, (if minus then - ex else ex) - Z.of_nat nf)
  else None.

(** A text without sign or spaces around it. *)
Definition float_unsigned (s : string) : option float :=
  let l := str_lower s in
  if String.eqb l "inf" || String.eqb l "infinity" then Some (SpecFloat.S754_infinity false)
  else if String.eqb l "nan" then Some SpecFloat.S754_nan
  else option_map (fun ce => f_of_dec (fst ce) (snd ce)) (number_unsigned s).

Definition float_text (s : string) : option float :=
  let s := strip s in
  if starts "-" s then option_map f_neg (float_unsigned (tail s))
  else if starts "+" s then float_unsigned (tail s)
  else float_unsigned s.

Example float_ex : map float_text ["16384"; " 2.5e1 "; "-"; "[N/A]"; "1_0"; ".5"; "-1"; "5."]
  = [Some (f_of_Z 16384); Some (f_of_Z 25); None; None; Some (f_of_Z 10); Some (f_of_dec 5 (-1)); Some (f_of_Z (-1)); Some (f_of_Z 5)].
Proof. by vm_compute. Qed.

Example text_ex : (strip (" a b" +:+ newline), splitlines ("a" +:+ newline +:+ newline +:+ "b"), split_space " 0  12 C ",
    removesuffix ".service" "x.service", isdigit "")
  = ("a b", ["a"; ""; "b"], ["0"; "12"; "C"], "x", false).
Proof. by vm_compute. Qed.

(** [Decimal(s)], of what is a number *)
Definition decimal_text (s : string) : option Decimal :=
  let s := strip s in
  let unsigned s := option_map (fun ce => mkDec (fst ce) (snd ce)) (number_unsigned s) in
  if starts "-" s then option_map dec_neg (unsigned (tail s))
  else if starts "+" s then unsigned (tail s)
  else unsigned s.

(** ** [shlex.quote] *)

(** [[\w@%+=:,./-]], ASCII only *)
Definition is_shell_safe (c : ascii) : bool :=
  let n := nat_of_ascii c in
  ((48 <=? n) && (n <=? 57) || (65 <=? n) && (n <=? 90) || (97 <=? n) && (n <=? 122))%nat
  || existsb (Ascii.eqb c) ["_"; "@"; "%"; "+"; "="; ":"; ","; "."; "/"; "-"]%char.

Definition apostrophe : ascii := ascii_of_nat 39.

(** [s.replace("'", "'\"'\"'")] *)
Fixpoint break_quotes (s : string) : string :=
  match s with
  | EmptyString => ""
  | String c s' =>
      if Ascii.eqb c apostrophe
      then String apostrophe (String quote_char (String apostrophe (String quote_char (String apostrophe (break_quotes s')))))
      else String c (break_quotes s')
  end.

(** [shlex.quote(s)] *)
Definition quote (s : string) : string :=
  if String.eqb s "" then String apostrophe (String apostrophe "")
  else if str_forall is_shell_safe s then s
  else String apostrophe (break_quotes s +:+ String apostrophe "").

(** What ends a word for the shell, and what it does not take as it stands. *)
Definition ends_word (c : ascii) : bool :=
  existsb (Ascii.eqb c) [" "; "009"; "010"; "|"; "&"; ";"; "<"; ">"; "("; ")"]%char.

Definition needs_shell (c : ascii) : bool :=
  existsb (Ascii.eqb c) ["$"; "`"; "\"; "*"; "?"; "["; "]"; "#"; "~"; "{"; "}"; "!"; "^"]%char.

Inductive quoting := Bare | Single | Double.

(** The word at the head of [s], read by the shell's rules for quotes, and the
    rest; [None] where more than quoting is at work. *)
Fixpoint sh_word (q : quoting) (s : string) : option (string * string) :=
  match s, q with
  | EmptyString, Bare => Some ("", "")
  | EmptyString, _ => None
  | String c s', Bare =>
      if Ascii.eqb c apostrophe then sh_word Single s'
      else if Ascii.eqb c quote_char then sh_word Double s'
      else if ends_word c then Some ("", s)
      else if needs_shell c then None
      else '(w, rest) ← sh_word Bare s'; Some (String c w, rest)
  | String c s', Single =>
      if Ascii.eqb c apostrophe then sh_word Bare s'
      else '(w, rest) ← sh_word Single s'; Some (String c w, rest)
  | String c s', Double =>
      if Ascii.eqb c quote_char then sh_word Bare s'
      else if existsb (Ascii.eqb c) ["$"; "`"; "\"; "!"]%char then None
      else '(w, rest) ← sh_word Double s'; Some (String c w, rest)
  end.

Definition word_ends (s : string) : bool := match s with EmptyString => true | String c _ => ends_word c end.

Lemma all_chars (P : ascii -> bool) : forallb (fun n => P (ascii_of_nat n)) (seq 0 256) = true -> forall c, P c = true.
Proof.
  rewrite forallb_forall. intros H c. rewrite <- (ascii_nat_embedding c). apply H, in_seq.
  pose proof (nat_ascii_bounded c). lia.
Qed.

Lemma safe_is_plain c : is_shell_safe c = true ->
  Ascii.eqb c apostrophe = false /\ Ascii.eqb c quote_char = false /\ ends_word c = false /\ needs_shell c = false.
Proof.
  intros Hc. pose proof (all_chars (fun c => negb (is_shell_safe c) || negb (Ascii.eqb c apostrophe || Ascii.eqb c quote_char || ends_word c || needs_shell c))
    ltac:(by vm_compute) c) as H. cbn beta in H. rewrite Hc in H. cbn [negb orb] in H.
  apply negb_true_iff in H. apply orb_false_iff in H as [H ?]. apply orb_false_iff in H as [H ?]. by apply orb_false_iff in H as [? ?].
Qed.

Lemma sh_word_end rest : word_ends rest = true -> sh_word Bare rest = Some ("", rest).
Proof.
  destruct rest as [|c rest]; [done|]. cbn [sh_word word_ends]. intros Hc.
  pose proof (all_chars (fun c => negb (ends_word c) || negb (Ascii.eqb c apostrophe || Ascii.eqb c quote_char)) ltac:(by vm_compute) c) as H.
  cbn beta in H. rewrite Hc in H. cbn [negb orb] in H. apply negb_true_iff, orb_false_iff in H as [-> ->]. by rewrite Hc.
Qed.

Lemma sh_word_safe s rest : str_forall is_shell_safe s = true -> word_ends rest = true ->
  sh_word Bare (s +:+ rest) = Some (s, rest).
Proof.
  intros Hs Hr. induction s as [|c s IH]; [by apply sh_word_end|]. apply andb_true_iff in Hs as [Hc Hs].
  change (String c s +:+ rest) with (String c (s +:+ rest)). cbn [sh_word].
  destruct (safe_is_plain c Hc) as (-> & -> & -> & ->). by rewrite IH by done.
Qed.

Lemma sh_word_broken s rest : word_ends rest = true ->
  sh_word Single (break_quotes s +:+ String apostrophe "" +:+ rest) = Some (s, rest).
Proof.
  intros Hr. induction s as [|c s IH].
  - change ("" +:+ String apostrophe "" +:+ rest) with (String apostrophe rest). cbn [sh_word].
    change (Ascii.eqb apostrophe apostrophe) with true. by apply sh_word_end.
  - cbn [break_quotes]. destruct (Ascii.eqb_spec c apostrophe) as [->|Hc].
    + set (r := break_quotes s) in *.
      change (String apostrophe (String quote_char (String apostrophe (String quote_char (String apostrophe r)))) +:+ String apostrophe "" +:+ rest)
        with (String apostrophe (String quote_char (String apostrophe (String quote_char (String apostrophe (r +:+ String apostrophe "" +:+ rest)))))).
      transitivity ('(w, rest) ← sh_word Single (r +:+ String apostrophe "" +:+ rest); Some (String apostrophe w, rest)); [reflexivity|].
      by rewrite IH.
    + change (String c (break_quotes s) +:+ String apostrophe "" +:+ rest) with (String c (break_quotes s +:+ String apostrophe "" +:+ rest)).
      cbn [sh_word]. apply Ascii.eqb_neq in Hc. rewrite Hc. by rewrite IH.
Qed.

(** A quoted text is one word of the shell, and that word is the text. *)
Lemma sh_word_quote s rest : word_ends rest = true -> sh_word Bare (quote s +:+ rest) = Some (s, rest).
Proof.
  intros Hr. unfold quote. destruct (String.eqb_spec s "") as [->|Hs].
  - change (String apostrophe (String apostrophe "") +:+ rest) with (String apostrophe (String apostrophe rest)).
    transitivity (sh_word Bare rest); [reflexivity|]. by apply sh_word_end.
  - destruct (str_forall is_shell_safe s) eqn:Hsafe; [by apply sh_word_safe|].
    change (String apostrophe (break_quotes s +:+ String apostrophe "") +:+ rest)
      with (String apostrophe ((break_quotes s +:+ String apostrophe "") +:+ rest)). rewrite str_app_assoc.
    transitivity (sh_word Single (break_quotes s +:+ String apostrophe "" +:+ rest)); [reflexivity|]. by apply sh_word_broken.
Qed.

(** ** [base64.b64encode(s.encode()).decode()] *)

(** [s.encode()] *)
Definition utf8 (s : string) : list Z :=
  flat_map (fun c => let n := Z.of_nat (nat_of_ascii c) in
                     if n <? 128 then [n] else [192 + n / 64; 128 + n mod 64]) (String.list_ascii_of_string s).

Definition b64_char (v : Z) : ascii :=
  ascii_of_nat (Z.to_nat (if v <? 26 then 65 + v else if v <? 52 then 71 + v else if v <? 62 then v - 4
                          else if v =? 62 then 43 else 47)).

Fixpoint b64encode (bs : list Z) : string :=
  match bs with
  | [] => ""
  | [a] => String (b64_char (a / 4)) (String (b64_char (a mod 4 * 16)) "==")
  | [a; b] => String (b64_char (a / 4)) (String (b64_char (a mod 4 * 16 + b / 16))
                (String (b64_char (b mod 16 * 4)) "="))
  | a :: b :: c :: bs' =>
      String (b64_char (a / 4)) (String (b64_char (a mod 4 * 16 + b / 16))
        (String (b64_char (b mod 16 * 4 + c / 64)) (String (b64_char (c mod 64)) (b64encode bs'))))
  end.

(** RFC 4648: the value of a character, and of a text. *)
Definition b64_val (c : ascii) : option Z :=
  let n := Z.of_nat (nat_of_ascii c) in
  if (65 <=? n) && (n <=? 90) then Some (n - 65) else if (97 <=? n) && (n <=? 122) then Some (n - 71)
  else if (48 <=? n) && (n <=? 57) then Some (n + 4) else if n =? 43 then Some 62 else if n =? 47 then Some 63 else None.

Fixpoint b64decode (s : string) : option (list Z) :=
  match s with
  | EmptyString => Some []
  | String a (String b (String c (String d s'))) =>
      i ← b64_val a; j ← b64_val b;
      if Ascii.eqb c "=" then
        if Ascii.eqb d "=" && String.eqb s' "" then Some [i * 4 + j / 16] else None
      else
        k ← b64_val c;
        if Ascii.eqb d "=" then
          if String.eqb s' "" then Some [i * 4 + j / 16; j mod 16 * 16 + k / 4] else None
        else
          l ← b64_val d; rest ← b64decode s';
          Some (i * 4 + j / 16 :: j mod 16 * 16 + k / 4 :: k mod 4 * 64 + l :: rest)
  | _ => None
  end.

Lemma b64_digit v : 0 <= v < 64 ->
  b64_val (b64_char v) = Some v /\ Ascii.eqb (b64_char v) "=" = false /\ is_shell_safe (b64_char v) = true.
Proof.
  intros Hv. assert (H : forallb (fun n => let v := Z.of_nat n in bool_decide (b64_val (b64_char v) = Some v)
    && negb (Ascii.eqb (b64_char v) "=") && is_shell_safe (b64_char v)) (seq 0 64) = true) by (by vm_compute).
  rewrite forallb_forall in H. specialize (H (Z.to_nat v) ltac:(apply in_seq; lia)). cbn zeta in H. rewrite Z2Nat.id in H by lia.
  apply andb_true_iff in H as [[H1 H2]%andb_true_iff H3]. by apply bool_decide_eq_true in H1; apply negb_true_iff in H2.
Qed.

Definition byte (b : Z) : Prop := 0 <= b < 256.

Lemma three_ind (P : list Z -> Prop) : P [] -> (forall a, P [a]) -> (forall a b, P [a; b]) ->
  (forall a b c l, P l -> P (a :: b :: c :: l)) -> forall l, P l.
Proof. intros H0 H1 H2 H3. fix self 1. intros [|a [|b [|c l]]]; [done|done|done|]. apply H3, self. Qed.


(** What one character of an encoding is read as. *)
Ltac b64_step := match goal with
  | |- context [b64_val (b64_char ?v)] =>
      let H := fresh in let E := fresh in destruct (b64_digit v) as (H & E & _);
        [Z.to_euclidean_division_equations; lia|]; rewrite H, ?E; clear H E; cbn [mbind option_bind]
  | |- context [Ascii.eqb (b64_char ?v) "="] =>
      let E := fresh in destruct (b64_digit v) as (_ & E & _);
        [Z.to_euclidean_division_equations; lia|]; rewrite E; clear E
  end.

Lemma b64_roundtrip bs : Forall byte bs -> b64decode (b64encode bs) = Some bs.
Proof.
  unfold byte. induction bs as [|a|a b|a b c l IH] using three_ind; intros Hb; [done| | |];
    rewrite ?Forall_cons in Hb; destruct_and?; cbn [b64encode b64decode].
  - repeat b64_step. change (Ascii.eqb "=" "=" && String.eqb "" "") with true.
    change (Ascii.eqb "=" "=") with true. cbn match. do 2 f_equal. Z.to_euclidean_division_equations; lia.
  - repeat b64_step. change (Ascii.eqb "=" "=") with true. change (String.eqb "" "") with true. cbn match.
    do 2 f_equal; [|f_equal]; Z.to_euclidean_division_equations; lia.
  - repeat b64_step. rewrite IH by done. cbn [mbind option_bind].
    do 2 f_equal; [|f_equal; [|f_equal]]; Z.to_euclidean_division_equations; lia.
Qed.

Lemma utf8_bytes s : Forall byte (utf8 s).
Proof.
  unfold utf8, byte. induction s as [|c s IH]; cbn [String.list_ascii_of_string flat_map]; [done|].
  apply Forall_app. split; [|exact IH]. pose proof (nat_ascii_bounded c). cbv zeta.
  destruct (Z.ltb_spec (Z.of_nat (nat_of_ascii c)) 128); rewrite ?Forall_cons; split_and?; try done; Z.to_euclidean_division_equations; lia.
Qed.

(** An encoding is plain text for the shell. *)
Lemma b64_safe bs : Forall byte bs -> str_forall is_shell_safe (b64encode bs) = true.
Proof.
  unfold byte, str_forall.
  assert (Hd : forall v, 0 <= v < 64 -> is_shell_safe (b64_char v) = true) by (intros v Hv; apply (b64_digit v Hv)).
  induction bs as [|a|a b|a b c l IH] using three_ind; intros Hb; [done| | |];
    rewrite ?Forall_cons in Hb; destruct_and?; cbn [b64encode String.list_ascii_of_string forallb];
    rewrite ?Hd by (Z.to_euclidean_division_equations; lia); [done..|]. by rewrite IH.
Qed.

Example quote_ex : (quote "abc", quote "a b", quote "it's", b64encode (utf8 "it's"), b64encode (utf8 "ab"))
  = ("abc", "'a b'", "'it'" +:+ String quote_char (String apostrophe (String quote_char "'s'")), "aXQncw==", "YWI=").
Proof. by vm_compute. Qed.
