(* ===== verification/Checkpoint.v ===== *)
(** * checkpoint.py: where a job's progress goes when its machine is taken away

    [LocalStore] is the tree under the root: job, then entry, then the files of
    the entry by relative path (a plain file in place of an entry holds none).
    [put] is the sequence of writes of [LocalCheckpointStore.put]; [Disk] keeps
    every tree in between, newest first, because a machine may be taken away
    between any two of them.  Removing a tree is one write.  [Path] texts are in
    normal form; a file's size is the length of its text. *)

From Stdlib Require Import Ascii.
From S2P Require Import Prelude PyFloat PyFormat PySort PyDict Errors Money Clock PyJson PyText.
Local Open Scope Z_scope.
Local Open Scope py_scope.

Definition MANIFEST : string := "MANIFEST.json".

Record CheckpointRef := mkCheckpointRef {
  ck_job_id : string;
  ck_step : Z;
  ck_key : string;
  ck_written_at : Z;
  ck_files : list json;
  ck_bytes : Z
}.

(** [CheckpointRef.describe()] *)
Definition ck_describe (r : CheckpointRef) : string :=
  "step " +:+ str_of_Z (ck_step r) +:+ " ("
  +:+ f_fixed 1 (f_of_ratio (ck_bytes r) 1048576) +:+ "MB, "
  +:+ str_of_Z (Z.of_nat (length (ck_files r))) +:+ " files)".

(** ** The manifest *)

(** [_manifest_body(ref_files, step, at, total)] *)
Definition manifest_body (ref_files : list string) (step at_ total : Z) : string :=
  dumps indented (JDict
    [("step", JInt step); ("written_at", JStr (to_iso at_));
     ("files", JList (map JStr (py_sort str_lt ref_files))); ("bytes", JInt total)]).

(** [tuple(v)] *)
Definition tuple_of (v : json) : outcome exn (list json) :=
  match v with
  | JList xs => Ok xs
  | JStr s => Ok (map (fun c => JStr (String c "")) (String.list_ascii_of_string s))
  | JDict kvs => Ok (map (fun kv => JStr (fst kv)) kvs)
  | _ => Raise (TypeError "object is not iterable")
  end.

(** [v[key]] *)
Definition subscript (v : json) (key : string) : outcome exn json :=
  match v with
  | JDict kvs => of_option (dict_get key kvs) (KeyError key)
  | _ => Raise (TypeError "indices must be integers or slices, not str")
  end.

(** [v.get(key, d)], where [v[...]] has succeeded *)
Definition get_or (v : json) (key : string) (d : json) : json :=
  match v with JDict kvs => default d (dict_get key kvs) | _ => d end.

(** [except (ValueError, KeyError, TypeError)] *)
Definition bad_manifest (e : exn) : bool :=
  match e with ValueError _ | KeyError _ | TypeError _ => true | _ => false end.

(** [_read_manifest(job_id, key, raw)] *)
Definition read_manifest (job_id key raw : string) : outcome exn (option CheckpointRef) :=
  let parsed :=
    data <-? of_option (loads raw) (ValueError "JSONDecodeError");;
    step <-? subscript data "step";;
    step <-? int_of step;;
    written_at <-? subscript data "written_at";;
    written_at <-? match written_at with
                   | JStr s => of_option (from_iso s) (ValueError ("Invalid isoformat string: '" +:+ s +:+ "'"))
                   | _ => Raise (TypeError "fromisoformat: argument must be str")
                   end;;
    files <-? tuple_of (get_or data "files" (JList []));;
    bytes <-? int_of (get_or data "bytes" (JInt 0));;
    Ok (mkCheckpointRef job_id step key written_at files bytes) in
  match parsed with
  | Ok r => Ok (Some r)
  | Raise e => if bad_manifest e then Ok None else Raise e
  end.

(** ** The local store *)

Module LocalCheckpointStore.

Abbreviation Files := (gmap string string).
Abbreviation Entries := (gmap string Files).
Abbreviation LocalStore := (gmap string Entries).

Definition no_files : Files := ∅.

Record Disk := mkDisk { d_root : LocalStore; d_seen : list LocalStore }.

Definition write (f : LocalStore -> LocalStore) : M Disk exn unit :=
  modify (fun d => mkDisk (f (d_root d)) (f (d_root d) :: d_seen d)).

(** A change to one entry of one job; an emptied job keeps its directory. *)
Definition at_entry (job_id name : string) (f : option Files -> option Files) (s : LocalStore) : LocalStore :=
  let entries := default ∅ (s !! job_id) in
  <[job_id := partial_alter f name entries]> s.

(** The order of [pathlib]: part by part. *)
Fixpoint parts_lt (a b : list string) : bool :=
  match a, b with
  | x :: a', y :: b' => str_lt x y || (String.eqb x y && parts_lt a' b')
  | [], _ :: _ => true
  | _, [] => false
  end.

Definition path_lt (a b : string) : bool := parts_lt (split_char "/" a) (split_char "/" b).

(** [sorted(source.rglob("*"))], the files only *)
Definition rglob (source : Files) : list (string * string) :=
  py_sort (on fst path_lt) (map_to_list source).

Definition total_size (fs : list (string * string)) : Z :=
  zsum (fun f => Z.of_nat (String.length (snd f))) fs.

Section Root.
Context (root : string).

(** [_dir(job_id, step)]: its name, and its text as a [key] *)
Definition step_name (step : Z) : string :=
  "step-" +:+ (if step <? 0 then "-" +:+ pad0 11 (- step) else pad0 12 step).
Definition key_of (job_id name : string) : string := root +:+ "/" +:+ job_id +:+ "/" +:+ name.

(** [shutil.copy2(path, destination)], into an entry *)
Definition copy_in (job_id name : string) (f : string * string) : M Disk exn unit :=
  write (at_entry job_id name (fun fs => Some (<[fst f := snd f]> (default no_files fs)))).

(** [put(job_id, step, directory, at)]; [directory] is [None] when it is not one. *)
Definition put (job_id : string) (step : Z) (directory : option Files) (at_ : Z) : M Disk exn CheckpointRef :=
  match directory with
  | None => raise (CheckpointError "nothing to checkpoint: not a directory")
  | Some source =>
      let name := step_name step in
      exists_ <- gets (fun d => bool_decide (is_Some (default ∅ (d_root d !! job_id) !! name)));;
      (if exists_ then write (at_entry job_id name (fun _ => None)) else ret tt);;;
      write (at_entry job_id name (fun _ => Some no_files));;;
      let files := rglob source in
      foldM (fun _ f => copy_in job_id name f) tt files;;;
      let names := map fst files in
      copy_in job_id name (MANIFEST, manifest_body names step at_ (total_size files));;;
      ret (mkCheckpointRef job_id step (key_of job_id name) at_
             (map JStr (py_sort str_lt names)) (total_size files))
  end.

(** The loop of [latest] over the entries, in the order of their names. *)
Fixpoint newest_in (job_id : string) (entries : Entries) (best : option CheckpointRef)
    (names : list string) : outcome exn (option CheckpointRef) :=
  match names with
  | [] => Ok best
  | name :: names' =>
      match default ∅ (entries !! name) !! MANIFEST with
      | None => newest_in job_id entries best names'
      | Some raw =>
          ref <-? read_manifest job_id (key_of job_id name) raw;;
          newest_in job_id entries
            (match ref, best with
             | Some r, None => Some r
             | Some r, Some b => if ck_step b <? ck_step r then Some r else Some b
             | None, _ => best
             end) names'
      end
  end.

Definition sorted_names (entries : Entries) : list string := py_sort str_lt (map fst (map_to_list entries)).

(** [latest(job_id)] *)
Definition latest (s : LocalStore) (job_id : string) : outcome exn (option CheckpointRef) :=
  match s !! job_id with
  | None => Ok None
  | Some entries => newest_in job_id entries None (sorted_names entries)
  end.

(** [Path(key)], back to the job and the entry *)
Definition locate (s : LocalStore) (key : string) : option Files :=
  rest ← strip_prefix (root +:+ "/") key;
  match split_char "/" rest with
  | [job_id; name] => entries ← s !! job_id; entries !! name
  | _ => None
  end.

(** [fetch(ref, directory)], the state being the files of [directory] *)
Definition fetch (s : LocalStore) (ref : CheckpointRef) : M Files exn unit :=
  match locate s (ck_key ref) with
  | Some source =>
      match source !! MANIFEST with
      | None => raise (CheckpointError ("checkpoint " +:+ ck_key ref +:+ " has no manifest; refusing to restore it"))
      | Some _ =>
          foldM (fun _ name =>
            match name with
            | JStr n =>
                match source !! n with
                | Some body => modify (<[n := body]>)
                | None => raise (CheckpointError ("checkpoint " +:+ ck_key ref +:+ " is missing " +:+ n))
                end
            | _ => raise (TypeError "unsupported operand type(s) for /")
            end) tt (ck_files ref)
      end
  | None => raise (CheckpointError ("checkpoint " +:+ ck_key ref +:+ " has no manifest; refusing to restore it"))
  end.

(** [prune(job_id, keep)] *)
Definition complete_names (entries : Entries) : list string :=
  List.filter (fun name => bool_decide (is_Some (default ∅ (entries !! name) !! MANIFEST)))
    (sorted_names entries).

Definition prune (job_id : string) (keep : Z) : M Disk exn Z :=
  found <- gets (fun d => d_root d !! job_id);;
  match found with
  | None => ret 0
  | Some entries =>
      let complete := complete_names entries in
      let doomed := if 0 <? keep then take (length complete - Z.to_nat keep) complete else complete in
      foldM (fun removed name => write (at_entry job_id name (fun _ => None));;; ret (removed + 1)) 0 doomed
  end.
End Root.
End LocalCheckpointStore.
