(* ===== verification/CheckpointProps.v ===== *)
(** * What the local checkpoint store promises

    [tidy] is what [put] leaves behind: every entry with a manifest is readable
    and named after its step.  On a tidy store [latest] is the complete
    checkpoint with the highest step.  The theorems: a checkpoint being written
    is invisible until its last write, and then comes back whole; pruning never
    touches the newest. *)

From Stdlib Require Import Ascii Sorted.
From S2P Require Import Prelude PyFloat PyFormat PySort PyDict Errors Money Clock PyJson PyText Checkpoint.
Local Open Scope Z_scope.
Local Open Scope py_scope.

Import LocalCheckpointStore.

(** The manifest that [put] writes reads back as the reference it returns. *)
Lemma read_written job key names step at_ total : representable at_ ->
  read_manifest job key (manifest_body names step at_ total)
  = Ok (Some (mkCheckpointRef job step key at_ (map JStr (py_sort str_lt names)) total)).
Proof.
  intros Hat. unfold read_manifest, manifest_body. rewrite loads_dumps.
  - pose proof (from_to_iso at_ Hat) as E. set (text := to_iso at_) in *. clearbody text.
    set (data := JDict _). cbn [of_option obind].
    assert (subscript data "step" = Ok (JInt step)) as -> by done. cbn [obind int_of].
    assert (subscript data "written_at" = Ok (JStr text)) as -> by done. cbn [obind]. rewrite E. cbn [of_option obind].
    assert (get_or data "files" (JList []) = JList (map JStr (py_sort str_lt names))) as -> by done.
    assert (get_or data "bytes" (JInt 0) = JInt total) as -> by done.
    done.
  - assert (Hl : forallb plain (map JStr (py_sort str_lt names)) = true)
      by (rewrite forallb_forall; by intros x (n & <- & _)%in_map_iff).
    cbn -[bool_decide]. by rewrite Hl.
Qed.

Lemma step_name_order a b : 0 <= a < 10 ^ 12 -> 0 <= b < 10 ^ 12 -> str_lt (step_name a) (step_name b) = (a <? b).
Proof.
  intros Ha Hb. unfold step_name. rewrite !(proj2 (Z.ltb_ge _ 0)) by lia.
  unfold str_lt, String.ltb. assert (E : forall s t, String.compare ("step-" +:+ s) ("step-" +:+ t) = String.compare s t).
  { intros s t. cbn. reflexivity. }
  rewrite E. rewrite <- (str_app_nil (pad0 12 a)), <- (str_app_nil (pad0 12 b)).
  rewrite compare_padded by (cbn; lia). unfold Z.ltb. by destruct (a ?= b).
Qed.

Lemma step_name_inj a b : 0 <= a < 10 ^ 12 -> 0 <= b < 10 ^ 12 -> step_name a = step_name b -> a = b.
Proof.
  intros Ha Hb E. pose proof (step_name_order a b Ha Hb) as H1. pose proof (step_name_order b a Hb Ha) as H2.
  rewrite E in H1, H2. rewrite H1 in H2. lia.
Qed.

Section Store.
Context (root : string).

Definition entry_of (s : LocalStore) (job name : string) : option Files := default ∅ (s !! job) !! name.

Definition manifest_at (s : LocalStore) (job name : string) : option string :=
  entry_of s job name ≫= (.!! MANIFEST).

Definition complete (s : LocalStore) (job : string) (r : CheckpointRef) : Prop :=
  exists name raw, manifest_at s job name = Some raw /\
    read_manifest job (key_of root job name) raw = Ok (Some r).

Definition tidy (s : LocalStore) : Prop := forall job name raw, manifest_at s job name = Some raw ->
  exists r, read_manifest job (key_of root job name) raw = Ok (Some r) /\
    name = step_name (ck_step r) /\ 0 <= ck_step r < 10 ^ 12.

(** The complete checkpoint with the highest step, if there is one. *)
Definition newest (s : LocalStore) (job : string) (o : option CheckpointRef) : Prop :=
  match o with
  | Some r => complete s job r /\ forall r', complete s job r' -> ck_step r' <= ck_step r
  | None => forall r, ~ complete s job r
  end.

Lemma tidy_empty : tidy ∅.
Proof. intros job name raw. unfold manifest_at, entry_of. by rewrite lookup_empty. Qed.

Lemma complete_named s job r : tidy s -> complete s job r ->
  0 <= ck_step r < 10 ^ 12 /\ exists raw, manifest_at s job (step_name (ck_step r)) = Some raw /\
    read_manifest job (key_of root job (step_name (ck_step r))) raw = Ok (Some r).
Proof.
  intros Ht (name & raw & Hm & Hr). destruct (Ht _ _ _ Hm) as (r' & Hr' & -> & Hs).
  rewrite Hr in Hr'. injection Hr' as <-. split; [done|]. by exists raw.
Qed.

Lemma complete_step_inj s job r r' : tidy s -> complete s job r -> complete s job r' ->
  ck_step r = ck_step r' -> r = r'.
Proof.
  intros Ht (_ & raw & H1 & H2)%complete_named (_ & raw' & H3 & H4)%complete_named E; [|done..].
  rewrite <- E, H1 in H3. injection H3 as <-. rewrite <- E, H2 in H4. congruence.
Qed.

Lemma newest_unique s job o o' : tidy s -> newest s job o -> newest s job o' -> o = o'.
Proof.
  intros Ht. destruct o as [r|], o' as [r'|]; cbn;
    [|by intros [H _] Hn; destruct (Hn _ H)|by intros Hn [H _]; destruct (Hn _ H)|done].
  intros [H1 H2] [H3 H4]. f_equal. apply (complete_step_inj s job); [done..|].
  specialize (H2 _ H3). specialize (H4 _ H1). lia.
Qed.

(** The loop of [latest]: what it returns is there and is the highest. *)
Lemma newest_in_spec s job entries names best : tidy s -> s !! job = Some entries ->
  (forall b, best = Some b -> complete s job b) ->
  exists o, newest_in root job entries best names = Ok o /\
    (forall r, o = Some r -> complete s job r) /\
    (forall b, best = Some b -> exists r, o = Some r /\ ck_step b <= ck_step r) /\
    (forall name raw r, name ∈ names -> manifest_at s job name = Some raw ->
       read_manifest job (key_of root job name) raw = Ok (Some r) ->
       exists r', o = Some r' /\ ck_step r <= ck_step r').
Proof.
  intros Ht Hs. revert best. induction names as [|name names IH]; intros best Hb; cbn.
  { exists best. split_and!; [done|done|by intros b ->; exists b|]. intros ??? H. by apply elem_of_nil in H. }
  assert (Em : default ∅ (entries !! name) !! MANIFEST = manifest_at s job name).
  { unfold manifest_at, entry_of. rewrite Hs. cbn. by destruct (entries !! name). }
  rewrite Em. destruct (manifest_at s job name) as [raw|] eqn:Hm.
  - destruct (Ht _ _ _ Hm) as (r & Hr & _). rewrite Hr. cbn [obind].
    assert (Hcr : complete s job r) by (by exists name, raw).
    set (best' := match best with Some b => _ | None => _ end).
    assert (Hb' : exists b', best' = Some b' /\ complete s job b' /\ ck_step r <= ck_step b' /\
      forall b, best = Some b -> ck_step b <= ck_step b').
    { subst best'. destruct best as [b|]; [|by exists r; split_and!].
      specialize (Hb b eq_refl). destruct (Z.ltb_spec (ck_step b) (ck_step r));
        [exists r|exists b]; split_and!; try done; try lia; intros ? [= <-]; lia. }
    destruct Hb' as (b' & E & Hc' & Hle & Hbest). rewrite E.
    destruct (IH (Some b') ltac:(by intros ? [= <-])) as (o & Ho & H1 & H2 & H3). exists o.
    destruct (H2 b' eq_refl) as (r' & -> & Hr'). split_and!; [done|done| |].
    + intros b Hbb. exists r'. split; [done|]. specialize (Hbest b Hbb). lia.
    + intros name' raw' r'' [->|Hin]%elem_of_cons Hm' Hr''; [|by eapply H3].
      rewrite Hm in Hm'. injection Hm' as <-. rewrite Hr in Hr''. injection Hr'' as <-. exists r'. split; [done|lia].
  - destruct (IH best Hb) as (o & Ho & H1 & H2 & H3). exists o. split_and!; [done..|].
    intros name' raw' r'' [->|Hin]%elem_of_cons Hm' Hr''; [congruence|by eapply H3].
Qed.

Lemma latest_newest s job : tidy s -> exists o, latest root s job = Ok o /\ newest s job o.
Proof.
  intros Ht. unfold latest. destruct (s !! job) as [entries|] eqn:Hs.
  - destruct (newest_in_spec s job entries (sorted_names entries) None Ht Hs ltac:(done)) as (o & -> & H1 & _ & H3).
    exists o. split; [done|].
    assert (Hall : forall r, complete s job r -> exists r', o = Some r' /\ ck_step r <= ck_step r').
    { intros r (name & raw & Hm & Hr). eapply H3; [|done..]. unfold sorted_names. apply py_sort_elem.
      unfold manifest_at, entry_of in Hm. rewrite Hs in Hm. cbn in Hm.
      destruct (entries !! name) as [fs|] eqn:He; [|done]. apply list_elem_of_fmap. exists (name, fs).
      split; [done|]. by apply elem_of_map_to_list. }
    destruct o as [r|]; cbn.
    + split; [by apply H1|]. intros r' (r'' & [= <-] & ?)%Hall. done.
    + intros r (r'' & [=] & _)%Hall.
  - exists None. split; [done|]. intros r (name & raw & Hm & _). unfold manifest_at, entry_of in Hm.
    by rewrite Hs in Hm.
Qed.

Lemma latest_is s job o : tidy s -> newest s job o -> latest root s job = Ok o.
Proof.
  intros Ht Ho. destruct (latest_newest s job Ht) as (o' & -> & Ho'). f_equal. by eapply newest_unique.
Qed.
(** ** Writes *)

Lemma entry_of_at s job name f j n :
  entry_of (at_entry job name f s) j n = if decide (j = job /\ n = name) then f (entry_of s job name) else entry_of s j n.
Proof.
  unfold entry_of, at_entry. destruct (decide (j = job)) as [->|Hj].
  - rewrite lookup_insert_eq. cbn. destruct (decide (n = name)) as [->|Hn].
    + rewrite decide_True by done. by rewrite lookup_partial_alter_eq.
    + rewrite decide_False by naive_solver. by rewrite lookup_partial_alter_ne.
  - rewrite decide_False by naive_solver. by rewrite lookup_insert_ne.
Qed.

(** The two trees show the same manifests. *)
Definition same_manifests (s x : LocalStore) : Prop := forall j n, manifest_at x j n = manifest_at s j n.

Lemma same_tidy s x : same_manifests s x -> tidy s -> tidy x.
Proof. intros Hx Ht j n raw Hm. rewrite Hx in Hm. by apply Ht. Qed.

Lemma newest_ext s x job o : (forall r, complete x job r <-> complete s job r) -> newest s job o -> newest x job o.
Proof.
  intros Hx. destruct o as [r|]; cbn.
  - intros [H1 H2]. split; [by apply Hx|]. intros r' Hr'. by apply H2, Hx.
  - intros H r Hr. by apply (H r), Hx.
Qed.

Lemma same_complete s x job : (forall n, manifest_at x job n = manifest_at s job n) ->
  forall r, complete x job r <-> complete s job r.
Proof. intros Hx r. unfold complete. by setoid_rewrite Hx. Qed.

Lemma latest_ext s x job : tidy s -> tidy x -> (forall n, manifest_at x job n = manifest_at s job n) ->
  latest root x job = latest root s job.
Proof.
  intros Hs Hx E. destruct (latest_newest s job Hs) as (o & -> & Ho). apply latest_is; [done|].
  eapply newest_ext; [|exact Ho]. by apply same_complete.
Qed.

Lemma quiet_write s x job name f : same_manifests s x -> manifest_at s job name = None ->
  (forall fs, f (entry_of x job name) = Some fs -> fs !! MANIFEST = None) ->
  same_manifests s (at_entry job name f x).
Proof.
  intros Hx Hn Hf j n. unfold manifest_at at 1. rewrite entry_of_at. destruct (decide _) as [[-> ->]|]; [|apply Hx].
  rewrite Hn. destruct (f _) as [fs|]; [by apply Hf|done].
Qed.

(** Since the disk was [d0], only trees satisfying [P] were seen, the last is [d]'s. *)
Definition through (P : LocalStore -> Prop) (d0 d : Disk) : Prop :=
  P (d_root d) /\ exists part, d_seen d = part ++ d_seen d0 /\ Forall P part.

Lemma through_write P d0 d f : through P d0 d -> P (f (d_root d)) ->
  through P d0 (mkDisk (f (d_root d)) (f (d_root d) :: d_seen d)).
Proof. intros [H1 (part & E & H2)] H. split; [done|]. exists (f (d_root d) :: part). cbn. rewrite E. by split; [|constructor]. Qed.

Definition copied (fl : list (string * string)) (fs : Files) : Files :=
  foldl (fun m f => <[fst f := snd f]> m) fs fl.

Lemma copied_rglob source : copied (rglob source) no_files = source.
Proof.
  unfold copied. rewrite <- (list_to_map_to_list source) at 2.
  assert (Hp : Permutation (reverse (rglob source)) (map_to_list source)) 
    by (rewrite reverse_Permutation; apply py_sort_perm).
  rewrite <- (list_to_map_proper (reverse (rglob source)) (map_to_list source)); [|rewrite Hp; apply NoDup_fst_map_to_list|done].
  generalize (rglob source). intros l. induction l as [|[k v] l IH] using rev_ind; [done|].
  rewrite foldl_app, reverse_app. cbn. by rewrite IH.
Qed.

(** Writes to one entry that leave its manifest out keep [P]. *)
Definition kept_by_writes (P : LocalStore -> Prop) (job name : string) : Prop := forall f x, P x ->
  (forall fs, f (entry_of x job name) = Some fs -> fs !! MANIFEST = None) -> P (at_entry job name f x).

Lemma copy_all P d0 job name fl fs d :
  kept_by_writes P job name -> Forall (fun f => fst f <> MANIFEST) fl -> fs !! MANIFEST = None ->
  through P d0 d -> entry_of (d_root d) job name = Some fs ->
  exists d', foldM (fun _ f => copy_in job name f) tt fl d = (d', Ok tt) /\
    through P d0 d' /\ entry_of (d_root d') job name = Some (copied fl fs) /\
    forall j n, (j, n) <> (job, name) -> entry_of (d_root d') j n = entry_of (d_root d) j n.
Proof.
  intros HP Hfl. revert fs d. induction Hfl as [|[k v] fl Hk Hfl IH]; intros fs d Hfs Ht He.
  { exists d. by split_and!. }
  set (f := fun o : option Files => Some (<[k := v]> (default no_files o))).
  set (d1 := mkDisk (at_entry job name f (d_root d)) (at_entry job name f (d_root d) :: d_seen d)).
  assert (He1 : entry_of (d_root d1) job name = Some (<[k := v]> fs)).
  { subst d1 f. cbn [d_root]. rewrite entry_of_at, decide_True by done. by rewrite He. }
  destruct (IH (<[k := v]> fs) d1) as (d' & Hrun & Ht' & He' & Hoth); [by rewrite lookup_insert_ne| |done|].
  - apply (through_write P d0 d (at_entry job name f)); [done|]. apply HP; [apply Ht|].
    intros fs'. rewrite He. intros [= <-]. cbn. by rewrite lookup_insert_ne.
  - exists d'. split_and!; [exact Hrun|done|exact He'|]. intros j n Hjn. rewrite Hoth by done. subst d1. cbn [d_root].
    rewrite entry_of_at, decide_False by naive_solver. done.
Qed.

Lemma quiet_writes s job name : manifest_at s job name = None -> kept_by_writes (same_manifests s) job name.
Proof. intros Hn f x Hx Hf. by apply quiet_write. Qed.

(** ** put *)

(** What [put] returns, and the files it leaves under the step. *)
Definition written_ref (job : string) (step : Z) (source : Files) (at_ : Z) : CheckpointRef :=
  mkCheckpointRef job step (key_of root job (step_name step)) at_
    (map JStr (py_sort str_lt (map fst (rglob source)))) (total_size (rglob source)).

Definition written_files (step : Z) (source : Files) (at_ : Z) : Files :=
  <[MANIFEST := manifest_body (map fst (rglob source)) step at_ (total_size (rglob source))]> source.

Lemma put_run P s seen job step source at_ :
  P s -> kept_by_writes P job (step_name step) -> source !! MANIFEST = None ->
  exists d1 s', put root job step (Some source) at_ (mkDisk s seen)
      = (mkDisk s' (s' :: d_seen d1), Ok (written_ref job step source at_)) /\
    through P (mkDisk s seen) d1 /\
    entry_of s' job (step_name step) = Some (written_files step source at_) /\
    forall j n, (j, n) <> (job, step_name step) -> entry_of s' j n = entry_of s j n.
Proof.
  intros Hs HP Hm. set (name := step_name step) in *. set (d0 := mkDisk s seen).
  (* the old entry removed, an empty one made *)
  set (da := if bool_decide (is_Some (default ∅ (s !! job) !! name))
             then mkDisk (at_entry job name (fun _ => None) s) (at_entry job name (fun _ => None) s :: seen) else d0).
  set (db := mkDisk (at_entry job name (fun _ => Some no_files) (d_root da)) (at_entry job name (fun _ => Some no_files) (d_root da) :: d_seen da)).
  assert (H0 : through P d0 d0) by (split; [done|by exists []]).
  assert (Ha : through P d0 da /\ forall j n, (j, n) <> (job, name) -> entry_of (d_root da) j n = entry_of s j n).
  { subst da. destruct (bool_decide _); [|by split]. split.
    - apply (through_write P d0 d0 (at_entry job name (fun _ => None))); [done|]. by apply HP.
    - intros j n Hjn. cbn [d_root]. rewrite entry_of_at, decide_False by naive_solver. done. }
  destruct Ha as [Ha Hoa].
  assert (Hb : through P d0 db).
  { apply (through_write P d0 da (at_entry job name (fun _ => Some no_files))); [done|].
    apply HP; [apply Ha|]. by intros fs [= <-]. }
  assert (Heb : entry_of (d_root db) job name = Some no_files).
  { subst db. cbn [d_root]. by rewrite entry_of_at, decide_True by done. }
  assert (Hfl : Forall (fun f => fst f <> MANIFEST) (rglob source)).
  { apply Forall_forall. intros [k v] Hk E. cbn in E. subst k. unfold rglob in Hk.
    apply py_sort_elem, elem_of_map_to_list in Hk. congruence. }
  destruct (copy_all P d0 job name (rglob source) no_files db HP Hfl ltac:(done) Hb Heb) as (d1 & Hrun & H1 & He1 & Ho1).
  rewrite copied_rglob in He1.
  set (last := fun o : option Files => Some (<[MANIFEST := manifest_body (map fst (rglob source)) step at_ (total_size (rglob source))]> (default no_files o))).
  exists d1, (at_entry job name last (d_root d1)). split_and!.
  - unfold put. fold name. change (bind ?m ?k d0) with (k (bool_decide (is_Some (default ∅ (s !! job) !! name))) d0).
    assert (Hstart : forall k : unit -> M Disk exn CheckpointRef,
      ((if bool_decide (is_Some (default ∅ (s !! job) !! name)) then write (at_entry job name (fun _ => None)) else ret tt);;; k tt) d0
      = k tt da) by (intros k; subst da; by destruct (bool_decide _)).
    cbv beta. rewrite (Hstart (fun _ => _)). change ((write (at_entry job name (fun _ => Some no_files));;; ?k) da) with (k db).
    unfold bind at 1. by rewrite Hrun.
  - exact H1.
  - rewrite entry_of_at, decide_True by done. subst last. cbv beta. by rewrite He1.
  - intros j n Hjn. rewrite entry_of_at, decide_False by naive_solver. rewrite Ho1 by done. subst db. cbn [d_root].
    rewrite entry_of_at, decide_False by naive_solver. by apply Hoa.
Qed.

(** The tree after a put shows the manifests of before and the new one. *)
Lemma put_manifests s s' job step source at_ : representable at_ -> 0 <= step < 10 ^ 12 ->
  tidy s -> manifest_at s job (step_name step) = None ->
  entry_of s' job (step_name step) = Some (written_files step source at_) ->
  (forall j n, (j, n) <> (job, step_name step) -> entry_of s' j n = entry_of s j n) ->
  tidy s' /\ forall j r, complete s' j r <-> complete s j r \/ j = job /\ r = written_ref job step source at_.
Proof.
  intros Hat Hstep Ht Hnone Hnew Hold.
  pose proof (read_written job (key_of root job (step_name step)) (map fst (rglob source)) step at_
    (total_size (rglob source)) Hat) as Hread. set (body := manifest_body _ _ _ _) in Hread.
  assert (Hman : manifest_at s' job (step_name step) = Some body).
  { unfold manifest_at. rewrite Hnew. cbn. unfold written_files. by rewrite lookup_insert_eq. }
  assert (Hrest : forall j n, (j, n) <> (job, step_name step) -> manifest_at s' j n = manifest_at s j n).
  { intros j n Hjn. unfold manifest_at. by rewrite Hold. }
  split.
  - intros j n raw Hm. destruct (decide ((j, n) = (job, step_name step))) as [[= -> ->]|Hjn].
    + rewrite Hman in Hm. injection Hm as <-. by eexists.
    + rewrite Hrest in Hm by done. by apply Ht.
  - intros j r. split.
    + intros (n & raw & Hm & Hr). destruct (decide ((j, n) = (job, step_name step))) as [[= -> ->]|Hjn].
      * right. rewrite Hman in Hm. injection Hm as <-. split; [done|]. rewrite Hread in Hr. by injection Hr as <-.
      * left. rewrite Hrest in Hm by done. by exists n, raw.
    + intros [(n & raw & Hm & Hr)|[-> ->]].
      * exists n, raw. split; [|done]. rewrite Hrest; [done|]. intros [= -> ->]. congruence.
      * by exists (step_name step), body.
Qed.

(** A checkpoint becomes visible at the last write of [put] and not before:
    in every tree a machine could leave behind on the way, [latest] of every job
    is what it was.  After the last write the new checkpoint is there whole, and
    is the latest of its job unless an older put had a higher step. *)
Theorem put_visible_last s seen job step source at_ :
  tidy s -> manifest_at s job (step_name step) = None -> source !! MANIFEST = None ->
  0 <= step < 10 ^ 12 -> representable at_ ->
  exists part s' ref old,
    put root job step (Some source) at_ (mkDisk s seen) = (mkDisk s' (s' :: part ++ seen), Ok ref) /\
    Forall (fun x => tidy x /\ forall j, latest root x j = latest root s j) part /\
    tidy s' /\ (forall j, j <> job -> latest root s' j = latest root s j) /\
    latest root s job = Ok old /\
    latest root s' job = Ok (match old with
                             | Some r => if step <? ck_step r then Some r else Some ref
                             | None => Some ref
                             end).
Proof.
  intros Ht Hnone Hman Hstep Hat.
  destruct (put_run (same_manifests s) s seen job step source at_ ltac:(by intros ??) (quiet_writes s job _ Hnone) Hman) as (d1 & s' & Hrun & [_ (part & Hseen & Hpart)] & Hnew & Hold).
  destruct (put_manifests s s' job step source at_ Hat Hstep Ht Hnone Hnew Hold) as [Ht' Hc].
  destruct (latest_newest s job Ht) as (old & Hlat & Hnewest).
  exists part, s', (written_ref job step source at_), old. rewrite Hrun, Hseen. split_and!; [done| |done| |done|].
  - eapply Forall_impl; [exact Hpart|]. intros x Hx. pose proof (same_tidy _ _ Hx Ht). split; [done|].
    intros j. apply latest_ext; [done..|]. intros n. apply Hx.
  - intros j Hj. destruct (latest_newest s j Ht) as (o & -> & Ho). apply latest_is; [done|].
    eapply newest_ext; [|exact Ho]. intros r. rewrite Hc. naive_solver.
  - apply latest_is; [done|]. assert (Hnew' : complete s' job (written_ref job step source at_)) by (apply Hc; by right).
    destruct old as [r|]; cbn in Hnewest.
    + destruct Hnewest as [H1 H2]. destruct (Z.ltb_spec step (ck_step r)).
      * split; [apply Hc; by left|]. intros r' [Hr'|[_ ->]]%Hc; [by apply H2|cbn; lia].
      * split; [done|]. intros r' [Hr'|[_ ->]]%Hc; [specialize (H2 _ Hr'); cbn; lia|done].
    + split; [done|]. intros r' [Hr'|[_ ->]]%Hc; [by destruct (Hnewest r')|done].
Qed.

(** So the store stays tidy. *)
Lemma put_tidy s seen job step source at_ : representable at_ -> 0 <= step < 10 ^ 12 ->
  tidy s -> manifest_at s job (step_name step) = None -> source !! MANIFEST = None ->
  tidy (d_root (fst (put root job step (Some source) at_ (mkDisk s seen)))).
Proof.
  intros Hat Hstep Ht Hnone Hman.
  destruct (put_run (fun _ => True) s seen job step source at_ I (fun _ _ _ _ => I) Hman) as (d1 & s' & -> & _ & Hnew & Hold).
  by destruct (put_manifests s s' job step source at_ Hat Hstep Ht Hnone Hnew Hold).
Qed.

(** ** fetch *)

Definition no_slash (s : string) : bool :=
  forallb (fun a => negb (Ascii.eqb a "/")) (String.list_ascii_of_string s).

Lemma no_slash_digits w v s : no_slash s = true -> no_slash (dec_digits w v s) = true.
Proof.
  revert v s. induction w as [|w IH]; intros v s Hs; [done|]. apply IH. unfold no_slash in *. cbn. rewrite Hs, andb_true_r.
  unfold digit. assert (Hp : forall x, negb (Ascii.eqb (pretty.pretty_N_char x) "/") = true); [|apply Hp].
  intros x. unfold pretty.pretty_N_char. by repeat case_match.
Qed.

Lemma no_slash_step step : 0 <= step < 10 ^ 12 -> no_slash (step_name step) = true.
Proof.
  intros H. unfold step_name. rewrite (proj2 (Z.ltb_ge _ 0)) by lia.
  rewrite <- (str_app_nil (pad0 12 step)), pad0_digits by (cbn; lia).
  change (no_slash (dec_digits 12 step "") = true). by apply no_slash_digits.
Qed.

Lemma locate_key s job name : no_slash job = true -> no_slash name = true ->
  locate root s (key_of root job name) = entry_of s job name.
Proof.
  intros Hj Hn. unfold locate, key_of.
  replace (root +:+ "/" +:+ job +:+ "/" +:+ name) with ((root +:+ "/") +:+ job +:+ String "/" name)
    by (by rewrite str_app_assoc).
  rewrite strip_prefix_app. cbn [mbind option_bind].
  rewrite split_char_app, split_char_free by done. unfold entry_of. by destruct (s !! job).
Qed.

Definition restore_one (source : Files) (key : string) (name : json) : M Files exn unit :=
  match name with
  | JStr n => match source !! n with
              | Some body => modify (<[n := body]>)
              | None => raise (CheckpointError ("checkpoint " +:+ key +:+ " is missing " +:+ n))
              end
  | _ => raise (TypeError "unsupported operand type(s) for /")
  end.

Lemma restore_all source key names target : (forall n, n ∈ names -> is_Some (source !! n)) ->
  exists target', foldM (fun _ name => restore_one source key name) tt (map JStr names) target = (target', Ok tt) /\
    forall k, target' !! k = if decide (k ∈ names) then source !! k else target !! k.
Proof.
  revert target. induction names as [|n names IH]; intros target Hn; [by exists target|].
  destruct (Hn n ltac:(by left)) as [body Hb].
  destruct (IH (<[n := body]> target)) as (t' & Hrun & Ht'); [intros; apply Hn; by right|].
  exists t'. split.
  - cbn [map foldM]. unfold restore_one at 1, bind. rewrite Hb. exact Hrun.
  - intros k. rewrite Ht'. destruct (decide (k ∈ names)) as [Hin|Hin].
    + by rewrite decide_True by (by right).
    + destruct (decide (k = n)) as [->|Hkn].
      * by rewrite lookup_insert_eq, decide_True by (by left).
      * rewrite lookup_insert_ne, decide_False by (congruence || by intros [->|?]%elem_of_cons). done.
Qed.

(** The names a reference lists are those of the files. *)
Lemma listed_names source k : k ∈ py_sort str_lt (map fst (rglob source)) <-> is_Some (source !! k).
Proof.
  rewrite py_sort_elem, list_elem_of_fmap. split.
  - intros ([k' v] & -> & Hk). unfold rglob in Hk. apply py_sort_elem, elem_of_map_to_list in Hk. by exists v.
  - intros [v Hv]. exists (k, v). split; [done|]. by apply py_sort_elem, elem_of_map_to_list.
Qed.

(** What a loop over those names leaves in the directory. *)
Lemma restored_union (source target target' : Files) :
  (forall k, target' !! k = if decide (k ∈ py_sort str_lt (map fst (rglob source))) then source !! k else target !! k) ->
  target' = source ∪ target.
Proof.
  intros H. apply map_eq. intros k. rewrite H, lookup_union. destruct (decide _) as [Hk|Hk]; rewrite listed_names in Hk.
  - destruct Hk as [v ->]. by rewrite union_Some_l.
  - rewrite <- eq_None_not_Some in Hk. rewrite Hk. by destruct (target !! k).
Qed.

Lemma fetch_written x job step source at_ target :
  source !! MANIFEST = None -> 0 <= step < 10 ^ 12 -> no_slash job = true ->
  entry_of x job (step_name step) = Some (written_files step source at_) ->
  fetch root x (written_ref job step source at_) target = (source ∪ target, Ok tt).
Proof.
  intros Hman Hstep Hj Hx.
  unfold fetch, written_ref. cbn [ck_key ck_files]. rewrite locate_key by (done || by apply no_slash_step).
  rewrite Hx. unfold written_files at 1. rewrite lookup_insert_eq.
  set (names := py_sort str_lt (map fst (rglob source))). pose proof (listed_names source) as Hnames. fold names in Hnames.
  destruct (restore_all (written_files step source at_) (key_of root job (step_name step)) names target) as (t' & Hrun & Ht').
  { intros n Hn. apply Hnames in Hn. unfold written_files. rewrite lookup_insert_ne; [done|]. intros <-. rewrite Hman in Hn. by destruct Hn. }
  change (foldM _ tt (map JStr names) target) with
    (foldM (fun _ name => restore_one (written_files step source at_) (key_of root job (step_name step)) name) tt (map JStr names) target).
  rewrite Hrun. f_equal. apply restored_union. intros k. rewrite Ht'. fold names.
  destruct (decide (k ∈ names)) as [Hk|Hk]; [|done]. apply Hnames in Hk. unfold written_files.
  rewrite lookup_insert_ne; [done|]. intros <-. rewrite Hman in Hk. by destruct Hk.
Qed.

(** What was put comes back: as long as the files of that step are left
    alone, fetching the reference [put] returned writes exactly the saved files
    into the directory and touches nothing else there. *)
Theorem fetch_put s seen job step source at_ x target :
  source !! MANIFEST = None -> 0 <= step < 10 ^ 12 -> no_slash job = true ->
  let '(d', r) := put root job step (Some source) at_ (mkDisk s seen) in
  entry_of x job (step_name step) = entry_of (d_root d') job (step_name step) ->
  exists ref, r = Ok ref /\ fetch root x ref target = (source ∪ target, Ok tt).
Proof.
  intros Hman Hstep Hj.
  destruct (put_run (fun _ => True) s seen job step source at_ I (fun _ _ _ _ => I) Hman)
    as (d1 & s' & -> & _ & Hnew & _). intros Hx. cbn [d_root] in Hx.
  eexists. split; [done|]. apply fetch_written; [done..|]. by rewrite Hx.
Qed.

(** ** prune *)

(** Entries of [job] named in [l] may be gone; everything else is as in [s]. *)
Definition without (s : LocalStore) (job : string) (l : list string) (x : LocalStore) : Prop :=
  forall j n, entry_of x j n = entry_of s j n \/ entry_of x j n = None /\ j = job /\ n ∈ l.

Lemma without_manifest s job l x j n raw : without s job l x ->
  manifest_at x j n = Some raw -> manifest_at s j n = Some raw.
Proof. intros Hx. unfold manifest_at. by destruct (Hx j n) as [->|[-> _]]. Qed.

Lemma without_tidy s job l x : without s job l x -> tidy s -> tidy x.
Proof. intros Hx Ht j n raw Hm. eapply Ht. by eapply without_manifest. Qed.

Lemma remove_all s d0 job l all d k :
  l ⊆ all -> through (without s job all) d0 d ->
  exists d', foldM (fun removed name => write (at_entry job name (fun _ => None));;; ret (removed + 1)) k l d
      = (d', Ok (k + Z.of_nat (length l))) /\
    through (without s job all) d0 d' /\
    forall n, entry_of (d_root d') job n = if decide (n ∈ l) then None else entry_of (d_root d) job n.
Proof.
  revert k d. induction l as [|name l IH]; intros k d Hl Ht.
  { exists d. cbn [foldM length]. rewrite Z.add_0_r. by split_and!. }
  set (f := at_entry job name (fun _ => None)).
  destruct (IH (k + 1) (mkDisk (f (d_root d)) (f (d_root d) :: d_seen d))) as (d' & Hrun & Ht' & He).
  - intros n Hn. apply Hl. by right.
  - apply through_write; [done|]. intros j n. subst f. cbv beta. rewrite entry_of_at.
    destruct (decide _) as [[-> ->]|]; [|by apply Ht]. right. split_and!; [done..|]. apply Hl. left.
  - exists d'. split_and!; [|done|].
    + cbn [foldM]. etransitivity; [exact Hrun|]. do 2 f_equal. cbn [length]. lia.
    + intros n. rewrite He. cbn [d_root]. subst f. cbv beta. rewrite entry_of_at.
      destruct (decide (n ∈ l)) as [Hn|Hn]; [by rewrite decide_True by (by right)|].
      destruct (decide (n = name)) as [->|Hne].
      * by rewrite decide_True, decide_True by (done || by left).
      * rewrite decide_False, decide_False by (naive_solver || by intros [->|?]%elem_of_cons). done.
Qed.

Definition job_entries (s : LocalStore) (job : string) : Entries := default ∅ (s !! job).

Lemma complete_names_spec s job n :
  n ∈ complete_names (job_entries s job) <-> is_Some (manifest_at s job n).
Proof.
  unfold complete_names, sorted_names. rewrite list_elem_of_In, filter_In, <- list_elem_of_In, py_sort_elem.
  rewrite bool_decide_eq_true, list_elem_of_fmap. unfold manifest_at, entry_of, job_entries. split.
  - intros [_ H]. by destruct (default ∅ (s !! job) !! n).
  - intros H. destruct (default ∅ (s !! job) !! n) as [fs|] eqn:E; [|by destruct H].
    split; [|done]. exists (n, fs). split; [done|]. by apply elem_of_map_to_list.
Qed.

Lemma filter_nodup {A} (f : A -> bool) l : NoDup l -> NoDup (List.filter f l).
Proof. rewrite !NoDup_ListNoDup. apply List.NoDup_filter. Qed.

Lemma complete_names_nodup s job : NoDup (complete_names (job_entries s job)).
Proof.
  apply filter_nodup. unfold sorted_names. rewrite (py_sort_perm str_lt). apply NoDup_fst_map_to_list.
Qed.

Lemma filter_sorted {A} (R : A -> A -> Prop) f l : StronglySorted R l -> StronglySorted R (List.filter f l).
Proof.
  induction 1 as [|x l Hl IH Hx]; cbn; [constructor|]. destruct (f x); [|done]. constructor; [done|].
  rewrite List.Forall_forall in *. intros y [Hy _]%filter_In. by apply Hx.
Qed.

Lemma sorted_split {A} (R : A -> A -> Prop) m l a b : StronglySorted R l ->
  a ∈ take m l -> b ∈ drop m l -> R a b.
Proof.
  intros Hl. revert m. induction Hl as [|x l Hl IH Hx]; intros m Ha Hb.
  { rewrite take_nil in Ha. by apply elem_of_nil in Ha. }
  destruct m as [|m]; cbn in *; [by apply elem_of_nil in Ha|]. apply elem_of_cons in Ha as [->|Ha]; [|by eapply IH].
  rewrite List.Forall_forall in Hx. apply Hx, list_elem_of_In. rewrite <- (take_drop m l). set_solver.
Qed.

(** The newest is not among the first, when something is left. *)
Lemma newest_kept s job r m : tidy s -> newest s job (Some r) ->
  let l := complete_names (job_entries s job) in (m < length l)%nat -> step_name (ck_step r) ∉ take m l.
Proof.
  intros Ht [Hc Hmax] l Hm Hin. destruct (complete_named s job r Ht Hc) as (Hr & _).
  destruct (lookup_lt_is_Some_2 l m Hm) as [b Hb].
  assert (Hd : b ∈ drop m l).
  { apply list_elem_of_lookup. exists 0%nat. by rewrite lookup_drop, Nat.add_0_r. }
  assert (Hbl : b ∈ l) by (by eapply list_elem_of_lookup_2).
  apply complete_names_spec in Hbl as [raw Hraw]. destruct (Ht _ _ _ Hraw) as (rb & Hread & -> & Hrb).
  specialize (Hmax rb ltac:(by exists (step_name (ck_step rb)), raw)).
  assert (Hle : sort_le str_lt (step_name (ck_step r)) (step_name (ck_step rb))).
  { eapply (sorted_split _ m l); [|done..]. apply filter_sorted. apply (py_sort_sorted str_lt). }
  unfold sort_le in Hle. rewrite step_name_order in Hle by done. apply Z.ltb_ge in Hle.
  assert (E : ck_step rb = ck_step r) by lia. rewrite E in Hd.
  pose proof (complete_names_nodup s job) as Hnd. fold l in Hnd. rewrite <- (take_drop m l) in Hnd.
  apply NoDup_app in Hnd as (_ & Hdis & _). by apply (Hdis _ Hin).
Qed.

(** Losing surplus entries, some or all of them, leaves [latest] as it is. *)
Lemma without_surplus s job m x : tidy s ->
  let l := complete_names (job_entries s job) in (m < length l \/ l = [])%nat ->
  without s job (take m l) x -> tidy x /\ forall j, latest root x j = latest root s j.
Proof.
  intros Ht l Hm Hx. pose proof (without_tidy _ _ _ _ Hx Ht) as Htx. split; [done|]. intros j.
  destruct (latest_newest s j Ht) as (o & -> & Ho). apply latest_is; [done|].
  assert (Hback : forall r, complete x j r -> complete s j r).
  { intros r (name & raw & Hman & Hr). exists name, raw. split; [by eapply without_manifest|done]. }
  destruct o as [r|]; [|by intros r Hr; apply (Ho r), Hback].
  split; [|intros r' Hr'; by apply Ho, Hback].
  destruct (complete_named s j r Ht (proj1 Ho)) as (_ & raw & Hman & Hr).
  exists (step_name (ck_step r)), raw. split; [|done]. unfold manifest_at in *.
  destruct (Hx j (step_name (ck_step r))) as [->|(_ & -> & Hin)]; [done|]. exfalso. revert Hin.
  destruct Hm as [Hm|Hm]; [by apply newest_kept|]. rewrite Hm, take_nil. by intros ?%elem_of_nil.
Qed.

(** [prune] removes the first names of the sorted list. *)
Lemma prune_fold s seen job keep : 0 < keep ->
  let l := complete_names (job_entries s job) in
  prune job keep (mkDisk s seen)
  = foldM (fun removed name => write (at_entry job name (fun _ => None));;; ret (removed + 1)) 0
      (take (length l - Z.to_nat keep) l) (mkDisk s seen).
Proof.
  intros Hk l. unfold prune, bind at 1. cbn [gets d_root]. subst l. unfold job_entries.
  destruct (s !! job) as [entries|]; cbn [default]; [|done]. by rewrite (proj2 (Z.ltb_lt 0 keep)).
Qed.

(** Pruning, however far it gets, never changes what [latest] says of any
    job; it removes exactly the surplus over [keep], the lowest steps first. *)
Theorem prune_keeps_newest s seen job keep : tidy s -> 0 < keep ->
  let l := complete_names (job_entries s job) in
  exists part s' n, prune job keep (mkDisk s seen) = (mkDisk s' (part ++ seen), Ok (Z.of_nat n)) /\
    Forall (fun x => tidy x /\ forall j, latest root x j = latest root s j) (s' :: part) /\
    n = (length l - Z.to_nat keep)%nat /\ Permutation (complete_names (job_entries s' job)) (drop n l).
Proof.
  intros Ht Hkeep l. rewrite prune_fold by done. fold l. set (n := (length l - Z.to_nat keep)%nat).
  destruct (remove_all s (mkDisk s seen) job (take n l) (take n l) (mkDisk s seen) 0 ltac:(done))
    as (d' & Hrun & [Hw (part & Hseen & Hpart)] & He).
  { split; [by intros ??; left|by exists []]. }
  assert (Hn : (n < length l \/ l = [])%nat) by (subst n; destruct l; [by right|left; cbn; lia]).
  exists part, (d_root d'), n. rewrite Hrun, length_take_le by (subst n; lia).
  destruct d' as [s' seen']. cbn in Hseen, Hw, He |- *. subst seen'. split_and!; [done| |done|].
  - constructor; [by apply (without_surplus s job n)|].
    eapply Forall_impl; [exact Hpart|]. intros x Hx. by apply (without_surplus s job n).
  - pose proof (complete_names_nodup s job) as Hnd. fold l in Hnd. rewrite <- (take_drop n l) in Hnd.
    apply NoDup_app in Hnd as (_ & Hdis & Hnd). apply NoDup_Permutation; [apply complete_names_nodup|done|].
    intros name. rewrite complete_names_spec. unfold manifest_at. rewrite He.
    assert (Hl : name ∈ l <-> is_Some (manifest_at s job name)) by apply complete_names_spec.
    rewrite <- (take_drop n l), elem_of_app in Hl. unfold manifest_at in Hl. specialize (Hdis name).
    destruct (decide (name ∈ take n l)); cbn; [|naive_solver].
    split; [by intros []|]. intros Hd. by destruct Hdis.
Qed.
End Store.

(** ** A store with one checkpoint *)

Definition weights (body : string) : Files := {["model.pt" := body]}.
Definition one_saved : Disk := fst (put "/ck" "job-1" 5 (Some (weights "abc")) 0 (mkDisk ∅ [])).
Definition two_saved : Disk := fst (put "/ck" "job-1" 9 (Some (weights "defg")) 60000000 one_saved).

Lemma representable_start : representable 0 /\ representable 60000000.
Proof. unfold representable. destruct calendar_ends as (-> & -> & _). change us_per_day with 86400000000. lia. Qed.

Lemma put_visible_last_witness : latest "/ck" (d_root one_saved) "job-1"
  = Ok (Some (mkCheckpointRef "job-1" 5 "/ck/job-1/step-000000000005" 0 [JStr "model.pt"] 3)).
Proof.
  destruct (put_visible_last "/ck" ∅ [] "job-1" 5 (weights "abc") 0 (tidy_empty "/ck") eq_refl eq_refl
    ltac:(lia) (proj1 representable_start)) as (part & s' & ref & old & Hput & _ & _ & _ & Hold & Hnew).
  unfold one_saved. rewrite Hput. cbn [fst d_root]. rewrite Hnew. clear Hnew.
  change (latest "/ck" ∅ "job-1") with (@Ok exn _ (@None CheckpointRef)) in Hold. injection Hold as <-.
  apply (f_equal snd) in Hput. cbn [snd] in Hput. f_equal. f_equal. vm_compute in Hput. injection Hput as E. symmetry. exact E.
Defined.

Lemma fetch_put_witness : fetch "/ck" (d_root two_saved)
  (mkCheckpointRef "job-1" 5 "/ck/job-1/step-000000000005" 0 [JStr "model.pt"] 3) no_files = (weights "abc", Ok tt).
Proof.
  pose proof (fetch_put "/ck" ∅ [] "job-1" 5 (weights "abc") 0 (d_root two_saved) no_files eq_refl ltac:(lia) eq_refl) as H.
  destruct (put "/ck" "job-1" 5 (Some (weights "abc")) 0 (mkDisk ∅ [])) as [d' r] eqn:E.
  destruct H as (ref & -> & Hf).
  - assert (d' = one_saved) as -> by (unfold one_saved; by rewrite E). vm_compute. reflexivity.
  - apply (f_equal snd) in E. vm_compute in E. injection E as <-. exact Hf.
Defined.

Lemma prune_keeps_newest_witness : exists s', fst (prune "job-1" 1 two_saved) = s' /\
  latest "/ck" (d_root s') "job-1" = latest "/ck" (d_root two_saved) "job-1".
Proof.
  assert (H1 : tidy "/ck" (d_root one_saved))
    by (apply put_tidy; [apply representable_start|lia|apply tidy_empty|reflexivity|reflexivity]).
  assert (Ht : tidy "/ck" (d_root two_saved)).
  { unfold two_saved. assert (Hnone : manifest_at (d_root one_saved) "job-1" (step_name 9) = None) by (vm_compute; reflexivity).
    destruct one_saved as [s seen]. apply put_tidy; [apply representable_start|lia|exact H1|exact Hnone|reflexivity]. }
  destruct (prune_keeps_newest "/ck" (d_root two_saved) (d_seen two_saved) "job-1" 1 Ht ltac:(lia))
    as (part & s' & n & Hrun & Hall & _).
  exists (mkDisk s' (part ++ d_seen two_saved)). split.
  - destruct two_saved as [root seen]. exact (f_equal fst Hrun).
  - cbn [d_root]. apply Forall_cons in Hall as [[_ H] _]. apply H.
Defined.

(** Putting a step that is already there is different: the complete checkpoint is
    removed before the new one is visible, and a machine lost in between leaves
    none. *)
Definition put_again : Disk := fst (put "/ck" "job-1" 5 (Some (weights "xyz")) 60000000 one_saved).

Example put_again_gap : map (fun x => match latest "/ck" x "job-1" with Ok (Some r) => Some (ck_step r) | _ => None end)
  (d_seen put_again) = [Some 5; None; None; None; Some 5; None; None].
Proof. by vm_compute. Qed.
