(* ===== verification/CheckpointStore.v ===== *)
(** * The protocol CheckpointStore, and what a store promises its clients

    A [Shelf] is a store as its clients think of it: for every job, what was
    saved at which step.  [CheckpointStore W] is the protocol of checkpoint.py
    over a world [W], and [Contract] says that its operations act on the world as
    those of the shelf act on the shelf.  [run_simulates] carries that over to
    any sequence of operations: a client cannot tell the store from the shelf.
    The local store and the S3 store are the two instances. *)

From Stdlib Require Import Ascii Sorted.
From S2P Require Import Prelude PyFormat PySort Errors Clock PyJson PyText Checkpoint CheckpointProps.
Local Open Scope Z_scope.
Local Open Scope py_scope.

Import LocalCheckpointStore.

(** ** The protocol *)

Record CheckpointStore (W : Type) := mkCheckpointStore {
  cs_put : string -> Z -> option Files -> Z -> M W exn CheckpointRef;
  cs_latest : string -> M W exn (option CheckpointRef);
  cs_fetch : CheckpointRef -> M (W * Files) exn unit;
  cs_prune : string -> Z -> M W exn Z
}.
Arguments cs_put {W}. Arguments cs_latest {W}. Arguments cs_fetch {W}. Arguments cs_prune {W}.

(** ** The shelf *)

Record Saved := mkSaved { sv_files : Files; sv_at : Z }.
Abbreviation Shelf := (gmap string (gmap Z Saved)).

Definition saved_of (a : Shelf) (job : string) : gmap Z Saved := default ∅ (a !! job).

(** The steps of a job, in ascending order. *)
Definition steps_of (m : gmap Z Saved) : list Z := py_sort Z.ltb (map fst (map_to_list m)).

Definition newest_saved (m : gmap Z Saved) : option (Z * Saved) :=
  step ← last (steps_of m); sv ← m !! step; Some (step, sv).

(** [xs[:-keep] if keep > 0 else xs] *)
Definition surplus {A} (keep : Z) (xs : list A) : list A :=
  if 0 <? keep then take (length xs - Z.to_nat keep) xs else xs.

Definition shelf_put (a : Shelf) (job : string) (step : Z) (sv : Saved) : Shelf :=
  <[job := <[step := sv]> (saved_of a job)]> a.

Definition shelf_drop (a : Shelf) (job : string) (steps : list Z) : Shelf :=
  <[job := foldr delete (saved_of a job) steps]> a.

Definition shelf_prune (a : Shelf) (job : string) (keep : Z) : Shelf :=
  shelf_drop a job (surplus keep (steps_of (saved_of a job))).

(** The reference to what was saved, under the key a store gives it. *)
Definition ref_for (key : string -> Z -> string) (job : string) (step : Z) (sv : Saved) : CheckpointRef :=
  mkCheckpointRef job step (key job step) (sv_at sv)
    (map JStr (py_sort str_lt (map fst (rglob (sv_files sv))))) (total_size (rglob (sv_files sv))).

Definition newest_ref (key : string -> Z -> string) (a : Shelf) (job : string) : option CheckpointRef :=
  (fun p => ref_for key job (fst p) (snd p)) <$> newest_saved (saved_of a job).

(** What a client may save: a step of at most twelve digits that the job has
    not saved before, fewer than a thousand files, and no name that ends like
    the manifest's. *)
Record saved_ok (job : string) (step : Z) (sv : Saved) : Prop := {
  ok_job : no_slash job = true;
  ok_step : 0 <= step < 10 ^ 12;
  ok_at : representable (sv_at sv);
  ok_names : forall name, is_Some (sv_files sv !! name) -> name <> "" /\ ends_with MANIFEST name = false;
  ok_size : (base.size (sv_files sv) < 1000)%nat
}.

Definition shelf_ok (a : Shelf) : Prop :=
  forall job step sv, saved_of a job !! step = Some sv -> saved_ok job step sv.

(** ** Lemmas on the shelf *)

Lemma saved_of_put a job step sv j :
  saved_of (shelf_put a job step sv) j = if decide (j = job) then <[step := sv]> (saved_of a job) else saved_of a j.
Proof.
  unfold saved_of at 1, shelf_put. destruct (decide (j = job)) as [->|Hj]; [by rewrite lookup_insert_eq|].
  by rewrite lookup_insert_ne by done.
Qed.

Lemma saved_of_drop a job steps j :
  saved_of (shelf_drop a job steps) j = if decide (j = job) then foldr delete (saved_of a job) steps else saved_of a j.
Proof.
  unfold saved_of at 1, shelf_drop. destruct (decide (j = job)) as [->|Hj]; [by rewrite lookup_insert_eq|].
  by rewrite lookup_insert_ne by done.
Qed.

Lemma lookup_dropped (m : gmap Z Saved) l s : foldr delete m l !! s = if decide (s ∈ l) then None else m !! s.
Proof.
  induction l as [|x l IH]; cbn; [by rewrite decide_False by apply not_elem_of_nil|].
  destruct (decide (s = x)) as [->|Hx].
  - by rewrite lookup_delete_eq, decide_True by left.
  - rewrite lookup_delete_ne, IH by done. destruct (decide (s ∈ l)).
    + by rewrite decide_True by (by right).
    + by rewrite decide_False by (by intros [->|?]%elem_of_cons).
Qed.

Lemma put_lookup a job step sv j s sv' : saved_of (shelf_put a job step sv) j !! s = Some sv' <->
  (j = job /\ s = step /\ sv' = sv) \/ ((j, s) <> (job, step) /\ saved_of a j !! s = Some sv').
Proof.
  rewrite saved_of_put. destruct (decide (j = job)) as [->|Hj]; [|naive_solver].
  rewrite lookup_insert_Some. naive_solver.
Qed.

Lemma drop_lookup a job steps j s sv : saved_of (shelf_drop a job steps) j !! s = Some sv <->
  saved_of a j !! s = Some sv /\ ~ (j = job /\ s ∈ steps).
Proof.
  rewrite saved_of_drop. destruct (decide (j = job)) as [->|Hj]; [|naive_solver].
  rewrite lookup_dropped. destruct (decide (s ∈ steps)); naive_solver.
Qed.

Lemma shelf_put_ok a job step sv : shelf_ok a -> saved_ok job step sv -> shelf_ok (shelf_put a job step sv).
Proof. intros Ha Hsv j s sv'. rewrite put_lookup. intros [(-> & -> & ->)|[_ H]]; [done|by apply Ha]. Qed.

Lemma shelf_drop_ok a job steps : shelf_ok a -> shelf_ok (shelf_drop a job steps).
Proof. intros Ha j s sv. rewrite drop_lookup. intros [H _]. by apply Ha. Qed.

Lemma elem_steps m s : s ∈ steps_of m <-> is_Some (m !! s).
Proof.
  unfold steps_of. rewrite py_sort_elem, list_elem_of_fmap. split.
  - intros ([s' sv] & -> & H). exists sv. by apply elem_of_map_to_list in H.
  - intros [sv H]. exists (s, sv). split; [done|]. by apply elem_of_map_to_list.
Qed.

Lemma steps_nodup m : NoDup (steps_of m).
Proof. unfold steps_of. rewrite py_sort_perm. apply NoDup_fst_map_to_list. Qed.

#[export] Instance Z_ltb_order : StrictWeakOrder Z.ltb.
Proof. split; intros; rewrite ?Z.ltb_lt, ?Z.ltb_ge in *; lia. Qed.

Lemma steps_sorted m : StronglySorted Z.le (steps_of m).
Proof.
  pose proof (py_sort_sorted Z.ltb (map fst (map_to_list m))) as H. fold (steps_of m) in H.
  induction H as [|x l H IH Hx]; constructor; [done|].
  eapply List.Forall_impl; [|exact Hx]. intros y. by apply Z.ltb_ge.
Qed.

Lemma sorted_last l x : StronglySorted Z.le l -> last l = Some x -> forall y, y ∈ l -> y <= x.
Proof.
  induction 1 as [|z l Hl IH Hz]; [done|]. destruct l as [|z' l]; cbn [last].
  - intros [= ->] y ->%list_elem_of_singleton. lia.
  - intros Hx y [->|Hy]%elem_of_cons; [|by apply IH]. rewrite List.Forall_forall in Hz.
    apply Hz, list_elem_of_In. apply last_Some in Hx as [k ->]. set_solver.
Qed.

Lemma newest_saved_spec m : match newest_saved m with
  | Some (s, sv) => m !! s = Some sv /\ forall s', is_Some (m !! s') -> s' <= s
  | None => forall s, m !! s = None
  end.
Proof.
  unfold newest_saved. destruct (last (steps_of m)) as [s|] eqn:E; cbn.
  - assert (Hs : s ∈ steps_of m) by (apply last_Some in E as [k ->]; set_solver).
    apply elem_steps in Hs as [sv Hsv]. rewrite Hsv. cbn. split; [done|].
    intros s' Hs'%elem_steps. by eapply sorted_last; [apply steps_sorted|..].
  - apply last_None in E. intros s. rewrite eq_None_not_Some, <- elem_steps, E. apply not_elem_of_nil.
Qed.

(** The names of the entries of a job, sorted as texts, are those of its steps in order. *)
Lemma names_are_steps (m : gmap Z Saved) names :
  (forall s, is_Some (m !! s) -> 0 <= s < 10 ^ 12) -> NoDup names -> StronglySorted (sort_le str_lt) names ->
  (forall n, n ∈ names <-> exists s, n = step_name s /\ is_Some (m !! s)) ->
  names = map step_name (steps_of m).
Proof.
  intros Hr Hnd Hs Hn.
  assert (Hrange : forall s, s ∈ steps_of m -> 0 <= s < 10 ^ 12) by (intros s ?%elem_steps; by apply Hr).
  apply (sorted_perm_eq str_lt).
  - intros a b _ _ H1 H2. by apply str_lt_total.
  - done.
  - pose proof (steps_sorted m) as Hl. induction Hl as [|s l Hl IH Hsl]; [constructor|]. cbn. constructor.
    + apply IH. intros; apply Hrange; by right.
    + rewrite List.Forall_forall in Hsl |- *. intros n (s' & <- & Hs')%in_map_iff. unfold sort_le.
      rewrite step_name_order; [apply Z.ltb_ge; exact (Hsl _ Hs')| |]; apply Hrange;
        [right; by apply list_elem_of_In|left].
  - apply NoDup_Permutation; [done| |].
    + apply (NoDup_fmap_2_strong step_name); [|apply steps_nodup].
      intros a b Ha Hb. apply step_name_inj; apply Hrange; assumption.
    + intros n. rewrite Hn, list_elem_of_fmap. by setoid_rewrite elem_steps.
Qed.

Lemma surplus_map {A B} (f : A -> B) keep xs : surplus keep (map f xs) = map f (surplus keep xs).
Proof. unfold surplus. destruct (0 <? keep); [|done]. rewrite length_map. apply firstn_map. Qed.

Lemma surplus_sub {A} keep (xs : list A) : surplus keep xs ⊆ xs.
Proof.
  unfold surplus. destruct (0 <? keep); [|done]. intros x Hx.
  by apply (elem_of_submseteq _ _ _ Hx), sublist_submseteq, sublist_take.
Qed.

(** ** The contract *)

Definition is_checkpoint_error (e : exn) : Prop := exists message, e = CheckpointError message.

(** [shows w a]: the world [w] holds the shelf [a].  [key] is how the store
    names a checkpoint. *)
Class Contract {W : Type} (cs : CheckpointStore W) (key : string -> Z -> string) (shows : W -> Shelf -> Prop) := {
  contract_put w a job step source at_ :
    shows w a -> saved_of a job !! step = None -> saved_ok job step (mkSaved source at_) ->
    exists w', cs_put cs job step (Some source) at_ w = (w', Ok (ref_for key job step (mkSaved source at_))) /\
      shows w' (shelf_put a job step (mkSaved source at_));
  contract_put_nothing w a job step at_ : shows w a ->
    exists w' e, cs_put cs job step None at_ w = (w', Raise e) /\ is_checkpoint_error e /\ shows w' a;
  contract_latest w a job : shows w a -> no_slash job = true ->
    exists w', cs_latest cs job w = (w', Ok (newest_ref key a job)) /\ shows w' a;
  contract_fetch w a job step sv target : shows w a -> saved_of a job !! step = Some sv ->
    exists w', cs_fetch cs (ref_for key job step sv) (w, target) = ((w', sv_files sv ∪ target), Ok tt) /\ shows w' a;
  contract_prune w a job keep : shows w a -> no_slash job = true ->
    exists w', cs_prune cs job keep w = (w', Ok (Z.of_nat (length (surplus keep (steps_of (saved_of a job)))))) /\
      shows w' (shelf_prune a job keep)
}.

(** ** Clients *)

(** What a client asks of a store; to resume is to fetch the latest checkpoint,
    if there is one, into a directory. *)
Inductive Request :=
| Put (job : string) (step : Z) (directory : option Files) (at_ : Z)
| Latest (job : string)
| Resume (job : string) (directory : Files)
| Prune (job : string) (keep : Z).

Inductive Answer :=
| Written (ref : CheckpointRef)
| Refused
| Newest (ref : option CheckpointRef)
| Resumed (ref : option CheckpointRef) (directory : Files)
| Pruned (removed : Z)
| Raised (e : exn).

Definition answer_of {A} (f : A -> Answer) (r : outcome exn A) : Answer :=
  match r with Ok a => f a | Raise (CheckpointError _) => Refused | Raise e => Raised e end.

Section Clients.
Context {W : Type} (cs : CheckpointStore W).

Definition ask (q : Request) (w : W) : W * Answer :=
  match q with
  | Put job step directory at_ => let '(w', r) := cs_put cs job step directory at_ w in (w', answer_of Written r)
  | Latest job => let '(w', r) := cs_latest cs job w in (w', answer_of Newest r)
  | Resume job directory =>
      match cs_latest cs job w with
      | (w1, Ok (Some ref)) =>
          let '((w2, directory'), r) := cs_fetch cs ref (w1, directory) in
          (w2, answer_of (fun _ => Resumed (Some ref) directory') r)
      | (w1, r) => (w1, answer_of (fun o => Resumed o directory) r)
      end
  | Prune job keep => let '(w', r) := cs_prune cs job keep w in (w', answer_of Pruned r)
  end.

Fixpoint run (qs : list Request) (w : W) : W * list Answer :=
  match qs with
  | [] => (w, [])
  | q :: qs => let '(w1, x) := ask q w in let '(w2, xs) := run qs w1 in (w2, x :: xs)
  end.
End Clients.

(** The same of the shelf. *)
Definition shelf_ask (key : string -> Z -> string) (q : Request) (a : Shelf) : Shelf * Answer :=
  match q with
  | Put job step (Some source) at_ =>
      (shelf_put a job step (mkSaved source at_), Written (ref_for key job step (mkSaved source at_)))
  | Put job step None at_ => (a, Refused)
  | Latest job => (a, Newest (newest_ref key a job))
  | Resume job directory =>
      (a, Resumed (newest_ref key a job)
            (match newest_saved (saved_of a job) with Some (_, sv) => sv_files sv ∪ directory | None => directory end))
  | Prune job keep => (shelf_prune a job keep, Pruned (Z.of_nat (length (surplus keep (steps_of (saved_of a job))))))
  end.

Fixpoint shelf_run (key : string -> Z -> string) (qs : list Request) (a : Shelf) : Shelf * list Answer :=
  match qs with
  | [] => (a, [])
  | q :: qs => let '(a1, x) := shelf_ask key q a in let '(a2, xs) := shelf_run key qs a1 in (a2, x :: xs)
  end.

(** The requests a client may make. *)
Definition may_ask (q : Request) (a : Shelf) : Prop :=
  match q with
  | Put job step (Some source) at_ => saved_of a job !! step = None /\ saved_ok job step (mkSaved source at_)
  | Put _ _ None _ => True
  | Latest job | Resume job _ | Prune job _ => no_slash job = true
  end.

Fixpoint may_run (key : string -> Z -> string) (qs : list Request) (a : Shelf) : Prop :=
  match qs with [] => True | q :: qs => may_ask q a /\ may_run key qs (fst (shelf_ask key q a)) end.

Section Simulation.
Context {W : Type} (cs : CheckpointStore W) (key : string -> Z -> string) (shows : W -> Shelf -> Prop)
  `{Hcs : !Contract cs key shows}.

Lemma ask_simulates q w a : shows w a -> may_ask q a ->
  exists w', ask cs q w = (w', snd (shelf_ask key q a)) /\ shows w' (fst (shelf_ask key q a)).
Proof.
  intros Hw Hq. destruct q as [job step [source|] at_|job|job directory|job keep]; cbn in Hq |- *.
  - destruct (contract_put w a job step source at_ Hw (proj1 Hq) (proj2 Hq)) as (w' & -> & H). by exists w'.
  - destruct (contract_put_nothing w a job step at_ Hw) as (w' & e & -> & (m & ->) & H). by exists w'.
  - destruct (contract_latest w a job Hw Hq) as (w' & -> & H). by exists w'.
  - destruct (contract_latest w a job Hw Hq) as (w1 & -> & H1). unfold newest_ref.
    pose proof (newest_saved_spec (saved_of a job)) as Hn. destruct (newest_saved (saved_of a job)) as [[step sv]|]; cbn.
    + destruct (contract_fetch w1 a job step sv directory H1 (proj1 Hn)) as (w2 & -> & H2). by exists w2.
    + by exists w1.
  - destruct (contract_prune w a job keep Hw Hq) as (w' & -> & H). by exists w'.
Qed.

Lemma run_simulates qs w a : shows w a -> may_run key qs a ->
  exists w', run cs qs w = (w', snd (shelf_run key qs a)) /\ shows w' (fst (shelf_run key qs a)).
Proof.
  revert w a. induction qs as [|q qs IH]; intros w a Hw Hq; [by exists w|]. destruct Hq as [Hq Hqs]. cbn.
  destruct (ask_simulates q w a Hw Hq) as (w1 & -> & H1). destruct (shelf_ask key q a) as [a1 x]; cbn in *.
  destruct (IH w1 a1 H1 Hqs) as (w2 & -> & H2). destruct (shelf_run key qs a1) as [a2 xs]. by exists w2.
Qed.
End Simulation.

(** ** A session of one job *)

Definition session : list Request :=
  [Put "job-1" 5 (Some (weights "abc")) 0; Put "job-1" 9 (Some (weights "defg")) 60000000;
   Resume "job-1" ∅; Put "job-1" 12 None 0; Prune "job-1" 1; Latest "job-1"].

Lemma weights_ok step body at_ : 0 <= step < 10 ^ 12 -> representable at_ ->
  saved_ok "job-1" step (mkSaved (weights body) at_).
Proof.
  intros Hs Ha. split; [reflexivity|exact Hs|exact Ha| |].
  - intros name [v H]. unfold weights in H. cbn [sv_files] in H.
    apply lookup_singleton_Some in H as [<- _]. by split.
  - cbn [sv_files]. unfold weights. rewrite map_size_singleton. lia.
Qed.

Lemma session_allowed key : may_run key session ∅.
Proof.
  destruct representable_start as [H0 H1]. cbn [may_run session may_ask]. split_and!.
  - reflexivity.
  - apply weights_ok; [lia|exact H0].
  - reflexivity.
  - apply weights_ok; [lia|exact H1].
  - reflexivity.
  - exact I.
  - reflexivity.
  - reflexivity.
  - exact I.
Qed.

(** What the shelf answers: the newest checkpoint comes back, a directory that is
    not there is refused, one checkpoint goes. *)
Example session_answers : map (fun x => match x with
    | Written r | Newest (Some r) => ("ref", ck_step r)
    | Resumed (Some r) t => (default "" (t !! "model.pt"), ck_step r)
    | Refused => ("refused", 0) | Pruned n => ("pruned", n) | _ => ("", 0)
    end) (snd (shelf_run (fun _ _ => "") session ∅))
  = [("ref", 5); ("ref", 9); ("defg", 9); ("refused", 0); ("pruned", 1); ("ref", 9)].
Proof. by vm_compute. Qed.

(** * The local store keeps the contract

    A tree shows a shelf when the complete checkpoints in it are exactly those of
    the shelf, each with the files and the manifest that [put] writes. *)

Local Open Scope Z_scope.
Local Open Scope py_scope.

Section Local.
Context (root : string).

(** [LocalCheckpointStore(root)] *)
Definition local_store : CheckpointStore Disk := {|
  cs_put := put root;
  cs_latest job d := (d, latest root (d_root d) job);
  cs_fetch ref := fun s => let '(t, r) := fetch root (d_root (fst s)) ref (snd s) in ((fst s, t), r);
  cs_prune := prune
|}.

Definition local_key (job : string) (step : Z) : string := key_of root job (step_name step).

Definition holds (s : LocalStore) (a : Shelf) : Prop :=
  (forall job step sv, saved_of a job !! step = Some sv ->
     entry_of s job (step_name step) = Some (written_files step (sv_files sv) (sv_at sv))) /\
  (forall job n, is_Some (manifest_at s job n) -> exists step, n = step_name step /\ is_Some (saved_of a job !! step)).

Definition local_shows (d : Disk) (a : Shelf) : Prop := shelf_ok a /\ holds (d_root d) a.

Lemma ref_written job step sv :
  ref_for local_key job step sv = written_ref root job step (sv_files sv) (sv_at sv).
Proof. done. Qed.

Lemma no_manifest job step sv : saved_ok job step sv -> sv_files sv !! MANIFEST = None.
Proof.
  intros H. apply eq_None_not_Some. intros Hm. destruct (ok_names _ _ _ H _ Hm) as [_ E].
  by rewrite ends_with_self in E.
Qed.

Lemma saved_range a job : shelf_ok a -> forall s, is_Some (saved_of a job !! s) -> 0 <= s < 10 ^ 12.
Proof. intros Ha s [sv Hs]. apply (ok_step _ _ _ (Ha _ _ _ Hs)). Qed.

Lemma holds_read s a job step sv : shelf_ok a -> holds s a -> saved_of a job !! step = Some sv ->
  exists raw, manifest_at s job (step_name step) = Some raw /\
    read_manifest job (key_of root job (step_name step)) raw = Ok (Some (ref_for local_key job step sv)).
Proof.
  intros Ha [H1 _] Hs. eexists. split.
  - unfold manifest_at. rewrite (H1 _ _ _ Hs). cbn. unfold written_files. by rewrite lookup_insert_eq.
  - apply read_written. apply (ok_at _ _ _ (Ha _ _ _ Hs)).
Qed.

Lemma holds_tidy s a : shelf_ok a -> holds s a -> tidy root s.
Proof.
  intros Ha Hs job n raw Hm. destruct (proj2 Hs job n ltac:(by exists raw)) as (step & -> & sv & Hsv).
  destruct (holds_read s a job step sv Ha Hs Hsv) as (raw' & Hm' & Hr). rewrite Hm in Hm'. injection Hm' as <-.
  exists (ref_for local_key job step sv). split_and!; [exact Hr|reflexivity|..]; apply (ok_step _ _ _ (Ha _ _ _ Hsv)).
Qed.

Lemma holds_complete s a job r : shelf_ok a -> holds s a ->
  complete root s job r <-> exists step sv, saved_of a job !! step = Some sv /\ r = ref_for local_key job step sv.
Proof.
  intros Ha Hs. split.
  - intros (n & raw & Hm & Hr). destruct (proj2 Hs job n ltac:(by exists raw)) as (step & -> & sv & Hsv).
    destruct (holds_read s a job step sv Ha Hs Hsv) as (raw' & Hm' & Hr'). rewrite Hm in Hm'. injection Hm' as <-.
    rewrite Hr in Hr'. injection Hr' as ->. by exists step, sv.
  - intros (step & sv & Hsv & ->). destruct (holds_read s a job step sv Ha Hs Hsv) as (raw & Hm & Hr).
    by exists (step_name step), raw.
Qed.

Lemma holds_newest s a job : shelf_ok a -> holds s a -> newest root s job (newest_ref local_key a job).
Proof.
  intros Ha Hs. unfold newest_ref. pose proof (newest_saved_spec (saved_of a job)) as Hn.
  destruct (newest_saved _) as [[step sv]|]; cbn [fmap option_fmap option_map newest fst snd].
  - destruct Hn as [H1 H2]. split; [apply (holds_complete s a); [done..|]; by exists step, sv|].
    intros r (step' & sv' & Hs' & ->)%(holds_complete s a job r Ha Hs). apply H2. by exists sv'.
  - intros r (step & sv & Hsv & _)%(holds_complete s a job r Ha Hs). congruence.
Qed.

Lemma holds_put s s' a job step sv : holds s a -> shelf_ok a -> saved_ok job step sv ->
  entry_of s' job (step_name step) = Some (written_files step (sv_files sv) (sv_at sv)) ->
  (forall j n, (j, n) <> (job, step_name step) -> entry_of s' j n = entry_of s j n) ->
  holds s' (shelf_put a job step sv).
Proof.
  intros [H1 H2] Ha Hsv Hnew Hold. split.
  - intros j st sv'. rewrite put_lookup. intros [(-> & -> & ->)|[Hne H]]; [exact Hnew|].
    rewrite Hold; [by apply H1|]. intros [-> E]%pair_equal_spec. apply Hne. f_equal.
    exact (step_name_inj _ _ (ok_step _ _ _ (Ha _ _ _ H)) (ok_step _ _ _ Hsv) E).
  - intros j n Hm. destruct (decide ((j, n) = (job, step_name step))) as [[-> ->]%pair_equal_spec|Hne].
    + exists step. split; [done|]. exists sv. apply put_lookup. by left.
    + unfold manifest_at in Hm. rewrite Hold in Hm by done. destruct (H2 j n Hm) as (st & -> & sv' & Hsv').
      exists st. split; [done|]. exists sv'. apply put_lookup. right. split; [|done]. by intros [-> ->]%pair_equal_spec.
Qed.

Lemma holds_names s a job : shelf_ok a -> holds s a ->
  complete_names (job_entries s job) = map step_name (steps_of (saved_of a job)).
Proof.
  intros Ha Hs. apply names_are_steps.
  - by apply saved_range.
  - apply complete_names_nodup.
  - apply filter_sorted. apply (py_sort_sorted str_lt).
  - intros n. rewrite complete_names_spec. split; [apply Hs|]. intros (st & -> & sv & Hsv).
    destruct (holds_read s a job st sv Ha Hs Hsv) as (raw & Hm & _). by exists raw.
Qed.

Lemma prune_surplus d job keep : prune job keep d
  = foldM (fun removed name => write (at_entry job name (fun _ => None));;; ret (removed + 1)) 0
      (surplus keep (complete_names (job_entries (d_root d) job))) d.
Proof.
  unfold prune, bind at 1. cbn [gets d_root]. unfold job_entries, surplus.
  destruct (d_root d !! job) as [entries|]; cbn [default]; [done|]. by destruct (0 <? keep).
Qed.

Lemma holds_drop s s' a job steps : holds s a -> shelf_ok a -> steps ⊆ steps_of (saved_of a job) ->
  (forall n, entry_of s' job n = if decide (n ∈ map step_name steps) then None else entry_of s job n) ->
  (forall j n, j <> job -> entry_of s' j n = entry_of s j n) ->
  holds s' (shelf_drop a job steps).
Proof.
  intros [H1 H2] Ha Hsub Hjob Hold. split.
  - intros j st sv [Hsv Hno]%drop_lookup. destruct (decide (j = job)) as [->|Hj]; [|rewrite Hold by done; by apply H1].
    rewrite Hjob, decide_False; [by apply H1|]. intros (st' & E & Hin)%list_elem_of_fmap. apply Hno. split; [done|].
    apply step_name_inj in E; [by subst| |].
    + apply (ok_step _ _ _ (Ha _ _ _ Hsv)).
    + apply (saved_range a job Ha). apply elem_steps. by apply Hsub.
  - intros j n Hm. destruct (decide (j = job)) as [->|Hj].
    + unfold manifest_at in Hm. rewrite Hjob in Hm. destruct (decide _) as [|Hn]; [by destruct Hm|].
      destruct (H2 job n Hm) as (st & -> & sv & Hsv). exists st. split; [done|]. exists sv. apply drop_lookup.
      split; [done|]. intros [_ Hin]. apply Hn. by apply (list_elem_of_fmap_2 step_name).
    + unfold manifest_at in Hm. rewrite Hold in Hm by done. destruct (H2 j n Hm) as (st & -> & sv & Hsv).
      exists st. split; [done|]. exists sv. apply drop_lookup. split; [done|]. by intros [-> _].
Qed.

Lemma local_prune d a job keep : local_shows d a ->
  exists d', prune job keep d = (d', Ok (Z.of_nat (length (surplus keep (steps_of (saved_of a job)))))) /\
    local_shows d' (shelf_prune a job keep).
Proof.
  intros [Ha Hs]. rewrite prune_surplus, (holds_names _ a) by done. rewrite surplus_map.
  set (steps := surplus keep (steps_of (saved_of a job))). set (l := map step_name steps).
  destruct (remove_all (d_root d) d job l l d 0 ltac:(done)) as (d' & Hrun & [Hw _] & He).
  { split; [by intros ??; left|by exists []]. }
  exists d'. rewrite Hrun. subst l. rewrite length_map. split; [done|]. split; [by apply shelf_drop_ok|].
  apply (holds_drop (d_root d)); [done..|apply surplus_sub|exact He|].
  intros j n Hj. destruct (Hw j n) as [H|(_ & H & _)]; [exact H|contradiction].
Qed.

#[export] Instance local_contract : Contract local_store local_key local_shows.
Proof.
  constructor.
  - intros [s seen] a job step source at_ [Ha Hs] _ Hok. set (sv := mkSaved source at_) in *.
    destruct (put_run root (fun _ => True) s seen job step source at_ I (fun _ _ _ _ => I)
      (no_manifest _ _ _ Hok)) as (d1 & s' & Hrun & _ & Hnew & Hold).
    exists (mkDisk s' (s' :: d_seen d1)). split; [exact Hrun|]. split; [by apply shelf_put_ok|].
    by apply (holds_put s).
  - intros w a job step at_ Hw. exists w. eexists. split; [done|]. split; [by eexists|exact Hw].
  - intros d a job [Ha Hs] _. exists d. split; [|by split]. cbn. f_equal.
    apply latest_is; [by apply (holds_tidy _ a)|by apply holds_newest].
  - intros d a job step sv target [Ha Hs] Hsv. exists d. split; [|by split]. pose proof (Ha _ _ _ Hsv) as Hok.
    cbn [local_store cs_fetch fst snd]. rewrite ref_written.
    rewrite fetch_written; [done|exact (no_manifest _ _ _ Hok)|apply Hok|apply Hok|by apply Hs].
  - intros d a job keep Hd _. by apply local_prune.
Qed.

Lemma local_empty : local_shows (mkDisk ∅ []) ∅.
Proof.
  split; [by intros j s sv|]. split; [by intros j s sv|].
  intros j n H. by destruct H as [raw H].
Qed.

(** C22: a client of the local store cannot tell it from the abstract shelf: any
    sequence of allowed requests, starting from an empty root, is answered as the
    shelf answers it, and the tree ends up holding what the shelf holds. *)
Theorem local_store_refines qs : may_run local_key qs ∅ ->
  exists d, run local_store qs (mkDisk ∅ []) = (d, snd (shelf_run local_key qs ∅)) /\
    local_shows d (fst (shelf_run local_key qs ∅)).
Proof. apply run_simulates; [exact _|apply local_empty]. Qed.
End Local.

Lemma local_store_refines_witness :
  snd (run (local_store "/ck") session (mkDisk ∅ [])) = snd (shelf_run (local_key "/ck") session ∅).
Proof.
  destruct (local_store_refines "/ck" session (session_allowed _)) as (d & H & _). exact (f_equal snd H).
Defined.
