(* ===== verification/S3Store.v ===== *)
(** * checkpoint.py: the store in S3

    The client of boto3 is not in the repository: its four calls are a record
    over a world [W].  They may raise anything; what is known about them is in
    [S3StoreProps].  A body is a text with one character per byte.  The listing
    loop asks for page after page until the service says there is no more;
    [pages] bounds how many are asked for, and [S3StoreProps.manifests_spec]
    shows that a bound above the number of objects is never reached. *)

From Stdlib Require Import Ascii.
From S2P Require Import Prelude PyFloat PyFormat PySort Errors Clock PyJson PyText Checkpoint CheckpointProps CheckpointStore.
Local Open Scope Z_scope.
Local Open Scope py_scope.

Import LocalCheckpointStore.

(** What the code reads of an answer of [list_objects_v2]. *)
Record Page := mkPage { pg_contents : list string; pg_truncated : bool; pg_next : option string }.

Record S3Client (W : Type) := mkS3Client {
  put_object : string -> string -> string -> M W exn unit;
  get_object : string -> string -> M W exn string;
  list_objects_v2 : string -> string -> option string -> M W exn Page;
  delete_object : string -> string -> M W exn unit
}.
Arguments put_object {W}. Arguments get_object {W}. Arguments list_objects_v2 {W}. Arguments delete_object {W}.

(** [s.strip("/")] *)
Fixpoint lstrip_slash (s : string) : string :=
  match s with String c s' => if Ascii.eqb c "/" then lstrip_slash s' else s | EmptyString => "" end.

Fixpoint rstrip_slash (s : string) : string :=
  match s with
  | EmptyString => ""
  | String c s' => let r := rstrip_slash s' in
      match r with EmptyString => if Ascii.eqb c "/" then "" else String c "" | _ => String c r end
  end.

Definition strip_slash (s : string) : string := rstrip_slash (lstrip_slash s).

(** [key.rsplit("/", 2)[-2]] *)
Definition folder_of (key : string) : outcome exn string :=
  match rev (split_char "/" key) with
  | _ :: folder :: _ => Ok folder
  | _ => Raise (IndexError "list index out of range")
  end.

(** [str(v)] and [repr(v)] of what a manifest may list *)
Fixpoint repr_json (v : json) : string :=
  match v with
  | JNull => "None"
  | JBool b => if b then "True" else "False"
  | JInt n => str_of_Z n
  | JFloat x => f_repr x
  | JStr s => "'" +:+ s +:+ "'"
  | JList xs => "[" +:+ String.concat ", " (map repr_json xs) +:+ "]"
  | JDict kvs => "{" +:+ String.concat ", " (map (fun kv => "'" +:+ fst kv +:+ "': " +:+ repr_json (snd kv)) kvs) +:+ "}"
  end.

Definition str_json (v : json) : string := match v with JStr s => s | _ => repr_json v end.

Section S3.
Context {W : Type} (client : S3Client W) (pages : W -> nat) (bucket : string) (prefix : string).

(** [_key(job_id, step, name)], [prefix] being stripped already *)
Definition s3_key (job_id : string) (step : Z) (name : string) : string :=
  let base := prefix +:+ "/" +:+ job_id +:+ "/" +:+ step_name step in
  match name with EmptyString => base | _ => base +:+ "/" +:+ name end.

(** The loop of [put]: the names uploaded so far and their total size. *)
Definition upload (job_id : string) (step : Z) (acc : list string * Z) (f : string * string)
    : M W exn (list string * Z) :=
  put_object client bucket (s3_key job_id step (fst f)) (snd f);;;
  ret (fst acc ++ [fst f], snd acc + Z.of_nat (String.length (snd f))).

(** [put(job_id, step, directory, at)] *)
Definition s3_put (job_id : string) (step : Z) (directory : option Files) (at_ : Z) : M W exn CheckpointRef :=
  match directory with
  | None => raise (CheckpointError "nothing to checkpoint: not a directory")
  | Some source =>
      done_ <- try_catch
        (acc <- foldM (upload job_id step) ([], 0) (rglob source);;
         put_object client bucket (s3_key job_id step MANIFEST) (manifest_body (fst acc) step at_ (snd acc));;;
         ret acc)
        any_exception
        (fun exc => raise (CheckpointError ("could not upload checkpoint " +:+ str_of_Z step +:+ ": " +:+ exn_str exc)));;
      ret (mkCheckpointRef job_id step (s3_key job_id step "") at_
             (map JStr (py_sort str_lt (fst done_))) (snd done_))
  end.

(** The loop of [_manifests(job_id)], [if token] being false of an empty one *)
Fixpoint manifests_from (fuel : nat) (job_id : string) (token : option string) (keys : list string) : M W exn (list string) :=
  match fuel with
  | O => raise (RuntimeError "the listing goes on")
  | S fuel =>
      response <- try_catch
        (list_objects_v2 client bucket (prefix +:+ "/" +:+ job_id +:+ "/")
           (match token with Some (String c t) => Some (String c t) | _ => None end))
        any_exception
        (fun exc => raise (CheckpointError ("could not list checkpoints for " +:+ job_id +:+ ": " +:+ exn_str exc)));;
      let keys := keys ++ List.filter (ends_with MANIFEST) (pg_contents response) in
      if pg_truncated response then manifests_from fuel job_id (pg_next response) keys else ret keys
  end.

Definition manifests (job_id : string) : M W exn (list string) :=
  fun w => manifests_from (pages w) job_id None [] w.

(** The loop of [latest]; an object that cannot be read is passed over. *)
Definition newest_of (job_id : string) (best : option CheckpointRef) (key : string) : M W exn (option CheckpointRef) :=
  body <- try_catch (v <- get_object client bucket key;; ret (Some v)) any_exception (fun _ => ret None);;
  match body with
  | None => ret best
  | Some raw =>
      ref <- lift_outcome (read_manifest job_id (parent_of key) raw);;
      ret (match ref, best with
           | Some r, None => Some r
           | Some r, Some b => if ck_step b <? ck_step r then Some r else Some b
           | None, _ => best
           end)
  end.

(** [latest(job_id)] *)
Definition s3_latest (job_id : string) : M W exn (option CheckpointRef) :=
  keys <- manifests job_id;;
  foldM (newest_of job_id) None keys.

(** [fetch(ref, directory)]; the directory is the second half of the state. *)
Definition s3_restore (ref : CheckpointRef) (_ : unit) (name : json) : M (W * Files) exn unit :=
  fun s =>
    let '(w, target) := s in
    match get_object client bucket (ck_key ref +:+ "/" +:+ str_json name) w with
    | (w', Ok body) =>
        match name with
        | JStr n => ((w', <[n := body]> target), Ok tt)
        | _ => ((w', target), Raise (TypeError "unsupported operand type(s) for /"))
        end
    | (w', Raise exc) =>
        ((w', target), Raise (CheckpointError
           ("checkpoint " +:+ ck_key ref +:+ " is missing " +:+ str_json name +:+ ": " +:+ exn_str exc)))
    end.

Definition s3_fetch (ref : CheckpointRef) : M (W * Files) exn unit := foldM (s3_restore ref) tt (ck_files ref).

(** [prune(job_id, keep)]: one page of each doomed step is deleted. *)
Definition s3_remove (job_id : string) (removed : Z) (name : string) : M W exn Z :=
  response <- list_objects_v2 client bucket (prefix +:+ "/" +:+ job_id +:+ "/" +:+ name +:+ "/") None;;
  foldM (fun _ key => delete_object client bucket key) tt (pg_contents response);;;
  ret (removed + 1).

Definition s3_prune (job_id : string) (keep : Z) : M W exn Z :=
  keys <- manifests job_id;;
  names <- lift_outcome (omapM folder_of keys);;
  let steps := py_sort str_lt (remove_dups names) in
  let doomed := if 0 <? keep then take (length steps - Z.to_nat keep) steps else steps in
  foldM (s3_remove job_id) 0 doomed.

(** [S3CheckpointStore(client, bucket, prefix)], after its [__init__] *)
Definition s3_store : CheckpointStore W :=
  {| cs_put := s3_put; cs_latest := s3_latest; cs_fetch := s3_fetch; cs_prune := s3_prune |}.
End S3.

Definition s3_checkpoint_store {W} (client : S3Client W) (pages : W -> nat) (bucket prefix : string) : CheckpointStore W :=
  s3_store client pages bucket (strip_slash prefix).
