(* ===== verification/S3StoreProps.v ===== *)
(** * The S3 store keeps the contract

    [S3Laws] is what the service documents: an object that was put is there,
    whole or not at all; a listing is the keys under a prefix in order, in pages
    of at most a thousand, each naming the next.  While the service answers
    ([up]) the store keeps the contract; when it stops in the middle of an
    upload of a new step, every checkpoint of before is still served whole. *)

From Stdlib Require Import Ascii Sorted.
From S2P Require Import Prelude PyFormat PySort Errors Clock PyJson PyText Checkpoint CheckpointProps CheckpointStore S3Store.
Local Open Scope Z_scope.
Local Open Scope py_scope.

Import LocalCheckpointStore.

(** ** Keys *)

Abbreviation slash_free s := (no_slash s = true).

Lemma slash_app a x : a +:+ "/" +:+ x = a +:+ String "/" x.
Proof. done. Qed.

Lemma slash_not_free p s : no_slash (p +:+ String "/" s) = false.
Proof.
  induction p as [|c p IH]; [done|]. change (no_slash (String c (p +:+ String "/" s)) = false).
  unfold no_slash in *. cbn. rewrite IH. apply andb_false_r.
Qed.

Lemma slash_inj a b x y : slash_free a -> slash_free b ->
  a +:+ String "/" x = b +:+ String "/" y -> a = b /\ x = y.
Proof.
  revert b. induction a as [|c a IH]; intros [|d b] Ha Hb E.
  - split; [done|]. by injection E.
  - injection E as <- _. cbn in Hb. done.
  - injection E as -> _. cbn in Ha. done.
  - change (String c (a +:+ String "/" x) = String d (b +:+ String "/" y)) in E. injection E as -> E.
    apply andb_true_iff in Ha as [_ Ha], Hb as [_ Hb]. by destruct (IH b Ha Hb E) as [-> ->].
Qed.

Lemma app_cancel p a b : p +:+ a = p +:+ b -> a = b.
Proof. induction p as [|c p IH]; [done|]. intros E. apply IH. by injection E. Qed.

Lemma ends_with_tail suffix p n : slash_free suffix -> ends_with suffix (p +:+ String "/" n) = ends_with suffix n.
Proof.
  intros Hs. assert (Hne : forall q, String.eqb (q +:+ String "/" n) suffix = false).
  { intros q. apply String.eqb_neq. intros E. pose proof (slash_not_free q n) as H. rewrite E in H. congruence. }
  induction p as [|c p IH].
  - pose proof (Hne "") as H. change ("" +:+ String "/" n) with (String "/" n) in H |- *. cbn [ends_with]. by rewrite H.
  - pose proof (Hne (String c p)) as H. change (String c p +:+ String "/" n) with (String c (p +:+ String "/" n)) in H |- *.
    cbn [ends_with]. by rewrite H, IH.
Qed.

Lemma split_nonempty c s : split_char c s <> [].
Proof. destruct s as [|a s]; cbn; [done|]. destruct (Ascii.eqb a c); [done|]. by destruct (split_char c s). Qed.

Lemma split_snoc x n : slash_free n -> split_char "/" (x +:+ String "/" n) = split_char "/" x ++ [n].
Proof.
  intros Hn. induction x as [|a x IH].
  - change ("" +:+ String "/" n) with (String "/" n). cbn. by rewrite split_char_free.
  - change (String a x +:+ String "/" n) with (String a (x +:+ String "/" n)). cbn [split_char]. rewrite IH.
    destruct (Ascii.eqb a "/"); [done|]. pose proof (split_nonempty "/" x) as H. by destruct (split_char "/" x).
Qed.

Lemma concat_split s : String.concat "/" (split_char "/" s) = s.
Proof.
  induction s as [|a s IH]; [done|]. cbn [split_char]. pose proof (split_nonempty "/" s) as Hne.
  destruct (Ascii.eqb_spec a "/") as [->|Ha].
  - destruct (split_char "/" s) as [|p ps]; [done|]. change (String "/" (String.concat "/" (p :: ps)) = String "/" s). by f_equal.
  - destruct (split_char "/" s) as [|p ps]; [done|]. rewrite <- IH. by destruct ps.
Qed.

Lemma parent_of_file x n : slash_free n -> parent_of (x +:+ String "/" n) = x.
Proof.
  intros Hn. unfold parent_of. rewrite split_snoc by done. pose proof (split_nonempty "/" x) as Hne.
  pose proof (concat_split x) as E. destruct (split_char "/" x) as [|p [|q ps]]; [done|exact E|].
  cbn [app]. change (p :: q :: ps ++ [n]) with ((p :: q :: ps) ++ [n]). by rewrite removelast_last.
Qed.

Lemma folder_of_file x f n : slash_free f -> slash_free n -> folder_of ((x +:+ String "/" f) +:+ String "/" n) = Ok f.
Proof. intros Hf Hn. unfold folder_of. by rewrite !split_snoc, !rev_app_distr by done. Qed.

Lemma starts_with_iff p s : starts_with p s = true <-> exists r, s = p +:+ r.
Proof.
  unfold starts_with. rewrite bool_decide_eq_true. split.
  - intros [r H]. exists r. revert s H. induction p as [|a p IH]; intros s; [by intros [= ->]|].
    destruct s as [|b s]; cbn; [done|]. destruct (Ascii.eqb_spec a b) as [->|]; [|done]. intros H. change (String b s = String b (p +:+ r)). f_equal. by apply IH.
  - intros [r ->]. rewrite strip_prefix_app. by exists r.
Qed.

(** ** What the service documents *)

Definition matching (objs : gmap string string) (p : string) : list string :=
  List.filter (starts_with p) (py_sort str_lt (map fst (map_to_list objs))).

(** [objects w b] is what bucket [b] holds; [rest w b p token] are the keys that
    a listing with this token has still to give. *)
Class S3Laws {W : Type} (client : S3Client W) (objects : W -> string -> gmap string string)
    (rest : W -> string -> string -> option string -> list string) (up : W -> Prop) := {
  put_answers w b k v : up w -> exists w', put_object client b k v w = (w', Ok tt) /\ up w';
  put_stores w b k v : match put_object client b k v w with
    | (w', Ok _) => objects w' b = <[k := v]> (objects w b)
    | (w', Raise _) => objects w' b = objects w b \/ objects w' b = <[k := v]> (objects w b)
    end;
  get_answers w b k : up w -> exists w', objects w' b = objects w b /\ up w' /\
    match objects w b !! k with
    | Some v => get_object client b k w = (w', Ok v)
    | None => exists e, get_object client b k w = (w', Raise e)
    end;
  delete_answers w b k : up w -> exists w', delete_object client b k w = (w', Ok tt) /\ up w' /\
    objects w' b = delete k (objects w b);
  rest_start w b p : rest w b p None = matching (objects w b) p;
  list_answers w b p token : up w -> exists w' page more,
    list_objects_v2 client b p token w = (w', Ok page) /\ up w' /\ objects w' b = objects w b /\
    rest w b p token = pg_contents page ++ more /\
    (if pg_truncated page
     then pg_contents page <> [] /\ exists c t, pg_next page = Some (String c t) /\ rest w' b p (Some (String c t)) = more
     else more = []) /\
    ((length (rest w b p token) <= 1000)%nat -> pg_truncated page = false)
}.

Section S3.
Context {W : Type} (client : S3Client W) (pages : W -> nat) (bucket : string) (prefix : string).
Context (objects : W -> string -> gmap string string)
  (rest : W -> string -> string -> option string -> list string) (up : W -> Prop)
  `{Hlaws : !S3Laws client objects rest up}.
Context (enough : forall w, (base.size (objects w bucket) < pages w)%nat).

Abbreviation stored w := (objects w bucket).

Definition base_of (job : string) (step : Z) : string := prefix +:+ "/" +:+ job +:+ "/" +:+ step_name step.
Definition object_key (job : string) (step : Z) (name : string) : string := base_of job step +:+ String "/" name.
Definition job_prefix (job : string) : string := prefix +:+ "/" +:+ job +:+ "/".

Lemma s3_key_name job step n : n <> "" -> s3_key prefix job step n = object_key job step n.
Proof. by destruct n. Qed.

Lemma object_path job step n :
  object_key job step n = prefix +:+ String "/" (job +:+ String "/" (step_name step +:+ String "/" n)).
Proof. unfold object_key, base_of. by rewrite !str_app_assoc. Qed.

Lemma object_in_job job step n : object_key job step n = job_prefix job +:+ step_name step +:+ String "/" n.
Proof. rewrite object_path. unfold job_prefix. by rewrite !str_app_assoc. Qed.

Lemma object_key_inj job step n job' step' n' : slash_free job -> slash_free job' ->
  0 <= step < 10 ^ 12 -> 0 <= step' < 10 ^ 12 ->
  object_key job step n = object_key job' step' n' -> job = job' /\ step = step' /\ n = n'.
Proof.
  intros Hj Hj' Hs Hs'. rewrite !object_path. intros E%app_cancel. injection E as E.
  apply slash_inj in E as [-> E]; [|done..].
  apply slash_inj in E as [E ->]; [|by apply no_slash_step..]. split; [done|]. split; [|done].
  exact (step_name_inj _ _ Hs Hs' E).
Qed.

Lemma job_of_object job job' step n : slash_free job -> slash_free job' ->
  starts_with (job_prefix job) (object_key job' step n) = true -> job = job'.
Proof.
  intros Hj Hj' [r E]%starts_with_iff. rewrite object_path in E. unfold job_prefix in E. rewrite !str_app_assoc in E.
  apply app_cancel in E. injection E as E. by apply slash_inj in E as [-> _].
Qed.

Lemma object_ends job step n : ends_with MANIFEST (object_key job step n) = ends_with MANIFEST n.
Proof. by apply ends_with_tail. Qed.

Definition in_store (k : string) : Prop := exists r, k = prefix +:+ String "/" r.

Lemma object_in_store job step n : in_store (object_key job step n).
Proof. rewrite object_path. by eexists. Qed.

Lemma prefix_in_store job k : starts_with (job_prefix job) k = true -> in_store k.
Proof. intros [r ->]%starts_with_iff. exists (job +:+ String "/" r). unfold job_prefix. by rewrite !str_app_assoc. Qed.

(** ** What a bucket shows *)

Definition file_of (a : Shelf) (job : string) (step : Z) (n body : string) : Prop :=
  exists sv, saved_of a job !! step = Some sv /\ written_files step (sv_files sv) (sv_at sv) !! n = Some body.

(** The manifests under the prefix are those of the shelf. *)
Definition visible (objs : gmap string string) (a : Shelf) : Prop :=
  forall k body, in_store k -> ends_with MANIFEST k = true ->
    objs !! k = Some body <-> exists job step, k = object_key job step MANIFEST /\ file_of a job step MANIFEST body.

(** All the objects under the prefix are. *)
Definition exact (objs : gmap string string) (a : Shelf) : Prop :=
  forall k body, in_store k ->
    objs !! k = Some body <-> exists job step n, k = object_key job step n /\ file_of a job step n body.

(** Every file of every checkpoint is there, whatever else is. *)
Definition intact (objs : gmap string string) (a : Shelf) : Prop :=
  forall job step n body, file_of a job step n body -> objs !! object_key job step n = Some body.

Lemma exact_intact objs a : exact objs a -> intact objs a.
Proof. intros Hx job step n body Hf. apply Hx; [apply object_in_store|]. by exists job, step, n. Qed.

Definition s3_shows (w : W) (a : Shelf) : Prop := up w /\ shelf_ok a /\ exact (stored w) a.

Lemma file_lookup a job step n body : file_of a job step n body ->
  n = MANIFEST \/ exists sv, saved_of a job !! step = Some sv /\ sv_files sv !! n = Some body.
Proof.
  intros (sv & Hsv & H). unfold written_files in H. apply lookup_insert_Some in H as [[<- _]|[_ H]]; [by left|].
  right. by exists sv.
Qed.

Lemma file_name a job step n body : shelf_ok a -> file_of a job step n body ->
  ends_with MANIFEST n = true -> n = MANIFEST.
Proof.
  intros Ha [->|(sv & Hsv & H)]%file_lookup E; [done|].
  destruct (ok_names _ _ _ (Ha _ _ _ Hsv) n ltac:(by exists body)) as [_ H']. congruence.
Qed.

Lemma exact_visible objs a : shelf_ok a -> exact objs a -> visible objs a.
Proof.
  intros Ha Hx k body Hin Hend. rewrite (Hx k body Hin). split.
  - intros (job & step & n & -> & Hf). exists job, step. rewrite object_ends in Hend.
    by rewrite (file_name a job step n body Ha Hf Hend) in Hf |- *.
  - intros (job & step & -> & Hf). by exists job, step, MANIFEST.
Qed.

Lemma file_ok a job step n body : shelf_ok a -> file_of a job step n body -> slash_free job /\ 0 <= step < 10 ^ 12.
Proof. intros Ha (sv & Hsv & _). split; apply (Ha _ _ _ Hsv). Qed.

(** ** Listing *)

Lemma elem_matching objs p k : k ∈ matching objs p <-> is_Some (objs !! k) /\ starts_with p k = true.
Proof.
  unfold matching. rewrite list_elem_of_In, filter_In, <- list_elem_of_In, py_sort_elem, list_elem_of_fmap. split.
  - intros [([k' v] & -> & H) Hp]. split; [|done]. exists v. by apply elem_of_map_to_list in H.
  - intros [[v H] Hp]. split; [|done]. exists (k, v). split; [done|]. by apply elem_of_map_to_list.
Qed.

Lemma matching_nodup objs p : NoDup (matching objs p).
Proof. apply filter_nodup. rewrite (py_sort_perm str_lt). apply NoDup_fst_map_to_list. Qed.

Lemma matching_size objs p : (length (matching objs p) <= base.size objs)%nat.
Proof.
  unfold matching. etransitivity; [apply filter_length_le|]. rewrite (py_sort_perm str_lt), length_map.
  by rewrite length_map_to_list.
Qed.

Lemma manifests_from_spec fuel job token keys w : up w -> token <> Some "" ->
  (length (rest w bucket (job_prefix job) token) < fuel)%nat ->
  exists w', manifests_from client bucket prefix fuel job token keys w
      = (w', Ok (keys ++ List.filter (ends_with MANIFEST) (rest w bucket (job_prefix job) token))) /\
    up w' /\ stored w' = stored w.
Proof.
  revert token keys w. induction fuel as [|fuel IH]; intros token keys w Hup Htok Hlen; [lia|].
  destruct (list_answers w bucket (job_prefix job) token Hup) as (w1 & page & more & Hrun & H1 & Hobj & Hrest & Hnext & _).
  cbn [manifests_from]. unfold bind at 1, try_catch at 1.
  replace (match token with Some (String c t) => Some (String c t) | _ => None end) with token
    by (destruct token as [[|c t]|]; done).
  fold (job_prefix job). rewrite Hrun. rewrite Hrest, List.filter_app, app_assoc.
  destruct (pg_truncated page) eqn:Ht.
  - destruct Hnext as (Hne & c & t & Hc & Hmore). rewrite Hc.
    destruct (IH (Some (String c t)) (keys ++ List.filter (ends_with MANIFEST) (pg_contents page)) w1 H1 ltac:(done))
      as (w2 & Hrun2 & H2 & Hobj2).
    + rewrite Hmore. rewrite Hrest, length_app in Hlen. destruct (pg_contents page); [done|]. cbn in Hlen. lia.
    + rewrite Hmore in Hrun2. exists w2. split; [exact Hrun2|]. split; [done|]. by rewrite Hobj2.
  - subst more. exists w1. cbn. by rewrite app_nil_r.
Qed.

(** The loop ends, with every manifest key of the job. *)
Definition manifest_keys (objs : gmap string string) (job : string) : list string :=
  List.filter (ends_with MANIFEST) (matching objs (job_prefix job)).

Lemma manifests_spec job w : up w ->
  exists w', manifests client pages bucket prefix job w = (w', Ok (manifest_keys (stored w) job)) /\
    up w' /\ stored w' = stored w.
Proof.
  intros Hup. destruct (manifests_from_spec (pages w) job None [] w Hup ltac:(done)) as (w' & Hrun & H).
  { rewrite rest_start. eapply Nat.le_lt_trans; [apply matching_size|apply enough]. }
  exists w'. split; [|done]. unfold manifests. rewrite Hrun, rest_start. done.
Qed.

Lemma elem_manifest_keys objs a job k : shelf_ok a -> visible objs a -> slash_free job ->
  k ∈ manifest_keys objs job <-> exists step, is_Some (saved_of a job !! step) /\ k = object_key job step MANIFEST.
Proof.
  intros Ha Hv Hj. unfold manifest_keys. rewrite list_elem_of_In, filter_In, <- list_elem_of_In, elem_matching. split.
  - intros [[[body Hk] Hp] Hend]. apply (Hv k body (prefix_in_store _ _ Hp) Hend) in Hk as (job' & step & -> & Hf).
    destruct (file_ok _ _ _ _ _ Ha Hf) as [Hj' _]. rewrite (job_of_object job job' _ _ Hj Hj' Hp) in *.
    exists step. split; [|done]. destruct Hf as (sv & Hsv & _). by exists sv.
  - intros (step & [sv Hsv] & ->). split; [split|by rewrite object_ends].
    + exists (manifest_body (map fst (rglob (sv_files sv))) step (sv_at sv) (total_size (rglob (sv_files sv)))).
      apply Hv; [apply object_in_store|by rewrite object_ends|]. exists job, step. split; [done|]. exists sv. split; [done|].
      unfold written_files. by rewrite lookup_insert_eq.
    + apply starts_with_iff. rewrite object_in_job. by eexists.
Qed.

(** ** latest *)

Lemma get_manifest w a job step sv : up w -> shelf_ok a -> visible (stored w) a -> saved_of a job !! step = Some sv ->
  exists w' raw, get_object client bucket (object_key job step MANIFEST) w = (w', Ok raw) /\ up w' /\ stored w' = stored w /\
    read_manifest job (parent_of (object_key job step MANIFEST)) raw = Ok (Some (ref_for (fun j s => s3_key prefix j s "") job step sv)).
Proof.
  intros Hup Ha Hv Hsv. destruct (get_answers w bucket (object_key job step MANIFEST) Hup) as (w' & Hobj & Hup' & Hget).
  set (raw := manifest_body (map fst (rglob (sv_files sv))) step (sv_at sv) (total_size (rglob (sv_files sv)))).
  assert (Hk : stored w !! object_key job step MANIFEST = Some raw).
  { apply Hv; [apply object_in_store|by rewrite object_ends|]. exists job, step. split; [done|]. exists sv. split; [done|].
    unfold written_files. by rewrite lookup_insert_eq. }
  rewrite Hk in Hget. exists w', raw. split_and!; [done..|]. unfold object_key at 1. rewrite parent_of_file by done.
  subst raw. rewrite read_written by apply (ok_at _ _ _ (Ha _ _ _ Hsv)). done.
Qed.

Abbreviation s3_ref := (ref_for (fun j s => s3_key prefix j s "")).

Lemma newest_of_fold a job keys best w : up w -> shelf_ok a -> visible (stored w) a ->
  (forall k, k ∈ keys -> exists step, is_Some (saved_of a job !! step) /\ k = object_key job step MANIFEST) ->
  (forall b, best = Some b -> exists sv, saved_of a job !! ck_step b = Some sv /\ b = s3_ref job (ck_step b) sv) ->
  exists w' o, foldM (newest_of client bucket job) best keys w = (w', Ok o) /\ up w' /\ stored w' = stored w /\
    (forall r, o = Some r -> exists sv, saved_of a job !! ck_step r = Some sv /\ r = s3_ref job (ck_step r) sv) /\
    (forall b, best = Some b -> exists r, o = Some r /\ ck_step b <= ck_step r) /\
    (forall step, is_Some (saved_of a job !! step) -> object_key job step MANIFEST ∈ keys ->
       exists r, o = Some r /\ step <= ck_step r).
Proof.
  intros Hup Ha Hv. revert best w Hup Hv. induction keys as [|k keys IH]; intros best w Hup Hv Hkeys Hb.
  { exists w, best. split_and!; [done..| |by intros step _ ?%not_elem_of_nil]. intros b ->. exists b. by split. }
  destruct (Hkeys k ltac:(left)) as (step & [sv Hsv] & ->).
  destruct (get_manifest w a job step sv Hup Ha Hv Hsv) as (w1 & raw & Hget & H1 & Hobj & Hread).
  set (r0 := s3_ref job step sv) in *.
  set (best' := match best with Some b => if ck_step b <? ck_step r0 then Some r0 else Some b | None => Some r0 end).
  assert (Hb' : exists b', best' = Some b' /\ step <= ck_step b' /\ (forall b, best = Some b -> ck_step b <= ck_step b') /\
    exists sv', saved_of a job !! ck_step b' = Some sv' /\ b' = s3_ref job (ck_step b') sv').
  { subst best'. destruct best as [b|].
    - destruct (Z.ltb_spec (ck_step b) (ck_step r0)) as [Hlt|Hlt]; cbn in Hlt.
      + exists r0. split_and!; [done|cbn; lia|intros ? [= <-]; cbn; lia|by exists sv].
      + exists b. split_and!; [done|lia|intros ? [= <-]; lia|by apply Hb].
    - exists r0. split_and!; [done|cbn; lia|done|by exists sv]. }
  destruct Hb' as (b' & E & Hle & Hbest & Hsv').
  destruct (IH (Some b') w1 H1) as (w2 & o & Hrun & H2 & Hobj2 & Ho1 & Ho2 & Ho3).
  - by rewrite Hobj.
  - intros k' Hk'. apply Hkeys. by right.
  - by intros b [= <-].
  - exists w2, o. destruct (Ho2 b' eq_refl) as (r & -> & Hr). split_and!; [|done|by rewrite Hobj2|done| |].
    + cbn [foldM]. unfold newest_of at 1, bind, try_catch. rewrite Hget. cbn [ret lift_outcome]. rewrite Hread.
      fold best'. rewrite E. exact Hrun.
    + intros b Hbb. exists r. split; [done|]. specialize (Hbest b Hbb). lia.
    + intros step' Hs' [Hk'|Hk']%elem_of_cons; [|by apply Ho3]. exists r. split; [done|].
      destruct Hs' as [sv'' Hs'']. pose proof (Ha _ _ _ Hsv) as K1. pose proof (Ha _ _ _ Hs'') as K2.
      apply object_key_inj in Hk' as (_ & -> & _); [lia|apply K1|apply K1|apply K2|apply K1].
Qed.

Lemma s3_latest_spec w a job : up w -> shelf_ok a -> visible (stored w) a -> slash_free job ->
  exists w', s3_latest client pages bucket prefix job w = (w', Ok (newest_ref (fun j s => s3_key prefix j s "") a job)) /\
    up w' /\ stored w' = stored w.
Proof.
  intros Hup Ha Hv Hj. destruct (manifests_spec job w Hup) as (w1 & Hrun1 & H1 & Hobj1).
  destruct (newest_of_fold a job (manifest_keys (stored w) job) None w1 H1 Ha) as (w2 & o & Hrun2 & H2 & Hobj2 & Ho1 & _ & Ho3).
  - by rewrite Hobj1.
  - intros k Hk. by apply (elem_manifest_keys (stored w) a).
  - done.
  - exists w2. unfold s3_latest, bind. rewrite Hrun1, Hrun2. split_and!; [|done|by rewrite Hobj2]. f_equal. f_equal.
    unfold newest_ref. pose proof (newest_saved_spec (saved_of a job)) as Hn.
    destruct (newest_saved _) as [[step sv]|]; cbn [fmap option_fmap option_map fst snd].
    + destruct Hn as [Hsv Hmax]. destruct (Ho3 step) as (r & -> & Hle); [by exists sv| |].
      { apply (elem_manifest_keys (stored w) a); [done..|]. exists step. split; [by exists sv|done]. }
      destruct (Ho1 r eq_refl) as (sv' & Hsv' & Er). pose proof (Hmax (ck_step r) ltac:(by exists sv')).
      assert (Es : ck_step r = step) by lia. rewrite Er. rewrite Es in Hsv' |- *. congruence.
    + destruct o as [r|]; [|done]. destruct (Ho1 r eq_refl) as (sv' & Hsv' & _). congruence.
Qed.

(** ** put *)

Lemma upload_names job step fl names total w : up w -> Forall (fun f => fst f <> "") fl ->
  exists w', foldM (upload client bucket prefix job step) (names, total) fl w
      = (w', Ok (names ++ map fst fl, total + total_size fl)) /\ up w' /\
    stored w' = foldl (fun o f => <[object_key job step (fst f) := snd f]> o) (stored w) fl.
Proof.
  intros Hup Hne. revert names total w Hup. induction Hne as [|[n body] fl Hn _ IH]; intros names total w Hup.
  { exists w. cbn. unfold ret. by rewrite app_nil_r, Z.add_0_r. }
  destruct (put_answers w bucket (object_key job step n) body Hup) as (w1 & Hput & H1).
  pose proof (put_stores w bucket (object_key job step n) body) as Hobj. rewrite Hput in Hobj.
  destruct (IH (names ++ [n]) (total + Z.of_nat (String.length body)) w1 H1) as (w2 & Hrun & H2 & Hobj2).
  exists w2. cbn [foldM]. unfold upload at 1, bind. cbn [fst snd]. rewrite s3_key_name, Hput by done.
  unfold ret at 1. rewrite Hrun. split_and!; [|done|by rewrite Hobj2, Hobj].
  cbn [map fst snd]. unfold total_size. rewrite zsum_cons, <- app_assoc. cbn [app snd]. do 3 f_equal. lia.
Qed.

#[local] Instance object_key_inj_name job step : Inj (=) (=) (object_key job step).
Proof. intros n n' E. unfold object_key in E. apply app_cancel in E. by injection E. Qed.

(** The objects of one step, over what was there. *)
Definition with_files (job : string) (step : Z) (files : Files) (objs : gmap string string) : gmap string string :=
  (kmap (object_key job step) files : gmap string string) ∪ objs.

Lemma with_insert job step n body files objs :
  <[object_key job step n := body]> (with_files job step files objs) = with_files job step (<[n := body]> files) objs.
Proof. unfold with_files. rewrite kmap_insert by apply _. by rewrite insert_union_l. Qed.

Lemma uploaded_files job step source objs :
  foldl (fun o f => <[object_key job step (fst f) := snd f]> o) objs (rglob source) = with_files job step source objs.
Proof.
  rewrite <- (copied_rglob source) at 2. generalize (rglob source). intros fl.
  induction fl as [|[n body] fl IH] using rev_ind.
  - unfold with_files, copied, no_files. cbn. by rewrite kmap_empty, (left_id_L ∅ (∪)).
  - rewrite foldl_app, IH. unfold copied. rewrite foldl_app. cbn. by rewrite with_insert.
Qed.

Lemma with_files_lookup job step files objs k body : with_files job step files objs !! k = Some body <->
  (exists n, k = object_key job step n /\ files !! n = Some body) \/
  ((forall n, is_Some (files !! n) -> k <> object_key job step n) /\ objs !! k = Some body).
Proof.
  unfold with_files. rewrite lookup_union_Some_raw, (lookup_kmap_Some (object_key job step)), (lookup_kmap_None (object_key job step)).
  split; (intros [H|[H1 H2]]; [by left|right; split; [|done]]).
  - intros n [v Hv] ->. by rewrite (H1 n eq_refl) in Hv.
  - intros n ->. apply eq_None_not_Some. intros Hn. by apply (H1 n Hn).
Qed.

Lemma file_put a job step sv j s n body : saved_of a job !! step = None ->
  file_of (shelf_put a job step sv) j s n body <->
  (j = job /\ s = step /\ written_files step (sv_files sv) (sv_at sv) !! n = Some body) \/ file_of a j s n body.
Proof.
  intros Hfresh. unfold file_of. setoid_rewrite put_lookup. split.
  - intros (sv' & [(-> & -> & ->)|[_ H]] & Hf); [by left|right; by exists sv'].
  - intros [(-> & -> & Hf)|(sv' & Hsv & Hf)]; [exists sv; split; [by left|done]|].
    exists sv'. split; [|done]. right. split; [|done]. intros [-> ->]%pair_equal_spec. congruence.
Qed.

Lemma exact_put objs a job step sv : exact objs a -> shelf_ok a -> saved_ok job step sv -> saved_of a job !! step = None ->
  exact (with_files job step (written_files step (sv_files sv) (sv_at sv)) objs) (shelf_put a job step sv).
Proof.
  intros Hx Ha Hok Hfresh k body Hin. rewrite with_files_lookup. setoid_rewrite (file_put a job step sv); [|done]. split.
  - intros [(n & -> & Hf)|[_ H]]; [exists job, step, n; split; [done|by left]|].
    apply Hx in H as (j & s & n & -> & Hf); [|done]. exists j, s, n. split; [done|by right].
  - intros (j & s & n & -> & [(-> & -> & Hf)|Hf]); [left; by exists n|]. right. split.
    + intros n' _ E. destruct (file_ok _ _ _ _ _ Ha Hf) as [Hj Hs].
      apply object_key_inj in E as (-> & -> & ->); [|done|apply Hok|done|apply Hok].
      destruct Hf as (sv' & Hsv & _). congruence.
    + apply Hx; [done|]. by exists j, s, n.
Qed.

Lemma rglob_names job step sv : saved_ok job step sv ->
  Forall (fun f => fst f <> "" /\ ends_with MANIFEST (fst f) = false) (rglob (sv_files sv)).
Proof.
  intros Hok. apply Forall_forall. intros [n body] H. unfold rglob in H. apply py_sort_elem, elem_of_map_to_list in H.
  apply (ok_names _ _ _ Hok). by exists body.
Qed.

Lemma s3_put_spec w a job step source at_ : s3_shows w a -> saved_of a job !! step = None ->
  saved_ok job step (mkSaved source at_) ->
  exists w', s3_put client bucket prefix job step (Some source) at_ w = (w', Ok (s3_ref job step (mkSaved source at_))) /\
    s3_shows w' (shelf_put a job step (mkSaved source at_)).
Proof.
  intros (Hup & Ha & Hx) Hfresh Hok.
  destruct (upload_names job step (rglob source) [] 0 w Hup) as (w1 & Hrun & H1 & Hobj1).
  { eapply Forall_impl; [apply (rglob_names _ _ _ Hok)|]. by intros f [H _]. }
  set (body := manifest_body ([] ++ map fst (rglob source)) step at_ (0 + total_size (rglob source))).
  destruct (put_answers w1 bucket (object_key job step MANIFEST) body H1) as (w2 & Hput & H2).
  pose proof (put_stores w1 bucket (object_key job step MANIFEST) body) as Hobj2. rewrite Hput in Hobj2.
  exists w2. split.
  - unfold s3_put, bind, try_catch. rewrite Hrun. cbn [fst snd]. rewrite s3_key_name by done. fold body. by rewrite Hput.
  - split; [done|]. split; [by apply shelf_put_ok|]. rewrite Hobj2, Hobj1, uploaded_files, with_insert.
    exact (exact_put (stored w) a job step (mkSaved source at_) Hx Ha Hok Hfresh).
Qed.

(** ** fetch *)

Lemma s3_restore_all a job step sv names target w : up w -> intact (stored w) a -> shelf_ok a ->
  saved_of a job !! step = Some sv -> (forall n, n ∈ names -> is_Some (sv_files sv !! n)) ->
  exists w' t', foldM (s3_restore client bucket (s3_ref job step sv)) tt (map JStr names) (w, target) = ((w', t'), Ok tt) /\
    up w' /\ stored w' = stored w /\ forall k, t' !! k = if decide (k ∈ names) then sv_files sv !! k else target !! k.
Proof.
  intros Hup Hx Ha Hsv. revert target w Hup Hx. induction names as [|n names IH]; intros target w Hup Hx Hn.
  { exists w, target. split_and!; try done. }
  destruct (Hn n ltac:(left)) as [body Hb].
  destruct (get_answers w bucket (object_key job step n) Hup) as (w1 & Hobj & H1 & Hget).
  assert (Hk : stored w !! object_key job step n = Some body).
  { apply Hx. exists sv. split; [done|]. unfold written_files. rewrite lookup_insert_ne; [done|]. intros <-.
    by rewrite (no_manifest _ _ _ (Ha _ _ _ Hsv)) in Hb. }
  rewrite Hk in Hget.
  destruct (IH (<[n := body]> target) w1 H1) as (w2 & t2 & Hrun & H2 & Hobj2 & Ht2); [by rewrite Hobj|intros; apply Hn; by right|].
  exists w2, t2. split_and!; [|done|by rewrite Hobj2|].
  - cbn [map foldM]. unfold bind, s3_restore at 1.
    change (ck_key (s3_ref job step sv) +:+ "/" +:+ str_json (JStr n)) with (object_key job step n). by rewrite Hget.
  - intros k. rewrite Ht2. destruct (decide (k ∈ names)) as [Hin|Hin].
    + by rewrite decide_True by (by right).
    + destruct (decide (k = n)) as [->|Hkn].
      * by rewrite lookup_insert_eq, decide_True by left.
      * rewrite lookup_insert_ne, decide_False by (congruence || by intros [->|?]%elem_of_cons). done.
Qed.

Lemma fetch_intact w a job step sv target : up w -> shelf_ok a -> intact (stored w) a -> saved_of a job !! step = Some sv ->
  exists w', s3_fetch client bucket (s3_ref job step sv) (w, target) = ((w', sv_files sv ∪ target), Ok tt) /\
    up w' /\ stored w' = stored w.
Proof.
  intros Hup Ha Hx Hsv.
  destruct (s3_restore_all a job step sv (py_sort str_lt (map fst (rglob (sv_files sv)))) target w Hup Hx Ha Hsv)
    as (w' & t' & Hrun & H' & Hobj & Ht'); [by intros n ?%listed_names|].
  exists w'. split; [|by split]. rewrite <- (restored_union _ _ _ Ht'). exact Hrun.
Qed.

Lemma s3_fetch_spec w a job step sv target : s3_shows w a -> saved_of a job !! step = Some sv ->
  exists w', s3_fetch client bucket (s3_ref job step sv) (w, target) = ((w', sv_files sv ∪ target), Ok tt) /\ s3_shows w' a.
Proof.
  intros (Hup & Ha & Hx) Hsv.
  destruct (fetch_intact w a job step sv target Hup Ha (exact_intact _ _ Hx) Hsv) as (w' & Hrun & H' & Hobj).
  exists w'. split; [exact Hrun|]. split; [done|]. by rewrite Hobj.
Qed.

(** ** prune *)

Lemma delete_all keys w : up w ->
  exists w', foldM (fun _ k => delete_object client bucket k) tt keys w = (w', Ok tt) /\ up w' /\
    forall k, stored w' !! k = if decide (k ∈ keys) then None else stored w !! k.
Proof.
  revert w. induction keys as [|key keys IH]; intros w Hup.
  { exists w. split_and!; try done. }
  destruct (delete_answers w bucket key Hup) as (w1 & Hdel & H1 & Hobj). destruct (IH w1 H1) as (w2 & Hrun & H2 & Hk).
  exists w2. split_and!; [|done|].
  - cbn [foldM]. unfold bind at 1. by rewrite Hdel.
  - intros k. rewrite Hk, Hobj. destruct (decide (k ∈ keys)).
    + by rewrite decide_True by (by right).
    + destruct (decide (k = key)) as [->|Hne].
      * by rewrite lookup_delete_eq, decide_True by left.
      * rewrite lookup_delete_ne, decide_False by (congruence || by intros [->|?]%elem_of_cons). done.
Qed.

Definition step_prefix (job : string) (step : Z) : string := prefix +:+ "/" +:+ job +:+ "/" +:+ step_name step +:+ "/".

Lemma in_step job step k : starts_with (step_prefix job step) k = true <-> exists n, k = object_key job step n.
Proof.
  rewrite starts_with_iff. unfold step_prefix, object_key, base_of. split; intros [n ->]; exists n; by rewrite !str_app_assoc.
Qed.

(** The objects of a step are those of its files. *)
Lemma step_objects objs a job step k : exact objs a -> shelf_ok a -> slash_free job -> 0 <= step < 10 ^ 12 ->
  k ∈ matching objs (step_prefix job step) <->
  exists n body, k = object_key job step n /\ file_of a job step n body.
Proof.
  intros Hx Ha Hj Hs. rewrite elem_matching. split.
  - intros [[body Hk] [n ->]%in_step]. apply Hx in Hk as (j & s & n' & E & Hf); [|apply object_in_store].
    destruct (file_ok _ _ _ _ _ Ha Hf) as [Hj' Hs'].
    apply object_key_inj in E as (<- & <- & <-); [|done..]. by exists n, body.
  - intros (n & body & -> & Hf). split; [|apply in_step; by exists n]. exists body. apply Hx; [apply object_in_store|].
    by exists job, step, n.
Qed.

Lemma step_objects_few objs a job step : exact objs a -> shelf_ok a -> slash_free job -> 0 <= step < 10 ^ 12 ->
  (length (matching objs (step_prefix job step)) <= 1000)%nat.
Proof.
  intros Hx Ha Hj Hs. destruct (saved_of a job !! step) as [sv|] eqn:Hsv.
  - set (files := written_files step (sv_files sv) (sv_at sv)).
    assert (Hsize : (base.size files <= 1000)%nat).
    { pose proof (ok_size _ _ _ (Ha _ _ _ Hsv)) as H. subst files. unfold written_files.
      rewrite map_size_insert. case_match; unfold id; lia. }
    rewrite <- (length_map_to_list files), <- (length_map (fun f => object_key job step (fst f))) in Hsize.
    etransitivity; [|exact Hsize]. apply submseteq_length, NoDup_submseteq; [apply matching_nodup|].
    intros k (n & body & -> & (sv' & Hsv' & Hf))%(step_objects objs a); [|done..].
    apply list_elem_of_fmap. exists (n, body). split; [done|]. apply elem_of_map_to_list.
    rewrite Hsv in Hsv'. injection Hsv' as <-. exact Hf.
  - replace (matching objs (step_prefix job step)) with (@nil string); [cbn; lia|].
    symmetry. apply elem_of_nil_inv. intros k (n & body & -> & (sv' & Hsv' & Hf))%(step_objects objs a); [|done..]. congruence.
Qed.

Lemma exact_drop objs objs' a job step : exact objs a -> shelf_ok a -> slash_free job -> 0 <= step < 10 ^ 12 ->
  (forall k, objs' !! k = if decide (k ∈ matching objs (step_prefix job step)) then None else objs !! k) ->
  exact objs' (shelf_drop a job [step]).
Proof.
  intros Hx Ha Hj Hs Hobjs k body Hin. rewrite Hobjs. unfold file_of at 1. setoid_rewrite drop_lookup. split.
  - destruct (decide _) as [|Hk]; [done|]. intros H. pose proof (proj1 (Hx k body Hin) H) as (j & s & n & -> & Hf).
    exists j, s, n. split; [done|]. destruct Hf as (sv & Hsv & Hf). exists sv. split; [|done]. split; [done|].
    intros [-> ->%list_elem_of_singleton]. apply Hk. apply (step_objects objs a); [done..|]. exists n, body. split; [done|].
    by exists sv.
  - intros (j & s & n & -> & (sv & [Hsv Hno] & Hf)). rewrite decide_False.
    + apply Hx; [done|]. exists j, s, n. split; [done|]. by exists sv.
    + intros (n' & body' & E & _)%(step_objects objs a); [|done..]. apply Hno.
      apply object_key_inj in E as (-> & -> & _); [by rewrite list_elem_of_singleton|apply (Ha _ _ _ Hsv)|done|apply (Ha _ _ _ Hsv)|done].
Qed.

Lemma exact_ext objs a a' : exact objs a -> (forall j s sv, saved_of a j !! s = Some sv <-> saved_of a' j !! s = Some sv) ->
  exact objs a'.
Proof. intros Hx E k body Hin. rewrite (Hx k body Hin). unfold file_of. by setoid_rewrite E. Qed.

Lemma remove_steps job steps n w a : s3_shows w a -> slash_free job -> (forall s, s ∈ steps -> 0 <= s < 10 ^ 12) ->
  exists w', foldM (s3_remove client bucket prefix job) n (map step_name steps) w
      = (w', Ok (n + Z.of_nat (length steps))) /\ s3_shows w' (shelf_drop a job steps).
Proof.
  intros Hw Hj. revert n w a Hw. induction steps as [|s steps IH]; intros n w a (Hup & Ha & Hx) Hs.
  { exists w. cbn. unfold ret. rewrite Z.add_0_r. split; [done|]. split; [done|]. split; [by apply shelf_drop_ok|].
    apply (exact_ext _ a); [done|]. intros j s sv. rewrite drop_lookup. split; [|by intros [H _]].
    intros H. split; [done|]. by intros [_ ?%not_elem_of_nil]. }
  assert (Hs0 : 0 <= s < 10 ^ 12) by (apply Hs; left).
  destruct (list_answers w bucket (step_prefix job s) None Hup) as (w1 & page & more & Hlist & H1 & Hobj1 & Hrest & Hnext & Hfew).
  rewrite rest_start in Hrest, Hfew. specialize (Hfew (step_objects_few _ a job s Hx Ha Hj Hs0)). rewrite Hfew in Hnext. subst more.
  rewrite app_nil_r in Hrest. destruct (delete_all (pg_contents page) w1 H1) as (w2 & Hdel & H2 & Hk).
  rewrite <- Hrest in Hk. rewrite Hobj1 in Hk.
  destruct (IH (n + 1) w2 (shelf_drop a job [s])) as (w3 & Hrun & H3 & Ha3 & Hx3).
  - split; [done|]. split; [by apply shelf_drop_ok|]. exact (exact_drop _ _ a job s Hx Ha Hj Hs0 Hk).
  - intros s' Hs'. apply Hs. by right.
  - exists w3. split.
    + cbn [map foldM]. unfold s3_remove at 1, bind. fold (step_prefix job s). rewrite Hlist, Hdel. cbn [ret]. rewrite Hrun.
      do 2 f_equal. cbn [length]. lia.
    + split; [done|]. split; [by apply shelf_drop_ok|]. apply (exact_ext _ _ _ Hx3). intros j s' sv. rewrite !drop_lookup, list_elem_of_singleton, elem_of_cons. tauto.
Qed.

Lemma omapM_all {A B} (f : A -> outcome exn B) xs : (forall x, x ∈ xs -> exists y, f x = Ok y) ->
  exists ys, omapM f xs = Ok ys /\ forall y, y ∈ ys <-> exists x, x ∈ xs /\ f x = Ok y.
Proof.
  induction xs as [|x xs IH]; intros H.
  { exists []. split; [done|]. intros y. split; [by intros ?%not_elem_of_nil|by intros (x & ?%not_elem_of_nil & _)]. }
  destruct (H x ltac:(left)) as [y Hy]. destruct IH as (ys & Hrun & Hys); [intros; apply H; by right|].
  exists (y :: ys). cbn. rewrite Hy. cbn. rewrite Hrun. split; [done|]. intros z. rewrite elem_of_cons, Hys. split.
  - intros [->|(x' & Hx & Hf)]; [exists x; split; [left|done]|exists x'; split; [by right|done]].
  - intros (x' & [->|Hx]%elem_of_cons & Hf); [left; congruence|right; by exists x'].
Qed.

Lemma folder_of_manifest job step : 0 <= step < 10 ^ 12 ->
  folder_of (object_key job step MANIFEST) = Ok (step_name step).
Proof.
  intros Hs. unfold object_key, base_of. 
  replace (prefix +:+ "/" +:+ job +:+ "/" +:+ step_name step) with ((prefix +:+ "/" +:+ job) +:+ String "/" (step_name step))
    by (by rewrite !str_app_assoc).
  apply folder_of_file; [by apply no_slash_step|done].
Qed.

Lemma s3_prune_spec w a job keep : s3_shows w a -> slash_free job ->
  exists w', s3_prune client pages bucket prefix job keep w
      = (w', Ok (Z.of_nat (length (surplus keep (steps_of (saved_of a job)))))) /\ s3_shows w' (shelf_prune a job keep).
Proof.
  intros (Hup & Ha & Hx) Hj. pose proof (exact_visible _ _ Ha Hx) as Hv.
  destruct (manifests_spec job w Hup) as (w1 & Hrun1 & H1 & Hobj1).
  pose proof (fun k => elem_manifest_keys (stored w) a job k Ha Hv Hj) as Hkeys.
  destruct (omapM_all folder_of (manifest_keys (stored w) job)) as (names & Hnames & Helem).
  { intros k (step & Hs & ->)%Hkeys. exists (step_name step). apply folder_of_manifest. by apply (saved_range a job Ha). }
  assert (E : py_sort str_lt (remove_dups names) = map step_name (steps_of (saved_of a job))).
  { apply names_are_steps; [by apply saved_range|rewrite (py_sort_perm str_lt); apply NoDup_remove_dups|apply (py_sort_sorted str_lt)|].
    intros n. rewrite py_sort_elem, elem_of_remove_dups, Helem. split.
    - intros (k & (step & Hs & ->)%Hkeys & Hf). exists step. rewrite folder_of_manifest in Hf by (by apply (saved_range a job Ha)).
      split; [by injection Hf|done].
    - intros (step & -> & Hs). exists (object_key job step MANIFEST). split; [apply Hkeys; by exists step|].
      apply folder_of_manifest. by apply (saved_range a job Ha). }
  destruct (remove_steps job (surplus keep (steps_of (saved_of a job))) 0 w1 a) as (w2 & Hrun2 & Hw2); [|done| |].
  - split; [done|]. split; [done|]. by rewrite Hobj1.
  - intros s Hs%surplus_sub%elem_steps. by apply (saved_range a job Ha).
  - exists w2. split; [|exact Hw2]. unfold s3_prune, bind. rewrite Hrun1, Hnames. cbn [lift_outcome]. rewrite E.
    change (if 0 <? keep then take ?n ?l else ?l) with (surplus keep l). rewrite surplus_map. exact Hrun2.
Qed.

#[export] Instance s3_contract :
  Contract (s3_store client pages bucket prefix) (fun j s => s3_key prefix j s "") s3_shows.
Proof.
  constructor.
  - exact s3_put_spec.
  - intros w a job step at_ Hw. exists w. eexists. split; [done|]. split; [by eexists|exact Hw].
  - intros w a job (Hup & Ha & Hx) Hj.
    destruct (s3_latest_spec w a job Hup Ha (exact_visible _ _ Ha Hx) Hj) as (w' & Hrun & H' & Hobj).
    exists w'. split; [exact Hrun|]. split; [done|]. split; [done|]. by rewrite Hobj.
  - exact s3_fetch_spec.
  - exact s3_prune_spec.
Qed.

(** ** When the service stops answering *)

(** Once the service is back and holds what it holds in [w], a client gets the
    checkpoints of [a]: the newest of every job, and all the files of each. *)
Definition serves (w : W) (a : Shelf) : Prop := forall w2, up w2 -> stored w2 = stored w ->
  (forall j, slash_free j -> snd (s3_latest client pages bucket prefix j w2) = Ok (newest_ref (fun j s => s3_key prefix j s "") a j)) /\
  (forall j step sv, saved_of a j !! step = Some sv ->
     exists w3, s3_fetch client bucket (s3_ref j step sv) (w2, no_files) = ((w3, sv_files sv), Ok tt)).

(** The manifests are those of the checkpoints, and these are complete. *)
Definition complete (objs : gmap string string) (a : Shelf) : Prop := visible objs a /\ intact objs a.

Lemma complete_serves w a : shelf_ok a -> complete (stored w) a -> serves w a.
Proof.
  intros Ha [Hv Hi] w2 Hup E. rewrite <- E in Hv, Hi. split.
  - intros j Hj. by destruct (s3_latest_spec w2 a j Hup Ha Hv Hj) as (w' & -> & _).
  - intros j step sv Hsv. destruct (fetch_intact w2 a j step sv no_files Hup Ha Hi Hsv) as (w' & H & _).
    exists w'. rewrite H. unfold no_files. by rewrite (right_id_L ∅ (∪)).
Qed.

Lemma intact_insert objs a job step n body : intact objs a -> shelf_ok a -> slash_free job -> 0 <= step < 10 ^ 12 ->
  saved_of a job !! step = None -> intact (<[object_key job step n := body]> objs) a.
Proof.
  intros Hi Ha Hj Hs Hfresh j s n' b Hf. rewrite lookup_insert_ne; [by apply Hi|]. intros E.
  destruct (file_ok _ _ _ _ _ Ha Hf) as [Hj' Hs']. apply object_key_inj in E as (-> & -> & _); [|done..].
  destruct Hf as (sv & Hsv & _). congruence.
Qed.

Lemma intact_put objs a job step sv : intact objs a -> shelf_ok a -> saved_ok job step sv -> saved_of a job !! step = None ->
  intact (with_files job step (written_files step (sv_files sv) (sv_at sv)) objs) (shelf_put a job step sv).
Proof.
  intros Hi Ha Hok Hfresh j s n body Hf. apply with_files_lookup. apply file_put in Hf as [(-> & -> & Hf)|Hf]; [left; by exists n| |done].
  right. split; [|by apply Hi]. intros n' _ E. destruct (file_ok _ _ _ _ _ Ha Hf) as [Hj' Hs'].
  apply object_key_inj in E as (-> & -> & _); [|done|apply Hok|done|apply Hok]. destruct Hf as (sv' & Hsv & _). congruence.
Qed.

Lemma visible_insert objs a job step n body : visible objs a -> ends_with MANIFEST n = false ->
  visible (<[object_key job step n := body]> objs) a.
Proof.
  intros Hv Hn k b Hin Hend. rewrite lookup_insert_ne; [by apply Hv|]. intros <-. rewrite object_ends in Hend. congruence.
Qed.

Lemma visible_put objs a job step sv : visible objs a -> shelf_ok a -> saved_ok job step sv -> saved_of a job !! step = None ->
  visible (<[object_key job step MANIFEST :=
    manifest_body (map fst (rglob (sv_files sv))) step (sv_at sv) (total_size (rglob (sv_files sv)))]> objs) (shelf_put a job step sv).
Proof.
  intros Hv Ha Hok Hfresh k body Hin Hend. setoid_rewrite (file_put a job step sv); [|done].
  unfold written_files. rewrite !lookup_insert_eq, lookup_insert_Some. split.
  - intros [[<- <-]|[_ H]]; [exists job, step; split; [done|by left]|].
    apply Hv in H as (j & s & -> & Hf); [|done..]. exists j, s. split; [done|by right].
  - intros (j & s & -> & [(-> & -> & [= <-])|Hf]); [by left|]. right. split.
    + intros E. destruct (file_ok _ _ _ _ _ Ha Hf) as [Hj Hs].
      apply object_key_inj in E as (-> & -> & _); [|apply Hok|done|apply Hok|done]. destruct Hf as (sv' & Hsv & _). congruence.
    + apply Hv; [done..|]. by exists j, s.
Qed.

Lemma upload_complete a job step fl acc objs :
  shelf_ok a -> slash_free job -> 0 <= step < 10 ^ 12 -> saved_of a job !! step = None ->
  Forall (fun f => fst f <> "" /\ ends_with MANIFEST (fst f) = false) fl ->
  triple (fun w => complete (stored w) a /\ stored w = objs) (foldM (upload client bucket prefix job step) acc fl)
    (fun acc' w => complete (stored w) a /\ stored w = foldl (fun o f => <[object_key job step (fst f) := snd f]> o) objs fl /\
       acc' = (fst acc ++ map fst fl, snd acc + total_size fl))
    (fun _ w => complete (stored w) a).
Proof.
  intros Ha Hj Hs Hfresh Hfl. revert acc objs. induction Hfl as [|[n body] fl [Hn Hend] _ IH]; intros [names total] objs.
  { apply triple_ret. intros w [Hw <-]. split_and!; [exact Hw|done|]. cbn. by rewrite app_nil_r, Z.add_0_r. }
  assert (Hins : forall o, complete o a -> complete (<[object_key job step n := body]> o) a).
  { intros o [Hv Hi]. split; [by apply visible_insert|by apply intact_insert]. }
  cbn [foldM]. eapply triple_bind with (Q' := fun acc' w => complete (stored w) a /\
    stored w = <[object_key job step n := body]> objs /\ acc' = (names ++ [n], total + Z.of_nat (String.length body))).
  - intros w [Hw <-]. unfold upload, bind. cbn [fst snd]. rewrite s3_key_name by done.
    pose proof (put_stores w bucket (object_key job step n) body) as H. destruct (put_object _ _ _ _ w) as [w' [[]|e]].
    + cbn. rewrite H. split_and!; [by apply Hins|done..].
    + destruct H as [->| ->]; [done|by apply Hins].
  - intros acc' w (Hw & Eo & ->).
    specialize (IH (names ++ [n], total + Z.of_nat (String.length body)) _ w (conj Hw Eo)).
    destruct (foldM _ _ fl w) as [w' [acc|e]]; [|done]. destruct IH as (Hw' & Eo' & ->). split_and!; [done|exact Eo'|].
    cbn [map fst snd]. unfold total_size. rewrite zsum_cons, <- app_assoc, Z.add_assoc. done.
Qed.

(** C23: whatever the service does during the upload of a step that was not saved
    before, every checkpoint a job can resume from stays complete: when [put] raises,
    it raises a [CheckpointError], and what is served is the checkpoints of before, or,
    if the manifest got through all the same, those and the new one, whole; when it
    returns, the new one is served whole with the others. *)
Theorem s3_upload_interrupted w a job step source at_ :
  shelf_ok a -> complete (stored w) a -> saved_of a job !! step = None -> saved_ok job step (mkSaved source at_) ->
  let a' := shelf_put a job step (mkSaved source at_) in
  match s3_put client bucket prefix job step (Some source) at_ w with
  | (w', Ok ref) => ref = s3_ref job step (mkSaved source at_) /\ serves w' a'
  | (w', Raise e) => is_checkpoint_error e /\ (serves w' a \/ serves w' a')
  end.
Proof.
  intros Ha Hc Hfresh Hok a'. assert (Ha' : shelf_ok a') by (by apply shelf_put_ok).
  unfold s3_put, bind, try_catch. pose proof (upload_complete a job step (rglob source) ([], 0) (stored w)
    Ha (ok_job _ _ _ Hok) (ok_step _ _ _ Hok) Hfresh (rglob_names _ _ _ Hok) w (conj Hc eq_refl)) as H.
  destruct (foldM _ _ (rglob source) w) as [w1 [acc|e]]; cbn [any_exception].
  - destruct H as (Hc1 & Eo & ->). cbn [fst snd app]. rewrite s3_key_name, Z.add_0_l by done.
    set (body := manifest_body _ _ _ _) in *.
    assert (Hc2 : complete (<[object_key job step MANIFEST := body]> (stored w1)) a').
    { split; [exact (visible_put (stored w1) a job step _ (proj1 Hc1) Ha Hok Hfresh)|].
      rewrite Eo, uploaded_files, with_insert. exact (intact_put _ a job step _ (proj2 Hc) Ha Hok Hfresh). }
    pose proof (put_stores w1 bucket (object_key job step MANIFEST) body) as Hput.
    destruct (put_object _ _ _ body w1) as [w2 [[]|e]]; cbn.
    + split; [done|]. apply complete_serves; [done|]. by rewrite Hput.
    + split; [by eexists|]. destruct Hput as [E|E]; [left|right]; (apply complete_serves; [done|]; by rewrite E).
  - split; [by eexists|]. left. by apply complete_serves.
Qed.

Lemma s3_empty w : up w -> stored w = ∅ -> s3_shows w ∅.
Proof.
  intros Hup E. split; [done|]. split; [by intros j s sv|]. intros k body _. rewrite E. split; [done|].
  intros (j & s & n & _ & (sv & H & _)). done.
Qed.

(** C21: a client of the S3 store cannot tell it from the abstract shelf, as
    long as the service answers: any sequence of allowed requests, starting from
    an empty bucket, is answered as the shelf answers it, and the bucket ends up
    holding exactly the objects of the shelf. *)
Theorem s3_store_refines qs w : up w -> stored w = ∅ -> may_run (fun j s => s3_key prefix j s "") qs ∅ ->
  exists w', run (s3_store client pages bucket prefix) qs w
      = (w', snd (shelf_run (fun j s => s3_key prefix j s "") qs ∅)) /\
    s3_shows w' (fst (shelf_run (fun j s => s3_key prefix j s "") qs ∅)).
Proof. intros Hup E. apply run_simulates; [exact _|by apply s3_empty]. Qed.
End S3.

(** ** A service in memory

    It answers a given number of calls, or all; a token is as long as the number
    of keys already listed. *)

Record Memory := mkMemory { mem_buckets : gmap string (gmap string string); mem_left : option nat }.

Definition mem_objects (m : Memory) (b : string) : gmap string string := default ∅ (mem_buckets m !! b).
Definition mem_up (m : Memory) : Prop := mem_left m = None.
Definition mem_pages (m : Memory) : nat := S (base.size (mem_objects m "b")).

Definition mem_call {A} (f : Memory -> Memory * outcome exn A) : M Memory exn A := fun m =>
  match mem_left m with
  | None => f m
  | Some O => (m, Raise (RuntimeError "no answer"))
  | Some (S n) => f (mkMemory (mem_buckets m) (Some n))
  end.

Definition mem_set (b : string) (f : gmap string string -> gmap string string) (m : Memory) : Memory :=
  mkMemory (<[b := f (mem_objects m b)]> (mem_buckets m)) (mem_left m).

Definition mem_rest (m : Memory) (b p : string) (token : option string) : list string :=
  drop (match token with Some t => String.length t | None => 0 end) (matching (mem_objects m b) p).

Fixpoint marks (n : nat) : string := match n with O => "" | S n => String "." (marks n) end.

Definition mem_list (b p : string) (token : option string) : M Memory exn Page := mem_call (fun m =>
  let keys := mem_rest m b p token in
  let given := (match token with Some t => String.length t | None => 0 end + 1000)%nat in
  (m, Ok (mkPage (take 1000 keys) (1000 <? length keys)%nat (Some (marks given))))).

Definition memory_client : S3Client Memory := {|
  put_object b k v := mem_call (fun m => (mem_set b <[k := v]> m, Ok tt));
  get_object b k := mem_call (fun m =>
    (m, match mem_objects m b !! k with Some v => Ok v | None => Raise (KeyError "NoSuchKey") end));
  list_objects_v2 := mem_list;
  delete_object b k := mem_call (fun m => (mem_set b (delete k) m, Ok tt))
|}.

Lemma marks_length n : String.length (marks n) = n.
Proof. induction n; cbn; congruence. Qed.

Lemma mem_set_objects b f m : mem_objects (mem_set b f m) b = f (mem_objects m b).
Proof. unfold mem_objects at 1, mem_set. cbn. by rewrite lookup_insert_eq. Qed.

Lemma mem_list_answers m b p token : mem_up m -> exists m' page more,
  list_objects_v2 memory_client b p token m = (m', Ok page) /\ mem_up m' /\ mem_objects m' b = mem_objects m b /\
  mem_rest m b p token = pg_contents page ++ more /\
  (if pg_truncated page
   then pg_contents page <> [] /\ exists c t, pg_next page = Some (String c t) /\ mem_rest m' b p (Some (String c t)) = more
   else more = []) /\
  ((length (mem_rest m b p token) <= 1000)%nat -> pg_truncated page = false).
Proof.
  intros Hm. set (keys := mem_rest m b p token).
  set (n := match token with Some t => String.length t | None => 0%nat end).
  exists m, (mkPage (take 1000 keys) (1000 <? length keys)%nat (Some (marks (n + 1000)))), (drop 1000 keys).
  cbn [memory_client list_objects_v2 pg_contents pg_truncated pg_next]. split_and!; [|done|done| | |].
  - unfold mem_list, mem_call. rewrite Hm. reflexivity.
  - symmetry. apply take_drop.
  - destruct (Nat.ltb_spec 1000 (length keys)) as [Hlt|Hle].
    + split; [intros E; apply (f_equal length) in E; rewrite length_take in E; cbn [length] in E; lia|].
      destruct (marks (n + 1000)) as [|c t] eqn:E.
      { apply (f_equal String.length) in E. rewrite marks_length in E. cbn in E. lia. }
      exists c, t. split; [done|]. unfold mem_rest. rewrite <- E, marks_length. subst keys. unfold mem_rest. fold n.
      by rewrite drop_drop.
    + apply drop_ge. exact Hle.
  - intros H. by apply Nat.ltb_ge.
Qed.

#[export] Instance memory_laws : S3Laws memory_client mem_objects mem_rest mem_up.
Proof.
  constructor.
  - intros m b k v Hm. exists (mem_set b <[k := v]> m). cbn. unfold mem_call. by rewrite Hm.
  - intros m b k v. cbn. unfold mem_call. destruct (mem_left m) as [[|n]|]; [by left|by rewrite mem_set_objects..].
  - intros m b k Hm. exists m. cbn. unfold mem_call. rewrite Hm. split_and!; [done..|].
    destruct (mem_objects m b !! k); [done|by eexists].
  - intros m b k Hm. exists (mem_set b (delete k) m). cbn. unfold mem_call. rewrite Hm. split_and!; [done..|].
    apply mem_set_objects.
  - done.
  - exact mem_list_answers.
Qed.

Definition empty_service : Memory := mkMemory ∅ None.

Lemma s3_store_refines_witness : snd (run (s3_store memory_client mem_pages "b" "ck") session empty_service)
  = snd (shelf_run (fun j s => s3_key "ck" j s "") session ∅).
Proof.
  destruct (s3_store_refines memory_client mem_pages "b" "ck" mem_objects mem_rest mem_up (fun w => Nat.lt_succ_diag_r _)
    session empty_service eq_refl eq_refl (session_allowed _)) as (w' & H & _). exact (f_equal snd H).
Defined.

(** One checkpoint is there, and the service stops after the first file of the next. *)
Definition one_uploaded : Memory :=
  fst (s3_put memory_client "b" "ck" "job-1" 5 (Some (weights "abc")) 0 empty_service).

Definition one_shelved : Shelf := shelf_put ∅ "job-1" 5 (mkSaved (weights "abc") 0).

Lemma one_uploaded_shows : s3_shows "b" "ck" mem_objects mem_up one_uploaded one_shelved.
Proof.
  destruct (s3_put_spec memory_client "b" "ck" mem_objects mem_rest mem_up empty_service ∅ "job-1" 5 (weights "abc") 0)
    as (w' & H & Hw).
  - by apply s3_empty.
  - reflexivity.
  - apply weights_ok; [lia|apply representable_start].
  - unfold one_uploaded. rewrite H. exact Hw.
Qed.

Lemma s3_upload_interrupted_witness : exists e,
  snd (s3_put memory_client "b" "ck" "job-1" 9 (Some (weights "defg")) 60000000 (mkMemory (mem_buckets one_uploaded) (Some 1%nat)))
    = Raise e /\ is_checkpoint_error e.
Proof.
  pose proof one_uploaded_shows as (_ & Ha & Hx).
  pose proof (s3_upload_interrupted memory_client mem_pages "b" "ck" mem_objects mem_rest mem_up (fun w => Nat.lt_succ_diag_r _)
    (mkMemory (mem_buckets one_uploaded) (Some 1%nat)) one_shelved "job-1" 9 (weights "defg") 60000000 Ha
    (conj (exact_visible "ck" _ _ Ha Hx) (exact_intact "ck" _ _ Hx)) eq_refl (weights_ok 9 "defg" 60000000 ltac:(lia) (proj2 representable_start))) as H.
  clear Ha Hx. destruct (s3_put _ _ _ _ 9 _ _ _) as [w' r] eqn:E. apply (f_equal snd) in E. cbn [snd] in E.
  vm_compute in E. subst r. cbn iota in H. exists (CheckpointError "could not upload checkpoint 9: no answer").
  split; [reflexivity|exact (proj1 H)].
Defined.

(** Names that end like the manifest's are taken for manifests.  A job that saves
    one below a directory has that directory counted as a checkpoint: pruning to
    one checkpoint deletes the only one there is. *)
Definition nested : Files := {["model.pt" := "abc"; "sub/MANIFEST.json" := "x"]}.

Example prune_takes_last :
  let saved := fst (s3_put memory_client "b" "ck" "job-1" 5 (Some nested) 0 empty_service) in
  let pruned := fst (s3_prune memory_client mem_pages "b" "ck" "job-1" 1 saved) in
  (snd (s3_prune memory_client mem_pages "b" "ck" "job-1" 1 saved),
   match snd (s3_latest memory_client mem_pages "b" "ck" "job-1" saved) with Ok (Some r) => Some (ck_step r) | _ => None end,
   snd (s3_latest memory_client mem_pages "b" "ck" "job-1" pruned))
  = (Ok 1, Some 5, Ok None).
Proof. by vm_compute. Qed.

(** Saving a step again writes over its objects while its manifest is there: cut
    off after the first file, the checkpoint that is restored is half old and
    half new. *)
Definition pair_of (body : string) : Files := {["a" := body; "b" := body]}.

Example overwrite_torn :
  let saved := fst (s3_put memory_client "b" "ck" "job-1" 5 (Some (pair_of "old")) 0 empty_service) in
  let cut := fst (s3_put memory_client "b" "ck" "job-1" 5 (Some (pair_of "new")) 0 (mkMemory (mem_buckets saved) (Some 1%nat))) in
  match snd (s3_latest memory_client mem_pages "b" "ck" "job-1" (mkMemory (mem_buckets cut) None)) with
  | Ok (Some r) => snd (fst (s3_fetch memory_client "b" r (mkMemory (mem_buckets cut) None, no_files)))
  | _ => no_files
  end = {["a" := "new"; "b" := "old"]}.
Proof. by vm_compute. Qed.
