(* ===== verification/States.v ===== *)
(** * states.py: the job lifecycle as an explicit graph *)

From S2P Require Import Prelude PyFormat Errors.

Inductive JobState : Type :=
| QUEUED | ALLOCATING | RUNNING | COMPLETED | FAILED | CANCELLED | REFUSED
| CHECKPOINTING | PREEMPTED | RESUMING | RECLAIMED.

#[export] Instance JobState_eq_dec : EqDecision JobState.
Proof. solve_decision. Defined.

(** [for state in JobState], in declaration order *)
Definition all_states : list JobState :=
  [QUEUED; ALLOCATING; RUNNING; COMPLETED; FAILED; CANCELLED; REFUSED;
   CHECKPOINTING; PREEMPTED; RESUMING; RECLAIMED].

Lemma all_states_complete s : s ∈ all_states.
Proof. destruct s; unfold all_states; set_solver. Qed.

(** [str(state)] *)
Definition state_str (s : JobState) : string :=
  match s with
  | QUEUED => "QUEUED" | ALLOCATING => "ALLOCATING" | RUNNING => "RUNNING"
  | COMPLETED => "COMPLETED" | FAILED => "FAILED" | CANCELLED => "CANCELLED"
  | REFUSED => "REFUSED" | CHECKPOINTING => "CHECKPOINTING"
  | PREEMPTED => "PREEMPTED" | RESUMING => "RESUMING" | RECLAIMED => "RECLAIMED"
  end.

(** [JobState(text)], the enum lookup [_job_from_row] does; [None] is ValueError *)
Definition state_of_str (s : string) : option JobState :=
  list_find (fun st => state_str st = s) all_states ≫= fun p => Some (snd p).

Definition TERMINAL : list JobState := [COMPLETED; FAILED; CANCELLED; REFUSED; RECLAIMED].
Definition ACTIVE : list JobState := [ALLOCATING; RUNNING; CHECKPOINTING; RESUMING].
Definition HOLDS_BUDGET : list JobState := [QUEUED] ++ ACTIVE ++ [PREEMPTED].

(** [state in some_frozenset] *)
Definition state_in (s : JobState) (l : list JobState) : bool := bool_decide (s ∈ l).

Definition LEGAL_TRANSITIONS (s : JobState) : list JobState :=
  match s with
  | QUEUED => [ALLOCATING; CANCELLED; FAILED]
  | ALLOCATING => [RUNNING; RESUMING; COMPLETED; FAILED; CANCELLED; PREEMPTED]
  | RESUMING => [RUNNING; COMPLETED; FAILED; CANCELLED]
  | RUNNING => [COMPLETED; FAILED; CANCELLED; CHECKPOINTING; PREEMPTED; RECLAIMED]
  | CHECKPOINTING => [PREEMPTED; FAILED; COMPLETED]
  | PREEMPTED => [QUEUED; CANCELLED; FAILED]
  | COMPLETED | FAILED | CANCELLED | REFUSED | RECLAIMED => []
  end.

Definition can_transition (from_state to_state : JobState) : bool :=
  state_in to_state (LEGAL_TRANSITIONS from_state).

(** [_assert_table_is_total]: the only clause the types leave to check is that
    a terminal state has no outgoing edge. *)
Definition assert_table_is_total : bool :=
  forallb (fun source =>
    negb (state_in source TERMINAL &&
          match LEGAL_TRANSITIONS source with [] => false | _ => true end)) all_states.

(** ** The graph *)

(** Paths of legal transitions. *)
Inductive path : JobState -> JobState -> Prop :=
| path_refl s : path s s
| path_step s t u : can_transition s t = true -> path t u -> path s u.

Lemma state_in_elem s l : state_in s l = true <-> s ∈ l.
Proof. apply bool_decide_eq_true. Qed.

Lemma terminal_no_exit s t : state_in s TERMINAL = true -> can_transition s t = false.
Proof. by destruct s, t. Qed.

Lemma path_trans s t u : path s t -> path t u -> path s u.
Proof. induction 1; eauto using path. Qed.

(** A terminal state is left by no path. *)
Lemma path_from_terminal s t : state_in s TERMINAL = true -> path s t -> t = s.
Proof.
  intros Hs Hp. destruct Hp as [|s t u Hst]; [done|].
  by rewrite terminal_no_exit in Hst.
Qed.

(** States partition: a state is terminal exactly when it holds no budget. *)
Lemma holds_budget_iff s : state_in s HOLDS_BUDGET = negb (state_in s TERMINAL).
Proof. by destruct s. Qed.

Lemma state_roundtrip s : state_of_str (state_str s) = Some s.
Proof. by destruct s. Qed.

Lemma can_transition_not_refl s : can_transition s s = false.
Proof. by destruct s. Qed.

(** QUEUED is entered from PREEMPTED only, REFUSED from nowhere. *)
Lemma into_queued s : can_transition s QUEUED = true -> s = PREEMPTED.
Proof. by destruct s. Qed.
Lemma into_refused s : can_transition s REFUSED = false.
Proof. by destruct s. Qed.

(** Every state reaches a terminal one in at most one step when it holds budget. *)
Lemma holds_budget_can_fail s :
  state_in s HOLDS_BUDGET = true -> can_transition s FAILED = true.
Proof. by destruct s. Qed.

(** The transition table of [states.py] is well formed: the import-time
    check passes, terminal states are exactly the ones that hold no budget,
    nothing leaves a terminal state, and every state that holds budget has a
    path to a terminal one (so no job is stuck by the table itself). *)
Theorem lifecycle_table_sound :
  assert_table_is_total = true /\
  (forall s, state_in s HOLDS_BUDGET = negb (state_in s TERMINAL)) /\
  (forall s t, state_in s TERMINAL = true -> path s t -> t = s) /\
  (forall s, exists t, state_in t TERMINAL = true /\ path s t).
Proof.
  split; [done|]. split; [exact holds_budget_iff|].
  split; [exact path_from_terminal|]. intros s.
  destruct (state_in s TERMINAL) eqn:Hs; [exists s; eauto using path|].
  exists FAILED. split; [done|]. eapply path_step; [|apply path_refl].
  apply holds_budget_can_fail. by rewrite holds_budget_iff, Hs.
Qed.
