(* ===== verification/Models.v ===== *)
(** * models.py: the plain records

    Field names are the source's with a prefix per record.  Moments are
    microseconds; hours are floats; an amount the ledger or a job row stores is
    already quantised and is kept as its number of hundredths, everything else
    that is money is a [Decimal]. *)

From S2P Require Import Prelude PyFloat PyDecimal PyFormat Money Clock States.
Local Open Scope Z_scope.

Inductive LedgerKind : Type := RESERVE | RELEASE | SETTLE | ABANDONED.

#[export] Instance LedgerKind_eq_dec : EqDecision LedgerKind.
Proof. solve_decision. Defined.

Record User := mkUser {
  u_user_id : string;
  u_display_name : string;
  u_budget_usd : Decimal;
  u_budget_gpu_hours : Decimal;
  u_is_admin : bool;
  u_created_at : Z;
  u_suspended_at : option Z;
  u_suspended_reason : string;
  u_suspended_by : string
}.

(** [User.is_suspended] *)
Definition is_suspended (u : User) : bool :=
  match u_suspended_at u with Some _ => true | None => false end.

(** [User.budget(currency)] *)
Definition user_budget (u : User) (c : Currency) : Decimal :=
  match c with USD => u_budget_usd u | GPU_HOUR => u_budget_gpu_hours u end.

Record Job := mkJob {
  j_job_id : string;
  j_user_id : string;
  j_command : string;
  j_gpu_type : string;
  j_requested_hours : float;
  j_currency : Currency;
  j_reserved : Z;
  j_state : JobState;
  j_submitted_at : Z;
  j_updated_at : Z;
  j_backend : option string;
  j_backend_handle : option string;
  j_started_at : option Z;
  j_finished_at : option Z;
  j_exit_code : option Z;
  j_refusal_reason : option string;
  j_logs_fetched : nat;
  j_attempts : Z;
  j_preemptions : Z;
  j_pinned_tier : option string;
  j_checkpoint_step : option Z;
  j_checkpoint_key : option string;
  j_checkpoint_at : option Z;
  j_environment : option string;
  j_cancel_requested : option string;
  j_origin : string
}.

(** [job.reserved] as the [Decimal] it is *)
Definition reserved (j : Job) : Decimal := of_cents (j_reserved j).

(** [Job.resumable] *)
Definition resumable (j : Job) : bool :=
  match j_checkpoint_key j with Some _ => true | None => false end.

(** [Job.is_terminal] *)
Definition is_terminal (j : Job) : bool := state_in (j_state j) TERMINAL.

(** [Job.short_id] *)
Definition short_id (j : Job) : string := str_take 8 (j_job_id j).

(** [max(0.0, (end - start).total_seconds() / 3600.0)] *)
Definition hours_between (start finish : Z) : float :=
  f_max f0 (f_div (total_seconds (finish - start)) (f_of_Z 3600)).

(** [Job.wait_hours(now)] *)
Definition wait_hours (j : Job) (now : Z) : float :=
  hours_between (j_submitted_at j) (default now (j_started_at j)).

(** [Job.elapsed_hours(now)] *)
Definition elapsed_hours (j : Job) (now : Z) : float :=
  match j_started_at j with
  | None => f0
  | Some started => hours_between started (default now (j_finished_at j))
  end.

Record LedgerEntry := mkLedgerEntry {
  le_entry_id : Z;
  le_job_id : option string;
  le_user_id : option string;
  le_currency : Currency;
  le_kind : LedgerKind;
  le_amount : Z;
  le_period : string;
  le_at : Z;
  le_note : option string;
  le_resource_handle : option string
}.

Record Balance := mkBalance {
  bal_user_id : string;
  bal_currency : Currency;
  bal_budget : Decimal;
  bal_held : Z;
  bal_spent : Z
}.

(** [Balance.committed] *)
Definition bal_committed (b : Balance) : Z := bal_held b + bal_spent b.

(** [Balance.available] *)
Definition bal_available (b : Balance) : Decimal :=
  dec_sub (bal_budget b) (of_cents (bal_committed b)).

(** [Balance.describe] *)
Definition bal_describe (b : Balance) : string :=
  fmt (of_cents (bal_spent b)) (bal_currency b) +:+ " spent, " +:+
  fmt (of_cents (bal_held b)) (bal_currency b) +:+ " held, " +:+
  fmt (bal_available b) (bal_currency b) +:+ " of " +:+
  fmt (bal_budget b) (bal_currency b) +:+ " left".

Record Sample := mkSample {
  smp_at : Z;
  smp_gpu_percent : float;
  smp_memory_mb : Z;
  smp_source : string
}.

(** [Sample.busy] *)
Definition busy (s : Sample) : bool := f_lt f0 (smp_gpu_percent s).

Record Notification := mkNotification {
  ntf_id : Z;
  ntf_job_id : option string;
  ntf_user_id : string;
  ntf_kind : string;
  ntf_message : string;
  ntf_at : Z;
  ntf_seen_at : option Z
}.

Record Price := mkPrice {
  prc_gpu_type : string;
  prc_hourly : Decimal;
  prc_currency : Currency;
  prc_source : string;
  prc_priced_at : Z;
  prc_instance_type : string;
  prc_region : string
}.

(** [Price.age_days(now)] *)
Definition age_days (p : Price) (now : Z) : float :=
  f_max f0 (f_div (total_seconds (now - prc_priced_at p)) (f_of_Z 86400)).

Record Priority := mkPriority {
  pri_job_id : string;
  pri_user_id : string;
  pri_score : float;
  pri_fair_term : float;
  pri_age_term : float;
  pri_usage_share : float;
  pri_wait_hours : float
}.

(** [Priority.explain]; [{share:.1%}] is the share times 100 to one digit. *)
Definition pri_explain (p : Priority) : string :=
  "score " +:+ f_fixed 3 (pri_score p) +:+ " = fair " +:+ f_fixed 3 (pri_fair_term p)
  +:+ " (share " +:+ f_fixed 1 (f_mul (pri_usage_share p) (f_of_Z 100))
  +:+ "%) + age " +:+ f_fixed 3 (pri_age_term p)
  +:+ " (waited " +:+ f_fixed 1 (pri_wait_hours p) +:+ "h)".

Record Refusal := mkRefusal {
  rfs_reason : string;
  rfs_code : string;
  rfs_shortfall : option Z;
  rfs_currency : option Currency
}.

Record SubmitResult := mkSubmitResult {
  sr_job : Job;
  sr_refusal : option Refusal;
  sr_warning : option string
}.

(** [SubmitResult.accepted] *)
Definition accepted (r : SubmitResult) : bool :=
  match sr_refusal r with None => true | Some _ => false end.

Record Drift := mkDrift {
  drf_kind : string;
  drf_backend : string;
  drf_handle : string;
  drf_job_id : option string;
  drf_detail : string
}.

(** [str(drift)] *)
Definition drift_str (d : Drift) : string :=
  let target := match drf_job_id d with
                | Some (String a s) => "job " +:+ str_take 8 (String a s)
                | _ => "no job record"
                end in
  "[" +:+ drf_kind d +:+ "] " +:+ drf_backend d +:+ "/" +:+ drf_handle d
  +:+ " (" +:+ target +:+ "): " +:+ drf_detail d.

(** [Decision.action] *)
Inductive Action : Type :=
| DISPATCH | BLOCKED_POOL | BLOCKED_CAPACITY | BLOCKED_TENANT | BLOCKED_UNAUTHORIZED.

#[export] Instance Action_eq_dec : EqDecision Action.
Proof. solve_decision. Defined.

Definition action_str (a : Action) : string :=
  match a with
  | DISPATCH => "DISPATCH" | BLOCKED_POOL => "BLOCKED_POOL"
  | BLOCKED_CAPACITY => "BLOCKED_CAPACITY" | BLOCKED_TENANT => "BLOCKED_TENANT"
  | BLOCKED_UNAUTHORIZED => "BLOCKED_UNAUTHORIZED"
  end.

Record Decision := mkDecision {
  d_job : Job;
  d_action : Action;
  d_backend : option string;
  d_detail : string
}.

Record DryRunPlan := mkDryRunPlan {
  plan_at : Z;
  plan_decisions : list Decision;
  plan_checks : list (string * string);
  plan_problems : list (string * string)
}.

(** [DryRunPlan.would_dispatch] *)
Definition would_dispatch (p : DryRunPlan) : list Decision :=
  filter (fun d => d_action d = DISPATCH) (plan_decisions p).

Record TickReport := mkTickReport {
  tr_at : Z;
  tr_dispatched : list string;
  tr_completed : list string;
  tr_failed : list string;
  tr_settled : list string;
  tr_blocked_on_pool_cap : list string;
  tr_blocked_on_capacity : list string;
  tr_blocked_on_tenant : list string;
  tr_blocked_on_authorization : list string;
  tr_stopped_at_ceiling : list string
}.

(** Elapsed and waiting times are never negative. *)
Lemma hours_between_nonneg a b : f_lt (hours_between a b) f0 = false.
Proof. apply f_max0_nonneg. Qed.

Lemma elapsed_hours_nonneg j now : f_lt (elapsed_hours j now) f0 = false.
Proof. unfold elapsed_hours. destruct (j_started_at j); [apply hours_between_nonneg|done]. Qed.
