(* ===== verification/Config.v ===== *)
(** * config.py: the tunables, their defaults, and what [validate] refuses

    The sub-configurations of the cloud, lab, volume and web layers ([aws],
    [gce], [local], [volumes], [web]) are not read by the modules that take this
    record; they are beside it in [ConfigLoad.Loaded]. *)

From S2P Require Import Prelude PyFloat PyDecimal PyFormat Errors Money Models.
Local Open Scope Z_scope.

Record GpuType := mkGpuType {
  gt_name : string;
  gt_currency : Currency;
  gt_hourly_price : Decimal;
  gt_description : string;
  gt_memory_mb : Z
}.

Definition DEFAULT_GPU_TYPES : list GpuType := [
  mkGpuType "t4" USD (mkDec 526 (-3)) "g4dn.xlarge, 16GB" 16384;
  mkGpuType "a10g" USD (mkDec 1006 (-3)) "g5.xlarge, 24GB" 24576;
  mkGpuType "l4" USD (mkDec 8048 (-4)) "g6.xlarge, 24GB" 24576;
  mkGpuType "a100" USD (mkDec 410 (-2)) "p4d slice, 40GB" 40960;
  mkGpuType "a6000" GPU_HOUR (mkDec 10 (-1)) "lab machine, 48GB, free" 49152 ].

Record BrokerConfig := mkBrokerConfig {
  timezone : string;
  w_fair : float;
  w_age : float;
  age_max_hours : float;
  fairshare_window_days : float;
  fairshare_half_life_days : float;
  w_usd_share : float;
  w_gpu_hour_share : float;
  default_budget_usd : Decimal;
  default_budget_gpu_hours : Decimal;
  pool_budget_usd : Decimal;
  pool_budget_gpu_hours : Decimal;
  max_job_usd : Decimal;
  max_job_gpu_hours : Decimal;
  max_job_hours : float;
  max_command_bytes : Z;
  max_queued_jobs_per_user : Z;
  max_running_jobs_per_user : Z;
  max_log_lines_per_job : Z;
  max_log_line_bytes : Z;
  startup_allowance_hours : float;
  gpu_types : list GpuType;
  placement_order : list string;
  forecast_window_days : float;
  forecast_min_days : float;
  forecast_warning_days : float;
  forecast_critical_days : float;
  idle_threshold_percent : float;
  idle_window_minutes : float;
  idle_min_samples : Z;
  idle_grace_minutes : float;
  idle_sample_interval_seconds : float;
  reclaim_enabled : bool;
  price_refresh_days : float;
  spot_max_preemptions_without_progress : Z;
  spot_max_launch_failures : Z;
  spot_cooldown_seconds : float;
  checkpoint_deadline_seconds : float;
  checkpoint_store : string;
  checkpoint_bucket : string;
  cfg_backends : list string
}.

Definition dec_f (m k : Z) : float := f_of_dec m k.

(** The dataclass defaults. *)
Definition default_config : BrokerConfig := {|
  timezone := "America/Los_Angeles";
  w_fair := dec_f 5 (-1);
  w_age := dec_f 5 (-1);
  age_max_hours := f_of_Z 12;
  fairshare_window_days := f_of_Z 30;
  fairshare_half_life_days := f_of_Z 14;
  w_usd_share := dec_f 7 (-1);
  w_gpu_hour_share := dec_f 3 (-1);
  default_budget_usd := mkDec 2500 (-2);
  default_budget_gpu_hours := mkDec 800 (-2);
  pool_budget_usd := mkDec 50000 (-2);
  pool_budget_gpu_hours := mkDec 40000 (-2);
  max_job_usd := mkDec 5000 (-2);
  max_job_gpu_hours := mkDec 2400 (-2);
  max_job_hours := f_of_Z 24;
  max_command_bytes := 4096;
  max_queued_jobs_per_user := 32;
  max_running_jobs_per_user := 4;
  max_log_lines_per_job := 10000;
  max_log_line_bytes := 2000;
  startup_allowance_hours := dec_f 25 (-2);
  gpu_types := DEFAULT_GPU_TYPES;
  placement_order := ["local"; "spot"; "ondemand"];
  forecast_window_days := f_of_Z 30;
  forecast_min_days := dec_f 25 (-2);
  forecast_warning_days := f_of_Z 14;
  forecast_critical_days := f_of_Z 7;
  idle_threshold_percent := f_of_Z 5;
  idle_window_minutes := f_of_Z 10;
  idle_min_samples := 5;
  idle_grace_minutes := f_of_Z 15;
  idle_sample_interval_seconds := f_of_Z 60;
  reclaim_enabled := false;
  price_refresh_days := f_of_Z 7;
  spot_max_preemptions_without_progress := 2;
  spot_max_launch_failures := 3;
  spot_cooldown_seconds := f_of_Z 900;
  checkpoint_deadline_seconds := f_of_Z 90;
  checkpoint_store := "local";
  checkpoint_bucket := "";
  cfg_backends := ["fake"]
|}.

(** [config.gpu(name)] *)
Definition gpu (config : BrokerConfig) (name : string) : outcome exn GpuType :=
  match List.find (fun g => String.eqb (gt_name g) name) (gpu_types config) with
  | Some g => Ok g
  | None => Raise (UnknownGpuType name (map gt_name (gpu_types config)))
  end.

Definition pool_budget (config : BrokerConfig) (c : Currency) : Decimal :=
  match c with USD => pool_budget_usd config | GPU_HOUR => pool_budget_gpu_hours config end.

Definition max_job (config : BrokerConfig) (c : Currency) : Decimal :=
  match c with USD => max_job_usd config | GPU_HOUR => max_job_gpu_hours config end.

Definition share_weight (config : BrokerConfig) (c : Currency) : float :=
  match c with USD => w_usd_share config | GPU_HOUR => w_gpu_hour_share config end.

Definition known_backends : list string := ["fake"; "ec2"; "ec2-spot"; "gce"; "local"].

Definition has_dup (l : list string) : bool := negb (bool_decide (NoDup l)).

(** [validate()]: the checks in order; [Raise] is the first one that fails. *)
Definition validate (c : BrokerConfig) : outcome exn unit :=
  match List.find (fun n => negb (bool_decide (n ∈ known_backends))) (cfg_backends c) with
  | Some n => Raise (ConfigError ("unknown backend '" +:+ n +:+
      "' in config.json. Known: fake, ec2, ec2-spot, gce, local"))
  | None =>
  if match cfg_backends c with [] => true | _ => false end
  then Raise (ConfigError "no backends configured: nothing could ever run")
  else if match placement_order c with [] => true | _ => false end
  then Raise (ConfigError "placement_order is empty: nothing could ever be placed")
  else if negb (bool_decide (checkpoint_store c ∈ ["local"; "s3"]))
  then Raise (ConfigError ("unknown checkpoint_store '" +:+ checkpoint_store c +:+
      "'. Known: local, s3"))
  else if String.eqb (checkpoint_store c) "s3" && String.eqb (checkpoint_bucket c) ""
  then Raise (ConfigError "checkpoint_store is 's3' but checkpoint_bucket is not set")
  else if bool_decide ("ec2-spot" ∈ cfg_backends c) && negb (String.eqb (checkpoint_store c) "s3")
  then Raise (ConfigError ("the ec2-spot backend is configured but checkpoints are stored " +:+
      "locally. A preempted job comes back on a different machine, so " +:+
      "its checkpoint has to be somewhere both can reach. Set " +:+
      "checkpoint_store to 's3', or drop 'ec2-spot' from backends"))
  else if idle_min_samples c <? 1
  then Raise (ConfigError "idle_min_samples must be at least 1")
  else if negb (f_le (f_of_Z 0) (idle_threshold_percent c)
                && f_le (idle_threshold_percent c) (f_of_Z 100))
  then Raise (ConfigError "idle_threshold_percent must be between 0 and 100")
  else if f_lt (idle_grace_minutes c) (f_of_Z 0)
  then Raise (ConfigError "idle_grace_minutes cannot be negative")
  else if f_lt (forecast_warning_days c) (forecast_critical_days c)
  then Raise (ConfigError ("forecast_critical_days (" +:+ f_repr (forecast_critical_days c) +:+
      ") is later than forecast_warning_days (" +:+ f_repr (forecast_warning_days c) +:+
      "), so the critical alert would fire before the warning"))
  else if f_lt (w_fair c) (f_of_Z 0) || f_lt (w_age c) (f_of_Z 0)
  then Raise (ConfigError "fair-share weights cannot be negative")
  else if f_eq (w_fair c) (f_of_Z 0) && f_eq (w_age c) (f_of_Z 0)
  then Raise (ConfigError "w_fair and w_age cannot both be zero: nothing would order the queue")
  else if f_lt (w_age c) (w_fair c)
  then Raise (ConfigError ("w_age (" +:+ f_repr (w_age c) +:+ ") < w_fair (" +:+ f_repr (w_fair c) +:+
      "): with these weights a heavy user can never age past a light user, and will be starved. " +:+
      "Set w_age >= w_fair, or accept starvation explicitly by editing this check."))
  else if f_lt (startup_allowance_hours c) (f_of_Z 0)
  then Raise (ConfigError "startup_allowance_hours cannot be negative")
  else
  match List.find (fun nv : string * Z => (snd nv <? 1)%Z)
          [("max_command_bytes", max_command_bytes c);
           ("max_queued_jobs_per_user", max_queued_jobs_per_user c);
           ("max_running_jobs_per_user", max_running_jobs_per_user c);
           ("max_log_lines_per_job", max_log_lines_per_job c);
           ("max_log_line_bytes", max_log_line_bytes c)] with
  | Some (name, _) => Raise (ConfigError (name +:+ " must be at least 1"))
  | None =>
  if f_le (age_max_hours c) (f_of_Z 0)
  then Raise (ConfigError "age_max_hours must be positive")
  else if f_le (fairshare_half_life_days c) (f_of_Z 0)
  then Raise (ConfigError "fairshare_half_life_days must be positive")
  else if match gpu_types c with [] => true | _ => false end
  then Raise (ConfigError "no gpu types configured: nothing could ever be submitted")
  else if has_dup (map gt_name (gpu_types c))
  then Raise (ConfigError ("duplicate gpu type names: " +:+ str_join ", " (map gt_name (gpu_types c))))
  else Ok tt
  end end.

Lemma gpu_ok config name g : gpu config name = Ok g -> gt_name g = name /\ g ∈ gpu_types config.
Proof.
  unfold gpu. destruct (List.find _ _) as [g'|] eqn:Hf; [|done]. intros [= <-].
  apply List.find_some in Hf as [Hin Heq%String.eqb_eq].
  split; [done|]. by apply list_elem_of_In.
Qed.

(** The limits [validate] guarantees, in the form the other components use. *)
Lemma validate_limits c :
  validate c = Ok tt ->
  1 <= max_running_jobs_per_user c /\ 1 <= max_queued_jobs_per_user c /\
  1 <= max_log_lines_per_job c /\ 1 <= max_log_line_bytes c /\
  1 <= idle_min_samples c /\ f_lt (w_age c) (w_fair c) = false.
Proof.
  unfold validate. intros H.
  repeat match type of H with
  | (if ?b then _ else _) = _ => destruct b eqn:?; [discriminate|]
  | match List.find ?f ?l with _ => _ end = _ =>
      destruct (List.find f l) as [?|] eqn:?; [try (case_match; discriminate); discriminate|]
  end.
  match goal with Hf : List.find (fun nv => snd nv <? 1) _ = None |- _ =>
    pose proof (fun nv Hin => List.find_none _ _ Hf nv Hin) as Hl end.
  cbn in Hl.
  pose proof (Hl _ (or_intror (or_introl eq_refl))).
  pose proof (Hl _ (or_intror (or_intror (or_introl eq_refl)))).
  pose proof (Hl _ (or_intror (or_intror (or_intror (or_introl eq_refl))))).
  pose proof (Hl _ (or_intror (or_intror (or_intror (or_intror (or_introl eq_refl)))))).
  cbn in *. repeat split; try lia; done.
Qed.

Example default_valid : validate default_config = Ok tt.
Proof. vm_compute. reflexivity. Qed.
