(* ===== verification/Tables.v ===== *)
(** * The database: tables of [db/migrations/*.sql] and the statements of [store.py]

    [DB] holds one field per table.  Keyed tables are finite maps, append-only
    tables are lists in id order (a row's AUTOINCREMENT id is its position,
    counted from 1).  [insert_*] and [update_*] are single statements with the
    constraints the schema puts on them: primary keys, foreign keys, the unique
    index on (backend, backend_handle), the CHECK clauses.  The columns that hold
    text renderings of moments and amounts are kept as the values they render. *)

From S2P Require Import Prelude PySort PyFloat PyDecimal PyFormat Errors Money Clock States Models Config.
Local Open Scope Z_scope.
Local Open Scope py_scope.

(** [environments.py]: a named environment and what is known of its builds. *)
Record Environment := mkEnvironment {
  env_name : string;
  env_base_image : string;
  env_python_version : string;
  env_requirements : list string;
  env_apt_packages : list string;
  env_owner : string;
  env_description : string;
  env_created_at : option Z;
  env_updated_at : option Z
}.

Record Build := mkBuild {
  bld_digest : string;
  bld_target : string;
  bld_state : string;
  bld_reference : string;
  bld_detail : string;
  bld_built_at : option Z
}.

Record TransitionRow := mkTransitionRow {
  jt_job_id : string;
  jt_from_state : option JobState;
  jt_to_state : JobState;
  jt_at : Z;
  jt_reason : option string
}.

Record LogRow := mkLogRow {
  lg_job_id : string;
  lg_at : Z;
  lg_stream : string;
  lg_line : string
}.

Record ObservationRow := mkObservationRow {
  so_job_id : string;
  so_at : Z;
  so_decision : string;
  so_resource_class : string;
  so_requested_memory_mb : Z;
  so_backend : option string;
  so_tier : option string;
  so_detail : string
}.

Record MetricRow := mkMetricRow {
  m_name : string;
  m_at : Z;
  m_value : float;
  m_labels : string
}.

Record HostDrain := mkHostDrain {
  hd_reason : string;
  hd_drained_at : Z;
  hd_drained_by : string
}.

Record BaselineRow := mkBaselineRow {
  bl_instance_hours : float;
  bl_dollars : Decimal;
  bl_source : string;
  bl_recorded_at : Z
}.

Record DB := mkDB {
  users : gmap string User;
  jobs : gmap string Job;
  job_transitions : list TransitionRow;
  ledger : list LedgerEntry;
  job_logs : list LogRow;
  host_drains : gmap string HostDrain;
  prices : gmap string Price;
  gpu_samples : list (string * Sample);
  notifications : list Notification;
  environments : gmap string Environment;
  environment_builds : gmap (string * string) Build;
  baseline : gmap string BaselineRow;
  metrics : list MetricRow;
  schedule_observations : list ObservationRow
}.

Definition empty_db : DB := mkDB ∅ ∅ [] [] [] ∅ ∅ [] [] ∅ ∅ ∅ [] [].

(** ** Statements that write *)

Definition fk_job (d : DB) (job_id : option string) : bool :=
  match job_id with None => true | Some i => bool_decide (is_Some (jobs d !! i)) end.

Definition fk_user (d : DB) (user_id : option string) : bool :=
  match user_id with None => true | Some u => bool_decide (is_Some (users d !! u)) end.

Definition fk_failed {A} : outcome exn A := Raise (IntegrityError "FOREIGN KEY constraint failed").

(** The unique index on (backend, backend_handle): is the pair taken by a job
    other than [job_id]?  A NULL backend is distinct from every other. *)
Definition handle_taken (d : DB) (job_id : string) (backend handle : option string) : bool :=
  match backend, handle with
  | Some b, Some h =>
      existsb (fun kv : string * Job =>
        negb (String.eqb (fst kv) job_id) &&
        bool_decide (j_backend (snd kv) = Some b) &&
        bool_decide (j_backend_handle (snd kv) = Some h)) (map_to_list (jobs d))
  | _, _ => false
  end.

(** [_insert_job]: the columns it does not name take their schema defaults. *)
Definition insert_job (d : DB) (j : Job) : outcome exn DB :=
  if bool_decide (is_Some (jobs d !! j_job_id j))
  then Raise (IntegrityError "UNIQUE constraint failed: jobs.job_id")
  else if negb (fk_user d (Some (j_user_id j))) then fk_failed
  else if negb (f_lt f0 (j_requested_hours j))
  then Raise (IntegrityError "CHECK constraint failed: requested_hours > 0")
  else if handle_taken d (j_job_id j) (j_backend j) (j_backend_handle j)
  then Raise (IntegrityError "UNIQUE constraint failed: jobs.backend, jobs.backend_handle")
  else
    let row := {| j with j_logs_fetched := 0%nat; j_attempts := 0; j_preemptions := 0;
                         j_pinned_tier := None; j_checkpoint_step := None;
                         j_checkpoint_key := None; j_checkpoint_at := None;
                         j_cancel_requested := None |} in
    Ok {| d with jobs := <[j_job_id j := row]> (jobs d) |}.

(** [_insert_transition] *)
Definition insert_transition (d : DB) (job_id : string) (from_state : option JobState)
    (to_state : JobState) (at_ : Z) (reason : option string) : outcome exn DB :=
  if negb (fk_job d (Some job_id)) then fk_failed
  else Ok {| d with job_transitions :=
               job_transitions d ++ [mkTransitionRow job_id from_state to_state at_ reason] |}.

Section Ledger.
Context `{TimeZones} (config : BrokerConfig).

(** [_insert_ledger]: the amount is quantised, the period is the local month. *)
Definition insert_ledger (d : DB) (job_id user_id : option string) (currency : Currency)
    (kind : LedgerKind) (amount : Decimal) (at_ : Z) (note resource_handle : option string)
  : outcome exn DB :=
  if negb (fk_job d job_id && fk_user d user_id) then fk_failed
  else Ok {| d with ledger := ledger d ++
    [mkLedgerEntry (Z.of_nat (length (ledger d)) + 1) job_id user_id currency kind
       (quantize amount currency) (billing_period at_ (timezone config)) at_ note
       resource_handle] |}.
End Ledger.

(** [UPDATE jobs SET ... WHERE job_id = ?] *)
Definition update_job (d : DB) (job_id : string) (f : Job -> Job) : DB :=
  {| d with jobs := alter f job_id (jobs d) |}.

Definition insert_logs (d : DB) (job_id : string) (at_ : Z) (lines : list (string * string))
  : outcome exn DB :=
  match lines with
  | [] => Ok d
  | _ =>
    if negb (fk_job d (Some job_id)) then fk_failed
    else if negb (forallb (fun l => bool_decide (fst l ∈ ["stdout"; "stderr"; "broker"])) lines)
    then Raise (IntegrityError "CHECK constraint failed: stream IN ('stdout', 'stderr', 'broker')")
    else Ok {| d with job_logs :=
                 job_logs d ++ map (fun l => mkLogRow job_id at_ (fst l) (snd l)) lines |}
  end.

Definition insert_samples (d : DB) (job_id : string) (samples : list Sample) : outcome exn DB :=
  if negb (fk_job d (Some job_id)) then fk_failed
  else Ok {| d with gpu_samples := gpu_samples d ++ map (fun s => (job_id, s)) samples |}.

Definition insert_notification (d : DB) (job_id : option string) (user_id kind message : string)
    (at_ : Z) : outcome exn (DB * Notification) :=
  if negb (fk_job d job_id) then fk_failed
  else
    let n := mkNotification (Z.of_nat (length (notifications d)) + 1) job_id user_id kind message
               at_ None in
    Ok ({| d with notifications := notifications d ++ [n] |}, n).

(** ** Statements that read *)

Definition agg_step (acc : Z * Z) (e : LedgerEntry) : Z * Z :=
  let '(held, spent) := acc in
  match le_kind e with
  | RESERVE => (held + le_amount e, spent)
  | RELEASE => (held - le_amount e, spent)
  | SETTLE | ABANDONED => (held, spent + le_amount e)
  end.

(** [_aggregate]: (held, spent) over the rows a query selects. *)
Definition aggregate (select : LedgerEntry -> bool) (l : list LedgerEntry) : Z * Z :=
  fold_left agg_step (List.filter select l) (0, 0).

Definition of_job (job_id : string) (e : LedgerEntry) : bool :=
  bool_decide (le_job_id e = Some job_id).
Definition of_user (user_id : string) (e : LedgerEntry) : bool :=
  bool_decide (le_user_id e = Some user_id).
Definition in_currency (c : Currency) (e : LedgerEntry) : bool := bool_decide (le_currency e = c).
Definition in_period (p : string) (e : LedgerEntry) : bool := String.eqb (le_period e) p.
Definition of_kind (k : LedgerKind) (e : LedgerEntry) : bool := bool_decide (le_kind e = k).

(** [job_holding(job_id, currency)] *)
Definition job_holding (d : DB) (job_id : string) (c : Currency) : Z :=
  fst (aggregate (fun e => of_job job_id e && in_currency c e) (ledger d)).

(** [job_spend(job_id)] *)
Definition job_spend (d : DB) (job_id : string) : Z :=
  snd (aggregate (of_job job_id) (ledger d)).

(** [abandoned_for_handle(handle, currency)] *)
Definition abandoned_for_handle (d : DB) (handle : string) (c : Currency) : Z :=
  zsum le_amount (List.filter (fun e => bool_decide (le_resource_handle e = Some handle)
                                        && in_currency c e && of_kind ABANDONED e) (ledger d)).

Definition ledger_for_job (d : DB) (job_id : string) : list LedgerEntry :=
  List.filter (of_job job_id) (ledger d).

Definition abandoned_entries (d : DB) (c : Currency) : list LedgerEntry :=
  List.filter (fun e => of_kind ABANDONED e && in_currency c e) (ledger d).

(** [settlements_since(cutoff, currency)]: oldest first *)
Definition settlements_since (d : DB) (cutoff : Z) (c : Currency)
  : list (option string * Z * Z) :=
  map (fun e => (le_user_id e, le_amount e, le_at e))
    (py_sort (on le_at Z.ltb)
       (List.filter (fun e => of_kind SETTLE e && in_currency c e && (cutoff <=? le_at e))
          (ledger d))).

(** [ORDER BY submitted_at ASC, job_id ASC] *)
Definition job_order : Job -> Job -> bool :=
  lex (on j_submitted_at Z.ltb) (on j_job_id str_lt).

Definition all_jobs (d : DB) : list Job := map snd (map_to_list (jobs d)).

(** [list_jobs(user_id=, states=, limit=)] *)
Definition list_jobs (d : DB) (user_id : option string) (states : option (list JobState))
    (limit : option nat) : list Job :=
  match states with
  | Some [] => []
  | _ =>
    let rows := py_sort job_order (List.filter (fun j =>
      (if truthy user_id then bool_decide (Some (j_user_id j) = user_id) else true) &&
      match states with Some l => state_in (j_state j) l | None => true end) (all_jobs d)) in
    match limit with Some n => firstn n rows | None => rows end
  end.

Definition queued_jobs (d : DB) : list Job := list_jobs d None (Some [QUEUED]) None.
Definition active_jobs (d : DB) : list Job := list_jobs d None (Some ACTIVE) None.

(** [_count_in_states] *)
Definition count_in_states (d : DB) (user_id : string) (states : list JobState) : Z :=
  Z.of_nat (length (List.filter (fun j =>
    String.eqb (j_user_id j) user_id && state_in (j_state j) states) (all_jobs d))).

Definition queued_count (d : DB) (user_id : string) : Z := count_in_states d user_id [QUEUED].
Definition running_count (d : DB) (user_id : string) : Z := count_in_states d user_id ACTIVE.

Definition get_job (d : DB) (job_id : string) : outcome exn Job :=
  of_option (jobs d !! job_id) (UnknownJob job_id).

(** SQLite's [LIKE]: [%] matches any text, [_] one character, ASCII letters
    match in either case.  Fuel: the length of both strings is enough. *)
Fixpoint like_fuel (fuel : nat) (pat s : string) : bool :=
  match fuel with
  | O => false
  | S k =>
    match pat, s with
    | EmptyString, EmptyString => true
    | EmptyString, String _ _ => false
    | String p pat', _ =>
      if Ascii.eqb p "%"%char then
        like_fuel k pat' s || match s with String _ s' => like_fuel k pat s' | _ => false end
      else
        match s with
        | EmptyString => false
        | String a s' =>
          (Ascii.eqb p "_"%char || Ascii.eqb (ascii_lower p) (ascii_lower a)) && like_fuel k pat' s'
        end
    end
  end.

Definition like (pat s : string) : bool :=
  like_fuel (String.length pat + String.length s + 1) pat s.

(** [find_job(prefix)]: [WHERE job_id LIKE prefix || '%' ORDER BY submitted_at DESC] *)
Definition find_job (d : DB) (prefix : string) : outcome exn Job :=
  let rows := py_sort (on j_submitted_at Z.gtb)
    (List.filter (fun j => like (prefix +:+ "%") (j_job_id j)) (all_jobs d)) in
  match rows with
  | [] => Raise (UnknownJob prefix)
  | [j] => Ok j
  | _ => Raise (UnknownJob (prefix +:+ " (ambiguous: " +:+
           str_join ", " (map (fun j => str_take 12 (j_job_id j)) (firstn 5 rows)) +:+ ")"))
  end.

Definition history (d : DB) (job_id : string) : list TransitionRow :=
  List.filter (fun t => String.eqb (jt_job_id t) job_id) (job_transitions d).

Definition maybe_user (d : DB) (user_id : string) : option User := users d !! user_id.

Definition get_user (d : DB) (user_id : string) : outcome exn User :=
  of_option (maybe_user d user_id) (UnknownUser user_id).

Definition by_key {A} (m : gmap string A) : list (string * A) :=
  py_sort (on fst str_lt) (map_to_list m).

(** [list_users()]: [ORDER BY user_id] *)
Definition list_users (d : DB) : list User := map snd (by_key (users d)).

Definition has_admins (d : DB) : bool := existsb u_is_admin (list_users d).

(** [suspended_users()]: user id to reason *)
Definition suspended_users (d : DB) : gmap string string :=
  omap (fun u => if is_suspended u then Some (u_suspended_reason u) else None) (users d).

Definition samples_of (d : DB) (job_id : string) : list Sample :=
  map snd (List.filter (fun r => String.eqb (fst r) job_id) (gpu_samples d)).

(** [samples_for(job_id, since, limit)]: the newest [limit] rows, oldest first *)
Definition samples_for (d : DB) (job_id : string) (since : option Z) (limit : nat) : list Sample :=
  let rows := List.filter (fun s => match since with Some t => t <=? smp_at s | None => true end)
                (samples_of d job_id) in
  skipn (length rows - limit) rows.

(** [last_sample_at(job_id)]: [MAX(at)] *)
Definition last_sample_at (d : DB) (job_id : string) : option Z :=
  fold_left (fun acc s => Some (match acc with Some m => Z.max m (smp_at s) | None => smp_at s end))
    (samples_of d job_id) None.

(** [notifications_for_job(job_id, kind)]: [ORDER BY id] *)
Definition notifications_for_job (d : DB) (job_id : string) (kind : option string)
  : list Notification :=
  List.filter (fun n => bool_decide (ntf_job_id n = Some job_id) &&
    match kind with Some k => String.eqb (ntf_kind n) k | None => true end) (notifications d).

(** [notifications_for_user(user_id, limit)]: the newest [limit], oldest first *)
Definition notifications_for_user (d : DB) (user_id : string) (limit : nat) : list Notification :=
  let rows := List.filter (fun n => String.eqb (ntf_user_id n) user_id) (notifications d) in
  skipn (length rows - limit) rows.

(** [SELECT COUNT( * ) FROM job_logs WHERE job_id = ?] *)
Definition log_count (d : DB) (job_id : string) : Z :=
  Z.of_nat (length (List.filter (fun r => String.eqb (lg_job_id r) job_id) (job_logs d))).

(** [read_logs(job_id, after_id, limit)]: rows with their ids *)
Definition read_logs (d : DB) (job_id : string) (after_id : Z) (limit : nat)
  : list (Z * LogRow) :=
  firstn limit (List.filter (fun r : Z * LogRow =>
    String.eqb (lg_job_id (snd r)) job_id && (after_id <? fst r))
    (imap (fun i r => (Z.of_nat i + 1, r)) (job_logs d))).

(** [drained_hosts()]: hostname and reason, [ORDER BY hostname] *)
Definition drained_hosts (d : DB) : list (string * string) :=
  map (fun kv => (fst kv, hd_reason (snd kv))) (by_key (host_drains d)).
