(* ===== verification/Store.v ===== *)
(** * store.py: the operations of the store

    [St W] is what a running broker works on: the committed database, the
    manual clock, and [W], the state of everything outside the database (the
    backends).  [journal] records every committed image, newest first: a process
    that dies at any point leaves the newest one on disk, so an invariant of
    every image of the journal is an invariant under crashes.

    [transaction] runs its body on the committed image and either commits the
    image the body built or, when the body raised, leaves everything as it was.
    A body is a pure function of the database, so the nesting that
    [db.connection.transaction] refuses at run time cannot be written here. *)

From S2P Require Import Prelude PySort PyFloat PyDecimal PyFormat Errors Money Clock States Models Config Tables.
Local Open Scope Z_scope.
Local Open Scope py_scope.

Record St (W : Type) := mkSt {
  db : DB;
  clock : Z;
  journal : list DB;
  world : W
}.
Arguments mkSt {W} _ _ _ _.
Arguments db {W} _.
Arguments clock {W} _.
Arguments journal {W} _.
Arguments world {W} _.

(** [LedgerWrite] *)
Record LedgerWrite := mkLedgerWrite {
  lw_kind : LedgerKind;
  lw_amount : Decimal;
  lw_currency : Currency;
  lw_note : option string
}.

(** A method of an object that is not the store: the clock and the state of everything
    outside the database, to that state and a result. *)
Definition method (W A : Type) : Type := Z -> W -> W * outcome exn A.

Section Store.
Context {W : Type} `{TimeZones} (config : BrokerConfig).

Abbreviation M := (M (St W) exn).

(** [BEGIN IMMEDIATE; body; COMMIT], or [ROLLBACK] when the body raises *)
Definition transaction {A} (body : DB -> outcome exn (DB * A)) : M A := fun s =>
  match body (db s) with
  | Ok (d', a) => (mkSt d' (clock s) (d' :: journal s) (world s), Ok a)
  | Raise e => (s, Raise e)
  end.

(** a [SELECT] outside a transaction *)
Definition query {A} (f : DB -> outcome exn A) : M A := fun s => (s, f (db s)).
Definition query_ok {A} (f : DB -> A) : M A := fun s => (s, Ok (f (db s))).

(** [self.clock.now()] *)
Definition now : M Z := gets clock.

Definition commit_only (body : DB -> outcome exn DB) : M unit :=
  transaction (fun d => d' <-? body d;; Ok (d', tt)).

(** ** Users *)

Definition upsert_user (user_id : string) (display_name : option string)
    (budget_usd budget_gpu_hours : option Decimal) (is_admin : option bool) : M User :=
  existing <- query_ok (fun d => maybe_user d user_id);;
  t <- now;;
  match existing with
  | None =>
      let user := mkUser user_id (str_or display_name user_id)
        (default (default_budget_usd config) budget_usd)
        (default (default_budget_gpu_hours config) budget_gpu_hours)
        (default false is_admin) t None "" "" in
      commit_only (fun d =>
        if bool_decide (is_Some (users d !! user_id))
        then Raise (IntegrityError "UNIQUE constraint failed: users.user_id")
        else Ok {| d with users := <[user_id := user]> (users d) |});;;
      ret user
  | Some e =>
      let updated := {| e with
        u_display_name := str_or display_name (u_display_name e);
        u_budget_usd := default (u_budget_usd e) budget_usd;
        u_budget_gpu_hours := default (u_budget_gpu_hours e) budget_gpu_hours;
        u_is_admin := default (u_is_admin e) is_admin |} in
      commit_only (fun d => Ok {| d with users := alter (fun row =>
        {| row with
           u_display_name := u_display_name updated;
           u_budget_usd := u_budget_usd updated;
           u_budget_gpu_hours := u_budget_gpu_hours updated;
           u_is_admin := u_is_admin updated |}) user_id (users d) |});;;
      ret updated
  end.

Definition suspend_user (user_id reason actor : string) : M User :=
  query (fun d => get_user d user_id);;;
  t <- now;;
  commit_only (fun d => Ok {| d with users := alter (fun row =>
    {| row with u_suspended_at := Some t; u_suspended_reason := reason;
                u_suspended_by := actor |}) user_id (users d) |});;;
  query (fun d => get_user d user_id).

Definition restore_user (user_id actor : string) : M User :=
  query (fun d => get_user d user_id);;;
  commit_only (fun d => Ok {| d with users := alter (fun row =>
    {| row with u_suspended_at := None; u_suspended_reason := "";
                u_suspended_by := "" |}) user_id (users d) |});;;
  query (fun d => get_user d user_id).

(** The newest observation of a job. *)
Definition latest_observation (d : DB) (job_id : string) : option ObservationRow :=
  last (List.filter (fun o => String.eqb (so_job_id o) job_id) (schedule_observations d)).

Definition record_schedule_observation (job_id decision resource_class : string)
    (requested_memory_mb : Z) (backend tier : option string) (detail : string) : M unit :=
  latest <- query_ok (fun d => latest_observation d job_id);;
  let repeated :=
    negb (String.eqb decision "DISPATCH") &&
    match latest with
    | Some o => String.eqb (so_decision o) decision
                && bool_decide (so_backend o = backend) && bool_decide (so_tier o = tier)
                && String.eqb (so_detail o) detail
    | None => false
    end in
  if repeated then ret tt
  else
    t <- now;;
    commit_only (fun d =>
      if negb (fk_job d (Some job_id)) then fk_failed
      else Ok {| d with schedule_observations := schedule_observations d ++
        [mkObservationRow job_id t decision resource_class (Z.max 0 requested_memory_mb)
           backend tier detail] |}).

(** Returns the number of rows deleted. *)
Definition delete_schedule_observations_before (cutoff : Z) : M Z :=
  transaction (fun d =>
    let keep := List.filter (fun o => negb (so_at o <? cutoff)) (schedule_observations d) in
    Ok ({| d with schedule_observations := keep |},
        Z.of_nat (length (schedule_observations d)) - Z.of_nat (length keep))).

(** ** Jobs *)

(** [create_job]; [job_id] is the caller's id or a fresh [new_job_id()]. *)
Definition create_job (user_id command gpu_type : string) (requested_hours : float)
    (currency : Currency) (reserved_amount : Decimal) (job_id : string)
    (environment : option string) (origin : string) : M Job :=
  query (fun d => get_user d user_id);;;
  t <- now;;
  let job := mkJob job_id user_id command gpu_type requested_hours currency
    (quantize reserved_amount currency) QUEUED t t None None None None None None 0%nat 0 0
    None None None None environment None origin in
  commit_only (fun d =>
    d1 <-? insert_job d job;;
    d2 <-? insert_transition d1 job_id None QUEUED t (Some "submitted");;
    if 0 <? j_reserved job then
      insert_ledger config d2 (Some job_id) (Some user_id) currency RESERVE (reserved job) t
        (Some "admission hold") None
    else Ok d2);;;
  ret job.

Definition record_refusal (user_id command gpu_type : string) (requested_hours : float)
    (currency : Currency) (reserved_amount : Decimal) (reason job_id origin : string) : M Job :=
  t <- now;;
  let job := mkJob job_id user_id command gpu_type requested_hours currency
    (quantize reserved_amount currency) REFUSED t t None None None (Some t) None (Some reason)
    0%nat 0 0 None None None None None None origin in
  commit_only (fun d =>
    d1 <-? insert_job d job;;
    insert_transition d1 job_id None REFUSED t (Some reason));;;
  ret job.

(** The part of [extra] that changes what is left of the hold of a job. *)
Definition hold_delta (c : Currency) (w : LedgerWrite) : Decimal :=
  if bool_decide (lw_currency w = c) then
    match lw_kind w with
    | RESERVE => lw_amount w
    | RELEASE | SETTLE => dec_neg (lw_amount w)
    | ABANDONED => dzero
    end
  else dzero.

(** [_release_remaining_hold(job, extra)] *)
Definition release_remaining_hold (d : DB) (job : Job) (extra : list LedgerWrite)
  : list LedgerWrite :=
  let outstanding := fold_left (fun acc w => dec_add acc (hold_delta (j_currency job) w)) extra
    (of_cents (job_holding d (j_job_id job) (j_currency job))) in
  if dec_leb outstanding ZERO then []
  else [mkLedgerWrite RELEASE (of_cents (quantize outstanding (j_currency job))) (j_currency job)
          (Some ("unused hold returned on " +:+ str_lower (state_str (j_state job))
                 +:+ " -> terminal"))].

Fixpoint insert_writes (d : DB) (job : Job) (t : Z) (writes : list LedgerWrite)
  : outcome exn DB :=
  match writes with
  | [] => Ok d
  | w :: ws =>
      d' <-? insert_ledger config d (Some (j_job_id job)) (Some (j_user_id job)) (lw_currency w)
               (lw_kind w) (lw_amount w) t (lw_note w) None;;
      insert_writes d' job t ws
  end.

Definition illegal (job : Job) (to_state : JobState) : exn :=
  IllegalTransition (j_job_id job) (state_str (j_state job)) (state_str to_state).

(** [UPDATE jobs SET state, ... WHERE job_id = ? AND state = ?], raising when
    it changed no row *)
Definition update_state (d : DB) (current updated : Job) : outcome exn DB :=
  match jobs d !! j_job_id current with
  | Some row =>
      if bool_decide (j_state row = j_state current) then
        if handle_taken d (j_job_id current) (j_backend updated) (j_backend_handle updated)
        then Raise (IntegrityError
               "UNIQUE constraint failed: jobs.backend, jobs.backend_handle")
        else Ok (update_job d (j_job_id current) (fun row =>
          {| row with
             j_state := j_state updated;
             j_updated_at := j_updated_at updated;
             j_backend := j_backend updated;
             j_backend_handle := j_backend_handle updated;
             j_started_at := j_started_at updated;
             j_finished_at := j_finished_at updated;
             j_exit_code := j_exit_code updated |}))
      else Raise (illegal current (j_state updated))
  | None => Raise (illegal current (j_state updated))
  end.

(** The keyword arguments of [transition]. *)
Record TransitionArgs := mkTransitionArgs {
  ta_reason : option string;
  ta_ledger : list LedgerWrite;
  ta_backend : option string;
  ta_backend_handle : option string;
  ta_exit_code : option Z;
  ta_clear_handle : bool
}.

Definition no_args : TransitionArgs := mkTransitionArgs None [] None None None false.

(** [a or b] on two optional strings *)
Definition opt_or (a b : option string) : option string := if truthy a then a else b.

(** The [Job] that [transition] builds: every field copied from [current]
    except [origin], which is not passed and takes the dataclass default. *)
Definition transitioned (current : Job) (to_state : JobState) (args : TransitionArgs) (t : Z)
  : Job :=
  {| current with
     j_state := to_state;
     j_updated_at := t;
     j_backend := opt_or (ta_backend args) (j_backend current);
     j_backend_handle := if ta_clear_handle args then None
                         else opt_or (ta_backend_handle args) (j_backend_handle current);
     j_started_at := if state_in to_state ACTIVE
                     then Some (default t (j_started_at current)) else j_started_at current;
     j_finished_at := if state_in to_state TERMINAL then Some t else j_finished_at current;
     j_exit_code := match ta_exit_code args with Some c => Some c | None => j_exit_code current end;
     j_origin := "real" |}.

(** [transition(job, to_state, ...)] for a [Job] the caller holds *)
Definition transition (current : Job) (to_state : JobState) (args : TransitionArgs) : M Job :=
  if negb (can_transition (j_state current) to_state) then raise (illegal current to_state)
  else
    t <- now;;
    released <- query_ok (fun d => if state_in to_state TERMINAL
                                   then release_remaining_hold d current (ta_ledger args)
                                   else []);;
    let writes := ta_ledger args ++ released in
    let updated := transitioned current to_state args t in
    commit_only (fun d =>
      d1 <-? update_state d current updated;;
      d2 <-? insert_transition d1 (j_job_id current) (Some (j_state current)) to_state t
               (ta_reason args);;
      insert_writes d2 current t writes);;;
    ret updated.

(** [transition(job_id, ...)]: the job is read first *)
Definition transition_id (job_id : string) (to_state : JobState) (args : TransitionArgs) : M Job :=
  current <- query (fun d => get_job d job_id);;
  transition current to_state args.

Definition touch (t : Z) (j : Job) : Job := {| j with j_updated_at := t |}.

Definition settle (job : Job) (amount : Decimal) (note : option string) : M unit :=
  let cents := quantize amount (j_currency job) in
  if cents <=? 0 then ret tt
  else
    t <- now;;
    commit_only (fun d =>
      d1 <-? insert_ledger config d (Some (j_job_id job)) (Some (j_user_id job)) (j_currency job)
               SETTLE (of_cents cents) t (Some (str_or note "accrued")) None;;
      d2 <-? insert_ledger config d1 (Some (j_job_id job)) (Some (j_user_id job)) (j_currency job)
               RELEASE (of_cents cents) t (Some "hold converted to spend") None;;
      Ok (update_job d2 (j_job_id job) (touch t))).

(** [record_abandoned]: returns what was written *)
Definition record_abandoned (handle : string) (job_id user_id : option string)
    (currency : Currency) (burned : Decimal) (note : string) : M Decimal :=
  already <- query_ok (fun d => abandoned_for_handle d handle currency);;
  let delta := quantize (dec_sub burned (of_cents already)) currency in
  if delta <=? 0 then ret ZERO
  else
    known <- query_ok (fun d => if truthy job_id && fk_job d job_id then job_id else None);;
    owner <- query_ok (fun d => if truthy user_id && fk_user d user_id then user_id else None);;
    t <- now;;
    commit_only (fun d => insert_ledger config d known owner currency ABANDONED (of_cents delta) t
                            (Some note) (Some handle));;;
    ret (of_cents delta).

(** ** Balances *)

Definition period_now : M string := t <- now;; ret (billing_period t (timezone config)).

(** [balance(user_id, currency)] for the current period *)
Definition balance (user_id : string) (currency : Currency) : M Balance :=
  period <- period_now;;
  user <- query (fun d => get_user d user_id);;
  agg <- query_ok (fun d => aggregate (fun e => of_user user_id e && in_currency currency e
                                                && in_period period e) (ledger d));;
  ret (mkBalance user_id currency (user_budget user currency) (fst agg) (snd agg)).

Definition pool_balance (currency : Currency) : M Balance :=
  period <- period_now;;
  agg <- query_ok (fun d => aggregate (fun e => in_currency currency e && in_period period e)
                              (ledger d));;
  ret (mkBalance "<pool>" currency (pool_budget config currency) (fst agg) (snd agg)).

(** Holds of the jobs that have capacity right now, in one currency. *)
Definition active_holds (d : DB) (currency : Currency) : Z :=
  zsum (fun j => if bool_decide (j_currency j = currency)
                 then job_holding d (j_job_id j) currency else 0) (active_jobs d).

Definition pool_committed (currency : Currency) : M Z :=
  period <- period_now;;
  query_ok (fun d => snd (aggregate (fun e => in_currency currency e && in_period period e)
                            (ledger d)) + active_holds d currency).

Definition pool_headroom (currency : Currency) : M Decimal :=
  committed <- pool_committed currency;;
  ret (dec_sub (pool_budget config currency) (of_cents committed)).

(** ** Cancellation requests, attempts, preemptions, checkpoints, pins *)

Definition request_cancel (job : Job) (actor : string) : M Job :=
  t <- now;;
  commit_only (fun d =>
    insert_logs (update_job d (j_job_id job) (fun r =>
        {| r with j_cancel_requested := Some actor; j_updated_at := t |}))
      (j_job_id job) t [("broker", "cancel requested by " +:+ actor)]);;;
  ret {| job with j_cancel_requested := Some actor; j_updated_at := t |}.

Definition record_attempt (job : Job) : M Job :=
  t <- now;;
  commit_only (fun d => Ok (update_job d (j_job_id job) (fun r =>
    {| r with j_attempts := j_attempts r + 1; j_updated_at := t |})));;;
  ret {| job with j_attempts := j_attempts job + 1; j_updated_at := t |}.

Definition record_preemption (job : Job) : M Job :=
  t <- now;;
  commit_only (fun d => Ok (update_job d (j_job_id job) (fun r =>
    {| r with j_preemptions := j_preemptions r + 1; j_updated_at := t |})));;;
  ret {| job with j_preemptions := j_preemptions job + 1; j_updated_at := t |}.

(** The returned object keeps its old [updated_at]; the row does not. *)
Definition record_checkpoint (job : Job) (step : Z) (key : string) : M Job :=
  t <- now;;
  commit_only (fun d => Ok (update_job d (j_job_id job) (fun r =>
    {| r with j_checkpoint_step := Some step; j_checkpoint_key := Some key;
              j_checkpoint_at := Some t; j_updated_at := t |})));;;
  ret {| job with j_checkpoint_step := Some step; j_checkpoint_key := Some key;
                  j_checkpoint_at := Some t |}.

Definition pin_tier (job : Job) (tier reason : string) : M Job :=
  t <- now;;
  commit_only (fun d =>
    insert_logs (update_job d (j_job_id job) (fun r =>
        {| r with j_pinned_tier := Some tier; j_updated_at := t |}))
      (j_job_id job) t [("broker", "pinned to " +:+ tier +:+ ": " +:+ reason)]);;;
  ret {| job with j_pinned_tier := Some tier; j_updated_at := t |}.

(** ** Samples, notifications, prices, drains *)

Definition record_samples (job_id : string) (samples : list Sample) : M unit :=
  match samples with
  | [] => ret tt
  | _ => commit_only (fun d => insert_samples d job_id samples)
  end.

Definition notify (user_id kind message : string) (job_id : option string) : M Notification :=
  t <- now;;
  transaction (fun d => insert_notification d job_id user_id kind message t).

Definition save_prices (ps : list Price) : M unit :=
  match ps with
  | [] => ret tt
  | _ => commit_only (fun d => Ok {| d with prices :=
           fold_left (fun m p => <[prc_gpu_type p := p]> m) ps (prices d) |})
  end.

Definition drain_host (hostname reason actor : string) : M unit :=
  t <- now;;
  commit_only (fun d => Ok {| d with host_drains :=
    <[hostname := mkHostDrain reason t actor]> (host_drains d) |}).

Definition undrain_host (hostname : string) : M unit :=
  commit_only (fun d => Ok {| d with host_drains := delete hostname (host_drains d) |}).

Definition save_baseline (period : string) (instance_hours : float) (dollars : Decimal)
    (source : string) : M unit :=
  t <- now;;
  commit_only (fun d => Ok {| d with baseline :=
    <[period := mkBaselineRow instance_hours dollars source t]> (baseline d) |}).

(** ** Environments *)

(** On a conflict the stored owner and creation time stay. *)
Definition save_environment (e : Environment) : M Environment :=
  t <- now;;
  let created := default t (env_created_at e) in
  commit_only (fun d => Ok {| d with environments :=
    <[env_name e := match environments d !! env_name e with
      | None => {| e with env_created_at := Some created; env_updated_at := Some t |}
      | Some row => {| e with env_owner := env_owner row; env_created_at := env_created_at row;
                              env_updated_at := Some t |}
      end]> (environments d) |});;;
  ret {| e with env_created_at := Some created; env_updated_at := Some t |}.

Definition environment (name : string) : M (option Environment) :=
  query_ok (fun d => environments d !! name).

Definition environment_list : M (list Environment) :=
  query_ok (fun d => map snd (by_key (environments d))).

Definition delete_environment (name : string) : M unit :=
  commit_only (fun d => Ok {| d with environments := delete name (environments d) |}).

Definition record_build (digest target state reference detail : string) : M Build :=
  t <- now;;
  let b := mkBuild digest target state reference detail (Some t) in
  commit_only (fun d => Ok {| d with environment_builds :=
    <[(digest, target) := b]> (environment_builds d) |});;;
  ret b.

Definition build (digest target : string) : M (option Build) :=
  query_ok (fun d => environment_builds d !! (digest, target)).

Definition builds_for (digest : string) : M (list Build) :=
  query_ok (fun d => map snd (py_sort (on (fun kv => snd (fst kv)) str_lt)
    (List.filter (fun kv : (string * string) * Build => String.eqb (fst (fst kv)) digest)
       (map_to_list (environment_builds d))))).

(** ** Logs *)

Definition TRUNCATION_NOTICE (limit : Z) : string :=
  "[broker] output truncated: this job hit the " +:+ str_commas limit +:+ " line limit. " +:+
  "Write anything longer to a file under /data.".

(** [line if len(line) <= width else line[: width - 3] + "..."]; a negative
    slice bound counts from the end. *)
Definition clip (width : Z) (line : string) : string :=
  let n := Z.of_nat (String.length line) in
  if n <=? width then line
  else
    let k := if width - 3 <? 0 then Z.max 0 (n + (width - 3)) else width - 3 in
    str_take (Z.to_nat k) line +:+ "...".

(** [_within_log_budget(job_id, lines)] *)
Definition within_log_budget (d : DB) (job_id : string) (lines : list (string * string))
  : list (string * string) :=
  let cap := max_log_lines_per_job config in
  let stored := log_count d job_id in
  if cap <=? stored then []
  else
    let clipped := map (fun l => (fst l, clip (max_log_line_bytes config) (snd l))) lines in
    let room := cap - stored in
    if Z.of_nat (length clipped) <? room then clipped
    else firstn (Z.to_nat (room - 1)) clipped ++ [("broker", TRUNCATION_NOTICE cap)].

Definition append_log (job_id stream line : string) : M unit :=
  keep <- query_ok (fun d => within_log_budget d job_id [(stream, line)]);;
  match keep with
  | [] => ret tt
  | _ => t <- now;; commit_only (fun d => insert_logs d job_id t keep)
  end.

Definition append_backend_logs (job : Job) (lines : list (string * string)) : M nat :=
  match lines with
  | [] => ret (j_logs_fetched job)
  | _ =>
      t <- now;;
      let cursor := (j_logs_fetched job + length lines)%nat in
      keep <- query_ok (fun d => within_log_budget d (j_job_id job) lines);;
      commit_only (fun d =>
        d1 <-? insert_logs d (j_job_id job) t keep;;
        Ok (update_job d1 (j_job_id job) (fun r =>
              {| r with j_logs_fetched := cursor; j_updated_at := t |})));;;
      ret cursor
  end.
End Store.
