(* ===== verification/StoreInv.v ===== *)
(** * What every committed image of the store satisfies

    [db_ok] is the well-formedness of a database: for each job, what the ledger
    reserved, released and settled for it, and the chain of its transitions.
    [extends] is how a database may grow.  [safe js m f] says that [m], run from
    a sound state in which [js] are copies of stored jobs, commits sound images
    only, extends the database, and returns a value whose jobs [f] are again
    copies of stored jobs.  [Store]'s operations are proved [safe] in
    [StoreSafe.v]; the clients compose them with [safe_bind]. *)

From Stdlib Require Import Sorted.
From S2P Require Import Prelude PySort PyFloat PyDecimal PyFormat Errors Money Clock States Models Config Tables Store.
Local Open Scope Z_scope.

(** ** Sums over the ledger *)

(** What an entry contributes to the sum of one kind for one job and currency. *)
Definition kpart (k : LedgerKind) (id : string) (c : Currency) (e : LedgerEntry) : Z :=
  if of_job id e && in_currency c e && of_kind k e then le_amount e else 0.

Definition ksum (k : LedgerKind) (id : string) (c : Currency) (l : list LedgerEntry) : Z :=
  zsum (kpart k id c) l.

Definition held_part (e : LedgerEntry) : Z :=
  match le_kind e with RESERVE => le_amount e | RELEASE => - le_amount e | _ => 0 end.
Definition spent_part (e : LedgerEntry) : Z :=
  match le_kind e with SETTLE | ABANDONED => le_amount e | _ => 0 end.

Lemma agg_fold l h s :
  fold_left agg_step l (h, s) = (h + zsum held_part l, s + zsum spent_part l).
Proof.
  revert h s. induction l as [|e l IH]; intros h s; cbn [fold_left zsum].
  - by rewrite !Z.add_0_r.
  - unfold agg_step at 2, held_part at 1, spent_part at 1.
    destruct (le_kind e); rewrite IH; f_equal; lia.
Qed.

Lemma zsum_add {A} (f g : A -> Z) l : zsum (fun x => f x + g x) l = zsum f l + zsum g l.
Proof. induction l as [|x l IH]; cbn; lia. Qed.

Lemma zsum_opp {A} (f : A -> Z) l : zsum (fun x => - f x) l = - zsum f l.
Proof. induction l as [|x l IH]; cbn; lia. Qed.

(** [aggregate] is a pair of sums. *)
Lemma aggregate_sums sel l :
  aggregate sel l = (zsum (fun e => if sel e then held_part e else 0) l,
                     zsum (fun e => if sel e then spent_part e else 0) l).
Proof. unfold aggregate. rewrite agg_fold, !zsum_filter. done. Qed.

Lemma job_holding_ksum d id c :
  job_holding d id c = ksum RESERVE id c (ledger d) - ksum RELEASE id c (ledger d).
Proof.
  unfold job_holding, ksum. rewrite aggregate_sums. cbn [fst].
  rewrite <- Z.add_opp_r, <- zsum_opp, <- zsum_add. apply zsum_ext. intros e _.
  unfold kpart, of_kind, held_part.
  destruct (of_job id e), (in_currency c e), (le_kind e); repeat case_bool_decide;
    try congruence; cbn; lia.
Qed.

Lemma ksum_app k id c l1 l2 : ksum k id c (l1 ++ l2) = ksum k id c l1 + ksum k id c l2.
Proof. apply zsum_app. Qed.

Lemma ksum_nonneg k id c l : (forall e, e ∈ l -> 0 < le_amount e) -> 0 <= ksum k id c l.
Proof.
  intros H. apply zsum_nonneg. intros e He%H. unfold kpart.
  destruct (_ && _); lia.
Qed.

(** Everything spent on a job is at least what was settled in its currency. *)
Lemma job_spend_settled d id c :
  (forall e, e ∈ ledger d -> 0 < le_amount e) ->
  ksum SETTLE id c (ledger d) <= job_spend d id.
Proof.
  intros H. unfold job_spend, ksum. rewrite aggregate_sums. cbn [snd].
  apply zsum_le. intros e He%H. unfold kpart, spent_part, of_kind.
  destruct (of_job id e), (in_currency c e), (le_kind e); repeat case_bool_decide;
    try congruence; cbn; lia.
Qed.

Lemma ksum_fresh k id c l :
  (forall e, e ∈ l -> le_job_id e <> Some id) -> ksum k id c l = 0.
Proof.
  intros H. apply zsum_zero. intros e He%H. unfold kpart, of_job.
  by rewrite bool_decide_eq_false_2.
Qed.

(** ** The chain of transitions of a job *)

Definition step_legal (from : option JobState) (r : TransitionRow) : bool :=
  bool_decide (jt_from_state r = from) &&
  match from with
  | None => state_in (jt_to_state r) [QUEUED; REFUSED]
  | Some s => can_transition s (jt_to_state r)
  end.

(** Where the rows lead from a state; [None] when a row is not a legal step. *)
Fixpoint walk (from : option JobState) (rows : list TransitionRow) : option (option JobState) :=
  match rows with
  | [] => Some from
  | r :: rs => if step_legal from r then walk (Some (jt_to_state r)) rs else None
  end.

Lemma walk_app from r1 r2 :
  walk from (r1 ++ r2) = match walk from r1 with Some s => walk s r2 | None => None end.
Proof.
  revert from. induction r1 as [|r r1 IH]; intros from; cbn; [done|].
  destruct (step_legal from r); [apply IH|done].
Qed.

Lemma walk_path from rows s t :
  from = Some s -> walk from rows = Some (Some t) -> path s t.
Proof.
  revert from s. induction rows as [|r rows IH]; intros from s ->; cbn.
  - intros [= <-]. constructor.
  - destruct (step_legal (Some s) r) eqn:Hr; [|done]. intros Hw.
    apply andb_true_iff in Hr as [_ Hr]. eapply path_step; [done|]. by eapply IH.
Qed.

Lemma history_app d rows id :
  List.filter (fun t => String.eqb (jt_job_id t) id) (job_transitions d ++ rows)
  = history d id ++ List.filter (fun t => String.eqb (jt_job_id t) id) rows.
Proof. apply List.filter_app. Qed.

(** ** Well-formed databases *)

(** What the ledger says of one job: [R] reserved, [X] released, [S] settled. *)
Record hold_ok (st : JobState) (res R X S : Z) : Prop := {
  ho_reserve : R = (if bool_decide (st = REFUSED) then 0 else Z.max 0 res);
  ho_settle : S <= X;
  ho_release : X <= R;
  ho_live : state_in st TERMINAL = false -> X = S;
  ho_done : state_in st TERMINAL = true -> X = R
}.

Record job_ok (d : DB) (id : string) (j : Job) : Prop := {
  jo_id : j_job_id j = id;
  jo_user : is_Some (users d !! j_user_id j);
  jo_hold : hold_ok (j_state j) (j_reserved j) (ksum RESERVE id (j_currency j) (ledger d))
    (ksum RELEASE id (j_currency j) (ledger d)) (ksum SETTLE id (j_currency j) (ledger d));
  jo_history : walk None (history d id) = Some (Some (j_state j))
}.

Record db_ok (d : DB) : Prop := {
  ok_jobs : forall id j, jobs d !! id = Some j -> job_ok d id j;
  ok_amounts : forall e, e ∈ ledger d -> 0 < le_amount e;
  ok_fk_ledger : forall e id, e ∈ ledger d -> le_job_id e = Some id -> is_Some (jobs d !! id);
  ok_fk_history : forall t, t ∈ job_transitions d -> is_Some (jobs d !! jt_job_id t);
  ok_users : forall id u, users d !! id = Some u -> u_user_id u = id
}.

(** The columns no statement updates. *)
Record same_fixed (a b : Job) : Prop := {
  sf_id : j_job_id b = j_job_id a;
  sf_user : j_user_id b = j_user_id a;
  sf_command : j_command b = j_command a;
  sf_gpu : j_gpu_type b = j_gpu_type a;
  sf_hours : j_requested_hours b = j_requested_hours a;
  sf_currency : j_currency b = j_currency a;
  sf_reserved : j_reserved b = j_reserved a;
  sf_submitted : j_submitted_at b = j_submitted_at a;
  sf_environment : j_environment b = j_environment a
}.

#[export] Instance same_fixed_preorder : PreOrder same_fixed.
Proof. split; [by constructor|]. intros a b c [] []; constructor; congruence. Qed.

(** How a database grows: append-only tables keep their prefix, no job and no
    user disappears, and the fixed columns of a job stay. *)
Record extends (d d' : DB) : Prop := {
  ex_ledger : ledger d `prefix_of` ledger d';
  ex_transitions : job_transitions d `prefix_of` job_transitions d';
  ex_logs : job_logs d `prefix_of` job_logs d';
  ex_samples : gpu_samples d `prefix_of` gpu_samples d';
  ex_notifications : notifications d `prefix_of` notifications d';
  ex_jobs : forall id j, jobs d !! id = Some j ->
    exists j', jobs d' !! id = Some j' /\ same_fixed j j';
  ex_users : forall id, is_Some (users d !! id) -> is_Some (users d' !! id)
}.

#[export] Instance extends_preorder : PreOrder extends.
Proof.
  split.
  - intros d. constructor; try reflexivity; [|done]. intros id j Hj. by exists j.
  - intros d1 d2 d3 [] []. constructor; try (by etransitivity); [|auto].
    intros id j Hj. destruct (ex_jobs0 _ _ Hj) as (j2 & Hj2 & ?).
    destruct (ex_jobs1 _ _ Hj2) as (j3 & ? & ?). exists j3. split; [done|by etransitivity].
Qed.

(** A [Job] value held by a client is a copy of a stored row when the fixed
    columns agree; the others may be out of date. *)
Definition copy_of (d : DB) (job : Job) : Prop :=
  exists row, jobs d !! j_job_id job = Some row /\ same_fixed row job.

Lemma copy_of_extends d d' job : extends d d' -> copy_of d job -> copy_of d' job.
Proof.
  intros He (row & Hrow & Hs). destruct (ex_jobs _ _ He _ _ Hrow) as (row' & ? & Hs').
  exists row'. split; [done|]. destruct Hs, Hs'; constructor; congruence.
Qed.

Lemma copy_of_row d id j : db_ok d -> jobs d !! id = Some j -> copy_of d j.
Proof.
  intros Hd Hj. exists j. split; [|reflexivity].
  by rewrite (jo_id _ _ _ (ok_jobs _ Hd _ _ Hj)).
Qed.

Lemma copy_of_same d a b : copy_of d a -> same_fixed a b -> copy_of d b.
Proof.
  intros (row & Hrow & Hs) Hab. exists row. split; [|by etransitivity].
  by rewrite (sf_id _ _ Hab).
Qed.

Lemma db_ok_empty : db_ok empty_db.
Proof. constructor; cbn; intros *; rewrite ?lookup_empty; try done; by intros []%elem_of_nil. Qed.

(** ** Sound states and safe computations *)

Section Safe.
Context {W : Type}.

(** Every committed image is well formed, each extends the ones before it, and
    the newest is the one in use. *)
Record sound (s : St W) : Prop := {
  so_newest : exists older, journal s = db s :: older;
  so_journal : Forall db_ok (journal s);
  so_chain : StronglySorted (fun newer older => extends older newer) (journal s)
}.

Lemma so_db (s : St W) : sound s -> db_ok (db s).
Proof. intros [[older E] Hj _]. rewrite E in Hj. by inversion Hj. Qed.

Lemma so_older (s : St W) d : sound s -> d ∈ journal s -> extends d (db s).
Proof.
  intros [[older E] _ Hc] Hd. rewrite E in Hc, Hd. apply elem_of_cons in Hd as [->|Hd]; [done|].
  apply StronglySorted_inv in Hc as [_ Hc]. by apply (proj1 (List.Forall_forall _ _) Hc), list_elem_of_In.
Qed.

(** From one state to a later one: the database extends and nothing that was
    committed is forgotten. *)
Record grows (s s' : St W) : Prop := {
  gr_db : extends (db s) (db s');
  gr_journal : journal s `suffix_of` journal s'
}.

#[export] Instance grows_preorder : PreOrder grows.
Proof.
  split; [by split|]. intros a b c [] []. split; by etransitivity.
Qed.

(** A state that differs in the clock and the world only. *)
Lemma sound_same s s' : sound s -> db s' = db s -> journal s' = journal s -> sound s' /\ grows s s'.
Proof.
  intros [Hn Hj Hc] Ed Ej. split.
  - constructor; rewrite ?Ed, ?Ej; done.
  - constructor; rewrite ?Ed, ?Ej; done.
Qed.

(** A commit. *)
Lemma sound_commit s d' t w :
  sound s -> db_ok d' -> extends (db s) d' ->
  sound (mkSt d' t (d' :: journal s) w) /\ grows s (mkSt d' t (d' :: journal s) w).
Proof.
  intros Hs Hd He. split; constructor; cbn.
  - by eexists.
  - constructor; [done|apply Hs].
  - constructor; [apply Hs|]. apply List.Forall_forall. intros d Hin.
    transitivity (db s); [|done]. apply so_older; [done|by apply list_elem_of_In].
  - done.
  - by exists [d'].
Qed.

Definition safe {A} (js : list Job) (m : M (St W) exn A) (f : A -> list Job) : Prop :=
  forall s, sound s -> Forall (copy_of (db s)) js ->
  let '(s', r) := m s in
  sound s' /\ grows s s' /\
  match r with Ok a => Forall (copy_of (db s')) (f a) | Raise _ => True end.

Definition none {A} : A -> list Job := fun _ => [].
Definition one : Job -> list Job := fun j => [j].

Lemma safe_weaken {A} js js' (m : M (St W) exn A) f f' :
  safe js' m f' -> js' ⊆ js -> (forall a, f a ⊆ f' a) -> safe js m f.
Proof.
  intros H Hjs Hf s Hs Hc. specialize (H s Hs).
  destruct (m s) as [s' [a|e]]; destruct H as (H1 & H2 & H3).
  1,3: by eapply Forall_sub.
  - split_and!; [done..|]. eapply Forall_sub; [apply Hf|done].
  - by split_and!.
Qed.

Lemma Forall_copy_extends (s s' : St W) js :
  grows s s' -> Forall (copy_of (db s)) js -> Forall (copy_of (db s')) js.
Proof. intros [He _] Hj. eapply Forall_impl; [done|]. intros j. by apply copy_of_extends. Qed.

Lemma safe_bind {A B} js (m : M (St W) exn A) f (k : A -> M (St W) exn B) g :
  safe js m f -> (forall a, safe (f a ++ js) (k a) g) -> safe js (bind m k) g.
Proof.
  intros Hm Hk s Hs Hc. unfold bind. specialize (Hm s Hs Hc).
  destruct (m s) as [s1 [a|e]]; destruct Hm as (Hs1 & He1 & Ha); [|by split_and!].
  specialize (Hk a s1 Hs1). destruct (k a s1) as [s2 [b|e]];
    (destruct Hk as (? & He2 & ?);
      [apply Forall_app; split; [done|by eapply Forall_copy_extends]|]);
    (split_and!; [done|by etransitivity|done]).
Qed.

Lemma safe_reads {A} js (m : M (St W) exn A) :
  reads m -> safe js m none.
Proof.
  intros Hm s Hs Hc. specialize (Hm s). destruct (m s) as [s' [a|e]]; cbn in *; subst;
    split_and!; done.
Qed.

Lemma safe_ret {A} js (a : A) f : f a ⊆ js -> safe js (ret a) f.
Proof. intros Hf s Hs Hc. cbn. split_and!; [done..|]. by eapply Forall_sub. Qed.

Lemma safe_ret_none {A} js (a : A) : safe js (ret a) none.
Proof. by apply safe_reads. Qed.

Lemma safe_raise {A} js (e : exn) f : safe js (raise e : M (St W) exn A) f.
Proof. intros s Hs Hc. by cbn. Qed.

Lemma safe_try {A} js (m : M (St W) exn A) caught h f :
  safe js m f -> (forall e, safe js (h e) f) -> safe js (try_catch m caught h) f.
Proof.
  intros Hm Hh s Hs Hc. unfold try_catch. specialize (Hm s Hs Hc).
  destruct (m s) as [s1 [a|e]]; destruct Hm as (Hs1 & He1 & Ha); [by split_and!|].
  destruct (caught e); [|by split_and!].
  specialize (Hh e s1 Hs1 ltac:(by eapply Forall_copy_extends)).
  destruct (h e s1) as [s2 [b|e']]; destruct Hh as (? & He2 & ?);
    (split_and!; [done|by etransitivity|done]).
Qed.

(** A read whose result is made of stored rows. *)
Lemma safe_query {A} js (q : DB -> outcome exn A) f :
  (forall d a, db_ok d -> Forall (copy_of d) js -> q d = Ok a -> Forall (copy_of d) (f a)) ->
  safe js (query q) f.
Proof.
  intros H s Hs Hc. unfold query. destruct (q (db s)) eqn:Hq;
    split_and!; try done. apply H; [by apply so_db|done|done].
Qed.

Lemma safe_query_ok {A} js (q : DB -> A) f :
  (forall d, db_ok d -> Forall (copy_of d) js -> Forall (copy_of d) (f (q d))) ->
  safe js (query_ok q) f.
Proof. intros H s Hs Hc. cbn. split_and!; try done. apply H; [by apply so_db|done]. Qed.

(** A transaction whose body keeps [db_ok] and extends. *)
Lemma safe_transaction {A} js (body : DB -> outcome exn (DB * A)) f :
  (forall d d' a, db_ok d -> Forall (copy_of d) js -> body d = Ok (d', a) ->
     db_ok d' /\ extends d d' /\ Forall (copy_of d') (f a)) ->
  safe js (transaction body) f.
Proof.
  intros H s Hs Hc. unfold transaction.
  destruct (body (db s)) as [[d' a]|e] eqn:Hb; [|by split_and!].
  destruct (H _ _ _ (so_db _ Hs) Hc Hb) as (Hd & He & Hf).
  destruct (sound_commit s d' (clock s) (world s) Hs Hd He). by split_and!.
Qed.

Lemma safe_commit_only js (body : DB -> outcome exn DB) :
  (forall d d', db_ok d -> Forall (copy_of d) js -> body d = Ok d' ->
     db_ok d' /\ extends d d') ->
  safe js (commit_only body) none.
Proof.
  intros H. apply safe_transaction. intros d d1 a Hd Hc Hb.
  apply obind_ok in Hb as (d2 & Hb & [= <- <-]).
  destruct (H _ _ Hd Hc Hb). split_and!; done.
Qed.

(** Loops: the copies [f acc] of the accumulator are an invariant. *)
Lemma safe_foldM {A B} js (step : A -> B -> M (St W) exn A) (xs : list B) (g : B -> list Job) acc f :
  Forall (fun x => g x ⊆ js) xs -> f acc ⊆ js ->
  (forall a x, safe (f a ++ g x ++ js) (step a x) f) ->
  safe js (foldM step acc xs) f.
Proof.
  intros Hg Hacc Hstep.
  assert (H : forall xs acc, Forall (fun x => g x ⊆ js) xs ->
            safe (f acc ++ js) (foldM step acc xs) f).
  { clear acc xs Hg Hacc. induction xs as [|x xs IH]; intros acc Hg; cbn.
    - apply safe_ret. set_solver.
    - inversion_clear Hg. eapply safe_bind.
      + eapply safe_weaken; [apply (Hstep acc x)|set_solver|done].
      + intros a. eapply safe_weaken; [by apply IH|set_solver|done]. }
  eapply safe_weaken; [by apply H|set_solver|done].
Qed.

Lemma safe_foldM_none {A B} js (step : A -> B -> M (St W) exn A) (xs : list B) acc :
  (forall a x, safe js (step a x) none) -> safe js (foldM step acc xs) none.
Proof.
  intros Hstep. revert acc. induction xs as [|x xs IH]; intros acc; cbn; [apply safe_ret_none|].
  eapply safe_bind; [apply Hstep|]. intros a. apply IH.
Qed.
End Safe.

(** Between two well-formed databases, the second grown from the first, a job
    has moved along legal edges only. *)
Lemma extends_path d d' id j :
  db_ok d -> db_ok d' -> extends d d' -> jobs d !! id = Some j ->
  exists j', jobs d' !! id = Some j' /\ same_fixed j j' /\ path (j_state j) (j_state j').
Proof.
  intros Hd Hd' He Hj. destruct (ex_jobs _ _ He _ _ Hj) as (j' & Hj' & Hs).
  exists j'. split_and!; [done|done|].
  pose proof (jo_history _ _ _ (ok_jobs _ Hd _ _ Hj)) as Hw.
  pose proof (jo_history _ _ _ (ok_jobs _ Hd' _ _ Hj')) as Hw'.
  destruct (ex_transitions _ _ He) as [rows Hr].
  unfold history in Hw'. rewrite Hr, List.filter_app, walk_app in Hw'.
  fold (history d id) in Hw'. rewrite Hw in Hw'. by eapply walk_path.
Qed.
