(* ===== verification/StoreSafe.v ===== *)
(** * The operations of the store keep its databases well formed

    One lemma per writing operation of [Store.v]: it is [safe], that is it
    commits well-formed images only and extends the database.  [settle] alone
    has a side condition, that the amount is still held for the job: the
    scheduler's ceiling is what provides it. *)

From S2P Require Import Prelude PySort PyFloat PyDecimal PyFormat Errors Money Clock States Models Config Tables Store StoreInv.
Local Open Scope Z_scope.
Local Open Scope py_scope.

(** Rows that differ in the columns neither the ledger nor the history mention. *)
Definition same_row (a b : Job) : Prop := same_fixed a b /\ j_state b = j_state a.

Lemma same_row_refl a : same_row a a.
Proof. by split. Qed.
#[export] Hint Resolve same_row_refl : core.

Lemma kpart_other k id c e : le_job_id e <> Some id -> kpart k id c e = 0.
Proof. intros H. unfold kpart, of_job. by rewrite bool_decide_eq_false_2. Qed.

Lemma kpart_kind k id c e : le_kind e <> k -> kpart k id c e = 0.
Proof.
  intros H. unfold kpart, of_kind. rewrite (bool_decide_eq_false_2 _ H).
  by rewrite andb_false_r.
Qed.

Lemma kpart_own k id c e :
  le_job_id e = Some id -> le_currency e = c -> le_kind e = k -> kpart k id c e = le_amount e.
Proof. intros. unfold kpart, of_job, in_currency, of_kind. by rewrite !bool_decide_eq_true_2. Qed.

Lemma ksum_other k id c es :
  (forall e i, e ∈ es -> le_job_id e = Some i -> i <> id) -> ksum k id c es = 0.
Proof. intros H. apply zsum_zero. intros e He. apply kpart_other. intros Hi. by eapply H. Qed.

Lemma history_other d d' rows id :
  job_transitions d' = job_transitions d ++ rows ->
  (forall r, r ∈ rows -> jt_job_id r <> id) -> history d' id = history d id.
Proof.
  intros Hr Hrows. unfold history. rewrite Hr, List.filter_app.
  replace (List.filter _ rows) with ([] : list TransitionRow); [by rewrite app_nil_r|].
  clear Hr. induction rows as [|r rows IH]; cbn; [done|].
  destruct (String.eqb_spec (jt_job_id r) id) as [E|]; [exfalso; eapply Hrows; [left|done]|].
  apply IH. intros. apply Hrows. by right.
Qed.

(** A job none of the new ledger rows and transitions is of. *)
Lemma job_ok_other d d' id j j' es rows :
  job_ok d id j -> same_row j j' ->
  ledger d' = ledger d ++ es -> job_transitions d' = job_transitions d ++ rows ->
  (forall e i, e ∈ es -> le_job_id e = Some i -> i <> id) ->
  (forall r, r ∈ rows -> jt_job_id r <> id) ->
  (forall u, is_Some (users d !! u) -> is_Some (users d' !! u)) ->
  job_ok d' id j'.
Proof.
  intros [Hid Husr Hhold Hh] [Hs Hst] Hl Hr Hes Hrows Hu. constructor.
  - by rewrite (sf_id _ _ Hs).
  - rewrite (sf_user _ _ Hs). auto.
  - by rewrite Hst, (sf_reserved _ _ Hs), (sf_currency _ _ Hs), Hl, !ksum_app,
      !(ksum_other _ id _ es), !Z.add_0_r.
  - by rewrite Hst, (history_other d d' rows id Hr).
Qed.

(** Changing one job: new ledger rows and transitions are all of [id0], other
    rows keep their fixed columns and their state. *)
Lemma db_ok_change d d' id0 es rows :
  db_ok d ->
  ledger d' = ledger d ++ es -> job_transitions d' = job_transitions d ++ rows ->
  (forall e, e ∈ es -> 0 < le_amount e) ->
  (forall e i, e ∈ es -> le_job_id e = Some i -> i = id0 /\ is_Some (jobs d' !! id0)) ->
  (forall r, r ∈ rows -> jt_job_id r = id0 /\ is_Some (jobs d' !! id0)) ->
  (forall id, id <> id0 -> option_Forall2 same_row (jobs d !! id) (jobs d' !! id)) ->
  (is_Some (jobs d !! id0) -> is_Some (jobs d' !! id0)) ->
  (forall id, is_Some (users d !! id) -> is_Some (users d' !! id)) ->
  (forall id u, users d' !! id = Some u -> u_user_id u = id) ->
  (forall j', jobs d' !! id0 = Some j' -> job_ok d' id0 j') ->
  db_ok d'.
Proof.
  intros Hd Hl Hr Hpos Hes Hrows Hj Hj0 Hu Huid H0.
  assert (Hdom : forall id, is_Some (jobs d !! id) -> is_Some (jobs d' !! id)).
  { intros id Hid. destruct (decide (id = id0)) as [->|Hne]; [by apply Hj0|].
    specialize (Hj id Hne). destruct Hid as [j E]. rewrite E in Hj. inversion Hj. by eexists. }
  constructor; [| | | |done].
  - intros id j' E. destruct (decide (id = id0)) as [->|Hne]; [by apply H0|].
    pose proof (Hj id Hne) as Hjj. rewrite E in Hjj. inversion Hjj as [j x Hs E1 E2|]; subst.
    eapply job_ok_other; [by apply (ok_jobs _ Hd)|done|done|done| | |done].
    + intros e i He Hi. destruct (Hes _ _ He Hi); congruence.
    + intros r Hin. destruct (Hrows _ Hin). congruence.
  - intros e. rewrite Hl, elem_of_app. intros [He|He]; [by apply (ok_amounts _ Hd)|by apply Hpos].
  - intros e id. rewrite Hl, elem_of_app. intros [He|He] Hid.
    + by apply Hdom, (ok_fk_ledger _ Hd e).
    + by destruct (Hes _ _ He Hid) as [-> ?].
  - intros t. rewrite Hr, elem_of_app. intros [Ht|Ht].
    + by apply Hdom, (ok_fk_history _ Hd).
    + by destruct (Hrows _ Ht) as [-> ?].
Qed.

(** A statement that leaves the ledger and the history alone. *)
Lemma db_ok_frame d d' :
  db_ok d -> ledger d' = ledger d -> job_transitions d' = job_transitions d ->
  (forall id, option_Forall2 same_row (jobs d !! id) (jobs d' !! id)) ->
  (forall id, is_Some (users d !! id) -> is_Some (users d' !! id)) ->
  (forall id u, users d' !! id = Some u -> u_user_id u = id) ->
  db_ok d'.
Proof.
  intros Hd Hl Hr Hj Hu Huid.
  eapply (db_ok_change d d' "" [] []); rewrite ?app_nil_r; try done; try by intros * ?%elem_of_nil.
  - specialize (Hj ""). intros [j E]. rewrite E in Hj. inversion Hj. by eexists.
  - intros j' E. pose proof (Hj "") as Hj0. rewrite E in Hj0. inversion Hj0 as [j ? Hs E1|]; subst.
    eapply (job_ok_other d d' "" j j' [] []); rewrite ?app_nil_r; try done;
      try by intros * ?%elem_of_nil. by apply (ok_jobs _ Hd).
Qed.

Lemma same_rows_refl (d : DB) id : option_Forall2 same_row (jobs d !! id) (jobs d !! id).
Proof. destruct (jobs d !! id); by constructor. Qed.

Lemma same_rows_alter (m : gmap string Job) f k id :
  (forall j, same_row j (f j)) -> option_Forall2 same_row (m !! id) (alter f k m !! id).
Proof.
  intros Hf. destruct (decide (k = id)) as [->|Hne].
  - rewrite lookup_alter_eq. destruct (m !! id); cbn; by constructor.
  - rewrite lookup_alter_ne by done. destruct (m !! id); by constructor.
Qed.

Lemma same_rows_fixed (m m' : gmap string Job) :
  (forall id, option_Forall2 same_row (m !! id) (m' !! id)) ->
  forall id j, m !! id = Some j -> exists j', m' !! id = Some j' /\ same_fixed j j'.
Proof.
  intros H id j E. specialize (H id). rewrite E in H. inversion H as [? j' [] |]; subst. by exists j'.
Qed.

(** The frame of a statement that touches none of the tables [db_ok] speaks of,
    or changes only free columns of a job. *)
Ltac frame_rows :=
  intros; cbn; first [apply same_rows_refl | apply same_rows_alter; intros ?; by split].

Ltac frame :=
  split;
  [ eapply db_ok_frame; [eassumption|done|done|frame_rows|done|
      match goal with H : db_ok ?d |- _ => exact (ok_users d H) end]
  | constructor; cbn; try reflexivity; try done;
    try (by eexists); try (by apply prefix_app_r); try (apply same_rows_fixed; frame_rows) ].

Lemma frame_update d id f :
  db_ok d -> (forall j, same_row j (f j)) ->
  db_ok (update_job d id f) /\ extends d (update_job d id f).
Proof.
  intros Hd Hf. split.
  - eapply db_ok_frame; [exact Hd|done|done| |done|exact (ok_users _ Hd)].
    intros i. by apply same_rows_alter.
  - constructor; cbn; try done. apply same_rows_fixed. intros i. by apply same_rows_alter.
Qed.

Lemma frame_logs d id t lines d' :
  db_ok d -> insert_logs d id t lines = Ok d' -> db_ok d' /\ extends d d'.
Proof.
  intros Hd. unfold insert_logs. destruct lines; [by intros [= <-]|].
  repeat (case_match; try done). intros [= <-]. frame.
Qed.

Lemma frame_samples d id ss d' :
  db_ok d -> insert_samples d id ss = Ok d' -> db_ok d' /\ extends d d'.
Proof.
  intros Hd. unfold insert_samples. case_match; [done|]. intros [= <-]. frame.
Qed.

Lemma frame_notification d j u k m t d' n :
  db_ok d -> insert_notification d j u k m t = Ok (d', n) -> db_ok d' /\ extends d d'.
Proof.
  intros Hd. unfold insert_notification. case_match; [done|]. intros [= <- <-]. frame.
Qed.

Lemma extends_of_parts d d' es rows :
  ledger d' = ledger d ++ es -> job_transitions d' = job_transitions d ++ rows ->
  job_logs d' = job_logs d -> gpu_samples d' = gpu_samples d ->
  notifications d' = notifications d ->
  (forall id j, jobs d !! id = Some j -> exists j', jobs d' !! id = Some j' /\ same_fixed j j') ->
  (forall id, is_Some (users d !! id) -> is_Some (users d' !! id)) ->
  extends d d'.
Proof.
  intros Hl Hr Hg Hs Hn Hj Hu.
  constructor; [rewrite Hl; by apply prefix_app_r|rewrite Hr; by apply prefix_app_r|..];
    by rewrite ?Hg, ?Hs, ?Hn.
Qed.

Lemma fk_job_some d id : fk_job d (Some id) = true -> is_Some (jobs d !! id).
Proof. apply bool_decide_eq_true. Qed.

Lemma insert_transition_ok d id from to t r d' :
  insert_transition d id from to t r = Ok d' ->
  is_Some (jobs d !! id) /\
  d' = {| d with job_transitions := job_transitions d ++ [mkTransitionRow id from to t r] |}.
Proof.
  unfold insert_transition. destruct (fk_job d (Some id)) eqn:Hfk; [|done].
  intros [= <-]. split; [by apply fk_job_some|done].
Qed.

Section Ops.
Context {W : Type} `{TimeZones} (config : BrokerConfig).

(** The row [insert_ledger] writes. *)
Definition ledger_row (d : DB) j u c k (amount : Decimal) t note handle : LedgerEntry :=
  mkLedgerEntry (Z.of_nat (length (ledger d)) + 1) j u c k (quantize amount c)
    (billing_period t (timezone config)) t note handle.

Lemma insert_ledger_ok d j u c k a t note h d' :
  insert_ledger config d j u c k a t note h = Ok d' ->
  (forall i, j = Some i -> is_Some (jobs d !! i)) /\
  d' = {| d with ledger := ledger d ++ [ledger_row d j u c k a t note h] |}.
Proof.
  unfold insert_ledger. destruct (fk_job d j) eqn:Hj; [|done].
  destruct (fk_user d u); [|done]. cbn. intros [= <-]. split; [|done].
  intros i ->. by apply fk_job_some.
Qed.

(** A job that still holds something is not terminal. *)
Lemma holding_live d id row :
  db_ok d -> jobs d !! id = Some row -> 0 < job_holding d id (j_currency row) ->
  state_in (j_state row) TERMINAL = false.
Proof.
  intros Hd Hrow. rewrite job_holding_ksum. intros Hpos.
  destruct (jo_hold _ _ _ (ok_jobs _ Hd _ _ Hrow)) as [_ _ _ _ Hdone].
  destruct (state_in _ _); [|done]. specialize (Hdone eq_refl). lia.
Qed.

(** [settle], when what it settles is still held. *)
Lemma settle_body d job row cents t1 note1 t2 note2 d1 d2 :
  db_ok d -> jobs d !! j_job_id job = Some row -> same_fixed row job ->
  0 < cents <= job_holding d (j_job_id job) (j_currency job) ->
  insert_ledger config d (Some (j_job_id job)) (Some (j_user_id job)) (j_currency job)
    SETTLE (of_cents cents) t1 note1 None = Ok d1 ->
  insert_ledger config d1 (Some (j_job_id job)) (Some (j_user_id job)) (j_currency job)
    RELEASE (of_cents cents) t2 note2 None = Ok d2 ->
  db_ok d2 /\ extends d d2.
Proof.
  intros Hd Hrow Hs Hc (_ & ->)%insert_ledger_ok (_ & ->)%insert_ledger_ok.
  set (e1 := ledger_row d _ _ _ SETTLE _ _ _ _). set (e2 := ledger_row _ _ _ _ RELEASE _ _ _ _).
  assert (Hlive : state_in (j_state row) TERMINAL = false).
  { apply (holding_live d (j_job_id job)); try done. rewrite <- (sf_currency _ _ Hs). lia. }
  cbn -[e1 e2]. rewrite <- app_assoc.
  assert (Ha : le_amount e1 = cents /\ le_amount e2 = cents).
  { split; apply quantize_cents_of_cents. }
  destruct Ha as [Ha1 Ha2]. split.
  - eapply (db_ok_change d _ (j_job_id job) [e1; e2] []); cbn -[e1 e2];
      rewrite ?app_nil_r; try done.
    + intros e [->|[->|[]%elem_of_nil]%elem_of_cons]%elem_of_cons; lia.
    + intros e i [->|[->|[]%elem_of_nil]%elem_of_cons]%elem_of_cons; cbn; intros [= <-]; eauto.
    + by intros * ?%elem_of_nil.
    + intros. apply same_rows_refl.
    + exact (ok_users _ Hd).
    + intros j'. rewrite Hrow. intros [= <-].
      destruct (ok_jobs _ Hd _ _ Hrow) as [Hid Hu Hh Hw]. constructor; try done.
      rewrite job_holding_ksum in Hc. cbn [ledger].
      rewrite (sf_currency _ _ Hs) in Hc. rewrite !ksum_app. unfold ksum at 2 4 6.
      autorewrite with zsum.
      rewrite !(kpart_kind RESERVE), (kpart_kind RELEASE _ _ e1), (kpart_kind SETTLE _ _ e2) by done.
      rewrite (kpart_own RELEASE), (kpart_own SETTLE) by (try done; by rewrite <- (sf_currency _ _ Hs)).
      rewrite Ha1, Ha2. destruct Hh as [H1 H2 H3 H4 H5].
      specialize (H4 Hlive). constructor; rewrite ?Hlive; try done; lia.
  - eapply (extends_of_parts d _ [e1; e2] []); cbn -[e1 e2]; rewrite ?app_nil_r; try done.
    intros id j Hj. exists j. by split.
Qed.

Lemma insert_writes_ok d job t ws d' :
  insert_writes config d job t ws = Ok d' ->
  exists es, d' = {| d with ledger := ledger d ++ es |} /\
    Forall2 (fun w e => le_job_id e = Some (j_job_id job) /\ le_kind e = lw_kind w /\
      le_currency e = lw_currency w /\ le_amount e = quantize (lw_amount w) (lw_currency w)) ws es.
Proof.
  revert d. induction ws as [|w ws IH]; intros d; cbn.
  - intros [= <-]. exists []. rewrite app_nil_r. by destruct d.
  - intros (d1 & (_ & ->)%insert_ledger_ok & (es & -> & Hes)%IH)%obind_ok.
    eexists (_ :: es). cbn. rewrite <- app_assoc. split; [done|by constructor].
Qed.

Lemma update_state_ok d cur upd d' :
  update_state d cur upd = Ok d' ->
  exists row, jobs d !! j_job_id cur = Some row /\ j_state row = j_state cur /\
    d' = update_job d (j_job_id cur) (fun row => {| row with
      j_state := j_state upd; j_updated_at := j_updated_at upd; j_backend := j_backend upd;
      j_backend_handle := j_backend_handle upd; j_started_at := j_started_at upd;
      j_finished_at := j_finished_at upd; j_exit_code := j_exit_code upd |}).
Proof.
  unfold update_state. destruct (jobs d !! _) as [row|]; [|done].
  case_bool_decide; [|done]. case_match; [done|]. intros [= <-]. by exists row.
Qed.

(** What the release of a finishing job amounts to. *)
Definition released_of (d : DB) (job : Job) (to : JobState) : list LedgerWrite :=
  if state_in to TERMINAL then release_remaining_hold d job [] else [].

Lemma released_sum d job to es :
  let K k l := ksum k (j_job_id job) (j_currency job) l in
  Forall2 (fun w e => le_job_id e = Some (j_job_id job) /\ le_kind e = lw_kind w /\
    le_currency e = lw_currency w /\ le_amount e = quantize (lw_amount w) (lw_currency w))
    (released_of d job to) es ->
  (forall e, e ∈ es -> le_kind e = RELEASE /\ 0 < le_amount e
                       /\ le_job_id e = Some (j_job_id job)) /\
  K RELEASE es = if state_in to TERMINAL
                 then Z.max 0 (job_holding d (j_job_id job) (j_currency job)) else 0.
Proof.
  cbn. unfold released_of. destruct (state_in to TERMINAL).
  - unfold release_remaining_hold. cbn [fold_left].
    set (h := job_holding _ _ _). unfold ZERO. autorewrite with dec.
    destruct (Z.leb_spec h 0) as [Hle|Hlt]; intros Hf.
    + apply Forall2_nil_inv_l in Hf as ->. split; [by intros * ?%elem_of_nil|].
      cbn. lia.
    + apply Forall2_cons_inv_l in Hf as (e & es' & (Hi & Hk & Hc & Ha) & Hf & ->).
      apply Forall2_nil_inv_l in Hf as ->. cbn [lw_amount lw_currency lw_kind] in Ha, Hk, Hc.
      assert (le_amount e = h) as Hamt.
      { rewrite Ha. unfold quantize. by rewrite !quantize_cents_of_cents. }
      split.
      * intros e' [->|[]%elem_of_nil]%elem_of_cons. split_and!; [done|lia|done].
      * unfold ksum. autorewrite with zsum. rewrite kpart_own by done. lia.
  - intros ->%Forall2_nil_inv_l. by split; [by intros * ?%elem_of_nil|].
Qed.

(** [transition] without extra ledger rows: the body of its transaction. *)
Lemma transition_body d job to args t d1 d2 d3 :
  db_ok d -> copy_of d job -> can_transition (j_state job) to = true ->
  update_state d job (transitioned job to args t) = Ok d1 ->
  insert_transition d1 (j_job_id job) (Some (j_state job)) to t (ta_reason args) = Ok d2 ->
  insert_writes config d2 job t (released_of d job to) = Ok d3 ->
  db_ok d3 /\ extends d d3.
Proof.
  intros Hd (row & Hrow & Hs) Hcan (row' & Hrow' & Hst & ->)%update_state_ok
    (_ & ->)%insert_transition_ok (es & -> & Hes)%insert_writes_ok.
  assert (row' = row) as -> by congruence. clear Hrow'.
  destruct (released_sum d job to es Hes) as [Hin Hsum]. clear Hes.
  set (f := fun row : Job => _). set (r := mkTransitionRow _ _ _ _ _).
  assert (Hlive : state_in (j_state row) TERMINAL = false).
  { destruct (state_in (j_state row) TERMINAL) eqn:E; [|done].
    rewrite <- Hst in Hcan. by rewrite terminal_no_exit in Hcan. }
  assert (Hf : forall j, same_fixed j (f j)) by (intros; by constructor).
  assert (Hlook : alter f (j_job_id job) (jobs d) !! j_job_id job = Some (f row))
    by (by rewrite lookup_alter_eq, Hrow).
  split.
  - eapply (db_ok_change d _ (j_job_id job) es [r]); cbn -[r f]; try done.
    + intros e He. by apply Hin.
    + intros e i He. rewrite (proj2 (proj2 (Hin _ He))). intros [= <-].
      rewrite Hlook. eauto.
    + intros ? [->|[]%elem_of_nil]%elem_of_cons. rewrite Hlook. cbn. eauto.
    + intros id Hne. rewrite lookup_alter_ne by done. destruct (jobs d !! id); by constructor.
    + exact (ok_users _ Hd).
    + intros j'. rewrite Hlook. intros [= <-].
      destruct (ok_jobs _ Hd _ _ Hrow) as [Hid Hu Hh Hw]. constructor; try done.
      * rewrite job_holding_ksum in Hsum. cbn [ledger].
        rewrite !ksum_app.
        rewrite !(sf_currency _ _ Hs) in Hsum. change (j_currency (f row)) with (j_currency row).
        rewrite Hsum.
        assert (Hz : forall k, k <> RELEASE -> ksum k (j_job_id job) (j_currency row) es = 0).
        { intros k Hk. apply zsum_zero. intros e He. apply kpart_kind.
          by rewrite (proj1 (Hin _ He)). }
        rewrite !Hz by done. change (j_state (f row)) with to.
        change (j_reserved (f row)) with (j_reserved row).
        destruct Hh as [H1 H2 H3 H4 H5]. specialize (H4 Hlive).
        rewrite bool_decide_eq_false_2 in H1 by (intros E; by rewrite E in Hlive).
        constructor.
        -- rewrite bool_decide_eq_false_2; [lia|]. intros ->. by rewrite into_refused in Hcan.
        -- destruct (state_in to TERMINAL); lia.
        -- destruct (state_in to TERMINAL); lia.
        -- intros ->. lia.
        -- intros ->. lia.
      * unfold history. cbn. rewrite history_app. unfold history in Hw |- *.
        rewrite walk_app. fold (history d (j_job_id job)) in Hw |- *. rewrite Hw. cbn.
        rewrite String.eqb_refl. cbn. unfold step_legal. cbn.
        rewrite Hst, Hcan, bool_decide_eq_true_2 by done. done.
  - eapply (extends_of_parts d _ es [r]); cbn -[r f]; try done.
    intros id j Hj. destruct (decide (id = j_job_id job)) as [->|Hne].
    + exists (f row). assert (j = row) as -> by congruence. by split.
    + exists j. by rewrite lookup_alter_ne.
Qed.

Lemma insert_job_ok d j d' :
  insert_job d j = Ok d' ->
  jobs d !! j_job_id j = None /\ is_Some (users d !! j_user_id j) /\
  exists row, d' = {| d with jobs := <[j_job_id j := row]> (jobs d) |} /\
    same_fixed j row /\ j_state row = j_state j.
Proof.
  unfold insert_job. case_bool_decide as Hn; [done|].
  destruct (fk_user d (Some (j_user_id j))) eqn:Hfk; [|done]. cbn [negb].
  case_match; [done|]. case_match; [done|]. intros [= <-].
  split; [by apply eq_None_not_Some|]. split; [by apply bool_decide_eq_true in Hfk|].
  eexists. split; [done|]. by split.
Qed.

Lemma fresh_sums d id k c : db_ok d -> jobs d !! id = None -> ksum k id c (ledger d) = 0.
Proof.
  intros Hd Hn. apply ksum_fresh. intros e He Hi.
  destruct (ok_fk_ledger _ Hd _ _ He Hi). congruence.
Qed.

Lemma fresh_history d id : db_ok d -> jobs d !! id = None -> history d id = [].
Proof.
  intros Hd Hn. unfold history. pose proof (ok_fk_history _ Hd) as Hfk. revert Hfk.
  induction (job_transitions d) as [|r rs IH]; intros Hfk; cbn; [done|].
  destruct (String.eqb_spec (jt_job_id r) id) as [E|].
  - destruct (Hfk r ltac:(left)). congruence.
  - apply IH. intros. apply Hfk. by right.
Qed.

(** A new job: its row, its first transition and its ledger rows [es]. *)
Lemma new_job_body d job d1 d2 t reason es :
  db_ok d -> insert_job d job = Ok d1 ->
  insert_transition d1 (j_job_id job) None (j_state job) t reason = Ok d2 ->
  (j_state job = REFUSED /\ es = [] \/
   j_state job = QUEUED /\ (forall e, e ∈ es -> 0 < le_amount e /\
     le_job_id e = Some (j_job_id job) /\ le_kind e = RESERVE) /\
     ksum RESERVE (j_job_id job) (j_currency job) es = Z.max 0 (j_reserved job)) ->
  let d3 := {| d2 with ledger := ledger d2 ++ es |} in
  db_ok d3 /\ extends d d3 /\ copy_of d3 job.
Proof.
  intros Hd (Hn & Hu & row & -> & Hs & Hst)%insert_job_ok (_ & ->)%insert_transition_ok Hes d3.
  set (r := mkTransitionRow _ _ _ _ _) in d3.
  assert (Hin : forall e, e ∈ es -> 0 < le_amount e /\ le_job_id e = Some (j_job_id job)
                                  /\ le_kind e = RESERVE).
  { destruct Hes as [[_ ->]|(_ & ? & _)]; [by intros * ?%elem_of_nil|done]. }
  assert (Hz : forall k, k <> RESERVE -> ksum k (j_job_id job) (j_currency job) es = 0).
  { intros k Hk. apply zsum_zero. intros e He. apply kpart_kind.
    by rewrite (proj2 (proj2 (Hin _ He))). }
  assert (Hlook : jobs d3 !! j_job_id job = Some row) by apply lookup_insert_eq.
  assert (Hother : forall id, id <> j_job_id job -> jobs d3 !! id = jobs d !! id)
    by (intros; by apply lookup_insert_ne).
  split; [|split].
  - eapply (db_ok_change d d3 (j_job_id job) es [r]); try done.
    + intros e He. by apply Hin.
    + intros e i He. rewrite (proj1 (proj2 (Hin _ He))). intros [= <-]. rewrite Hlook. eauto.
    + intros ? [->|[]%elem_of_nil]%elem_of_cons. rewrite Hlook. eauto.
    + intros id Hne. rewrite Hother by done. apply same_rows_refl.
    + exact (ok_users _ Hd).
    + intros j'. rewrite Hlook. intros [= <-]. constructor.
      * apply Hs.
      * rewrite (sf_user _ _ Hs). exact Hu.
      * rewrite Hst, (sf_reserved _ _ Hs), (sf_currency _ _ Hs).
        change (ledger d3) with (ledger d ++ es). rewrite !ksum_app, !fresh_sums, (Hz RELEASE), (Hz SETTLE) by done.
        destruct Hes as [[-> ->]|(-> & _ & ->)]; constructor; cbn; try done; lia.
      * unfold history. cbn. rewrite history_app, (fresh_history d) by done. cbn.
        rewrite String.eqb_refl, Hst. subst r. unfold step_legal. cbn.
        destruct Hes as [[E _]|[E _]]; rewrite E; reflexivity.
  - eapply (extends_of_parts d d3 es [r]); try done.
    intros id j Hj. exists j. rewrite Hother by congruence. by split.
  - exists row. split; [done|]. by destruct Hs; constructor.
Qed.

(** An abandoned machine's row touches no hold. *)
Lemma abandoned_body d job u c (delta : Z) t note h d' :
  db_ok d -> 0 < delta ->
  insert_ledger config d job u c ABANDONED (of_cents delta) t note h = Ok d' ->
  db_ok d' /\ extends d d'.
Proof.
  intros Hd Hpos (Hj & ->)%insert_ledger_ok. set (e := ledger_row _ _ _ _ _ _ _ _ _).
  assert (Hz : forall k id c, k <> ABANDONED -> ksum k id c [e] = 0).
  { intros k id c' Hk. apply zsum_zero. intros ? [->|[]%elem_of_nil]%elem_of_cons.
    apply kpart_kind. by intros <-. }
  split.
  - constructor; cbn -[e].
    + intros id j Hjob. destruct (ok_jobs _ Hd _ _ Hjob) as [Hid Hu Hh Hw].
      constructor; try done. cbn [ledger]. by rewrite !ksum_app, !Hz, !Z.add_0_r.
    + intros x [Hx|[->|[]%elem_of_nil]%elem_of_cons]%elem_of_app; [by apply (ok_amounts _ Hd)|].
      change (le_amount e) with (quantize_cents (of_cents delta)).
      by rewrite quantize_cents_of_cents.
    + intros x id [Hx|[->|[]%elem_of_nil]%elem_of_cons]%elem_of_app; [by apply (ok_fk_ledger _ Hd)|].
      apply Hj.
    + exact (ok_fk_history _ Hd).
    + exact (ok_users _ Hd).
  - eapply (extends_of_parts d _ [e] []); cbn -[e]; rewrite ?app_nil_r; try done.
    intros id j Hjob. exists j. by split.
Qed.

(** ** The operations *)

Lemma safe_now js : safe (W := W) js now none.
Proof. by apply safe_reads. Qed.

Lemma safe_query_plain {A} js (q : DB -> outcome exn A) : safe (W := W) js (query q) none.
Proof. by apply safe_reads. Qed.

Lemma safe_query_ok_plain {A} js (q : DB -> A) : safe (W := W) js (query_ok q) none.
Proof. by apply safe_reads. Qed.

(** A read, then a computation: the copies are still there. *)
Lemma safe_read {A B} js (m : M (St W) exn A) (k : A -> M (St W) exn B) g :
  reads m -> (forall a, safe js (k a) g) -> safe js (bind m k) g.
Proof. intros Hm Hk. eapply safe_bind; [by apply safe_reads|]. intros a. apply Hk. Qed.

(** A step that returns no new copies, then a computation. *)
Lemma safe_then {A B} js (m : M (St W) exn A) (k : A -> M (St W) exn B) g :
  safe js m none -> (forall a, safe js (k a) g) -> safe js (bind m k) g.
Proof. intros Hm Hk. eapply safe_bind; [exact Hm|]. intros a. apply Hk. Qed.

Lemma users_frame d m :
  db_ok d -> (forall id, is_Some (users d !! id) -> is_Some (m !! id)) ->
  (forall id u, m !! id = Some u -> u_user_id u = id) ->
  let d' := {| d with users := m |} in db_ok d' /\ extends d d'.
Proof.
  intros Hd Hm Hid d'. split.
  - eapply (db_ok_frame d d'); try done. intros. apply (same_rows_refl d).
  - constructor; try done. intros id j Hj. by exists j.
Qed.

Lemma alter_users_frame d f k :
  db_ok d -> (forall u, u_user_id (f u) = u_user_id u) ->
  let d' := {| d with users := alter f k (users d) |} in db_ok d' /\ extends d d'.
Proof.
  intros Hd Hf. apply users_frame; [done|..].
  - intros id [u Hu]. destruct (decide (k = id)) as [->|].
    + rewrite lookup_alter_eq, Hu. by eexists.
    + by rewrite lookup_alter_ne, Hu.
  - intros id u. destruct (decide (k = id)) as [->|].
    + rewrite lookup_alter_eq. intros (v & Hv & ->)%fmap_Some. rewrite Hf. by apply (ok_users _ Hd).
    + rewrite lookup_alter_ne by done. apply (ok_users _ Hd).
Qed.

Lemma safe_upsert_user js id name b1 b2 adm :
  safe (W := W) js (upsert_user config id name b1 b2 adm) none.
Proof.
  unfold upsert_user. apply safe_read; [done|]. intros [e|]; (apply safe_read; [done|]; intros t);
    (apply safe_then; [|intros; apply safe_ret_none]); apply safe_commit_only; intros d d' Hd _.
  - intros [= <-]. by apply alter_users_frame.
  - case_bool_decide; [done|]. intros [= <-]. apply users_frame; [done|..].
    + intros i [u Hu]. destruct (decide (id = i)) as [->|].
      * rewrite lookup_insert_eq. by eexists.
      * by rewrite lookup_insert_ne, Hu.
    + intros i u. destruct (decide (id = i)) as [->|].
      * rewrite lookup_insert_eq. by intros [= <-].
      * rewrite lookup_insert_ne by done. apply (ok_users _ Hd).
Qed.

Lemma safe_suspend_user js id reason actor :
  safe (W := W) js (suspend_user id reason actor) none.
Proof.
  unfold suspend_user. do 2 (apply safe_read; [done|]; intros ?).
  apply safe_then; [|intros; apply safe_query_plain].
  apply safe_commit_only. intros d d' Hd _ [= <-]. by apply alter_users_frame.
Qed.

Lemma safe_restore_user js id actor : safe (W := W) js (restore_user id actor) none.
Proof.
  unfold restore_user. apply safe_read; [done|]; intros ?.
  apply safe_then; [|intros; apply safe_query_plain].
  apply safe_commit_only. intros d d' Hd _ [= <-]. by apply alter_users_frame.
Qed.

Lemma safe_record_schedule_observation js a b c e f g h :
  safe (W := W) js (record_schedule_observation a b c e f g h) none.
Proof.
  unfold record_schedule_observation. apply safe_read; [done|]. intros latest.
  match goal with |- context [if ?b then _ else _] => destruct b end; [apply safe_ret_none|].
  apply safe_read; [done|]. intros t. apply safe_commit_only. intros d d' Hd _.
  case_match; [done|]. intros [= <-]. frame.
Qed.

Lemma safe_create_job js u cmd g h c r id env org :
  safe (W := W) js (create_job config u cmd g h c r id env org) one.
Proof.
  unfold create_job. apply safe_read; [done|]. intros _. apply safe_read; [done|]. intros t.
  set (job := mkJob _ _ _ _ _ _ _ _ _ _ _ _ _ _ _ _ _ _ _ _ _ _ _ _ _ _).
  eapply (safe_bind js _ (fun _ => [job])); [|intros; apply safe_ret; set_solver].
  apply safe_transaction. intros d d3 a Hd _ Hb.
  apply obind_ok in Hb as (d3' & Hb & [= <- <-]). apply obind_ok in Hb as (d1 & Hi & Hb).
  apply obind_ok in Hb as (d2 & Ht & Hl). revert Hl.
  destruct (Z.ltb_spec 0 (j_reserved job)) as [Hpos|Hneg].
  - intros (_ & ->)%insert_ledger_ok. set (e := ledger_row _ _ _ _ _ _ _ _ _).
    assert (Ha : le_amount e = j_reserved job) by apply quantize_cents_of_cents.
    destruct (new_job_body d job d1 d2 t (Some "submitted") [e]) as (? & ? & ?);
      [done|exact Hi|exact Ht|right|].
    + split_and!; [done| |].
      * intros ? [->|[]%elem_of_nil]%elem_of_cons. split_and!; [lia|done..].
      * unfold ksum. autorewrite with zsum. rewrite kpart_own by done. lia.
    + split_and!; [done|done|]. by constructor.
  - intros [= <-].
    destruct (new_job_body d job d1 d2 t (Some "submitted") []) as (H1 & H2 & H3);
      [done|exact Hi|exact Ht|right|].
    + split_and!; [done|by intros * ?%elem_of_nil|]. unfold ksum. cbn [zsum]. lia.
    + rewrite app_nil_r in H1, H2, H3. destruct d2. split_and!; [done..|by constructor].
Qed.

Lemma safe_record_refusal js u cmd g h c r reason id org :
  safe (W := W) js (record_refusal u cmd g h c r reason id org) one.
Proof.
  unfold record_refusal. apply safe_read; [done|]. intros t.
  set (job := mkJob _ _ _ _ _ _ _ _ _ _ _ _ _ _ _ _ _ _ _ _ _ _ _ _ _ _).
  eapply (safe_bind js _ (fun _ => [job])); [|intros; apply safe_ret; set_solver].
  apply safe_transaction. intros d d3 a Hd _ Hb.
  apply obind_ok in Hb as (d2 & Hb & [= <- <-]). apply obind_ok in Hb as (d1 & Hi & Ht).
  destruct (new_job_body d job d1 d2 t (Some reason) []) as (H1 & H2 & H3);
    [done|exact Hi|exact Ht|by left|].
  rewrite app_nil_r in H1, H2, H3. destruct d2. split_and!; [done..|by constructor].
Qed.

(** [transition], as every caller calls it: without extra ledger rows. *)
Lemma safe_transition js job to args :
  job ∈ js -> ta_ledger args = [] ->
  safe (W := W) js (transition config job to args) one.
Proof.
  intros Hin Hnil s Hs Hc. unfold transition.
  destruct (can_transition (j_state job) to) eqn:Hcan; [|by cbn].
  assert (Hcopy : copy_of (db s) job) by (eapply Forall_forall in Hc; eauto).
  cbn -[transitioned release_remaining_hold]. unfold bind, commit_only, transaction.
  cbn -[transitioned release_remaining_hold]. rewrite Hnil. cbn [app].
  fold (released_of (db s) job to).
  destruct (obind _ _) as [[d' []]|e] eqn:Hb; [|by split_and!].
  apply obind_ok in Hb as (d3 & Hb & [= <-]). apply obind_ok in Hb as (d1 & H1 & Hb).
  apply obind_ok in Hb as (d2 & H2 & H3).
  destruct (transition_body (db s) job to args (clock s) d1 d2 d3) as [Hd He]; try done;
    [by apply so_db|].
  destruct (sound_commit s d3 (clock s) (world s) Hs Hd He). split_and!; [done..|].
  constructor; [|done]. eapply copy_of_same; [by eapply copy_of_extends|by constructor].
Qed.

Lemma safe_transition_id js id to args :
  ta_ledger args = [] -> safe (W := W) js (transition_id config id to args) one.
Proof.
  intros Hnil. unfold transition_id. eapply (safe_bind js _ one).
  - apply safe_query. intros d j Hd _. unfold get_job.
    destruct (jobs d !! id) as [row|] eqn:Hrow; [|done]. intros [= <-].
    constructor; [|done]. by eapply copy_of_row.
  - intros j. apply safe_transition; [set_solver|done].
Qed.

(** [settle] needs the amount to be held. *)
Lemma settle_sound (s : St W) job amount note :
  sound s -> copy_of (db s) job ->
  quantize amount (j_currency job) <= job_holding (db s) (j_job_id job) (j_currency job) ->
  let '(s', r) := settle config job amount note s in
  sound s' /\ grows s s'.
Proof.
  intros Hs (row & Hrow & Hf) Hle. unfold settle.
  destruct (Z.leb_spec (quantize amount (j_currency job)) 0); [by cbn|].
  unfold bind, commit_only, transaction. cbn -[of_cents].
  destruct (obind _ _) as [[d' []]|e] eqn:Hb; [|by split_and!].
  apply obind_ok in Hb as (d3 & Hb & [= <-]). apply obind_ok in Hb as (d1 & H1 & Hb).
  apply obind_ok in Hb as (d2 & H2 & [= <-]).
  edestruct (settle_body (db s) job row) as [Hd He]; [by apply so_db|done|done| |exact H1|exact H2|]; [lia|].
  destruct (frame_update d2 (j_job_id job) (touch (clock s)) Hd) as [Hd' He']; [by split|].
  apply sound_commit; [done..|by etransitivity].
Qed.

Lemma safe_record_abandoned js h j u c b note :
  safe (W := W) js (record_abandoned config h j u c b note) none.
Proof.
  unfold record_abandoned. apply safe_read; [done|]. intros already.
  destruct (Z.leb_spec (quantize (dec_sub b (of_cents already)) c) 0) as [|Hpos];
    [by apply safe_ret_none|].
  do 3 (apply safe_read; [done|]; intros ?). apply safe_then; [|intros; apply safe_ret_none].
  apply safe_commit_only. intros d d' Hd _ Hb. by eapply abandoned_body.
Qed.

(** A transaction that only updates free columns of a job. *)
Lemma safe_update_only js (f : Job -> Job) id :
  (forall j, same_row j (f j)) ->
  safe (W := W) js (commit_only (fun d => Ok (update_job d id f))) none.
Proof.
  intros Hf. apply safe_commit_only. intros d d' Hd _ [= <-]. by apply frame_update.
Qed.

Lemma safe_update_logs js (f : Job -> Job) id t lines :
  (forall j, same_row j (f j)) ->
  safe (W := W) js (commit_only (fun d => insert_logs (update_job d id f) id t lines)) none.
Proof.
  intros Hf. apply safe_commit_only. intros d d' Hd _ Hb.
  destruct (frame_update d id f Hd Hf) as [Hd1 He1].
  destruct (frame_logs _ _ _ _ _ Hd1 Hb). split; [done|by etransitivity].
Qed.

(** A returned job that differs from a copy in free columns only. *)
Lemma safe_ret_copy js (job job' : Job) :
  job ∈ js -> same_fixed job job' -> safe (W := W) js (ret job') one.
Proof.
  intros Hin Hs s Hss Hc. cbn. split_and!; [done..|]. constructor; [|done].
  eapply copy_of_same; [|done]. eapply Forall_forall in Hc; eauto.
Qed.

Lemma safe_request_cancel js job actor :
  job ∈ js -> safe (W := W) js (request_cancel job actor) one.
Proof.
  intros Hin. unfold request_cancel. apply safe_read; [done|]. intros t.
  apply safe_then; [by apply safe_update_logs|]. intros _. by eapply safe_ret_copy.
Qed.

Lemma safe_record_attempt js job : job ∈ js -> safe (W := W) js (record_attempt job) one.
Proof.
  intros Hin. unfold record_attempt. apply safe_read; [done|]. intros t.
  apply safe_then; [by apply safe_update_only|]. intros _. by eapply safe_ret_copy.
Qed.

Lemma safe_record_preemption js job : job ∈ js -> safe (W := W) js (record_preemption job) one.
Proof.
  intros Hin. unfold record_preemption. apply safe_read; [done|]. intros t.
  apply safe_then; [by apply safe_update_only|]. intros _. by eapply safe_ret_copy.
Qed.

Lemma safe_record_checkpoint js job step key :
  job ∈ js -> safe (W := W) js (record_checkpoint job step key) one.
Proof.
  intros Hin. unfold record_checkpoint. apply safe_read; [done|]. intros t.
  apply safe_then; [by apply safe_update_only|]. intros _. by eapply safe_ret_copy.
Qed.

Lemma safe_pin_tier js job tier reason :
  job ∈ js -> safe (W := W) js (pin_tier job tier reason) one.
Proof.
  intros Hin. unfold pin_tier. apply safe_read; [done|]. intros t.
  apply safe_then; [by apply safe_update_logs|]. intros _. by eapply safe_ret_copy.
Qed.

Lemma safe_record_samples js id ss : safe (W := W) js (record_samples id ss) none.
Proof.
  unfold record_samples. destruct ss; [apply safe_ret_none|].
  apply safe_commit_only. intros d d' Hd _. by apply frame_samples.
Qed.

Lemma safe_notify js u k m j : safe (W := W) js (notify u k m j) none.
Proof.
  unfold notify. apply safe_read; [done|]. intros t. apply safe_transaction.
  intros d d' n Hd _ Hb. destruct (frame_notification _ _ _ _ _ _ _ _ Hd Hb). by split_and!.
Qed.

Lemma safe_append_log js id st line : safe (W := W) js (append_log config id st line) none.
Proof.
  unfold append_log. apply safe_read; [done|]. intros keep. destruct keep; [apply safe_ret_none|].
  apply safe_read; [done|]. intros t. apply safe_commit_only. intros d d' Hd _. by apply frame_logs.
Qed.

Lemma safe_append_backend_logs js job lines :
  safe (W := W) js (append_backend_logs config job lines) none.
Proof.
  unfold append_backend_logs. destruct lines; [apply safe_ret_none|].
  do 2 (apply safe_read; [done|]; intros ?). apply safe_then; [|intros; apply safe_ret_none].
  apply safe_commit_only. intros d d' Hd _ (d1 & H1 & [= <-])%obind_ok.
  destruct (frame_logs _ _ _ _ _ Hd H1) as [Hd1 He1].
  destruct (frame_update d1 (j_job_id job) (fun r => {| r with
    j_logs_fetched := (j_logs_fetched job + length (p :: lines))%nat; j_updated_at := a |}) Hd1)
    as [Hd2 He2]; [by split|]. split; [exact Hd2|by etransitivity].
Qed.

(** Statements on tables of their own. *)
Lemma safe_tables js (f : DB -> DB) :
  (forall d, db_ok d -> db_ok (f d) /\ extends d (f d)) ->
  safe (W := W) js (commit_only (fun d => Ok (f d))) none.
Proof. intros Hf. apply safe_commit_only. intros d d' Hd _ [= <-]. by apply Hf. Qed.

Lemma safe_save_prices js ps : safe (W := W) js (save_prices ps) none.
Proof.
  unfold save_prices. destruct ps; [apply safe_ret_none|]. apply safe_tables. intros d Hd. frame.
Qed.

Lemma safe_drain_host js h r a : safe (W := W) js (drain_host h r a) none.
Proof.
  unfold drain_host. apply safe_read; [done|]. intros t. apply safe_tables. intros d Hd. frame.
Qed.

Lemma safe_undrain_host js h : safe (W := W) js (undrain_host h) none.
Proof. unfold undrain_host. apply safe_tables. intros d Hd. frame. Qed.

Lemma safe_save_baseline js p h c src : safe (W := W) js (save_baseline p h c src) none.
Proof. unfold save_baseline. apply safe_read; [done|]. intros t. apply safe_tables. intros d Hd. frame. Qed.

Lemma safe_save_environment js e : safe (W := W) js (save_environment e) none.
Proof.
  unfold save_environment. apply safe_read; [done|]. intros t.
  apply safe_then; [|intros; apply safe_ret_none]. apply safe_tables. intros d Hd. frame.
Qed.

Lemma safe_delete_environment js n : safe (W := W) js (delete_environment n) none.
Proof. unfold delete_environment. apply safe_tables. intros d Hd. frame. Qed.

Lemma safe_record_build js g t st r dt : safe (W := W) js (record_build g t st r dt) none.
Proof.
  unfold record_build. apply safe_read; [done|]. intros now.
  apply safe_then; [|intros; apply safe_ret_none]. apply safe_tables. intros d Hd. frame.
Qed.

Lemma safe_delete_observations js cut :
  safe (W := W) js (delete_schedule_observations_before cut) none.
Proof.
  unfold delete_schedule_observations_before. apply safe_transaction.
  intros d d' n Hd _ [= <- <-].
  enough (H1 : db_ok {| d with schedule_observations := List.filter (fun o => negb (so_at o <? cut))
      (schedule_observations d) |} /\ extends d {| d with schedule_observations :=
      List.filter (fun o => negb (so_at o <? cut)) (schedule_observations d) |})
    by (destruct H1; split_and!; [done..|constructor]).
  frame.
Qed.

(** A call into the backends changes the world only. *)
Lemma safe_world js {A} (m : M (St W) exn A) :
  (forall s, db (fst (m s)) = db s /\ journal (fst (m s)) = journal s) -> safe js m none.
Proof.
  intros Hm s Hs Hc. specialize (Hm s). destruct (m s) as [s' r]. cbn in Hm.
  destruct Hm as [Hdb Hj]. destruct (sound_same s s' Hs Hdb Hj). split_and!; [done..|by destruct r].
Qed.
End Ops.

Create HintDb safe discriminated.
#[export] Hint Constants Opaque : safe.
#[export] Hint Resolve safe_ret_none safe_raise safe_now safe_query_plain safe_query_ok_plain
  safe_upsert_user safe_suspend_user safe_restore_user safe_record_schedule_observation
  safe_create_job safe_record_refusal safe_transition safe_transition_id safe_record_abandoned
  safe_request_cancel safe_record_attempt safe_record_preemption safe_record_checkpoint
  safe_pin_tier safe_record_samples safe_notify safe_append_log safe_append_backend_logs
  safe_save_prices safe_drain_host safe_undrain_host safe_save_baseline safe_save_environment
  safe_delete_environment safe_record_build safe_delete_observations : safe.
