(* ===== verification/Fixture.v ===== *)
(** * A small concrete club, for the examples and the witnesses

    Clocks in UTC, one member, one queued job that reserved ten dollars. *)

From S2P Require Import Prelude PySort PyFloat PyDecimal PyFormat Errors Money Clock States Models Config Tables Store StoreInv StoreSafe.
Local Open Scope Z_scope.
Local Open Scope py_scope.

Definition utc : TimeZones := {| utcoffset := fun _ _ => 0 |}.
#[export] Existing Instance utc.

(** 2026-01-15 12:00:00 UTC *)
Definition noon : Z := 1768478400000000.

Definition fresh {W} (w : W) : St W := mkSt empty_db noon [empty_db] w.

Definition alice : string := "alice".

Section Fixture.
Context {W : Type} (w : W).

Definition with_alice : St W :=
  fst (upsert_user default_config alice None None None None (fresh w)).

Definition with_job : St W :=
  fst (create_job default_config alice "python train.py" "t4" (f_of_Z 2) USD (dec_of_Z 10)
         "job-1" None "real" with_alice).

(** The row of the job just created. *)
Definition job1 : Job :=
  mkJob "job-1" alice "python train.py" "t4" (f_of_Z 2) USD 1000 QUEUED noon noon
    None None None None None None 0%nat 0 0 None None None None None None "real".

Lemma sound_fresh : sound (fresh w).
Proof.
  split; cbn; [by eexists|by constructor; [apply db_ok_empty|]|].
  by repeat constructor.
Qed.

Lemma sound_with_alice : sound with_alice.
Proof.
  pose proof (safe_upsert_user default_config (W := W) [] alice None None None None
                (fresh w) sound_fresh (List.Forall_nil _)) as Hs.
  unfold with_alice. destruct (upsert_user _ _ _ _ _ _ _). apply Hs.
Qed.

Lemma sound_with_job : sound with_job.
Proof.
  pose proof (safe_create_job default_config (W := W) [] alice "python train.py" "t4" (f_of_Z 2)
                USD (dec_of_Z 10) "job-1" None "real"
                with_alice sound_with_alice (List.Forall_nil _)) as Hs.
  unfold with_job. destruct (create_job _ _ _ _ _ _ _ _ _ _ _). apply Hs.
Qed.

Lemma job1_stored : jobs (db with_job) !! "job-1" = Some job1.
Proof. vm_compute. reflexivity. Qed.

Lemma job1_copy : copy_of (db with_job) job1.
Proof. exists job1. split; [exact job1_stored|reflexivity]. Qed.
End Fixture.
