(* ===== verification/StoreProps.v ===== *)
(** * Theorems on the store

    What a transition does and when it is refused, what stays held when a job ends
    (nothing, unless a settlement is written with it), that settling converts a hold into spend without changing what
    is committed, that an abandoned machine is charged once, and that a job's log
    stays within its cap. *)

From S2P Require Import Prelude PySort PyFloat PyDecimal PyFormat Errors Money Clock States Models Config Tables Store StoreInv StoreSafe Fixture.
Local Open Scope Z_scope.
Local Open Scope py_scope.

Section Transition.
Context {W : Type} `{TimeZones} (config : BrokerConfig).

Lemma insert_writes_tables d job t ws d' :
  insert_writes config d job t ws = Ok d' ->
  jobs d' = jobs d /\ job_transitions d' = job_transitions d.
Proof. intros (es & -> & _)%insert_writes_ok. done. Qed.

(** What a transition does. *)
Lemma transition_effect job to args (s : St W) :
  let '(s', r) := transition config job to args s in
  match r with
  | Ok job' =>
      can_transition (j_state job) to = true /\ j_state job' = to /\
      option_map j_state (jobs (db s) !! j_job_id job) = Some (j_state job) /\
      option_map j_state (jobs (db s') !! j_job_id job) = Some to /\
      job_transitions (db s') = job_transitions (db s) ++
        [mkTransitionRow (j_job_id job) (Some (j_state job)) to (clock s) (ta_reason args)] /\
      journal s' = db s' :: journal s
  | Raise _ => s' = s
  end.
Proof.
  unfold transition. destruct (can_transition (j_state job) to) eqn:Hcan; [|by cbn].
  cbn -[transitioned release_remaining_hold]. unfold bind, commit_only, transaction.
  cbn -[transitioned release_remaining_hold].
  destruct (obind _ _) as [[d' []]|e] eqn:Hb; [|done].
  apply obind_ok in Hb as (d3 & Hb & [= <-]). apply obind_ok in Hb as (d1 & H1 & Hb).
  apply obind_ok in Hb as (d2 & H2 & H3).
  apply update_state_ok in H1 as (row & Hrow & Hst & ->).
  apply insert_transition_ok in H2 as (_ & ->).
  apply insert_writes_tables in H3 as [Hj Ht]. cbn. split_and!; try done.
  - rewrite Hrow. cbn. by f_equal.
  - rewrite Hj. cbn. by rewrite lookup_alter_eq, Hrow.
Qed.

(** The job a transition returns. *)
Lemma transition_returns job to args (s s' : St W) job' :
  transition config job to args s = (s', Ok job') -> job' = transitioned job to args (clock s).
Proof.
  unfold transition. destruct (can_transition _ _); [|done]. cbn [negb]. intros Htr.
  apply bind_ok in Htr as (s1 & t & Ht & Htr). injection Ht as <- <-.
  apply bind_ok in Htr as (s1 & rel & _ & Htr). apply bind_ok in Htr as (s2 & u & _ & Htr).
  by injection Htr as _ <-.
Qed.

(** [transition] is all or nothing. *)
Theorem transition_atomic job to args (s : St W) :
  let '(s', r) := transition config job to args s in
  match r with
  | Ok job' =>
      can_transition (j_state job) to = true /\ j_state job' = to /\
      option_map j_state (jobs (db s) !! j_job_id job) = Some (j_state job) /\
      option_map j_state (jobs (db s') !! j_job_id job) = Some to /\
      job_transitions (db s') = job_transitions (db s) ++
        [mkTransitionRow (j_job_id job) (Some (j_state job)) to (clock s) (ta_reason args)] /\
      journal s' = db s' :: journal s
  | Raise _ => s' = s
  end.
Proof. apply transition_effect. Qed.

(** A scheduler that holds an out-of-date copy cannot move the job. *)
Theorem stale_transition_refused job to args (s : St W) row :
  jobs (db s) !! j_job_id job = Some row -> j_state row <> j_state job ->
  transition config job to args s = (s, Raise (illegal job to)).
Proof.
  intros Hrow Hne. unfold transition.
  destruct (can_transition (j_state job) to); [|done].
  cbn -[transitioned release_remaining_hold]. unfold bind, commit_only, transaction.
  cbn -[transitioned release_remaining_hold].
  unfold update_state. rewrite Hrow, bool_decide_eq_false_2 by done. by destruct s.
Qed.

(** A well-formed database holds nothing for a job that has ended. *)
Lemma ended_holds_nothing d id row :
  db_ok d -> jobs d !! id = Some row -> state_in (j_state row) TERMINAL = true ->
  job_holding d id (j_currency row) = 0.
Proof.
  intros Hd Hrow Hterm. rewrite job_holding_ksum.
  destruct (jo_hold _ _ _ (ok_jobs _ Hd _ _ Hrow)) as [_ _ _ _ Hdone]. specialize (Hdone Hterm). lia.
Qed.

(** What a transition into a terminal state leaves. *)
Lemma transition_ends job to args (s s' : St W) job' :
  sound s -> copy_of (db s) job -> ta_ledger args = [] -> state_in to TERMINAL = true ->
  transition config job to args s = (s', Ok job') ->
  sound s' /\ grows s s' /\
  exists row, jobs (db s') !! j_job_id job = Some row /\ same_fixed row job /\ j_state row = to /\
    job_holding (db s') (j_job_id job) (j_currency job) = 0.
Proof.
  intros Hs Hc Hnil Hterm Ht.
  pose proof (transition_effect job to args s) as Ha. rewrite Ht in Ha.
  destruct Ha as (_ & _ & _ & Hrow & _).
  pose proof (safe_transition config [job] job to args ltac:(left) Hnil s Hs
                ltac:(by constructor)) as Hsafe.
  rewrite Ht in Hsafe. destruct Hsafe as (Hs' & He & _). split_and!; [done..|].
  destruct (copy_of_extends _ _ _ (gr_db _ _ He) Hc) as (row & Hrow' & Hf).
  rewrite Hrow' in Hrow. injection Hrow as Hst. exists row. split_and!; [done..|].
  rewrite (sf_currency _ _ Hf). apply ended_holds_nothing; [by apply so_db|done|by rewrite Hst].
Qed.

(** What the writes that go with a transition put down of one kind, in hundredths. *)
Definition written (k : LedgerKind) (c : Currency) (ws : list LedgerWrite) : Z :=
  zsum (fun w => if bool_decide (lw_kind w = k) && bool_decide (lw_currency w = c)
                 then quantize (lw_amount w) c else 0) ws.

(** Amounts in hundredths, as the ledger has them. *)
Definition whole (c : Currency) (w : LedgerWrite) : Prop := lw_currency w = c -> exists n, lw_amount w = of_cents n.

Lemma dec_add_cents_zero a : dec_add (of_cents a) dzero = of_cents a.
Proof. unfold dec_add, dzero, of_cents, common, at_exp. cbn. by rewrite Z.mul_1_r, Z.add_0_r. Qed.

Lemma outstanding_cents c ws a : Forall (whole c) ws ->
  fold_left (fun acc w => dec_add acc (hold_delta c w)) ws (of_cents a)
  = of_cents (a + written RESERVE c ws - written RELEASE c ws - written SETTLE c ws).
Proof.
  intros Hw. revert a. induction Hw as [|w ws Hwhole _ IH]; intros a; [by rewrite !Z.sub_0_r, Z.add_0_r|].
  cbn [fold_left]. unfold written in *. cbn [zsum]. unfold hold_delta. destruct (decide (lw_currency w = c)) as [E|Hne].
  - destruct (Hwhole E) as [n Hn]. rewrite !(bool_decide_eq_true_2 (lw_currency w = c)) by done. rewrite Hn.
    assert (Hq : quantize (of_cents n) c = n) by apply quantize_cents_of_cents.
    assert (Hneg : dec_neg (of_cents n) = of_cents (- n)) by done. rewrite Hq, Hneg.
    destruct (lw_kind w); rewrite ?dec_add_cents, ?dec_add_cents_zero, IH; repeat (case_bool_decide; try done); cbn; f_equal; lia.
  - rewrite !(bool_decide_eq_false_2 (lw_currency w = c)) by done. rewrite dec_add_cents_zero, IH, !andb_false_r.
    f_equal; lia.
Qed.

Lemma written_app k c l l' : written k c (l ++ l') = written k c l + written k c l'.
Proof. apply zsum_app. Qed.

Lemma released_written d job ws : Forall (whole (j_currency job)) ws ->
  let c := j_currency job in
  written RESERVE c (release_remaining_hold d job ws) = 0 /\
  written RELEASE c (release_remaining_hold d job ws)
    = Z.max 0 (job_holding d (j_job_id job) c + written RESERVE c ws - written RELEASE c ws - written SETTLE c ws).
Proof.
  intros Hw c. unfold release_remaining_hold. rewrite outstanding_cents by done. unfold ZERO. rewrite dec_leb_zero_cents. fold c.
  set (x := _ - written SETTLE c ws). destruct (Z.leb_spec x 0); [split; cbn; lia|].
  unfold written. cbn [zsum lw_kind lw_currency lw_amount]. rewrite !(bool_decide_eq_true_2 (c = c)) by done.
  assert (Hq : quantize (of_cents (quantize (of_cents x) c)) c = x) by (unfold quantize; by rewrite !quantize_cents_of_cents).
  rewrite Hq. split; repeat (case_bool_decide; try done); cbn; lia.
Qed.

(** The rows of the writes of one transition, and what they do to the hold. *)
Lemma rows_hold id c ws es :
  Forall2 (fun w e => le_job_id e = Some id /\ le_kind e = lw_kind w /\
    le_currency e = lw_currency w /\ le_amount e = quantize (lw_amount w) (lw_currency w)) ws es ->
  zsum (fun e => if of_job id e && in_currency c e then held_part e else 0) es
  = written RESERVE c ws - written RELEASE c ws.
Proof.
  induction 1 as [|w e ws es (Hi & Hk & Hc & Ha) _ IH]; [done|]. unfold written in *. cbn [zsum]. rewrite IH.
  unfold of_job, in_currency, held_part. rewrite Hi, Hk, Hc, Ha, (bool_decide_eq_true_2 (Some id = Some id)) by done.
  destruct (decide (lw_currency w = c)) as [->|Hne].
  - rewrite !bool_decide_eq_true_2 by done. cbn [andb]. rewrite !andb_true_r.
    destruct (lw_kind w); repeat (case_bool_decide; try done); cbn; lia.
  - rewrite !(bool_decide_eq_false_2 (lw_currency w = c)) by done. rewrite !andb_false_r. lia.
Qed.


(** C7: settling moves an amount from held to spent. *)
Theorem settle_converts job amount note (s s' : St W) user currency period :
  settle config job amount note s = (s', Ok tt) ->
  let select := fun e => of_user user e && in_currency currency e && in_period period e in
  let c := if String.eqb user (j_user_id job) && bool_decide (currency = j_currency job)
              && String.eqb period (billing_period (clock s) (timezone config))
           then Z.max 0 (quantize amount (j_currency job)) else 0 in
  let '(held, spent) := aggregate select (ledger (db s)) in
  aggregate select (ledger (db s')) = (held - c, spent + c).
Proof.
  intros Hset select c. set (q := quantize amount (j_currency job)) in *.
  unfold settle in Hset. fold q in Hset.
  destruct (aggregate select (ledger (db s))) as [h sp] eqn:Hagg.
  destruct (Z.leb_spec q 0) as [Hle|Hlt].
  - injection Hset as <-. rewrite Hagg. subst c. case_match; f_equal; lia.
  - unfold bind, commit_only, transaction in Hset. cbn -[of_cents] in Hset.
    destruct (obind _ _) as [[d' []]|e] eqn:Hb; [|done]. injection Hset as <-.
    apply obind_ok in Hb as (d3 & Hb & [= <-]). apply obind_ok in Hb as (d1 & H1 & Hb).
    apply obind_ok in Hb as (d2 & H2 & [= <-]).
    apply insert_ledger_ok in H1 as [_ ->]. apply insert_ledger_ok in H2 as [_ ->].
    cbn [db update_job ledger]. rewrite <- app_assoc.
    rewrite aggregate_sums in Hagg |- *. injection Hagg as <- <-.
    rewrite !zsum_app. cbn [app zsum].
    unfold held_part at 2 3, spent_part at 2 3, ledger_row. cbn [le_kind le_amount].
    assert (Hq : quantize (of_cents q) (j_currency job) = q) by apply quantize_cents_of_cents.
    rewrite !Hq. subst c select. unfold of_user, in_currency, in_period.
    set (p0 := billing_period (clock s) (timezone config)). clearbody p0.
    cbn [le_user_id le_currency le_period].
    rewrite (String.eqb_sym period).
    destruct (String.eqb_spec user (j_user_id job)), (decide (currency = j_currency job)),
      (String.eqb_spec p0 period); subst;
      repeat first [rewrite bool_decide_eq_true_2 by done
                   |rewrite bool_decide_eq_false_2 by congruence]; cbn; f_equal; lia.
Qed.
End Transition.

Section Abandoned.
Context {W : Type} `{TimeZones} (config : BrokerConfig).

Lemma abandoned_after d d' h j u c delta t note h' c' :
  insert_ledger config d j u c ABANDONED (of_cents delta) t note (Some h) = Ok d' ->
  jobs d' = jobs d /\
  abandoned_for_handle d' h' c' = abandoned_for_handle d h' c'
    + (if bool_decide (h = h') && bool_decide (c = c') then delta else 0).
Proof.
  intros [_ ->]%insert_ledger_ok. split; [done|]. unfold abandoned_for_handle. cbn [ledger].
  rewrite List.filter_app, zsum_app. f_equal. unfold ledger_row. cbn [List.filter].
  unfold in_currency, of_kind. cbn [le_resource_handle le_currency le_kind].
  rewrite (bool_decide_eq_true_2 (ABANDONED = ABANDONED)), andb_true_r by done.
  rewrite (bool_decide_ext (Some h = Some h') (h = h')) by naive_solver.
  destruct (_ && _); [|done]. cbn [zsum le_amount].
  unfold quantize. rewrite quantize_cents_of_cents. lia.
Qed.

(** The ledger grew by charges for abandoned machines only. *)
Definition abandons (d d' : DB) : Prop :=
  exists es, ledger d' = ledger d ++ es /\ Forall (fun e => le_kind e = ABANDONED) es.

#[export] Instance abandons_preorder : PreOrder abandons.
Proof.
  split; [intros d; exists []; by rewrite app_nil_r|].
  intros d1 d2 d3 (es & E & Hes) (fs & F & Hfs). exists (es ++ fs). rewrite F, E, app_assoc. split; [done|].
  by apply Forall_app.
Qed.

(** What recording an abandoned machine does. *)
Lemma record_abandoned_effect h j u c burned note (s s1 : St W) r :
  record_abandoned config h j u c burned note s = (s1, Ok r) ->
  let delta := Z.max 0 (quantize (dec_sub burned (of_cents (abandoned_for_handle (db s) h c))) c) in
  (delta = 0 -> s1 = s) /\
  clock s1 = clock s /\ world s1 = world s /\ jobs (db s1) = jobs (db s) /\ abandons (db s) (db s1) /\
  forall h' c', abandoned_for_handle (db s1) h' c' = abandoned_for_handle (db s) h' c'
    + (if bool_decide (h = h') && bool_decide (c = c') then delta else 0).
Proof.
  intros Hr delta. unfold record_abandoned, bind, query_ok in Hr. cbn -[of_cents] in Hr.
  destruct (Z.leb_spec (quantize (dec_sub burned (of_cents (abandoned_for_handle (db s) h c))) c) 0)
    as [Hle|Hlt].
  - injection Hr as <- _. subst delta. rewrite Z.max_l by done. split_and!; try done.
    intros. destruct (_ && _); lia.
  - unfold now, gets, commit_only, transaction in Hr. cbn -[of_cents] in Hr.
    destruct (obind _ _) as [[d' []]|e] eqn:Hb; [|done]. injection Hr as <- _.
    apply obind_ok in Hb as (d2 & Hb & [= <-]). cbn [db clock world].
    subst delta. rewrite Z.max_r by lia. split_and!; try done; [lia| | |].
    3: { intros h' c'. by apply (abandoned_after _ _ _ _ _ _ _ _ _ h' c') in Hb as [_ ?]. }
    + by apply (abandoned_after _ _ _ _ _ _ _ _ _ h c) in Hb as [? _].
    + apply insert_ledger_ok in Hb as [_ ->]. eexists. split; [reflexivity|]. by repeat constructor.
Qed.

(** There is nothing left to charge. *)
Lemma record_abandoned_again h j u c burned note (s : St W) :
  quantize (dec_sub burned (of_cents (abandoned_for_handle (db s) h c))) c <= 0 ->
  record_abandoned config h j u c burned note s = (s, Ok ZERO).
Proof.
  intros Hle. unfold record_abandoned, bind, query_ok. cbn -[of_cents].
  by destruct (Z.leb_spec (quantize (dec_sub burned (of_cents (abandoned_for_handle (db s) h c))) c) 0);
    [|lia].
Qed.

(** What a leaked machine burned is charged once. *)
Theorem abandoned_charged_once h j u c burned note j' u' note' (s s1 : St W) r :
  record_abandoned config h j u c burned note s = (s1, Ok r) ->
  let already := abandoned_for_handle (db s) h c in
  let delta := Z.max 0 (quantize (dec_sub burned (of_cents already)) c) in
  abandoned_for_handle (db s1) h c = already + delta /\
  record_abandoned config h j' u' c burned note' s1 = (s1, Ok ZERO).
Proof.
  intros Hr already delta. destruct (record_abandoned_effect _ _ _ _ _ _ _ _ _ Hr) as (_ & _ & _ & _ & _ & He).
  specialize (He h c). rewrite !bool_decide_eq_true_2 in He by done. cbn [andb] in He.
  fold already in He. fold delta in He. split; [done|]. apply record_abandoned_again. rewrite He.
  subst delta. destruct (Z.le_gt_cases (quantize (dec_sub burned (of_cents already)) c) 0) as [Hle|Hlt].
  - by rewrite Z.max_l, Z.add_0_r by done.
  - rewrite Z.max_r by lia. pose proof (quantize_residue burned already c ltac:(lia)). lia.
Qed.
End Abandoned.

Section Logs.
Context {W : Type} (config : BrokerConfig).

Lemma length_log_rows id t other ls :
  length (List.filter (fun r => String.eqb (lg_job_id r) other)
            (map (fun l => mkLogRow id t (fst l) (snd l)) ls))
  = if String.eqb id other then length ls else 0%nat.
Proof.
  induction ls as [|x ls IH]; cbn; [by case_match|].
  destruct (String.eqb id other); cbn; [by f_equal|done].
Qed.

Lemma log_count_after d id t lines d' other :
  insert_logs d id t lines = Ok d' ->
  log_count d' other = log_count d other
    + (if String.eqb id other then Z.of_nat (length lines) else 0).
Proof.
  unfold insert_logs. destruct lines as [|l lines]; [intros [= <-]; case_match; cbn; lia|].
  destruct (negb _); [done|]. destruct (negb _); [done|]. intros [= <-].
  unfold log_count. cbn [job_logs]. rewrite List.filter_app, length_app, Nat2Z.inj_add. f_equal.
  pose proof (length_log_rows id t other (l :: lines)) as E. cbn [map] in E. rewrite E.
  by destruct (String.eqb id other).
Qed.

Lemma within_budget_room d id lines :
  1 <= max_log_lines_per_job config ->
  log_count d id + Z.of_nat (length (within_log_budget config d id lines))
    <= Z.max (log_count d id) (max_log_lines_per_job config).
Proof.
  intros Hcap. unfold within_log_budget.
  destruct (Z.leb_spec (max_log_lines_per_job config) (log_count d id)); [cbn; lia|].
  match goal with |- context [if ?b then _ else _] => destruct b eqn:Hb end.
  - apply Z.ltb_lt in Hb. lia.
  - rewrite length_app, length_firstn. cbn [length]. lia.
Qed.

(** C19: whatever the backend returns, a job's log keeps to its cap. *)
Theorem log_cap job lines (s : St W) :
  1 <= max_log_lines_per_job config ->
  let '(s', _) := append_backend_logs config job lines s in
  log_count (db s') (j_job_id job)
    <= Z.max (log_count (db s) (j_job_id job)) (max_log_lines_per_job config) /\
  (forall other, other <> j_job_id job -> log_count (db s') other = log_count (db s) other).
Proof.
  intros Hcap. unfold append_backend_logs. destruct lines as [|l lines]; [cbn; split; [lia|done]|].
  cbn -[within_log_budget]. unfold bind, commit_only, transaction, query_ok.
  cbn -[within_log_budget].
  set (keep := within_log_budget config (db s) (j_job_id job) (l :: lines)).
  pose proof (within_budget_room (db s) (j_job_id job) (l :: lines) Hcap) as Hroom.
  destruct (insert_logs _ _ _ _) as [d1|e] eqn:Hi; cbn; [|split; [lia|done]].
  split.
  - change (log_count (update_job d1 (j_job_id job) _) (j_job_id job))
      with (log_count d1 (j_job_id job)).
    rewrite (log_count_after _ _ _ _ _ (j_job_id job) Hi), String.eqb_refl. exact Hroom.
  - intros other Hne. change (log_count (update_job d1 _ _) other) with (log_count d1 other).
    rewrite (log_count_after _ _ _ _ _ other Hi).
    rewrite (proj2 (String.eqb_neq _ _)) by done. lia.
Qed.
End Logs.

(** ** Witnesses *)

Definition stale_job1 : Job := {| job1 with j_state := ALLOCATING |}.

Lemma stale_transition_refused_witness :
  transition default_config stale_job1 RUNNING no_args (with_job tt)
  = (with_job tt, Raise (IllegalTransition "job-1" "ALLOCATING" "RUNNING")).
Proof.
  apply (stale_transition_refused default_config stale_job1 RUNNING no_args (with_job tt) job1).
  - exact (job1_stored tt).
  - discriminate.
Defined.

Definition ok_or {E A} (r : outcome E A) (a : A) : A := match r with Ok x => x | Raise _ => a end.


(** A job that ends with a final settlement among its writes keeps it on hold: the ten
    dollars reserved are two and a half spent, and two and a half still held. *)
Example final_settlement_stays_held :
  let args := {| no_args with ta_ledger := [mkLedgerWrite SETTLE (of_cents 250) USD None] |} in
  let d := db (fst (transition default_config job1 CANCELLED args (with_job tt))) in
  (job_holding d "job-1" USD, job_spend d "job-1") = (250, 250).
Proof. by vm_compute. Qed.

Lemma settle_converts_witness :
  aggregate (fun e => of_user alice e && in_currency USD e && in_period "2026-01" e)
    (ledger (db (fst (settle default_config job1 (mkDec 2504 (-3)) None (with_job tt)))))
  = (750, 250).
Proof.
  pose proof (fun E => settle_converts default_config job1 (mkDec 2504 (-3)) None (with_job tt)
    (fst (settle default_config job1 (mkDec 2504 (-3)) None (with_job tt)))
    alice USD "2026-01" E) as Hw.
  specialize (Hw ltac:(vm_compute; reflexivity)).
  vm_compute in Hw. vm_compute. exact Hw.
Defined.

Definition after_abandoned : St unit :=
  fst (record_abandoned default_config "i-1" (Some "job-1") None USD (mkDec 12345 (-3)) "leaked"
         (with_job tt)).

Lemma abandoned_charged_once_witness :
  record_abandoned default_config "i-1" None None USD (mkDec 12345 (-3)) "again" after_abandoned
  = (after_abandoned, Ok ZERO).
Proof.
  apply (abandoned_charged_once default_config "i-1" (Some "job-1") None USD (mkDec 12345 (-3))
    "leaked" None None "again" (with_job tt) after_abandoned (of_cents 1235)).
  vm_compute. reflexivity.
Defined.

Lemma log_cap_witness :
  let small := {| default_config with max_log_lines_per_job := 2 |} in
  let r := append_backend_logs small job1 [("stdout", "a"); ("stdout", "b"); ("stderr", "c")]
             (with_job tt) in
  log_count (db (fst r)) "job-1" <= 2.
Proof.
  intros small r.
  pose proof (log_cap small job1 [("stdout", "a"); ("stdout", "b"); ("stderr", "c")] (with_job tt)
    ltac:(discriminate)) as Hw.
  fold r in Hw. destruct r as [s' o]. destruct Hw as [Hw _].
  replace (Z.max _ _) with 2 in Hw by (vm_compute; reflexivity). exact Hw.
Defined.
