(* ===== verification/Admission.v ===== *)
(** * admission.py: whether a submission is allowed in at all

    One definition per function.  [validate_request] and the two price functions
    raise; the four checks return [Some refusal] or [None]. *)

From S2P Require Import Prelude PyFloat PyDecimal PyFormat Errors Money States Models Config.
Local Open Scope Z_scope.
Local Open Scope py_scope.

Section Admission.
Context (config : BrokerConfig).

Definition validate_request (gpu_type : string) (hours : float) (command : string)
  : outcome exn unit :=
  _ <-? gpu config gpu_type;;
  if f_le hours f0 then Raise (BrokerError ("--hours must be positive, got " +:+ f_repr hours))
  else if f_lt (max_job_hours config) hours then
    Raise (BrokerError ("--hours " +:+ f_general hours +:+ " exceeds the per-job limit of "
      +:+ f_general (max_job_hours config)
      +:+ "h. Split the run, or checkpoint and resubmit."))
  else
    let n := Z.of_nat (String.length command) in
    if max_command_bytes config <? n then
      Raise (BrokerError ("the command is " +:+ str_commas n
        +:+ " characters, over the limit of " +:+ str_commas (max_command_bytes config)
        +:+ ". Put it in a script under /data and submit the script."))
    else Ok tt.

Definition billable_hours (hours : float) : float := f_add hours (startup_allowance_hours config).

(** The cost of a whole run, in hundredths. *)
Definition full_cost (g : GpuType) (hours : float) : Z :=
  quantize (dec_mul (gt_hourly_price g) (money (billable_hours hours))) (gt_currency g).

Definition default_reservation (gpu_type : string) (hours : float) : outcome exn Decimal :=
  g <-? gpu config gpu_type;;
  Ok (of_cents (full_cost g hours)).

Definition check_job_cap (currency : Currency) (reserved : Decimal) : option Refusal :=
  if dec_leb reserved ZERO then
    Some (mkRefusal ("--budget must be positive, got " +:+ fmt reserved currency)
            "INVALID_BUDGET" None None)
  else
    let cap := max_job config currency in
    if dec_ltb cap reserved then
      let shortfall := quantize (dec_sub reserved cap) currency in
      Some (mkRefusal
        ("refused: this job reserves " +:+ fmt reserved currency +:+ ", over the per-job cap of "
         +:+ fmt cap currency +:+ " (short " +:+ fmt (of_cents shortfall) currency
         +:+ "). Lower --hours, or set --budget under the cap to stop it early.")
        "JOB_CAP_EXCEEDED" (Some shortfall) (Some currency))
    else None.

Definition check_queue_depth (queued : Z) : option Refusal :=
  if queued <? max_queued_jobs_per_user config then None
  else Some (mkRefusal
    ("refused: you already have " +:+ str_of_Z queued +:+ " jobs waiting, which is the limit of "
     +:+ str_of_Z (max_queued_jobs_per_user config)
     +:+ ". They go as capacity frees up; cancel one with `gpu cancel` if you would rather submit this instead.")
    "QUEUE_DEPTH_EXCEEDED" None None).

Definition check_membership (user : User) : option Refusal :=
  if negb (is_suspended user) then None
  else
    let reason := str_or (Some (u_suspended_reason user)) "no reason recorded" in
    Some (mkRefusal
      ("refused: " +:+ u_user_id user +:+ " is suspended from the pool (" +:+ reason
       +:+ "). Ask an officer to restore you with `gpu admin restore " +:+ u_user_id user +:+ "`.")
      "USER_SUSPENDED" None None).

Definition check_user_budget (b : Balance) (reserved : Decimal) : option Refusal :=
  if dec_leb reserved (bal_available b) then None
  else
    let c := bal_currency b in
    let shortfall := quantize (dec_sub reserved (bal_available b)) c in
    Some (mkRefusal
      ("refused: this job needs " +:+ fmt reserved c +:+ " but you have "
       +:+ fmt (bal_available b) c +:+ " left this month (short " +:+ fmt (of_cents shortfall) c
       +:+ "). Your " +:+ fmt (bal_budget b) c +:+ " budget is " +:+ fmt (of_cents (bal_spent b)) c
       +:+ " spent and " +:+ fmt (of_cents (bal_held b)) c +:+ " held by running jobs.")
      "USER_BUDGET_EXCEEDED" (Some shortfall) (Some c)).

(** A price of zero divides by zero, when the run costs more than reserved. *)
Definition ceiling_warning (gpu_type : string) (hours : float) (reserved : Decimal)
  : outcome exn (option string) :=
  g <-? gpu config gpu_type;;
  let cost := full_cost g hours in
  if dec_leb (of_cents cost) reserved then Ok None
  else
    q <-? of_option (dec_div reserved (gt_hourly_price g)) (ArithmeticError "DivisionByZero");;
    let usable := f_max f0 (f_sub (dec_to_float q) (startup_allowance_hours config)) in
    Ok (Some ("heads up: " +:+ fmt reserved (gt_currency g) +:+ " buys about "
      +:+ f_fixed 1 usable +:+ "h of compute on " +:+ gpu_type
      +:+ " (after startup), but you asked for " +:+ f_general hours
      +:+ "h. The job will be stopped at its ceiling. Raise --budget to "
      +:+ fmt (of_cents cost) (gt_currency g) +:+ " to run the full " +:+ f_general hours +:+ "h.")).

(** ** What passing the checks means *)

Lemma check_job_cap_ok c reserved :
  check_job_cap c reserved = None ->
  dec_ltb ZERO reserved = true /\ dec_leb reserved (max_job config c) = true.
Proof.
  unfold check_job_cap. rewrite !dec_ltb_leb.
  destruct (dec_leb reserved ZERO); [done|]. destruct (dec_leb reserved _); [done|]. done.
Qed.

Lemma check_user_budget_ok b reserved :
  check_user_budget b reserved = None ->
  dec_leb (dec_add reserved (of_cents (bal_committed b))) (bal_budget b) = true.
Proof.
  unfold check_user_budget, bal_available. rewrite dec_leb_sub. by destruct (dec_leb _ _).
Qed.

Lemma check_queue_depth_ok n :
  check_queue_depth n = None -> n < max_queued_jobs_per_user config.
Proof. unfold check_queue_depth. destruct (Z.ltb_spec n (max_queued_jobs_per_user config)); done. Qed.

Lemma check_membership_ok u : check_membership u = None -> is_suspended u = false.
Proof. unfold check_membership. by destruct (is_suspended u). Qed.

(** A job whose reservation is the default one is never warned about. *)
Lemma default_not_warned gpu_type hours r :
  default_reservation gpu_type hours = Ok r -> ceiling_warning gpu_type hours r = Ok None.
Proof.
  unfold default_reservation, ceiling_warning. destruct (gpu config gpu_type) as [g|]; [|done].
  cbn [obind]. intros [= <-]. autorewrite with dec. by rewrite Z.leb_refl.
Qed.
End Admission.
