(* ===== verification/FairShare.v ===== *)
(** * fairshare.py: who goes next, and why

    Floats throughout, in the order the source computes them.  The power
    function of the C library is the argument [pow].  Divisions by
    [age_max_hours] and [fairshare_half_life_days] raise [ZeroDivisionError] in
    Python when those are zero; [BrokerConfig.validate] refuses such a
    configuration, and here they yield infinities.  [sum] is the left-to-right
    sum of Python 3.11. *)

From Stdlib Require Import Permutation Sorted.
From S2P Require Import Prelude PyFloat PyDecimal PyFormat PySort PyDict Errors Money Clock States Models Config Tables.
Local Open Scope Z_scope.

Section FairShare.
Context (pow : pow_fun) (config : BrokerConfig).

Definition decay_weight (age_days half_life_days : float) : float :=
  if f_le age_days f0 then f1 else pow (f_of_dec 5 (-1)) (f_div age_days half_life_days).

Definition decayed_usage (d : DB) (c : Currency) (now : Z) : dict (option string) float :=
  let cutoff := now - timedelta_days (fairshare_window_days config) in
  fold_left (fun totals row =>
    let '(user_id, amount, at_) := row in
    let age_days := f_div (total_seconds (now - at_)) (f_of_Z 86400) in
    let weight := decay_weight age_days (fairshare_half_life_days config) in
    dict_upd user_id f0 (fun v => f_add v (f_mul (dec_to_float (of_cents amount)) weight)) totals)
    (settlements_since d cutoff c) [].

(** One round of the loop over the currencies: the blend so far and its weight. *)
Definition blend_currency (d : DB) (now : Z) (acc : dict (option string) float * float)
    (c : Currency) : dict (option string) float * float :=
  let '(blended, weight_total) := acc in
  let w := share_weight config c in
  if f_le w f0 then acc
  else
    let usage := decayed_usage d c now in
    let pool_total := f_sum (map snd usage) in
    if f_le pool_total f0 then (blended, f_add weight_total w)
    else (fold_left (fun b ua => dict_upd (fst ua) f0
                       (fun v => f_add v (f_mul w (f_div (snd ua) pool_total))) b) usage blended,
          f_add weight_total w).

Definition usage_shares (d : DB) (now : Z) : dict (option string) float :=
  let '(blended, weight_total) := fold_left (blend_currency d now) all_currencies ([], f0) in
  if f_le weight_total f0 then []
  else map (fun us => (fst us, f_div (snd us) weight_total)) blended.

Definition priority_of (j : Job) (shares : dict (option string) float) (now : Z) : Priority :=
  let share := default f0 (dict_get (Some (j_user_id j)) shares) in
  let wait := wait_hours j now in
  let fair_term := f_mul (w_fair config) (f_sub f1 share) in
  let age_term := f_mul (w_age config) (f_min f1 (f_div wait (age_max_hours config))) in
  mkPriority (j_job_id j) (j_user_id j) (f_add fair_term age_term) fair_term age_term share wait.

(** [key=lambda pair: (-pair[1].score, pair[0].submitted_at, pair[0].job_id)],
    for scores that are numbers. *)
Definition queue_lt (a b : Job * Priority) : bool :=
  lex (on (fun p => f_neg (pri_score (snd p))) f_lt)
    (lex (on (fun p => j_submitted_at (fst p)) Z.ltb) (on (fun p => j_job_id (fst p)) str_lt)) a b.

Definition order_queue (jobs : list Job) (d : DB) (now : Z) : list (Job * Priority) :=
  let shares := usage_shares d now in
  py_sort queue_lt (map (fun j => (j, priority_of j shares now)) jobs).

(** ** The order is a total one *)

(** [queue_lt] with a total order on the scores. *)
Definition queue_ltk (a b : Job * Priority) : bool :=
  lex (on (fun p => f_neg (pri_score (snd p))) f_ltk)
    (lex (on (fun p => j_submitted_at (fst p)) Z.ltb) (on (fun p => j_job_id (fst p)) str_lt)) a b.

#[export] Instance queue_ltk_swo : StrictWeakOrder queue_ltk.
Proof. unfold queue_ltk. apply lex_swo; apply _. Qed.

Lemma is_nan_neg x : is_nan (f_neg x) = is_nan x.
Proof. by destruct x. Qed.

Lemma queue_lt_ltk a b :
  is_nan (pri_score (snd a)) = false -> is_nan (pri_score (snd b)) = false ->
  queue_lt a b = queue_ltk a b.
Proof.
  intros Ha Hb. unfold queue_lt, queue_ltk, lex, on.
  by rewrite !f_ltk_lt by (by rewrite is_nan_neg).
Qed.

Lemma queue_ltk_tie a b :
  queue_ltk a b = false -> queue_ltk b a = false -> j_job_id (fst a) = j_job_id (fst b).
Proof.
  unfold queue_ltk, lex, on. intros Hab Hba. apply str_lt_total.
  - destruct (str_lt (j_job_id (fst a)) (j_job_id (fst b))) eqn:E; [|done].
    destruct (f_ltk _ _), (f_ltk _ _); cbn in *; try done.
    destruct (Z.ltb_spec (j_submitted_at (fst a)) (j_submitted_at (fst b))); [done|].
    destruct (Z.ltb_spec (j_submitted_at (fst b)) (j_submitted_at (fst a))); done.
  - destruct (str_lt (j_job_id (fst b)) (j_job_id (fst a))) eqn:E; [|done].
    destruct (f_ltk _ _), (f_ltk _ _); cbn in *; try done.
    destruct (Z.ltb_spec (j_submitted_at (fst a)) (j_submitted_at (fst b))); [done|].
    destruct (Z.ltb_spec (j_submitted_at (fst b)) (j_submitted_at (fst a))); done.
Qed.

(** The queue is a permutation of the jobs, each with its own priority; no
    job stands behind one it beats; and the order does not depend on the order
    the jobs were read in. *)
Theorem order_queue_total jobs jobs' d now :
  NoDup (map j_job_id jobs) -> Permutation jobs jobs' ->
  (forall j, j ∈ jobs -> is_nan (pri_score (priority_of j (usage_shares d now) now)) = false) ->
  Permutation (map fst (order_queue jobs d now)) jobs /\
  (forall j p, (j, p) ∈ order_queue jobs d now -> p = priority_of j (usage_shares d now) now) /\
  StronglySorted (fun a b => queue_lt b a = false) (order_queue jobs d now) /\
  order_queue jobs' d now = order_queue jobs d now.
Proof.
  intros Hid Hp Hnan. unfold order_queue. set (shares := usage_shares d now) in *.
  set (scored := map (fun j => (j, priority_of j shares now)) jobs).
  set (scored' := map (fun j => (j, priority_of j shares now)) jobs').
  assert (Hin : forall x, x ∈ scored -> fst x ∈ jobs /\ snd x = priority_of (fst x) shares now).
  { intros x (j & -> & Hj)%list_elem_of_fmap. by split. }
  assert (Hs : forall a b, a ∈ scored -> b ∈ scored -> queue_lt a b = queue_ltk a b).
  { intros a b [Ha Ea]%Hin [Hb Eb]%Hin. apply queue_lt_ltk; [rewrite Ea|rewrite Eb]; by apply Hnan. }
  assert (Hpp : Permutation scored scored') by (by apply Permutation_map).
  rewrite (py_sort_ext queue_lt queue_ltk scored) by done.
  rewrite (py_sort_ext queue_lt queue_ltk scored')
    by (intros a b Ha Hb; apply Hs; by rewrite Hpp).
  split_and!.
  - rewrite (py_sort_perm queue_ltk scored). subst scored. rewrite map_map. cbn. by rewrite map_id.
  - intros j p [_ E]%py_sort_elem%Hin. exact E.
  - pose proof (py_sort_sorted queue_ltk scored) as Hsort.
    assert (Hall : forall x, x ∈ py_sort queue_ltk scored -> x ∈ scored) by (intros x; apply py_sort_elem).
    revert Hsort Hall. generalize (py_sort queue_ltk scored). intros l Hsort.
    induction Hsort as [|x l Hsort IH Hf]; intros Hall; constructor.
    + apply IH. intros. apply Hall. by right.
    + apply List.Forall_forall. intros y Hy. pose proof (proj1 (List.Forall_forall _ _) Hf _ Hy) as Hle.
      rewrite Hs; [exact Hle| |]; apply Hall; [right; by apply list_elem_of_In|left].
  - symmetry. apply py_sort_perm_eq; [apply _| |done].
    intros a b Ha Hb Hab Hba. pose proof (queue_ltk_tie a b Hba Hab) as E.
    destruct (Hin _ Ha) as [Haj Hap], (Hin _ Hb) as [Hbj Hbp].
    assert (fst a = fst b) as Ej.
    { revert E. clear -Hid Haj Hbj. intros E.
      apply list_elem_of_lookup in Haj as [i Hi]. apply list_elem_of_lookup in Hbj as [k Hk].
      assert (i = k) as ->; [|congruence].
      eapply NoDup_lookup; [exact Hid|..]; rewrite list_lookup_fmap; [by rewrite Hi|].
      rewrite Hk. cbn. by rewrite E. }
    destruct a, b. cbn in *. congruence.
Qed.
End FairShare.
