(* ===== verification/Commands.v ===== *)
(** * local/commands.py: what the broker says to a lab host

    Strings and parsers, one definition per function, in [Module commands].  A
    [dict] that is only looked up is a [gmap].  Python's order of iteration over a
    set of process numbers is the argument [iter]. *)

From Stdlib Require Import Ascii.
From S2P Require Import Prelude PyFloat PyFormat PySort Errors Money Clock PyJson PyText.
Local Open Scope Z_scope.
Local Open Scope py_scope.

(** A double quote, inside texts. *)
Definition dq : string := String quote_char "".

(** [int(s)], [float(s)], [int(float(s))] *)
Definition int_str (s : string) : outcome exn Z := int_of (JStr s).
Definition float_str (s : string) : outcome exn float :=
  of_option (float_text s) (ValueError ("could not convert string to float: '" +:+ s +:+ "'")).
Definition int_float_str (s : string) : outcome exn Z := x <-? float_str s;; int_of (JFloat x).

Definition is_value_error (e : exn) : bool := match e with ValueError _ | TraceError _ => true | _ => false end.

(** [key, _, value = s.partition(c)] *)
Definition partition (c : ascii) (s : string) : string * string := default (s, "") (partition_char c s).

Definition contains (c : ascii) (s : string) : bool := negb (str_forall (fun d => negb (Ascii.eqb d c)) s).

Module commands.

Definition UNIT_PREFIX : string := "gpu-broker-".

Definition unit_for (job_id : string) : string := UNIT_PREFIX +:+ job_id.

Definition job_dir (root job_id : string) : string := root +:+ "/" +:+ job_id.

Definition job_id_of (unit_ : string) : string := removesuffix ".service" (removeprefix UNIT_PREFIX unit_).

(** ** Inspecting the machine *)

Definition HELLO : string := "printf '%s\n' ok " +:+ dq +:+ "$HOME" +:+ dq.

Definition parse_hello (stdout : string) : option string :=
  match map strip (splitlines (strip stdout)) with
  | first :: second :: _ =>
      if String.eqb first "ok" then if String.eqb second "" then None else Some second else None
  | _ => None
  end.

Definition expand (path home : string) : string :=
  if String.eqb path "~" then home
  else match strip_prefix "~/" path with
       | Some rest => home +:+ "/" +:+ rest
       | None => path
       end.

Definition GPU_QUERY : string :=
  "nvidia-smi --query-gpu=index,name,memory.total,memory.used,"
  +:+ "utilization.gpu,compute_mode --format=csv,noheader,nounits".

Record GpuInfo := mkGpuInfo {
  gi_index : Z;
  gi_name : string;
  gi_memory_total_mb : Z;
  gi_memory_used_mb : Z;
  gi_utilization_percent : Z;
  gi_compute_mode : string
}.

(** [GpuInfo.supports_mps] *)
Definition supports_mps (g : GpuInfo) : bool :=
  bool_decide (gi_compute_mode g ∈ ["Default"; "Exclusive_Process"; "Exclusive_Thread"]).

(** One line: skipped, a card, or what [int] and [float] raise. *)
Definition parse_gpu (line : string) : outcome exn (option GpuInfo) :=
  match map strip (split_char "," line) with
  | index :: name :: total :: used :: percent :: mode :: _ =>
      let parsed :=
        index <-? int_str index;;
        total <-? int_float_str total;;
        used <-? int_float_str used;;
        percent <-? int_float_str percent;;
        Ok (mkGpuInfo index name total used percent mode) in
      match parsed with
      | Ok g => Ok (Some g)
      | Raise e => if is_value_error e then Ok None else Raise e
      end
  | _ => Ok None
  end.

Fixpoint parse_gpu_lines (lines : list string) : outcome exn (list GpuInfo) :=
  match lines with
  | [] => Ok []
  | line :: lines' =>
      g <-? parse_gpu line;;
      gs <-? parse_gpu_lines lines';;
      Ok (match g with Some g => g :: gs | None => gs end)
  end.

Definition parse_gpus (stdout : string) : outcome exn (list GpuInfo) := parse_gpu_lines (splitlines (strip stdout)).

(** ** CUDA MPS *)

Definition mps_env (pipe_dir log_dir : string) : string :=
  "CUDA_MPS_PIPE_DIRECTORY=" +:+ quote pipe_dir +:+ " CUDA_MPS_LOG_DIRECTORY=" +:+ quote log_dir.

Definition mps_running (pipe_dir : string) : string :=
  "echo get_server_list | " +:+ mps_env pipe_dir pipe_dir +:+ " nvidia-cuda-mps-control 2>&1".

Definition mps_start (pipe_dir log_dir : string) : string :=
  "mkdir -p " +:+ quote pipe_dir +:+ " " +:+ quote log_dir +:+ " && "
  +:+ mps_env pipe_dir log_dir +:+ " nvidia-cuda-mps-control -d".

Definition mps_stop (pipe_dir : string) : string :=
  "echo quit | " +:+ mps_env pipe_dir pipe_dir +:+ " nvidia-cuda-mps-control".

Definition mps_client_env (pipe_dir : string) (device memory_mb thread_percent : Z) : list (string * string) :=
  [("CUDA_MPS_PIPE_DIRECTORY", pipe_dir);
   ("CUDA_MPS_PINNED_DEVICE_MEM_LIMIT", str_of_Z device +:+ "=" +:+ str_of_Z memory_mb +:+ "M");
   ("CUDA_MPS_ACTIVE_THREAD_PERCENTAGE", str_of_Z thread_percent);
   ("CUDA_VISIBLE_DEVICES", str_of_Z device)].

(** ** cgroup v2, through systemd *)

Definition sudo (command : string) (use_sudo : bool) : string :=
  if use_sudo then "sudo -n " +:+ command else command.

Definition systemd (binary : string) (use_sudo : bool) : string :=
  if use_sudo then "sudo -n " +:+ binary else binary +:+ " --user".

Definition systemctl (use_sudo : bool) : string :=
  if use_sudo then "sudo -n systemctl" else "systemctl --user".

Definition PROBE_MEMORY_BYTES : Z := 67108864.

Definition limit_probe (use_sudo : bool) : string :=
  systemd "systemd-run" use_sudo +:+ " --scope --quiet -p MemoryMax=64M -- "
  +:+ "sh -c 'cat /sys/fs/cgroup$(cut -d: -f3 /proc/self/cgroup)/memory.max'".

Definition parse_limit_probe (stdout : string) : option Z :=
  match last (splitlines (strip stdout)) with
  | None => None
  | Some line => int_text (strip line)
  end.

(** The script that runs inside the unit. *)
Definition inner (directory working_dir command : string) (meta : list string) : string :=
  let d := quote directory in
  "mkdir -p " +:+ d +:+ " && "
  +:+ "printf '%s" +:+ newline +:+ "' " +:+ str_join " " (map quote meta) +:+ " "
  +:+ "> " +:+ d +:+ "/meta && "
  +:+ "cd " +:+ quote working_dir +:+ " && "
  +:+ "echo " +:+ b64encode (utf8 command) +:+ " | base64 -d > " +:+ d +:+ "/run.sh && "
  +:+ "bash " +:+ d +:+ "/run.sh > " +:+ d +:+ "/output.log 2>&1; "
  +:+ "echo $? > " +:+ d +:+ "/exit".

Definition setenv (kv : string * string) : string := "--setenv=" +:+ fst kv +:+ "=" +:+ quote (snd kv).

(** Everything before the script: the unit, its limits, its environment. *)
Definition launch_options (unit_ : string) (env : list (string * string)) (memory_max_mb cpu_quota_percent : Z)
    (run_as : string) (use_sudo : bool) : string :=
  systemd "systemd-run" use_sudo +:+ " --unit=" +:+ unit_ +:+ " --service-type=exec "
  +:+ "--property=MemoryMax=" +:+ str_of_Z memory_max_mb +:+ "M "
  +:+ "--property=MemorySwapMax=0 "
  +:+ "--property=CPUQuota=" +:+ str_of_Z cpu_quota_percent +:+ "% "
  +:+ (if use_sudo then "--uid=" +:+ quote run_as +:+ " " else "")
  +:+ str_join " " (map setenv (py_sort (on fst str_lt) env)) +:+ " ".

Definition launch (unit_ directory working_dir command : string) (env : list (string * string))
    (memory_max_mb cpu_quota_percent : Z) (run_as : string) (meta : list string) (use_sudo : bool) : string :=
  launch_options unit_ env memory_max_mb cpu_quota_percent run_as use_sudo
  +:+ "/bin/bash -lc " +:+ quote (inner directory working_dir command meta).

Definition unit_status (unit_ directory : string) (use_sudo : bool) : string :=
  "printf 'exitfile=%s\n' " +:+ dq +:+ "$(cat " +:+ quote directory +:+ "/exit 2>/dev/null)" +:+ dq +:+ "; "
  +:+ systemctl use_sudo +:+ " show " +:+ unit_ +:+ " --property=ActiveState --property=SubState "
  +:+ "--property=Result --property=ExecMainStatus 2>/dev/null || true".

Record UnitStatus := mkUnitStatus {
  un_exit_code : option Z;
  un_active_state : string;
  un_sub_state : string;
  un_result : string
}.

(** [UnitStatus.finished], [UnitStatus.was_oom_killed] *)
Definition finished (u : UnitStatus) : bool :=
  bool_decide (is_Some (un_exit_code u)) || bool_decide (un_active_state u ∈ ["inactive"; "failed"]).
Definition was_oom_killed (u : UnitStatus) : bool := String.eqb (un_result u) "oom-kill".

(** [fields[key.strip()] = value.strip()] for a line with an equals sign *)
Definition add_field (fields : gmap string string) (line : string) : gmap string string :=
  if contains "=" line then
    let '(key, value) := partition "=" line in <[strip key := strip value]> fields
  else fields.

Definition parse_unit_status (stdout : string) : UnitStatus :=
  let fields := fold_left add_field (splitlines (strip stdout)) ∅ in
  let field k := default "" (fields !! k) in
  mkUnitStatus (if non_empty (field "exitfile") then int_text (field "exitfile") else None)
    (field "ActiveState") (field "SubState") (field "Result").

Definition verify_limits (unit_ : string) (use_sudo : bool) : string :=
  systemctl use_sudo +:+ " show " +:+ unit_ +:+ " --property=MemoryMax --property=CPUQuotaPerSecUSec".

Definition tail_output (directory : string) (after : nat) : string :=
  "tail -n +" +:+ str_of_Z (Z.of_nat after + 1) +:+ " " +:+ quote directory +:+ "/output.log 2>/dev/null || true".

(** ** What the job does to the card *)

Definition utilization (unit_ : string) (use_sudo : bool) : string :=
  "printf '###PIDS" +:+ newline +:+ "'; "
  +:+ "cg=$(" +:+ systemctl use_sudo +:+ " show " +:+ unit_ +:+ " --property=ControlGroup --value 2>/dev/null); "
  +:+ "[ -n " +:+ dq +:+ "$cg" +:+ dq +:+ " ] && cat " +:+ dq +:+ "/sys/fs/cgroup$cg/cgroup.procs" +:+ dq +:+ " 2>/dev/null; "
  +:+ "printf '###PMON" +:+ newline +:+ "'; "
  +:+ "nvidia-smi pmon -c 1 -s u 2>/dev/null || true; "
  +:+ "printf '###MEM" +:+ newline +:+ "'; "
  +:+ "nvidia-smi --query-compute-apps=pid,used_gpu_memory "
  +:+ "--format=csv,noheader,nounits 2>/dev/null || true".

Record Utilization := mkUtilization { ut_gpu_percent : float; ut_memory_mb : Z; ut_processes : Z }.

(** [_percent(raw)] *)
Definition percent (raw : string) : float := default (f_of_Z 0) (float_text raw).

(** The variables of the loop. *)
Record Scan := mkScan {
  sc_section : string;
  sc_pids : gset string;
  sc_sm : gmap string float;
  sc_mem : gmap string Z
}.

Definition scan_line (s : Scan) (line : string) : outcome exn Scan :=
  let stripped := strip line in
  if starts_with "###" stripped then Ok {| s with sc_section := stripped |}
  else if negb (non_empty stripped) || starts_with "#" stripped then Ok s
  else if String.eqb (sc_section s) "###PIDS" then
    Ok (if isdigit stripped then {| s with sc_pids := {[stripped]} ∪ sc_pids s |} else s)
  else if String.eqb (sc_section s) "###PMON" then
    match split_space stripped with
    | _ :: pid :: _ :: sm :: _ =>
        Ok (if isdigit pid then {| s with sc_sm := <[pid := percent sm]> (sc_sm s) |} else s)
    | _ => Ok s
    end
  else if String.eqb (sc_section s) "###MEM" then
    match map strip (split_char "," stripped) with
    | pid :: mb :: _ =>
        if isdigit pid then
          match int_float_str mb with
          | Ok mb => Ok {| s with sc_mem := <[pid := mb]> (sc_mem s) |}
          | Raise e => if is_value_error e then Ok s else Raise e
          end
        else Ok s
    | _ => Ok s
    end
  else Ok s.

Fixpoint scan_lines (s : Scan) (lines : list string) : outcome exn Scan :=
  match lines with
  | [] => Ok s
  | line :: lines' => s <-? scan_line s line;; scan_lines s lines'
  end.

Definition parse_utilization (iter : gset string -> list string) (stdout : string) : outcome exn (option Utilization) :=
  s <-? scan_lines (mkScan "" ∅ ∅ ∅) (splitlines stdout);;
  if bool_decide (sc_pids s = ∅) then Ok None
  else
    let ours := sc_pids s ∩ (dom (sc_sm s) ∪ dom (sc_mem s)) in
    Ok (Some (mkUtilization
      (f_sum (map (fun pid => default (f_of_Z 0) (sc_sm s !! pid)) (iter ours)))
      (zsum (fun pid => default 0 (sc_mem s !! pid)) (iter ours))
      (Z.of_nat (base.size ours)))).

(** ** Units and their directories *)

Definition stop_unit (unit_ : string) (use_sudo : bool) : string :=
  let manager := systemctl use_sudo in
  manager +:+ " stop " +:+ unit_ +:+ " >/dev/null 2>&1; "
  +:+ manager +:+ " reset-failed " +:+ unit_ +:+ " >/dev/null 2>&1; true".

Definition list_units (use_sudo : bool) : string :=
  systemctl use_sudo +:+ " list-units '" +:+ UNIT_PREFIX +:+ "*' " +:+ "--all --no-legend --plain --no-pager".

Definition parse_units (stdout : string) : list string :=
  flat_map (fun line => match split_space line with
                        | first :: _ => if starts_with UNIT_PREFIX first then [removesuffix ".service" first] else []
                        | [] => []
                        end) (splitlines (strip stdout)).

Definition list_live_jobs (root : string) (use_sudo : bool) : string :=
  "for d in " +:+ quote root +:+ "/*/; do "
  +:+ "[ -d " +:+ dq +:+ "$d" +:+ dq +:+ " ] || continue; "
  +:+ "id=$(basename " +:+ dq +:+ "$d" +:+ dq +:+ "); "
  +:+ "if " +:+ systemctl use_sudo +:+ " is-active --quiet " +:+ UNIT_PREFIX +:+ "$id 2>/dev/null; then "
  +:+ "printf " +:+ dq +:+ "### %s" +:+ newline +:+ dq +:+ " " +:+ dq +:+ "$id" +:+ dq +:+ "; cat " +:+ dq +:+ "$d/meta" +:+ dq +:+ " 2>/dev/null; "
  +:+ "fi; done".

(** The loop of [parse_live_jobs]: the jobs read, the current one last. *)
Fixpoint live_jobs (current : option (gmap string string)) (lines : list string) : list (gmap string string) :=
  let done_ := match current with Some j => [j] | None => [] end in
  match lines with
  | [] => done_
  | line :: lines' =>
      match strip_prefix "### " line with
      | Some id => done_ ++ live_jobs (Some {["job-id" := strip id]}) lines'
      | None => live_jobs (option_map (fun j => add_field j line) current) lines'
      end
  end.

Definition parse_live_jobs (stdout : string) : list (gmap string string) := live_jobs None (splitlines stdout).

Definition meta_lines (job_id user_id launched_at : string) (gpu : Z) : list string :=
  ["job-id=" +:+ job_id; "user=" +:+ user_id; "launched-at=" +:+ launched_at; "gpu=" +:+ str_of_Z gpu].

Definition remove_job_dir (root job_id : string) : string := "rm -rf " +:+ quote (job_dir root job_id).
End commands.
