(* ===== verification/Hosts.v ===== *)
(** * local/hosts.py: whether a lab host may take work

    [HostSpec], [CommandResult] and the [Transport] protocol are those of
    local/transport.py: a transport runs a command on a host, over a state [T] of
    its own, and may raise.  [check_host] is the sequence of probes; [home] is
    [None] where Python keeps [None] in place of a path. *)

From Stdlib Require Import Ascii.
From S2P Require Import Prelude PyFloat PyFormat PySort Errors Money Clock PyJson PyText States Models Config Tables Store StoreInv StoreSafe Commands.
Local Open Scope Z_scope.
Local Open Scope py_scope.

Import commands.

Record HostSpec := mkHostSpec {
  hs_hostname : string;
  hs_username : string;
  hs_port : Z;
  hs_client_key : option string;
  hs_known_hosts : option string
}.

Record CommandResult := mkCommandResult {
  cr_exit_status : Z;
  cr_stdout : string;
  cr_stderr : string
}.

(** [CommandResult.ok] *)
Definition cr_ok (r : CommandResult) : bool := cr_exit_status r =? 0.

(** [(result.stderr or result.stdout).strip().splitlines()] *)
Definition detail_lines (r : CommandResult) : list string :=
  splitlines (strip (if non_empty (cr_stderr r) then cr_stderr r else cr_stdout r)).

(** [CommandResult.require(what)] *)
Definition require (r : CommandResult) (what : string) : outcome exn CommandResult :=
  if cr_ok r then Ok r
  else Raise (BackendError (what +:+ " failed: "
    +:+ match detail_lines r with first :: _ => first | [] => "exit " +:+ str_of_Z (cr_exit_status r) end)).

(** [Transport.run(host, command, timeout)] *)
Definition Transport (T : Type) : Type := HostSpec -> string -> float -> method T CommandResult.

Inductive HostState := HEALTHY | DRAINING | UNREACHABLE.

#[export] Instance HostState_eq_dec : EqDecision HostState.
Proof. solve_decision. Defined.

Definition host_state_str (s : HostState) : string :=
  match s with HEALTHY => "HEALTHY" | DRAINING => "DRAINING" | UNREACHABLE => "UNREACHABLE" end.

Definition accepts_jobs (s : HostState) : bool := bool_decide (s = HEALTHY).

Record HostHealth := mkHostHealth {
  hh_hostname : string;
  hh_state : HostState;
  hh_reason : string;
  hh_checked_at : Z;
  hh_gpus : list GpuInfo;
  hh_mps_ready : bool;
  hh_limits_enforced : bool;
  hh_limits_tested : bool;
  hh_home : option string
}.

Definition gpu_count (h : HostHealth) : Z := Z.of_nat (length (hh_gpus h)).

(** [HostHealth.describe()] *)
Definition hh_describe (h : HostHealth) : string :=
  match hh_state h with
  | HEALTHY =>
      let names := str_join ", " (map (fun g => gi_name g +:+ " (" +:+ str_of_Z (gi_memory_total_mb g) +:+ "MB)") (hh_gpus h)) in
      hh_hostname h +:+ ": healthy, " +:+ (if non_empty names then names else "no gpus")
  | s => hh_hostname h +:+ ": " +:+ str_lower (host_state_str s) +:+ ", " +:+ hh_reason h
  end.

(** [f"{home}"] *)
Definition home_text (home : option string) : string := default "None" home.

Record LocalConfig := mkLocalConfig {
  lc_hosts : list HostSpec;
  lc_gpu_type : string;
  lc_max_jobs_per_gpu : Z;
  lc_job_root : string;
  lc_working_dir : string;
  lc_mps_pipe_dir : string;
  lc_mps_log_dir : string;
  lc_default_gpu_memory_mb : Z;
  lc_default_memory_max_mb : Z;
  lc_default_cpu_quota_percent : Z;
  lc_use_sudo : bool;
  lc_run_as : string;
  lc_health_interval_seconds : float;
  lc_command_timeout_seconds : float;
  lc_poll_timeout_seconds : float
}.

(** [LocalConfig()] *)
Definition default_local : LocalConfig :=
  mkLocalConfig [] "a6000" 2 "~/.gpu-broker/jobs" "~" "/tmp/gpu-broker-mps/pipe" "/tmp/gpu-broker-mps/log"
    16384 32768 400 true "" (f_of_Z 120) (f_of_Z 60) (f_of_Z 15).

(** [LocalConfig.resolved_run_as(host)] *)
Definition resolved_run_as (c : LocalConfig) (host : HostSpec) : string :=
  if non_empty (lc_run_as c) then lc_run_as c else hs_username host.

(** [LocalConfig.validate()] *)
Definition validate_local (c : LocalConfig) : outcome exn unit :=
  if lc_max_jobs_per_gpu c <? 1 then Raise (ConfigError "local.max_jobs_per_gpu must be at least 1")
  else if lc_default_gpu_memory_mb c <? 256 then
    Raise (ConfigError "local.default_gpu_memory_mb is too small to run anything")
  else
    let names := map hs_hostname (lc_hosts c) in
    if bool_decide (NoDup names) then Ok tt
    else Raise (ConfigError ("duplicate hosts in local.hosts: " +:+ repr_list names)).

Section Probes.
Context {T : Type} (transport : Transport T).

(** A command whose [BackendError] is caught: its text is the result. *)
Definition try_run (host : HostSpec) (command : string) (timeout : float) (t : Z)
    : M T exn (CommandResult + string) :=
  try_catch (r <- transport host command timeout t;; ret (inl r)) is_backend_error
    (fun e => ret (inr (exn_str e))).

Definition first_line (lines : list string) (d : string) : string := match lines with l :: _ => l | [] => d end.

(** The reason of a failed probe of the limits. *)
Definition limits_reason (probe : CommandResult) (applied : option Z) : string :=
  "cgroup limits do not take effect here (asked for " +:+ str_of_Z PROBE_MEMORY_BYTES
  +:+ " bytes, the scope reported " +:+ match applied with Some n => str_of_Z n | None => "None" end +:+ "): "
  +:+ default ("exit " +:+ str_of_Z (cr_exit_status probe)) (last (detail_lines probe))
  +:+ ". Without them one job can take the whole machine down, so no new "
  +:+ "jobs will be placed here. Either give the SSH user passwordless "
  +:+ "sudo for systemd-run, or set local.use_sudo to false to use the "
  +:+ "user manager instead -- on a shared research box you will not "
  +:+ "get sudo, and the user slice usually has memory and cpu "
  +:+ "delegated anyway".

(** [check_host(transport, host, config, now)] *)
Definition check_host (host : HostSpec) (config : LocalConfig) (now : Z) : M T exn HostHealth :=
  let timeout := lc_command_timeout_seconds config in
  let unhealthy home state reason gpus tested :=
    ret (mkHostHealth (hs_hostname host) state reason now gpus false false tested home) in
  alive <- try_run host HELLO timeout now;;
  match alive with
  | inr message => unhealthy (Some "") UNREACHABLE message [] false
  | inl alive =>
      let home := if cr_ok alive then parse_hello (cr_stdout alive) else None in
      match home with
      | None => unhealthy home UNREACHABLE "ssh connected but the shell failed" [] false
      | Some _ =>
          smi <- try_run host GPU_QUERY timeout now;;
          match smi with
          | inr message => unhealthy home DRAINING ("nvidia-smi did not answer: " +:+ message) [] false
          | inl smi =>
              if negb (cr_ok smi) then
                unhealthy home DRAINING ("nvidia-smi failed: " +:+ first_line (detail_lines smi) "no output"
                  +:+ ". Usually a driver that needs a reboot") [] false
              else
                gpus <- lift_outcome (parse_gpus (cr_stdout smi));;
                let unusable := List.filter (fun g => negb (supports_mps g)) gpus in
                match gpus, unusable with
                | [], _ => unhealthy home DRAINING "nvidia-smi reported no GPUs" [] false
                | _, g :: _ =>
                    unhealthy home DRAINING
                      (str_join ", " (map (fun g => "gpu " +:+ str_of_Z (gi_index g) +:+ " is " +:+ gi_compute_mode g) unusable)
                       +:+ ". MPS cannot open a Prohibited device; set it with: sudo nvidia-smi -i "
                       +:+ str_of_Z (gi_index g) +:+ " -c DEFAULT") gpus false
                | _, [] =>
                    probe <- try_run host (limit_probe (lc_use_sudo config)) timeout now;;
                    match probe with
                    | inr message => unhealthy home DRAINING ("could not test cgroup limits: " +:+ message) gpus false
                    | inl probe =>
                        let applied := if cr_ok probe then parse_limit_probe (cr_stdout probe) else None in
                        if negb (bool_decide (applied = Some PROBE_MEMORY_BYTES)) then
                          unhealthy home DRAINING (limits_reason probe applied) gpus true
                        else
                          mps <- transport host (mps_running (lc_mps_pipe_dir config)) timeout now;;
                          ret (mkHostHealth (hs_hostname host) HEALTHY "" now gpus (cr_ok mps) true true home)
                    end
                end
          end
      end
  end.

(** [start_mps(transport, host, config)] *)
Definition start_mps (host : HostSpec) (config : LocalConfig) (t : Z) : M T exn unit :=
  result <- transport host (mps_start (lc_mps_pipe_dir config) (lc_mps_log_dir config))
              (lc_command_timeout_seconds config) t;;
  if cr_ok result then ret tt
  else raise (BackendError (hs_hostname host +:+ ": could not start the MPS daemon: "
    +:+ first_line (detail_lines result) "no output")).
End Probes.
