(* ===== verification/Backend.v ===== *)
(** * backends/base.py: what the broker asks of a backend

    [Backend W] is the [Backend] protocol: one field per attribute and method.
    [W] is the state of everything the backends talk to; a method reads the
    clock, may change that state and may raise.  [local_ops] is what
    [LocalBackend] adds and [Broker] looks for with [isinstance]. *)

From S2P Require Import Prelude PyFloat PyDecimal PyFormat Errors Money Clock States Models Config Tables Store StoreInv StoreSafe Hosts.
Local Open Scope Z_scope.

Inductive BackendStatus : Type :=
| PENDING | READY | B_RUNNING | B_COMPLETED | B_FAILED | INTERRUPTED | GONE.

#[export] Instance BackendStatus_eq_dec : EqDecision BackendStatus.
Proof. solve_decision. Defined.

Definition status_str (s : BackendStatus) : string :=
  match s with
  | PENDING => "PENDING" | READY => "READY" | B_RUNNING => "RUNNING"
  | B_COMPLETED => "COMPLETED" | B_FAILED => "FAILED" | INTERRUPTED => "INTERRUPTED"
  | GONE => "GONE"
  end.

Definition TERMINAL_STATUSES : list BackendStatus := [B_COMPLETED; B_FAILED; INTERRUPTED; GONE].

Record Allocation := mkAllocation {
  al_handle : string;
  al_gpu_type : string;
  al_tags : gmap string string
}.

Record Observation := mkObservation {
  ob_status : BackendStatus;
  ob_exit_code : option Z;
  ob_detail : option string
}.

Record UtilizationSample := mkUtilizationSample {
  us_at : float;
  us_gpu_percent : float;
  us_memory_mb : Z
}.

Record Resource := mkResource {
  res_handle : string;
  res_gpu_type : string;
  res_status : BackendStatus;
  res_tags : gmap string string
}.

(** [Resource.job_id], [Resource.user_id] *)
Definition res_job_id (r : Resource) : option string := res_tags r !! "broker-job-id".
Definition res_user_id (r : Resource) : option string := res_tags r !! "broker-user".

(** [tags_for(job, launched_at_iso)] *)
Definition tags_for (j : Job) (launched_at_iso : string) : gmap string string :=
  <["broker-job-id" := j_job_id j]> (<["broker-user" := j_user_id j]>
    (<["broker-launched-at" := launched_at_iso]> ∅)).

Record LocalOps (W : Type) := mkLocalOps {
  lo_hosts : list HostSpec;
  lo_host : string -> method W bool;
  lo_health : bool -> method W (list HostHealth);
  lo_free_on : HostHealth -> method W Z;
  lo_drain : string -> string -> method W unit;
  lo_undrain : string -> method W unit
}.
Arguments lo_hosts {W} _.
Arguments lo_host {W} _ _.
Arguments lo_health {W} _ _.
Arguments lo_free_on {W} _ _.
Arguments lo_drain {W} _ _ _.
Arguments lo_undrain {W} _ _.

Record Backend (W : Type) := mkBackend {
  b_name : string;
  b_currency : Currency;
  b_tier : option string;
  b_supports : string -> method W bool;
  b_free_slots : string -> method W Z;
  b_launch : Job -> method W Allocation;
  b_start : string -> Job -> method W unit;
  b_poll : string -> method W Observation;
  b_validate_launch : Job -> method W string;
  b_validate_terminate : string -> method W string;
  b_fetch_logs : string -> nat -> method W (list (string * string));
  b_terminate : string -> string -> method W unit;
  b_list_resources : method W (list Resource);
  b_sample_utilization : string -> method W (list UtilizationSample);
  b_local_ops : option (LocalOps W)
}.
Arguments b_name {W} _.
Arguments b_currency {W} _.
Arguments b_tier {W} _.
Arguments b_supports {W} _ _.
Arguments b_free_slots {W} _ _.
Arguments b_launch {W} _ _.
Arguments b_start {W} _ _ _.
Arguments b_poll {W} _ _.
Arguments b_validate_launch {W} _ _.
Arguments b_validate_terminate {W} _ _.
Arguments b_fetch_logs {W} _ _ _.
Arguments b_terminate {W} _ _ _.
Arguments b_list_resources {W} _.
Arguments b_sample_utilization {W} _ _.
Arguments b_local_ops {W} _.

(** A method call of a running broker. *)
Definition call {W A} (m : method W A) : M (St W) exn A := fun s =>
  let '(w', r) := m (clock s) (world s) in (mkSt (db s) (clock s) (journal s) w', r).

(** [getattr(backend, "tier", "ondemand")] *)
Definition tier_of {W} (b : Backend W) : string := default "ondemand" (b_tier b).

(** A query leaves the state of the backends alone. *)
Definition quiet {W A} (m : method W A) : Prop := forall t w, fst (m t w) = w.

(** What the protocol's comments ask of every backend: looking changes nothing. *)
Class Looking {W} (b : Backend W) : Prop := {
  look_supports : forall g, quiet (b_supports b g);
  look_free_slots : forall g, quiet (b_free_slots b g);
  look_poll : forall h, quiet (b_poll b h);
  look_validate : forall j, quiet (b_validate_launch b j);
  look_resources : quiet (b_list_resources b)
}.

Lemma call_db {W A} (m : method W A) s :
  db (fst (call m s)) = db s /\ journal (fst (call m s)) = journal s /\
  clock (fst (call m s)) = clock s.
Proof. unfold call. by destruct (m (clock s) (world s)). Qed.

Lemma safe_call {W A} js (m : method W A) : safe js (call m) none.
Proof. apply safe_world. intros s. split; apply call_db. Qed.

#[export] Hint Resolve safe_call : safe.

Lemma call_quiet {W A} (m : method W A) : quiet m -> reads (call m).
Proof.
  intros Hq s. unfold call. specialize (Hq (clock s) (world s)).
  destruct (m (clock s) (world s)) as [w r]. cbn in *. subst. by destruct s.
Qed.

Lemma call_answers {W A} (m : method W A) (s : St W) a : m (clock s) (world s) = (world s, a) -> call m s = (s, a).
Proof. intros H. unfold call. rewrite H. by destruct s. Qed.

(** A call of the protocol, and what it leaves. *)
Inductive Call : Type :=
| CSupports (gpu_type : string)
| CFree (gpu_type : string)
| CLaunch (j : Job)
| CStart (handle : string) (j : Job)
| CPoll (handle : string)
| CValidate (j : Job)
| CValidateTerminate (handle : string)
| CLogs (handle : string) (after : nat)
| CTerminate (handle reason : string)
| CList
| CSample (handle : string).

Definition perform {W} (b : Backend W) (w : W) (c : Z * Call) : W :=
  let t := fst c in
  match snd c with
  | CSupports g => fst (b_supports b g t w)
  | CFree g => fst (b_free_slots b g t w)
  | CLaunch j => fst (b_launch b j t w)
  | CStart h j => fst (b_start b h j t w)
  | CPoll h => fst (b_poll b h t w)
  | CValidate j => fst (b_validate_launch b j t w)
  | CValidateTerminate h => fst (b_validate_terminate b h t w)
  | CLogs h after => fst (b_fetch_logs b h after t w)
  | CTerminate h reason => fst (b_terminate b h reason t w)
  | CList => fst (b_list_resources b t w)
  | CSample h => fst (b_sample_utilization b h t w)
  end.

(** A backend that lists these resources, changing nothing. *)
Definition lists_resources {W} (b : Backend W) (rs : list Resource) : Prop :=
  forall t w, b_list_resources b t w = (w, Ok rs).

(** [r] is in what [b] lists, [reports] being the lists of [backends]. *)
Definition listed {W} (backends : list (Backend W)) (reports : list (list Resource)) (b : Backend W)
    (r : Resource) : Prop :=
  exists i rs, backends !! i = Some b /\ reports !! i = Some rs /\ r ∈ rs.

(** The tags identify the job and its owner. *)
Lemma tags_for_identify j t :
  let r := mkResource "" "" PENDING (tags_for j t) in
  res_job_id r = Some (j_job_id j) /\ res_user_id r = Some (j_user_id j).
Proof. split; cbn; unfold res_job_id, res_user_id, tags_for; cbn; by simplify_map_eq. Qed.
