(* ===== verification/Volumes.v ===== *)
(** * volumes.py: where a member's data lives between jobs

    The scripts that mount it, and the two places a member's name becomes a path.
    [load_volume_config] is in [ConfigLoad]; a [repr] in a message
    is between apostrophes. *)

From Stdlib Require Import Ascii.
From S2P Require Import Prelude PyFloat PyFormat PySort Errors Money Clock PyJson PyText Commands.
Local Open Scope Z_scope.
Local Open Scope py_scope.

Definition MOUNT_POINT : string := "/mnt/gpu-broker".
Definition DATA_PATH : string := "/data".

Record VolumeConfig := mkVolumeConfig {
  vc_enabled : bool;
  vc_efs_id : string;
  vc_region : string;
  vc_local_root : string;
  vc_quota_gb : float
}.

(** [VolumeConfig()] *)
Definition default_volumes : VolumeConfig := mkVolumeConfig false "" "" "~/.gpu-broker/data" (f_of_Z 0).

(** [VolumeConfig.validate()] *)
Definition validate_volumes (c : VolumeConfig) : outcome exn unit :=
  if vc_enabled c && negb (non_empty (vc_efs_id c)) && negb (non_empty (vc_local_root c)) then
    Raise (ConfigError ("volumes.enabled is set but there is nowhere to put anything: "
      +:+ "set volumes.efs_id for cloud jobs, or volumes.local_root for the lab"))
  else if non_empty (vc_efs_id c) && negb (starts_with "fs-" (vc_efs_id c)) then
    Raise (ConfigError ("volumes.efs_id should look like fs-0123abc, got '" +:+ vc_efs_id c +:+ "'"))
  else Ok tt.

(** [_safe(user_id)] *)
Definition is_path_char (c : ascii) : bool :=
  is_alnum_char c || existsb (Ascii.eqb c) ["-"; "_"; "."]%char.

Definition safe_name (user_id : string) : string :=
  let cleaned := str_filter is_path_char user_id in
  if non_empty cleaned then cleaned else "unknown".

(** [efs_mount_script(config, user_id, region)] *)
Definition efs_mount_script (config : VolumeConfig) (user_id region : string) : string :=
  if negb (non_empty (vc_efs_id config)) then "true"
  else
    let host := vc_efs_id config +:+ ".efs." +:+ region +:+ ".amazonaws.com" in
    let user_dir := MOUNT_POINT +:+ "/" +:+ safe_name user_id in
    "mkdir -p " +:+ MOUNT_POINT +:+ " " +:+ DATA_PATH +:+ " && "
    +:+ "mount -t nfs4 -o nfsvers=4.1,rsize=1048576,wsize=1048576,hard,timeo=600,retrans=2 "
    +:+ host +:+ ":/ " +:+ MOUNT_POINT +:+ " && "
    +:+ "mkdir -p " +:+ quote user_dir +:+ " && "
    +:+ "mount --bind " +:+ quote user_dir +:+ " " +:+ DATA_PATH.

(** [local_data_dir(config, user_id, home)] *)
Definition local_data_dir (config : VolumeConfig) (user_id home : string) : string :=
  let root := vc_local_root config in
  let root := match strip_prefix "~/" root with
              | Some rest => home +:+ "/" +:+ rest
              | None => if String.eqb root "~" then home else root
              end in
  root +:+ "/" +:+ safe_name user_id.

(** [local_mount_script(config, user_id, home)] *)
Definition local_mount_script (config : VolumeConfig) (user_id home : string) : string :=
  if negb (vc_enabled config) then "true"
  else "mkdir -p " +:+ quote (local_data_dir config user_id home).

(** ** A member's directory *)

Lemma str_filter_forall p s : str_forall p (str_filter p s) = true.
Proof.
  unfold str_forall. induction s as [|c s IH]; [done|]. cbn [str_filter]. destruct (p c) eqn:Hc; [|done].
  cbn [String.list_ascii_of_string forallb]. by rewrite Hc.
Qed.

Lemma safe_name_chars user_id : str_forall is_path_char (safe_name user_id) = true /\ safe_name user_id <> "".
Proof.
  unfold safe_name. pose proof (str_filter_forall is_path_char user_id) as H.
  destruct (str_filter is_path_char user_id) as [|c s]; [by vm_compute|]. split; [exact H|done].
Qed.

(** The name is one component of a path. *)
Lemma safe_name_component user_id : split_char "/" (safe_name user_id) = [safe_name user_id].
Proof.
  apply split_char_free. destruct (safe_name_chars user_id) as [H _]. unfold str_forall in H.
  rewrite forallb_forall in *. intros c Hc. specialize (H c Hc).
  pose proof (all_chars (fun c => negb (is_path_char c) || negb (Ascii.eqb c "/")) ltac:(by vm_compute) c) as Hall.
  cbv beta in Hall. by rewrite H in Hall.
Qed.

(** But it may be the component that goes up: the directory of a member called
    [..] is the parent of the root every other member's directory is in. *)
Example safe_name_up : safe_name ".." = ".." /\
  local_data_dir default_volumes ".." "/home/lab" = "/home/lab/.gpu-broker/data/..".
Proof. by vm_compute. Qed.
