(* ===== verification/Environments.v ===== *)
(** * environments.py: a spec, and what its content hash is

    The [Environment] and [Build] records are those of [Tables].  [sha256] is
    [hashlib.sha256(text.encode()).hexdigest()].  The two patterns are written out
    as the tests [re.match] makes; [$] also matches before a newline that ends the
    text. *)

From Stdlib Require Import Ascii.
From S2P Require Import Prelude PyFloat PyFormat PySort Errors Money Clock PyJson PyText States Models Config Tables Commands.
Local Open Scope Z_scope.
Local Open Scope py_scope.

Definition DEFAULT_BASE : string :=
  "public.ecr.aws/deep-learning-containers/pytorch-training:2.3.0-gpu-py311".

Definition between (a b : nat) (c : ascii) : bool := let n := nat_of_ascii c in ((a <=? n) && (n <=? b))%nat.
Definition is_lower_or_digit (c : ascii) : bool := between 97 122 c || between 48 57 c.

(** The text without the newline [$] lets pass. *)
Definition before_end (s : string) : string := removesuffix newline s.

(** [NAME.match(s)]: [^[a-z0-9][a-z0-9._-]{0,38}[a-z0-9]$] *)
Definition name_matches (s : string) : bool :=
  let s := String.list_ascii_of_string (before_end s) in
  match s, last s with
  | first :: _, Some final =>
      ((2 <=? length s) && (length s <=? 40))%nat && is_lower_or_digit first && is_lower_or_digit final
      && forallb (fun c => is_lower_or_digit c || existsb (Ascii.eqb c) ["."; "_"; "-"]%char) s
  | _, _ => false
  end.

(** [^[a-z0-9][a-z0-9+.:-]*$] *)
Definition apt_matches (s : string) : bool :=
  match String.list_ascii_of_string (before_end s) with
  | first :: rest =>
      is_lower_or_digit first
      && forallb (fun c => is_lower_or_digit c || existsb (Ascii.eqb c) ["+"; "."; ":"; "-"]%char) rest
  | [] => false
  end.

(** [_normalise(requirement)] *)
Definition normalise (requirement : string) : string :=
  str_lower (str_filter (fun c => negb (is_py_space c)) requirement).

(** [Environment.validate()] *)
Definition validate_env (e : Environment) : outcome exn unit :=
  if negb (name_matches (env_name e)) then
    Raise (BrokerError ("'" +:+ env_name e +:+ "' is not a usable name. Use lowercase letters, digits, "
      +:+ "dots, dashes and underscores, 2 to 40 characters"))
  else if negb (non_empty (env_base_image e)) then Raise (BrokerError (env_name e +:+ ": no base image"))
  else
    match List.find (fun line => starts "-" (strip line)) (env_requirements e) with
    | Some line =>
        Raise (BrokerError (env_name e +:+ ": requirement '" +:+ strip line +:+ "' is a pip flag, not a "
          +:+ "package. Flags refer to files the build cannot see"))
    | None =>
        match List.find (fun p => negb (apt_matches p)) (env_apt_packages e) with
        | Some p => Raise (BrokerError (env_name e +:+ ": '" +:+ p +:+ "' is not an apt package name"))
        | None => Ok tt
        end
    end.

(** [Environment.empty] *)
Definition env_empty (e : Environment) : bool :=
  match env_requirements e, env_apt_packages e with [], [] => true | _, _ => false end.

(** [from_requirements(name, text)] *)
Definition requirement_of (line : string) : option string :=
  let entry := strip (fst (partition "#" line)) in
  if non_empty entry then Some entry else None.

Definition from_requirements (name text : string) : outcome exn Environment :=
  let e := mkEnvironment name DEFAULT_BASE "" (omap requirement_of (splitlines text)) [] "" "" None None in
  _ <-? validate_env e;; Ok e.

(** [Build.usable] *)
Definition usable (b : Build) : bool := String.eqb (bld_state b) "ready" && non_empty (bld_reference b).

(** [json.dumps(spec, sort_keys=True, separators=(",", ":"))] *)
Definition canonical (e : Environment) : string :=
  let strings l := JList (map JStr (py_sort str_lt l)) in
  dumps compact (JDict
    [("apt", strings (env_apt_packages e)); ("base", JStr (env_base_image e));
     ("pip", strings (map normalise (env_requirements e))); ("python", JStr (env_python_version e))]).

Section Digest.
Context (sha256 : string -> string).

(** [Environment.digest] *)
Definition digest (e : Environment) : string := str_take 16 (sha256 (canonical e)).

(** [Environment.describe()] *)
Definition env_describe (e : Environment) : string :=
  let bits := (str_of_Z (Z.of_nat (length (env_requirements e))) +:+ " pip")
    :: match env_apt_packages e with
       | [] => []
       | l => [str_of_Z (Z.of_nat (length l)) +:+ " apt"]
       end in
  env_name e +:+ " (" +:+ digest e +:+ ") on " +:+ env_base_image e +:+ ", " +:+ str_join ", " bits.

Definition quoted (l : list string) : string := str_join " " (map quote (py_sort str_lt l)).

(** [Environment.dockerfile()] *)
Definition dockerfile (e : Environment) : string :=
  str_join newline
    (["FROM " +:+ env_base_image e]
     ++ match env_apt_packages e with
        | [] => []
        | l => ["RUN apt-get update && DEBIAN_FRONTEND=noninteractive apt-get install -y "
                +:+ "--no-install-recommends " +:+ quoted l +:+ " && rm -rf /var/lib/apt/lists/*"]
        end
     ++ match env_requirements e with
        | [] => []
        | l => ["RUN pip install --no-cache-dir " +:+ quoted l]
        end
     ++ ["LABEL gpu-broker.environment=" +:+ dq +:+ env_name e +:+ dq +:+ " gpu-broker.digest=" +:+ dq +:+ digest e +:+ dq])
  +:+ newline.

(** [Environment.venv_path(root)] *)
Definition venv_path (e : Environment) (root : string) : string := root +:+ "/" +:+ digest e.

(** [Environment.venv_script(root)] *)
Definition venv_script (e : Environment) (root : string) : string :=
  let target := root +:+ "/" +:+ digest e in
  let staging := root +:+ "/.building-" +:+ digest e in
  let pip := quoted (env_requirements e) in
  let install := if non_empty pip
    then staging +:+ "/bin/pip install --disable-pip-version-check -q " +:+ pip else "true" in
  let python := if non_empty (env_python_version e) then "python" +:+ env_python_version e else "python3" in
  "set -e; "
  +:+ "if [ -x " +:+ quote target +:+ "/bin/python ]; then exit 0; fi; "
  +:+ "mkdir -p " +:+ quote root +:+ "; "
  +:+ "rm -rf " +:+ quote staging +:+ "; "
  +:+ python +:+ " -m venv " +:+ quote staging +:+ "; "
  +:+ staging +:+ "/bin/pip install --disable-pip-version-check -q --upgrade pip; "
  +:+ install +:+ "; "
  +:+ "mv " +:+ quote staging +:+ " " +:+ quote target.
End Digest.
