(* ===== verification/Aws.v ===== *)
(** * aws.py: everything that knows AWS exists

    The tags, the scripts that run on an instance, the settings and the errors.
    [sh] writes a script: a backquote in its text stands for a double quote.
    [make_clients] (boto3) is left out; [load_aws_config] is in [ConfigLoad]. *)

From Stdlib Require Import Ascii.
From S2P Require Import Prelude PyFloat PyFormat PySort PyDict Errors Money Clock PyJson PyText.
Local Open Scope Z_scope.
Local Open Scope py_scope.

Definition TAG_JOB_ID : string := "broker-job-id".
Definition TAG_USER : string := "broker-user".
Definition TAG_LAUNCHED_AT : string := "broker-launched-at".
Definition TAG_COMMAND_ID : string := "broker-command-id".
Definition TAG_SAMPLER_ID : string := "broker-sampler-id".

Definition LIVE_INSTANCE_STATES : list string := ["pending"; "running"; "stopping"; "stopped"].

Definition SSM_PLUGIN : string := "aws-runShellScript".

(** ** Scripts *)

Fixpoint sh (s : string) : string :=
  match s with
  | EmptyString => ""
  | String c s' => String (if Ascii.eqb c "`" then quote_char else c) (sh s')
  end.

(** [containerised(...)] *)
Definition containerised (image command checkpoint_dir resume_dir data_path registry region dockerfile_b64 : string)
    : string :=
  "IMAGE="
  +:+ quote image
  +:+ sh "
if ! docker image inspect `$IMAGE` >/dev/null 2>&1; then
  aws ecr get-login-password --region "
  +:+ region
  +:+ " 2>/dev/null     | docker login --username AWS --password-stdin "
  +:+ registry
  +:+ sh " >/dev/null 2>&1 || true
  if ! docker pull `$IMAGE` >/dev/null 2>&1; then
    echo `gpu-broker: no cached image for this environment; building it once` >&2
    mkdir -p /tmp/gpu-broker-build
    printf '%s' "
  +:+ quote dockerfile_b64
  +:+ sh " | base64 -d > /tmp/gpu-broker-build/Dockerfile
    docker build -t `$IMAGE` /tmp/gpu-broker-build || exit 1
    docker push `$IMAGE` >/dev/null 2>&1       || echo `gpu-broker: built it, but could not push; the next job rebuilds` >&2
  fi
fi
docker run --rm --gpus all --ipc=host   --name gpu-broker-job   -v "
  +:+ quote checkpoint_dir
  +:+ ":"
  +:+ quote checkpoint_dir
  +:+ "   -v "
  +:+ quote resume_dir
  +:+ ":"
  +:+ quote resume_dir
  +:+ "   -v "
  +:+ quote data_path
  +:+ ":"
  +:+ quote data_path
  +:+ "   -e GPU_BROKER_CHECKPOINT_DIR -e GPU_BROKER_RESUME_DIR   -e GPU_BROKER_JOB_ID -e GPU_BROKER_CHECKPOINT_DEADLINE   -w "
  +:+ quote data_path
  +:+ sh "   `$IMAGE` bash -lc "
  +:+ quote command.

(** [job_wrapper_script(...)] *)
Definition job_wrapper_script (command checkpoint_dir resume_dir resume_uri upload_uri job_id : string)
    (deadline_seconds poll_seconds : Z) (setup : string) : string :=
  "set -u
CKPT="
  +:+ checkpoint_dir
  +:+ "
RESUME="
  +:+ resume_dir
  +:+ sh "
mkdir -p `$CKPT` `$RESUME`

if [ -n `"
  +:+ resume_uri
  +:+ sh "` ]; then
  aws s3 cp --recursive --quiet `"
  +:+ resume_uri
  +:+ sh "` `$RESUME` ||     echo `gpu-broker: could not restore a checkpoint, starting from the beginning` >&2
fi

export GPU_BROKER_CHECKPOINT_DIR=`$CKPT`
export GPU_BROKER_RESUME_DIR=`$RESUME`
export GPU_BROKER_JOB_ID="
  +:+ job_id
  +:+ "
export GPU_BROKER_CHECKPOINT_DEADLINE="
  +:+ str_of_Z deadline_seconds
  +:+ "

"
  +:+ setup
  +:+ "

bash -lc "
  +:+ quote command
  +:+ sh " &
JOB=$!

upload() {
  STEP=$(cat `$CKPT/CHECKPOINT_COMPLETE` 2>/dev/null || echo 0)
  DEST=`"
  +:+ upload_uri
  +:+ sh "/step-$(printf '%012d' `$STEP`)`
  aws s3 cp --recursive --quiet --exclude CHECKPOINT_COMPLETE `$CKPT` `$DEST` || return 1
  python3 - `$CKPT` `$STEP` > /tmp/MANIFEST.json <<'PYEOF'
import json, os, sys, datetime
root, step = sys.argv[1], int(sys.argv[2])
files, total = [], 0
for base, _, names in os.walk(root):
    for name in names:
        if name == `CHECKPOINT_COMPLETE`:
            continue
        path = os.path.join(base, name)
        files.append(os.path.relpath(path, root))
        total += os.path.getsize(path)
print(json.dumps({
    `step`: step,
    `written_at`: datetime.datetime.now(datetime.timezone.utc).isoformat(timespec=`microseconds`),
    `files`: sorted(files),
    `bytes`: total,
}))
PYEOF
  aws s3 cp --quiet /tmp/MANIFEST.json `$DEST/MANIFEST.json`
}

while kill -0 $JOB 2>/dev/null; do
  TOKEN=$(curl -sf -X PUT `http://169.254.169.254/latest/api/token`     -H `X-aws-ec2-metadata-token-ttl-seconds: 60` 2>/dev/null || true)
  CODE=$(curl -sf -o /dev/null -w '%{http_code}'     -H `X-aws-ec2-metadata-token: $TOKEN`     http://169.254.169.254/latest/meta-data/spot/instance-action 2>/dev/null || echo 404)
  if [ `$CODE` = `200` ]; then
    echo `gpu-broker: spot interruption notice; asking the job to checkpoint` >&2
    kill -USR1 $JOB 2>/dev/null || true
    WAITED=0
    while [ ! -f `$CKPT/CHECKPOINT_COMPLETE` ] && [ `$WAITED` -lt "
  +:+ str_of_Z deadline_seconds
  +:+ sh " ]; do
      sleep 1
      WAITED=$((WAITED + 1))
    done
    if [ -f `$CKPT/CHECKPOINT_COMPLETE` ]; then
      upload && echo `gpu-broker: checkpoint uploaded` >&2
    else
      echo `gpu-broker: the job did not checkpoint in "
  +:+ str_of_Z deadline_seconds
  +:+ sh "s; nothing to save` >&2
    fi
    kill -TERM $JOB 2>/dev/null || true
    exit 0
  fi
  sleep "
  +:+ str_of_Z poll_seconds
  +:+ "
done

wait $JOB
exit $?
".

(** [sampler_script(duration_seconds, interval_seconds)] *)
Definition sampler_script (duration_seconds interval_seconds : Z) : string :=
  "end=$(( $(date +%s) + "
  +:+ str_of_Z duration_seconds
  +:+ sh " )); while [ $(date +%s) -lt $end ]; do printf `%s,%s
` `$(date +%s)` `$(nvidia-smi --query-gpu=utilization.gpu,memory.used --format=csv,noheader,nounits 2>/dev/null | head -1)`; sleep "
  +:+ str_of_Z interval_seconds
  +:+ "; done".

(** [parse_sample_line(line)]: [except ValueError] *)
Definition parse_sample_line (line : string) : outcome exn (option (float * float * Z)) :=
  match map strip (split_char "," line) with
  | at_ :: percent :: memory :: _ =>
      match float_text at_, float_text percent, float_text memory with
      | Some a, Some p, Some m =>
          match int_of (JFloat m) with
          | Ok n => Ok (Some (a, p, n))
          | Raise (ValueError _) => Ok None
          | Raise e => Raise e
          end
      | _, _, _ => Ok None
      end
  | _ => Ok None
  end.

(** [command_log_stream(command_id, instance_id, stream)] *)
Definition command_log_stream (command_id instance_id stream : string) : string :=
  command_id +:+ "/" +:+ instance_id +:+ "/" +:+ SSM_PLUGIN +:+ "/" +:+ stream.

(** ** Settings *)

Record AwsConfig := mkAwsConfig {
  aws_region : string;
  aws_ami : option string;
  aws_instance_profile : option string;
  aws_log_group : string;
  aws_subnet_id : option string;
  aws_security_group_ids : list string;
  aws_instance_types : dict string string;
  aws_spot_instance_types : dict string (list string);
  aws_max_instances : dict string Z;
  aws_agent_timeout_seconds : float;
  aws_working_dir : string;
  aws_shutdown_behavior : string
}.

(** [AwsConfig()] *)
Definition default_aws : AwsConfig := {|
  aws_region := "us-west-2";
  aws_ami := None;
  aws_instance_profile := None;
  aws_log_group := "/gpu-broker/jobs";
  aws_subnet_id := None;
  aws_security_group_ids := [];
  aws_instance_types := [("t4", "g4dn.xlarge"); ("a10g", "g5.xlarge"); ("l4", "g6.xlarge"); ("a100", "p4d.24xlarge")];
  aws_spot_instance_types :=
    [("t4", ["g4dn.xlarge"; "g4dn.2xlarge"]); ("a10g", ["g5.xlarge"; "g5.2xlarge"; "g5.4xlarge"]);
     ("l4", ["g6.xlarge"; "g6.2xlarge"])];
  aws_max_instances := [("t4", 4); ("a10g", 4); ("l4", 2); ("a100", 1)];
  aws_agent_timeout_seconds := f_of_Z 900;
  aws_working_dir := "/home/ubuntu";
  aws_shutdown_behavior := "terminate"
|}.

(** [config.instance_type_for(gpu_type)] *)
Definition instance_type_for (c : AwsConfig) (gpu_type : string) : outcome exn string :=
  match dict_get gpu_type (aws_instance_types c) with
  | Some t => Ok t
  | None => Raise (ConfigError ("no EC2 instance type mapped for gpu type '" +:+ gpu_type +:+ "'. "
      +:+ "Add it under aws.instance_types in config.json. "
      +:+ "Known: " +:+ str_join ", " (py_sort str_lt (map fst (aws_instance_types c)))))
  end.

(** [config.require_launchable()] *)
Definition set_text (o : option string) : bool := non_empty (default "" o).

Definition require_launchable (c : AwsConfig) : outcome exn unit :=
  let missing := map fst (List.filter (fun p => negb (set_text (snd p)))
    [("aws.ami", aws_ami c); ("aws.instance_profile", aws_instance_profile c)]) in
  match missing with
  | [] => Ok tt
  | _ => Raise (ConfigError ("cannot launch: " +:+ str_join " and " missing +:+ " is not set in config.json. "
      +:+ "The AMI needs the SSM agent; the instance profile needs "
      +:+ "AmazonSSMManagedInstanceCore and logs:PutLogEvents."))
  end.

(** ** Errors

    What a call of a client raises: a [ClientError] or [BotoCoreError], with the
    code and the message of its response, if it has one, and its text; or
    anything else. *)

Record AwsError := mkAwsError { ae_code : option string; ae_message : string; ae_text : string }.

Inductive raised : Type := FromAws (e : AwsError) | Otherwise (e : exn).

(** [error_code(exc)], [is_dry_run_success(exc)] *)
Definition error_code (e : raised) : option string := match e with FromAws a => ae_code a | Otherwise _ => None end.

Definition has_code (codes : list string) (e : raised) : bool :=
  match error_code e with Some c => bool_decide (c ∈ codes) | None => false end.

Definition is_dry_run_success (e : raised) : bool := has_code ["DryRunOperation"] e.

Definition hints : dict string string :=
  [("UnauthorizedOperation", "the broker's IAM user is missing an EC2 permission for this call");
   ("AccessDeniedException", "the broker's IAM user is missing a permission for this call");
   ("VcpuLimitExceeded", "your G/P vCPU quota is exhausted. Request an increase in Service Quotas, or use the local pool");
   ("InsufficientInstanceCapacity",
    "AWS has no capacity for this instance type in this AZ right now. The job stays queued and will be retried");
   ("InvalidAMIID.NotFound", "aws.ami does not exist in this region");
   ("InvalidParameterValue", "one of the aws.* settings in config.json is wrong");
   ("RequestLimitExceeded", "AWS is throttling us; the job stays queued");
   ("InvalidInstanceId", "the instance is gone, or the SSM agent never registered")].

(** [str(exc)] *)
Definition raised_str (e : raised) : string := match e with FromAws a => ae_text a | Otherwise x => exn_str x end.

(** [explain(exc)] *)
Definition explain (e : raised) : string :=
  let message := match e with FromAws a => ae_message a | Otherwise _ => "" end in
  let text := match error_code e with
              | Some (String a s) => String a s +:+ ": " +:+ message
              | _ => raised_str e
              end in
  match dict_get (default "" (error_code e)) hints with
  | Some hint => text +:+ " (" +:+ hint +:+ ")"
  | None => text
  end.

(** ** Tags *)

(** [parse_tags(raw)]: of two tags with one key the later counts. *)
Definition parse_tags (raw : option (list (string * string))) : gmap string string :=
  fold_left (fun m kv => <[fst kv := snd kv]> m) (default [] raw) ∅.

(** [launched_at_of(tags)] *)
Definition launched_at_of (tags : gmap string string) : option Z :=
  match tags !! TAG_LAUNCHED_AT with
  | Some (String a s) => fromisoformat (String a s)
  | _ => None
  end.

(** ** Examples *)

Example explain_ex : explain (FromAws (mkAwsError (Some "InvalidAMIID.NotFound") "no ami-1" "An error occurred"))
  = "InvalidAMIID.NotFound: no ami-1 (aws.ami does not exist in this region)".
Proof. by vm_compute. Qed.

Example sample_ex : map parse_sample_line ["1700000000, 43, 9000"; "1700000000,[N/A],1"; "x"; "1,2,inf"]
  = [Ok (Some (f_of_Z 1700000000, f_of_Z 43, 9000)); Ok None; Ok None; Raise (OverflowError "cannot convert float infinity to integer")].
Proof. by vm_compute. Qed.
