(* ===== verification/Ec2.v ===== *)
(** * backends/ec2.py: real EC2 instances

    The clients of boto3 are not in the repository: their calls are records over
    a world [W], and what the code reads of an answer is a record with an option
    where the source says [.get].  [Ec2World] is what the object keeps besides.
    [environments] looks a name up, over [W] as well.  [ec2] is the instance of the
    [Backend] protocol.  A price that is NaN or infinite is read as no price. *)

From Stdlib Require Import Ascii.
From S2P Require Import Prelude PyFloat PyDecimal PyFormat PySort PyDict Errors Money Clock PyJson PyText States Models Config Tables Store StoreInv StoreSafe Backend Volumes Environments Aws.
Local Open Scope Z_scope.
Local Open Scope py_scope.

(** ** The clients *)

Record Instance := mkInstance {
  in_id : string;
  in_type : option string;
  in_state : string;
  in_tags : option (list (string * string));
  in_reason : option string;
  in_lifecycle : option string
}.

(** The parameters of [run_instances] but [DryRun]. *)
Record RunParams := mkRunParams {
  rp_image : option string;
  rp_type : string;
  rp_min_count : Z;
  rp_max_count : Z;
  rp_profile : option string;
  rp_shutdown : string;
  rp_instance_tags : gmap string string;
  rp_volume_tags : gmap string string;
  rp_http_tokens : string;
  rp_subnet : option string;
  rp_groups : list string;
  rp_market : option (string * string * string)
}.

Record SendParams := mkSendParams {
  sp_instance : string;
  sp_document : string;
  sp_command : string;
  sp_working_dir : option string;
  sp_timeout : string;
  sp_log_group : string;
  sp_comment : string
}.

Record SpotPrice := mkSpotPrice { sh_price : option string; sh_type : option string }.

Record Invocation := mkInvocation {
  iv_status : option string;
  iv_code : option Z;
  iv_details : option string;
  iv_stderr : option string
}.

Record LogEvents := mkLogEvents { le_messages : list string; le_forward : option string }.

Record AwsClients (W : Type) := mkAwsClients {
  run_instances : RunParams -> bool -> M W raised (list Instance);
  describe_spot_price_history : list string -> Z -> M W raised (list SpotPrice);
  paginate_instances : string -> list string -> M W raised (list (list (list Instance)));
  describe_instances : string -> M W raised (list (list Instance));
  create_tags : string -> list (string * string) -> M W raised unit;
  terminate_instances : string -> bool -> M W raised unit;
  send_command : SendParams -> M W raised string;
  cancel_command : string -> string -> M W raised unit;
  get_command_invocation : string -> string -> M W raised Invocation;
  describe_instance_information : string -> M W raised (list (option string));
  get_log_events : string -> string -> option string -> M W raised LogEvents
}.
Arguments run_instances {W}. Arguments describe_spot_price_history {W}. Arguments paginate_instances {W}.
Arguments describe_instances {W}. Arguments create_tags {W}. Arguments terminate_instances {W}.
Arguments send_command {W}. Arguments cancel_command {W}. Arguments get_command_invocation {W}.
Arguments describe_instance_information {W}. Arguments get_log_events {W}.

(** The container registry: the URIs of a repository, of a new one, and whether an image is there. *)
Record EcrClient (W : Type) := mkEcrClient {
  describe_repositories : string -> M W raised (list string);
  create_repository : string -> M W raised string;
  describe_images : string -> string -> M W raised unit
}.
Arguments describe_repositories {W}. Arguments create_repository {W}. Arguments describe_images {W}.

(** ** The object *)

(** [_SSM_STATUS] *)
Definition SSM_STATUS : dict string BackendStatus :=
  [("Pending", B_RUNNING); ("InProgress", B_RUNNING); ("Delayed", B_RUNNING); ("Success", B_COMPLETED);
   ("Cancelled", B_FAILED); ("TimedOut", B_FAILED); ("Failed", B_FAILED); ("Cancelling", B_RUNNING);
   ("Undeliverable", B_FAILED); ("Terminated", B_FAILED)].

Definition MAX_EXECUTION_TIMEOUT : Z := 172800.

(** The settings of [Ec2Backend.__init__]. *)
Record Ec2Backend (W : Type) := mkEc2Backend {
  eb_name : string;
  eb_tier : string;
  eb_aws : AwsConfig;
  eb_clients : AwsClients W;
  eb_cache_seconds : float;
  eb_sample_interval_seconds : Z;
  eb_spot : bool;
  eb_checkpoint_bucket : string;
  eb_checkpoint_prefix : string;
  eb_checkpoint_deadline_seconds : Z;
  eb_max_launch_failures : Z;
  eb_cooldown_seconds : float;
  eb_environments : option (string -> method W (option Environment));
  eb_volumes : VolumeConfig;
  eb_ecr_repository : string;
  eb_ecr : option (EcrClient W)
}.
Arguments eb_name {W}. Arguments eb_tier {W}. Arguments eb_aws {W}. Arguments eb_clients {W}.
Arguments eb_cache_seconds {W}. Arguments eb_sample_interval_seconds {W}. Arguments eb_spot {W}.
Arguments eb_checkpoint_bucket {W}. Arguments eb_checkpoint_prefix {W}.
Arguments eb_checkpoint_deadline_seconds {W}. Arguments eb_max_launch_failures {W}.
Arguments eb_cooldown_seconds {W}. Arguments eb_environments {W}. Arguments eb_volumes {W}.
Arguments eb_ecr_repository {W}. Arguments eb_ecr {W}.

Record Ec2World (W : Type) := mkEc2World {
  ew_aws : W;
  ew_failures : Z;
  ew_cooling_until : option Z;
  ew_registry : option string;
  ew_cache : option (list Instance);
  ew_cached_at : option Z;
  ew_log_lines : gmap string (list (string * string));
  ew_log_tokens : gmap string string;
  ew_agent_check_error : option string
}.
Arguments mkEc2World {W}. Arguments ew_aws {W}. Arguments ew_failures {W}. Arguments ew_cooling_until {W}.
Arguments ew_registry {W}. Arguments ew_cache {W}. Arguments ew_cached_at {W}. Arguments ew_log_lines {W}.
Arguments ew_log_tokens {W}. Arguments ew_agent_check_error {W}.

(** A new object over the clients. *)
Definition fresh_ec2 {W} (n : W) : Ec2World W := mkEc2World n 0 None None None None ∅ ∅ None.

(** [candidates.index(name)] *)
Fixpoint index_of (name : string) (candidates : list string) : option Z :=
  match candidates with
  | [] => None
  | c :: candidates => if String.eqb c name then Some 0 else option_map (Z.add 1) (index_of name candidates)
  end.

(** The loop over the price history: the lowest price of each type. *)
Definition lower_price (best : dict string Decimal) (entry : SpotPrice) : dict string Decimal :=
  match sh_price entry ≫= decimal_text with
  | None => best
  | Some price =>
      match default "" (sh_type entry) with
      | EmptyString => best
      | String a s =>
          let name := String a s in
          match dict_get name best with
          | Some known => if dec_ltb price known then dict_set name price best else best
          | None => dict_set name price best
          end
      end
  end.

Definition keyed_price (candidates : list string) (p : string * Decimal) : outcome exn (string * (Decimal * Z)) :=
  match index_of (fst p) candidates with
  | Some i => Ok (fst p, (snd p, i))
  | None => Raise (ValueError ("'" +:+ fst p +:+ "' is not in list"))
  end.

(** [min(best, key=lambda name: (best[name], candidates.index(name)))] *)
Definition key_below (a b : Decimal * Z) : bool :=
  match dec_compare (fst a) (fst b) with Lt => true | Gt => false | Eq => snd a <? snd b end.

Fixpoint cheapest (best : string * (Decimal * Z)) (l : list (string * (Decimal * Z))) : string :=
  match l with
  | [] => fst best
  | p :: l => cheapest (if key_below (snd p) (snd best) then p else best) l
  end.

(** [s.rstrip("\n")] *)
Fixpoint rstrip_newline (s : string) : string :=
  match s with
  | EmptyString => ""
  | String c s' =>
      match rstrip_newline s' with
      | EmptyString => if Ascii.eqb c "010" then "" else String c ""
      | r => String c r
      end
  end.

Section Ec2.
Context {W : Type} (sha256 : string -> string) (eb : Ec2Backend W).

Local Abbreviation aws := (eb_aws eb).
Local Abbreviation clients := (eb_clients eb).
Local Abbreviation M := (M (Ec2World W) exn).

Definition with_aws (n : W) (w : Ec2World W) : Ec2World W := {| w with ew_aws := n |}.

(** A call of a client under [except (ClientError, BotoCoreError)], and under [except Exception]. *)
Definition on_aws {A} (m : Prelude.M W raised A) : M (A + raised) := fun w =>
  let '(n, r) := m (ew_aws w) in
  (with_aws n w, match r with
                 | Ok a => Ok (inl a)
                 | Raise (FromAws e) => Ok (inr (FromAws e))
                 | Raise (Otherwise e) => Raise e
                 end).

Definition on_aws_any {A} (m : Prelude.M W raised A) : M (A + raised) := fun w =>
  let '(n, r) := m (ew_aws w) in
  (with_aws n w, match r with Ok a => Ok (inl a) | Raise e => Ok (inr e) end).

(** [try: r = call except (ClientError, BotoCoreError) as exc: raise BackendError(f"{what}: {explain(exc)}")] *)
Definition or_backend_error {A} (what : string) (m : Prelude.M W raised A) : M A :=
  r <- on_aws m;;
  match r with
  | inl a => ret a
  | inr exc => raise (BackendError (what +:+ ": " +:+ explain exc))
  end.

Definition gone : list string := ["InvalidInstanceID.NotFound"; "InvalidInstanceID.Malformed"].

(** [invalidate()] *)
Definition invalidated (w : Ec2World W) : Ec2World W := {| w with ew_cache := None; ew_cached_at := None |}.
Definition invalidate : M unit := modify invalidated.

(** [_instances()] *)
Definition is_fresh (w : Ec2World W) (now : Z) : option (list Instance) :=
  match ew_cache w, ew_cached_at w with
  | Some found, Some at_ => if f_lt (total_seconds (now - at_)) (eb_cache_seconds eb) then Some found else None
  | _, _ => None
  end.

Definition instances (now : Z) : M (list Instance) :=
  known <- gets (fun w => is_fresh w now);;
  match known with
  | Some found => ret found
  | None =>
      pages <- or_backend_error "could not list instances"
                 (paginate_instances clients TAG_JOB_ID LIVE_INSTANCE_STATES);;
      let found := concat (concat pages) in
      modify (fun w => {| w with ew_cache := Some found; ew_cached_at := Some now |});;;
      ret found
  end.

(** [_describe_one(handle)] *)
Definition describe_one (handle : string) : M (option Instance) :=
  r <- on_aws (describe_instances clients handle);;
  match r with
  | inl reservations => ret (hd_error (concat reservations))
  | inr exc =>
      if has_code gone exc then ret None
      else raise (BackendError ("could not describe " +:+ handle +:+ ": " +:+ explain exc))
  end.

(** [_instance(handle)] *)
Definition instance_of (handle : string) (now : Z) : M (option Instance) :=
  live <- instances now;;
  match List.find (fun i => String.eqb (in_id i) handle) live with
  | Some i => ret (Some i)
  | None => describe_one handle
  end.

(** [_command_id(handle)] *)
Definition command_id_of (handle : string) (now : Z) : M (option string) :=
  i <- instance_of handle now;;
  ret (i ≫= fun i => parse_tags (in_tags i) !! TAG_COMMAND_ID).

(** [_tag(handle, tags)] *)
Definition tag (handle : string) (tags : list (string * string)) : M unit :=
  or_backend_error ("could not tag " +:+ handle) (create_tags clients handle tags).

(** ** Capacity *)

(** [supports(gpu_type)] *)
Definition supports (gpu_type : string) : bool :=
  if eb_spot eb then
    match dict_get gpu_type (aws_spot_instance_types aws) with Some (_ :: _) => true | _ => false end
  else bool_decide (is_Some (dict_get gpu_type (aws_instance_types aws))).

Definition max_instances (gpu_type : string) : Z := default 0 (dict_get gpu_type (aws_max_instances aws)).

(** [free_slots(gpu_type)] *)
Definition free_slots (gpu_type : string) (now : Z) : M Z :=
  if negb (supports gpu_type) then ret 0
  else
    until <- gets ew_cooling_until;;
    if match until with Some u => now <? u | None => false end then ret 0
    else
      (match until with
       | Some _ => modify (fun w => {| w with ew_cooling_until := None; ew_failures := 0 |})
       | None => ret tt
       end);;;
      wanted <- lift_outcome (instance_type_for aws gpu_type);;
      found <- instances now;;
      let in_use := length (List.filter (fun i => bool_decide (in_type i = Some wanted)) found) in
      ret (Z.max 0 (max_instances gpu_type - Z.of_nat in_use)).

(** ** Launch *)

(** [_note_failure()] *)
Definition note_failure (now : Z) : M unit :=
  if negb (eb_spot eb) then ret tt
  else
    modify (fun w => {| w with ew_failures := ew_failures w + 1 |});;;
    failures <- gets ew_failures;;
    if eb_max_launch_failures eb <=? failures then
      let until := now + timedelta_seconds (eb_cooldown_seconds eb) in
      if MAX_DATETIME <? until then raise (OverflowError "date value out of range")
      else modify (fun w => {| w with ew_cooling_until := Some until |})
    else ret tt.

(** [_cheapest_type(gpu_type)] *)
Definition cheapest_type (gpu_type : string) : M string :=
  match default [] (dict_get gpu_type (aws_spot_instance_types aws)) with
  | [] => raise (BackendError ("no spot instance types configured for " +:+ gpu_type))
  | [only] => ret only
  | (first :: _) as candidates =>
      r <- on_aws (describe_spot_price_history clients candidates (Z.of_nat (length candidates) * 6));;
      match r with
      | inr _ => ret first
      | inl history =>
          match fold_left lower_price history [] with
          | [] => ret first
          | best =>
              keyed <- lift_outcome (omapM (keyed_price candidates) best);;
              ret (match keyed with p :: l => cheapest p l | [] => first end)
          end
      end
  end.

(** [_guard_capacity(job)] *)
Definition guard_capacity (j : Job) (now : Z) : M unit :=
  lift_outcome (require_launchable aws);;;
  if negb (supports (j_gpu_type j)) then
    raise (BackendError (eb_name eb +:+ " has no instance type mapped for " +:+ j_gpu_type j))
  else
    free <- free_slots (j_gpu_type j) now;;
    if free <=? 0 then
      raise (BackendError (eb_name eb +:+ " is at its " +:+ j_gpu_type j +:+ " limit of "
        +:+ str_of_Z (max_instances (j_gpu_type j)) +:+ " instances"))
    else ret tt.

(** [_run_params(job)] *)
Definition run_params (j : Job) (now : Z) : M RunParams :=
  let tags := tags_for j (to_iso now) in
  instance_type <- (if eb_spot eb then cheapest_type (j_gpu_type j)
                    else lift_outcome (instance_type_for aws (j_gpu_type j)));;
  ret {| rp_image := aws_ami aws;
         rp_type := instance_type;
         rp_min_count := 1;
         rp_max_count := 1;
         rp_profile := aws_instance_profile aws;
         rp_shutdown := aws_shutdown_behavior aws;
         rp_instance_tags := tags;
         rp_volume_tags := tags;
         rp_http_tokens := "required";
         rp_subnet := match aws_subnet_id aws with Some (String a s) => Some (String a s) | _ => None end;
         rp_groups := aws_security_group_ids aws;
         rp_market := if eb_spot eb then Some ("spot", "one-time", "terminate") else None |}.

(** [launch(job)] *)
Definition launch (j : Job) (now : Z) : M Allocation :=
  guard_capacity j now;;;
  params <- run_params j now;;
  r <- on_aws (run_instances clients params false);;
  match r with
  | inr exc =>
      note_failure now;;;
      raise (BackendError ("could not launch " +:+ j_gpu_type j +:+ ": " +:+ explain exc))
  | inl launched =>
      modify (fun w => {| w with ew_failures := 0 |});;;
      match launched with
      | [] => raise (IndexError "list index out of range")
      | i :: _ =>
          invalidate;;;
          ret (mkAllocation (in_id i) (j_gpu_type j) (parse_tags (in_tags i)))
      end
  end.

(** [validate_launch(job)] *)
Definition validate_launch (j : Job) (now : Z) : M string :=
  guard_capacity j now;;;
  params <- run_params j now;;
  r <- on_aws (run_instances clients params true);;
  match r with
  | inr exc =>
      if is_dry_run_success exc then
        ret ("would launch a " +:+ rp_type params +:+ " (" +:+ j_gpu_type j +:+ ") in " +:+ aws_region aws
          +:+ " from " +:+ default "None" (aws_ami aws) +:+ ", tagged to " +:+ j_user_id j)
      else raise (BackendError ("would fail to launch " +:+ j_gpu_type j +:+ ": " +:+ explain exc))
  | inl _ =>
      raise (BackendError ("run_instances(DryRun=True) returned without raising DryRunOperation. "
        +:+ "Refusing to trust this dry run."))
  end.

(** ** Start *)

(** [int(job.requested_hours * 3600) + 3600] *)
Definition run_seconds (j : Job) : outcome exn Z :=
  s <-? int_of (JFloat (f_mul (j_requested_hours j) (f_of_Z 3600)));; Ok (s + 3600).

(** [_start_sampler(handle, job)] *)
Definition start_sampler (handle : string) (j : Job) : M (option string) :=
  duration <- lift_outcome (run_seconds j);;
  r <- on_aws (send_command clients
    {| sp_instance := handle; sp_document := "AWS-RunShellScript";
       sp_command := sampler_script duration (eb_sample_interval_seconds eb);
       sp_working_dir := None;
       sp_timeout := str_of_Z (Z.min duration MAX_EXECUTION_TIMEOUT);
       sp_log_group := aws_log_group aws;
       sp_comment := str_take 100 ("gpu-broker sampler " +:+ short_id j) |});;
  ret (match r with inl command_id => Some command_id | inr _ => None end).

(** [_environment_for(job)] *)
Definition environment_for (j : Job) (now : Z) : M (option Environment) :=
  match j_environment j, eb_environments eb with
  | Some (String a s), Some lookup => fun w =>
      let '(n, r) := lookup (String a s) now (ew_aws w) in (with_aws n w, r)
  | _, _ => ret None
  end.

Definition set_registry (uri : string) : M unit := modify (fun w => {| w with ew_registry := Some uri |}).

(** [_repository_uri()] *)
Definition repository_uri : M (option string) :=
  match eb_ecr_repository eb, eb_ecr eb with
  | EmptyString, _ | _, None => ret None
  | repository, Some ecr =>
      registry <- gets ew_registry;;
      match registry with
      | Some EmptyString => ret None
      | Some uri => ret (Some uri)
      | None =>
          r <- on_aws (describe_repositories ecr repository);;
          match r with
          | inl (uri :: _) => set_registry uri;;; ret (Some uri)
          | inl [] => raise (IndexError "list index out of range")
          | inr exc =>
              if negb (has_code ["RepositoryNotFoundException"] exc) then set_registry "";;; ret None
              else
                r <- on_aws (create_repository ecr repository);;
                match r with
                | inl uri => set_registry uri;;; ret (Some uri)
                | inr _ => set_registry "";;; ret None
                end
          end
      end
  end.

(** [image_for(environment)] *)
Definition image_for (e : Environment) : M (option string) :=
  uri <- repository_uri;;
  ret (match uri with Some (String a s) => Some (String a s +:+ ":" +:+ digest sha256 e) | _ => None end).

(** [cached(environment)] *)
Definition cached (e : Environment) : M bool :=
  match eb_ecr_repository eb, eb_ecr eb with
  | EmptyString, _ | _, None => ret false
  | repository, Some ecr =>
      r <- on_aws (describe_images ecr repository (digest sha256 e));;
      ret (match r with inl _ => true | inr _ => false end)
  end.

Definition CHECKPOINT_DIR : string := "/tmp/gpu-broker/checkpoint".
Definition RESUME_DIR : string := "/tmp/gpu-broker/resume".

(** What the job runs, in the image of its environment if there is one. *)
Definition inner_command (j : Job) (environment : option Environment) (image : option string) : string :=
  match environment, image with
  | Some e, Some (String a s) =>
      let image := String a s in
      containerised image (j_command j) CHECKPOINT_DIR RESUME_DIR DATA_PATH
        (hd "" (split_char ":" (parent_of image))) (aws_region aws) (b64encode (utf8 (dockerfile sha256 e)))
  | _, _ => j_command j
  end.

(** [_command_for(job)] *)
Definition command_for (j : Job) (now : Z) : M string :=
  environment <- environment_for j now;;
  image <- (match environment with Some e => image_for e | None => ret None end);;
  let inner := inner_command j environment image in
  let setup := if vc_enabled (eb_volumes eb) then efs_mount_script (eb_volumes eb) (j_user_id j) (aws_region aws) else "" in
  if negb (non_empty (eb_checkpoint_bucket eb)) then
    ret (if non_empty setup then setup +:+ newline +:+ inner else inner)
  else
    let base := "s3://" +:+ eb_checkpoint_bucket eb +:+ "/" +:+ eb_checkpoint_prefix eb +:+ "/" +:+ j_job_id j in
    let resume_uri := match j_checkpoint_key j with
                      | Some (String a s) => "s3://" +:+ eb_checkpoint_bucket eb +:+ "/" +:+ String a s
                      | _ => ""
                      end in
    ret (job_wrapper_script inner CHECKPOINT_DIR RESUME_DIR resume_uri base (j_job_id j)
           (eb_checkpoint_deadline_seconds eb) 5 setup).

(** What [start] sends, once it knows that nothing was sent yet. *)
Definition job_command (handle : string) (j : Job) (command : string) (seconds : Z) : SendParams :=
  {| sp_instance := handle; sp_document := "AWS-RunShellScript";
     sp_command := command;
     sp_working_dir := Some (aws_working_dir aws);
     sp_timeout := str_of_Z (Z.min seconds MAX_EXECUTION_TIMEOUT);
     sp_log_group := aws_log_group aws;
     sp_comment := str_take 100 ("gpu-broker " +:+ short_id j +:+ " for " +:+ j_user_id j) |}.

Definition send_job (handle : string) (j : Job) (now : Z) : M unit :=
  seconds <- lift_outcome (run_seconds j);;
  command <- command_for j now;;
  command_id <- or_backend_error ("could not start job on " +:+ handle)
                  (send_command clients (job_command handle j command seconds));;
  sampler_id <- start_sampler handle j;;
  tag handle ((TAG_COMMAND_ID, command_id) ::
    match sampler_id with Some (String a s) => [(TAG_SAMPLER_ID, String a s)] | _ => [] end);;;
  invalidate.

(** [start(handle, job)] *)
Definition start (handle : string) (j : Job) (now : Z) : M unit :=
  known <- command_id_of handle now;;
  match known with
  | Some (String _ _) => ret tt
  | _ => send_job handle j now
  end.

(** ** Poll *)

(** [a or b] for texts that may be missing *)
Definition text_or (o : option string) (d : string) : string :=
  match o with Some (String a s) => String a s | _ => d end.

(** What an answer of SSM says. *)
Definition invocation_status (r : Invocation) : BackendStatus :=
  default B_RUNNING (dict_get (default "InProgress" (iv_status r)) SSM_STATUS).

Definition observed_invocation (r : Invocation) : Observation :=
  let status := default "InProgress" (iv_status r) in
  let mapped := invocation_status r in
  let detail := text_or (iv_details r) status in
  let detail := if bool_decide (mapped = B_FAILED) then strip (status +:+ ": " +:+ text_or (iv_stderr r) detail) else detail in
  mkObservation mapped (match iv_code r with Some c => if 0 <=? c then Some c else None | None => None end)
    (Some (str_take 500 detail)).

(** [_invocation(handle, command_id)] *)
Definition invocation (handle command_id : string) : M Observation :=
  r <- on_aws (get_command_invocation clients command_id handle);;
  match r with
  | inl result => ret (observed_invocation result)
  | inr exc =>
      if has_code ["InvocationDoesNotExist"; "InvalidCommandId"] exc then
        ret (mkObservation B_RUNNING None (Some "command dispatching"))
      else raise (BackendError ("could not poll " +:+ handle +:+ ": " +:+ explain exc))
  end.

(** [_agent_online(handle)] *)
Definition agent_online (handle : string) : M bool :=
  r <- on_aws_any (describe_instance_information clients handle);;
  match r with
  | inr exc =>
      let why := match error_code exc with Some (String _ _) => explain exc | _ => raised_str exc end in
      modify (fun w => {| w with ew_agent_check_error := Some why |});;;
      ret false
  | inl pings =>
      modify (fun w => {| w with ew_agent_check_error := None |});;;
      ret (existsb (fun p => bool_decide (p = Some "Online")) pings)
  end.

(** [_seconds_since_launch(tags)] *)
Definition seconds_since_launch (tags : gmap string string) (now : Z) : option float :=
  (fun launched => total_seconds (now - launched)) <$> launched_at_of tags.

(** An instance that went away before its job had ended. *)
Definition lost_instance (i : Instance) : Observation :=
  let reclaimed := bool_decide (default "" (in_reason i) = "Server.SpotInstanceTermination") in
  if reclaimed || bool_decide (in_lifecycle i = Some "spot") then
    mkObservation INTERRUPTED None (Some
      (if reclaimed then "spot capacity was reclaimed"
       else "spot instance " +:+ in_state i +:+ " before the job finished"))
  else
    mkObservation B_FAILED None (Some ("the instance was " +:+ in_state i +:+ " outside the broker before the job "
      +:+ "finished. On-demand capacity is not reclaimed, so somebody terminated it")).

(** [poll(handle)] *)
Definition poll (handle : string) (now : Z) : M Observation :=
  found <- instance_of handle now;;
  match found with
  | None => ret (mkObservation GONE None (Some "no such instance"))
  | Some i =>
      let state := in_state i in
      let tags := parse_tags (in_tags i) in
      let command_id := tags !! TAG_COMMAND_ID in
      if bool_decide (state ∈ ["shutting-down"; "terminated"]) then
        match command_id with
        | Some (String a s) =>
            observation <- invocation handle (String a s);;
            ret (if bool_decide (ob_status observation ∈ [B_COMPLETED; B_FAILED]) then observation else lost_instance i)
        | _ => ret (lost_instance i)
        end
      else if bool_decide (state ∈ ["stopping"; "stopped"]) then
        ret (mkObservation B_FAILED None (Some ("instance " +:+ state +:+ "; it was stopped outside the broker")))
      else if String.eqb state "pending" then
        ret (mkObservation PENDING None (Some "instance booting"))
      else
        match command_id with
        | Some command_id => invocation handle command_id
        | None =>
            online <- agent_online handle;;
            if online then ret (mkObservation READY None (Some "ssm agent registered"))
            else
              error <- gets ew_agent_check_error;;
              let waited := seconds_since_launch tags now in
              match waited with
              | Some s =>
                  if f_lt (aws_agent_timeout_seconds aws) s then
                    let because := match error with
                                   | Some (String a r) => " Last error from SSM: " +:+ String a r +:+ "."
                                   | _ => ""
                                   end in
                    ret (mkObservation B_FAILED None (Some ("the SSM agent never registered after "
                      +:+ f_fixed 0 (f_div s (f_of_Z 60)) +:+ " minutes. "
                      +:+ "Check that " +:+ default "None" (aws_ami aws) +:+ " has the agent and that "
                      +:+ default "None" (aws_instance_profile aws) +:+ " grants "
                      +:+ "AmazonSSMManagedInstanceCore." +:+ because)))
                  else ret (mkObservation PENDING None (Some "waiting for the ssm agent"))
              | None => ret (mkObservation PENDING None (Some "waiting for the ssm agent"))
              end
        end
  end.

(** ** Logs *)

(** [_read_stream(command_id, handle, stream)] *)
Definition read_stream (command_id handle stream : string) : M (list (string * string)) :=
  let name := command_log_stream command_id handle stream in
  token <- gets (fun w => ew_log_tokens w !! name);;
  r <- on_aws (get_log_events clients (aws_log_group aws) name
         (match token with Some (String a s) => Some (String a s) | _ => None end));;
  match r with
  | inr exc =>
      if has_code ["ResourceNotFoundException"] exc then ret []
      else raise (BackendError ("could not read logs for " +:+ handle +:+ ": " +:+ explain exc))
  | inl response =>
      (match le_forward response with
       | Some (String a s) => modify (fun w => {| w with ew_log_tokens := <[name := String a s]> (ew_log_tokens w) |})
       | _ => ret tt
       end);;;
      ret (map (fun message => (stream, rstrip_newline message)) (le_messages response))
  end.

(** The loop of [sample_utilization] over the lines. *)
Definition sample_of (line : string * string) : outcome exn (option UtilizationSample) :=
  parsed <-? parse_sample_line (snd line);;
  Ok ((fun p => mkUtilizationSample (fst (fst p)) (snd (fst p)) (snd p)) <$> parsed).

(** [sample_utilization(handle)] *)
Definition sample_utilization (handle : string) (now : Z) : M (list UtilizationSample) :=
  found <- instance_of handle now;;
  match found ≫= fun i => parse_tags (in_tags i) !! TAG_SAMPLER_ID with
  | Some (String a s) =>
      lines <- read_stream (String a s) handle "stdout";;
      samples <- lift_outcome (omapM sample_of lines);;
      ret (omap id samples)
  | _ => ret []
  end.

Definition lines_of (w : Ec2World W) (handle : string) : list (string * string) := default [] (ew_log_lines w !! handle).

Definition add_lines (handle : string) (lines : list (string * string)) : M unit :=
  modify (fun w => {| w with ew_log_lines := <[handle := lines_of w handle ++ lines]> (ew_log_lines w) |}).

(** [fetch_logs(handle, after)] *)
Definition fetch_logs (handle : string) (after : nat) (now : Z) : M (list (string * string)) :=
  known <- command_id_of handle now;;
  match known with
  | Some (String a s) =>
      add_lines handle [];;;
      out <- read_stream (String a s) handle "stdout";;
      add_lines handle out;;;
      err <- read_stream (String a s) handle "stderr";;
      add_lines handle err;;;
      gets (fun w => drop after (lines_of w handle))
  | _ => ret []
  end.

(** ** Terminate *)

(** [try: m finally: self.invalidate()] *)
Definition then_invalidate {A} (m : M A) : M A := fun w => let '(w', r) := m w in (invalidated w', r).

(** The second half of [terminate]. *)
Definition end_instance (handle : string) : M unit :=
  then_invalidate
    (r <- on_aws (terminate_instances clients handle false);;
     match r with
     | inl _ => ret tt
     | inr exc =>
         if has_code gone exc then ret tt
         else raise (BackendError ("could not terminate " +:+ handle +:+ ": " +:+ explain exc))
     end).

(** [terminate(handle, reason)] *)
Definition terminate (handle reason : string) (now : Z) : M unit :=
  known <- command_id_of handle now;;
  (match known with
   | Some (String a s) => on_aws_any (cancel_command clients (String a s) handle);;; ret tt
   | _ => ret tt
   end);;;
  end_instance handle.

(** [validate_terminate(handle)] *)
Definition validate_terminate (handle : string) (now : Z) : M string :=
  found <- instance_of handle now;;
  match found with
  | None => ret (handle +:+ " is already gone")
  | Some _ =>
      r <- on_aws (terminate_instances clients handle true);;
      match r with
      | inr exc =>
          if is_dry_run_success exc then ret ("would terminate " +:+ handle)
          else if has_code gone exc then ret (handle +:+ " is already gone")
          else raise (BackendError ("would fail to terminate " +:+ handle +:+ ": " +:+ explain exc))
      | inl _ =>
          raise (BackendError ("terminate_instances(DryRun=True) returned without raising DryRunOperation. "
            +:+ "Refusing to trust this dry run."))
      end
  end.

(** ** Reconciliation *)

(** [_coarse_status(instance)] *)
Definition coarse_status (i : Instance) : BackendStatus :=
  if String.eqb (in_state i) "pending" then PENDING
  else if bool_decide (in_state i ∈ ["stopping"; "stopped"]) then B_FAILED
  else match parse_tags (in_tags i) !! TAG_COMMAND_ID with Some (String _ _) => B_RUNNING | _ => READY end.

(** [_gpu_type_of(instance_type)] *)
Definition gpu_type_of (instance_type : string) : string :=
  match List.find (fun p => String.eqb (snd p) instance_type) (aws_instance_types aws) with
  | Some (gpu_type, _) => gpu_type
  | None => instance_type
  end.

(** [list_resources()] *)
Definition list_resources (now : Z) : M (list Resource) :=
  found <- instances now;;
  ret (map (fun i => mkResource (in_id i) (gpu_type_of (default "" (in_type i))) (coarse_status i)
                       (parse_tags (in_tags i))) found).

(** The instance of the protocol. *)
Definition ec2 : Backend (Ec2World W) := {|
  b_name := eb_name eb;
  b_currency := USD;
  b_tier := Some (eb_tier eb);
  b_supports g := fun _ => ret (supports g);
  b_free_slots := free_slots;
  b_launch := launch;
  b_start := start;
  b_poll := poll;
  b_validate_launch := validate_launch;
  b_validate_terminate := validate_terminate;
  b_fetch_logs := fetch_logs;
  b_terminate := terminate;
  b_list_resources := list_resources;
  b_sample_utilization := sample_utilization;
  b_local_ops := None
|}.
End Ec2.
