(* ===== verification/Ec2Props.v ===== *)
(** * What the EC2 backend promises

    [recorded] is a backend over any clients, wrapped so that the calls that
    change something are on record, the answer to a command with it.  The theorems
    say which of them a method makes, in which order and with which parameters,
    whatever the account answers, and what an answer rests on: [seen] and [known_as]
    are what the account said, now or in a listing a few seconds old. *)

From Stdlib Require Import Ascii.
From S2P Require Import Prelude PyFloat PyDecimal PyFormat PySort PyDict Errors Money Clock PyJson PyText States Models Config Tables Store StoreInv StoreSafe Backend Volumes Environments Aws Ec2.
Local Open Scope Z_scope.
Local Open Scope py_scope.

(** ** What the account said of an instance *)

Section Seen.
Context {W : Type} (eb : Ec2Backend W).

(** The listing of a moment ago. *)
Definition recent (t : Z) (w : Ec2World W) (found : list Instance) : Prop :=
  ew_cache w = Some found /\ exists at_, ew_cached_at w = Some at_ /\ f_lt (total_seconds (t - at_)) (eb_cache_seconds eb) = true.

(** The listing the object goes by, and the account after it: the recent one, or, when
    there is none, what the account answers now. *)
Definition seen (t : Z) (w : Ec2World W) (found : list Instance) (account : W) : Prop :=
  (recent t w found /\ account = ew_aws w) \/
  ((forall f, ~ recent t w f) /\ exists pages,
     paginate_instances (eb_clients eb) TAG_JOB_ID LIVE_INSTANCE_STATES (ew_aws w) = (account, Ok pages) /\
     found = concat (concat pages)).

(** The account knows no instance of this name: it says so, or describes none. *)
Definition unknown (answer : outcome raised (list (list Instance))) : Prop :=
  match answer with
  | Ok reservations => concat reservations = []
  | Raise exc => exists code, error_code exc = Some code /\ code ∈ ["InvalidInstanceID.NotFound"; "InvalidInstanceID.Malformed"]
  end.

(** What the object knows of an instance: the first of that name in the listing, or else
    what the account answers of it. *)
Definition known_as (h : string) (t : Z) (w : Ec2World W) (o : option Instance) : Prop :=
  exists live account, seen t w live account /\
    let answer := snd (describe_instances (eb_clients eb) h account) in
    match List.find (fun i => String.eqb (in_id i) h) live, o with
    | Some i, Some i' => i' = i
    | Some _, None => False
    | None, Some i => exists reservations, answer = Ok reservations /\ head (concat reservations) = Some i
    | None, None => unknown answer
    end.

Lemma instances_seen t w w' found : instances eb t w = (w', Ok found) -> exists account, seen t w found account /\ ew_aws w' = account.
Proof.
  unfold instances, bind at 1, gets. destruct (is_fresh eb w t) as [f|] eqn:Hf.
  - intros [= <- <-]. exists (ew_aws w). split; [|done]. left. split; [|done]. unfold is_fresh in Hf.
    destruct (ew_cache w) as [c|] eqn:Hc; [|done]. destruct (ew_cached_at w) as [a|] eqn:Ha; [|done].
    destruct (f_lt _ _) eqn:Hlt; [|done]. injection Hf as ->. split; [done|]. by exists a.
  - unfold bind, or_backend_error, bind, on_aws. destruct (paginate_instances _ _ _ (ew_aws w)) as [n [pages|[e|e]]] eqn:Hp; [|done..].
    intros [= <- <-]. exists n. split; [|done]. right. split; [|by exists pages].
    intros f [Hc (a & Ha & Hlt)]. unfold is_fresh in Hf. by rewrite Hc, Ha, Hlt in Hf.
Qed.

Lemma instance_known h t w w' o : instance_of eb h t w = (w', Ok o) -> known_as h t w o.
Proof.
  unfold instance_of, bind at 1. destruct (instances eb t w) as [w1 [live|e]] eqn:Hl; [|done].
  destruct (instances_seen t w w1 live Hl) as (n & Hs & Hn). intros Hd. exists live, n. split; [exact Hs|].
  destruct (List.find _ live) as [i|]; [by injection Hd as _ <-|]. revert Hd. unfold describe_one, bind, on_aws. rewrite Hn.
  destruct (describe_instances _ h n) as [n' [rs|[e|e]]]; cbn [snd].
  - intros [= _ <-]. destruct (concat rs) as [|i others] eqn:E; cbn; [exact E|]. exists rs. by rewrite E.
  - destruct (has_code gone (FromAws e)) eqn:Hg; [|done]. intros [= _ <-]. unfold has_code in Hg. cbn [error_code] in Hg.
    destruct (ae_code e) as [c|] eqn:Hc; [|done]. apply bool_decide_eq_true in Hg. by exists c.
  - done.
Qed.
End Seen.

(** ** The record of the calls that change something *)

(** [Send] records the id the account gave the command, if it took it. *)
Inductive Event : Type :=
| Run (p : RunParams) (dry : bool)
| Tag (handle : string) (tags : list (string * string))
| Terminate (handle : string) (dry : bool)
| Send (p : SendParams) (id : option string)
| Cancel (command_id handle : string)
| NewRepository (name : string).

Section Logged.
Context {W : Type}.

Definition looking {A} (m : M W raised A) : M (W * list Event) raised A := fun s =>
  let '(n, r) := m (fst s) in ((n, snd s), r).

Definition doing {A} (e : Event) (m : M W raised A) : M (W * list Event) raised A := fun s =>
  let '(n, r) := m (fst s) in ((n, e :: snd s), r).

Definition sending (p : SendParams) (m : M W raised string) : M (W * list Event) raised string := fun s =>
  let '(n, r) := m (fst s) in ((n, Send p (match r with Ok id => Some id | Raise _ => None end) :: snd s), r).

Definition logged (c : AwsClients W) : AwsClients (W * list Event) := {|
  run_instances p dry := doing (Run p dry) (run_instances c p dry);
  describe_spot_price_history l n := looking (describe_spot_price_history c l n);
  paginate_instances k l := looking (paginate_instances c k l);
  describe_instances h := looking (describe_instances c h);
  create_tags h l := doing (Tag h l) (create_tags c h l);
  terminate_instances h dry := doing (Terminate h dry) (terminate_instances c h dry);
  send_command p := sending p (send_command c p);
  cancel_command i h := doing (Cancel i h) (cancel_command c i h);
  get_command_invocation i h := looking (get_command_invocation c i h);
  describe_instance_information h := looking (describe_instance_information c h);
  get_log_events g n t := looking (get_log_events c g n t)
|}.

Definition logged_ecr (e : EcrClient W) : EcrClient (W * list Event) := {|
  describe_repositories n := looking (describe_repositories e n);
  create_repository n := doing (NewRepository n) (create_repository e n);
  describe_images n i := looking (describe_images e n i)
|}.

(** The backend over clients that keep a record. *)
Definition recorded (eb : Ec2Backend W) : Ec2Backend (W * list Event) := {|
  eb_name := eb_name eb;
  eb_tier := eb_tier eb;
  eb_aws := eb_aws eb;
  eb_clients := logged (eb_clients eb);
  eb_cache_seconds := eb_cache_seconds eb;
  eb_sample_interval_seconds := eb_sample_interval_seconds eb;
  eb_spot := eb_spot eb;
  eb_checkpoint_bucket := eb_checkpoint_bucket eb;
  eb_checkpoint_prefix := eb_checkpoint_prefix eb;
  eb_checkpoint_deadline_seconds := eb_checkpoint_deadline_seconds eb;
  eb_max_launch_failures := eb_max_launch_failures eb;
  eb_cooldown_seconds := eb_cooldown_seconds eb;
  eb_environments := (fun lookup name t s =>
    let '(n, r) := lookup name t (fst s) in ((n, snd s), r)) <$> eb_environments eb;
  eb_volumes := eb_volumes eb;
  eb_ecr_repository := eb_ecr_repository eb;
  eb_ecr := logged_ecr <$> eb_ecr eb
|}.
End Logged.

(** ** The record of a backend over logged clients *)

Section Ec2.
Context {W : Type} (sha256 : string -> string) (backend : Ec2Backend W).

Local Abbreviation eb := (recorded backend).

Local Abbreviation World := (Ec2World (W * list Event)).
Local Abbreviation MM := (M World exn).

Definition events (w : World) : list Event := snd (ew_aws w).

(** [m] leaves the record as it is, [l]; or adds an event satisfying [P] when it returns and when it raises. *)
Definition silent {A} (m : MM A) : Prop := forall l, keeps (fun w => events w = l) m.

Lemma silent_ret {A} (a : A) : silent (ret a).
Proof. intros l. apply keeps_ret. Qed.
Lemma silent_raise {A} e : silent (raise (A := A) e).
Proof. intros l. apply keeps_raise. Qed.
Lemma silent_gets {A} (f : World -> A) : silent (gets f).
Proof. intros l. apply keeps_gets. Qed.
Lemma silent_lift {A} (r : outcome exn A) : silent (lift_outcome r).
Proof. intros l. apply keeps_lift. Qed.
Lemma silent_bind {A B} (m : MM A) (f : A -> MM B) : silent m -> (forall a, silent (f a)) -> silent (bind m f).
Proof. intros Hm Hf l. apply keeps_bind; [apply Hm|intros; apply Hf]. Qed.
Lemma silent_modify f : (forall w, ew_aws (f w) = ew_aws w) -> silent (modify f).
Proof. intros Hf l w Hw. cbn. unfold events in *. by rewrite Hf. Qed.
Lemma silent_looking {A} (m : M W raised A) : silent (on_aws (looking m)).
Proof.
  intros l w Hw. unfold on_aws, looking, events in *. destruct (m (fst (ew_aws w))) as [n [a|[e|e]]]; exact Hw.
Qed.
Lemma silent_looking_any {A} (m : M W raised A) : silent (on_aws_any (looking m)).
Proof.
  intros l w Hw. unfold on_aws_any, looking, events in *. destruct (m (fst (ew_aws w))) as [n [a|e]]; exact Hw.
Qed.

Create HintDb silent discriminated.
#[local] Hint Resolve silent_ret silent_raise silent_gets silent_lift silent_looking silent_looking_any : silent.
#[local] Hint Extern 1 (silent (modify _)) => apply silent_modify; reflexivity : silent.

Ltac silence :=
  repeat match goal with
  | |- forall _, _ => intros ?
  | |- silent (bind _ _) => apply silent_bind
  | |- _ => solve [auto with silent]
  | |- context [match ?x with _ => _ end] => destruct x eqn:?
  end.

Lemma silent_or_error {A} what (m : M W raised A) : silent (or_backend_error what (looking m)).
Proof. unfold or_backend_error. silence. Qed.
#[local] Hint Resolve silent_or_error : silent.

Lemma silent_instances t : silent (instances eb t).
Proof. unfold instances. cbn [recorded eb_clients logged paginate_instances]. silence. Qed.
#[local] Hint Resolve silent_instances : silent.

Lemma silent_instance_of h t : silent (instance_of eb h t).
Proof. unfold instance_of, describe_one. cbn [recorded eb_clients logged describe_instances]. silence. Qed.
#[local] Hint Resolve silent_instance_of : silent.

Lemma silent_command_id h t : silent (command_id_of eb h t).
Proof. unfold command_id_of. silence. Qed.
#[local] Hint Resolve silent_command_id : silent.

Lemma silent_free_slots g t : silent (free_slots eb g t).
Proof. unfold free_slots. silence. Qed.
#[local] Hint Resolve silent_free_slots : silent.

Lemma silent_invocation h i : silent (invocation eb h i).
Proof. unfold invocation. cbn [recorded eb_clients logged get_command_invocation]. silence. Qed.
#[local] Hint Resolve silent_invocation : silent.

Lemma silent_agent h : silent (agent_online eb h).
Proof. unfold agent_online. cbn [recorded eb_clients logged describe_instance_information]. silence. Qed.
#[local] Hint Resolve silent_agent : silent.

Lemma silent_poll h t : silent (poll eb h t).
Proof. unfold poll. silence. Qed.

Lemma silent_read_stream i h s : silent (read_stream eb i h s).
Proof. unfold read_stream. cbn [recorded eb_clients logged get_log_events]. silence. Qed.
#[local] Hint Resolve silent_read_stream : silent.

Lemma silent_samples h t : silent (sample_utilization eb h t).
Proof. unfold sample_utilization. silence. Qed.

Lemma silent_logs h n t : silent (fetch_logs eb h n t).
Proof. unfold fetch_logs, add_lines. silence. Qed.

Lemma silent_resources t : silent (list_resources eb t).
Proof. unfold list_resources. silence. Qed.

Lemma silent_guard j t : silent (guard_capacity eb j t).
Proof. unfold guard_capacity. silence. Qed.
#[local] Hint Resolve silent_guard : silent.

Lemma silent_params j t : silent (run_params eb j t).
Proof. unfold run_params, cheapest_type. cbn [recorded eb_clients logged describe_spot_price_history]. silence. Qed.
#[local] Hint Resolve silent_params : silent.

(** Looking changes nothing in the account: whatever it answers, [poll],
    [free_slots], [list_resources], [fetch_logs] and [sample_utilization] make no
    call that launches, tags, starts, cancels or terminates anything. *)
Theorem ec2_looks_only : forall h g n t,
  silent (b_poll (ec2 sha256 eb) h t) /\ silent (b_free_slots (ec2 sha256 eb) g t) /\
  silent (b_list_resources (ec2 sha256 eb) t) /\ silent (b_fetch_logs (ec2 sha256 eb) h n t) /\
  silent (b_sample_utilization (ec2 sha256 eb) h t).
Proof.
  intros h g n t. split_and!;
    [apply silent_poll|apply silent_free_slots|apply silent_resources|apply silent_logs|apply silent_samples].
Qed.

(** ** Launching *)

Lemma silent_run {A} (m : MM A) w : silent m -> events (fst (m w)) = events w.
Proof. intros H. specialize (H (events w) w eq_refl). by destruct (m w) as [w' [a|e]]. Qed.

(** A silent step that returned or raised. *)
Ltac quiet_step m w w1 r H :=
  let E := fresh "E" in
  assert (H : events (fst (m w)) = events w) by (apply silent_run; auto with silent);
  destruct (m w) as [w1 r] eqn:E; cbn [fst] in H.

Lemma index_in name l i : index_of name l = Some i -> name ∈ l.
Proof.
  revert i. induction l as [|c l IH]; [done|]. cbn. destruct (String.eqb_spec c name) as [->|]; [left|].
  intros i Hi. right. destruct (index_of name l); [by eapply IH|done].
Qed.

Lemma cheapest_in p l : cheapest p l ∈ map fst (p :: l).
Proof.
  revert p. induction l as [|q l IH]; intros p; cbn [cheapest]; [left|]. specialize (IH (if key_below (snd q) (snd p) then q else p)).
  destruct (key_below _ _); cbn in *; set_solver.
Qed.

Lemma keyed_in candidates best keyed : omapM (keyed_price candidates) best = Ok keyed ->
  forall n, n ∈ map fst keyed -> n ∈ candidates.
Proof.
  revert keyed. induction best as [|p best IH]; intros keyed; cbn; [by intros [= <-] n ?%not_elem_of_nil|].
  unfold keyed_price at 1. destruct (index_of (fst p) candidates) as [i|] eqn:Hi; [cbn|done].
  destruct (omapM _ best) as [rest|e]; [cbn|done]. intros [= <-] n [->|Hn]%elem_of_cons; [by eapply index_in|by eapply IH].
Qed.

(** The instance types a launch may ask for. *)
Definition launchable (gpu_type instance_type : string) : Prop :=
  if eb_spot backend then instance_type ∈ default [] (dict_get gpu_type (aws_spot_instance_types (eb_aws backend)))
  else dict_get gpu_type (aws_instance_types (eb_aws backend)) = Some instance_type.

Lemma cheapest_type_spec g w w' r : cheapest_type eb g w = (w', r) ->
  match r with Ok n => n ∈ default [] (dict_get g (aws_spot_instance_types (eb_aws backend))) | Raise _ => True end.
Proof.
  unfold cheapest_type. cbn [recorded eb_aws eb_clients].
  destruct (default [] _) as [|a [|b l]]; cbv [ret raise]; [intros [= <- <-]; done|intros [= <- <-]; left|].
  unfold bind at 1. destruct (on_aws _ w) as [w1 [[history|exc]|e]]; [|intros [= <- <-]; left|intros [= <- <-]; done].
  destruct (fold_left lower_price history []) as [|p best]; [intros [= <- <-]; left|].
  unfold bind, lift_outcome. destruct (omapM _ _) as [keyed|e] eqn:Hk; [|intros [= <- <-]; done].
  destruct keyed as [|q keyed]; intros [= <- <-]; [left|]. eapply keyed_in; [exact Hk|apply cheapest_in].
Qed.

(** What every launch asks for: one instance of a configured type from the
    configured image, tagged to its job and member, its volume too. *)
Record well_launched (j : Job) (t : Z) (p : RunParams) : Prop := {
  wl_type : launchable (j_gpu_type j) (rp_type p);
  wl_one : rp_min_count p = 1 /\ rp_max_count p = 1;
  wl_image : rp_image p = aws_ami (eb_aws backend) /\ set_text (rp_image p) = true;
  wl_profile : rp_profile p = aws_instance_profile (eb_aws backend) /\ set_text (rp_profile p) = true;
  wl_tags : rp_instance_tags p = tags_for j (to_iso t) /\ rp_volume_tags p = tags_for j (to_iso t);
  wl_market : rp_market p = if eb_spot backend then Some ("spot", "one-time", "terminate") else None
}.

Lemma run_params_spec j t w w' p : require_launchable (eb_aws backend) = Ok tt ->
  run_params eb j t w = (w', Ok p) -> well_launched j t p.
Proof.
  intros Hr. unfold run_params, bind. cbn [recorded eb_spot eb_aws].
  assert (Hset : set_text (aws_ami (eb_aws backend)) = true /\ set_text (aws_instance_profile (eb_aws backend)) = true).
  { unfold require_launchable in Hr. cbn in Hr. destruct (set_text (aws_ami _)), (set_text (aws_instance_profile _)); done. }
  destruct (eb_spot backend) eqn:Hs.
  - destruct (cheapest_type eb (j_gpu_type j) w) as [w1 [n|e]] eqn:En; [|done]. intros [= <- <-].
    split; cbn; rewrite ?Hs; try done; try apply Hset; try (split; [done|apply Hset]).
    unfold launchable. rewrite Hs. by apply (cheapest_type_spec _ _ _ _ En).
  - unfold lift_outcome, instance_type_for. destruct (dict_get _ _) as [n|] eqn:En; [|done]. intros [= <- <-].
    split; cbn; rewrite ?Hs; try done; try (split; [done|apply Hset]). unfold launchable. by rewrite Hs.
Qed.

(** The room a guarded launch saw: in the listing it goes by, fewer instances of the
    mapped type than the limit. *)
Definition room (g : string) (t : Z) (w : World) : Prop :=
  exists found account wanted, seen eb t w found account /\
    dict_get g (aws_instance_types (eb_aws backend)) = Some wanted /\
    Z.of_nat (length (List.filter (fun i => bool_decide (in_type i = Some wanted)) found))
      < default 0 (dict_get g (aws_max_instances (eb_aws backend))).

Lemma free_slots_room g t w w' n : free_slots eb g t w = (w', Ok n) -> 0 < n -> room g t w.
Proof.
  assert (Hrest : forall w0, ew_aws w0 = ew_aws w -> ew_cache w0 = ew_cache w -> ew_cached_at w0 = ew_cached_at w ->
    (wanted <- lift_outcome (instance_type_for (eb_aws backend) g);;
     found <- instances eb t;;
     ret (Z.max 0 (max_instances eb g
       - Z.of_nat (length (List.filter (fun i => bool_decide (in_type i = Some wanted)) found))))) w0 = (w', Ok n) ->
    0 < n -> room g t w).
  { intros w0 H0 Hc Ha. unfold bind, lift_outcome, instance_type_for.
    destruct (dict_get g (aws_instance_types (eb_aws backend))) as [wanted|] eqn:Hw; [|done].
    destruct (instances eb t w0) as [w1 [found|e]] eqn:Hi; [|done]. intros [= <- <-] Hn.
    destruct (instances_seen eb t w0 w1 found Hi) as (account & Hs & _). exists found, account, wanted. split_and!; [|done|].
    - unfold seen, recent in Hs |- *. by rewrite Hc, Ha, H0 in Hs.
    - unfold max_instances in Hn. cbn [recorded eb_aws] in Hn. lia. }
  unfold free_slots. destruct (negb _); [intros [= <- <-]; lia|]. unfold bind at 1, gets.
  destruct (ew_cooling_until w) as [u|]; [|by apply (Hrest w)].
  destruct (t <? u); [intros [= <- <-]; lia|].
  by apply (Hrest {| w with ew_cooling_until := None; ew_failures := 0 |}).
Qed.

Lemma guard_spec j t w w' : guard_capacity eb j t w = (w', Ok tt) ->
  require_launchable (eb_aws backend) = Ok tt /\ room (j_gpu_type j) t w.
Proof.
  unfold guard_capacity, bind at 1, lift_outcome. cbn [recorded eb_aws].
  destruct (require_launchable _) as [[]|e]; [|done]. destruct (negb _); [done|]. unfold bind.
  destruct (free_slots eb (j_gpu_type j) t w) as [w1 [n|e]] eqn:Hf; [|done].
  destruct (Z.leb_spec n 0); [done|]. intros _. split; [done|]. by eapply free_slots_room.
Qed.

Lemma note_failure_silent t : silent (note_failure eb t).
Proof. unfold note_failure. silence. Qed.
#[local] Hint Resolve note_failure_silent : silent.

Lemma run_logged p dry w : exists w' r, on_aws (run_instances (eb_clients eb) p dry) w = (w', r) /\
  events w' = Run p dry :: events w.
Proof.
  unfold on_aws. cbn. unfold doing, events. destruct (run_instances _ _ _ (fst (ew_aws w))) as [n [a|[e|e]]];
    eexists _, _; by split.
Qed.


(** ** Starting *)

Lemma silent_environment j t : silent (environment_for eb j t).
Proof.
  unfold environment_for. cbn [recorded eb_environments]. destruct (j_environment j) as [[|a s]|]; try (by silence).
  destruct (eb_environments backend) as [lookup|]; cbn [fmap option_fmap option_map]; [|by silence].
  intros l w Hw. unfold events in *. destruct (lookup _ t (fst (ew_aws w))) as [n [x|e]]; exact Hw.
Qed.
#[local] Hint Resolve silent_environment : silent.

(** [m] adds events satisfying [P], whatever comes of it. *)
Definition grows {A} (P : list Event -> Prop) (m : MM A) : Prop :=
  forall w, exists l, events (fst (m w)) = l ++ events w /\ P l.

Lemma silent_grows {A} (P : list Event -> Prop) (m : MM A) : silent m -> P [] -> grows P m.
Proof. intros Hm HP w. exists []. split; [by apply silent_run|done]. Qed.

Lemma grows_bind {A B} P (m : MM A) (f : A -> MM B) : silent m -> (forall a, grows P (f a)) -> P [] -> grows P (bind m f).
Proof.
  intros Hm Hf HP w. unfold bind. pose proof (silent_run m w Hm) as H. destruct (m w) as [w1 [a|e]]; cbn [fst] in H.
  - destruct (Hf a w1) as (l & E & Hl). exists l. by rewrite E, H.
  - by exists [].
Qed.

Lemma grows_last {A B} P (m : MM A) (f : A -> MM B) : grows P m -> (forall a, silent (f a)) -> grows P (bind m f).
Proof.
  intros Hm Hf w. unfold bind. destruct (Hm w) as (l & E & Hl). exists l. split; [|done].
  destruct (m w) as [w1 [a|e]]; cbn [fst] in E |- *; [|done]. by rewrite (silent_run (f a) w1 (Hf a)).
Qed.

Definition set_up (l : list Event) : Prop := l = [] \/ exists name, l = [NewRepository name].

Lemma doing_grows {A} e (m : M W raised A) : grows (fun l => l = [e]) (on_aws (doing e m)).
Proof.
  intros w. exists [e]. split; [|done]. unfold on_aws, doing, events. by destruct (m (fst (ew_aws w))) as [n [a|[x|x]]].
Qed.

Lemma image_grows e : grows set_up (image_for sha256 eb e).
Proof.
  unfold image_for. apply grows_last; [|intros; apply silent_ret]. unfold repository_uri. cbn [recorded eb_ecr_repository eb_ecr].
  assert (Hno : forall (m : MM (option string)), silent m -> grows set_up m) by (intros; apply silent_grows; [done|by left]).
  destruct (eb_ecr_repository backend) as [|a s]; [by apply Hno, silent_ret|].
  destruct (eb_ecr backend) as [ecr|]; cbn [fmap option_fmap option_map]; [|by apply Hno, silent_ret].
  apply grows_bind; [apply silent_gets| |by left]. intros [[|b r]|]; [by apply Hno, silent_ret..|].
  apply grows_bind; [cbn [logged_ecr describe_repositories]; apply silent_looking| |by left].
  intros [[|uri uris]|exc]; [apply Hno; unfold set_registry; by silence..|].
  destruct (negb _); [apply Hno; unfold set_registry; by silence|]. apply grows_last.
  - intros w. destruct (doing_grows (NewRepository (String a s)) (create_repository ecr (String a s)) w) as (l & E & ->).
    exists [NewRepository (String a s)]. split; [exact E|]. right. by eexists.
  - intros [uri|x]; unfold set_registry; by silence.
Qed.

Lemma command_grows j t : grows set_up (command_for sha256 eb j t).
Proof.
  unfold command_for. apply grows_bind; [apply silent_environment| |by left]. intros [e|].
  - apply grows_last; [apply image_grows|]. intros image. cbn [recorded eb_volumes eb_checkpoint_bucket]. silence.
  - apply silent_grows; [|by left]. apply silent_bind; [apply silent_ret|]. intros image.
    cbn [recorded eb_volumes eb_checkpoint_bucket]. silence.
Qed.

Lemma send_logged p w : exists w' r, on_aws (send_command (eb_clients eb) p) w = (w', r) /\
  events w' = Send p (match r with Ok (inl id) => Some id | _ => None end) :: events w.
Proof.
  unfold on_aws. cbn. unfold sending, events. destruct (send_command _ _ (fst (ew_aws w))) as [n [a|[e|e]]];
    eexists _, _; by split.
Qed.

Lemma tag_logged h l w : exists w' r, tag eb h l w = (w', r) /\ events w' = Tag h l :: events w.
Proof.
  unfold tag, or_backend_error, bind, on_aws. cbn. unfold doing, events.
  destruct (create_tags _ _ _ (fst (ew_aws w))) as [n [a|[e|e]]]; eexists _, _; by split.
Qed.

(** The command of the sampler of a job that runs for so long at most. *)
Definition samples (h : string) (s : Z) (q : SendParams) : Prop :=
  sp_instance q = h /\ sp_command q = sampler_script s (eb_sample_interval_seconds backend).

Lemma sampler_events h j s w : run_seconds j = Ok s ->
  exists w' r q, start_sampler eb h j w = (w', r) /\ samples h s q /\
    events w' = Send q (match r with Ok sid => sid | Raise _ => None end) :: events w.
Proof.
  intros Hs. unfold start_sampler, bind, lift_outcome. rewrite Hs.
  match goal with |- context [send_command (eb_clients eb) ?p] => set (q := p); destruct (send_logged p w) as (w' & r & Hr & He) end.
  fold q in Hr, He. rewrite Hr. destruct r as [[x|x]|e]; eexists _, _, q; by split_and!.
Qed.

(** The tag of a sampler that was taken. *)
Definition sampler_tag (sid : option string) : list (string * string) :=
  match sid with Some (String a s) => [(TAG_SAMPLER_ID, String a s)] | _ => [] end.

(** What a start asked for, newest first, and whether it returned; [w1] is the object
    when it has looked the instance up. *)
Inductive started (h : string) (j : Job) (t : Z) (w1 : World) : list Event -> bool -> Prop :=
| started_nothing : started h j t w1 [] false
| started_refused command s :
    run_seconds j = Ok s -> snd (command_for sha256 eb j t w1) = Ok command ->
    started h j t w1 [Send (job_command eb h j command s) None] false
| started_unsampled command s id q :
    run_seconds j = Ok s -> snd (command_for sha256 eb j t w1) = Ok command -> samples h s q ->
    started h j t w1 [Send q None; Send (job_command eb h j command s) (Some id)] false
| started_recorded command s id q sid ok :
    run_seconds j = Ok s -> snd (command_for sha256 eb j t w1) = Ok command -> samples h s q ->
    started h j t w1
      [Tag h ((TAG_COMMAND_ID, id) :: sampler_tag sid); Send q sid; Send (job_command eb h j command s) (Some id)] ok.

Lemma or_error_send what p w : exists w' r, or_backend_error what (send_command (eb_clients eb) p) w = (w', r) /\
    events w' = Send p (match r with Ok id => Some id | Raise _ => None end) :: events w.
Proof.
  unfold or_backend_error, bind. destruct (send_logged p w) as (w' & r & -> & He).
  destruct r as [[x|x]|e]; eexists _, _; by split.
Qed.

(** The record of a start from [w], before which a registry may have been made, and the
    listing after it. *)
Definition start_record (h : string) (j : Job) (t : Z) (w w1 : World) (out : World * outcome exn unit) : Prop :=
  exists before added, set_up before /\ events (fst out) = added ++ before ++ events w /\
    started h j t w1 added (is_ok (snd out)) /\ (is_ok (snd out) = true -> ew_cache (fst out) = None).

Lemma send_job_events h j t w : start_record h j t w w (send_job sha256 eb h j t w).
Proof.
  unfold send_job, bind at 1, lift_outcome. destruct (run_seconds j) as [s|e] eqn:Hs.
  2: { exists [], []. split_and!; [by left|done|constructor|done]. }
  cbv beta. unfold bind at 1. destruct (command_grows j t w) as (before & H2 & Hb).
  destruct (command_for sha256 eb j t w) as [w2 [command|e]] eqn:Hcmd; cbn [fst] in H2.
  2: { exists before, []. split_and!; [done..|constructor|done]. }
  assert (Hc : snd (command_for sha256 eb j t w) = Ok command) by (by rewrite Hcmd).
  set (p := job_command eb h j command s). unfold bind at 1.
  destruct (or_error_send ("could not start job on " +:+ h) p w2) as (w3 & r3 & Hr3 & H3). rewrite Hr3. rewrite H2 in H3.
  destruct r3 as [id|e]; [|by exists before, [Send p None]; split_and!; [| |eapply started_refused|]].
  unfold bind at 1. destruct (sampler_events h j s w3 Hs) as (w4 & r4 & q & -> & Hq & H4). rewrite H3 in H4.
  destruct r4 as [sid|e]; [|by exists before, [Send q None; Send p (Some id)]; split_and!; [| |eapply started_unsampled|]].
  unfold bind. destruct (tag_logged h ((TAG_COMMAND_ID, id) :: sampler_tag sid) w4) as (w5 & r5 & Ht & H5). rewrite H4 in H5.
  change (match sid with Some (String a s0) => [(TAG_SAMPLER_ID, String a s0)] | _ => [] end) with (sampler_tag sid).
  rewrite Ht. exists before, [Tag h ((TAG_COMMAND_ID, id) :: sampler_tag sid); Send q sid; Send p (Some id)].
  destruct r5 as [[]|e]; (split_and!; [done|exact H5|by apply started_recorded|done]).
Qed.


(** ** Terminating *)

Lemma cancel_logged i h w : exists w' r, on_aws_any (cancel_command (eb_clients eb) i h) w = (w', Ok r) /\
  events w' = Cancel i h :: events w.
Proof.
  unfold on_aws_any. cbn. unfold doing, events. destruct (cancel_command _ _ _ (fst (ew_aws w))) as [n [a|e]];
    eexists _, _; by split.
Qed.

(** What comes of asking for the end of an instance. *)
Definition ended (answer : outcome raised unit) (r : outcome exn unit) : Prop :=
  match answer with
  | Ok _ => r = Ok tt
  | Raise (FromAws e) =>
      if has_code gone (FromAws e) then r = Ok tt else exists message, r = Raise (BackendError message)
  | Raise (Otherwise e) => r = Raise e
  end.

Lemma ask_end h w : exists n, let out := end_instance eb h w in
  events (fst out) = Terminate h false :: events w /\ ew_cache (fst out) = None /\
  ended (snd (terminate_instances (eb_clients backend) h false n)) (snd out).
Proof.
  exists (fst (ew_aws w)). unfold end_instance, then_invalidate, bind, on_aws. cbn. unfold doing, events.
  destruct (terminate_instances _ _ _ (fst (ew_aws w))) as [n [a|[e|e]]]; cbn; [done| |done].
  destruct (has_code gone (FromAws e)) eqn:Hg; cbn; split_and!; try done. by eexists.
Qed.

(** Once the instance has been looked up, nothing that happens to the
    cancellation of its command keeps [terminate] from asking for its end, last;
    an instance that is gone counts as ended, and the listing is forgotten. *)
Theorem ec2_terminate_asks h reason t w : let out := b_terminate (ec2 sha256 eb) h reason t w in
  match command_id_of eb h t w with
  | (w1, Raise e) => out = (w1, Raise e) /\ events w1 = events w
  | (_, Ok known) => exists n,
      events (fst out) = Terminate h false :: (match known with Some (String a s) => [Cancel (String a s) h] | _ => [] end) ++ events w /\
      ew_cache (fst out) = None /\ ended (snd (terminate_instances (eb_clients backend) h false n)) (snd out)
  end.
Proof.
  cbn [ec2 b_terminate]. unfold terminate, bind. quiet_step (command_id_of eb h t) w w1 known H1.
  destruct known as [known|e]; [|done]. destruct known as [[|a s]|]; cbn [ret].
  - destruct (ask_end h w1) as (n & He & H). exists n. by rewrite <- H1.
  - destruct (cancel_logged (String a s) h w1) as (w2 & r & Hr & H2). cbn [ret]. rewrite Hr.
    destruct (ask_end h w2) as (n & He & H). exists n. cbv zeta in He |- *. cbn [ret]. rewrite He, H2, H1. by split.
  - destruct (ask_end h w1) as (n & He & H). exists n. by rewrite <- H1.
Qed.
End Ec2.

(** ** Commands *)

(** The script [s] hands [c] to a shell as one word. *)
Definition carries (s c : string) : Prop :=
  exists before after rest, s = before +:+ "bash -lc " +:+ after /\ sh_word Bare after = Some (c, rest).

Lemma carries_after a s c : carries s c -> carries (a +:+ s) c.
Proof.
  intros (before & after & rest & -> & H). exists (a +:+ before), after, rest. split; [|done]. by rewrite !str_app_assoc.
Qed.

Lemma carries_here before c rest : word_ends rest = true -> carries ((before +:+ "bash -lc ") +:+ quote c +:+ rest) c.
Proof.
  intros Hr. exists before, (quote c +:+ rest), rest. split; [by rewrite !str_app_assoc|]. by apply sh_word_quote.
Qed.

Lemma wrapper_carries command d1 d2 u1 u2 id s p setup :
  carries (job_wrapper_script command d1 d2 u1 u2 id s p setup) command.
Proof.
  unfold job_wrapper_script. do 14 apply carries_after. apply (carries_here (newline +:+ newline)). reflexivity.
Qed.

Lemma container_carries image command d1 d2 d3 registry region file :
  carries (containerised image command d1 d2 d3 registry region file) command.
Proof.
  unfold containerised. rewrite <- (str_app_nil (quote command)). do 22 apply carries_after.
  apply (carries_here (sh "   `$IMAGE` ")). reflexivity.
Qed.

Section Unlogged.
Context {W : Type} (sha256 : string -> string) (eb : Ec2Backend W).

(** What an instance is given to run is the member's command: as it is, or
    handed to a shell inside the image of its environment, after the mounts, and
    as one word of the script that watches for interruptions. *)
Lemma ec2_command_carried j t w w' s : command_for sha256 eb j t w = (w', Ok s) ->
  exists inner, (inner = j_command j \/ carries inner (j_command j)) /\
    (s = inner \/ (exists setup, s = setup +:+ newline +:+ inner) \/ carries s inner).
Proof.
  unfold command_for, bind. destruct (environment_for eb j t w) as [w1 [e|x]]; [|done].
  destruct ((match e with Some e => image_for sha256 eb e | None => ret None end) w1) as [w2 [image|x]]; [|done].
  set (inner := inner_command sha256 eb j e image). intros H. exists inner. split.
  - subst inner. unfold inner_command. destruct e as [e|]; [|by left]. destruct image as [[|a i]|]; [by left| |by left].
    right. apply container_carries.
  - destruct (negb (non_empty (eb_checkpoint_bucket eb))); injection H as _ <-.
    + set (setup := if vc_enabled _ then _ else _). destruct (non_empty setup); [right; left; by exists setup|by left].
    + right. right. apply wrapper_carries.
Qed.

(** ** Polling *)

Definition DEPARTING : list string := ["shutting-down"; "terminated"].
Definition HALTED : list string := ["stopping"; "stopped"].
Definition FAILURES : list string := ["Cancelled"; "TimedOut"; "Failed"; "Undeliverable"; "Terminated"].

(** The status SSM gives; none counts as running. *)
Definition ssm_status (r : Invocation) : string := default "InProgress" (iv_status r).

Lemma status_exact r :
  match invocation_status r with
  | B_COMPLETED => ssm_status r = "Success"
  | B_FAILED => ssm_status r ∈ FAILURES
  | B_RUNNING => ssm_status r <> "Success" /\ ssm_status r ∉ FAILURES
  | _ => False
  end.
Proof.
  unfold invocation_status, ssm_status, FAILURES. generalize (default "InProgress" (iv_status r)). intros s. unfold SSM_STATUS. cbn [dict_get].
  repeat case_decide; subst; cbn; try (split; [done|]); set_solver.
Qed.

(** The command recorded on the instance, and what SSM answers about it. *)
Definition recorded_id (i : Instance) : option string := parse_tags (in_tags i) !! TAG_COMMAND_ID.

Definition ssm_says (h : string) (w1 : Ec2World W) (i : Instance) (r : Invocation) : Prop :=
  exists id, recorded_id i = Some id /\ snd (get_command_invocation (eb_clients eb) id h (ew_aws w1)) = Ok r.

(** SSM does not know the command yet. *)
Definition not_there_yet (h : string) (w1 : Ec2World W) (i : Instance) : Prop :=
  exists id exc code, recorded_id i = Some id /\ snd (get_command_invocation (eb_clients eb) id h (ew_aws w1)) = Raise exc /\
    error_code exc = Some code /\ code ∈ ["InvocationDoesNotExist"; "InvalidCommandId"].

(** The capacity was taken away: it was spot capacity, or the account says so. *)
Definition spot_evidence (i : Instance) : Prop :=
  in_reason i = Some "Server.SpotInstanceTermination" \/ in_lifecycle i = Some "spot".

(** The instance runs and nothing was sent to it yet. *)
Definition bare (i : Instance) : Prop :=
  in_state i ∉ DEPARTING /\ in_state i ∉ HALTED /\ in_state i <> "pending" /\ recorded_id i = None.

Definition agent_there (h : string) (w1 : Ec2World W) : Prop :=
  exists pings, snd (describe_instance_information (eb_clients eb) h (ew_aws w1)) = Ok pings /\ Some "Online" ∈ pings.

(** The agent had longer than the settings allow. *)
Definition overdue (i : Instance) (t : Z) : Prop :=
  exists launched, launched_at_of (parse_tags (in_tags i)) = Some launched /\
    f_lt (aws_agent_timeout_seconds (eb_aws eb)) (total_seconds (t - launched)) = true.

(** What each answer of [poll] on an instance rests on, [w1] being the state after its lookup. *)
Definition evidence (h : string) (t : Z) (w1 : Ec2World W) (i : Instance) (o : Observation) : Prop :=
  match ob_status o with
  | GONE => False
  | B_COMPLETED => exists r, ssm_says h w1 i r /\ ssm_status r = "Success"
  | B_FAILED =>
      (exists r, ssm_says h w1 i r /\ ssm_status r ∈ FAILURES) \/
      (in_state i ∈ DEPARTING /\ ~ spot_evidence i) \/
      in_state i ∈ HALTED \/
      (bare i /\ ~ agent_there h w1 /\ overdue i t)
  | INTERRUPTED => in_state i ∈ DEPARTING /\ spot_evidence i /\
      (forall r, recorded_id i <> Some "" -> ssm_says h w1 i r -> ssm_status r <> "Success" /\ ssm_status r ∉ FAILURES)
  | READY => bare i /\ agent_there h w1
  | PENDING => in_state i = "pending" \/ (bare i /\ ~ agent_there h w1 /\ ~ overdue i t)
  | B_RUNNING => in_state i ∉ DEPARTING /\ (not_there_yet h w1 i \/
      exists r, ssm_says h w1 i r /\ ssm_status r <> "Success" /\ ssm_status r ∉ FAILURES)
  end.

(** An answer about a command: SSM gave it, or the command is not visible yet. *)
Lemma invocation_spec h id w w' o : invocation eb h id w = (w', Ok o) ->
  (exists r, snd (get_command_invocation (eb_clients eb) id h (ew_aws w)) = Ok r /\ ob_status o = invocation_status r) \/
  (ob_status o = B_RUNNING /\ exists exc code, snd (get_command_invocation (eb_clients eb) id h (ew_aws w)) = Raise exc /\
     error_code exc = Some code /\ code ∈ ["InvocationDoesNotExist"; "InvalidCommandId"]).
Proof.
  unfold invocation, bind, on_aws. destruct (get_command_invocation _ _ _ _) as [n [r|[e|e]]]; cbn [fst snd]; [| |by intros].
  - intros [= <- <-]. left. by exists r.
  - destruct (has_code _ _) eqn:Hc; [|done]. intros [= <- <-]. right. split; [done|]. unfold has_code in Hc.
    destruct (error_code (FromAws e)) as [c|] eqn:Hcode; [|done]. apply bool_decide_eq_true in Hc. by exists (FromAws e), c.
Qed.

Lemma invocation_evidence h t id i w w' o : recorded_id i = Some id -> in_state i ∉ DEPARTING ->
  invocation eb h id w = (w', Ok o) -> evidence h t w i o.
Proof.
  intros Hid Hs [(r & Hr & Ho)|(Ho & exc & code & He & Hc & Hin)]%invocation_spec.
  - pose proof (status_exact r) as H. unfold evidence. rewrite Ho.
    assert (Hsays : ssm_says h w i r) by (by exists id). destruct (invocation_status r); cbv iota in H |- *; [done|done|..|done|done].
    + split; [done|]. right. by exists r.
    + by exists r.
    + left. by exists r.
  - unfold evidence. rewrite Ho. split; [done|]. left. by exists id, exc, code.
Qed.

Lemma lost_evidence h t i w1 : in_state i ∈ DEPARTING ->
  (forall r, recorded_id i <> Some "" -> ssm_says h w1 i r -> ssm_status r <> "Success" /\ ssm_status r ∉ FAILURES) ->
  evidence h t w1 i (lost_instance i).
Proof.
  intros Hs Hno. unfold lost_instance. destruct (bool_decide (default "" (in_reason i) = _)) eqn:Hr; cbn [orb].
  - apply bool_decide_eq_true in Hr. split_and!; [done| |done]. left. by destruct (in_reason i); cbn in Hr; subst.
  - apply bool_decide_eq_false in Hr. destruct (bool_decide (in_lifecycle i = Some "spot")) eqn:Hl.
    + apply bool_decide_eq_true in Hl. split_and!; [done|by right|done].
    + apply bool_decide_eq_false in Hl. right; left. split; [done|]. intros [E|E]; [by rewrite E in Hr|done].
Qed.

Lemma agent_answer h w w' b : agent_online eb h w = (w', Ok b) -> b = true <-> agent_there h w.
Proof.
  unfold agent_online, bind, on_aws_any, agent_there.
  destruct (describe_instance_information _ h (ew_aws w)) as [n [pings|exc]]; cbn [snd]; intros [= _ <-].
  - rewrite existsb_exists. split.
    + intros (p & Hp & E%bool_decide_eq_true). subst. exists pings. split; [done|]. by apply list_elem_of_In.
    + intros (p & [= <-] & Hp). exists (Some "Online"). split; [by apply list_elem_of_In|by apply bool_decide_eq_true].
  - split; [done|]. by intros (p & ? & _).
Qed.

(** C27: every answer of [poll] rests on what the account said.  GONE: it knows no
    such instance.  Of an instance it knows: COMPLETED and a FAILED with an exit only
    when SSM said so of the command recorded on the instance; INTERRUPTED only of
    capacity on its way out that was spot or reclaimed, when SSM has no final status;
    FAILED otherwise only of on-demand capacity on its way out, of a stopped instance,
    or of one whose agent was not there in the time the settings allow; READY only when
    the agent is there and no command is recorded. *)
Theorem ec2_poll_evidence h t w : match b_poll (ec2 sha256 eb) h t w with
  | (_, Ok o) => exists w1 found, instance_of eb h t w = (w1, Ok found) /\ known_as eb h t w found /\
      match found with Some i => evidence h t w1 i o | None => ob_status o = GONE end
  | (_, Raise _) => True
  end.
Proof.
  cbn [ec2 b_poll]. destruct (poll eb h t w) as [w' [o|e]] eqn:E; [|done]. revert E. unfold poll, bind at 1.
  destruct (instance_of eb h t w) as [w1 [found|e]] eqn:Hfound; [|done]. intros E. exists w1, found.
  split; [done|]. split; [by eapply instance_known|]. destruct found as [i|]; [|by injection E as _ <-].
  revert E. fold (recorded_id i). case_bool_decide as Hout.
  - destruct (recorded_id i) as [[|a s]|] eqn:Hid.
    + intros [= <- <-]. apply lost_evidence; [done|]. by rewrite Hid.
    + unfold bind. destruct (invocation eb h (String a s) w1) as [w2 [ob|e]] eqn:Hinv; [|done].
      apply invocation_spec in Hinv as [(r & Hr & Ho)|(Ho & exc & code & He & _)].
      * pose proof (status_exact r) as Hexact. assert (Hsays : ssm_says h w1 i r) by (by exists (String a s)).
        case_bool_decide as Hfin; intros [= <- <-].
        -- unfold evidence. rewrite Ho in Hfin |- *. destruct (invocation_status r); cbv iota in Hexact |- *;
             [done|done|set_solver|by exists r|left; by exists r|done|done].
        -- apply lost_evidence; [done|]. intros r' _ (id & Hid' & Hr'). assert (r' = r) as -> by congruence.
           rewrite Ho in Hfin. destruct (invocation_status r); cbv iota in Hexact; [done|done|exact Hexact|set_solver|set_solver|done|done].
      * rewrite Ho. cbn. intros [= <- <-]. apply lost_evidence; [done|]. intros r _ (id & Hid' & Hr). congruence.
    + intros [= <- <-]. apply lost_evidence; [done|]. intros r _ (id & Hid' & _). congruence.
  - case_bool_decide as Hhalt; [intros [= <- <-]; by right; right; left|].
    destruct (String.eqb_spec (in_state i) "pending") as [Hp|Hp]; [intros [= <- <-]; by left|].
    destruct (recorded_id i) as [id|] eqn:Hid; [by apply invocation_evidence|].
    assert (Hbare : bare i) by done. unfold bind. destruct (agent_online eb h w1) as [w2 [online|e]] eqn:Hag; [|done].
    pose proof (agent_answer _ _ _ _ Hag) as Hthere. destruct online.
    + intros [= <- <-]. split; [done|]. by apply Hthere.
    + assert (Hno : ~ agent_there h w1) by (by intros ?%Hthere).
      unfold gets. destruct (seconds_since_launch _ t) as [x|] eqn:Hsec; unfold seconds_since_launch in Hsec.
      * apply fmap_Some in Hsec as (launched & Hl & ->). destruct (f_lt _ _) eqn:Hlt; intros [= <- <-].
        -- right; right; right. split_and!; [done..|]. by exists launched.
        -- right. split_and!; [done..|]. intros (l & Hl' & Hlt'). congruence.
      * apply fmap_None in Hsec. intros [= <- <-]. right. split_and!; [done..|]. intros (l & Hl & _). congruence.
Qed.

(** ** Spot capacity that is out *)

Lemma cooling_free g t w u : ew_cooling_until w = Some u -> t < u -> free_slots eb g t w = (w, Ok 0).
Proof.
  intros Hu Ht. unfold free_slots. destruct (negb (supports eb g)); [done|]. unfold bind, gets. rewrite Hu.
  by rewrite (proj2 (Z.ltb_lt _ _) Ht).
Qed.

Lemma cooling_refuses j t w u : ew_cooling_until w = Some u -> t < u -> exists e, launch eb j t w = (w, Raise e).
Proof.
  intros Hu Ht. unfold launch, bind at 1, guard_capacity, bind at 1, lift_outcome.
  destruct (require_launchable (eb_aws eb)) as [[]|e]; [|by eexists]. destruct (negb _); [by eexists|].
  unfold bind at 1. rewrite (cooling_free _ _ _ _ Hu Ht). by eexists.
Qed.

(** After its last allowed failure in a row a spot backend stands down: until
    the cooldown is over it has no free slots, and a launch is refused without a
    call to the account. *)
Theorem ec2_spot_cooldown j t w w1 w2 w3 p exc :
  eb_spot eb = true -> guard_capacity eb j t w = (w1, Ok tt) -> run_params eb j t w1 = (w2, Ok p) ->
  on_aws (run_instances (eb_clients eb) p false) w2 = (w3, Ok (inr exc)) ->
  eb_max_launch_failures eb <= ew_failures w3 + 1 ->
  t + timedelta_seconds (eb_cooldown_seconds eb) <= MAX_DATETIME ->
  exists w' m, b_launch (ec2 sha256 eb) j t w = (w', Raise (BackendError m)) /\
    forall t', t' < t + timedelta_seconds (eb_cooldown_seconds eb) ->
      (forall g, b_free_slots (ec2 sha256 eb) g t' w' = (w', Ok 0)) /\
      forall j', exists e, b_launch (ec2 sha256 eb) j' t' w' = (w', Raise e).
Proof.
  intros Hspot Hg Hp Hrun Hmax Hfit. cbn [ec2 b_launch b_free_slots]. unfold launch at 1, bind. rewrite Hg, Hp, Hrun.
  unfold note_failure, bind, gets, modify. rewrite Hspot. cbn [negb ew_failures].
  rewrite (proj2 (Z.leb_le _ _) Hmax), (proj2 (Z.ltb_ge _ _) Hfit).
  eexists _, _. split; [reflexivity|]. intros t' Ht'. split.
  - intros g. by eapply cooling_free.
  - intros j'. by eapply cooling_refuses.
Qed.
End Unlogged.

(** * An account in memory, and what the EC2 backend does with it

    The witnesses of [Ec2Props], and four runs that show what the code does
    against its comments. *)

From S2P Require Import Prelude PyFloat PyDecimal PyFormat PySort PyDict Errors Money Clock PyJson PyText States Models Config Tables Store StoreInv StoreSafe Fixture Backend Volumes Environments Aws Ec2.
Local Open Scope Z_scope.
Local Open Scope py_scope.

(** The instances, what every command answers, and which calls fail. *)
Record Account := mkAccount {
  acc_live : list Instance;
  acc_answer : Invocation;
  acc_failing : list string
}.

Definition throttled : raised := FromAws (mkAwsError (Some "RequestLimitExceeded") "slow down" "slow down").

Definition unless {A} (name : string) (a : A) (f : Account -> Account) : M Account raised A := fun s =>
  if bool_decide (name ∈ acc_failing s) then (s, Raise throttled) else (f s, Ok a).

Definition lookup_instance (h : string) : M Account raised (list (list Instance)) := fun s =>
  (s, Ok [List.filter (fun i => String.eqb (in_id i) h) (acc_live s)]).

Definition list_instances : M Account raised (list (list (list Instance))) := fun s =>
  if bool_decide ("describe_instances" ∈ acc_failing s) then (s, Raise throttled)
  else (s, Ok [[List.filter (fun i => bool_decide (in_state i ∈ LIVE_INSTANCE_STATES)) (acc_live s)]]).

Definition account : AwsClients Account := {|
  run_instances p dry :=
    let i := mkInstance "i-1" (Some (rp_type p)) "pending" (Some (map_to_list (rp_instance_tags p))) None None in
    unless "run_instances" [i] (fun s => {| s with acc_live := i :: acc_live s |});
  describe_spot_price_history l n := unless "describe_spot_price_history" [] id;
  paginate_instances k l := list_instances;
  describe_instances := lookup_instance;
  create_tags h l := unless "create_tags" tt (fun s => {| s with acc_live := map (fun i =>
    if String.eqb (in_id i) h then {| i with in_tags := Some (default [] (in_tags i) ++ l) |} else i) (acc_live s) |});
  terminate_instances h dry := unless "terminate_instances" tt id;
  send_command p := unless "send_command" "cmd-1" id;
  cancel_command i h := unless "cancel_command" tt id;
  get_command_invocation i h := fun s => (s, Ok (acc_answer s));
  describe_instance_information h := unless "describe_instance_information" [Some "Online"] id;
  get_log_events g n t := unless "get_log_events" (mkLogEvents [] None) id
|}.

Definition club_aws : AwsConfig :=
  {| default_aws with aws_ami := Some "ami-1"; aws_instance_profile := Some "broker";
                      aws_max_instances := [("t4", 1)] |}.

Definition pool (spot : bool) : Ec2Backend Account :=
  mkEc2Backend Account "ec2" (if spot then "spot" else "ondemand") club_aws account (f_of_Z 5) 60 spot "" "checkpoints" 90 1 (f_of_Z 900)
    None default_volumes "" None.

Definition no_hash (s : string) : string := s.
Definition start_with (live : list Instance) (failing : list string) (answer : Invocation) : Ec2World (Account * list Event) :=
  fresh_ec2 (mkAccount live answer failing, []).
Definition success : Invocation := mkInvocation (Some "Success") (Some 0) None None.

Local Abbreviation spot_pool := (ec2 no_hash (recorded (pool true))).
Local Abbreviation plain_pool := (ec2 no_hash (recorded (pool false))).

(** A launch, what it asked for, and what is left of the one slot. *)
Example launch_ex :
  let '(w, r) := b_launch plain_pool job1 noon (start_with [] [] success) in
  (match r with Ok al => (al_handle al, al_tags al !! TAG_JOB_ID) | Raise _ => ("", None) end,
   map (fun e => match e with Run p dry => (rp_type p, dry) | _ => ("", true) end) (events w),
   snd (b_free_slots plain_pool "t4" noon w))
  = (("i-1", Some "job-1"), [("g4dn.xlarge", false)], Ok 0).
Proof. by vm_compute. Qed.

Definition refusing : Ec2World Account := fresh_ec2 (mkAccount [] success ["run_instances"]).

Lemma ec2_spot_cooldown_witness : exists w' m,
  b_launch (ec2 no_hash (pool true)) job1 noon refusing = (w', Raise (BackendError m)) /\
  b_free_slots (ec2 no_hash (pool true)) "t4" (noon + 1) w' = (w', Ok 0).
Proof.
  destruct (guard_capacity (pool true) job1 noon refusing) as [w1 r1] eqn:H1.
  assert (E1 : r1 = Ok tt) by (apply (f_equal snd) in H1; vm_compute in H1; by symmetry). subst r1.
  destruct (run_params (pool true) job1 noon w1) as [w2 [p|e]] eqn:H2.
  2: { exfalso. apply (f_equal fst) in H1. cbn [fst] in H1. subst w1. apply (f_equal snd) in H2. vm_compute in H2. done. }
  destruct (on_aws (run_instances (eb_clients (pool true)) p false) w2) as [w3 r3] eqn:H3.
  assert (E1 : w1 = fst (guard_capacity (pool true) job1 noon refusing)) by (by rewrite H1).
  assert (E2 : w2 = fst (run_params (pool true) job1 noon w1)) by (by rewrite H2).
  assert (E3 : w3 = fst (on_aws (run_instances (eb_clients (pool true)) p false) w2)) by (by rewrite H3).
  assert (Hr : r3 = Ok (inr throttled)).
  { apply (f_equal snd) in H3. cbn [snd] in H3. rewrite <- H3, E2, E1. vm_compute. reflexivity. }
  subst r3.
  destruct (ec2_spot_cooldown no_hash (pool true) job1 noon refusing w1 w2 w3 p throttled eq_refl H1 H2 H3)
    as (w' & m & Hl & Hafter).
  - rewrite E3, E2, E1. vm_compute. discriminate.
  - vm_compute. discriminate.
  - exists w', m. split; [exact Hl|]. apply (Hafter (noon + 1)). vm_compute. reflexivity.
Defined.

(** ** Against the comments *)

Definition spot_instance (state : string) (reason : option string) : Instance :=
  mkInstance "i-9" (Some "g4dn.2xlarge") state
    (Some [(TAG_JOB_ID, "job-9"); (TAG_COMMAND_ID, "cmd-9")]) reason (Some "spot").

(** [free_slots] counts the instances of the one on-demand type: a spot instance
    of another candidate type takes no room, and the limit of one is passed. *)
Example spot_limit_ignored :
  snd (b_free_slots spot_pool "t4" noon (start_with [spot_instance "running" None] [] success)) = Ok 1.
Proof. by vm_compute. Qed.

(** When the listing fails, [terminate] raises before it asks for the end. *)
Example end_not_asked :
  let '(w, r) := b_terminate plain_pool "i-9" "" noon (start_with [spot_instance "running" None] ["describe_instances"] success) in
  (events w, is_ok r) = ([], false).
Proof. by vm_compute. Qed.

(** When the id cannot be recorded, the next [start] sends the job's command again. *)
Example command_sent_twice :
  let i := mkInstance "i-1" (Some "g4dn.xlarge") "running" (Some [(TAG_JOB_ID, "job-1")]) None None in
  let w := fst (b_start plain_pool "i-1" job1 noon (start_with [i] ["create_tags"] success)) in
  let w := fst (b_start plain_pool "i-1" job1 noon w) in
  List.filter (String.eqb "python train.py") (map (fun e => match e with Send p _ => sp_command p | _ => "" end) (events w))
  = ["python train.py"; "python train.py"].
Proof. by vm_compute. Qed.

(** A reclaimed spot instance whose command SSM has an answer for is not
    INTERRUPTED: the script that saves the checkpoint exits 0, which is Success, so
    the job counts as completed; killed with the machine, it counts as failed. *)
Definition reclaimed : Instance := spot_instance "terminated" (Some "Server.SpotInstanceTermination").

Example reclaimed_not_interrupted :
  map (fun a => match snd (b_poll spot_pool "i-9" noon (start_with [reclaimed] [] a)) with
                | Ok o => Some (ob_status o) | Raise _ => None end)
    [success; mkInvocation (Some "Failed") (Some 143) None None; mkInvocation (Some "InProgress") None None None]
  = [Some B_COMPLETED; Some B_FAILED; Some INTERRUPTED].
Proof. by vm_compute. Qed.
