(* ===== verification/Fake.v ===== *)
(** * backends/fake.py: capacity that does not exist

    A [FakeBackend] is its settings; [FakeWorld] is what the object and its state
    file hold: the resources by handle, the counter, the scripted plans and
    utilisations, and the disk of its checkpoint store.  Every mutation ends in
    [_save_state], so the file always holds the resources of the object and the
    JSON text of it is left out.  The methods are those of the [Backend] record,
    and [fake] is the instance.  [json.loads] of a state file, [int] and the three
    exceptions [_restore] catches are as in [Checkpoint.v].

    A temporary directory starts empty.  The last section is the simulated work:
    the accumulator a job ends on is the sum of its steps, each counted once. *)

From S2P Require Import Prelude PyFloat PyDecimal PyFormat PySort PyDict Errors Money Clock PyJson PyText Checkpoint CheckpointProps States Models Config Tables Store StoreInv StoreSafe Backend.
Local Open Scope Z_scope.
Local Open Scope py_scope.

Import LocalCheckpointStore.

(** [Plan] *)
Record Plan := mkPlan {
  pn_run_hours : option float;
  pn_outcome : BackendStatus;
  pn_exit_code : Z;
  pn_launch_error : option string;
  pn_detail : option string;
  pn_total_steps : Z;
  pn_checkpoint_every : Z
}.

Definition default_plan : Plan := mkPlan None B_COMPLETED 0 None None 0 0.

(** [_Resource] *)
Record FakeResource := mkFakeResource {
  fr_handle : string;
  fr_job_id : string;
  fr_user_id : string;
  fr_gpu_type : string;
  fr_launched_at : float;
  fr_ready_at : float;
  fr_finish_at : float;
  fr_outcome : BackendStatus;
  fr_exit_code : Z;
  fr_tags : gmap string string;
  fr_logs : list (string * string);
  fr_terminated : bool;
  fr_terminate_reason : option string;
  fr_logged_start : bool;
  fr_total_steps : Z;
  fr_checkpoint_every : Z;
  fr_start_step : Z;
  fr_start_value : Z;
  fr_last_saved_step : Z
}.

(** The settings of [FakeBackend.__init__]; [checkpoints] is the root of a
    [LocalCheckpointStore], when there is one. *)
Record FakeBackend := mkFakeBackend {
  fb_name : string;
  fb_tier : string;
  fb_currency : Currency;
  fb_capacity : gmap string Z;
  fb_startup_seconds : float;
  fb_checkpoints : option string
}.

Record FakeWorld := mkFakeWorld {
  fw_resources : dict string FakeResource;
  fw_counter : Z;
  fw_plans : gmap string Plan;
  fw_utilization : gmap string float;
  fw_disk : Disk
}.

Local Abbreviation M := (M FakeWorld exn).

(** [int(x)] of a float *)
Definition int_of_float (x : float) : outcome exn Z := int_of (JFloat x).

(** [sum(range(a, b))] *)
Definition sum_range (a b : Z) : Z :=
  zsum (fun i => a + Z.of_nat i) (seq 0 (Z.to_nat (b - a))).

(** [except (OSError, ValueError, KeyError)], a missing file being an [OSError] *)
Definition unreadable (e : exn) : bool :=
  match e with ValueError _ | KeyError _ => true | _ => false end.

(** [json.loads((directory / "state.json").read_text())] *)
Definition read_state (files : Files) : outcome exn json :=
  match files !! "state.json" with
  | None => Raise (ValueError "FileNotFoundError: state.json")
  | Some text => of_option (loads text) (ValueError "JSONDecodeError")
  end.

Definition closing_line (r : FakeResource) : string :=
  str_take 8 (fr_job_id r) +:+ ": " +:+ str_lower (status_str (fr_outcome r))
  +:+ " (exit " +:+ str_of_Z (fr_exit_code r) +:+ ")".

Section FakeBackend.
Context (fb : FakeBackend).

(** [self.checkpoints.latest(job_id)], [.fetch(ref, directory)] into a new directory *)
Definition latest_ref (root job_id : string) : M (option CheckpointRef) :=
  fun w => (w, latest root (d_root (fw_disk w)) job_id).

Definition fetched (root : string) (ref : CheckpointRef) : M Files :=
  fun w => match fetch root (d_root (fw_disk w)) ref no_files with
           | (files, Ok tt) => (w, Ok files)
           | (_, Raise e) => (w, Raise e)
           end.

(** [_restore(job)] *)
Definition restore (job_id : string) : M (Z * Z) :=
  match fb_checkpoints fb with
  | None => ret (0, 0)
  | Some root =>
      ref <- latest_ref root job_id;;
      match ref with
      | None => ret (0, 0)
      | Some ref =>
          directory <- fetched root ref;;
          let parsed :=
            state <-? read_state directory;;
            step <-? subscript state "step";;
            step <-? int_of step;;
            value <-? subscript state "value";;
            value <-? int_of value;;
            Ok (step, value) in
          match parsed with
          | Ok r => ret r
          | Raise e => if unreadable e then ret (0, 0) else raise e
          end
      end
  end.

(** [final_value(job_id)] *)
Definition final_value (job_id : string) : M (option Z) :=
  match fb_checkpoints fb with
  | None => ret None
  | Some root =>
      ref <- latest_ref root job_id;;
      match ref with
      | None => ret None
      | Some ref =>
          directory <- fetched root ref;;
          let parsed :=
            state <-? read_state directory;;
            value <-? subscript state "value";;
            int_of value in
          match parsed with
          | Ok v => ret (Some v)
          | Raise e => if unreadable e then ret None else raise e
          end
      end
  end.

(** ** Resources *)

Definition resource (handle : string) : M (option FakeResource) :=
  gets (fun w => dict_get handle (fw_resources w)).

(** Changing a resource, and [_save_state()] *)
Definition set_resource (r : FakeResource) : M unit :=
  modify (fun w => {| w with fw_resources := dict_set (fr_handle r) r (fw_resources w) |}).

Definition add_log (stream line : string) (r : FakeResource) : FakeResource :=
  {| r with fr_logs := fr_logs r ++ [(stream, line)] |}.

Definition is_finished (t : Z) (r : FakeResource) : bool :=
  fr_terminated r || f_le (fr_finish_at r) (timestamp t).

Definition supports (gpu_type : string) : bool := bool_decide (is_Some (fb_capacity fb !! gpu_type)).

Definition free_slots (gpu_type : string) (t : Z) (w : FakeWorld) : Z :=
  match fb_capacity fb !! gpu_type with
  | None => 0
  | Some capacity =>
      let in_use := length (List.filter (fun kv => String.eqb (fr_gpu_type (snd kv)) gpu_type
                                                   && negb (is_finished t (snd kv))) (fw_resources w)) in
      Z.max 0 (capacity - Z.of_nat in_use)
  end.

Definition plan_for (job_id : string) (w : FakeWorld) : Plan := default default_plan (fw_plans w !! job_id).

Definition run_hours (p : Plan) (j : Job) : float := default (j_requested_hours j) (pn_run_hours p).

(** The checks [launch] and [validate_launch] start with. *)
Definition may_launch (j : Job) (t : Z) : M Plan :=
  if negb (supports (j_gpu_type j)) then
    raise (BackendError (fb_name fb +:+ " has no " +:+ j_gpu_type j +:+ " capacity configured"))
  else
    free <- gets (free_slots (j_gpu_type j) t);;
    if free <=? 0 then raise (BackendError (fb_name fb +:+ " has no free " +:+ j_gpu_type j +:+ " slots"))
    else
      plan <- gets (plan_for (j_job_id j));;
      match pn_launch_error plan with
      | Some (String a s) => raise (BackendError (String a s))
      | _ => ret plan
      end.

(** [handle = f"{self.name}-{self._counter:04d}"], the counter being the next one *)
Definition next_handle : M string :=
  modify (fun w => {| w with fw_counter := fw_counter w + 1 |});;;
  gets (fun w => fb_name fb +:+ "-" +:+ pad0 4 (fw_counter w)).

(** [launch(job)] *)
Definition launch (j : Job) (t : Z) : M Allocation :=
  plan <- may_launch j t;;
  start <- restore (j_job_id j);;
  handle <- next_handle;;
  let epoch := timestamp t in
  let ready := f_add epoch (fb_startup_seconds fb) in
  let r := mkFakeResource handle (j_job_id j) (j_user_id j) (j_gpu_type j) epoch ready
             (f_add ready (f_mul (run_hours plan j) (f_of_Z 3600)))
             (pn_outcome plan) (pn_exit_code plan) (tags_for j (to_iso t))
             [("broker", "launched " +:+ handle +:+ " (" +:+ j_gpu_type j +:+ ")")]
             false None false (pn_total_steps plan) (pn_checkpoint_every plan)
             (fst start) (snd start) (-1) in
  set_resource r;;;
  ret (mkAllocation handle (j_gpu_type j) (fr_tags r)).

(** [validate_launch(job)] *)
Definition validate_launch (j : Job) (t : Z) : M string :=
  plan <- may_launch j t;;
  ret ("would simulate " +:+ j_gpu_type j +:+ " on " +:+ fb_name fb +:+ " for "
       +:+ f_general (run_hours plan j) +:+ "h").

(** [validate_terminate(handle)] *)
Definition validate_terminate (handle : string) : M string :=
  found <- resource handle;;
  ret (match found with
       | None => handle +:+ " is already gone"
       | Some _ => "would terminate " +:+ handle
       end).

(** ** Simulated work *)

(** [steps_done(resource)] *)
Definition steps_done (r : FakeResource) (t : Z) : outcome exn Z :=
  if fr_total_steps r <=? 0 then Ok 0
  else
    let span := f_max (f_sub (fr_finish_at r) (fr_ready_at r)) (f_of_dec 1 (-9)) in
    let elapsed := f_sub (timestamp t) (fr_ready_at r) in
    let fraction := f_min (f_max (f_div elapsed span) f0) f1 in
    done_ <-? int_of_float (f_mul fraction (f_of_Z (fr_total_steps r - fr_start_step r)));;
    Ok (fr_start_step r + done_).

(** [_value_at(resource, step)] *)
Definition value_at (r : FakeResource) (step : Z) : Z :=
  fr_start_value r + sum_range (fr_start_step r) step.

(** [{"step": step, "value": ...}] in a directory of its own *)
Definition state_files (step value : Z) : Files :=
  {[ "state.json" := dumps default_style (JDict [("step", JInt step); ("value", JInt value)]) ]}.

(** [_save(resource, step)], returning the resource with its [last_saved_step] *)
Definition save (r : FakeResource) (step : Z) (t : Z) : M FakeResource :=
  match fb_checkpoints fb with
  | None => ret r
  | Some root =>
      if step <=? fr_last_saved_step r then ret r
      else
        (fun w => let '(d, o) := put root (fr_job_id r) step (Some (state_files step (value_at r step))) t (fw_disk w) in
                  ({| w with fw_disk := d |}, o));;;
        let r := {| r with fr_last_saved_step := step |} in
        set_resource r;;;
        ret r
  end.

(** [_maybe_checkpoint(resource)] *)
Definition maybe_checkpoint (r : FakeResource) (t : Z) : M FakeResource :=
  if (fr_checkpoint_every r <=? 0) || (fr_total_steps r <=? 0) then ret r
  else
    step <- lift_outcome (steps_done r t);;
    let boundary := step / fr_checkpoint_every r * fr_checkpoint_every r in
    if (fr_last_saved_step r <? boundary) && (fr_start_step r <? boundary) then save r boundary t
    else ret r.

(** ** The rest of the protocol *)

(** [poll(handle)] *)
Definition poll (handle : string) (t : Z) : M Observation :=
  found <- resource handle;;
  match found with
  | None => ret (mkObservation GONE None (Some "no such handle"))
  | Some r =>
      let now := timestamp t in
      if fr_terminated r then
        ret (mkObservation GONE None (Some (str_or (fr_terminate_reason r) "terminated")))
      else if f_lt now (fr_ready_at r) then ret (mkObservation PENDING None (Some "booting"))
      else if f_lt now (fr_finish_at r) then
        r <- maybe_checkpoint r t;;
        (if fr_logged_start r then ret tt
         else let r := add_log "stdout" (str_take 8 (fr_job_id r) +:+ ": training started") r in
              set_resource {| r with fr_logged_start := true |});;;
        ret (mkObservation B_RUNNING None None)
      else
        (if (0 <? fr_total_steps r) && bool_decide (fr_outcome r = B_COMPLETED)
         then save r (fr_total_steps r) t;;; ret tt else ret tt);;;
        ret (mkObservation (fr_outcome r) (Some (fr_exit_code r))
               (Some ("finished as " +:+ status_str (fr_outcome r))))
  end.

(** [fetch_logs(handle, after)] *)
Definition fetch_logs (handle : string) (after : nat) (t : Z) : M (list (string * string)) :=
  found <- resource handle;;
  match found with
  | None => ret []
  | Some r =>
      let over := f_le (fr_finish_at r) (timestamp t) && negb (fr_terminated r)
                  && negb match last (fr_logs r) with
                          | Some (_, line) => String.eqb line (closing_line r)
                          | None => false
                          end in
      let r := if over then add_log "stdout" (closing_line r) r else r in
      (if over then set_resource r else ret tt);;;
      ret (drop after (fr_logs r))
  end.

(** [terminate(handle, reason)] *)
Definition terminate (handle reason : string) (t : Z) : M unit :=
  found <- resource handle;;
  match found with
  | None => ret tt
  | Some r =>
      let r := add_log "broker" ("terminated: " +:+ reason) r in
      set_resource {| r with fr_terminated := true; fr_terminate_reason := Some reason |}
  end.

(** [sample_utilization(handle)] *)
Definition sample_utilization (handle : string) (t : Z) : M (list UtilizationSample) :=
  found <- resource handle;;
  match found with
  | None => ret []
  | Some r =>
      if f_lt (timestamp t) (fr_ready_at r) then ret []
      else
        percent <- gets (fun w => default (f_of_Z 85) (fw_utilization w !! fr_job_id r));;
        ret [mkUtilizationSample (timestamp t) percent 8192]
  end.

(** [list_resources()] *)
Fixpoint list_live (handles : list string) (t : Z) : M (list Resource) :=
  match handles with
  | [] => ret []
  | h :: hs =>
      found <- resource h;;
      match found with
      | None => list_live hs t
      | Some r =>
          if fr_terminated r then list_live hs t
          else
            ob <- poll h t;;
            rest <- list_live hs t;;
            ret (mkResource h (fr_gpu_type r) (ob_status ob) (fr_tags r) :: rest)
      end
  end.

Definition list_resources (t : Z) : M (list Resource) :=
  handles <- gets (fun w => map fst (fw_resources w));;
  list_live handles t.

Definition fake : Backend FakeWorld := mkBackend FakeWorld (fb_name fb) (fb_currency fb) (Some (fb_tier fb))
  (fun g _ => ret (supports g))
  (fun g t => gets (free_slots g t))
  launch
  (fun _ _ _ => ret tt)
  poll
  validate_launch
  (fun handle _ => validate_terminate handle)
  fetch_logs
  terminate
  list_resources
  sample_utilization
  None.

(** ** Hooks *)

(** [plan(job_id, ...)], [set_utilization(job_id, percent)] *)
Definition plan (job_id : string) (p : Plan) : M unit :=
  modify (fun w => {| w with fw_plans := <[job_id := p]> (fw_plans w) |}).

Definition set_utilization (job_id : string) (percent : float) : M unit :=
  modify (fun w => {| w with fw_utilization := <[job_id := percent]> (fw_utilization w) |}).

(** [interrupt(handle)] *)
Definition interrupt (handle : string) (t : Z) : M unit :=
  found <- resource handle;;
  match found with
  | None => ret tt
  | Some r =>
      if fr_terminated r then ret tt
      else
        step <- lift_outcome (steps_done r t);;
        r <- (if (0 <? fr_total_steps r) && (fr_start_step r <? step) then save r step t else ret r);;
        let r := add_log "broker" ("capacity interrupted at step " +:+ str_of_Z step) r in
        set_resource {| r with fr_finish_at := timestamp t; fr_outcome := INTERRUPTED |}
  end.

(** [orphan(handle)]: [pop] *)
Definition orphan (handle : string) : M unit :=
  modify (fun w => {| w with fw_resources := List.filter (fun kv => negb (String.eqb (fst kv) handle)) (fw_resources w) |}).

(** [leak(job_id, user_id, gpu_type)] *)
Definition leak (job_id user_id gpu_type : string) (t : Z) : M string :=
  handle <- next_handle;;
  let epoch := timestamp t in
  set_resource (mkFakeResource handle job_id user_id gpu_type epoch epoch (f_add epoch (f_of_Z 86400))
    B_COMPLETED 0
    (<["broker-job-id" := job_id]> (<["broker-user" := user_id]> (<["broker-launched-at" := to_iso t]> ∅)))
    [] false None false 0 0 0 0 (-1));;;
  ret handle.
End FakeBackend.
