(* ===== verification/FakeProps.v ===== *)
(** * The simulated work adds up

    [fake_ok] is what every operation of the fake backend keeps: each saved
    checkpoint of a job holds the sum of the steps before it, and each resource
    started from such a checkpoint and works towards the total of its plan. *)

From S2P Require Import Prelude PyFloat PyDecimal PyFormat PySort PyDict Errors Money Clock PyJson PyText Checkpoint CheckpointProps States Models Config Tables Store StoreInv StoreSafe Fixture Backend Fake.
Local Open Scope Z_scope.
Local Open Scope py_scope.

Import LocalCheckpointStore.

(** ** Sums of steps *)

Lemma sum_range_nil a b : b <= a -> sum_range a b = 0.
Proof. intros H. unfold sum_range. by replace (Z.to_nat (b - a)) with O by lia. Qed.

Lemma sum_range_snoc a b : a <= b -> sum_range a (b + 1) = sum_range a b + b.
Proof.
  intros H. unfold sum_range. replace (Z.to_nat (b + 1 - a)) with (Z.to_nat (b - a) + 1)%nat by lia.
  rewrite seq_app, zsum_app. cbn [seq Nat.add]. rewrite zsum_cons, zsum_nil. lia.
Qed.

Lemma sum_range_formula n : 0 <= n -> 2 * sum_range 0 n = n * (n - 1).
Proof.
  intros Hn. apply (Zlt_lower_bound_ind (fun n => 2 * sum_range 0 n = n * (n - 1)) 0); [|done].
  intros m IH Hm. destruct (Z.eq_dec m 0) as [->|Hm0]; [done|].
  specialize (IH (m - 1) ltac:(lia)). replace m with (m - 1 + 1) at 1 by lia. rewrite sum_range_snoc by lia. lia.
Qed.

Lemma sum_range_split a b c : a <= b <= c -> sum_range a c = sum_range a b + sum_range b c.
Proof.
  intros [Hab Hbc]. replace c with (b + Z.of_nat (Z.to_nat (c - b))) by lia.
  induction (Z.to_nat (c - b)) as [|n IH]; [rewrite Z.add_0_r, (sum_range_nil b b); lia|].
  replace (b + Z.of_nat (S n)) with (b + Z.of_nat n + 1) by lia. rewrite !sum_range_snoc by lia. lia.
Qed.

Lemma int_of_float_ok x n : int_of_float x = Ok n -> is_nan x = false /\ n = f_trunc x.
Proof. unfold int_of_float, int_of. destruct (is_nan x); [done|]. destruct (is_finite x); [|done]. by intros [= <-]. Qed.

Lemma nan_clamp q n : is_nan (f_mul (f_min (f_max q f0) f1) (f_of_Z n)) = false -> is_nan q = false.
Proof. by destruct q. Qed.

Lemma steps_done_range r t n :
  0 < fr_total_steps r < 10 ^ 12 -> 0 <= fr_start_step r <= fr_total_steps r ->
  steps_done r t = Ok n -> fr_start_step r <= n <= fr_total_steps r.
Proof.
  intros Ht Hs. unfold steps_done. rewrite (proj2 (Z.leb_gt _ 0)) by lia.
  intros Hd. apply obind_ok in Hd as (k & Hk & [= <-]). apply int_of_float_ok in Hk as [Hnan ->].
  apply nan_clamp in Hnan. set (x := f_min _ _).
  pose proof (scaled_bounds x (fr_total_steps r - fr_start_step r) (unit_clamp _ _ Hnan) ltac:(lia)). lia.
Qed.

(** What a computation of no effect returned, for the rest. *)
Lemma triple_lift {S E A} (o : outcome E A) (P Q : S -> Prop) : (forall s, P s -> Q s) ->
  triple P (lift_outcome o) (fun a s => o = Ok a /\ P s) (fun _ => Q).
Proof. intros HQ s Hs. cbn. destruct o; [done|by apply HQ]. Qed.

(** How far an attempt has got lies between the step it began at and the
    whole, whatever the clock and the settings say; all that can go wrong is the
    [int] of a NaN or an infinity. *)
Theorem steps_done_bounds r t : fr_total_steps r < 10 ^ 12 -> 0 <= fr_start_step r <= fr_total_steps r ->
  match steps_done r t with
  | Ok n => fr_start_step r <= n <= fr_total_steps r
  | Raise e => 0 < fr_total_steps r /\ exists text, e = ValueError text \/ e = OverflowError text
  end.
Proof.
  intros Ht Hs. destruct (steps_done r t) as [n|e] eqn:Hd.
  - destruct (Z.eq_dec (fr_total_steps r) 0) as [E|E]; [|by apply (steps_done_range r t); [lia|..]].
    unfold steps_done in Hd. rewrite E in Hd. injection Hd as <-. lia.
  - unfold steps_done in Hd. destruct (Z.leb_spec (fr_total_steps r) 0); [done|]. split; [done|].
    unfold int_of_float, int_of in Hd. cbv zeta in Hd.
    destruct (is_nan _); [cbn [obind] in Hd; injection Hd as <-; eexists; left; reflexivity|].
    destruct (is_finite _); [done|]. cbn [obind] in Hd. injection Hd as <-. eexists; right; reflexivity.
Qed.

Section Accumulator.
Context (fb : FakeBackend) (root : string) (Hroot : fb_checkpoints fb = Some root).
(** The steps the plan of each job asks for. *)
Context (total : string -> Z) (Htotal : forall job, total job < 10 ^ 12).

(** ** The invariant *)

(** The files of a step, with the sum of the steps before it. *)
Definition files_at (step t : Z) : Files := written_files step (state_files step (sum_range 0 step)) t.
Definition ref_at (job : string) (step t : Z) : CheckpointRef :=
  written_ref root job step (state_files step (sum_range 0 step)) t.

Definition disk_ok (d : Disk) : Prop := forall job name files, entry_of (d_root d) job name = Some files ->
  exists step t, name = step_name step /\ 0 <= step <= total job /\ representable t /\ files = files_at step t.

Definition has_step (d : Disk) (job : string) (step : Z) : Prop := is_Some (entry_of (d_root d) job (step_name step)).

Definition resource_ok (d : Disk) (r : FakeResource) : Prop :=
  fr_total_steps r <= 0 \/
  (fr_total_steps r = total (fr_job_id r) /\ 0 <= fr_start_step r <= fr_total_steps r /\
   fr_start_value r = sum_range 0 (fr_start_step r) /\
   (fr_last_saved_step r < 0 \/
    fr_last_saved_step r <= fr_total_steps r /\ has_step d (fr_job_id r) (fr_last_saved_step r))).

Record fake_ok (w : FakeWorld) : Prop := {
  fo_disk : disk_ok (fw_disk w);
  fo_plans : forall job, pn_total_steps (plan_for job w) = total job;
  fo_resources : forall h r, dict_get h (fw_resources w) = Some r -> fr_handle r = h /\ resource_ok (fw_disk w) r
}.

Lemma state_no_manifest step v : state_files step v !! MANIFEST = None.
Proof. unfold state_files. by rewrite lookup_singleton_ne. Qed.

Lemma entry_manifest d job step t : representable t ->
  entry_of (d_root d) job (step_name step) = Some (files_at step t) -> exists raw,
  manifest_at (d_root d) job (step_name step) = Some raw /\
  read_manifest job (key_of root job (step_name step)) raw = Ok (Some (ref_at job step t)).
Proof.
  intros Ht He. eexists. unfold manifest_at. rewrite He. cbn [mbind option_bind]. unfold files_at, written_files.
  rewrite lookup_insert_eq. split; [done|]. by apply read_written.
Qed.

Lemma disk_tidy d : disk_ok d -> tidy root (d_root d).
Proof.
  intros Hd job name raw Hm. pose proof Hm as Hm'. unfold manifest_at in Hm'.
  destruct (entry_of (d_root d) job name) as [files|] eqn:He; [|done].
  destruct (Hd _ _ _ He) as (step & t & -> & Hstep & Ht & ->).
  destruct (entry_manifest d job step t Ht He) as (raw' & Hm2 & Hr). rewrite Hm in Hm2. injection Hm2 as <-.
  exists (ref_at job step t). split_and!; [done|done|cbn; lia|]. cbn. specialize (Htotal job). lia.
Qed.

(** What [latest] finds: nothing, or the highest step saved. *)
Lemma latest_ok d job : disk_ok d ->
  latest root (d_root d) job = Ok None /\ (forall step, ~ has_step d job step) \/
  exists step t, latest root (d_root d) job = Ok (Some (ref_at job step t)) /\
    0 <= step <= total job /\ entry_of (d_root d) job (step_name step) = Some (files_at step t) /\
    forall step', 0 <= step' < 10 ^ 12 -> has_step d job step' -> step' <= step.
Proof.
  intros Hd. pose proof (disk_tidy d Hd) as Htidy. destruct (latest_newest root (d_root d) job Htidy) as (o & Ho & Hn).
  assert (Hall : forall name files, entry_of (d_root d) job name = Some files -> exists step t,
    name = step_name step /\ complete root (d_root d) job (ref_at job step t)).
  { intros name files He. destruct (Hd _ _ _ He) as (step & t & -> & Hstep & Ht & ->).
    destruct (entry_manifest d job step t Ht He) as (raw & H1 & H2). exists step, t. split; [done|].
    by exists (step_name step), raw. }
  destruct o as [r|].
  - right. destruct Hn as [(name & raw & Hm & Hr) Hmax]. unfold manifest_at in Hm.
    destruct (entry_of (d_root d) job name) as [files|] eqn:He; [|done].
    destruct (Hd _ _ _ He) as (step & t & -> & Hstep & Ht & ->).
    destruct (entry_manifest d job step t Ht He) as (raw' & H1 & H2). unfold manifest_at in H1. rewrite He in H1.
    rewrite Hm in H1. injection H1 as <-. rewrite Hr in H2. injection H2 as ->.
    exists step, t. split_and!; [done|lia|lia|done|]. intros step' Hs' [files' He'].
    destruct (Hd _ _ _ He') as (st & t2 & Hname & Hst & Ht2 & ->). specialize (Htotal job).
    destruct (entry_manifest d job st t2 Ht2 ltac:(by rewrite <- Hname)) as (raw2 & H3 & H4).
    specialize (Hmax (ref_at job st t2) ltac:(by exists (step_name st), raw2)). cbn in Hmax.
    apply step_name_inj in Hname; lia.
  - left. split; [done|]. intros step [files He]. destruct (Hall _ _ He) as (st & t & _ & Hc). by apply (Hn _ Hc).
Qed.

(** ** Reading a checkpoint back *)

Lemma state_files_read step v : plain (JInt step) = true -> read_state (state_files step v)
  = Ok (JDict [("step", JInt step); ("value", JInt v)]).
Proof. intros _. unfold read_state, state_files. by rewrite lookup_singleton_eq, loads_dumps by done. Qed.

Lemma fetched_at w job step t : no_slash job = true -> 0 <= step <= total job ->
  entry_of (d_root (fw_disk w)) job (step_name step) = Some (files_at step t) ->
  fetched root (ref_at job step t) w = (w, Ok (state_files step (sum_range 0 step))).
Proof.
  intros Hj Hs He. unfold fetched, ref_at. specialize (Htotal job).
  rewrite fetch_written by (done || lia || apply state_no_manifest). unfold no_files. by rewrite map_union_empty.
Qed.

(** An attempt starts from a checkpoint with the sum of the steps before it. *)
Lemma restore_spec w job : fake_ok w -> no_slash job = true ->
  exists s, restore fb job w = (w, Ok (s, sum_range 0 s)) /\ 0 <= s <= Z.max 0 (total job).
Proof.
  intros Hw Hj. unfold restore. rewrite Hroot. unfold latest_ref, bind at 1.
  destruct (latest_ok (fw_disk w) job (fo_disk _ Hw)) as [[-> _]|(step & t & -> & Hs & He & _)].
  - exists 0. split; [done|lia].
  - exists step. split; [|lia]. unfold bind. rewrite fetched_at by done. by rewrite state_files_read.
Qed.

(** The value a job has reached is the sum of the steps before its newest
    checkpoint. *)
Lemma final_value_spec w job : fake_ok w -> no_slash job = true ->
  final_value fb job w = (w, Ok None) /\ (forall step, ~ has_step (fw_disk w) job step) \/
  exists step, final_value fb job w = (w, Ok (Some (sum_range 0 step))) /\ 0 <= step <= total job /\
    forall step', 0 <= step' < 10 ^ 12 -> has_step (fw_disk w) job step' -> step' <= step.
Proof.
  intros Hw Hj.
  destruct (latest_ok (fw_disk w) job (fo_disk _ Hw)) as [[E Hn]|(step & t & E & Hs & He & Hmax)];
    [left; split; [|done]|right; exists step; split; [|done]];
    unfold final_value; rewrite Hroot; unfold latest_ref, bind at 1; rewrite E; [done|].
  unfold bind. rewrite fetched_at by done. by rewrite state_files_read.
Qed.

(** ** What the operations keep *)

Section Kept.
(** Checkpoints that are there to begin with, and stay. *)
Context (seen : string -> Z -> Prop).

Definition kept (w : FakeWorld) : Prop :=
  fake_ok w /\ forall job step, seen job step -> has_step (fw_disk w) job step.

Definition working (r : FakeResource) (w : FakeWorld) : Prop := kept w /\ resource_ok (fw_disk w) r.

Lemma resource_found h w r : kept w -> dict_get h (fw_resources w) = Some r -> working r w.
Proof. intros [Hw Hs] Hr. split; [done|]. apply (fo_resources _ Hw _ _ Hr). Qed.

Lemma set_resource_kept r : triple (working r) (set_resource r) (fun _ => working r) (fun _ _ => False).
Proof.
  intros w [[[Hd Hp Hr] Hs] Hok]. cbn. split; [|done]. split; [|done]. constructor; [done..|].
  intros h r'. cbn. rewrite dict_get_set. destruct (decide _) as [<-|]; [|by apply Hr]. by intros [= <-].
Qed.

(** Saving: the sum of the steps before [step] goes to disk. *)
Lemma save_kept r step t : 0 < fr_total_steps r -> fr_start_step r <= step <= fr_total_steps r -> representable t ->
  triple (working r) (save fb r step t)
    (fun r' w => working r' w /\ exists s, step <= s < 10 ^ 12 /\ has_step (fw_disk w) (fr_job_id r) s)
    (fun _ _ => False).
Proof.
  intros Ht Hstep Hat w [[Hw Hs] [?|(Hok1 & Hok2 & Hok3 & Hok4)]]; [lia|]. specialize (Htotal (fr_job_id r)).
  unfold save. rewrite Hroot. destruct (Z.leb_spec step (fr_last_saved_step r)) as [Hle|Hgt].
  { split; [split; [done|by right]|]. destruct Hok4 as [?|[? ?]]; [lia|]. exists (fr_last_saved_step r). split; [lia|done]. }
  assert (Hv : value_at r step = sum_range 0 step)
    by (unfold value_at; rewrite Hok3, (sum_range_split 0 (fr_start_step r) step); lia).
  unfold bind at 1. destruct w as [rs c ps us [s0 seen0]]. cbn [fw_disk] in *. rewrite Hv.
  destruct (put_run root (fun _ => True) s0 seen0 (fr_job_id r) step (state_files step (sum_range 0 step)) t I
    (fun _ _ _ _ => I) (state_no_manifest _ _)) as (d1 & s' & -> & _ & Hnew & Hold).
  assert (Hmono : forall job st, has_step (mkDisk s0 seen0) job st -> has_step (mkDisk s' (s' :: d_seen d1)) job st).
  { intros job st. unfold has_step. cbn [d_root]. destruct (decide ((job, step_name st) = (fr_job_id r, step_name step))) as [[-> ->]%pair_equal_spec|Hne].
    - by rewrite Hnew.
    - by rewrite Hold. }
  assert (Hhas : has_step (mkDisk s' (s' :: d_seen d1)) (fr_job_id r) step) by (unfold has_step; cbn [d_root]; by rewrite Hnew).
  assert (Hres : forall r0, resource_ok (mkDisk s0 seen0) r0 -> resource_ok (mkDisk s' (s' :: d_seen d1)) r0).
  { intros r0 [?|(? & ? & ? & Hlast)]; [by left|right; split_and!; [done|lia|lia|done|]].
    destruct Hlast as [?|[? ?]]; [by left|right; auto]. }
  set (r' := {| r with fr_last_saved_step := step |}). destruct Hw as [Hd Hp Hr]. cbn in Hd, Hp, Hr.
  assert (Hk : working r' {| {| fw_resources := rs; fw_counter := c; fw_plans := ps; fw_utilization := us; fw_disk := mkDisk s0 seen0 |}
                            with fw_disk := mkDisk s' (s' :: d_seen d1) |}).
  { split.
    - split; [constructor|]; cbn [fw_disk fw_resources]; [|done| |by intros ???; apply Hmono, Hs].
      + intros job name files He. destruct (decide ((job, name) = (fr_job_id r, step_name step))) as [[-> ->]%pair_equal_spec|Hne].
        * cbn [fw_disk d_root] in He. rewrite Hnew in He. injection He as <-. exists step, t. split_and!; [done|lia|lia|done|done].
        * cbn [fw_disk d_root] in He. rewrite Hold in He by done. by apply Hd.
      + intros h r0 Hr0. apply Hr in Hr0 as [? ?]. split; [done|]. by apply Hres.
    - right. subst r'. cbn. split_and!; [done|lia|lia|done|]. right. split; [lia|done]. }
  pose proof (set_resource_kept r' _ Hk) as Hset. unfold bind. destruct (set_resource r' _) as [w2 [u|e]] eqn:E2; [|done].
  injection E2 as <- <-. split; [exact Hset|]. exists step. split; [lia|exact Hhas].
Qed.
Lemma kept_change w w' : kept w -> fw_disk w' = fw_disk w -> fw_plans w' = fw_plans w ->
  (forall h r, dict_get h (fw_resources w') = Some r -> dict_get h (fw_resources w) = Some r) -> kept w'.
Proof.
  intros [[Hd Hp Hr] Hs] Ed Ep Er. split; [|by rewrite Ed]. constructor; [by rewrite Ed| |].
  - intros job. unfold plan_for. rewrite Ep. apply Hp.
  - intros h r Hget. rewrite Ed. by apply Hr, Er.
Qed.

Lemma next_handle_kept : keeps kept (next_handle fb).
Proof. intros w Hw. cbn. by eapply kept_change; [exact Hw|..]. Qed.

Lemma put_resource r r' : (forall d, resource_ok d r -> resource_ok d r') ->
  triple (working r) (set_resource r') (fun _ => kept) (fun _ => kept).
Proof.
  intros Hr. eapply triple_conseq; [apply (set_resource_kept r')| |by intros _ w []|done].
  intros w [Hw Hok]. split; [done|]. by apply Hr.
Qed.

Lemma maybe_checkpoint_kept r t : representable t ->
  triple (working r) (maybe_checkpoint fb r t) (fun r' => working r') (fun _ => kept).
Proof.
  intros Hat. unfold maybe_checkpoint. destruct (Z.leb_spec (fr_checkpoint_every r) 0) as [|He]; [by apply triple_ret|].
  destruct (Z.leb_spec (fr_total_steps r) 0) as [|Ht]; [by apply triple_ret|]. cbn [orb].
  eapply triple_bind; [apply triple_lift; by intros w []|intros step; cbv beta].
  intros w [Hd Hw]. pose proof Hw as [_ [?|(E & Hs & _)]]; [lia|].
  pose proof (steps_done_range r t step ltac:(specialize (Htotal (fr_job_id r)); lia) Hs Hd) as Hb.
  pose proof (Z.mul_div_le step (fr_checkpoint_every r) He) as Hle.
  set (boundary := step / _ * _). destruct (Z.ltb_spec (fr_last_saved_step r) boundary); [|done].
  destruct (Z.ltb_spec (fr_start_step r) boundary) as [Hgt|]; [|done]. cbn [andb].
  pose proof (save_kept r boundary t Ht ltac:(subst boundary; lia) Hat w Hw) as H'.
  destruct (save fb r boundary t w) as [w' [r'|e]]; [apply H'|done].
Qed.

(** The resource of a handle, in a step that needs one. *)
Lemma resource_kept {A} h (k : option FakeResource -> M FakeWorld exn A) Q R :
  triple kept (k None) Q R -> (forall r, triple (working r) (k (Some r)) Q R) ->
  triple kept (found <- resource h;; k found) Q R.
Proof.
  intros Hn Hk w Hw. unfold resource, gets, bind. destruct (dict_get h (fw_resources w)) as [r|] eqn:E; [|by apply Hn].
  apply Hk. by eapply resource_found.
Qed.

Lemma poll_kept h t : representable t -> keeps kept (poll fb h t).
Proof.
  intros Hat. apply resource_kept; [apply keeps_ret|]. intros r. cbv zeta.
  assert (Hweak : forall w, working r w -> kept w) by (by intros w []).
  destruct (fr_terminated r); [by apply triple_ret|]. destruct (f_lt _ (fr_ready_at r)); [by apply triple_ret|].
  destruct (f_lt _ (fr_finish_at r)).
  - eapply triple_bind; [by apply maybe_checkpoint_kept|]. intros r'. eapply (triple_bind _ _ _ (fun _ => kept)); [|intros; by apply triple_ret].
    destruct (fr_logged_start r'); [by apply triple_ret; intros w []|]. by apply put_resource.
  - eapply (triple_bind _ _ _ (fun _ => kept)); [|intros; by apply triple_ret].
    destruct (Z.ltb_spec 0 (fr_total_steps r)) as [Ht|]; [|by apply triple_ret]. destruct (bool_decide _); [|by apply triple_ret].
    eapply (triple_bind _ _ _ (fun _ => kept)); [|intros; by apply triple_ret]. intros w Hw.
    pose proof Hw as [_ [?|(_ & Hs & _)]]; [lia|].
    pose proof (save_kept r _ t Ht ltac:(split; [apply Hs|done]) Hat w Hw) as H'.
    destruct (save fb r _ t w) as [w' [r'|e]]; [apply H'|done].
Qed.

Lemma fetch_logs_kept h after t : keeps kept (fetch_logs h after t).
Proof.
  apply resource_kept; [apply keeps_ret|]. intros r. cbv zeta.
  eapply (triple_bind _ _ _ (fun _ => kept)); [|intros; by apply triple_ret].
  destruct (_ && _); [by apply put_resource|]. apply triple_ret. by intros w [].
Qed.

Lemma terminate_kept h reason t : keeps kept (terminate h reason t).
Proof. apply resource_kept; [apply keeps_ret|]. intros r. by apply put_resource. Qed.

Lemma keeps_working {A} r (m : M FakeWorld exn A) : keeps kept m -> triple (working r) m (fun _ => kept) (fun _ => kept).
Proof. intros Hm w [Hw _]. by apply Hm. Qed.

Lemma list_live_kept hs t : representable t -> keeps kept (list_live fb hs t).
Proof.
  intros Hat. induction hs as [|h hs IH]; [apply keeps_ret|]. apply resource_kept; [exact IH|]. intros r.
  apply keeps_working. destruct (fr_terminated r); [exact IH|]. apply keeps_bind; [by apply poll_kept|]. intros ob.
  apply keeps_bind; [exact IH|]. intros. apply keeps_ret.
Qed.

Lemma list_resources_kept t : representable t -> keeps kept (list_resources fb t).
Proof. intros Hat. apply keeps_bind; [apply keeps_gets|]. intros. by apply list_live_kept. Qed.

Lemma interrupt_kept h t : representable t -> keeps kept (interrupt fb h t).
Proof.
  intros Hat. apply resource_kept; [apply keeps_ret|]. intros r.
  destruct (fr_terminated r); [by apply keeps_working, keeps_ret|].
  eapply triple_bind; [apply triple_lift; by intros w []|intros step; cbv beta].
  eapply (triple_bind _ _ _ (fun r' => working r')); [|by intros; apply put_resource].
  destruct (Z.ltb_spec 0 (fr_total_steps r)) as [Ht|]; [|by apply triple_ret; intros w []].
  destruct (Z.ltb_spec (fr_start_step r) step) as [Hgt|]; [|by apply triple_ret; intros w []]. cbn [andb].
  intros w [Hd Hw]. pose proof Hw as [_ [?|(E & Hs & _)]]; [lia|].
  pose proof (steps_done_range r t step ltac:(specialize (Htotal (fr_job_id r)); lia) Hs Hd) as Hb.
  pose proof (save_kept r step t Ht Hb Hat w Hw) as H'. destruct (save fb r step t w) as [w' [r'|e]]; [apply H'|done].
Qed.

Lemma dict_get_without h k (m : dict string FakeResource) r :
  dict_get k (List.filter (fun kv => negb (String.eqb (fst kv) h)) m) = Some r -> dict_get k m = Some r.
Proof.
  induction m as [|[k' v] m IH]; [done|]. cbn. destruct (String.eqb_spec k' h) as [->|]; cbn.
  - intros Hr. specialize (IH Hr). destruct (decide (h = k)) as [->|]; [|done].
    exfalso. clear IH. induction m as [|[k2 v2] m IHm]; [done|]. cbn in Hr.
    destruct (String.eqb_spec k2 k); cbn in Hr; [by apply IHm|]. rewrite decide_False in Hr by done. by apply IHm.
  - destruct (decide (k' = k)); [done|apply IH].
Qed.

Lemma orphan_kept h : keeps kept (orphan h).
Proof. intros w Hw. eapply kept_change; [exact Hw|done..|]. intros k r. apply dict_get_without. Qed.

Lemma set_utilization_kept job x : keeps kept (set_utilization job x).
Proof. intros w Hw. by eapply kept_change; [exact Hw|..]. Qed.

Lemma leak_kept job user gpu t : keeps kept (leak fb job user gpu t).
Proof.
  apply keeps_bind; [apply next_handle_kept|]. intros h. apply keeps_bind; [|intros; apply keeps_ret].
  cbv zeta. set (r := mkFakeResource _ _ _ _ _ _ _ _ _ _ _ _ _ _ _ _ _ _ _).
  eapply triple_conseq; [apply (put_resource r r)|intros w Hw; split; [done|by left]|done|done]. done.
Qed.

Lemma may_launch_reads j t w : exists o, may_launch fb j t w = (w, o) /\
  forall p, o = Ok p -> p = plan_for (j_job_id j) w.
Proof.
  unfold may_launch. destruct (negb _); [by eexists|]. unfold gets, bind. destruct (_ <=? 0); [by eexists|].
  destruct (pn_launch_error _) as [[|]|]; eexists; (split; [reflexivity|]); [|done|]; by intros p [= <-].
Qed.

Lemma launch_kept j t : no_slash (j_job_id j) = true -> keeps kept (launch fb j t).
Proof.
  intros Hj w Hw. unfold launch. unfold bind at 1. destruct (may_launch_reads j t w) as (o & -> & Hp).
  destruct o as [p|e]; [|exact Hw]. specialize (Hp p eq_refl) as ->. unfold bind at 1.
  destruct (restore_spec w (j_job_id j) (proj1 Hw) Hj) as (s & -> & Hs).
  pose proof (fo_plans _ (proj1 Hw) (j_job_id j)) as Ep. revert w Hw Ep.
  intros w Hw Ep. unfold bind at 1. pose proof (next_handle_kept w Hw) as Hw1.
  destruct (next_handle fb w) as [w1 [h|e]]; [|done]. cbv zeta. set (r := mkFakeResource _ _ _ _ _ _ _ _ _ _ _ _ _ _ _ _ _ _ _).
  assert (Hr : working r w1).
  { split; [done|]. destruct (decide (total (j_job_id j) <= 0)); [left; cbn; lia|right].
    subst r. cbn. split_and!; [done|lia|lia|done|]. left. lia. }
  revert Hr. generalize w1. change (triple (working r) (set_resource r;;; ret (mkAllocation h (j_gpu_type j) (fr_tags r))) (fun _ => kept) (fun _ => kept)).
  eapply (triple_bind _ _ _ (fun _ => kept)); [by apply put_resource|intros; by apply triple_ret].
Qed.
End Kept.

Lemma kept_fst {A} seen (m : M FakeWorld exn A) w : keeps (kept seen) m -> kept seen w -> kept seen (fst (m w)).
Proof. intros Hm Hw. specialize (Hm w Hw). by destruct (m w) as [w' []]. Qed.

(** ** Reachable worlds *)

(** One call of the broker, of the shared state or of a test's hook; a call that
    raises is a step too. *)
Inductive fake_step : FakeWorld -> FakeWorld -> Prop :=
| FS_launch j t w : no_slash (j_job_id j) = true -> fake_step w (fst (launch fb j t w))
| FS_poll h t w : representable t -> fake_step w (fst (poll fb h t w))
| FS_logs h after t w : fake_step w (fst (fetch_logs h after t w))
| FS_terminate h reason t w : fake_step w (fst (terminate h reason t w))
| FS_list t w : representable t -> fake_step w (fst (list_resources fb t w))
| FS_interrupt h t w : representable t -> fake_step w (fst (interrupt fb h t w))
| FS_orphan h w : fake_step w (fst (orphan h w))
| FS_utilization job x w : fake_step w (fst (set_utilization job x w))
| FS_leak job user gpu t w : fake_step w (fst (leak fb job user gpu t w)).

Lemma fake_step_kept seen w w' : fake_step w w' -> kept seen w -> kept seen w'.
Proof.
  intros [] Hw; (apply kept_fst; [|done]);
    eauto using launch_kept, poll_kept, fetch_logs_kept, terminate_kept, list_resources_kept, interrupt_kept,
      orphan_kept, set_utilization_kept, leak_kept.
Qed.

Lemma fake_steps_kept seen w w' : rtc fake_step w w' -> kept seen w -> kept seen w'.
Proof. induction 1; eauto using fake_step_kept. Qed.

(** A poll that answers completed leaves the last step on disk. *)
Lemma poll_completed seen h t w w' r ob : kept seen w -> dict_get h (fw_resources w) = Some r ->
  0 < fr_total_steps r -> representable t -> poll fb h t w = (w', Ok ob) -> ob_status ob = B_COMPLETED ->
  exists s, fr_total_steps r <= s < 10 ^ 12 /\ has_step (fw_disk w') (fr_job_id r) s.
Proof.
  intros Hw Hr Ht Hat Hrun Hob. pose proof (resource_found seen h w r Hw Hr) as Hwr.
  unfold poll, resource in Hrun. unfold gets, bind at 1 in Hrun. rewrite Hr in Hrun. cbv zeta in Hrun.
  destruct (fr_terminated r); [injection Hrun as _ <-; discriminate Hob|].
  destruct (f_lt _ (fr_ready_at r)); [injection Hrun as _ <-; discriminate Hob|].
  destruct (f_lt _ (fr_finish_at r)); inv_ok; cbn in Hob; [discriminate Hob|].
  rewrite Hob, (proj2 (Z.ltb_lt 0 _) Ht), bool_decide_true in * by done. cbn [andb] in *. inv_ok.
  pose proof Hwr as [_ [?|(_ & Hs & _)]]; [lia|].
  match goal with H : save _ _ _ _ _ = (?x, Ok ?r') |- _ =>
    pose proof (save_kept seen r (fr_total_steps r) t Ht ltac:(lia) Hat w Hwr) as H'; rewrite H in H' end.
  apply H'.
Qed.
End Accumulator.

(** C20: simulated work is counted once.  Start from an empty store; launch,
    poll, interrupt, terminate, lose and relaunch in any order; when an attempt
    of a job with [total_steps = n > 0] is seen to complete, the value of the
    job's newest checkpoint is the sum of the steps [0 .. n - 1], and stays so
    whatever happens next. *)
Theorem accumulator_exact fb root w0 w1 w2 w3 h t r ob :
  fb_checkpoints fb = Some root -> fw_resources w0 = [] -> d_root (fw_disk w0) = ∅ ->
  (forall job, pn_total_steps (plan_for job w0) < 10 ^ 12) ->
  rtc (fake_step fb) w0 w1 ->
  dict_get h (fw_resources w1) = Some r -> 0 < fr_total_steps r -> no_slash (fr_job_id r) = true ->
  representable t -> poll fb h t w1 = (w2, Ok ob) -> ob_status ob = B_COMPLETED ->
  rtc (fake_step fb) w2 w3 ->
  let n := pn_total_steps (plan_for (fr_job_id r) w0) in
  exists v, final_value fb (fr_job_id r) w3 = (w3, Ok (Some v)) /\ 2 * v = n * (n - 1).
Proof.
  intros Hroot Hres Hdisk Hbig H01 Hr Hpos Hj Hat Hrun Hob H23 n.
  set (total := fun job => pn_total_steps (plan_for job w0)).
  assert (H0 : forall seen, (forall j s, ~ seen j s) -> kept total seen w0).
  { intros seen Hs. split; [constructor; [|done|by rewrite Hres]|by intros ?? ?%Hs].
    intros j name fs. unfold entry_of. by rewrite Hdisk, lookup_empty. }
  pose proof (fake_steps_kept fb root Hroot total Hbig _ _ _ H01 (H0 (fun _ _ => False) ltac:(tauto))) as H1.
  destruct (poll_completed fb root Hroot total Hbig _ h t w1 w2 r ob H1 Hr Hpos Hat Hrun Hob) as (s & Hs & Hhas).
  assert (H2 : kept total (has_step (fw_disk w2)) w2).
  { split; [|done]. pose proof (kept_fst total _ _ w1 (poll_kept fb root Hroot total Hbig _ h t Hat) H1) as H2.
    rewrite Hrun in H2. apply H2. }
  pose proof (fake_steps_kept fb root Hroot total Hbig _ _ _ H23 H2) as [H3 Hkeep].
  assert (Hn : fr_total_steps r = n).
  { destruct (fo_resources _ _ (proj1 H1) _ _ Hr) as [_ [?|[E _]]]; [lia|exact E]. }
  destruct (final_value_spec fb root Hroot total Hbig w3 (fr_job_id r) H3 Hj) as [[_ Hno]|(step & -> & Hstep & Hmax)].
  - exfalso. eapply Hno, Hkeep, Hhas.
  - eexists. split; [done|]. specialize (Hmax s ltac:(lia) (Hkeep _ _ Hhas)).
    change (total (fr_job_id r)) with n in Hstep. replace step with n by lia. apply sum_range_formula. lia.
Qed.

(** ** A run *)

Definition minutes (n : Z) : Z := noon + n * us_per_minute.

Definition sim : FakeBackend :=
  mkFakeBackend "fake" "spot" USD {["t4" := 1]} (f_of_Z 60) (Some "/ck").

Definition sim_start : FakeWorld :=
  mkFakeWorld [] 0 {["job-1" := mkPlan (Some (f_of_Z 1)) B_COMPLETED 0 None None 10 3]} ∅ (mkDisk ∅ []).

(** A first attempt saves step 3, is interrupted at step 7, and a second begins. *)
Definition sim_going : FakeWorld :=
  fst (poll sim "fake-0001" (minutes 30) (fst (launch sim job1 noon sim_start))).
Definition sim_first : FakeWorld := fst (interrupt sim "fake-0001" (minutes 45) sim_going).
Definition sim_run : FakeWorld := fst (launch sim job1 (minutes 60) sim_first).

Example sim_resumes : map (fun kv => (fst kv, fr_start_step (snd kv), fr_start_value (snd kv), fr_last_saved_step (snd kv)))
  (fw_resources sim_run) = [("fake-0001", 0, 0, 7); ("fake-0002", 7, 21, -1)].
Proof. by vm_compute. Qed.

Lemma steps_done_bounds_witness : match dict_get "fake-0001" (fw_resources sim_going) with
  | Some r => steps_done r (minutes 45) = Ok 7 /\ fr_start_step r <= 7 <= fr_total_steps r
  | None => False
  end.
Proof.
  destruct (dict_get "fake-0001" (fw_resources sim_going)) as [r|] eqn:E; [|by vm_compute in E].
  vm_compute in E. injection E as <-. match goal with |- steps_done ?r _ = _ /\ _ => set (x := r) end.
  assert (H : steps_done x (minutes 45) = Ok 7) by (vm_compute; reflexivity). split; [exact H|].
  pose proof (steps_done_bounds x (minutes 45) ltac:(reflexivity) ltac:(split; discriminate)) as B. rewrite H in B. exact B.
Defined.

Lemma accumulator_exact_witness : exists v,
  snd (final_value sim "job-1" (fst (poll sim "fake-0002" (minutes 180) sim_run))) = Ok (Some v) /\ 2 * v = 10 * (10 - 1).
Proof.
  destruct (dict_get "fake-0002" (fw_resources sim_run)) as [r|] eqn:E; [|by vm_compute in E].
  assert (Hr : fr_job_id r = "job-1" /\ fr_total_steps r = 10).
  { apply (f_equal (option_map (fun r => (fr_job_id r, fr_total_steps r)))) in E. vm_compute in E. by injection E. }
  destruct (poll sim "fake-0002" (minutes 180) sim_run) as [w2 o] eqn:Ep.
  assert (Ho : exists ob, o = Ok ob /\ ob_status ob = B_COMPLETED).
  { apply (f_equal snd) in Ep. vm_compute in Ep. clear -Ep. subst o. eexists. split; reflexivity. }
  destruct Ho as (ob & -> & Hob), Hr as [Ej Et].
  assert (Hb : forall job, pn_total_steps (plan_for job sim_start) < 10 ^ 12).
  { intros job. unfold plan_for, sim_start. cbn [fw_plans]. destruct (decide (job = "job-1")) as [->|Hne].
    - by rewrite lookup_singleton_eq.
    - by rewrite lookup_singleton_ne by done. }
  assert (Hday : forall n, 0 <= n <= 1000 -> representable (minutes n)).
  { intros n Hn. unfold representable, minutes. destruct calendar_ends as (-> & -> & _). change noon with 1768478400000000. change us_per_minute with 60000000. change us_per_day with 86400000000. lia. }
  assert (Hsteps : rtc (fake_step sim) sim_start sim_run).
  { unfold sim_run, sim_first, sim_going. eapply rtc_r; [|by apply FS_launch]. eapply rtc_r; [|apply FS_interrupt, Hday; lia].
    eapply rtc_r; [|apply FS_poll, Hday; lia]. apply rtc_once. by apply FS_launch. }
  destruct (accumulator_exact sim "/ck" sim_start sim_run w2 w2 "fake-0002" (minutes 180) r ob eq_refl eq_refl eq_refl Hb Hsteps E
    ltac:(lia) ltac:(by rewrite Ej) (Hday 180 ltac:(lia)) Ep Hob (rtc_refl _ _)) as (v & Hv & E2).
  rewrite Ej in Hv, E2. exists v. cbn [fst]. rewrite Hv. clear Hsteps Ep E. assert (pn_total_steps (plan_for "job-1" sim_start) = 10) as En by (vm_compute; reflexivity). rewrite En in E2. split; [reflexivity|exact E2].
Defined.
