(* ===== verification/Placement.v ===== *)
(** * placement.py: which capacity a job lands on, and why *)

From S2P Require Import Prelude PyFloat PyDecimal PyFormat PySort Errors Money Clock States Models Config Tables Store StoreInv StoreSafe Backend.
Local Open Scope Z_scope.
Local Open Scope py_scope.

Definition DEFAULT_ORDER : list string := ["local"; "spot"; "ondemand"].

(** [sorted({...})] *)
Definition sorted_set (l : list string) : list string := py_sort str_lt (remove_dups l).

Record Placement (W : Type) := mkPlacement {
  pl_backend : option (Backend W);
  pl_tier : option string;
  pl_reason : string;
  pl_skipped : list (string * string)
}.
Arguments mkPlacement {W} _ _ _ _.
Arguments pl_backend {W} _.
Arguments pl_tier {W} _.
Arguments pl_reason {W} _.
Arguments pl_skipped {W} _.

Section Placement.
Context {W : Type} (config : BrokerConfig).

Abbreviation M := (M (St W) exn).

(** [Placement.placed] *)
Definition placed (p : Placement W) : bool := match pl_backend p with Some _ => true | None => false end.

Definition explain (p : Placement W) : string :=
  str_join "
" (pl_reason p :: map (fun nw => "  skipped " +:+ fst nw +:+ ": " +:+ snd nw) (pl_skipped p)).

Definition one_line (p : Placement W) : string :=
  match pl_backend p with
  | Some b =>
      let skipped := str_join "; " (map (fun nw => fst nw +:+ " (" +:+ snd nw +:+ ")") (pl_skipped p)) in
      "placed on " +:+ b_name b +:+ " [" +:+ default "None" (pl_tier p) +:+ "]: " +:+ pl_reason p
      +:+ (if truthy (Some skipped) then " -- after " +:+ skipped else "")
  | None => "not placed: " +:+ pl_reason p
  end.

(** The tail of a list from the first occurrence of [x]: [l[l.index(x):]] *)
Fixpoint from_index (x : string) (l : list string) : list string :=
  match l with
  | [] => []
  | y :: l' => if String.eqb y x then l else from_index x l'
  end.

(** [config.placement_order or DEFAULT_ORDER] *)
Definition policy_order : list string :=
  match placement_order config with [] => DEFAULT_ORDER | o => o end.

(** The tiers a job may use, in order. *)
Definition order_for (j : Job) : list string :=
  match j_pinned_tier j with
  | Some (String a s) =>
      let pin := String a s in
      if bool_decide (pin ∈ policy_order) then from_index pin policy_order else [pin]
  | _ => policy_order
  end.

Definition in_tier (backends : list (Backend W)) (tier : string) : list (Backend W) :=
  List.filter (fun b => String.eqb (tier_of b) tier) backends.

(** The inner loop: the backends of one tier.  [inr] is the early [return]. *)
Fixpoint try_backends (j : Job) (g : GpuType) (tier : string) (bs : list (Backend W))
    (skipped : list (string * string)) : M (list (string * string) + Placement W) :=
  match bs with
  | [] => ret (inl skipped)
  | b :: bs' =>
      if negb (bool_decide (b_currency b = gt_currency g)) then
        try_backends j g tier bs' (skipped ++ [(b_name b,
          "bills in " +:+ currency_str (b_currency b) +:+ ", " +:+ j_gpu_type j
          +:+ " is priced in " +:+ currency_str (gt_currency g))])
      else
        supported <- call (b_supports b (j_gpu_type j));;
        if negb supported then
          try_backends j g tier bs' (skipped ++ [(b_name b, "has no " +:+ j_gpu_type j)])
        else
          free <- call (b_free_slots b (j_gpu_type j));;
          if free <=? 0 then
            try_backends j g tier bs' (skipped ++ [(b_name b, "no free " +:+ j_gpu_type j +:+ " right now")])
          else ret (inr (mkPlacement (Some b) (Some tier)
            ("first tier in the policy with a free " +:+ j_gpu_type j +:+ " (" +:+ str_of_Z free
             +:+ " slot" +:+ (if free =? 1 then "" else "s") +:+ " available)") skipped))
  end.

(** The outer loop: the tiers in order. *)
Fixpoint try_tiers (j : Job) (g : GpuType) (backends : list (Backend W)) (order : list string)
    (skipped : list (string * string)) : M (list (string * string) + Placement W) :=
  match order with
  | [] => ret (inl skipped)
  | tier :: order' =>
      r <- try_backends j g tier (in_tier backends tier) skipped;;
      match r with
      | inl skipped' => try_tiers j g backends order' skipped'
      | inr p => ret (inr p)
      end
  end.

Definition choose (j : Job) (backends : list (Backend W)) : M (Placement W) :=
  g <- lift_outcome (gpu config (j_gpu_type j));;
  let order := order_for j in
  let unknown := List.filter (fun t => match in_tier backends t with [] => true | _ => false end) order in
  r <- try_tiers j g backends order [];;
  match r with
  | inr p => ret p
  | inl skipped =>
      match unknown, skipped with
      | _ :: _, [] => ret (mkPlacement None None
          ("no backend is in any configured tier. placement_order is " +:+ repr_list order
           +:+ " and the tiers present are " +:+ repr_list (sorted_set (map tier_of backends))) [])
      | _, _ => ret (mkPlacement None None
          ("nothing has a free " +:+ j_gpu_type j +:+ " right now") skipped)
      end
  end.

Definition validate_order (order : list string) (backends : list (Backend W)) : outcome exn unit :=
  let missing := sorted_set (List.filter (fun t => negb (bool_decide (t ∈ order))) (map tier_of backends)) in
  match missing with
  | [] => Ok tt
  | _ => Raise (BrokerError ("backends exist in tiers " +:+ repr_list missing
      +:+ " but placement_order is " +:+ repr_list order +:+ ", so they would never be used"))
  end.

(** ** Specification: the first backend that fits *)

(** A backend that answers queries without side effects and without raising. *)
Class Answers (b : Backend W) : Prop := {
  ans_supports : forall g t w, exists a, b_supports b g t w = (w, Ok a);
  ans_free_slots : forall g t w, exists n, b_free_slots b g t w = (w, Ok n)
}.

Definition answer {A} (m : method W A) (s : St W) : outcome exn A := snd (m (clock s) (world s)).

(** Does this backend have room for the job, at [s]? *)
Definition fits (s : St W) (g : GpuType) (j : Job) (b : Backend W) : bool :=
  bool_decide (b_currency b = gt_currency g) &&
  match answer (b_supports b (j_gpu_type j)) s with Ok a => a | Raise _ => false end &&
  match answer (b_free_slots b (j_gpu_type j)) s with Ok n => 0 <? n | Raise _ => false end.

(** The candidates in the order the policy considers them. *)
Definition candidates (order : list string) (backends : list (Backend W)) : list (string * Backend W) :=
  concat (map (fun t => map (fun b => (t, b)) (in_tier backends t)) order).

Definition first_fit (s : St W) (g : GpuType) (j : Job) (backends : list (Backend W))
  : option (string * Backend W) :=
  List.find (fun tb => fits s g j (snd tb)) (candidates (order_for j) backends).

Definition placed_at (p : Placement W) : option (string * Backend W) :=
  match pl_tier p, pl_backend p with Some t, Some b => Some (t, b) | _, _ => None end.

Lemma try_backends_spec j g tier bs skipped s :
  Forall Answers bs ->
  exists r, try_backends j g tier bs skipped s = (s, Ok r) /\
  match r with
  | inl _ => List.find (fits s g j) bs = None
  | inr p => exists b, List.find (fits s g j) bs = Some b /\ placed_at p = Some (tier, b)
  end.
Proof.
  intros Ha. revert skipped. induction Ha as [|b bs Hb Ha IH]; intros skipped; cbn; [by eexists|].
  unfold fits at 1 3. case_bool_decide as Hc; cbn; [|apply IH].
  destruct (ans_supports (j_gpu_type j) (clock s) (world s)) as [sup Hs].
  unfold bind, answer. rewrite (call_answers _ _ _ Hs), Hs. cbn.
  destruct sup; cbn; [|apply IH].
  destruct (ans_free_slots (j_gpu_type j) (clock s) (world s)) as [n Hn].
  rewrite (call_answers _ _ _ Hn), Hn. cbn.
  destruct (Z.leb_spec n 0), (Z.ltb_spec 0 n); try lia; [apply IH|].
  eexists. split; [done|]. by exists b.
Qed.

Lemma find_app {A} (f : A -> bool) l1 l2 :
  List.find f (l1 ++ l2) = match List.find f l1 with Some x => Some x | None => List.find f l2 end.
Proof. induction l1 as [|x l1 IH]; cbn; [done|]. by destruct (f x). Qed.

Lemma find_pair {A B} (f : B -> bool) (t : A) l :
  List.find (fun p => f (snd p)) (map (fun b => (t, b)) l) = option_map (fun b => (t, b)) (List.find f l).
Proof. induction l as [|x l IH]; cbn; [done|]. by destruct (f x). Qed.

Lemma try_tiers_spec j g backends order skipped s :
  Forall Answers backends ->
  exists r, try_tiers j g backends order skipped s = (s, Ok r) /\
  match r with
  | inl _ => List.find (fun tb => fits s g j (snd tb)) (candidates order backends) = None
  | inr p => List.find (fun tb => fits s g j (snd tb)) (candidates order backends) = placed_at p
             /\ placed p = true
  end.
Proof.
  intros Ha. revert skipped. induction order as [|t order IH]; intros skipped; cbn; [by eexists|].
  unfold candidates. cbn. rewrite find_app, find_pair. unfold bind.
  destruct (try_backends_spec j g t (in_tier backends t) skipped s) as (r & -> & Hr).
  { apply Forall_forall. intros b Hb. apply list_elem_of_In, List.filter_In in Hb as [Hb _].
    eapply Forall_forall in Ha; [exact Ha|]. by apply list_elem_of_In. }
  destruct r as [sk|p].
  - rewrite Hr. cbn. apply IH.
  - destruct Hr as (b & -> & Hp). eexists. split; [done|]. cbn. rewrite Hp. split; [done|].
    unfold placed_at in Hp. unfold placed. by destruct (pl_tier p), (pl_backend p).
Qed.

(** A job is placed on the first backend, in the order of its tiers and then
    of the configuration, that bills in its currency, offers its GPU type and has
    a free slot; and nowhere when there is none. *)
Theorem choose_first_fit j g backends (s : St W) :
  gpu config (j_gpu_type j) = Ok g -> Forall Answers backends ->
  exists p, choose j backends s = (s, Ok p) /\ placed_at p = first_fit s g j backends.
Proof.
  intros Hg Ha. unfold choose, bind, lift_outcome. rewrite Hg.
  destruct (try_tiers_spec j g backends (order_for j) [] s Ha) as (r & -> & Hr).
  unfold first_fit. destruct r as [sk|p].
  - rewrite Hr. destruct (List.filter _ _), sk; by eexists.
  - exists p. split; [done|]. by destruct Hr.
Qed.

Lemma elem_of_from_index x t l : t ∈ from_index x l -> t ∈ l.
Proof.
  induction l as [|y l IH]; cbn; [done|]. destruct (String.eqb y x); [done|].
  intros H. right. by apply IH.
Qed.

(** What [choose] promises whatever the backends do: a placement names a listed
    backend of one of the job's tiers and of the right currency. *)
Lemma try_backends_in j g tier bs skipped s s' p :
  try_backends j g tier bs skipped s = (s', Ok (inr p)) ->
  exists b, b ∈ bs /\ pl_backend p = Some b /\ pl_tier p = Some tier /\ b_currency b = gt_currency g.
Proof.
  revert skipped s. induction bs as [|b bs IH]; intros skipped s; cbn; [by intros [=]|].
  case_bool_decide as Hc; cbn.
  - intros H. apply bind_ok in H as (s1 & sup & _ & H). destruct sup; cbn in H.
    + apply bind_ok in H as (s2 & n & _ & H). destruct (n <=? 0).
      * destruct (IH _ _ H) as (b' & ? & ?). exists b'. split; [by right|done].
      * injection H as <- <-. exists b. split; [left|done].
    + destruct (IH _ _ H) as (b' & ? & ?). exists b'. split; [by right|done].
  - intros H. destruct (IH _ _ H) as (b' & ? & ?). exists b'. split; [by right|done].
Qed.

Lemma try_tiers_in j g backends order skipped s s' p :
  try_tiers j g backends order skipped s = (s', Ok (inr p)) ->
  exists b t, b ∈ backends /\ t ∈ order /\ tier_of b = t /\ pl_backend p = Some b /\
    b_currency b = gt_currency g.
Proof.
  revert skipped s. induction order as [|t order IH]; intros skipped s; cbn; [by intros [=]|].
  intros H. apply bind_ok in H as (s1 & r & H1 & H2). destruct r as [sk|q].
  - destruct (IH _ _ H2) as (b & t' & ? & ? & ?). exists b, t'. split_and!; try done; [by right|naive_solver..].
  - injection H2 as <- <-. apply try_backends_in in H1 as (b & Hb & Hp & _ & Hc).
    apply list_elem_of_In, List.filter_In in Hb as [Hb Ht%String.eqb_eq].
    exists b, t. split_and!; try done; [by apply list_elem_of_In|left].
Qed.

Lemma choose_in j backends s s' p b :
  choose j backends s = (s', Ok p) -> pl_backend p = Some b ->
  b ∈ backends /\ tier_of b ∈ order_for j /\
  exists g, gpu config (j_gpu_type j) = Ok g /\ b_currency b = gt_currency g.
Proof.
  unfold choose. intros H Hp. apply bind_ok in H as (s1 & g & Hg & H).
  injection Hg as <- Hg. apply bind_ok in H as (s2 & r & Hr & H). destruct r as [sk|q].
  - destruct (List.filter _ _), sk; injection H as <- <-; done.
  - injection H as <- <-. apply try_tiers_in in Hr as (b' & t & ? & ? & <- & Hb & ?).
    assert (b' = b) as -> by congruence. split_and!; try done. by exists g.
Qed.

Lemma reads_choose j backends : Forall Looking backends -> reads (choose j backends).
Proof.
  intros Hl. unfold choose. apply reads_bind; [apply reads_lift|]. intros g.
  apply reads_bind; [|intros [sk|p]; [destruct (List.filter _ _), sk|]; apply reads_ret].
  assert (Hb : forall t bs sk, bs ⊆ backends -> reads (try_backends j g t bs sk)).
  { intros t. induction bs as [|b bs IH]; intros sk Hsub; cbn; [apply reads_ret|].
    assert (Looking b) as Hlb by (eapply Forall_forall in Hl; [exact Hl|set_solver]).
    case_match; [apply IH; set_solver|].
    apply reads_bind; [apply call_quiet, look_supports|]. intros a.
    case_match; [apply IH; set_solver|].
    apply reads_bind; [apply call_quiet, look_free_slots|]. intros n.
    case_match; [apply IH; set_solver|apply reads_ret]. }
  generalize (@nil (string * string)). induction (order_for j) as [|t order IH]; intros sk; cbn;
    [apply reads_ret|].
  apply reads_bind; [|intros [sk'|p]; [apply IH|apply reads_ret]].
  apply Hb. intros b Hin. apply list_elem_of_In, List.filter_In in Hin as [Hin _].
  by apply list_elem_of_In.
Qed.

Lemma safe_choose js j backends : safe (W := W) js (choose j backends) none.
Proof.
  unfold choose. apply safe_read; [apply reads_lift|]. intros g.
  assert (Hb : forall t bs sk, safe (W := W) js (try_backends j g t bs sk) none).
  { intros t. induction bs as [|b bs IH]; intros sk; cbn; [apply safe_ret_none|].
    case_match; [apply IH|]. apply safe_then; [apply safe_call|]. intros a.
    case_match; [apply IH|]. apply safe_then; [apply safe_call|]. intros n.
    case_match; [apply IH|apply safe_ret_none]. }
  apply safe_then; [|intros [sk|p]; [destruct (List.filter _ _), sk|]; apply safe_ret_none].
  generalize (@nil (string * string)). induction (order_for j) as [|t order IH]; intros sk; cbn;
    [apply safe_ret_none|].
  apply safe_then; [apply Hb|]. intros [sk'|p]; [apply IH|apply safe_ret_none].
Qed.
End Placement.

#[export] Hint Resolve safe_choose : safe.
