(* ===== verification/Gce.v ===== *)
(** * backends/gce.py: Google Compute Engine instances over SSH

    The SDK is not in the repository: its calls are a record over a world [C], a
    failed call gives the text of its exception, and what the code reads of an
    instance is a record with an option where [_field] has a default.  [HostSpec]
    and the transport are those of [Hosts].  [gce] is the instance of the [Backend]
    protocol; the handle of an instance is its name. *)

From Stdlib Require Import Ascii.
From S2P Require Import Prelude PyFloat PyFormat PySort PyDict Errors Money Clock PyJson PyText States Models Config Tables Store StoreInv StoreSafe Backend Placement Commands Hosts.
Local Open Scope Z_scope.
Local Open Scope py_scope.

(** ** Settings *)

Record GceConfig := mkGceConfig {
  gc_project : string;
  gc_zone : string;
  gc_boot_image : string;
  gc_network : string;
  gc_subnetwork : string;
  gc_external_ip : bool;
  gc_service_account : string;
  gc_service_account_scopes : list string;
  gc_ssh_username : string;
  gc_ssh_private_key : string;
  gc_known_hosts : string;
  gc_ssh_timeout_seconds : float;
  gc_machine_types : dict string string;
  gc_accelerator_types : dict string string;
  gc_accelerator_counts : dict string Z;
  gc_max_instances : dict string Z
}.

(** [GceConfig()] *)
Definition default_gce : GceConfig :=
  mkGceConfig "" "us-central1-a" "" "global/networks/default" "" false ""
    ["https://www.googleapis.com/auth/cloud-platform"] "gpu-broker" "" "" (f_of_Z 30) [] [] [] [].

(** [sorted(set(a) - set(b))] *)
Definition missing_keys {A B} (a : dict string A) (b : dict string B) : list string :=
  py_sort str_lt (remove_dups (List.filter (fun k => bool_decide (dict_get k b = None)) (map fst a))).

Definition when_ (guard : bool) (message : string) : outcome exn unit :=
  if guard then Raise (ConfigError message) else Ok tt.

(** [GceConfig.require_launchable()]; the limits and counts are integers, as declared. *)
Definition require_launchable (c : GceConfig) : outcome exn unit :=
  let missing := map fst (List.filter (fun p => negb (non_empty (snd p)))
    [("gce.project", gc_project c); ("gce.boot_image", gc_boot_image c);
     ("gce.ssh_private_key", gc_ssh_private_key c); ("gce.known_hosts", gc_known_hosts c)]) in
  let empty_value (d : dict string string) := existsb (fun p => negb (non_empty (snd p))) d in
  _ <-? when_ (match missing with [] => false | _ => true end)
         ("cannot launch GCE: " +:+ str_join ", " missing +:+ " must be set");;
  _ <-? when_ (match gc_machine_types c with [] => true | _ => false end)
         "cannot launch GCE: gce.machine_types must map at least one GPU type";;
  let limits := missing_keys (gc_machine_types c) (gc_max_instances c) in
  _ <-? when_ (match limits with [] => false | _ => true end)
         ("gce.max_instances is missing " +:+ str_join ", " limits);;
  let accelerators := missing_keys (gc_machine_types c) (gc_accelerator_types c) in
  _ <-? when_ (match accelerators with [] => false | _ => true end)
         ("gce.accelerator_types is missing " +:+ str_join ", " accelerators);;
  _ <-? when_ (empty_value (gc_machine_types c)) "gce.machine_types values cannot be empty";;
  _ <-? when_ (empty_value (gc_accelerator_types c)) "gce.accelerator_types values cannot be empty";;
  _ <-? when_ (existsb (fun p => snd p <? 0) (gc_max_instances c))
         "gce.max_instances values must be non-negative integers";;
  when_ (existsb (fun p => snd p <? 1) (gc_accelerator_counts c))
    "gce.accelerator_counts values must be positive integers".

(** ** Names *)

(** [re.sub(r"[^a-z0-9_-]", "-", value)] *)
Definition is_label_char (c : ascii) : bool :=
  let n := nat_of_ascii c in
  ((97 <=? n) && (n <=? 122) || (48 <=? n) && (n <=? 57) || (n =? 95) || (n =? 45))%nat.

Fixpoint dashed (s : string) : string :=
  match s with
  | EmptyString => ""
  | String c s' => String (if is_label_char c then c else "-"%char) (dashed s')
  end.

(** [s.lstrip("-_")], [s.rstrip("-_")] *)
Definition is_dash (c : ascii) : bool := Ascii.eqb c "-" || Ascii.eqb c "_".

Fixpoint lstrip_dash (s : string) : string :=
  match s with
  | EmptyString => ""
  | String c s' => if is_dash c then lstrip_dash s' else s
  end.

Fixpoint rstrip_dash (s : string) : string :=
  match s with
  | EmptyString => ""
  | String c s' => match rstrip_dash s' with
                   | EmptyString => if is_dash c then "" else String c ""
                   | r => String c r
                   end
  end.

(** [c.isalpha()], of what [dashed] leaves *)
Definition is_lower_char (c : ascii) : bool := let n := nat_of_ascii c in ((97 <=? n) && (n <=? 122))%nat.
Definition starts_alpha (s : string) : bool := match s with String c _ => is_lower_char c | EmptyString => false end.

(** [_label(value)] *)
Definition label (value : string) : string :=
  let value := rstrip_dash (lstrip_dash (dashed (str_lower value))) in
  str_take 63 (if starts_alpha value then value else "x-" +:+ value).

Definition is_id_char (c : ascii) : bool :=
  let n := nat_of_ascii c in
  ((65 <=? n) && (n <=? 90) || (97 <=? n) && (n <=? 122) || (48 <=? n) && (n <=? 57) || (n =? 45))%nat.

(** [_safe_id(value)] *)
Definition safe_id (value : string) : outcome exn string :=
  if str_forall is_id_char value && non_empty value && (String.length value <=? 63)%nat then Ok value
  else Raise (ConfigError "job id must contain only letters, digits, and hyphens for GCE").

(** [_instance_name(job_id)] *)
Definition instance_name (job_id : string) : outcome exn string :=
  safe <-? safe_id job_id;;
  let safe := str_lower safe in
  if (52 <? String.length safe)%nat then Raise (ConfigError "job id is too long for a GCE instance name")
  else Ok ("gpu-broker-" +:+ safe).

(** [now.strftime("%Y%m%d%H%M%S")] *)
Definition stamp (moment : Z) : string :=
  let '(y, m, d) := civil_of_days (moment / us_per_day) in
  let us := moment mod us_per_day in
  str_of_Z y +:+ pad0 2 m +:+ pad0 2 d +:+ pad0 2 (us / us_per_hour)
  +:+ pad0 2 (us / us_per_minute mod 60) +:+ pad0 2 (us / us_per_second mod 60).

(** ** What the SDK is given and gives *)

Record Interface := mkInterface {
  if_access : list (option string);
  if_address : option string
}.

Record GceInstance := mkGceInstance {
  gi_vm_name : option string;
  gi_status : option string;
  gi_labels : option (gmap string string);
  gi_metadata : option (list (option string * option string));
  gi_interfaces : option (list Interface)
}.

(** The request of an insertion; the parts that are constants are left out. *)
Record InsertRequest := mkInsertRequest {
  ir_name : string;
  ir_machine_type : string;
  ir_accelerator : string;
  ir_accelerator_count : Z;
  ir_on_host_maintenance : string;
  ir_automatic_restart : bool;
  ir_labels : gmap string string;
  ir_metadata : list (string * string);
  ir_source_image : string;
  ir_network : string;
  ir_subnetwork : option string;
  ir_external : bool;
  ir_service_account : option (string * list string)
}.

Record GceClient (C : Type) := mkGceClient {
  vm_insert : string -> string -> InsertRequest -> M C string unit;
  vm_get : string -> string -> string -> M C string GceInstance;
  vm_delete : string -> string -> string -> M C string unit;
  vm_list : string -> string -> string -> M C string (list GceInstance)
}.
Arguments vm_insert {C}. Arguments vm_get {C}. Arguments vm_delete {C}. Arguments vm_list {C}.

Record GceBackend (C T : Type) := mkGceBackend {
  gb_config : GceConfig;
  gb_instances : GceClient C;
  gb_transport : Transport T
}.
Arguments gb_config {C T}. Arguments gb_instances {C T}. Arguments gb_transport {C T}.

(** The cloud, the hosts, and what the object keeps: the logs of deleted instances. *)
Record GceWorld (C T : Type) := mkGceWorld {
  gw_cloud : C;
  gw_hosts : T;
  gw_deleted_logs : gmap string (list (string * string))
}.
Arguments mkGceWorld {C T}. Arguments gw_cloud {C T}. Arguments gw_hosts {C T}. Arguments gw_deleted_logs {C T}.

(** [_labels(instance)], [_metadata(instance)] *)
Definition labels_of (i : GceInstance) : gmap string string := default ∅ (gi_labels i).
Definition metadata_of (i : GceInstance) : gmap string string :=
  fold_left (fun m p => <[default "" (fst p) := default "" (snd p)]> m) (default [] (gi_metadata i)) ∅.

Definition stopped : list string := ["DELETING"; "TERMINATED"; "STOPPING"; "STOPPED"].

(** ["notFound" in text], ["404" in text] *)
Fixpoint has_text (needle s : string) : bool :=
  starts_with needle s || match s with EmptyString => false | String _ s' => has_text needle s' end.

Definition not_found (text : string) : bool := has_text "notFound" text || has_text "404" text.

(** What [_get] gives for an instance that is not there. *)
Definition departed (handle : string) : GceInstance :=
  mkGceInstance (Some handle) (Some "TERMINATED") (Some ∅) None None.

Definition job_root (job_id : string) : string := "/tmp/gpu-broker/jobs/" +:+ job_id.

(** ** The scripts *)

Definition runner (root : string) : string :=
  let command_file := root +:+ "/command.sh" in
  let status_file := root +:+ "/exit-code" in
  let temporary := quote (status_file +:+ ".tmp") in
  "bash " +:+ quote command_file +:+ "; rc=$?; "
  +:+ "printf '%s\n' " +:+ dq +:+ "$rc" +:+ dq +:+ " > " +:+ temporary +:+ " && "
  +:+ "mv " +:+ temporary +:+ " " +:+ quote status_file.

Definition start_script (root command : string) : string :=
  let command_file := root +:+ "/command.sh" in
  let output_file := root +:+ "/output.log" in
  let started := quote (root +:+ "/started") in
  "mkdir -p " +:+ quote root +:+ " || exit; "
  +:+ "if mkdir " +:+ started +:+ " 2>/dev/null; then "
  +:+ "if ! printf '%s\n' " +:+ quote command +:+ " > " +:+ quote command_file +:+ "; then "
  +:+ "rmdir " +:+ started +:+ "; exit 1; fi; "
  +:+ "nohup bash -lc " +:+ quote (runner root) +:+ " >> " +:+ quote output_file +:+ " 2>&1 </dev/null & "
  +:+ "else test -d " +:+ started +:+ "; fi".

Definition poll_script (root : string) : string :=
  let exit_code := quote (root +:+ "/exit-code") in
  "if test -f " +:+ exit_code +:+ "; then cat " +:+ exit_code +:+ "; elif test -d "
  +:+ quote (root +:+ "/started") +:+ "; then echo RUNNING; else echo READY; fi".

Definition logs_script (root : string) (after : nat) : string :=
  let output := quote (root +:+ "/output.log") in
  "if test -f " +:+ output +:+ "; then awk 'NR > " +:+ str_of_Z (Z.of_nat after) +:+ "' " +:+ output +:+ "; fi".

Definition sample_script : string :=
  "date +%s; nvidia-smi --query-gpu=utilization.gpu,memory.used --format=csv,noheader,nounits".

(** What the answer of [sample_script] is read as. *)
Definition read_sample (stdout : string) : outcome exn UtilizationSample :=
  let unsupported := BackendError "GCE nvidia-smi returned an unsupported response" in
  match splitlines stdout with
  | first :: second :: _ =>
      match float_text first, partition_char "," second with
      | Some at_, Some (utilization, memory) =>
          match int_text (strip utilization), int_text (strip memory) with
          | Some u, Some m => Ok (mkUtilizationSample at_ (f_of_Z u) m)
          | _, _ => Raise unsupported
          end
      | _, _ => Raise unsupported
      end
  | _ => Raise unsupported
  end.

(** ** The object *)

Section Gce.
Context {C T : Type} (gb : GceBackend C T).

Local Abbreviation config := (gb_config gb).
Local Abbreviation client := (gb_instances gb).
Local Abbreviation M := (M (GceWorld C T) exn).

(** A call of the SDK under [except Exception], and one on the transport. *)
Definition on_cloud {A} (m : Prelude.M C string A) : M (A + string) := fun w =>
  let '(c, r) := m (gw_cloud w) in
  ({| w with gw_cloud := c |}, Ok (match r with Ok a => inl a | Raise text => inr text end)).

Definition on_hosts {A} (m : Prelude.M T exn A) : M A := fun w =>
  let '(n, r) := m (gw_hosts w) in ({| w with gw_hosts := n |}, r).

(** [_run(host, command, action)] *)
Definition run (host : HostSpec) (command action : string) (t : Z) : M CommandResult :=
  let failed detail := raise (BackendError (action +:+ " failed on " +:+ hs_hostname host +:+ ": " +:+ detail)) in
  result <- try_catch (r <- on_hosts (gb_transport gb host command (gc_ssh_timeout_seconds config) t);; ret (inl r))
              any_exception (fun e => ret (inr (exn_str e)));;
  match result with
  | inr text => failed text
  | inl result =>
      if cr_ok result then ret result
      else failed (str_take 300 (strip (if non_empty (cr_stderr result) then cr_stderr result else cr_stdout result)))
  end.

(** [_get(handle)] *)
Definition get_instance (handle : string) : M GceInstance :=
  r <- on_cloud (vm_get client (gc_project config) (gc_zone config) handle);;
  match r with
  | inl i => ret i
  | inr text =>
      if not_found text then ret (departed handle)
      else raise (BackendError ("could not inspect GCE instance " +:+ handle +:+ ": " +:+ text))
  end.

(** [_host_from_instance(instance)] *)
Definition host_from_instance (i : GceInstance) : outcome exn HostSpec :=
  match default [] (gi_interfaces i) with
  | [] => Raise (BackendError "cannot reach GCE instance: list index out of range")
  | iface :: _ =>
      let external := match if_access iface with a :: _ => default "" a | [] => "" end in
      let address := if non_empty external then external else default "" (if_address iface) in
      if non_empty address then
        Ok (mkHostSpec address (gc_ssh_username config) 22 (Some (gc_ssh_private_key config))
              (Some (gc_known_hosts config)))
      else Raise (BackendError "cannot reach GCE instance: instance has no reachable network address")
  end.

(** [_host(handle)] *)
Definition host (handle : string) : M HostSpec :=
  i <- get_instance handle;;
  lift_outcome (host_from_instance i).

(** [_job_id(handle)] *)
Definition job_id (handle : string) : M string :=
  i <- get_instance handle;;
  ret (default (removeprefix "gpu-broker-" handle) (metadata_of i !! "broker-job-id")).

(** ** Capacity *)

(** [supports(gpu_type)] *)
Definition supports (gpu_type : string) : bool := bool_decide (is_Some (dict_get gpu_type (gc_machine_types config))).

(** The loop of [list_resources] *)
Definition resource_of (i : GceInstance) : option Resource :=
  if bool_decide (is_Some (labels_of i !! "broker-job-id")) then
    let metadata k := default "" (metadata_of i !! k) in
    Some (mkResource (default "" (gi_vm_name i)) (default "" (labels_of i !! "broker-gpu-type"))
            (if bool_decide (default "" (gi_status i) ∈ stopped) then GONE else B_RUNNING)
            (<["broker-job-id" := metadata "broker-job-id"]> {["broker-user" := metadata "broker-user"]}))
  else None.

(** [list_resources()] *)
Definition list_resources (t : Z) : M (list Resource) :=
  r <- on_cloud (vm_list client (gc_project config) (gc_zone config) "labels.broker-job-id:*");;
  match r with
  | inl found => ret (omap resource_of found)
  | inr text => raise (BackendError ("could not list GCE instances: " +:+ text))
  end.

(** What [free_slots] counts *)
Definition holds_slot (gpu_type : string) (r : Resource) : bool :=
  String.eqb (res_gpu_type r) gpu_type
  && negb (bool_decide (res_status r ∈ [GONE; B_COMPLETED; B_FAILED; INTERRUPTED])).

(** [free_slots(gpu_type)] *)
Definition free_slots (gpu_type : string) (t : Z) : M Z :=
  if negb (supports gpu_type) then ret 0
  else
    found <- list_resources t;;
    ret (Z.max 0 (default 0 (dict_get gpu_type (gc_max_instances config))
                  - Z.of_nat (length (List.filter (holds_slot gpu_type) found)))).

(** ** Launch *)

(** The guards [launch] and [validate_launch] begin with *)
Definition guards (j : Job) (t : Z) : M unit :=
  lift_outcome (require_launchable config);;;
  if resumable j || truthy (j_environment j) then
    raise (BackendError "GCE adapter does not support broker checkpoints or named container environments")
  else if negb (supports (j_gpu_type j)) then
    raise (BackendError ("GCE has no " +:+ j_gpu_type j +:+ " machine type configured"))
  else
    free <- free_slots (j_gpu_type j) t;;
    if free <? 1 then raise (BackendError ("GCE has no free " +:+ j_gpu_type j +:+ " slots"))
    else ret tt.

Definition insert_request (j : Job) (name machine accelerator : string) (t : Z) : InsertRequest :=
  mkInsertRequest name
    ("zones/" +:+ gc_zone config +:+ "/machineTypes/" +:+ machine)
    ("zones/" +:+ gc_zone config +:+ "/acceleratorTypes/" +:+ accelerator)
    (default 1 (dict_get (j_gpu_type j) (gc_accelerator_counts config)))
    "TERMINATE" true
    (<["broker-job-id" := label (j_job_id j)]> (<["broker-user" := label (j_user_id j)]>
      (<["broker-gpu-type" := label (j_gpu_type j)]> {["broker-launched-at" := "t-" +:+ stamp t]})))
    [("broker-job-id", j_job_id j); ("broker-user", j_user_id j)]
    (gc_boot_image config) (gc_network config)
    (if non_empty (gc_subnetwork config) then Some (gc_subnetwork config) else None)
    (gc_external_ip config)
    (if non_empty (gc_service_account config)
     then Some (gc_service_account config, gc_service_account_scopes config) else None).

(** [d[k]] *)
Definition dict_at (k : string) (d : dict string string) : outcome exn string := of_option (dict_get k d) (KeyError k).

(** [launch(job)] *)
Definition launch (j : Job) (t : Z) : M Allocation :=
  guards j t;;;
  name <- lift_outcome (instance_name (j_job_id j));;
  machine <- lift_outcome (dict_at (j_gpu_type j) (gc_machine_types config));;
  accelerator <- lift_outcome (dict_at (j_gpu_type j) (gc_accelerator_types config));;
  r <- on_cloud (vm_insert client (gc_project config) (gc_zone config) (insert_request j name machine accelerator t));;
  match r with
  | inl _ => ret (mkAllocation name (j_gpu_type j) (tags_for j (to_iso t)))
  | inr text => raise (BackendError ("could not create GCE instance: " +:+ text))
  end.

(** [start(handle, job)] *)
Definition start (handle : string) (j : Job) (t : Z) : M unit :=
  h <- host handle;;
  id <- lift_outcome (safe_id (j_job_id j));;
  run h (start_script (job_root id) (j_command j)) "start GCE job" t;;;
  ret tt.

(** What the last line of [poll] makes of the marker *)
Definition read_marker (marker : string) : outcome exn Observation :=
  if String.eqb marker "READY" then Ok (mkObservation READY None None)
  else if String.eqb marker "RUNNING" then Ok (mkObservation B_RUNNING None None)
  else match int_text marker with
       | Some code =>
           Ok (mkObservation (if code =? 0 then B_COMPLETED else B_FAILED) (Some code)
                 (Some ("remote process exited " +:+ str_of_Z code)))
       | None => Raise (BackendError ("GCE job status is invalid: " +:+ str_take 80 marker))
       end.

(** [poll(handle)] *)
Definition poll (handle : string) (t : Z) : M Observation :=
  i <- get_instance handle;;
  let status := default "" (gi_status i) in
  if bool_decide (status ∈ stopped) then ret (mkObservation GONE None (Some ("GCE instance is " +:+ status)))
  else if negb (String.eqb status "RUNNING") then
    ret (mkObservation PENDING None (Some ("GCE instance is " +:+ (if non_empty status then status else "unknown"))))
  else
    h <- lift_outcome (host_from_instance i);;
    id <- lift_outcome (safe_id (default "unknown" (metadata_of i !! "broker-job-id")));;
    answer <- try_catch (r <- run h (poll_script (job_root id)) "poll GCE job" t;; ret (inl r)) is_backend_error
                (fun e => ret (inr (exn_str e)));;
    match answer with
    | inr text => ret (mkObservation PENDING None (Some ("waiting for SSH: " +:+ text)))
    | inl r => lift_outcome (read_marker (strip (cr_stdout r)))
    end.

(** [validate_launch(job)], [validate_terminate(handle)] *)
Definition validate_launch (j : Job) (t : Z) : M string :=
  guards j t;;;
  machine <- lift_outcome (dict_at (j_gpu_type j) (gc_machine_types config));;
  ret ("GCE request is locally configured for " +:+ machine +:+ "; "
       +:+ "Compute Engine has no insert dry-run, so IAM/quota acceptance is unverified").

Definition validate_terminate (handle : string) : M string :=
  i <- get_instance handle;;
  ret (if String.eqb (default "" (gi_status i)) "TERMINATED" then "GCE instance is already terminated"
       else "GCE instance exists; delete permission is not provider-validated").

(** [fetch_logs(handle, after)] *)
Definition fetch_logs (handle : string) (after : nat) (t : Z) : M (list (string * string)) :=
  cached <- gets (fun w => gw_deleted_logs w !! handle);;
  match cached with
  | Some lines => ret (drop after lines)
  | None =>
      h <- host handle;;
      id <- job_id handle;;
      safe <- lift_outcome (safe_id id);;
      result <- run h (logs_script (job_root safe) after) "read GCE job logs" t;;
      ret (map (fun line => ("combined", line)) (splitlines (cr_stdout result)))
  end.

(** [terminate(handle, reason)]: what follows the last read of the logs *)
Definition delete_keeping (handle : string) (lines : list (string * string)) : M unit :=
  modify (fun w => {| w with gw_deleted_logs := <[handle := lines]> (gw_deleted_logs w) |});;;
  r <- on_cloud (vm_delete client (gc_project config) (gc_zone config) handle);;
  match r with
  | inl _ => ret tt
  | inr text =>
      if not_found text then ret tt
      else raise (BackendError ("could not delete GCE instance " +:+ handle +:+ ": " +:+ text))
  end.

Definition terminate (handle reason : string) (t : Z) : M unit :=
  lines <- try_catch (fetch_logs handle 0 t) is_backend_error
             (fun e => ret [("broker", "final GCE log read failed: " +:+ exn_str e)]);;
  delete_keeping handle lines.

(** [sample_utilization(handle)] *)
Definition sample_utilization (handle : string) (t : Z) : M (list UtilizationSample) :=
  h <- host handle;;
  result <- run h sample_script "sample GCE GPU utilization" t;;
  s <- lift_outcome (read_sample (cr_stdout result));;
  ret [s].

(** The instance of the protocol. *)
Definition gce : Backend (GceWorld C T) := {|
  b_name := "gce";
  b_currency := USD;
  b_tier := Some "ondemand";
  b_supports g := fun _ => ret (supports g);
  b_free_slots := free_slots;
  b_launch := launch;
  b_start := start;
  b_poll := poll;
  b_validate_launch := validate_launch;
  b_validate_terminate := fun handle _ => validate_terminate handle;
  b_fetch_logs := fetch_logs;
  b_terminate := terminate;
  b_list_resources := list_resources;
  b_sample_utilization := sample_utilization;
  b_local_ops := None
|}.
End Gce.
