(* ===== verification/GceProps.v ===== *)
(** * What the Google Cloud backend promises

    [GceLaws] is what Compute Engine documents of the calls the backend makes,
    about the instances that carry the broker's label: listing gives them, an
    insertion that is asked for adds at most the one asked for, even when it fails,
    a deletion adds none.  Under it the fleet stays within its limits over every
    sequence of calls.  The other theorems hold of any client and any transport. *)

From Stdlib Require Import Ascii.
From S2P Require Import Prelude PyFloat PyFormat PySort PyDict Errors Money Clock PyJson PyText States Models Config Tables Store StoreInv StoreSafe Backend Placement Commands Hosts Gce.
Local Open Scope Z_scope.
Local Open Scope py_scope.

(** [i] is what was asked for. *)
Definition made_from (r : InsertRequest) (i : GceInstance) : Prop :=
  gi_vm_name i = Some (ir_name r) /\ gi_labels i = Some (ir_labels r) /\
  gi_metadata i = Some (map (fun p => (Some (fst p), Some (snd p))) (ir_metadata r)).

Class GceLaws {C : Type} (client : GceClient C) (view : C -> list GceInstance) : Prop := {
  list_law : forall p z f c, let out := vm_list client p z f c in
    view (fst out) = view c /\ forall found, snd out = Ok found -> found = view c;
  get_law : forall p z h c, view (fst (vm_get client p z h c)) = view c;
  insert_law : forall p z r c, let c' := fst (vm_insert client p z r c) in
    view c' = view c \/ exists i, made_from r i /\ view c' = view c ++ [i];
  delete_law : forall p z h c, view (fst (vm_delete client p z h c)) `sublist_of` view c
}.

(** ** The fleet *)

Section Fleet.
Context {C T : Type} (gb : GceBackend C T) (view : C -> list GceInstance) `{!GceLaws (gb_instances gb) view}.

Local Abbreviation config := (gb_config gb).
Local Abbreviation World := (GceWorld C T).

(** The instances that hold a slot of [g]. *)
Definition holders (g : string) (vms : list GceInstance) : list Resource :=
  List.filter (holds_slot g) (omap resource_of vms).

Definition fleet (g : string) (w : World) : Z := Z.of_nat (length (holders g (view (gw_cloud w)))).

Definition limit (g : string) : Z := default 0 (dict_get g (gc_max_instances config)).

(** There are at most [n] of them. *)
Definition at_most (g : string) (n : Z) (w : World) : Prop := fleet g w <= n.

Lemma holders_app g a b : length (holders g (a ++ b)) = (length (holders g a) + length (holders g b))%nat.
Proof. unfold holders. by rewrite omap_app, List.filter_app, length_app. Qed.

Lemma holders_sublist g a b : a `sublist_of` b -> (length (holders g a) <= length (holders g b))%nat.
Proof.
  induction 1 as [|x a b _ IH|x a b _ IH]; [done| |]; unfold holders in *; cbn [omap list_omap];
    destruct (resource_of x); cbn; try destruct (holds_slot g r); cbn; lia.
Qed.

Lemma keeps_on_cloud {A} g n (m : M C string A) :
  (forall c, view (fst (m c)) `sublist_of` view c) -> keeps (at_most g n) (on_cloud (T := T) m).
Proof.
  intros Hm w Hw. unfold on_cloud. specialize (Hm (gw_cloud w)). destruct (m (gw_cloud w)) as [c r].
  unfold at_most, fleet in *. cbn in *. apply (holders_sublist g) in Hm. lia.
Qed.

Lemma keeps_on_hosts {A} g n (m : M T exn A) : keeps (at_most g n) (on_hosts (C := C) m).
Proof. intros w Hw. unfold on_hosts. destruct (m (gw_hosts w)) as [h [a|e]]; exact Hw. Qed.

Lemma keeps_logs g n (f : gmap string (list (string * string)) -> _) :
  keeps (E := exn) (at_most g n) (modify (fun w => {| w with gw_deleted_logs := f (gw_deleted_logs w) |})).
Proof. intros w Hw. exact Hw. Qed.

#[local] Hint Resolve keeps_on_hosts : keeps.
#[local] Hint Extern 1 (keeps _ (modify _)) => apply (keeps_logs _ _ (insert _ _)) : keeps.

Lemma keeps_get_call g n p z h : keeps (at_most g n) (on_cloud (T := T) (vm_get (gb_instances gb) p z h)).
Proof. apply keeps_on_cloud. intros c. by rewrite get_law. Qed.
Lemma keeps_list_call g n p z f : keeps (at_most g n) (on_cloud (T := T) (vm_list (gb_instances gb) p z f)).
Proof. apply keeps_on_cloud. intros c. by rewrite (proj1 (list_law p z f c)). Qed.
Lemma keeps_delete_call g n p z h : keeps (at_most g n) (on_cloud (T := T) (vm_delete (gb_instances gb) p z h)).
Proof. apply keeps_on_cloud. intros c. apply delete_law. Qed.
#[local] Hint Resolve keeps_get_call keeps_list_call keeps_delete_call : keeps.

Lemma keeps_shell g n h command action t : keeps (at_most g n) (run gb h command action t).
Proof. unfold run. walk. Qed.
#[local] Hint Resolve keeps_shell : keeps.

Lemma keeps_get_instance g n h : keeps (at_most g n) (get_instance gb h).
Proof. unfold get_instance. walk. Qed.
#[local] Hint Resolve keeps_get_instance : keeps.

Lemma keeps_fetch g n h k t : keeps (at_most g n) (fetch_logs gb h k t).
Proof. unfold fetch_logs, host, job_id. walk. Qed.
#[local] Hint Resolve keeps_fetch : keeps.

Lemma keeps_poll g n h t : keeps (at_most g n) (poll gb h t).
Proof. unfold poll. walk. Qed.

Lemma keeps_terminate g n h reason t : keeps (at_most g n) (terminate gb h reason t).
Proof. unfold terminate, delete_keeping. walk. Qed.

Lemma keeps_resources g n t : keeps (at_most g n) (list_resources gb t).
Proof. unfold list_resources. walk. Qed.
#[local] Hint Resolve keeps_resources : keeps.

Lemma keeps_free g n g' t : keeps (at_most g n) (free_slots gb g' t).
Proof. unfold free_slots. walk. Qed.
#[local] Hint Resolve keeps_free : keeps.

Lemma keeps_guards g n j t : keeps (at_most g n) (guards gb j t).
Proof. unfold guards. walk. Qed.
#[local] Hint Resolve keeps_guards : keeps.

(** [guards] returns when a slot was free. *)
Lemma guards_free j t w w1 : guards gb j t w = (w1, Ok tt) ->
  supports gb (j_gpu_type j) = true /\ fleet (j_gpu_type j) w1 < limit (j_gpu_type j).
Proof.
  unfold guards. intros H. apply bind_ok in H as (w0 & [] & H0 & H). injection H0 as <- _.
  destruct (resumable j || truthy (j_environment j)); [discriminate|].
  destruct (supports gb (j_gpu_type j)) eqn:Hs; cbn in H; [|discriminate]. split; [done|].
  apply bind_ok in H as (w2 & free & H2 & H). destruct (free <? 1) eqn:Hf; [discriminate|]. injection H as <-.
  apply Z.ltb_ge in Hf. unfold free_slots in H2. rewrite Hs in H2. cbn in H2.
  apply bind_ok in H2 as (w3 & found & H3 & H2). injection H2 as <- <-.
  unfold list_resources in H3. apply bind_ok in H3 as (w4 & r & H4 & H3). unfold on_cloud in H4.
  pose proof (list_law (gc_project config) (gc_zone config) "labels.broker-job-id:*" (gw_cloud w)) as [Hv Hfound].
  destruct (vm_list _ _ _ _ (gw_cloud w)) as [c [vms|text]]; injection H4 as <- <-; [|discriminate H3].
  injection H3 as <- <-. specialize (Hfound vms eq_refl). cbn in Hv. subst vms. unfold fleet, holders. cbn [gw_cloud].
  rewrite Hv. fold (limit (j_gpu_type j)) in Hf. lia.
Qed.

Lemma made_holder g j name machine accelerator t i : made_from (insert_request gb j name machine accelerator t) i ->
  label (j_gpu_type j) = j_gpu_type j -> j_gpu_type j <> g -> holders g [i] = [].
Proof.
  intros (_ & Hl & _) Hg Hne. unfold holders. cbn [omap list_omap]. destruct (resource_of i) as [r|] eqn:Hr; [|done].
  unfold resource_of, labels_of in Hr. rewrite Hl in Hr. cbn in Hr. case_bool_decide; [|discriminate]. injection Hr as <-.
  cbn. unfold holds_slot. cbn. rewrite Hg. simplify_map_eq. destruct (String.eqb_spec (j_gpu_type j) g); [contradiction|done].
Qed.

Lemma holder_one g i : (length (holders g [i]) <= 1)%nat.
Proof. unfold holders. cbn [omap list_omap]. destruct (resource_of i); cbn; [destruct (holds_slot g r); cbn|]; lia. Qed.

(** Every type the settings name is what its label says. *)
Definition honest_labels : Prop := forall k, supports gb k = true -> label k = k.

Lemma insert_bounded g j name machine accelerator t w : honest_labels -> supports gb (j_gpu_type j) = true ->
  fleet (j_gpu_type j) w < limit (j_gpu_type j) -> fleet g w <= limit g ->
  fleet g (fst (on_cloud (T := T) (vm_insert (gb_instances gb) (gc_project config) (gc_zone config)
                 (insert_request gb j name machine accelerator t)) w)) <= limit g.
Proof.
  intros Hl Hs Hfree Hw. unfold on_cloud.
  pose proof (insert_law (gc_project config) (gc_zone config) (insert_request gb j name machine accelerator t) (gw_cloud w)) as H.
  destruct (vm_insert _ _ _ _ (gw_cloud w)) as [c r]. unfold fleet in *. cbn in *. destruct H as [->|(i & Hi & ->)]; [done|].
  rewrite holders_app. pose proof (holder_one g i). destruct (decide (j_gpu_type j = g)) as [<-|Hne]; [lia|].
  rewrite (made_holder _ _ _ _ _ _ _ Hi (Hl _ Hs) Hne). cbn. lia.
Qed.

Lemma launch_bounded g j t w : honest_labels -> fleet g w <= limit g -> fleet g (fst (launch gb j t w)) <= limit g.
Proof.
  intros Hl Hw. unfold launch, bind at 1. pose proof (keeps_guards g (limit g) j t w Hw) as H1.
  destruct (guards gb j t w) as [w1 [[]|e]] eqn:Hg; [|exact H1]. destruct (guards_free j t w w1 Hg) as [Hs Hfree].
  unfold bind, lift_outcome. destruct (instance_name (j_job_id j)) as [name|e]; [|exact H1].
  destruct (dict_at _ _) as [machine|e]; [|exact H1]. destruct (dict_at _ _) as [accelerator|e]; [|exact H1].
  pose proof (insert_bounded g j name machine accelerator t w1 Hl Hs Hfree H1) as H2.
  destruct (on_cloud _ w1) as [w2 [[a|text]|e]]; exact H2.
Qed.
End Fleet.

Lemma keeps_after {W A} (I : W -> Prop) (m : M W exn A) w : keeps I m -> I w -> I (fst (m w)).
Proof. intros Hm Hw. specialize (Hm w Hw). by destruct (m w) as [w' [a|e]]. Qed.

Section Bounded.
Context {C T : Type} (gb : GceBackend C T) (view : C -> list GceInstance) `{!GceLaws (gb_instances gb) view}.

Lemma perform_bounded g w c : honest_labels gb -> fleet view g w <= limit gb g ->
  fleet view g (perform (gce gb) w c) <= limit gb g.
Proof.
  intros Hl Hw. change (at_most view g (limit gb g) (perform (gce gb) w c)).
  destruct c as [t [g'|g'|j|h j|h|j|h|h k|h reason| |h]]; cbn [perform fst snd gce b_supports b_free_slots b_launch b_start b_poll
    b_validate_launch b_validate_terminate b_fetch_logs b_terminate b_list_resources b_sample_utilization].
  3: { by apply launch_bounded. }
  all: apply keeps_after; [|exact Hw].
  - apply keeps_ret.
  - by apply keeps_free.
  - unfold start, host. walk; by apply keeps_get_instance || by apply keeps_shell.
  - by apply keeps_poll.
  - unfold validate_launch. walk. by apply keeps_guards.
  - unfold validate_terminate. walk; by apply keeps_get_instance.
  - by apply keeps_fetch.
  - by apply keeps_terminate.
  - by apply keeps_resources.
  - unfold sample_utilization, host. walk; by apply keeps_get_instance || by apply keeps_shell.
Qed.

(** So over every sequence of calls. *)
Lemma calls_bounded g calls w : honest_labels gb -> fleet view g w <= limit gb g ->
  fleet view g (fold_left (perform (gce gb)) calls w) <= limit gb g.
Proof.
  intros Hl. revert w. induction calls as [|c calls IH]; intros w Hw; [exact Hw|].
  apply IH. by apply perform_bounded.
Qed.
End Bounded.

(** ** Polling, ending, starting *)

Section Answers.
Context {C T : Type} (gb : GceBackend C T).

Local Abbreviation config := (gb_config gb).

(** The host said [marker], run from a world of the transport. *)
Definition host_said (i : GceInstance) (t : Z) (marker : string) : Prop :=
  exists hs id n r, host_from_instance gb i = Ok hs /\
    safe_id (default "unknown" (metadata_of i !! "broker-job-id")) = Ok id /\
    snd (gb_transport gb hs (poll_script (job_root id)) (gc_ssh_timeout_seconds config) t n) = Ok r /\
    cr_ok r = true /\ strip (cr_stdout r) = marker.

Lemma run_ok hs command action t w w' r : run gb hs command action t w = (w', Ok r) ->
  cr_ok r = true /\ snd (gb_transport gb hs command (gc_ssh_timeout_seconds config) t (gw_hosts w)) = Ok r.
Proof.
  intros H. unfold run in H. apply bind_ok in H as (w1 & res & H1 & H). unfold try_catch, bind, on_hosts in H1.
  destruct (gb_transport gb hs command _ t (gw_hosts w)) as [n [a|e]]; cbn in H1; injection H1 as <- <-; [|discriminate H].
  destruct (cr_ok a) eqn:Hok; [|discriminate H]. by injection H as <- <-.
Qed.

Lemma run_raises hs command action t w w' e : run gb hs command action t w = (w', Raise e) -> is_backend_error e = true.
Proof.
  unfold run, bind at 1. destruct (try_catch _ _ _ w) as [w1 [[r|text]|e1]] eqn:H1.
  - by destruct (cr_ok r); intros [= _ <-].
  - by intros [= _ <-].
  - exfalso. unfold try_catch, bind in H1. destruct (on_hosts _ w) as [w2 [a|e2]]; cbn in H1; discriminate H1.
Qed.

(** What each answer of [poll] rests on. *)
Definition poll_rests (i : GceInstance) (t : Z) (o : Observation) : Prop :=
  let status := default "" (gi_status i) in
  match ob_status o with
  | GONE => status ∈ stopped
  | B_COMPLETED => status = "RUNNING" /\ exists m, host_said i t m /\ int_text m = Some 0 /\ ob_exit_code o = Some 0
  | B_FAILED => status = "RUNNING" /\ exists m c, host_said i t m /\ int_text m = Some c /\ c <> 0 /\ ob_exit_code o = Some c
  | B_RUNNING => status = "RUNNING" /\ host_said i t "RUNNING"
  | READY => status = "RUNNING" /\ host_said i t "READY"
  | PENDING => True
  | INTERRUPTED => False
  end.

Lemma marker_rests i t m o : default "" (gi_status i) = "RUNNING" -> host_said i t m -> read_marker m = Ok o -> poll_rests i t o.
Proof.
  intros Hs Hm. unfold read_marker, poll_rests.
  destruct (String.eqb_spec m "READY") as [->|_]; [by intros [= <-]|].
  destruct (String.eqb_spec m "RUNNING") as [->|_]; [by intros [= <-]|].
  destruct (int_text m) as [c|] eqn:Hc; [|discriminate]. intros [= <-]. cbn.
  destruct (Z.eqb_spec c 0) as [->|Hne]; (split; [done|]); [by exists m|by exists m, c].
Qed.

(** [poll] gives no final answer without evidence: GONE only of an instance
    that is stopping or not found, COMPLETED and FAILED only on the exit code the host
    of a running instance reports; a host that does not answer leaves the job pending. *)
Theorem gce_poll_evidence h t w o : snd (b_poll (gce gb) h t w) = Ok o ->
  exists i, snd (get_instance gb h w) = Ok i /\ poll_rests i t o.
Proof.
  cbn [gce b_poll]. unfold poll, bind at 1. destruct (get_instance gb h w) as [w1 [i|e]]; [|discriminate].
  intros H. exists i. split; [done|]. cbv zeta in H. case_bool_decide as Hst; [by injection H as <-|].
  destruct (String.eqb_spec (default "" (gi_status i)) "RUNNING") as [Hrun|]; cbn [negb] in H; [|by injection H as <-].
  unfold bind at 1, lift_outcome at 1 in H. destruct (host_from_instance gb i) as [hs|e] eqn:Hhs; [|discriminate].
  unfold bind at 1, lift_outcome at 1 in H. destruct (safe_id _) as [id|e] eqn:Hid; [|discriminate].
  unfold bind at 1, try_catch, bind at 1 in H.
  destruct (run gb hs _ _ t w1) as [w2 [r|e]] eqn:Hr.
  - cbn in H. apply run_ok in Hr as [Hok Hr]. apply (marker_rests _ _ (strip (cr_stdout r))); [done| |done].
    by exists hs, id, (gw_hosts w1), r.
  - apply run_raises in Hr. cbn in H. rewrite Hr in H. by injection H as <-.
Qed.

(** What [terminate] keeps of the output. *)
Definition last_logs (r : outcome exn (list (string * string))) : list (string * string) :=
  match r with Ok lines => lines | Raise e => [("broker", "final GCE log read failed: " +:+ exn_str e)] end.

Lemma delete_keeping_spec h lines w : let out := delete_keeping gb h lines w in
  gw_cloud (fst out) = fst (vm_delete (gb_instances gb) (gc_project config) (gc_zone config) h (gw_cloud w)) /\
  forall k t, fetch_logs gb h k t (fst out) = (fst out, Ok (drop k lines)).
Proof.
  cbv zeta. unfold delete_keeping, bind, on_cloud. cbn. destruct (vm_delete _ _ _ h (gw_cloud w)) as [c [a|text]];
    [|destruct (not_found text)]; (split; [done|]); intros k t; unfold fetch_logs, bind, gets; cbn; by simplify_map_eq.
Qed.

(** Unless reading the logs raises something other than a [BackendError], the
    deletion is asked for, whatever the logs were; and from then on the kept logs
    are what the handle answers. *)
Theorem gce_terminate_keeps_logs h reason t w : let logs := fetch_logs gb h 0 t w in
  let out := b_terminate (gce gb) h reason t w in
  match snd logs with
  | Raise e => is_backend_error e = true
  | Ok _ => True
  end ->
  gw_cloud (fst out) = fst (vm_delete (gb_instances gb) (gc_project config) (gc_zone config) h (gw_cloud (fst logs))) /\
  forall k t', fetch_logs gb h k t' (fst out) = (fst out, Ok (drop k (last_logs (snd logs)))).
Proof.
  cbv zeta. cbn [gce b_terminate]. unfold terminate, bind, try_catch. destruct (fetch_logs gb h 0 t w) as [w1 [lines|e]]; cbn.
  - intros _. apply delete_keeping_spec.
  - intros ->. apply delete_keeping_spec.
Qed.

(** The script [start] sends writes the member's command, as one word, to the file
    it then runs. *)
Theorem gce_start_carries root command : exists before rest,
  start_script root command = before +:+ "printf '%s\n' " +:+ quote command +:+ rest /\
  sh_word Bare (quote command +:+ rest) = Some (command, rest).
Proof.
  eexists ("mkdir -p " +:+ quote root +:+ " || exit; " +:+ "if mkdir " +:+ quote (root +:+ "/started")
    +:+ " 2>/dev/null; then " +:+ "if ! "), _. split.
  - unfold start_script. rewrite !str_app_assoc. reflexivity.
  - by apply sh_word_quote.
Qed.
End Answers.

(** * A project in memory, and what the Google Cloud backend does with it

    An instance of [GceLaws], the witnesses of [GceProps], and the runs that show
    where the code departs from its comments. *)

From S2P Require Import Prelude PyFloat PyFormat PySort PyDict Errors Money Clock PyJson PyText States Models Config Tables Store StoreInv StoreSafe Fixture Backend Placement Commands Hosts Gce.
Local Open Scope Z_scope.
Local Open Scope py_scope.

(** The labelled instances, and whether the service answers. *)
Record Project := mkProject { pj_vms : list GceInstance; pj_up : bool }.

Definition when_up {A} (a : A) (f : list GceInstance -> list GceInstance) : M Project string A := fun s =>
  if pj_up s then (mkProject (f (pj_vms s)) true, Ok a) else (s, Raise "503 backend error").

Definition vm_of (r : InsertRequest) : GceInstance :=
  mkGceInstance (Some (ir_name r)) (Some "RUNNING") (Some (ir_labels r))
    (Some (map (fun p => (Some (fst p), Some (snd p))) (ir_metadata r)))
    (Some [mkInterface [] (Some "10.0.0.7")]).

Definition named (h : string) (i : GceInstance) : bool := bool_decide (gi_vm_name i = Some h).

Definition project : GceClient Project := {|
  vm_insert p z r := when_up tt (fun vms => vms ++ [vm_of r]);
  vm_get p z h := fun s =>
    (s, if pj_up s then match List.find (named h) (pj_vms s) with Some i => Ok i | None => Raise "404 notFound" end
        else Raise "503 backend error");
  vm_delete p z h := when_up tt (List.filter (fun i => negb (named h i)));
  vm_list p z f := fun s => (s, if pj_up s then Ok (pj_vms s) else Raise "503 backend error")
|}.

Lemma filter_sublist {A} (p : A -> bool) l : List.filter p l `sublist_of` l.
Proof. induction l as [|x l IH]; cbn; [constructor|]. destruct (p x); by constructor. Qed.

#[export] Instance project_laws : GceLaws project pj_vms.
Proof.
  constructor; intros p z x [vms up]; cbn; unfold when_up; cbn.
  - split; [done|]. intros found. by destruct up; intros [= <-].
  - done.
  - destruct up; [right|by left]. exists (vm_of x). by split.
  - destruct up; [apply filter_sublist|done].
Qed.

(** The hosts: what was run, and what every command prints. *)
Record Shells := mkShells { sh_ran : list string; sh_stdout : string; sh_up : bool }.

Definition shells : Transport Shells := fun h command timeout t s =>
  if sh_up s then (mkShells (command :: sh_ran s) (sh_stdout s) true, Ok (mkCommandResult 0 (sh_stdout s) ""))
  else (s, Raise (BackendError "connection refused")).

Definition club_gce (gpu : string) : GceConfig :=
  {| default_gce with gc_project := "club"; gc_boot_image := "debian"; gc_ssh_private_key := "/key";
                      gc_known_hosts := "/hosts"; gc_machine_types := [(gpu, "g2-standard-4")];
                      gc_accelerator_types := [(gpu, "nvidia-l4")]; gc_max_instances := [(gpu, 1)] |}.

Definition gce_pool (gpu : string) : GceBackend Project Shells := mkGceBackend _ _ (club_gce gpu) project shells.

Definition empty_project (stdout : string) : GceWorld Project Shells :=
  mkGceWorld (mkProject [] true) (mkShells [] stdout true) ∅.

Local Abbreviation pool := (gce (gce_pool "t4")).
Local Abbreviation odd_pool := (gce (gce_pool "A100")).

Definition job2 : Job := {| job1 with j_job_id := "job-2" |}.
Definition odd (j : Job) : Job := {| j with j_gpu_type := "A100" |}.

(** Two launches, an end and a third launch. *)
Definition busy_day : list (Z * Call) :=
  [(noon, CLaunch job1); (noon, CLaunch job2); (noon, CTerminate "gpu-broker-job-1" "done"); (noon, CLaunch job2); (noon, CFree "t4")].

Example busy_day_ends : omap gi_vm_name (pj_vms (gw_cloud (fold_left (perform pool) busy_day (empty_project "")))) = ["gpu-broker-job-2"].
Proof. by vm_compute. Qed.

Lemma gce_pool_honest : honest_labels (gce_pool "t4").
Proof.
  intros k. unfold supports. cbn. intros H. apply bool_decide_eq_true_1 in H as [v H]. cbn in H.
  destruct (decide (k = "t4")) as [->|]; [reflexivity|]. cbn in H. destruct (decide _); [congruence|discriminate].
Qed.

Lemma gce_poll_evidence_witness : exists i o,
  snd (b_poll pool "gpu-broker-job-1" noon (fst (b_launch pool job1 noon (empty_project "3")))) = Ok o /\
  ob_status o = B_FAILED /\ poll_rests (gce_pool "t4") i noon o.
Proof.
  destruct (gce_poll_evidence (gce_pool "t4") "gpu-broker-job-1" noon (fst (b_launch pool job1 noon (empty_project "3")))
    (mkObservation B_FAILED (Some 3) (Some "remote process exited 3"))) as (i & _ & H); [vm_compute; reflexivity|].
  exists i. eexists. split; [vm_compute; reflexivity|]. split; [reflexivity|exact H].
Defined.

(** ** Against the comments *)

(** The label of an [A100] is [a100], and the listing is compared with the name:
    the instances are not counted and the limit of one is passed. *)
Example gce_limit_ignored :
  let w := fold_left (perform odd_pool) [(noon, CLaunch (odd job1)); (noon, CLaunch (odd job2))] (empty_project "") in
  (length (pj_vms (gw_cloud w)), snd (b_free_slots odd_pool "A100" noon w)) = (2%nat, Ok 1).
Proof. by vm_compute. Qed.

(** An instance has the name of its job, and the logs kept at the end of one are
    the answer for the name: a second attempt of the job never shows its output. *)
Example gce_logs_of_first_attempt :
  let first := fold_left (perform pool) [(noon, CLaunch job1); (noon, CTerminate "gpu-broker-job-1" "preempted"); (noon, CLaunch job1)]
                 (empty_project "step 1") in
  let again := mkGceWorld (gw_cloud first) (mkShells [] "step 2" true) (gw_deleted_logs first) in
  (length (pj_vms (gw_cloud again)), snd (b_fetch_logs pool "gpu-broker-job-1" 0 noon again)) = (1%nat, Ok [("combined", "step 1")]).
Proof. by vm_compute. Qed.

(** With several accelerators, only the first line of [nvidia-smi] is read: a job
    on the second card looks idle. *)
Example gce_second_card_unseen :
  match read_sample (str_join newline ["1700000000"; "0, 10"; "99, 4000"]) with Ok s => us_gpu_percent s | Raise _ => f1 end = f0.
Proof. by vm_compute. Qed.

(** [terminate] of an instance whose metadata carries another kind of id raises a
    [ConfigError] before the deletion. *)
Example gce_end_not_asked :
  let stray := mkGceInstance (Some "vm-1") (Some "RUNNING") (Some {["broker-job-id" := "x"]})
                 (Some [(Some "broker-job-id", Some "job_1")]) (Some [mkInterface [] (Some "10.0.0.8")]) in
  let '(w, r) := b_terminate pool "vm-1" "orphan" noon (mkGceWorld (mkProject [stray] true) (mkShells [] "" true) ∅) in
  (length (pj_vms (gw_cloud w)), r)
  = (1%nat, Raise (ConfigError "job id must contain only letters, digits, and hyphens for GCE")).
Proof. by vm_compute. Qed.
