(* ===== verification/Lab.v ===== *)
(** * backends/local.py: the lab pool

    [LocalBackend] is the settings; [LabWorld] is what the object keeps (the
    cached health, the drains by hand, the hosts whose MPS was started) and the
    state [T] of the transport.  [environments] looks a name up, over [T] as well.
    [lab] is the instance of the [Backend] protocol.  [resource.timeout]s go to the
    transport as they are. *)

From Stdlib Require Import Ascii.
From S2P Require Import Prelude PyFloat PyDecimal PyFormat PySort PyDict Errors Money Clock PyJson PyText States Models Config Tables Store StoreInv StoreSafe Backend Commands Volumes Environments Placement Hosts.
Local Open Scope Z_scope.
Local Open Scope py_scope.

Import commands.

Record LabWorld (T : Type) := mkLabWorld {
  lw_health : gmap string HostHealth;
  lw_manual_drain : gmap string string;
  lw_mps_started : gset string;
  lw_net : T
}.
Arguments mkLabWorld {T} _ _ _ _.
Arguments lw_health {T} _.
Arguments lw_manual_drain {T} _.
Arguments lw_mps_started {T} _.
Arguments lw_net {T} _.

(** The settings of [LocalBackend.__init__]. *)
Record LocalBackend (T : Type) := mkLocalBackend {
  lb_name : string;
  lb_tier : string;
  lb_config : LocalConfig;
  lb_transport : Transport T;
  lb_environments : option (string -> method T (option Environment));
  lb_volumes : VolumeConfig;
  lb_environment_root : string
}.
Arguments lb_name {T} _.
Arguments lb_tier {T} _.
Arguments lb_config {T} _.
Arguments lb_transport {T} _.
Arguments lb_environments {T} _.
Arguments lb_volumes {T} _.
Arguments lb_environment_root {T} _.

(** [_handle(hostname, job_id)], [_split(handle)] *)
Definition make_handle (hostname job_id : string) : string := hostname +:+ "/" +:+ job_id.
Definition split_handle (handle : string) : string * string := partition "/" handle.

(** [with_room.sort(key=lambda pair: (-pair[0], pair[1].hostname))] *)
Definition room_lt (a b : Z * HostHealth) : bool :=
  (fst b <? fst a) || ((fst a =? fst b) && str_lt (hh_hostname (snd a)) (hh_hostname (snd b))).

(** [counts[g] = counts.get(g, 0) + 1] for a job whose card is a number *)
Definition count_live (counts : dict Z Z) (live : gmap string string) : dict Z Z :=
  match int_text (default "0" (live !! "gpu")) with
  | Some g => dict_set g (default 0 (dict_get g counts) + 1) counts
  | None => counts
  end.

(** [min(counts, key=lambda index: (counts[index], index))] *)
Fixpoint min_card (best : Z * Z) (counts : dict Z Z) : Z :=
  match counts with
  | [] => fst best
  | (i, n) :: counts' =>
      min_card (if (n <? snd best) || ((n =? snd best) && (i <? fst best)) then (i, n) else best) counts'
  end.

Definition least_loaded (counts : dict Z Z) : Z :=
  match counts with [] => 0 | c :: counts' => min_card c counts' end.

Section LocalBackend.
Context {T : Type} (sha256 : string -> string) (iter : gset string -> list string) (lb : LocalBackend T).

Local Abbreviation config := (lb_config lb).
Local Abbreviation M := (M (LabWorld T) exn).

(** A computation over the state of the transport. *)
Definition on_net {A} (m : Prelude.M T exn A) : M A :=
  fun w => let '(n, r) := m (lw_net w) in ({| w with lw_net := n |}, r).

Definition run (host : HostSpec) (command : string) (timeout : float) (t : Z) : M CommandResult :=
  on_net (lb_transport lb host command timeout t).

(** [host(hostname)] *)
Definition host (hostname : string) : option HostSpec :=
  List.find (fun h => String.eqb (hs_hostname h) hostname) (lc_hosts config).

(** ** Health *)

(** [_with_manual_drain(health)] *)
Definition with_manual_drain (drains : gmap string string) (h : HostHealth) : HostHealth :=
  match drains !! hh_hostname h with
  | None => h
  | Some reason => {| h with hh_state := DRAINING; hh_reason := "drained by hand: " +:+ reason |}
  end.

Definition is_stale (known : option HostHealth) (refresh : bool) (now : Z) : bool :=
  match known with
  | None => true
  | Some h => refresh || f_le (lc_health_interval_seconds config) (total_seconds (now - hh_checked_at h))
  end.

Definition health_one (refresh : bool) (now : Z) (h : HostSpec) : M HostHealth :=
  known <- gets (fun w => lw_health w !! hs_hostname h);;
  checked <- (match known, is_stale known refresh now with
              | Some k, false => ret k
              | _, _ =>
                  k <- on_net (check_host (lb_transport lb) h config now);;
                  modify (fun w => {| w with lw_health := <[hs_hostname h := k]> (lw_health w) |});;;
                  ret k
              end);;
  gets (fun w => with_manual_drain (lw_manual_drain w) checked).

(** [health(refresh)] *)
Definition health (refresh : bool) (now : Z) : M (list HostHealth) :=
  mapM_ (health_one refresh now) (lc_hosts config).

(** [drain(hostname, reason)], [undrain(hostname)] *)
Definition drain (hostname reason : string) (t : Z) : M unit :=
  match host hostname with
  | None => raise (BackendError ("no host '" +:+ hostname +:+ "' in local.hosts"))
  | Some _ => modify (fun w => {| w with lw_manual_drain := <[hostname := reason]> (lw_manual_drain w) |})
  end.

Definition undrain (hostname : string) (t : Z) : M unit :=
  modify (fun w => {| w with lw_manual_drain := delete hostname (lw_manual_drain w);
                             lw_health := delete hostname (lw_health w) |}).

(** [healthy_hosts()] *)
Definition healthy_hosts (t : Z) : M (list HostHealth) :=
  all <- health false t;;
  ret (List.filter (fun h => accepts_jobs (hh_state h)) all).

(** ** Capacity *)

Definition supports (gpu_type : string) : bool := String.eqb gpu_type (lc_gpu_type config).

(** [_root_for(hostname)] *)
Definition root_for (hostname : string) : M string :=
  gets (fun w => expand (lc_job_root config)
                   (match lw_health w !! hostname with Some h => home_text (hh_home h) | None => "" end)).

(** [except BackendError: return d] *)
Definition or_else {A} (m : M A) (d : A) : M A := try_catch m is_backend_error (fun _ => ret d).

(** [_live_on(hostname)] *)
Definition live_on (hostname : string) (t : Z) : M (list (gmap string string)) :=
  match host hostname with
  | None => ret []
  | Some h =>
      result <- or_else (root <- root_for hostname;;
                         r <- run h (list_live_jobs root (lc_use_sudo config)) (lc_command_timeout_seconds config) t;;
                         ret (Some r)) None;;
      ret (match result with Some r => parse_live_jobs (cr_stdout r) | None => [] end)
  end.

(** [_free_on(health)] *)
Definition free_on (h : HostHealth) (t : Z) : M Z :=
  live <- live_on (hh_hostname h) t;;
  ret (Z.max 0 (gpu_count h * lc_max_jobs_per_gpu config - Z.of_nat (length live))).

(** [free_slots(gpu_type)] *)
Definition free_slots (gpu_type : string) (t : Z) : M Z :=
  if negb (supports gpu_type) then ret 0
  else
    hosts <- healthy_hosts t;;
    foldM (fun total h => free <- free_on h t;; ret (total + free)) 0 hosts.

(** [_mark_unreachable(hostname, reason)] *)
Definition mark_unreachable (hostname reason : string) (now : Z) : M unit :=
  modify (fun w =>
    let known := lw_health w !! hostname in
    {| w with lw_health := <[hostname := mkHostHealth hostname UNREACHABLE reason now
         (match known with Some k => hh_gpus k | None => [] end) false false false
         (match known with Some k => hh_home k | None => Some "" end)]> (lw_health w) |}).

(** ** Launch *)

(** [_pick_host(job)] *)
Definition pick_host (j : Job) (t : Z) : M HostHealth :=
  if negb (supports (j_gpu_type j)) then raise (BackendError (lb_name lb +:+ " has no " +:+ j_gpu_type j +:+ " capacity"))
  else
    all_hosts <- health false t;;
    let usable := List.filter (fun h => accepts_jobs (hh_state h)) all_hosts in
    match all_hosts, usable with
    | [], _ => raise (BackendError "no hosts are configured under local.hosts")
    | _, [] =>
        raise (BackendError ("every local host is unavailable: "
          +:+ str_join "; " (map (fun h => hh_hostname h +:+ " is " +:+ str_lower (host_state_str (hh_state h))
                                            +:+ " (" +:+ hh_reason h +:+ ")") all_hosts)))
    | _, _ =>
        with_room <- mapM_ (fun h => free <- free_on h t;; ret (free, h)) usable;;
        match py_sort room_lt (List.filter (fun p => 0 <? fst p) with_room) with
        | [] => raise (BackendError ("every local GPU is at its limit of "
                  +:+ str_of_Z (lc_max_jobs_per_gpu config) +:+ " concurrent jobs"))
        | (_, h) :: _ => ret h
        end
    end.

(** [_pick_device(health)] *)
Definition pick_device (h : HostHealth) (t : Z) : M Z :=
  live <- live_on (hh_hostname h) t;;
  ret (least_loaded (fold_left count_live live (fold_left (fun m g => dict_set (gi_index g) 0 m) (hh_gpus h) []))).

(** [_ensure_mps(host, health)] *)
Definition ensure_mps (h : HostSpec) (hh : HostHealth) (t : Z) : M unit :=
  started <- gets (fun w => bool_decide (hs_hostname h ∈ lw_mps_started w));;
  if hh_mps_ready hh || started then ret tt
  else
    on_net (start_mps (lb_transport lb) h config t);;;
    modify (fun w => {| w with lw_mps_started := {[hs_hostname h]} ∪ lw_mps_started w |}).

(** [_command_for(job, home)] *)
Definition command_for (j : Job) (home : string) (t : Z) : M string :=
  let data := local_data_dir (lb_volumes lb) (j_user_id j) home in
  let mount := if vc_enabled (lb_volumes lb)
    then [local_mount_script (lb_volumes lb) (j_user_id j) home; "export GPU_BROKER_DATA=" +:+ quote data]
    else [] in
  environment <- (match j_environment j, lb_environments lb with
                  | Some (String a s), Some lookup => on_net (lookup (String a s) t)
                  | _, _ => ret None
                  end);;
  let activate := match environment with
    | None => []
    | Some e =>
        let root := expand (lb_environment_root lb) home in
        [venv_script sha256 e root; ". " +:+ quote (venv_path sha256 e root) +:+ "/bin/activate"]
    end in
  ret (str_join newline (mount ++ activate ++ [j_command j])).

(** The command line [launch] sends. *)
Definition launch_command (j : Job) (h : HostSpec) (home : string) (device : Z) (command : string) (t : Z) : string :=
  let root := expand (lc_job_root config) home in
  let env := dict_set "GPU_BROKER_USER" (j_user_id j) (dict_set "GPU_BROKER_JOB_ID" (j_job_id j)
    (mps_client_env (lc_mps_pipe_dir config) device (lc_default_gpu_memory_mb config)
       (Z.max 1 (100 / lc_max_jobs_per_gpu config)))) in
  commands.launch (unit_for (j_job_id j)) (job_dir root (j_job_id j)) (expand (lc_working_dir config) home) command env
    (lc_default_memory_max_mb config) (lc_default_cpu_quota_percent config) (resolved_run_as config h)
    (meta_lines (j_job_id j) (j_user_id j) (to_iso t) device) (lc_use_sudo config).

(** [launch(job)]; [host] finds what [health] came from. *)
Definition launch (j : Job) (t : Z) : M Allocation :=
  hh <- pick_host j t;;
  match host (hh_hostname hh) with
  | None => raise (RuntimeError "AssertionError")
  | Some h =>
      device <- pick_device hh t;;
      ensure_mps h hh t;;;
      let home := home_text (hh_home hh) in
      command <- command_for j home t;;
      result <- run h (launch_command j h home device command t) (lc_command_timeout_seconds config) t;;
      if cr_ok result then
        ret (mkAllocation (make_handle (hs_hostname h) (j_job_id j)) (lc_gpu_type config) (tags_for j (to_iso t)))
      else
        raise (BackendError (hs_hostname h +:+ ": could not start the job: "
          +:+ default ("exit " +:+ str_of_Z (cr_exit_status result)) (last (detail_lines result))))
  end.

(** [validate_launch(job)] *)
Definition validate_launch (j : Job) (t : Z) : M string :=
  h <- pick_host j t;;
  ret ("would run on " +:+ hh_hostname h +:+ " under MPS with "
    +:+ str_of_Z (lc_default_gpu_memory_mb config) +:+ "MB of GPU memory, "
    +:+ str_of_Z (lc_default_memory_max_mb config) +:+ "MB of host RAM and "
    +:+ str_of_Z (lc_default_cpu_quota_percent config) +:+ "% CPU").

(** ** Poll *)

(** What the answer of the host says of the job. *)
Definition observation_of (u : UnitStatus) : Observation :=
  match un_exit_code u with
  | Some code =>
      if code =? 0 then mkObservation B_COMPLETED (Some 0) (Some "exited cleanly")
      else mkObservation B_FAILED (Some code) (Some ("exited with status " +:+ str_of_Z code))
  | None =>
      let st := un_active_state u in
      if bool_decide (st ∈ ["activating"; "active"; "reloading"]) then
        mkObservation B_RUNNING None (Some (if non_empty (un_sub_state u) then un_sub_state u else "running"))
      else if bool_decide (st ∈ [""; "inactive"; "failed"; "deactivating"]) then
        if was_oom_killed u then
          mkObservation B_FAILED None (Some ("killed for exceeding its "
            +:+ str_of_Z (lc_default_memory_max_mb config) +:+ "MB host memory limit"))
        else
          mkObservation B_FAILED None (Some ("the unit is " +:+ (if non_empty st then st else "gone")
            +:+ " (" +:+ (if non_empty (un_result u) then un_result u else "no result") +:+ ") and wrote no exit status, "
            +:+ "so it was killed rather than finishing"))
      else mkObservation B_RUNNING None (Some st)
  end.

(** [known.state is HostState.UNREACHABLE], and its reason *)
Definition known_unreachable (w : LabWorld T) (hostname : string) : option string :=
  match lw_health w !! hostname with
  | Some k => if bool_decide (hh_state k = UNREACHABLE) then Some (hh_reason k) else None
  | None => None
  end.

(** [poll(handle)] *)
Definition poll (handle : string) (t : Z) : M Observation :=
  let '(hostname, job_id) := split_handle handle in
  match host hostname with
  | None => ret (mkObservation GONE None (Some ("host " +:+ hostname +:+ " is not configured")))
  | Some h =>
      unreachable <- gets (fun w => known_unreachable w hostname);;
      match unreachable with
      | Some reason => ret (mkObservation PENDING None (Some ("host not answering: " +:+ reason)))
      | None =>
          try_catch
            (root <- root_for hostname;;
             result <- run h (unit_status (unit_for job_id) (job_dir root job_id) (lc_use_sudo config))
                         (lc_poll_timeout_seconds config) t;;
             ret (observation_of (parse_unit_status (cr_stdout result))))
            is_backend_error
            (fun e => mark_unreachable hostname (exn_str e) t;;;
                      ret (mkObservation PENDING None (Some ("host not answering: " +:+ exn_str e))))
      end
  end.

(** ** Logs, utilization, the end *)

(** [fetch_logs(handle, after)] *)
Definition fetch_logs (handle : string) (after : nat) (t : Z) : M (list (string * string)) :=
  let '(hostname, job_id) := split_handle handle in
  match host hostname with
  | None => ret []
  | Some h =>
      or_else (root <- root_for hostname;;
               result <- run h (tail_output (job_dir root job_id) after) (lc_poll_timeout_seconds config) t;;
               ret (map (pair "stdout") (splitlines (cr_stdout result)))) []
  end.

(** [sample_utilization(handle)] *)
Definition sample_utilization (handle : string) (t : Z) : M (list UtilizationSample) :=
  let '(hostname, job_id) := split_handle handle in
  match host hostname with
  | None => ret []
  | Some h =>
      unreachable <- gets (fun w => known_unreachable w hostname);;
      match unreachable with
      | Some _ => ret []
      | None =>
          result <- or_else (r <- run h (utilization (unit_for job_id) (lc_use_sudo config)) (lc_poll_timeout_seconds config) t;;
                             ret (Some r)) None;;
          match result with
          | Some r =>
              if cr_ok r then
                parsed <- lift_outcome (parse_utilization iter (cr_stdout r));;
                ret (match parsed with
                     | Some u => [mkUtilizationSample (timestamp t) (ut_gpu_percent u) (ut_memory_mb u)]
                     | None => []
                     end)
              else ret []
          | None => ret []
          end
      end
  end.

(** [terminate(handle, reason)] *)
Definition terminate (handle reason : string) (t : Z) : M unit :=
  let '(hostname, job_id) := split_handle handle in
  match host hostname with
  | None => ret tt
  | Some h =>
      or_else (run h (stop_unit (unit_for job_id) (lc_use_sudo config)) (lc_poll_timeout_seconds config) t;;; ret tt) tt
  end.

(** [validate_terminate(handle)] *)
Definition validate_terminate (handle : string) : string :=
  let '(hostname, job_id) := split_handle handle in
  match host hostname with
  | None => hostname +:+ " is not configured; nothing would be stopped"
  | Some _ => "would stop " +:+ unit_for job_id +:+ " on " +:+ hostname
  end.

(** The resource of a live unit. *)
Definition resource_of (hostname : string) (live : gmap string string) : Resource :=
  let field k := default "" (live !! k) in
  let job_id := field "job-id" in
  mkResource (make_handle hostname job_id) (lc_gpu_type config) B_RUNNING
    (if non_empty job_id then
       <["broker-job-id" := job_id]> (<["broker-user" := field "user"]>
         (<["broker-launched-at" := field "launched-at"]> ∅))
     else ∅).

(** [list_resources()] *)
Definition list_resources (t : Z) : M (list Resource) :=
  all <- health false t;;
  foldM (fun found h =>
    if bool_decide (hh_state h = UNREACHABLE) then ret found
    else
      live <- live_on (hh_hostname h) t;;
      ret (found ++ map (resource_of (hh_hostname h)) live)) [] all.

Definition lab : Backend (LabWorld T) := mkBackend (LabWorld T) (lb_name lb) GPU_HOUR (Some (lb_tier lb))
  (fun g _ => ret (supports g))
  free_slots
  launch
  (fun _ _ _ => ret tt)
  poll
  validate_launch
  (fun handle _ => ret (validate_terminate handle))
  fetch_logs
  terminate
  list_resources
  sample_utilization
  (Some (mkLocalOps (LabWorld T) (lc_hosts config) (fun hostname _ => ret (bool_decide (is_Some (host hostname)))) health free_on
    drain undrain)).
End LocalBackend.
