(* ===== verification/LabText.v ===== *)
(** * What reaches a lab host, and what comes back

    The texts of [Commands] and [Environments] against what they are for: the
    member's command arrives intact, the metadata of a running unit comes back as
    the tags of its job, and two environments share a key text exactly when they
    ask for the same things.  [unlines] is what [printf '%s\n'] writes. *)

From Stdlib Require Import Ascii.
From stdpp Require Import pretty.
From S2P Require Import Prelude PyFloat PyDecimal PyFormat PySort PyDict Errors Money Clock PyJson PyText States Models Config Tables Store StoreInv StoreSafe Fixture Backend Commands Volumes Environments Placement Hosts Lab.
Local Open Scope Z_scope.
Local Open Scope py_scope.

(** ** The command *)

(** C29: what a job is started with is one word of the shell, the script; and the
    script carries the member's command as plain characters that decode to it. *)
Theorem launch_carries_command unit_ directory working_dir command env mem cpu run_as meta use_sudo :
  exists word before after encoded,
    commands.launch unit_ directory working_dir command env mem cpu run_as meta use_sudo
      = commands.launch_options unit_ env mem cpu run_as use_sudo +:+ "/bin/bash -lc " +:+ word /\
    sh_word Bare word = Some (commands.inner directory working_dir command meta, "") /\
    commands.inner directory working_dir command meta
      = before +:+ "echo " +:+ encoded +:+ " | base64 -d > " +:+ quote directory +:+ "/run.sh" +:+ after /\
    str_forall is_shell_safe encoded = true /\ b64decode encoded = Some (utf8 command).
Proof.
  exists (quote (commands.inner directory working_dir command meta)). unfold commands.inner. cbv zeta.
  set (d := quote directory). set (m := str_join " " (map quote meta)). set (enc := b64encode (utf8 command)).
  exists ("mkdir -p " +:+ d +:+ " && " +:+ "printf '%s" +:+ newline +:+ "' " +:+ m +:+ " " +:+ "> " +:+ d
    +:+ "/meta && " +:+ "cd " +:+ quote working_dir +:+ " && "),
    (" && " +:+ "bash " +:+ d +:+ "/run.sh > " +:+ d +:+ "/output.log 2>&1; " +:+ "echo $? > " +:+ d +:+ "/exit"), enc.
  split_and!.
  - reflexivity.
  - match goal with |- sh_word _ (quote ?s) = _ => rewrite <- (str_app_nil (quote s)) at 1 end. by apply sh_word_quote.
  - rewrite !str_app_assoc. reflexivity.
  - apply b64_safe, utf8_bytes.
  - apply b64_roundtrip, utf8_bytes.
Qed.

(** ** Clean texts *)

(** One line, without spaces around it. *)
Definition clean (s : string) : bool :=
  str_forall (fun c => negb (is_line_break c)) s && String.eqb (strip s) s.

Definition visible (s : string) : bool := str_forall (fun c => negb (is_py_space c)) s.

Lemma str_forall_app p a b : str_forall p (a +:+ b) = str_forall p a && str_forall p b.
Proof.
  unfold str_forall. induction a as [|c a IH]; [done|]. change (String c a +:+ b) with (String c (a +:+ b)).
  cbn [String.list_ascii_of_string forallb]. rewrite IH. by rewrite andb_assoc.
Qed.

Lemma str_forall_weaken (p q : ascii -> bool) s : (forall c, p c = true -> q c = true) ->
  str_forall p s = true -> str_forall q s = true.
Proof. unfold str_forall. rewrite !forallb_forall. naive_solver. Qed.

Lemma space_break c : is_py_space c = false -> is_line_break c = false.
Proof.
  intros Hc. pose proof (all_chars (fun c => is_py_space c || negb (is_line_break c)) ltac:(by vm_compute) c) as H.
  cbv beta in H. rewrite Hc in H. by apply negb_true_iff in H.
Qed.

Lemma visible_rstrip s : visible s = true -> rstrip s = s.
Proof.
  induction s as [|c s IH]; [done|]. intros [Hc Hs]%andb_true_iff. cbn [rstrip]. rewrite IH by exact Hs.
  destruct s; [|done]. apply negb_true_iff in Hc. by rewrite Hc.
Qed.

Lemma visible_clean s : visible s = true -> clean s = true.
Proof.
  intros Hs. unfold clean. apply andb_true_iff. split.
  - eapply str_forall_weaken; [|exact Hs]. intros c Hc. apply negb_true_iff in Hc. by rewrite space_break.
  - apply String.eqb_eq. unfold strip. replace (lstrip s) with s; [by apply visible_rstrip|].
    destruct s as [|c s]; [done|]. apply andb_true_iff in Hs as [Hc _]. apply negb_true_iff in Hc. cbn [lstrip]. by rewrite Hc.
Qed.

Lemma digit_visible x : negb (is_py_space (pretty_N_char x)) = true.
Proof. unfold pretty_N_char. by repeat case_match. Qed.

Lemma pretty_visible x s : visible s = true -> visible (pretty_N_go x s) = true.
Proof.
  revert s. induction (N.lt_wf_0 x) as [x _ IH]. intros s Hs.
  destruct (decide (x = 0%N)) as [->|Hx]; [by rewrite pretty_N_go_0|].
  rewrite pretty_N_go_step by lia. apply IH; [apply N.div_lt; lia|].
  unfold visible, str_forall in *. cbn [String.list_ascii_of_string forallb]. by rewrite digit_visible, Hs.
Qed.

Lemma pretty_N_visible (x : N) : visible (pretty x) = true.
Proof. unfold pretty, pretty_N. destruct (decide (x = 0%N)); [done|]. by apply pretty_visible. Qed.

Lemma str_of_Z_visible n : visible (str_of_Z n) = true.
Proof.
  unfold str_of_Z. destruct n as [|p|p]; [done|apply (pretty_N_visible (Npos p))|].
  exact (pretty_N_visible (Npos p)).
Qed.

Lemma pad0_visible w n : visible (pad0 w n) = true.
Proof.
  unfold pad0, visible. rewrite str_forall_app. apply andb_true_iff. split; [|apply str_of_Z_visible].
  induction (w - _)%nat as [|k IH]; [done|]. cbn [str_repeat]. by rewrite str_forall_app, IH.
Qed.

Lemma to_iso_visible t : visible (to_iso t) = true.
Proof.
  unfold to_iso. destruct (civil_of_days _) as [[y m] d]. unfold visible. rewrite !str_forall_app.
  repeat match goal with |- context [str_forall ?p (pad0 ?w ?n)] =>
    change (str_forall p (pad0 w n)) with (visible (pad0 w n)); rewrite (pad0_visible w n) end. reflexivity.
Qed.

(** ** The metadata of running units *)

Fixpoint unlines (ls : list string) : string :=
  match ls with [] => "" | l :: ls' => l +:+ newline +:+ unlines ls' end.

Lemma splitlines_unlines ls : Forall (fun l => str_forall (fun c => negb (is_line_break c)) l = true) ls ->
  splitlines (unlines ls) = ls.
Proof.
  induction 1 as [|l ls Hl Hls IH]; [done|]. cbn [unlines]. induction l as [|c l IHl].
  - change ("" +:+ newline +:+ unlines ls) with (String "010" (unlines ls)). cbn [splitlines].
    change (is_line_break "010") with true. change (Ascii.eqb "010" "013") with false. cbn match. f_equal.
    rewrite <- IH at 2. by destruct (unlines ls).
  - apply andb_true_iff in Hl as [Hc Hl]. apply negb_true_iff in Hc.
    change (String c l +:+ newline +:+ unlines ls) with (String c (l +:+ newline +:+ unlines ls)).
    cbn [splitlines]. rewrite Hc, IHl by exact Hl. done.
Qed.

(** What [list_live_jobs] prints: the directories whose unit is active, each with
    the lines of its meta file. *)
Definition listing (running : list (string * list string)) : string :=
  unlines (flat_map (fun d => ("### " +:+ fst d) :: snd d) running).

Lemma clean_strip s : clean s = true -> strip s = s.
Proof. intros [_ H]%andb_true_iff. by apply String.eqb_eq in H. Qed.

(** One line [key=value] of a meta file. *)
Lemma add_field_line (m : gmap string string) k v :
  forallb (fun a => negb (Ascii.eqb a "=")) (String.list_ascii_of_string k) = true -> strip k = k -> clean v = true ->
  commands.add_field m (k +:+ "=" +:+ v) = <[k := v]> m.
Proof.
  intros Hk Hs Hv. unfold commands.add_field.
  assert (Hc : contains "=" (k +:+ "=" +:+ v) = true).
  { unfold contains. rewrite !str_forall_app. cbn. by rewrite andb_false_r. }
  assert (Hp : forall k, forallb (fun a => negb (Ascii.eqb a "=")) (String.list_ascii_of_string k) = true ->
    partition_char "=" (k +:+ "=" +:+ v) = Some (k, v)).
  { clear. intros k. induction k as [|c k IH]; [done|]. intros [Hc Hk]%andb_true_iff.
    change (String c k +:+ "=" +:+ v) with (String c (k +:+ "=" +:+ v)). cbn [partition_char].
    apply negb_true_iff in Hc. rewrite Hc, IH by exact Hk. done. }
  rewrite Hc. unfold partition. rewrite Hp by exact Hk.
  change (default ?d (Some ?x)) with x. cbv beta iota. by rewrite Hs, clean_strip.
Qed.

Definition meta_of (r : Job * Z * Z) : string * list string :=
  let '(j, t, gpu) := r in (j_job_id j, commands.meta_lines (j_job_id j) (j_user_id j) (to_iso t) gpu).

Definition nameable (j : Job) : Prop :=
  clean (j_job_id j) = true /\ clean (j_user_id j) = true /\ j_job_id j <> "".

(** The fields read back for one running unit. *)
Definition fields_of (r : Job * Z * Z) : gmap string string :=
  let '(j, t, gpu) := r in
  <["gpu" := str_of_Z gpu]> (<["launched-at" := to_iso t]> (<["user" := j_user_id j]> {["job-id" := j_job_id j]})).

Lemma live_jobs_listing running current : Forall (fun r => nameable (fst (fst r))) running ->
  commands.live_jobs current (flat_map (fun d => ("### " +:+ fst d) :: snd d) (map meta_of running))
  = match current with Some c => [c] | None => [] end ++ map fields_of running.
Proof.
  intros Hr. revert current. induction Hr as [|[[j t] gpu] running (Hid & Huser & _) Hr IH]; intros current; [by destruct current|].
  cbn [map flat_map meta_of fst snd commands.meta_lines app] in *. cbn [commands.live_jobs].
  rewrite strip_prefix_app, clean_strip by done. f_equal.
  assert (Hskip : forall l, starts "#" l = false -> strip_prefix "### " l = None).
  { intros [|c l]; [done|]. cbn [starts strip_prefix]. intros Hc. by rewrite Ascii.eqb_sym, Hc. }
  rewrite (Hskip ("job-id=" +:+ j_job_id j)), (Hskip ("user=" +:+ j_user_id j)),
    (Hskip ("launched-at=" +:+ to_iso t)), (Hskip ("gpu=" +:+ str_of_Z gpu)) by reflexivity.
  cbn [option_map].
  rewrite (add_field_line _ "job-id" (j_job_id j)), (add_field_line _ "user" (j_user_id j)),
    (add_field_line _ "launched-at" (to_iso t)), (add_field_line _ "gpu" (str_of_Z gpu))
    by (done || apply visible_clean, to_iso_visible || apply visible_clean, str_of_Z_visible).
  rewrite IH. reflexivity.
Qed.

Lemma listing_lines running : Forall (fun r => nameable (fst (fst r))) running ->
  Forall (fun l => str_forall (fun c => negb (is_line_break c)) l = true)
    (flat_map (fun d => ("### " +:+ fst d) :: snd d) (map meta_of running)).
Proof.
  assert (Hc : forall p s, str_forall (fun c => negb (is_line_break c)) p = true -> clean s = true ->
    str_forall (fun c => negb (is_line_break c)) (p +:+ s) = true).
  { intros p s Hp [Hs _]%andb_true_iff. by rewrite str_forall_app, Hp, Hs. }
  induction 1 as [|[[j t] gpu] running (Hid & Huser & _) Hr IH]; [done|].
  cbn [map flat_map meta_of fst snd commands.meta_lines app] in *.
  repeat (constructor; [apply Hc; [reflexivity|]|]); try done;
    [apply visible_clean, to_iso_visible|apply visible_clean, str_of_Z_visible].
Qed.

(** The broker recognises its own: what the shell prints for the units that
    run reads back as one resource per unit, with the handle it was launched
    under and the tags of the job. *)
Theorem lab_tags_roundtrip {T} (lb : LocalBackend T) hostname running :
  Forall (fun r => nameable (fst (fst r))) running ->
  map (resource_of lb hostname) (commands.parse_live_jobs (listing (map meta_of running)))
  = map (fun '(j, t, _) => mkResource (make_handle hostname (j_job_id j)) (lc_gpu_type (lb_config lb)) B_RUNNING
           (tags_for j (to_iso t))) running.
Proof.
  intros Hr. unfold commands.parse_live_jobs, listing. rewrite splitlines_unlines by by apply listing_lines.
  rewrite live_jobs_listing by done. cbn [app]. rewrite map_map. apply map_ext_in. intros [[j t] gpu] Hin%list_elem_of_In.
  rewrite Forall_forall in Hr. destruct (Hr _ Hin) as (_ & _ & Hne). cbn [fst] in Hne. unfold resource_of.
  assert (Hid : default "" (fields_of (j, t, gpu) !! "job-id") = j_job_id j) by (unfold fields_of; by simplify_map_eq).
  assert (Huser : default "" (fields_of (j, t, gpu) !! "user") = j_user_id j) by (unfold fields_of; by simplify_map_eq).
  assert (Hat : default "" (fields_of (j, t, gpu) !! "launched-at") = to_iso t) by (unfold fields_of; by simplify_map_eq).
  cbv zeta. rewrite Hid, Huser, Hat. unfold tags_for. destruct (j_job_id j) as [|c s]; [done|]. reflexivity.
Qed.

(** ** The key of an environment *)

Lemma py_sort_str_iff l l' : py_sort str_lt l = py_sort str_lt l' <-> Permutation l l'.
Proof.
  split; intros H.
  - etransitivity; [symmetry; apply (py_sort_perm str_lt)|]. rewrite H. apply py_sort_perm.
  - apply py_sort_perm_eq; [apply _| |done]. intros a b _ _ Hab Hba. by apply str_lt_total.
Qed.

Definition spec_json (e : Environment) : json :=
  let strings l := JList (map JStr (py_sort str_lt l)) in
  JDict [("apt", strings (env_apt_packages e)); ("base", JStr (env_base_image e));
         ("pip", strings (map normalise (env_requirements e))); ("python", JStr (env_python_version e))].

Lemma spec_plain e : plain (spec_json e) = true.
Proof.
  assert (Hs : forall l, forallb plain (map JStr l) = true) by (intros l; rewrite forallb_forall; by intros x (n & <- & _)%in_map_iff).
  unfold spec_json. cbn -[bool_decide]. by rewrite !Hs.
Qed.

Lemma map_JStr_inj l l' : map JStr l = map JStr l' -> l = l'.
Proof. revert l'. induction l as [|x l IH]; intros [|y l'] H; try done. injection H as -> H. f_equal. by apply IH. Qed.

(** The text an environment is known by says exactly what it asks for: two
    environments have one text when, and only when, they ask for the same base,
    the same Python, and the same packages in whatever order, case and spacing. *)
Theorem canonical_exact e e' : canonical e = canonical e' <->
  env_base_image e = env_base_image e' /\ env_python_version e = env_python_version e' /\
  Permutation (map normalise (env_requirements e)) (map normalise (env_requirements e')) /\
  Permutation (env_apt_packages e) (env_apt_packages e').
Proof.
  split.
  - intros H. change (dumps compact (spec_json e) = dumps compact (spec_json e')) in H.
    assert (E : spec_json e = spec_json e').
    { pose proof (loads_dumps compact (spec_json e) (spec_plain e)) as H1.
      rewrite H, (loads_dumps compact (spec_json e') (spec_plain e')) in H1. apply (f_equal (default JNull)) in H1. symmetry. exact H1. }
    unfold spec_json in E. injection E as Hapt Hbase Hpip Hpy.
    split_and!; [done|done|apply py_sort_str_iff, map_JStr_inj; exact Hpip|apply py_sort_str_iff, map_JStr_inj; exact Hapt].
  - intros (Hbase & Hpy & Hpip%py_sort_str_iff & Hapt%py_sort_str_iff).
    unfold canonical. by rewrite Hbase, Hpy, Hpip, Hapt.
Qed.

(** So the same packages share one digest, whatever the hash. *)
Lemma digest_same sha256 e e' : canonical e = canonical e' -> digest sha256 e = digest sha256 e'.
Proof. unfold digest. by intros ->. Qed.

(** ** Witnesses and runs *)

Definition lab_job : Job := job1.

Definition quiet_lab : LocalBackend unit :=
  mkLocalBackend unit "lab" "local" default_local (fun _ _ _ _ w => (w, Ok (mkCommandResult 0 "" ""))) None default_volumes "~/.gpu-broker/envs".

Lemma lab_tags_roundtrip_witness :
  map (resource_of quiet_lab "rig") (commands.parse_live_jobs (listing [meta_of (job1, noon, 1)]))
  = [mkResource "rig/job-1" "a6000" B_RUNNING (tags_for job1 (to_iso noon))].
Proof.
  apply (lab_tags_roundtrip quiet_lab "rig" [(job1, noon, 1)]). constructor; [|constructor].
  split_and!; [reflexivity|reflexivity|done].
Defined.

(** An environment that is already built: the script in front of the member's
    command ends the whole run with status 0, so the command is never reached. *)
Example cached_environment_exits :
  let e := mkEnvironment "torch" "base" "" ["torch"] [] "" "" None None in
  let lb := mkLocalBackend unit "lab" "local" default_local (lb_transport quiet_lab)
              (Some (fun _ _ w => (w, Ok (Some e)))) default_volumes "/envs" in
  let j := {| job1 with j_environment := Some "torch" |} in
  snd (command_for (fun _ => "0123456789abcdef") lb j "/home/lab" noon (mkLabWorld ∅ ∅ ∅ tt))
  = Ok ("set -e; if [ -x /envs/0123456789abcdef/bin/python ]; then exit 0; fi; "
        +:+ "mkdir -p /envs; rm -rf /envs/.building-0123456789abcdef; "
        +:+ "python3 -m venv /envs/.building-0123456789abcdef; "
        +:+ "/envs/.building-0123456789abcdef/bin/pip install --disable-pip-version-check -q --upgrade pip; "
        +:+ "/envs/.building-0123456789abcdef/bin/pip install --disable-pip-version-check -q torch; "
        +:+ "mv /envs/.building-0123456789abcdef /envs/0123456789abcdef" +:+ newline
        +:+ ". /envs/0123456789abcdef/bin/activate" +:+ newline +:+ "python train.py").
Proof. vm_compute. reflexivity. Qed.
