(* ===== verification/LabProps.v ===== *)
(** * What the lab pool promises

    [lab_ok]: a host remembered as healthy answered the probe of its limits, with
    the number asked for, and showed cards that MPS can open.  Every operation
    keeps it, so a job is only ever sent to such a host, the one with the most room
    of those; and only the answer of a host ends a job. *)

From Stdlib Require Import Ascii Sorted.
From S2P Require Import Prelude PyFloat PyDecimal PyFormat PySort PyDict Errors Money Clock PyJson PyText States Models Config Tables Store StoreInv StoreSafe Fixture Backend Commands Volumes Environments Placement Hosts Lab LabText.
Local Open Scope Z_scope.
Local Open Scope py_scope.

Import commands.

(** ** The host with the most room *)

#[export] Instance room_lt_swo : StrictWeakOrder room_lt.
Proof.
  unfold room_lt. split.
  - intros a b [H|[H1 H2]%andb_true_iff]%orb_true_iff; apply orb_false_iff.
    + split; [lia|]. apply andb_false_iff. left. lia.
    + split; [lia|]. apply andb_false_iff. right. by apply (swo_asym str_lt).
  - intros a b c [H|[H1 H2]%andb_true_iff]%orb_true_iff.
    + destruct (Z.ltb_spec (fst b) (fst a)); [by left|right]. apply orb_true_iff. left. lia.
    + destruct (Z.compare_spec (fst a) (fst b)) as [E|E|E].
      * destruct (swo_cotrans str_lt _ (hh_hostname (snd b)) _ H2) as [H|H]; [left|right];
          apply orb_true_iff; right; apply andb_true_iff; (split; [lia|done]).
      * right. apply orb_true_iff. left. lia.
      * left. apply orb_true_iff. left. lia.
Qed.

Lemma py_sort_head {A} (lt : A -> A -> bool) `{!StrictWeakOrder lt} l x l' :
  py_sort lt l = x :: l' -> x ∈ l /\ forall y, y ∈ l -> lt y x = false.
Proof.
  intros E. pose proof (py_sort_sorted lt l) as Hs. rewrite E in Hs. apply StronglySorted_inv in Hs as [_ Hs].
  assert (Hin : forall y, y ∈ l <-> y ∈ x :: l') by (intros y; by rewrite <- (py_sort_elem lt), E).
  split; [apply Hin; by left|]. intros y [->|Hy]%Hin%elem_of_cons.
  - destruct (lt x x) eqn:Hx; [|done]. pose proof (swo_asym lt _ _ Hx). congruence.
  - rewrite Forall_forall in Hs. by apply Hs.
Qed.

Section Lab.
Context {T : Type} (sha256 : string -> string) (iter : gset string -> list string) (lb : LocalBackend T).
Local Abbreviation config := (lb_config lb).
Local Abbreviation transport := (lb_transport lb).

(** ** The invariant *)

(** The host answered the probe, and what [check_host] saw of it. *)
Definition proven (hh : HostHealth) : Prop :=
  hh_limits_enforced hh = true /\ hh_gpus hh <> [] /\ forallb supports_mps (hh_gpus hh) = true /\ is_Some (hh_home hh) /\
  exists h n n' probe, h ∈ lc_hosts config /\ hs_hostname h = hh_hostname hh /\
    transport h (limit_probe (lc_use_sudo config)) (lc_command_timeout_seconds config) (hh_checked_at hh) n = (n', Ok probe) /\
    cr_ok probe = true /\ parse_limit_probe (cr_stdout probe) = Some PROBE_MEMORY_BYTES.

Definition health_ok (name : string) (hh : HostHealth) : Prop :=
  hh_hostname hh = name /\ (hh_state hh = HEALTHY -> proven hh).

Definition lab_ok (w : LabWorld T) : Prop := map_Forall health_ok (lw_health w).

Lemma try_run_ok h command timeout t (n n' : T) o : try_run transport h command timeout t n = (n', Ok (inl o)) ->
  transport h command timeout t n = (n', Ok o).
Proof.
  unfold try_run, try_catch, bind. destruct (transport h command timeout t n) as [m [r|e]]; [by intros [= -> ->]|].
  by destruct (is_backend_error e).
Qed.

Lemma unusable_none gpus : List.filter (fun g => negb (supports_mps g)) gpus = [] -> forallb supports_mps gpus = true.
Proof. induction gpus as [|g gpus IH]; [done|]. cbn. destruct (supports_mps g); [exact IH|done]. Qed.

(** What a check that answers has found. *)
Lemma check_host_proven h now n n' hh : h ∈ lc_hosts config ->
  check_host transport h config now n = (n', Ok hh) ->
  health_ok (hs_hostname h) hh /\ (hh_state hh <> HEALTHY -> hh_limits_enforced hh = false).
Proof.
  intros Hh Hrun. unfold check_host in Hrun. cbv zeta in Hrun.
  apply bind_ok in Hrun as (n1 & alive & Halive & Hrun). destruct alive as [alive|m]; [|by injection Hrun as _ <-].
  destruct (if cr_ok alive then _ else _) as [home|]; [|by injection Hrun as _ <-].
  apply bind_ok in Hrun as (n2 & smi & _ & Hrun). destruct smi as [smi|m]; [|by injection Hrun as _ <-].
  destruct (cr_ok smi); [|by injection Hrun as _ <-]. cbn [negb] in Hrun.
  apply bind_ok in Hrun as (n3 & gpus & Hgpus & Hrun).
  destruct gpus as [|g gpus]; [by injection Hrun as _ <-|].
  destruct (List.filter _ (g :: gpus)) as [|bad rest] eqn:Hbad; [|by injection Hrun as _ <-].
  apply bind_ok in Hrun as (n4 & probe & Hprobe & Hrun). destruct probe as [probe|m]; [|by injection Hrun as _ <-].
  destruct (bool_decide_reflect ((if cr_ok probe then parse_limit_probe (cr_stdout probe) else None) = Some PROBE_MEMORY_BYTES))
    as [Happlied|]; [|by injection Hrun as _ <-]. cbn [negb] in Hrun.
  apply bind_ok in Hrun as (n5 & mps & _ & Hrun). injection Hrun as _ <-.
  split; [|done]. split; [done|]. intros _. split_and!; [done|done|by apply unusable_none|done|].
  exists h, n3, n4, probe. apply try_run_ok in Hprobe. destruct (cr_ok probe) eqn:Hok; [|done]. by split_and!.
Qed.

(** ** What the operations keep: the invariant, and the drains by hand *)

Section Kept.
Context (drains : gmap string string).

Definition kept (w : LabWorld T) : Prop := lab_ok w /\ lw_manual_drain w = drains.

Lemma keeps_on_net {A} (m : Prelude.M T exn A) : keeps kept (on_net m).
Proof. intros w Hw. unfold on_net. destruct (m (lw_net w)) as [n []]; exact Hw. Qed.

Lemma keeps_run h command timeout t : keeps kept (run lb h command timeout t).
Proof. apply keeps_on_net. Qed.

Lemma keeps_or_else {A} (m : Prelude.M (LabWorld T) exn A) d : keeps kept m -> keeps kept (or_else m d).
Proof. intros Hm. apply keeps_try; [done|]. intros. apply keeps_ret. Qed.

(** A health as the scheduler sees it: healthy means proven and not drained. *)
Definition seen_ok (hh : HostHealth) : Prop :=
  hh_state hh = HEALTHY -> proven hh /\ drains !! hh_hostname hh = None.

Lemma drained_seen name hh : health_ok name hh -> seen_ok (with_manual_drain drains hh).
Proof. intros [_ H]. unfold seen_ok, with_manual_drain. destruct (drains !! hh_hostname hh) eqn:E; [done|]. intros Hs. by split; [apply H|]. Qed.

Lemma health_one_kept refresh now h : h ∈ lc_hosts config ->
  triple kept (health_one lb refresh now h) (fun hh w => kept w /\ seen_ok hh) (fun _ => kept).
Proof.
  intros Hh. unfold health_one.
  eapply (triple_bind _ _ _ (fun known w => kept w /\ known = lw_health w !! hs_hostname h)); [by intros w Hw|].
  intros known. eapply (triple_bind _ _ _ (fun hh w => kept w /\ health_ok (hs_hostname h) hh)).
  2: { intros hh w [[Hw Hd] Hhh]. cbn. split; [by split|]. rewrite Hd. by eapply drained_seen. }
  assert (Hfresh : triple kept (k <- on_net (check_host transport h config now);;
    modify (fun w => {| w with lw_health := <[hs_hostname h := k]> (lw_health w) |});;; ret k)
    (fun hh w => kept w /\ health_ok (hs_hostname h) hh) (fun _ => kept)).
  { intros w [Hw Hd]. unfold on_net, bind. destruct (check_host transport h config now (lw_net w)) as [n [k|e]] eqn:E; [|by split].
    apply check_host_proven in E as [Hk _]; [|done]. cbn. split; [|done]. split; [|done].
    by apply map_Forall_insert_2. }
  destruct known as [k|].
  - destruct (is_stale lb (Some k) refresh now).
    + intros w [Hw _]. by apply Hfresh.
    + intros w [[Hw Hd] Hk]. cbn. split; [by split|]. symmetry in Hk. by apply (Hw _ _ Hk).
  - intros w [Hw _]. by apply Hfresh.
Qed.

Lemma health_kept refresh now :
  triple kept (health lb refresh now) (fun all w => kept w /\ Forall seen_ok all) (fun _ => kept).
Proof.
  unfold health. assert (Hall : forall hs, hs ⊆ lc_hosts config ->
    triple kept (mapM_ (health_one lb refresh now) hs) (fun all w => kept w /\ Forall seen_ok all) (fun _ => kept)).
  { induction hs as [|h hs IH]; intros Hin; [by apply triple_ret|]. cbn [mapM_].
    eapply triple_bind; [apply health_one_kept; apply Hin; by left|]. intros hh.
    eapply (triple_bind _ _ _ (fun all w => (kept w /\ Forall seen_ok all) /\ seen_ok hh)).
    - intros w [Hw Hhh]. specialize (IH ltac:(intros x Hx; apply Hin; by right) w Hw).
      destruct (mapM_ _ hs w) as [w' []]; [by split|done].
    - intros all. apply triple_ret. intros w [[Hw Hall] Hhh]. split; [done|by constructor]. }
  by apply Hall.
Qed.

Lemma health_keeps refresh now : keeps kept (health lb refresh now).
Proof. eapply triple_conseq; [apply health_kept|done|by intros ?? []|done]. Qed.

Lemma live_on_kept hostname t : keeps kept (live_on lb hostname t).
Proof.
  unfold live_on. destruct (host lb hostname); [|apply keeps_ret].
  apply keeps_bind; [|intros; apply keeps_ret]. apply keeps_or_else.
  apply keeps_bind; [apply keeps_gets|intros]. apply keeps_bind; [apply keeps_run|intros; apply keeps_ret].
Qed.

Lemma free_on_kept hh t : keeps kept (free_on lb hh t).
Proof. apply keeps_bind; [apply live_on_kept|intros; apply keeps_ret]. Qed.

(** The hosts are asked one after the other how many slots they have free. *)
Inductive surveyed (t : Z) : LabWorld T -> list HostHealth -> list (Z * HostHealth) -> Prop :=
| surveyed_nil w : surveyed t w [] []
| surveyed_cons w h free w' hs found :
    free_on lb h t w = (w', Ok free) -> surveyed t w' hs found -> surveyed t w (h :: hs) ((free, h) :: found).

(** The host a job goes to, from [w]: of the hosts that are healthy, proven and not
    drained, every one having been asked, the one with the most free slots, or the
    first by name of those, and it has one. *)
Definition chosen (j : Job) (t : Z) (w : LabWorld T) (hh : HostHealth) : Prop :=
  supports lb (j_gpu_type j) = true /\ hh_state hh = HEALTHY /\ proven hh /\ drains !! hh_hostname hh = None /\
  exists w1 all found free, health lb false t w = (w1, Ok all) /\
    surveyed t w1 (List.filter (fun h => bool_decide (hh_state h = HEALTHY)) all) found /\
    (free, hh) ∈ found /\ 0 < free /\
    forall p, p ∈ found -> fst p <= free /\ (fst p = free -> str_lt (hh_hostname (snd p)) (hh_hostname hh) = false).

Lemma surveyed_run t hs w w' found :
  mapM_ (fun h => free <- free_on lb h t;; ret (free, h)) hs w = (w', Ok found) -> surveyed t w hs found.
Proof.
  revert w w' found. induction hs as [|h hs IH]; intros w w' found; cbn [mapM_]; [intros [= <- <-]; constructor|].
  intros (w1 & p & Hp & Hrest)%bind_ok. apply bind_ok in Hp as (w2 & free & Hfree & Hp). injection Hp as -> <-.
  apply bind_ok in Hrest as (w3 & ps & Hps & Hrest). injection Hrest as _ <-. eapply surveyed_cons; [exact Hfree|by eapply IH].
Qed.

Lemma surveyed_in t w hs found p : surveyed t w hs found -> p ∈ found -> snd p ∈ hs.
Proof. induction 1 as [|w h free w' hs found _ _ IH]; [by intros ?%not_elem_of_nil|]. intros [->|Hp]%elem_of_cons; [left|right; auto]. Qed.

Lemma pick_host_kept j t : keeps kept (pick_host lb j t).
Proof.
  unfold pick_host. destruct (negb _); [apply keeps_raise|]. apply keeps_bind; [apply health_keeps|]. intros all. cbv zeta.
  destruct all as [|h0 all]; [apply keeps_raise|]. destruct (List.filter _ (h0 :: all)) as [|h1 usable]; [apply keeps_raise|].
  apply keeps_bind.
  - apply keeps_mapM. intros h. apply keeps_bind; [apply free_on_kept|intros; apply keeps_ret].
  - intros found. destruct (py_sort _ _) as [|[f h] rest]; [apply keeps_raise|apply keeps_ret].
Qed.

Lemma pick_host_chosen j t w w' hh : kept w -> pick_host lb j t w = (w', Ok hh) -> chosen j t w hh.
Proof.
  intros Hw. unfold pick_host. destruct (supports lb (j_gpu_type j)) eqn:Hsup; [|done]. cbn [negb].
  intros (w1 & all & Hall & Hrun)%bind_ok. cbv zeta in Hrun.
  pose proof (health_kept false t w Hw) as Hseen. rewrite Hall in Hseen. destruct Hseen as [_ Hseen].
  destruct all as [|h0 all]; [done|]. set (usable := List.filter _ (h0 :: all)) in Hrun.
  destruct usable as [|u us] eqn:Hus; [done|]. rewrite <- Hus in Hrun.
  apply bind_ok in Hrun as (w2 & found & Hfound & Hrun). apply surveyed_run in Hfound.
  destruct (py_sort room_lt _) as [|[free h] rest] eqn:Hsort; [done|]. injection Hrun as _ <-.
  apply py_sort_head in Hsort as [Hin Hmin]; [|apply _].
  apply list_elem_of_In, filter_In in Hin as [Hin%list_elem_of_In Hpos%Z.ltb_lt]. cbn [fst] in Hpos.
  pose proof (surveyed_in _ _ _ _ _ Hfound Hin) as Husable. cbn [snd] in Husable.
  apply list_elem_of_In, filter_In in Husable as [Hmem%list_elem_of_In Hacc%bool_decide_eq_true].
  rewrite Forall_forall in Hseen. destruct (Hseen _ Hmem Hacc) as [Hproven Hdrain]. split_and!; [done..|].
  exists w1, (h0 :: all), found, free. split_and!; [done|exact Hfound|done|done|]. intros p Hp.
  destruct (Z.ltb_spec 0 (fst p)) as [Hpp|]; [|lia].
  assert (Hlt : room_lt p (free, h) = false).
  { apply Hmin. apply list_elem_of_In, filter_In. split; [by apply list_elem_of_In|by apply Z.ltb_lt]. }
  unfold room_lt in Hlt. apply orb_false_iff in Hlt as [Hlt Htie]. cbn [fst snd] in *. split; [lia|].
  intros E. apply andb_false_iff in Htie as [Htie|Htie]; [lia|done].
Qed.

(** ** The operations *)

Lemma keeps_mark hostname reason t : keeps kept (mark_unreachable hostname reason t).
Proof. intros w [Hw Hd]. split; [|done]. cbn. apply map_Forall_insert_2; [by split|exact Hw]. Qed.

Lemma keeps_same (f : LabWorld T -> LabWorld T) :
  (forall w, lw_health (f w) = lw_health w /\ lw_manual_drain (f w) = lw_manual_drain w) -> keeps kept (modify f : Prelude.M (LabWorld T) exn unit).
Proof. intros Hf w [Hw Hd]. cbn. destruct (Hf w) as [E1 E2]. unfold kept, lab_ok. by rewrite E1, E2. Qed.

Lemma ensure_mps_kept h hh t : keeps kept (ensure_mps lb h hh t).
Proof.
  apply keeps_bind; [apply keeps_gets|]. intros started. destruct (_ || _); [apply keeps_ret|].
  apply keeps_bind; [apply keeps_on_net|intros]. by apply keeps_same.
Qed.

Lemma command_for_kept j home t : keeps kept (command_for sha256 lb j home t).
Proof.
  apply keeps_bind; [|intros; apply keeps_ret].
  destruct (j_environment j) as [[|]|]; [apply keeps_ret| |apply keeps_ret].
  destruct (lb_environments lb); [apply keeps_on_net|apply keeps_ret].
Qed.

Lemma lab_poll_kept handle t : keeps kept (poll lb handle t).
Proof.
  unfold poll. destruct (split_handle handle) as [hostname job_id]. destruct (host lb hostname); [|apply keeps_ret].
  apply keeps_bind; [apply keeps_gets|]. intros [reason|]; [apply keeps_ret|]. apply keeps_try.
  - apply keeps_bind; [apply keeps_gets|intros]. apply keeps_bind; [apply keeps_run|intros; apply keeps_ret].
  - intros e. apply keeps_bind; [apply keeps_mark|intros; apply keeps_ret].
Qed.

Lemma lab_fetch_logs_kept handle after t : keeps kept (fetch_logs lb handle after t).
Proof.
  unfold fetch_logs. destruct (split_handle handle) as [hostname job_id]. destruct (host lb hostname); [|apply keeps_ret].
  apply keeps_or_else. apply keeps_bind; [apply keeps_gets|intros]. apply keeps_bind; [apply keeps_run|intros; apply keeps_ret].
Qed.

Lemma sample_kept handle t : keeps kept (sample_utilization iter lb handle t).
Proof.
  unfold sample_utilization. destruct (split_handle handle) as [hostname job_id]. destruct (host lb hostname); [|apply keeps_ret].
  apply keeps_bind; [apply keeps_gets|]. intros [reason|]; [apply keeps_ret|].
  apply keeps_bind; [apply keeps_or_else, keeps_bind; [apply keeps_run|intros; apply keeps_ret]|].
  intros [r|]; [|apply keeps_ret]. destruct (cr_ok r); [|apply keeps_ret].
  apply keeps_bind; [apply keeps_lift|intros; apply keeps_ret].
Qed.

Lemma lab_terminate_kept handle reason t : keeps kept (terminate lb handle reason t).
Proof.
  unfold terminate. destruct (split_handle handle) as [hostname job_id]. destruct (host lb hostname); [|apply keeps_ret].
  apply keeps_or_else, keeps_bind; [apply keeps_run|intros; apply keeps_ret].
Qed.

Lemma free_slots_kept gpu t : keeps kept (free_slots lb gpu t).
Proof.
  unfold free_slots. destruct (negb _); [apply keeps_ret|]. apply keeps_bind.
  - apply keeps_bind; [apply health_keeps|intros; apply keeps_ret].
  - intros hs. apply keeps_foldM. intros. apply keeps_bind; [apply free_on_kept|intros; apply keeps_ret].
Qed.

Lemma lab_list_resources_kept t : keeps kept (list_resources lb t).
Proof.
  apply keeps_bind; [apply health_keeps|]. intros all. apply keeps_foldM. intros found h.
  destruct (bool_decide _); [apply keeps_ret|]. apply keeps_bind; [apply live_on_kept|intros; apply keeps_ret].
Qed.

(** The job was sent to the chosen host, and the host took it. *)
Definition started (j : Job) (t : Z) (w : LabWorld T) (al : Allocation) : Prop :=
  exists hh h device command n n' result, chosen j t w hh /\ host lb (hh_hostname hh) = Some h /\
    al = mkAllocation (make_handle (hs_hostname h) (j_job_id j)) (lc_gpu_type config) (tags_for j (to_iso t)) /\
    transport h (launch_command lb j h (home_text (hh_home hh)) device command t) (lc_command_timeout_seconds config) t n
      = (n', Ok result) /\ cr_ok result = true.

Lemma lab_launch_kept j t w0 : triple (fun w => kept w /\ w = w0) (Lab.launch sha256 lb j t)
  (fun al w => kept w /\ started j t w0 al) (fun _ => kept).
Proof.
  unfold Lab.launch. eapply (triple_bind _ _ _ (fun hh w => kept w /\ chosen j t w0 hh)).
  { intros w [Hw ->]. pose proof (pick_host_kept j t w0 Hw) as Hk. pose proof (pick_host_chosen j t w0) as Hc.
    destruct (pick_host lb j t w0) as [w1 [hh|e]]; [|exact Hk]. split; [exact Hk|by eapply Hc]. }
  intros hh. destruct (host lb (hh_hostname hh)) as [h|] eqn:Hh; [|by apply triple_raise; intros w []].
  assert (Hstep : forall A (m : Prelude.M (LabWorld T) exn A), keeps kept m ->
    triple (fun w => kept w /\ chosen j t w0 hh) m (fun _ w => kept w /\ chosen j t w0 hh) (fun _ => kept)).
  { intros A m Hm w [Hw Hc]. pose proof (Hm w Hw) as Hm1. by destruct (m w) as [w1 []]. }
  eapply triple_bind; [apply Hstep; apply keeps_bind; [apply live_on_kept|intros; apply keeps_ret]|]. intros device.
  eapply triple_bind; [apply Hstep, ensure_mps_kept|]. intros started0.
  eapply triple_bind; [apply Hstep, command_for_kept|]. intros command.
  intros w [Hw Hc]. unfold bind, run, on_net. set (line := launch_command lb j h (home_text (hh_home hh)) device command t).
  destruct (transport h line (lc_command_timeout_seconds config) t (lw_net w)) as [n [result|e]] eqn:Hrun; [|exact Hw].
  destruct (cr_ok result) eqn:Hok; [|exact Hw]. split; [exact Hw|].
  by exists hh, h, device, command, (lw_net w), n, result.
Qed.
End Kept.

(** ** Reachable pools *)

(** A call of the broker, whether it returns or raises; a restart of the broker,
    which forgets what the object knew; anything that happens on the network. *)
Inductive lab_step : LabWorld T -> LabWorld T -> Prop :=
| LS_launch j t w : lab_step w (fst (Lab.launch sha256 lb j t w))
| LS_validate j t w : lab_step w (fst (pick_host lb j t w))
| LS_poll h t w : lab_step w (fst (poll lb h t w))
| LS_logs h after t w : lab_step w (fst (fetch_logs lb h after t w))
| LS_sample h t w : lab_step w (fst (sample_utilization iter lb h t w))
| LS_terminate h reason t w : lab_step w (fst (terminate lb h reason t w))
| LS_free gpu t w : lab_step w (fst (free_slots lb gpu t w))
| LS_list t w : lab_step w (fst (list_resources lb t w))
| LS_health refresh t w : lab_step w (fst (health lb refresh t w))
| LS_drain hostname reason t w : lab_step w (fst (drain lb hostname reason t w))
| LS_undrain hostname t w : lab_step w (fst (undrain hostname t w))
| LS_restart w : lab_step w (mkLabWorld ∅ ∅ ∅ (lw_net w))
| LS_network n w : lab_step w {| w with lw_net := n |}.

Lemma kept_ok {A} (m : Prelude.M (LabWorld T) exn A) w :
  (forall drains, keeps (kept drains) m) -> lab_ok w -> lab_ok (fst (m w)).
Proof. intros Hm Hw. pose proof (Hm (lw_manual_drain w) w (conj Hw eq_refl)) as H. destruct (m w) as [w1 []]; apply H. Qed.

Lemma lab_step_ok w w' : lab_step w w' -> lab_ok w -> lab_ok w'.
Proof.
  intros Hstep Hw. destruct Hstep as [j t w|j t w|h t w|h after t w|h t w|h reason t w|gpu t w|t w|refresh t w
    |hostname reason t w|hostname t w|w|n w];
    [apply kept_ok; [intros drains|exact Hw]..| | | |].
  - intros w0 Hw0. pose proof (lab_launch_kept drains j t w0 w0 (conj Hw0 eq_refl)) as H.
    destruct (Lab.launch sha256 lb j t w0) as [w1 []]; [apply H|exact H].
  - apply pick_host_kept.
  - apply lab_poll_kept.
  - apply lab_fetch_logs_kept.
  - apply sample_kept.
  - apply lab_terminate_kept.
  - apply free_slots_kept.
  - apply lab_list_resources_kept.
  - apply health_keeps.
  - unfold drain. by destruct (host lb hostname).
  - cbn. by apply map_Forall_delete.
  - apply map_Forall_empty.
  - exact Hw.
Qed.

Lemma lab_steps_ok w w' : rtc lab_step w w' -> lab_ok w -> lab_ok w'.
Proof. induction 1; eauto using lab_step_ok. Qed.

(** C28: a job is only ever started on a host that is healthy, that answered the
    probe of its memory limit with the number asked for, whose cards MPS can
    open, and that nobody drained by hand; of all such hosts, asked one by one, it
    is the one with the most free slots, the first by name of those, and it has a
    free slot; and the job counts as started only when the host took the command. *)
Theorem lab_launch_placed n0 w j t w' al :
  rtc lab_step (mkLabWorld ∅ ∅ ∅ n0) w -> Lab.launch sha256 lb j t w = (w', Ok al) ->
  started (lw_manual_drain w) j t w al.
Proof.
  intros Hsteps Hrun. assert (Hw : lab_ok w) by (eapply lab_steps_ok; [exact Hsteps|apply map_Forall_empty]).
  pose proof (lab_launch_kept (lw_manual_drain w) j t w w (conj (conj Hw eq_refl) eq_refl)) as H. rewrite Hrun in H. apply H.
Qed.

(** ** Only a host ends a job *)

(** What [poll] asks a host. *)
Definition status_command (w : LabWorld T) (handle : string) : string :=
  let '(hostname, job_id) := split_handle handle in
  let root := expand (lc_job_root config) (match lw_health w !! hostname with Some h => home_text (hh_home h) | None => "" end) in
  unit_status (unit_for job_id) (job_dir root job_id) (lc_use_sudo config).

Lemma poll_unreachable handle t w h reason : host lb (fst (split_handle handle)) = Some h ->
  known_unreachable w (fst (split_handle handle)) = Some reason ->
  poll lb handle t w = (w, Ok (mkObservation PENDING None (Some ("host not answering: " +:+ reason)))).
Proof.
  unfold poll. destruct (split_handle handle) as [hostname job_id]. cbn [fst]. intros Hh Hk.
  rewrite Hh. unfold gets, bind. by rewrite Hk.
Qed.

Lemma completed_exit u : ob_status (observation_of lb u) = B_COMPLETED <-> un_exit_code u = Some 0.
Proof.
  unfold observation_of. destruct (un_exit_code u) as [code|].
  - destruct (Z.eqb_spec code 0) as [->|Hc]; [by split|]. split; [done|]. congruence.
  - repeat case_match; by split.
Qed.

(** Only the answer of a host ends a job: a poll answers a terminal status
    when the host is no longer configured, or as the host's own report says,
    completed meaning that the exit file holds 0.  A host that does not answer
    leaves the job pending, and is not asked again for any of its jobs until its
    health is checked anew. *)
Theorem lab_poll_safe handle t w w' ob h :
  host lb (fst (split_handle handle)) = Some h -> poll lb handle t w = (w', Ok ob) ->
  (ob_status ob ∈ TERMINAL_STATUSES -> exists n result,
     transport h (status_command w handle) (lc_poll_timeout_seconds config) t (lw_net w) = (n, Ok result) /\
     ob = observation_of lb (parse_unit_status (cr_stdout result)) /\
     (ob_status ob = B_COMPLETED <-> un_exit_code (parse_unit_status (cr_stdout result)) = Some 0)) /\
  (forall n e, transport h (status_command w handle) (lc_poll_timeout_seconds config) t (lw_net w) = (n, Raise e) ->
     ob_status ob = PENDING /\
     forall handle' t', fst (split_handle handle') = fst (split_handle handle) -> exists ob',
       poll lb handle' t' w' = (w', Ok ob') /\ ob_status ob' = PENDING).
Proof.
  clear sha256 iter. intros Hh Hrun.
  destruct (known_unreachable w (fst (split_handle handle))) as [reason|] eqn:Hk.
  - rewrite (poll_unreachable handle t w h reason Hh Hk) in Hrun. injection Hrun as <- <-.
    split; [intros Hin; cbn in Hin; set_solver|]. intros n e _. split; [done|]. intros handle' t' E.
    rewrite <- E in Hh, Hk. rewrite (poll_unreachable handle' t' w h reason Hh Hk). by eexists.
  - unfold poll, status_command in *. destruct (split_handle handle) as [hostname job_id]. cbn [fst] in *.
    rewrite Hh in Hrun. unfold gets, bind, try_catch, root_for, run, on_net in Hrun. unfold gets, bind in Hrun. rewrite Hk in Hrun.
    set (command := unit_status _ _ _) in *.
    destruct (transport h command (lc_poll_timeout_seconds config) t (lw_net w)) as [n [result|e]].
    + injection Hrun as <- <-. split; [|by intros]. intros _. exists n, result. split_and!; [done|done|apply completed_exit].
    + destruct (is_backend_error e) eqn:He; [|done]. injection Hrun as <- <-.
      split; [intros Hin; cbn in Hin; set_solver|]. intros n' e' [= -> ->]. split; [done|]. intros handle' t' E.
      eexists. split; [apply (poll_unreachable handle' t' _ h (exn_str e')); rewrite E; [done|]|done].
      unfold known_unreachable, mark_unreachable. cbn. by rewrite lookup_insert_eq.
Qed.
End Lab.

(** ** One host *)

Definition rig : HostSpec := mkHostSpec "rig" "broker" 22 None None.

Definition rig_config : LocalConfig := {| default_local with lc_hosts := [rig] |}.

Definition says (out : string) : CommandResult := mkCommandResult 0 out "".

(** A host that answers while the network is up. *)
Definition rig_net : Transport bool := fun _ command _ _ up =>
  (up, if negb up then Raise (BackendError "rig: no route to host")
       else Ok (says (if String.eqb command HELLO then "ok" +:+ newline +:+ "/home/lab"
         else if String.eqb command GPU_QUERY then "0, NVIDIA RTX A6000, 49140, 3, 0, Default"
         else if String.eqb command (limit_probe true) then "67108864"
         else if starts_with "printf 'exitfile" command then "exitfile=0" +:+ newline +:+ "ActiveState=inactive"
         else ""))).

Definition rig_lab : LocalBackend bool :=
  mkLocalBackend bool "lab" "local" rig_config rig_net None default_volumes "~/.gpu-broker/envs".

Definition no_hash : string -> string := fun _ => "0123456789abcdef".
Definition rig_job : Job := {| job1 with j_gpu_type := "a6000" |}.
Definition rig_start : LabWorld bool := mkLabWorld ∅ ∅ ∅ true.
Definition rig_running : LabWorld bool := fst (Lab.launch no_hash rig_lab rig_job noon rig_start).

Lemma lab_launch_placed_witness : exists al,
  snd (Lab.launch no_hash rig_lab rig_job noon rig_start) = Ok al /\ al_handle al = "rig/job-1" /\
  started rig_lab ∅ rig_job noon rig_start al.
Proof.
  destruct (Lab.launch no_hash rig_lab rig_job noon rig_start) as [w' o] eqn:E.
  assert (Ho : exists al, o = Ok al /\ al_handle al = "rig/job-1").
  { apply (f_equal snd) in E. vm_compute in E. clear -E. subst o. eexists. split; reflexivity. }
  destruct Ho as (al & -> & Hal). exists al. split; [reflexivity|]. split; [exact Hal|].
  apply (lab_launch_placed no_hash elements rig_lab true rig_start rig_job noon w' al); [apply rtc_refl|exact E].
Defined.

Lemma lab_poll_safe_witness : exists ob,
  snd (poll rig_lab "rig/job-1" (noon + 1) rig_running) = Ok ob /\ ob_status ob = B_COMPLETED /\
  exists result, ob = observation_of rig_lab (parse_unit_status (cr_stdout result)) /\
    un_exit_code (parse_unit_status (cr_stdout result)) = Some 0.
Proof.
  destruct (poll rig_lab "rig/job-1" (noon + 1) rig_running) as [w' o] eqn:E.
  assert (Ho : exists ob, o = Ok ob /\ ob_status ob = B_COMPLETED).
  { apply (f_equal snd) in E. vm_compute in E. clear -E. subst o. eexists. split; reflexivity. }
  destruct Ho as (ob & -> & Hob). exists ob. split; [reflexivity|]. split; [exact Hob|].
  destruct (lab_poll_safe rig_lab "rig/job-1" (noon + 1) rig_running w' ob rig ltac:(vm_compute; reflexivity) E) as [H _].
  destruct H as (n & result & _ & Hres & Hiff).
  - rewrite Hob. apply (bool_decide_unpack (B_COMPLETED ∈ TERMINAL_STATUSES)). vm_compute. exact I.
  - exists result. split; [exact Hres|]. apply Hiff, Hob.
Defined.

(** A host that stops answering right after the probe of its limits makes the
    check raise: the last command of [check_host] is outside any [try]. *)
Example check_host_raises :
  let net : Transport nat := fun h command timeout t n =>
    (S n, if (3 <=? n)%nat then Raise (BackendError "rig: connection lost") else snd (rig_net h command timeout t true)) in
  snd (check_host net rig rig_config noon 0%nat) = Raise (BackendError "rig: connection lost").
Proof. vm_compute. reflexivity. Qed.
