(* ===== verification/Ssh.v ===== *)
(** * local/transport.py: commands over SSH, one connection kept per host

    asyncssh is a parameter, the record [Asyncssh C N]: connections of any type
    [C] over a network [N], which may refuse, be late, or answer.  The caller of
    [run] waits for the coroutine on another thread for a limited time; an
    [Abandoned] answer of the network says that this time ran out while the
    coroutine was waiting for that answer, and the coroutine is cancelled there.
    One [run] at a time is modelled, as the scheduler makes them: the lock the
    class creates is never taken. *)

From S2P Require Import Prelude PyFloat PyFormat PyDict Errors Backend Hosts PyText.
Local Open Scope Z_scope.
Local Open Scope py_scope.

(** The [stdout] of a finished command: nothing, text, or bytes, which are kept as
    the text they decode to ([value.decode("utf-8", errors="replace")]). *)
Inductive output :=
| ONone
| OStr (s : string)
| OBytes (decoded : string).

(** [_text(value)] *)
Definition text_of (value : output) : string :=
  match value with ONone => "" | OStr s => s | OBytes s => s end.

Inductive opening (C : Type) :=
| Connected (c : C)
| ConnectTimeout
| ConnectFailed (message : string)
| ConnectAbandoned.
Arguments Connected {C} c.
Arguments ConnectTimeout {C}.
Arguments ConnectFailed {C} message.
Arguments ConnectAbandoned {C}.

Inductive reply :=
| Replied (exit_status : option Z) (stdout stderr : output)
| ReplyTimeout
| ReplyFailed (message : string)
| ReplyAbandoned.

(** [as_wait] tells the network how long the caller waits; [as_close] may raise,
    which the source ignores. *)
Record Asyncssh (C N : Type) := mkAsyncssh {
  as_wait : float -> N -> N;
  as_connect : string -> string -> Z -> option string -> list string -> float -> N -> N * opening C;
  as_run : C -> string -> float -> N -> N * reply;
  as_close : C -> N -> N
}.
Arguments as_wait {C N} _.
Arguments as_connect {C N} _.
Arguments as_run {C N} _.
Arguments as_close {C N} _.

(** [SshTransport]: the pool of connections, by the text of [_key]. *)
Record SshTransport (C N : Type) := mkSshTransport {
  st_connect_timeout : float;
  st_command_timeout : float;
  st_connections : dict string C;
  st_closed : bool;
  st_net : N
}.
Arguments mkSshTransport {C N} _ _ _ _ _.
Arguments st_connect_timeout {C N} _.
Arguments st_command_timeout {C N} _.
Arguments st_connections {C N} _.
Arguments st_closed {C N} _.
Arguments st_net {C N} _.

(** [SshTransport(connect_timeout, command_timeout)] *)
Definition new_transport {C N} (connect_timeout command_timeout : float) (net : N) : SshTransport C N :=
  mkSshTransport connect_timeout command_timeout [] false net.

(** [_key(host)]: neither the key file nor the known hosts are part of it. *)
Definition key (host : HostSpec) : string :=
  hs_username host +:+ "@" +:+ hs_hostname host +:+ ":" +:+ str_of_Z (hs_port host).

(** [self._connections.pop(key, None)], as what is left *)
Definition dict_pop {V} (k : string) (m : dict string V) : dict string V :=
  List.filter (fun e => negb (String.eqb (fst e) k)) m.

(** How the coroutine ends when it does not return. *)
Inductive failure := Failed (e : exn) | Abandoned.

Section Ssh.
Context {C N : Type} (ssh : Asyncssh C N).

Notation T := (SshTransport C N).

Definition on_net {E A} (f : N -> N * A) : M T E A := fun s =>
  let (n, a) := f (st_net s) in (mkSshTransport (st_connect_timeout s) (st_command_timeout s) (st_connections s) (st_closed s) n, Ok a).

Definition set_connections {E} (m : dict string C) : M T E unit := fun s =>
  (mkSshTransport (st_connect_timeout s) (st_command_timeout s) m (st_closed s) (st_net s), Ok tt).

(** [try: connection.close() except Exception: pass] *)
Definition shut {E} (c : C) : M T E unit := on_net (fun n => (as_close ssh c n, tt)).

(** [_forget(host)] *)
Definition forget {E} (host : HostSpec) : M T E unit :=
  pool <- gets st_connections;;
  set_connections (dict_pop (key host) pool);;;
  match dict_get (key host) pool with
  | Some connection => shut connection
  | None => ret tt
  end.

(** The options of [asyncssh.connect]. *)
Definition client_keys (host : HostSpec) : list string :=
  match hs_client_key host with
  | Some k => if non_empty k then [k] else []
  | None => []
  end.

(** [_connect(host, reconnect)] *)
Definition connect (host : HostSpec) (reconnect : bool) : M T failure C :=
  (if reconnect then forget host else ret tt);;;
  pool <- gets st_connections;;
  match dict_get (key host) pool with
  | Some existing => ret existing
  | None =>
      limit <- gets st_connect_timeout;;
      answer <- on_net (as_connect ssh (hs_hostname host) (hs_username host) (hs_port host)
                          (hs_known_hosts host) (client_keys host) limit);;
      match answer with
      | Connected connection => set_connections (dict_set (key host) connection pool);;; ret connection
      | ConnectTimeout =>
          raise (Failed (BackendError (hs_hostname host +:+ ": no SSH response within " +:+ f_fixed 0 limit +:+ "s")))
      | ConnectFailed message =>
          raise (Failed (BackendError (hs_hostname host +:+ ": cannot connect: " +:+ message)))
      | ConnectAbandoned => raise Abandoned
      end
  end.

(** [for attempt in (1, 2)] of [_run(host, command, timeout)] *)
Fixpoint attempts (host : HostSpec) (command : string) (timeout : float) (left : list Z) : M T failure CommandResult :=
  match left with
  | [] => raise (Failed (BackendError (hs_hostname host +:+ ": unreachable")))
  | attempt :: left' =>
      connection <- connect host (attempt =? 2);;
      answer <- on_net (as_run ssh connection command timeout);;
      match answer with
      | Replied exit_status stdout stderr =>
          ret (mkCommandResult (default (-1) exit_status) (text_of stdout) (text_of stderr))
      | ReplyTimeout =>
          raise (Failed (BackendError (hs_hostname host +:+ ": command timed out after " +:+ f_fixed 0 timeout
            +:+ "s: " +:+ str_take 80 command)))
      | ReplyFailed message =>
          forget host;;;
          if attempt =? 2 then raise (Failed (BackendError (hs_hostname host +:+ ": " +:+ message)))
          else attempts host command timeout left'
      | ReplyAbandoned => raise Abandoned
      end
  end.

(** [_run(host, command, timeout)] *)
Definition run_twice (host : HostSpec) (command : string) (timeout : float) : M T failure CommandResult :=
  attempts host command timeout [1; 2].

(** [timeout or self.command_timeout] *)
Definition limit_of (timeout : option float) (default_timeout : float) : float :=
  match timeout with
  | Some x => if f_eq x (f_of_Z 0) then default_timeout else x
  | None => default_timeout
  end.

(** [run(host, command, timeout)] *)
Definition run (host : HostSpec) (command : string) (timeout : option float) : M T exn CommandResult :=
  closed <- gets st_closed;;
  if closed then raise (BackendError "transport is closed") else
  limit <- gets (fun s => limit_of timeout (st_command_timeout s));;
  patience <- gets (fun s => f_add (f_add limit (st_connect_timeout s)) (f_of_Z 5));;
  _ <- on_net (fun n => (as_wait ssh patience n, tt));;
  fun s => match run_twice host command limit s with
           | (s', Ok result) => (s', Ok result)
           | (s', Raise (Failed e)) => (s', Raise e)
           | (s', Raise Abandoned) =>
               (s', Raise (BackendError (hs_hostname host +:+ ": no response within " +:+ f_fixed 0 limit
                  +:+ "s running: " +:+ str_take 80 command)))
           end.

(** [close()]; the event loop and its thread end with it. *)
Definition close : M T exn unit :=
  closed <- gets st_closed;;
  if closed then ret tt else
  modify (fun s => mkSshTransport (st_connect_timeout s) (st_command_timeout s) (st_connections s) true (st_net s));;;
  pool <- gets st_connections;;
  mapM_ shut (map snd pool);;;
  set_connections [].

(** The transport the lab's backend and its health checks run their commands on. *)
Definition over_ssh : Transport T := fun host command timeout _ => run host command (Some timeout).
End Ssh.

(** * What the SSH transport does with its connections

    [recorded] wraps any asyncssh so that every connection gets a number of its
    own and every opening, every command sent with its answer, and every closing is
    written down.  [usable] is the protocol the record has to follow, as rules;
    the theorem is that any sequence of calls follows it, and what each [run] says
    of the commands it sent. *)

From S2P Require Import Prelude PyFloat PyFormat PyDict PyJson Errors Backend Hosts PyText Lab LabProps Commands Fixture.
Local Open Scope Z_scope.
Local Open Scope py_scope.

Inductive event :=
| Opened (n : nat) (k : string)
| Sent (n : nat) (k command : string) (r : reply)
| Closed (n : nat).

(** The connections open after a record: their keys and numbers. *)
Definition step_open (l : list (string * nat)) (e : event) : list (string * nat) :=
  match e with
  | Opened n k => l ++ [(k, n)]
  | Sent _ _ _ _ => l
  | Closed n => List.filter (fun x => negb (snd x =? n)%nat) l
  end.
Definition opened (log : list event) : list (string * nat) := fold_left step_open log [].

(** The connections on which a command failed. *)
Definition broken (log : list event) : list nat :=
  flat_map (fun e => match e with Sent n _ _ (ReplyFailed _) => [n] | _ => [] end) log.

(** The commands sent, each with its answer. *)
Definition sends (log : list event) : list (string * string * reply) :=
  flat_map (fun e => match e with Sent _ k command r => [(k, command, r)] | _ => [] end) log.

Inductive usable : list event -> Prop :=
| usable_start : usable []
| usable_opened log k : usable log -> k ∉ map fst (opened log) -> usable (log ++ [Opened (length log) k])
| usable_sent log n k command r : usable log -> (k, n) ∈ opened log -> n ∉ broken log ->
    usable (log ++ [Sent n k command r])
| usable_closed log n k : usable log -> (k, n) ∈ opened log -> usable (log ++ [Closed n]).

Lemma opened_snoc log e : opened (log ++ [e]) = step_open (opened log) e.
Proof. unfold opened. by rewrite fold_left_app. Qed.

Lemma broken_app l l' : broken (l ++ l') = broken l ++ broken l'.
Proof. apply flat_map_app. Qed.

Lemma sends_app l l' : sends (l ++ l') = sends l ++ sends l'.
Proof. apply flat_map_app. Qed.

Lemma nodup_map_filter {A B} (f : A -> B) (p : A -> bool) l :
  NoDup (map f l) -> NoDup (map f (List.filter p l)).
Proof.
  induction l as [|x l IH]; cbn; [done|]. intros [Hx Hl]%NoDup_cons.
  destruct (p x); [|by apply IH]. cbn. apply NoDup_cons. split; [|by apply IH].
  contradict Hx. apply list_elem_of_fmap in Hx as (y & -> & Hy). apply list_elem_of_fmap. exists y. split; [done|].
  apply list_elem_of_In, filter_In in Hy as [Hy _]. by apply list_elem_of_In.
Qed.

(** No two open connections share a key or a number, and no number is new. *)
Lemma usable_distinct log : usable log ->
  NoDup (map fst (opened log)) /\ NoDup (map snd (opened log)) /\
  (forall k n, (k, n) ∈ opened log -> (n < length log)%nat) /\ (forall n, n ∈ broken log -> (n < length log)%nat).
Proof.
  induction 1 as [|log k _ (IH1 & IH2 & IH3 & IH4) Hk|log n k command r _ (IH1 & IH2 & IH3 & IH4) Hin _|log n k _ (IH1 & IH2 & IH3 & IH4) _].
  - split_and!; [constructor|constructor|intros ?? []%elem_of_nil|intros ? []%elem_of_nil].
  - rewrite opened_snoc, broken_app, length_app. cbn. rewrite !map_app. split_and!.
    + apply NoDup_app. split_and!; [done| |apply NoDup_singleton]. intros x Hx ->%list_elem_of_singleton. done.
    + apply NoDup_app. split_and!; [done| |apply NoDup_singleton].
      intros x Hx ->%list_elem_of_singleton. apply list_elem_of_fmap in Hx as ([k' n'] & E & Hx).
      cbn in E. subst n'. specialize (IH3 _ _ Hx). lia.
    + intros k' n' [H|[= -> ->]%list_elem_of_singleton]%elem_of_app; [specialize (IH3 _ _ H)|]; lia.
    + intros n' H. rewrite app_nil_r in H. specialize (IH4 _ H). lia.
  - rewrite opened_snoc, broken_app, length_app. cbn. split_and!; try done.
    + intros k' n' H. specialize (IH3 _ _ H). lia.
    + intros n' [H|H]%elem_of_app; [specialize (IH4 _ H); lia|].
      specialize (IH3 _ _ Hin).
      destruct r; cbn in H; [by apply elem_of_nil in H..| |by apply elem_of_nil in H].
      apply list_elem_of_singleton in H. lia.
  - rewrite opened_snoc, broken_app, length_app. cbn. rewrite app_nil_r. split_and!.
    + by apply nodup_map_filter.
    + by apply nodup_map_filter.
    + intros k' n' H. apply list_elem_of_In, filter_In in H as [H _]. apply list_elem_of_In in H. specialize (IH3 _ _ H). lia.
    + intros n' H. specialize (IH4 _ H). lia.
Qed.

(** Two entries of a list with the same key, the keys being distinct. *)
Lemma nodup_fst_eq {A B} (l : list (A * B)) k x y : NoDup (map fst l) -> (k, x) ∈ l -> (k, y) ∈ l -> x = y.
Proof.
  induction l as [|[k' z] l IH]; cbn; [by intros _ []%elem_of_nil|]. intros [Hk Hl]%NoDup_cons.
  assert (Hno : forall w, (k', w) ∈ l -> False).
  { intros w Hw. apply Hk, list_elem_of_fmap. by exists (k', w). }
  intros [Ex|Hx]%elem_of_cons [Ey|Hy]%elem_of_cons; simplify_eq; auto; by edestruct Hno.
Qed.

(** ** The wrapped asyncssh *)

Section Recorded.
Context {C N : Type} (ssh : Asyncssh C N).

(** A connection, its number and the key of the host it was made for. *)
Record tagged := mkTagged { tg_n : nat; tg_key : string; tg_c : C }.

Definition noting {A} (f : N -> N * A) (e : list event -> A -> list event) (w : N * list event) : N * list event * A :=
  let (n, a) := f (fst w) in (n, snd w ++ e (snd w) a, a).

Definition recorded : Asyncssh tagged (N * list event) :=
  mkAsyncssh tagged (N * list event)
    (fun patience w => (as_wait ssh patience (fst w), snd w))
    (fun hostname username port known_hosts keys limit w =>
       let k := username +:+ "@" +:+ hostname +:+ ":" +:+ str_of_Z port in
       let (n, a) := as_connect ssh hostname username port known_hosts keys limit (fst w) in
       match a with
       | Connected c => ((n, snd w ++ [Opened (length (snd w)) k]), Connected (mkTagged (length (snd w)) k c))
       | ConnectTimeout => ((n, snd w), ConnectTimeout)
       | ConnectFailed message => ((n, snd w), ConnectFailed message)
       | ConnectAbandoned => ((n, snd w), ConnectAbandoned)
       end)
    (fun c command limit w =>
       let (n, a) := as_run ssh (tg_c c) command limit (fst w) in
       ((n, snd w ++ [Sent (tg_n c) (tg_key c) command a]), a))
    (fun c w => (as_close ssh (tg_c c) (fst w), snd w ++ [Closed (tg_n c)])).

Notation St := (SshTransport tagged (N * list event)).

Definition log (s : St) : list event := snd (st_net s).
Definition entry (x : string * tagged) : string * nat := (fst x, tg_n (snd x)).

(** The pool is what is open; [kept] adds that nothing in it has failed. *)
Definition pooled (s : St) : Prop :=
  usable (log s) /\ opened (log s) = map entry (st_connections s) /\
  (forall k c, (k, c) ∈ st_connections s -> tg_key c = k).
Definition kept (s : St) : Prop :=
  pooled s /\ (forall k n, (k, n) ∈ opened (log s) -> n ∉ broken (log s)) /\
  (st_closed s = true -> st_connections s = []).

(** From [s] to [s'] the record grew by [new], and the settings are the same. *)
Definition grew (s s' : St) (new : list event) : Prop :=
  log s' = log s ++ new /\ st_closed s' = st_closed s /\
  st_connect_timeout s' = st_connect_timeout s /\ st_command_timeout s' = st_command_timeout s.

Lemma grew_refl s : grew s s [].
Proof. split_and!; [by rewrite app_nil_r|done..]. Qed.

Lemma grew_trans s s1 s2 new1 new2 : grew s s1 new1 -> grew s1 s2 new2 -> grew s s2 (new1 ++ new2).
Proof.
  intros (H1 & H2 & H3 & H4) (G1 & G2 & G3 & G4). split_and!; [|congruence..]. by rewrite G1, H1, app_assoc.
Qed.

Lemma dict_get_none {V} k (m : dict string V) : dict_get k m = None -> k ∉ map fst m.
Proof.
  induction m as [|[k' v] m IH]; cbn; [intros _ []%elem_of_nil|]. destruct (decide (k' = k)) as [->|Hne]; [done|].
  intros H [->|Hin]%elem_of_cons; [done|]. by apply IH in Hin.
Qed.

Lemma entries_keys m : map fst (map entry m) = map fst m.
Proof. rewrite map_map. by apply map_ext. Qed.

(** Closing the connection kept under a key takes its entry out. *)
Lemma entries_pop k c m : NoDup (map fst (map entry m)) -> NoDup (map snd (map entry m)) -> (k, c) ∈ m ->
  List.filter (fun x => negb (snd x =? tg_n c)%nat) (map entry m) = map entry (dict_pop k m).
Proof.
  intros Hk Hn Hin.
  assert (H : forall x, x ∈ m -> negb (tg_n (snd x) =? tg_n c)%nat = negb (String.eqb (fst x) k)).
  { intros [k' c'] Hx. cbn. f_equal. destruct (String.eqb_spec k' k) as [->|Hne].
    - assert (c' = c) as ->; [|apply Nat.eqb_refl]. rewrite entries_keys in Hk. by apply (nodup_fst_eq m k).
    - apply Nat.eqb_neq. intros E. apply Hne.
      apply (nodup_fst_eq (map (fun x => (snd x, fst x)) (map entry m)) (tg_n c)).
      + rewrite map_map. exact Hn.
      + rewrite map_map. apply list_elem_of_fmap. exists (k', c'). split; [by rewrite <- E|done].
      + rewrite map_map. apply list_elem_of_fmap. by exists (k, c). }
  clear Hk Hn Hin. unfold dict_pop. induction m as [|x m IH]; cbn; [done|].
  pose proof (H x ltac:(left)) as Hx. cbn in Hx. rewrite Hx.
  rewrite IH; [|intros y Hy; apply H; by right]. by destruct (String.eqb (fst x) k).
Qed.

Lemma forget_spec {E} host (s : St) : pooled s -> exists s' new, @forget _ _ recorded E host s = (s', Ok tt) /\
  grew s s' new /\ sends new = [] /\ broken new = [] /\ pooled s' /\ st_connections s' = dict_pop (key host) (st_connections s).
Proof.
  intros (Hu & Ho & Ht). unfold forget, bind, gets, set_connections.
  destruct (dict_get (key host) (st_connections s)) as [c|] eqn:Hg.
  - eexists _, [Closed (tg_n c)]. split; [reflexivity|]. apply dict_get_in in Hg.
    assert (Hin : (key host, tg_n c) ∈ opened (log s)).
    { rewrite Ho. apply list_elem_of_fmap. by exists (key host, c). }
    split_and!; try done; cbn. split_and!.
    + by apply (usable_closed (log s) (tg_n c) (key host)).
    + change (opened (log s ++ [Closed (tg_n c)]) = map entry (dict_pop (key host) (st_connections s))).
      rewrite opened_snoc, Ho. cbn [step_open].
      destruct (usable_distinct _ Hu) as (N1 & N2 & _). rewrite Ho in N1, N2. by apply entries_pop.
    + cbn. intros k' c' H. apply list_elem_of_In, filter_In in H as [H _]. apply Ht. by apply list_elem_of_In.
  - eexists _, []. split; [reflexivity|]. split_and!; try done; cbn; [exact (grew_refl s)|].
    assert (dict_pop (key host) (st_connections s) = st_connections s) as ->; [|by split_and!].
    apply filter_all. intros [k' c'] Hin. cbn. destruct (String.eqb_spec k' (key host)) as [->|]; [|done].
    exfalso. apply dict_get_none in Hg. apply Hg, list_elem_of_fmap. by exists (key host, c').
Qed.

(** [kept], except perhaps for the connection under [k]. *)
Definition kept_but (k : string) (s : St) : Prop :=
  pooled s /\ (forall k' n, k' <> k -> (k', n) ∈ opened (log s) -> n ∉ broken (log s)) /\
  (st_closed s = true -> st_connections s = []).

Lemma kept_kept_but k s : kept s -> kept_but k s.
Proof. intros (Hp & Hb & Hc). split_and!; try done; try apply Hp. intros k' n _. apply Hb. Qed.

Lemma forget_kept {E} host (s : St) : kept_but (key host) s -> exists s' new, @forget _ _ recorded E host s = (s', Ok tt) /\
  grew s s' new /\ sends new = [] /\ kept s'.
Proof.
  intros (Hp & Hb & Hc). destruct (@forget_spec E host s Hp) as (s' & new & Hrun & Hg & Hs & Hbr & Hp' & Hm).
  exists s', new. split; [done|]. split; [done|]. split; [done|]. split; [done|]. destruct Hg as (Hl & Hcl & _). split.
  - intros k n Hin. rewrite Hl, broken_app, Hbr, app_nil_r. destruct Hp' as (_ & Ho & _). rewrite Ho, Hm in Hin.
    apply list_elem_of_fmap in Hin as ([k' c] & [= -> ->] & Hin).
    apply list_elem_of_In, filter_In in Hin as [Hin Hne]. apply list_elem_of_In in Hin. cbn in Hne.
    apply (Hb k'); [by intros ->; rewrite String.eqb_refl in Hne|].
    destruct Hp as (_ & -> & _). apply list_elem_of_fmap. by exists (k', c).
  - intros Hd. rewrite Hcl in Hd. by rewrite Hm, (Hc Hd).
Qed.

Definition backend (e : exn) : Prop := exists message, e = BackendError message.

(** [connect] finds a connection for the host, or makes one, or says why not. *)
Lemma connect_spec host again (s : St) : kept s -> st_closed s = false ->
  exists s' new r, connect recorded host again s = (s', r) /\ grew s s' new /\ sends new = [] /\ kept s' /\
    match r with
    | Ok c => (key host, c) ∈ st_connections s'
    | Raise (Failed e) => backend e
    | Raise Abandoned => True
    end.
Proof.
  intros Hk Hopen. unfold connect.
  assert (H0 : exists s0 new0, (if again then forget recorded host else ret tt) s = (s0, @Ok failure _ tt) /\
    grew s s0 new0 /\ sends new0 = [] /\ kept s0).
  { destruct again.
    - destruct (@forget_kept failure host s (kept_kept_but _ _ Hk)) as (s0 & new0 & H & Hg & Hs & Hk0). by exists s0, new0.
    - exists s, []. split_and!; try done. exact (grew_refl s). }
  destruct H0 as (s0 & new0 & Hrun & Hg & Hs & ((Hu & Ho & Ht) & Hb & Hc)). unfold bind at 1. rewrite Hrun. clear Hrun.
  assert (Hopen0 : st_closed s0 = false) by (destruct Hg as (_ & -> & _); done).
  unfold bind, gets. destruct (dict_get (key host) (st_connections s0)) as [c|] eqn:Hd.
  { exists s0, new0, (Ok c). split_and!; try done. by apply dict_get_in. }
  unfold Ssh.on_net, recorded at 1. cbn.
  match goal with |- context [as_connect ssh ?x1 ?x2 ?x3 ?x4 ?x5 ?x6 ?x7] =>
    destruct (as_connect ssh x1 x2 x3 x4 x5 x6 x7) as [n [c| |message|]] end; cbn.
  - eexists _, (new0 ++ [Opened (length (log s0)) (key host)]), _. split; [reflexivity|].
    assert (Hfresh : key host ∉ map fst (opened (log s0))).
    { rewrite Ho, entries_keys. by apply dict_get_none. }
    set (tag := mkTagged (length (log s0)) (key host) c).
    assert (Hm : dict_set (key host) tag (st_connections s0) = st_connections s0 ++ [(key host, tag)]) by by apply dict_set_new, dict_get_none.
    split_and!.
    + eapply grew_trans; [exact Hg|]. by repeat split.
    + by rewrite sends_app, Hs.
    + split; [|split].
      * split; [|split].
        -- by apply (usable_opened (log s0)).
        -- change (opened (log s0 ++ [Opened (length (log s0)) (key host)]) = map entry
             (dict_set (key host) tag (st_connections s0))).
           rewrite opened_snoc, Hm, map_app, Ho. done.
        -- change (forall k c', (k, c') ∈ dict_set (key host) tag (st_connections s0) -> tg_key c' = k). rewrite Hm.
           intros k c' [Hin|[= -> ->]%list_elem_of_singleton]%elem_of_app; [by apply Ht|done].
      * intros k m. change (log _) with (log s0 ++ [Opened (length (log s0)) (key host)]).
        rewrite opened_snoc, broken_app. cbn. rewrite app_nil_r.
        intros [Hin|[= -> ->]%list_elem_of_singleton]%elem_of_app; [by eapply Hb|].
        intros Hbad. destruct (usable_distinct _ Hu) as (_ & _ & _ & Hlt). specialize (Hlt _ Hbad). lia.
      * cbn. by rewrite Hopen0.
    + change ((key host, tag) ∈ dict_set (key host) tag (st_connections s0)). rewrite Hm. apply elem_of_app. right. by left.
  - eexists _, new0, _. split; [reflexivity|]. split_and!; try done. by eexists.
  - eexists _, new0, _. split; [reflexivity|]. split_and!; try done. by eexists.
  - eexists _, new0, _. split; [reflexivity|]. by split_and!.
Qed.

(** A command sent on a kept connection; one that fails leaves the connection to be forgotten. *)
Lemma send_spec {E} host c command limit (s : St) : kept s -> st_closed s = false -> (key host, c) ∈ st_connections s ->
  exists s' r, @Ssh.on_net _ _ E _ (as_run recorded c command limit) s = (s', Ok r) /\
    grew s s' [Sent (tg_n c) (key host) command r] /\ st_connections s' = st_connections s /\ kept_but (key host) s' /\
    match r with ReplyFailed _ => True | _ => kept s' end.
Proof.
  intros ((Hu & Ho & Ht) & Hb & Hc) Hopen Hin. unfold Ssh.on_net. cbn.
  destruct (as_run ssh (tg_c c) command limit (st_net s).1) as [n r]. eexists _, r. split; [reflexivity|].
  rewrite (Ht _ _ Hin).
  assert (Hc' : (key host, tg_n c) ∈ opened (log s)).
  { rewrite Ho. apply list_elem_of_fmap. by exists (key host, c). }
  set (s' := mkSshTransport _ _ _ _ _).
  assert (Hl : log s' = log s ++ [Sent (tg_n c) (key host) command r]) by done.
  assert (Ho' : opened (log s') = opened (log s)) by (by rewrite Hl, opened_snoc).
  assert (Hp' : pooled s').
  { split; [|by rewrite Ho'; split]. rewrite Hl. apply usable_sent; [done|done|by apply (Hb (key host))]. }
  split; [by repeat split|]. split; [done|]. split.
  - split; [exact Hp'|]. split; [|by cbn; rewrite Hopen].
    intros k' m Hne Hin'. rewrite Ho' in Hin'. rewrite Hl, broken_app. intros [Hbad|Hbad]%elem_of_app; [by eapply Hb|].
    destruct r; cbn in Hbad; [by apply elem_of_nil in Hbad..| |by apply elem_of_nil in Hbad].
    apply list_elem_of_singleton in Hbad. subst m. apply Hne.
    destruct (usable_distinct _ Hu) as (_ & N2 & _).
    apply (nodup_fst_eq (map (fun x => (snd x, fst x)) (opened (log s))) (tg_n c));
      [by rewrite map_map|apply list_elem_of_fmap..]; [by exists (k', tg_n c)|by exists (key host, tg_n c)].
  - assert (Hkeep : broken (log s') = broken (log s) -> kept s').
    { intros E'. split; [exact Hp'|]. split; [|by cbn; rewrite Hopen]. rewrite Ho', E'. exact Hb. }
    destruct r; try done; apply Hkeep; rewrite Hl, broken_app; apply app_nil_r.
Qed.

(** What an answer of the network to a command comes to. *)
Definition told (host : HostSpec) (command : string) (limit : float) (r : reply) : outcome exn CommandResult :=
  match r with
  | Replied exit_status stdout stderr =>
      Ok (mkCommandResult (default (-1) exit_status) (text_of stdout) (text_of stderr))
  | ReplyTimeout => Raise (BackendError (hs_hostname host +:+ ": command timed out after " +:+ f_fixed 0 limit
      +:+ "s: " +:+ str_take 80 command))
  | ReplyFailed message => Raise (BackendError (hs_hostname host +:+ ": " +:+ message))
  | ReplyAbandoned => Raise (BackendError (hs_hostname host +:+ ": no response within " +:+ f_fixed 0 limit
      +:+ "s running: " +:+ str_take 80 command))
  end.

(** The result of a call, given the answers to the commands it sent. *)
Definition answered (host : HostSpec) (command : string) (limit : float) (answers : list reply)
    (r : outcome exn CommandResult) : Prop :=
  match answers with
  | [] | [ReplyFailed _] => exists e, r = Raise e /\ backend e
  | [answer] | [ReplyFailed _; answer] => r = told host command limit answer
  | _ => False
  end.

(** The caller's view of how the coroutine ended. *)
Definition seen (host : HostSpec) (command : string) (limit : float) (r : outcome failure CommandResult) : outcome exn CommandResult :=
  match r with
  | Ok result => Ok result
  | Raise (Failed e) => Raise e
  | Raise Abandoned => told host command limit ReplyAbandoned
  end.

Definition sent_to (host : HostSpec) (command : string) (answers : list reply) : list (string * string * reply) :=
  map (fun r => (key host, command, r)) answers.

(** One pass of the loop: no connection, an answer that ends the call, or a failure
    after which the connection is gone. *)
Lemma attempt_spec host command limit attempt left (s : St) : kept s -> st_closed s = false ->
  exists s1 new, grew s s1 new /\ kept s1 /\
   ((exists r, attempts recorded host command limit (attempt :: left) s = (s1, r) /\ sends new = [] /\
       exists e, seen host command limit r = Raise e /\ backend e) \/
    (exists r answer, attempts recorded host command limit (attempt :: left) s = (s1, r) /\
       sends new = sent_to host command [answer] /\ seen host command limit r = told host command limit answer /\
       match answer with ReplyFailed _ => False | _ => True end) \/
    (exists message, sends new = sent_to host command [ReplyFailed message] /\
       attempts recorded host command limit (attempt :: left) s =
         if attempt =? 2 then (s1, Raise (Failed (BackendError (hs_hostname host +:+ ": " +:+ message))))
         else attempts recorded host command limit left s1)).
Proof.
  intros Hk Hopen. destruct (connect_spec host (attempt =? 2) s Hk Hopen) as (s1 & new1 & r1 & Hrun & Hg & Hs & Hk1 & Hr).
  assert (Hopen1 : st_closed s1 = false) by (destruct Hg as (_ & -> & _); done).
  destruct r1 as [c|f].
  2:{ exists s1, new1. split; [done|]. split; [done|]. left. exists (Raise f).
      split; [cbn [attempts]; unfold bind at 1; by rewrite Hrun|]. split; [done|].
      destruct f as [e|]; [by exists e|]. cbn. eexists. split; [reflexivity|]. by eexists. }
  destruct (@send_spec failure host c command limit s1 Hk1 Hopen1 Hr) as (s2 & x & Hsend & Hg2 & _ & Hk2 & Hx).
  assert (Hstep : forall k : reply -> M St failure CommandResult,
    (connection <- connect recorded host (attempt =? 2);;
     answer <- Ssh.on_net (as_run recorded connection command limit);; k answer) s = k x s2).
  { intros k. unfold bind. by rewrite Hrun, Hsend. }
  pose proof (grew_trans _ _ _ _ _ Hg Hg2) as Hg'.
  assert (Hs' : sends (new1 ++ [Sent (tg_n c) (key host) command x]) = sent_to host command [x]) by (by rewrite sends_app, Hs).
  destruct x as [exit_status stdout stderr| |message|].
  - eexists s2, _. split; [exact Hg'|]. split; [exact Hx|]. right; left. eexists _, _. split; [exact (Hstep _)|]. split; [exact Hs'|]. by split.
  - eexists s2, _. split; [exact Hg'|]. split; [exact Hx|]. right; left. eexists _, _. split; [exact (Hstep _)|]. split; [exact Hs'|]. by split.
  - destruct (@forget_kept failure host s2 Hk2) as (s3 & new3 & Hf & Hg3 & Hs3 & Hk3).
    eexists s3, _. split; [exact (grew_trans _ _ _ _ _ Hg' Hg3)|]. split; [exact Hk3|]. right; right. exists message.
    split; [by rewrite sends_app, Hs3, app_nil_r, Hs'|].
    etransitivity; [exact (Hstep _)|]. unfold bind. rewrite Hf. by destruct (attempt =? 2).
  - eexists s2, _. split; [exact Hg'|]. split; [exact Hx|]. right; left. eexists _, _. split; [exact (Hstep _)|]. split; [exact Hs'|]. by split.
Qed.

Lemma twice_spec host command limit (s : St) : kept s -> st_closed s = false ->
  exists s' new r answers, run_twice recorded host command limit s = (s', r) /\ grew s s' new /\ kept s' /\
    sends new = sent_to host command answers /\ answered host command limit answers (seen host command limit r).
Proof.
  intros Hk Hopen. unfold run_twice.
  destruct (attempt_spec host command limit 1 [2] s Hk Hopen) as
    (s1 & new1 & Hg1 & Hk1 & [(r & Hr & Hs & He)|[(r & a & Hr & Hs & Ht & Ha)|(m & Hs & Hr)]]).
  - exists s1, new1, r, []. by do 4 (split; [done|]).
  - exists s1, new1, r, [a]. do 4 (split; [done|]). by destruct a.
  - rewrite Hr. cbn [Z.eqb Pos.eqb].
    assert (Hopen1 : st_closed s1 = false) by (destruct Hg1 as (_ & -> & _); done).
    destruct (attempt_spec host command limit 2 [] s1 Hk1 Hopen1) as
      (s2 & new2 & Hg2 & Hk2 & [(r & Hr2 & Hs2 & He)|[(r & a & Hr2 & Hs2 & Ht & Ha)|(m2 & Hs2 & Hr2)]]);
      pose proof (grew_trans _ _ _ _ _ Hg1 Hg2) as Hg.
    + exists s2, (new1 ++ new2), r, [ReplyFailed m]. do 3 (split; [done|]). by rewrite sends_app, Hs, Hs2.
    + exists s2, (new1 ++ new2), r, [ReplyFailed m; a]. do 3 (split; [done|]). rewrite sends_app, Hs, Hs2.
      split; [done|]. by destruct a.
    + eexists s2, (new1 ++ new2), _, [ReplyFailed m; ReplyFailed m2]. split; [exact Hr2|]. do 2 (split; [done|]).
      by rewrite sends_app, Hs, Hs2.
Qed.

Lemma run_spec host command timeout (s : St) : kept s ->
  exists s' new r answers, Ssh.run recorded host command timeout s = (s', r) /\ grew s s' new /\ kept s' /\
    (if st_closed s then new = [] /\ r = Raise (BackendError "transport is closed")
     else sends new = sent_to host command answers /\
       answered host command (limit_of timeout (st_command_timeout s)) answers r).
Proof.
  intros Hk. unfold Ssh.run, bind, gets. destruct (st_closed s) eqn:Hopen.
  - exists s, [], (Raise (BackendError "transport is closed")), []. split; [done|]. split; [exact (grew_refl s)|]. by split.
  - set (limit := limit_of timeout (st_command_timeout s)). unfold Ssh.on_net at 1. cbn [as_wait recorded].
    set (s0 := mkSshTransport _ _ _ _ _).
    assert (Hg0 : grew s s0 []) by exact (grew_refl s). assert (Hk0 : kept s0) by exact Hk.
    destruct (twice_spec host command limit s0 Hk0 Hopen) as (s' & new & r & answers & Hr & Hg & Hk' & Hs & Ha).
    exists s', new, (seen host command limit r), answers. split.
    { rewrite Hr. by destruct r as [result|[e|]]. }
    split; [exact (grew_trans _ _ _ _ _ Hg0 Hg)|]. by split.
Qed.

(** [close] closes every connection of the pool. *)
Lemma shut_all pool (s : St) : usable (log s) -> opened (log s) = map entry pool ->
  exists s', mapM_ (@shut _ _ recorded exn) (map snd pool) s = (s', Ok (map (fun _ => tt) pool)) /\
    usable (log s') /\ opened (log s') = [] /\ st_closed s' = st_closed s.
Proof.
  revert s. induction pool as [|[k c] pool IH]; intros s Hu Ho; [by exists s|].
  destruct (@shut _ _ recorded exn c s) as [s1 o] eqn:Hs. pose proof Hs as [= Hs1 Ho1].
  assert (Hl : log s1 = log s ++ [Closed (tg_n c)]) by by rewrite <- Hs1.
  destruct (IH s1) as (s2 & Hrun & Hu2 & Ho2 & Hc2).
  3:{ exists s2. split; [cbn [map snd mapM_]; unfold bind; by rewrite Hs, <- Ho1, Hrun|]. rewrite Hc2, <- Hs1. by split_and!. }
  - rewrite Hl. apply (usable_closed _ _ k); [done|]. rewrite Ho. by left.
  - rewrite Hl, opened_snoc, Ho. cbn. rewrite Nat.eqb_refl. cbn. apply filter_all. intros [k' n'] Hin. cbn.
    apply negb_true_iff, Nat.eqb_neq. intros ->. destruct (usable_distinct _ Hu) as (_ & N2 & _). rewrite Ho in N2.
    cbn in N2. apply NoDup_cons in N2 as [N2 _]. apply N2, list_elem_of_fmap. by exists (k', tg_n c).
Qed.

Lemma close_spec (s : St) : kept s -> exists s', close recorded s = (s', Ok tt) /\ kept s' /\ st_closed s' = true.
Proof.
  intros Hk. pose proof Hk as ((Hu & Ho & Ht) & _). unfold close, bind, gets, modify. destruct (st_closed s) eqn:Hopen; [by exists s|].
  set (s0 := mkSshTransport _ _ _ _ _). change (st_connections s0) with (st_connections s).
  destruct (shut_all (st_connections s) s0 Hu Ho) as (s1 & Hrun & Hu1 & Ho1 & Hc1).
  rewrite Hrun. eexists. split; [reflexivity|]. split; [|exact Hc1]. set (s2 := mkSshTransport _ _ _ _ _).
  assert (Hl : log s2 = log s1) by done. split; [split; [by rewrite Hl|split]|split].
  - by rewrite Hl, Ho1.
  - by intros k c []%elem_of_nil.
  - rewrite Hl, Ho1. by intros k n []%elem_of_nil.
  - done.
Qed.
End Recorded.

(** ** Sequences of calls *)

Inductive call :=
| CRun (host : HostSpec) (command : string) (timeout : option float)
| CClose.

Section Serving.
Context {C N : Type} (ssh : Asyncssh C N).

Fixpoint serve (calls : list call) (s : SshTransport C N) : SshTransport C N :=
  match calls with
  | [] => s
  | CRun host command timeout :: calls' => serve calls' (fst (Ssh.run ssh host command timeout s))
  | CClose :: calls' => serve calls' (fst (close ssh s))
  end.
End Serving.

Lemma serve_kept {C N} (ssh : Asyncssh C N) calls s : kept s -> kept (serve (recorded ssh) calls s).
Proof.
  revert s. induction calls as [|[host command timeout|] calls IH]; intros s Hk; cbn [serve]; [done| |]; apply IH.
  - destruct (run_spec ssh host command timeout s Hk) as (s' & new & r & answers & -> & _ & Hk' & _). exact Hk'.
  - destruct (close_spec ssh s Hk) as (s' & -> & Hk' & _). exact Hk'.
Qed.

(** C35: Over any network, after any sequence of calls of [run] and [close] on a new
    transport: no command was sent on a connection that was closed, that had
    failed, or that was made for another user, host or port; at most one connection
    per host is open, and the pool holds exactly the open ones, so none is leaked and,
    once the transport is closed, none is left.  A further [run] then sends its
    command, and nothing else, to its own host, at most twice, and a second time only if the first
    attempt failed; it returns what the network answered to the last one, and every
    other ending is a [BackendError]. *)
Theorem ssh_exchanges {C N} (ssh : Asyncssh C N) (connect_timeout command_timeout : float) (net : N) (calls : list call) :
  let s := serve (recorded ssh) calls (new_transport connect_timeout command_timeout (net, [])) in
  usable (log s) /\ opened (log s) = map entry (st_connections s) /\
  (forall k n, (k, n) ∈ opened (log s) -> n ∉ broken (log s)) /\
  (st_closed s = true -> opened (log s) = []) /\
  forall host command timeout, exists s' new r answers,
    Ssh.run (recorded ssh) host command timeout s = (s', r) /\ log s' = log s ++ new /\
    (if st_closed s then new = [] /\ r = Raise (BackendError "transport is closed")
     else sends new = sent_to host command answers /\
       answered host command (limit_of timeout (st_command_timeout s)) answers r).
Proof.
  intros s. assert (Hk : kept s).
  { apply serve_kept. split; [|split]; [|by intros ?? []%elem_of_nil|done].
    split; [constructor|]. split; [done|]. by intros ?? []%elem_of_nil. }
  pose proof Hk as ((Hu & Ho & Ht) & Hb & Hc). do 3 (split; [done|]). split; [intros Hcl; by rewrite Ho, (Hc Hcl)|].
  intros host command timeout.
  destruct (run_spec ssh host command timeout s Hk) as (s' & new & r & answers & Hr & (Hl & _) & _ & H).
  by exists s', new, r, answers.
Qed.

(** ** One host *)

(** A host that carries out every command it is given, and whose answers are scripted. *)
Definition scripted : Asyncssh unit (list reply * list string) :=
  mkAsyncssh _ _ (fun _ w => w) (fun _ _ _ _ _ _ w => (w, Connected tt))
    (fun _ command _ w => match fst w with
       | answer :: rest => ((rest, snd w ++ [command]), answer)
       | [] => (w, ReplyTimeout)
       end)
    (fun _ w => w).

(** A connection lost after the command went out: the command is sent again, and the
    host has carried it out twice while the caller sees one success. *)
Example sent_again :
  let (s, r) := Ssh.run scripted rig "systemd-run job" None
    (new_transport (f_of_Z 15) (f_of_Z 60) ([ReplyFailed "Connection lost"; Replied (Some 0) (OStr "started") ONone], [])) in
  r = Ok (mkCommandResult 0 "started" "") /\ snd (st_net s) = ["systemd-run job"; "systemd-run job"] /\
  map fst (st_connections s) = ["broker@rig:22"].
Proof. vm_compute. split_and!; reflexivity. Qed.

(** A command killed by a signal has no exit status: it counts as failed. *)
Example no_exit_status :
  let run calls := map (fun r => match r with Ok x => Some (cr_ok x) | Raise _ => None end) calls in
  run [snd (Ssh.run scripted rig "train" (Some (f_of_Z 5))
         (new_transport (f_of_Z 15) (f_of_Z 60) ([Replied None ONone (OBytes "Killed")], [])))] = [Some false].
Proof. vm_compute. reflexivity. Qed.

(** The lab's health check over this transport: four commands, one connection. *)
Definition rig_ssh : Asyncssh unit nat :=
  mkAsyncssh _ _ (fun _ n => n) (fun _ _ _ _ _ _ n => (S n, Connected tt))
    (fun _ command _ n => (n, match snd (rig_net rig command (f_of_Z 60) noon true) with
       | Ok x => Replied (Some (cr_exit_status x)) (OStr (cr_stdout x)) (OStr (cr_stderr x))
       | Raise e => ReplyFailed (exn_str e)
       end))
    (fun _ n => n).

Example rig_healthy_over_ssh :
  let (s, r) := check_host (over_ssh rig_ssh) rig rig_config noon (new_transport (f_of_Z 15) (f_of_Z 60) 0%nat) in
  match r with Ok h => hh_state h = HEALTHY | Raise _ => False end /\ st_net s = 1%nat /\ length (st_connections s) = 1%nat.
Proof. vm_compute. split_and!; reflexivity. Qed.
