(* ===== verification/Idle.v ===== *)
(** * idle.py: capacity being held and not used

    [evaluate] is a function of the database and the clock; [notify] is the one
    operation that writes. *)

From S2P Require Import Prelude PyFloat PyDecimal PyFormat PySort Errors Money Clock States Models Config Tables Store StoreInv StoreSafe.
Local Open Scope Z_scope.
Local Open Scope py_scope.

Definition IDLE_NOTIFICATION : string := "idle-warning".

Record IdleVerdict := mkIdleVerdict {
  iv_job : Job;
  iv_idle : bool;
  iv_reason : string;
  iv_samples : list Sample;
  iv_idle_since : option Z;
  iv_peak_percent : float;
  iv_notified_at : option Z;
  iv_grace_ends_at : option Z;
  iv_wasted : Z;
  iv_currency : Currency
}.

(** [IdleVerdict.notified] *)
Definition notified (v : IdleVerdict) : bool :=
  match iv_notified_at v with Some _ => true | None => false end.

(** [IdleVerdict.idle_hours(now)] *)
Definition idle_hours (v : IdleVerdict) (now : Z) : float :=
  match iv_idle_since v with None => f0 | Some since => hours_between since now end.

(** [s.rjust(w)] *)
Definition rjust (w : nat) (s : string) : string := str_repeat " " (w - String.length s) +:+ s.

(** [f"{moment:%Y-%m-%d %H:%M:%S}"]: [to_iso] cut at the seconds *)
Definition ymd_hms (moment : Z) : string :=
  let iso := to_iso moment in String.substring 0 10 iso +:+ " " +:+ String.substring 11 8 iso.

(** [IdleVerdict.evidence(limit)] *)
Definition evidence (v : IdleVerdict) (limit : nat) : string :=
  let shown := skipn (length (iv_samples v) - limit) (iv_samples v) in
  str_join "
" (map (fun s => "  " +:+ ymd_hms (smp_at s) +:+ "  gpu " +:+ rjust 5 (f_fixed 1 (smp_gpu_percent s))
    +:+ "%  " +:+ str_of_Z (smp_memory_mb s) +:+ "MB") shown).

(** [IdleVerdict.describe(now)] *)
Definition iv_describe (v : IdleVerdict) (now : Z) : string :=
  short_id (iv_job v) +:+ " (" +:+ j_user_id (iv_job v) +:+ ", " +:+ j_gpu_type (iv_job v)
  +:+ ") idle " +:+ f_fixed 1 (idle_hours v now) +:+ "h, peak " +:+ f_fixed 1 (iv_peak_percent v)
  +:+ "%, " +:+ fmt (of_cents (iv_wasted v)) (iv_currency v) +:+ " spent doing nothing".

(** The default [limit] of [Store.samples_for], and the one of [_idle_since]. *)
Definition SAMPLES_LIMIT : nat := Z.to_nat 5000.
Definition HISTORY_LIMIT : nat := Z.to_nat 20000.

Section Idle.
Context (config : BrokerConfig).

(** [_last_notified(store, job)] *)
Definition last_notified (d : DB) (j : Job) : option Z :=
  option_map ntf_at (last (notifications_for_job d (j_job_id j) (Some IDLE_NOTIFICATION))).

(** The walk back of [_idle_since], over the reversed history. *)
Fixpoint run_start (since : Z) (rev_history : list Sample) : Z :=
  match rev_history with
  | [] => since
  | s :: rest => if f_lt (idle_threshold_percent config) (smp_gpu_percent s) then since
                 else run_start (smp_at s) rest
  end.

(** [_idle_since(store, job, config, window_samples)] *)
Definition idle_since (d : DB) (j : Job) (window_samples : list Sample) : outcome exn Z :=
  let history := samples_for d (j_job_id j) None HISTORY_LIMIT in
  match last history with
  | None => match window_samples with
            | s :: _ => Ok (smp_at s)
            | [] => Raise (IndexError "tuple index out of range")
            end
  | Some newest => Ok (run_start (smp_at newest) (rev history))
  end.

(** [max(...)] of a non-empty sequence *)
Definition peak_of (samples : list Sample) : outcome exn float :=
  match map smp_gpu_percent samples with
  | [] => Raise (ValueError "max() iterable argument is empty")
  | p :: ps => Ok (fold_left f_max ps p)
  end.

Definition evaluate (d : DB) (now : Z) (j : Job) : outcome exn IdleVerdict :=
  let window := timedelta_minutes (idle_window_minutes config) in
  let samples := samples_for d (j_job_id j) (Some (now - window)) SAMPLES_LIMIT in
  let told := last_notified d j in
  let grace_ends := option_map (fun t => t + timedelta_minutes (idle_grace_minutes config)) told in
  let n := Z.of_nat (length samples) in
  if n <? idle_min_samples config then
    Ok (mkIdleVerdict j false
      ("only " +:+ str_of_Z n +:+ " sample(s) in the last " +:+ f_general (idle_window_minutes config)
       +:+ " minutes; needs " +:+ str_of_Z (idle_min_samples config)
       +:+ " before anything is decided")
      samples None f0 told grace_ends 0 USD)
  else
    peak <-? peak_of samples;;
    if f_lt (idle_threshold_percent config) peak then
      Ok (mkIdleVerdict j false
        ("peaked at " +:+ f_fixed 1 peak +:+ "% in the last "
         +:+ f_general (idle_window_minutes config) +:+ " minutes")
        samples None peak told grace_ends 0 USD)
    else
      since <-? idle_since d j samples;;
      let hours := hours_between since now in
      price <-? gpu config (j_gpu_type j);;
      Ok (mkIdleVerdict j true
        ("never went above " +:+ f_general (idle_threshold_percent config) +:+ "% across "
         +:+ str_of_Z n +:+ " samples over " +:+ f_general (idle_window_minutes config) +:+ " minutes")
        samples (Some since) peak told grace_ends
        (quantize (dec_mul (gt_hourly_price price) (money hours)) (gt_currency price))
        (gt_currency price)).

(** [notify(store, verdict, config)] *)
Definition notify_idle {W} (v : IdleVerdict) : M (St W) exn IdleVerdict :=
  if notified v || negb (iv_idle v) then ret v
  else
    let j := iv_job v in
    let message :=
      "Job " +:+ short_id j +:+ " (" +:+ str_take 60 (j_command j) +:+ ") has used no GPU for "
      +:+ f_general (idle_window_minutes config) +:+ " minutes -- it never went above "
      +:+ f_fixed 1 (iv_peak_percent v) +:+ "%. It has spent "
      +:+ fmt (of_cents (iv_wasted v)) (iv_currency v)
      +:+ " doing nothing. If it is still working, ignore this. Otherwise it will be listed for reclaim in "
      +:+ f_general (idle_grace_minutes config) +:+ " minutes. Run `gpu status "
      +:+ short_id j +:+ "` to see the samples." in
    record <- notify (j_user_id j) IDLE_NOTIFICATION message (Some (j_job_id j));;
    append_log config (j_job_id j) "broker" ("idle warning sent to " +:+ j_user_id j);;;
    ret {| v with iv_notified_at := Some (ntf_at record);
                  iv_grace_ends_at := Some (ntf_at record
                    + timedelta_minutes (idle_grace_minutes config)) |}.

(** [reclaimable(verdict, clock)] *)
Definition reclaimable (v : IdleVerdict) (now : Z) : bool * string :=
  if negb (iv_idle v) then (false, "not idle")
  else if negb (notified v) then (false, "nobody has been told yet")
  else
    match iv_grace_ends_at v with
    | None => (false, "no grace period recorded")
    | Some ends =>
        if now <? ends then
          (false, f_fixed 0 (f_div (total_seconds (ends - now)) (f_of_Z 60)) +:+ " minutes of grace left")
        else (true, "idle, notified, and out of grace")
    end.

(** [candidates(store, config, clock)]: the idle jobs, most wasteful first *)
Definition idle_candidates (d : DB) (now : Z) : outcome exn (list IdleVerdict) :=
  verdicts <-? omapM (evaluate d now) (list_jobs d None (Some ACTIVE) None);;
  Ok (py_sort (on iv_wasted Z.gtb) (List.filter iv_idle verdicts)).

(** ** What an idle verdict rests on *)

Lemma peak_of_bound samples p s :
  peak_of samples = Ok p -> is_nan p = false -> f_lt (idle_threshold_percent config) p = false ->
  is_nan (idle_threshold_percent config) = false ->
  s ∈ samples -> f_lt (idle_threshold_percent config) (smp_gpu_percent s) = false.
Proof.
  unfold peak_of. intros Hp Hn Hle Ht Hs.
  assert (Hin : smp_gpu_percent s ∈ map smp_gpu_percent samples) by (by apply list_elem_of_fmap_2).
  destruct (map smp_gpu_percent samples) as [|q qs]; [done|]. injection Hp as <-.
  set (t := idle_threshold_percent config) in *.
  assert (Hmono : forall qs q, f_lt t (fold_left f_max qs q) = false ->
            is_nan (fold_left f_max qs q) = false ->
            forall x, x ∈ q :: qs -> f_lt t x = false).
  { clear -Ht. induction qs as [|r qs IH]; intros q H Hnan x Hx.
    - apply list_elem_of_singleton in Hx as ->. exact H.
    - cbn in H, Hnan. specialize (IH (f_max q r) H Hnan).
      assert (Hm : f_lt t (f_max q r) = false) by (apply IH; left).
      apply elem_of_cons in Hx as [->|[->|Hx]%elem_of_cons]; [| |apply IH; by right].
      + unfold f_max in Hm. destruct (f_lt q r) eqn:E; [|done].
        apply not_true_is_false. intros Hq. pose proof (f_lt_trans _ _ _ Hq E). congruence.
      + unfold f_max in Hm. destruct (f_lt q r) eqn:E; [done|].
        apply not_true_is_false. intros Hr.
        destruct (is_nan q) eqn:Hqn.
        * (* a NaN first argument is kept by [max] for ever *)
          exfalso. assert (Hk : forall l, fold_left f_max l q = q).
          { induction l as [|y l IHl]; cbn; [done|]. unfold f_max at 2.
            by rewrite f_lt_nan_l. }
          revert Hnan. unfold f_max at 2. rewrite E, Hk. congruence.
        * destruct (f_lt_cotrans t q r Hqn Hr); congruence. }
  by apply (Hmono qs q).
Qed.

Lemma evaluate_job d now j v : evaluate d now j = Ok v -> iv_job v = j.
Proof.
  unfold evaluate. case_match; [by intros [= <-]|]. intros (p & _ & H0)%obind_ok. revert H0.
  case_match; [by intros [= <-]|]. intros H1. inv_ok. done.
Qed.

Lemma evaluate_notified d now j v :
  evaluate d now j = Ok v ->
  iv_notified_at v = last_notified d j /\
  iv_grace_ends_at v = option_map (fun t => t + timedelta_minutes (idle_grace_minutes config))
                         (last_notified d j).
Proof.
  unfold evaluate. case_match; [by intros [= <-]|]. intros (p & _ & H0)%obind_ok. revert H0.
  case_match; [by intros [= <-]|]. intros H1. inv_ok. done.
Qed.

Lemma last_notified_recorded d j t :
  last_notified d j = Some t ->
  exists n, n ∈ notifications d /\ ntf_job_id n = Some (j_job_id j) /\
    ntf_kind n = IDLE_NOTIFICATION /\ ntf_at n = t.
Proof.
  unfold last_notified. destruct (last _) as [n|] eqn:Hl; [|done]. intros [= <-].
  apply last_Some in Hl as [l Hl].
  assert (Hin : n ∈ notifications_for_job d (j_job_id j) (Some IDLE_NOTIFICATION)).
  { rewrite Hl. apply elem_of_app. right. left. }
  apply list_elem_of_In, List.filter_In in Hin as [Hin [Hj Hk]%andb_true_iff].
  exists n. split_and!; [by apply list_elem_of_In|by apply bool_decide_eq_true in Hj| |done].
  by apply String.eqb_eq.
Qed.

(** Nothing is reclaimable without a warning in the notifications table whose
    grace period is over, enough samples in the window, and every one of them at
    or below the threshold. *)
Theorem reclaimable_justified d now j v why :
  evaluate d now j = Ok v -> reclaimable v now = (true, why) ->
  is_nan (idle_threshold_percent config) = false -> is_nan (iv_peak_percent v) = false ->
  (exists n, n ∈ notifications d /\ ntf_job_id n = Some (j_job_id j) /\
     ntf_kind n = IDLE_NOTIFICATION /\
     ntf_at n + timedelta_minutes (idle_grace_minutes config) <= now) /\
  (let samples := samples_for d (j_job_id j)
                    (Some (now - timedelta_minutes (idle_window_minutes config))) SAMPLES_LIMIT in
   idle_min_samples config <= Z.of_nat (length samples) /\
   forall s, s ∈ samples -> f_lt (idle_threshold_percent config) (smp_gpu_percent s) = false).
Proof.
  intros He Hr Ht Hp.
  destruct (evaluate_notified _ _ _ _ He) as [Hn Hg].
  unfold reclaimable in Hr. destruct (iv_idle v) eqn:Hi; [|done]. cbn [negb] in Hr.
  destruct (notified v); [|done]. cbn [negb] in Hr.
  destruct (iv_grace_ends_at v) as [ends|]; [|done].
  destruct (Z.ltb_spec now ends) as [|Hle]; [done|]. split.
  - destruct (last_notified d j) as [t|] eqn:Hl; [|done].
    destruct (last_notified_recorded _ _ _ Hl) as (n & ? & ? & ? & Hat).
    exists n. split_and!; try done. injection Hg as ->. by rewrite Hat.
  - cbn zeta. unfold evaluate in He.
    set (samples := samples_for _ _ _ _) in *.
    destruct (Z.ltb_spec (Z.of_nat (length samples)) (idle_min_samples config)) as [|Hmin].
    { injection He as <-. done. }
    split; [done|]. intros s Hs. apply obind_ok in He as (p & Hpeak & He).
    destruct (f_lt (idle_threshold_percent config) p) eqn:Hlt; [by injection He as <-|].
    assert (iv_peak_percent v = p) as Hpp by (by inv_ok).
    eapply peak_of_bound; try done. by rewrite <- Hpp.
Qed.

Lemma safe_notify_idle {W} js v : safe (W := W) js (notify_idle v) none.
Proof.
  unfold notify_idle. case_match; [apply safe_ret_none|].
  apply safe_then; [apply safe_notify|]. intros n.
  apply safe_then; [apply safe_append_log|]. intros _. apply safe_ret_none.
Qed.
End Idle.

#[export] Hint Resolve safe_notify_idle : safe.
