(* ===== verification/Metrics.v ===== *)
(** * metrics.py: the gauges a tick writes down

    A label set is a [dict]; the stored text is [encode_labels] of it.  The last
    part is the text a Prometheus server reads. *)

From S2P Require Import Prelude PyFloat PyDecimal PyFormat PySort PyDict Errors Money Clock States Models Config Tables Store StoreInv StoreSafe Backend.
Local Open Scope Z_scope.
Local Open Scope py_scope.

Definition QUEUE_DEPTH : string := "queue_depth".
Definition RUNNING_JOBS : string := "running_jobs".
Definition HEAD_WAIT_HOURS : string := "head_wait_hours".
Definition FREE_SLOTS : string := "free_slots".
Definition UTILIZATION : string := "gpu_utilization_percent".
Definition SPEND : string := "spend_total".
Definition POOL_REMAINING : string := "pool_remaining".

Definition labels := dict string string.

Record Point := mkPoint {
  pt_name : string;
  pt_at : Z;
  pt_value : float;
  pt_labels : labels
}.

(** [",".join(f"{key}={value}" for key, value in sorted(labels.items()))] *)
Definition encode_labels (ls : option labels) : string :=
  match ls with
  | None | Some [] => ""
  | Some l => str_join "," (map (fun kv => fst kv +:+ "=" +:+ snd kv) (py_sort (on fst str_lt) l))
  end.

Definition decode_labels (raw : string) : labels :=
  fold_left (fun out part => match partition_char "=" part with
                             | Some (k, v) => dict_set k v out
                             | None => out
                             end) (split_char "," raw) [].

(** A gauge before it is stored. *)
Definition gauge : Type := string * float * option labels.

Section Metrics.
Context {W : Type} `{TimeZones} (config : BrokerConfig).

Abbreviation M := (M (St W) exn).

(** [Metrics.record(points)]; SQLite stores a NaN as NULL, which the column refuses. *)
Definition record (points : list gauge) : M unit :=
  match points with
  | [] => ret tt
  | _ =>
      t <- now;;
      commit_only (fun d =>
        if existsb (fun p : gauge => is_nan (snd (fst p))) points
        then Raise (IntegrityError "NOT NULL constraint failed: metrics.value")
        else Ok {| d with metrics := metrics d ++
               map (fun p : gauge => mkMetricRow (fst (fst p)) t (snd (fst p)) (encode_labels (snd p)))
                 points |})
  end.

Definition point_of (r : MetricRow) : Point :=
  mkPoint (m_name r) (m_at r) (m_value r) (decode_labels (m_labels r)).

(** [Metrics.series(name, since, labels)] *)
Definition series (d : DB) (name : string) (since : option Z) (ls : option labels) : list Point :=
  map point_of (List.filter (fun r =>
    String.eqb (m_name r) name &&
    match since with Some t => t <=? m_at r | None => true end &&
    match ls with Some l => String.eqb (m_labels r) (encode_labels (Some l)) | None => true end)
    (metrics d)).

(** [Metrics.latest(name, stale_after)]: the newest row of each label set *)
Definition latest (d : DB) (now : Z) (name : string) (stale_after : option Z) : list Point :=
  let rows := List.filter (fun r => String.eqb (m_name r) name) (metrics d) in
  let newest := omap (fun l => last (List.filter (fun r => String.eqb (m_labels r) l) rows))
                  (remove_dups (map m_labels rows)) in
  map point_of (py_sort (on m_labels str_lt) (List.filter (fun r =>
    match stale_after with Some a => now - a <=? m_at r | None => true end) newest)).

(** [Metrics.average(name, since, labels)] *)
Definition average (d : DB) (name : string) (since : Z) (ls : option labels) : option float :=
  match series d name (Some since) ls with
  | [] => None
  | ps => Some (f_div (f_sum (map pt_value ps)) (f_of_Z (Z.of_nat (length ps))))
  end.

(** [Metrics.peak(name, since)] *)
Definition peak (d : DB) (name : string) (since : Z) : option float :=
  match map pt_value (series d name (Some since) None) with
  | [] => None
  | v :: vs => Some (fold_left f_max vs v)
  end.

(** The bucket of a point: clamped to the range of the buckets. *)
Definition bucket_index (since : Z) (span : float) (buckets : Z) (p : Point) : Z :=
  Z.min (Z.max (f_trunc (f_mul (f_div (total_seconds (pt_at p - since)) span) (f_of_Z buckets))) 0)
    (buckets - 1).

(** [sums[index] += value; counts[index] += 1] *)
Definition bucket_add (since : Z) (span : float) (buckets : Z) (acc : list (float * Z)) (p : Point)
  : list (float * Z) :=
  alter (fun sc : float * Z => (f_add (fst sc) (pt_value p), snd sc + 1))
    (Z.to_nat (bucket_index since span buckets p)) acc.

(** [Metrics.bucketed(name, since, until, buckets)] *)
Definition bucketed (d : DB) (name : string) (since until : Z) (buckets : Z)
  : list (option float) :=
  let span := total_seconds (until - since) in
  if f_le span f0 || (buckets <? 1) then []
  else
    map (fun sc : float * Z => if snd sc =? 0 then None else Some (f_div (fst sc) (f_of_Z (snd sc))))
      (fold_left (bucket_add since span buckets) (series d name (Some since) None)
         (replicate (Z.to_nat buckets) (f0, 0))).

(** [Metrics.prune(older_than)]: the number of rows deleted *)
Definition prune (older_than : Z) : M Z :=
  transaction (fun d =>
    let keep := List.filter (fun r => negb (m_at r <? older_than)) (metrics d) in
    Ok ({| d with metrics := keep |},
        Z.of_nat (length (metrics d)) - Z.of_nat (length keep))).

(** [sum(backend.free_slots(name) for backend in backends)] *)
Definition total_free (backends : list (Backend W)) (name : string) : M Z :=
  foldM (fun acc b => n <- call (b_free_slots b name);; ret (acc + n)) 0 backends.

(** The two gauges of one configured GPU type. *)
Definition gpu_gauges (queued : list Job) (backends : list (Backend W)) (acc : list gauge)
    (g : GpuType) : M (list gauge) :=
  free <- total_free backends (gt_name g);;
  let waiting := length (List.filter (fun j => String.eqb (j_gpu_type j) (gt_name g)) queued) in
  ret (acc ++ [(QUEUE_DEPTH +:+ "_by_gpu", f_of_Z (Z.of_nat waiting), Some [("gpu", gt_name g)]);
               (FREE_SLOTS, f_of_Z free, Some [("gpu", gt_name g)])]).

Definition job_gauges (d : DB) (j : Job) : list gauge :=
  match samples_for d (j_job_id j) None 3 with
  | [] => []
  | ss => [(UTILIZATION,
            f_div (f_sum (map smp_gpu_percent ss)) (f_of_Z (Z.of_nat (length ss))),
            Some [("job", short_id j); ("user", j_user_id j)])]
  end.

Definition currency_gauges (acc : list gauge) (c : Currency) : M (list gauge) :=
  pool <- pool_balance config c;;
  committed <- pool_committed config c;;
  ret (acc ++ [(SPEND, dec_to_float (of_cents (bal_spent pool)), Some [("currency", currency_str c)]);
               (POOL_REMAINING, dec_to_float (dec_sub (bal_budget pool) (of_cents committed)),
                Some [("currency", currency_str c)])]).

(** [collect(store, config, clock, backends)] *)
Definition collect (backends : list (Backend W)) : M (list gauge) :=
  t <- now;;
  queued <- query_ok queued_jobs;;
  active <- query_ok active_jobs;;
  let head := match map (fun j => wait_hours j t) queued with
              | [] => f0
              | h :: hs => fold_left f_max hs h
              end in
  let base := [(QUEUE_DEPTH, f_of_Z (Z.of_nat (length queued)), None);
               (RUNNING_JOBS, f_of_Z (Z.of_nat (length active)), None);
               (HEAD_WAIT_HOURS, head, None)] in
  with_gpus <- foldM (gpu_gauges queued backends) base (gpu_types config);;
  with_jobs <- query_ok (fun d => with_gpus ++ concat (map (job_gauges d) active));;
  foldM currency_gauges with_jobs all_currencies.

(** ** Lemmas *)

Lemma safe_record js points : safe (W := W) js (record points) none.
Proof.
  unfold record. destruct points; [apply safe_ret_none|]. apply safe_read; [done|]. intros t.
  apply safe_commit_only. intros d d' Hd _. case_match; [done|]. intros [= <-]. frame.
Qed.

Lemma safe_collect js backends : safe (W := W) js (collect backends) none.
Proof.
  unfold collect. do 3 (apply safe_read; [done|]; intros ?). apply safe_then.
  - apply safe_foldM_none. intros acc g. unfold gpu_gauges, total_free.
    apply safe_then; [|intros; apply safe_ret_none]. apply safe_foldM_none. intros n b.
    apply safe_then; [apply safe_call|]. intros. apply safe_ret_none.
  - intros with_gpus. apply safe_read; [done|]. intros with_jobs. apply safe_foldM_none.
    intros acc c. unfold currency_gauges, pool_balance, pool_committed.
    do 2 (apply safe_read; [done|]; intros ?). apply safe_ret_none.
Qed.

Lemma safe_prune js cut : safe (W := W) js (prune cut) none.
Proof.
  unfold prune. apply safe_transaction. intros d d' n Hd _ [= <- <-].
  assert (Hf : forall ms, db_ok {| d with metrics := ms |} /\ extends d {| d with metrics := ms |})
    by (intros ms; frame).
  split_and!; [apply Hf..|constructor].
Qed.

Lemma bucket_fold_length since span buckets ps acc :
  length (fold_left (bucket_add since span buckets) ps acc) = length acc.
Proof.
  revert acc. induction ps as [|p ps IH]; intros acc; cbn; [done|].
  rewrite IH. apply length_alter.
Qed.

Lemma bucket_fold_counts since span buckets ps acc i s n :
  1 <= buckets -> (Z.to_nat i < length acc)%nat -> 0 <= i ->
  acc !! Z.to_nat i = Some (s, n) ->
  option_map snd (fold_left (bucket_add since span buckets) ps acc !! Z.to_nat i)
  = Some (n + Z.of_nat (length (List.filter (fun p => bucket_index since span buckets p =? i) ps))).
Proof.
  intros Hb. revert acc s n. induction ps as [|p ps IH]; intros acc s n Hlen Hi Hacc; cbn.
  - rewrite Hacc. cbn. f_equal. lia.
  - set (k := bucket_index since span buckets p).
    assert (Hk : 0 <= k) by (unfold k, bucket_index; lia).
    destruct (Z.eqb_spec k i) as [E|Hne].
    + erewrite IH; [| |done|].
      * cbn. f_equal. instantiate (1 := n + 1). lia.
      * unfold bucket_add. by rewrite length_alter.
      * unfold bucket_add. fold k. rewrite E, list_lookup_alter_eq, Hacc. done.
    + eapply IH; [|done|].
      * unfold bucket_add. by rewrite length_alter.
      * unfold bucket_add. fold k. rewrite list_lookup_alter_ne by lia. exact Hacc.
Qed.

(** A chart has as many buckets as asked for, whatever the points are, and a
    bucket is empty exactly when no point of the series falls in it. *)
Theorem bucketed_gaps d name since until buckets :
  f_lt f0 (total_seconds (until - since)) = true -> 1 <= buckets ->
  let span := total_seconds (until - since) in
  let out := bucketed d name since until buckets in
  Z.of_nat (length out) = buckets /\
  forall i, 0 <= i < buckets ->
    out !! Z.to_nat i = Some None <->
    (forall p, p ∈ series d name (Some since) None -> bucket_index since span buckets p <> i).
Proof.
  intros Hspan Hb span out. unfold out, bucketed. fold span.
  assert (Hle : f_le span f0 || (buckets <? 1) = false).
  { apply orb_false_iff. split; [|lia]. apply not_true_is_false. intros Hle.
    destruct (f_lt_not_nan _ _ Hspan) as [_ Hnan]. revert Hspan Hle. fold span. unfold f_lt, f_le.
    unfold SpecFloat.SFltb, SpecFloat.SFleb. clear. destruct span as [[]|[]| |[] ? ?]; done. }
  rewrite Hle, length_map, bucket_fold_length, length_replicate. split; [lia|]. intros i Hi.
  rewrite list_lookup_fmap.
  pose proof (bucket_fold_counts since span buckets (series d name (Some since) None)
    (replicate (Z.to_nat buckets) (f0, 0)) i f0 0 Hb) as Hc.
  rewrite length_replicate in Hc. specialize (Hc ltac:(lia) ltac:(lia)).
  rewrite lookup_replicate_2 in Hc by lia. specialize (Hc eq_refl).
  destruct (_ !! Z.to_nat i) as [[s n]|]; [|done]. cbn in Hc |- *. injection Hc as ->.
  set (ps := series d name (Some since) None).
  destruct (List.filter _ ps) as [|p l] eqn:Hf; cbn.
  - split; [|done]. intros _ p Hp Hk.
    assert (Hin : p ∈ List.filter (fun p => bucket_index since span buckets p =? i) ps).
    { apply list_elem_of_In, List.filter_In. split; [by apply list_elem_of_In|lia]. }
    by rewrite Hf in Hin; apply elem_of_nil in Hin.
  - split; [done|]. intros Hno. exfalso.
    assert (Hin : In p (List.filter (fun p => bucket_index since span buckets p =? i) ps))
      by (rewrite Hf; by left).
    apply List.filter_In in Hin as [Hin Hk]. apply (Hno p); [by apply list_elem_of_In|lia].
Qed.
End Metrics.

#[export] Hint Resolve safe_record safe_collect safe_prune : safe.

(** * metrics.py: the text a scraper reads

    [prometheus] writes the newest point of each series; [scan_label] is how the
    format says a label value is read, and finds what was written. *)

From Stdlib Require Import Ascii.
From S2P Require Import Prelude PyFloat PyDecimal PyFormat PySort PyDict Errors Money Clock PyJson PyText States Models Config Tables Store StoreInv StoreSafe Backend.
Local Open Scope Z_scope.
Local Open Scope py_scope.

(** [_HELP] *)
Definition HELP : list (string * (string * string)) :=
  [(QUEUE_DEPTH, ("gauge", "Jobs waiting for capacity"));
   (QUEUE_DEPTH +:+ "_by_gpu", ("gauge", "Jobs waiting, by GPU type"));
   (RUNNING_JOBS, ("gauge", "Jobs holding capacity"));
   (HEAD_WAIT_HOURS, ("gauge", "Hours the longest-waiting queued job has waited"));
   (FREE_SLOTS, ("gauge", "Free slots, by GPU type"));
   (UTILIZATION, ("gauge", "Recent GPU utilization of a running job, percent"));
   (SPEND, ("counter", "Spent this billing period"));
   (POOL_REMAINING, ("gauge", "Pool budget not yet committed"))].

(** [STALE_AFTER]: fifteen minutes *)
Definition STALE_AFTER : Z := 15 * us_per_minute.

(** [_escape(value)] *)
Definition escape_label_char (c : ascii) : string :=
  if Ascii.eqb c backslash then String backslash (String backslash "")
  else if Ascii.eqb c quote_char then String backslash (String quote_char "")
  else if Ascii.eqb c "010" then " "
  else String c "".

Fixpoint escape_label (s : string) : string :=
  match s with EmptyString => "" | String c s' => escape_label_char c +:+ escape_label s' end.

(** [key="value",] *)
Definition label_pair (kv : string * string) : string :=
  fst kv +:+ "=" +:+ String quote_char (escape_label (snd kv) +:+ String quote_char "").

(** The line of a point; the last comma is stripped. *)
Definition point_line (metric : string) (p : Point) : string :=
  let labels := str_join "," (map label_pair (py_sort (on fst str_lt) (pt_labels p))) in
  metric +:+ (if non_empty labels then "{" +:+ labels +:+ "}" else "") +:+ " " +:+ f_general (pt_value p).

(** One metric: nothing without points. *)
Definition metric_lines (d : DB) (t : Z) (stale_after : option Z) (m : string * (string * string)) : list string :=
  match latest d t (fst m) stale_after with
  | [] => []
  | points =>
      let metric := "gpu_broker_" +:+ fst m in
      ["# HELP " +:+ metric +:+ " " +:+ snd (snd m); "# TYPE " +:+ metric +:+ " " +:+ fst (snd m)]
      ++ map (point_line metric) points
  end.

(** [prometheus(metrics, stale_after)] *)
Definition prometheus (d : DB) (t : Z) (stale_after : option Z) : string :=
  str_join newline (flat_map (metric_lines d t stale_after) HELP) +:+ newline.

(** ** Reading a label value *)

Fixpoint scan_label (s : string) : option (string * string) :=
  match s with
  | EmptyString => None
  | String c s' =>
      if Ascii.eqb c quote_char then Some ("", s')
      else if Ascii.eqb c backslash then
        match s' with
        | String d s'' => option_map (fun r => (String d (fst r), snd r)) (scan_label s'')
        | EmptyString => None
        end
      else option_map (fun r => (String c (fst r), snd r)) (scan_label s')
  end.

(** A member's name on one line *)
Fixpoint one_line_text (s : string) : string :=
  match s with EmptyString => "" | String c s' => String (if Ascii.eqb c "010" then " "%char else c) (one_line_text s') end.

(** No name breaks out of its label: what a scraper reads up to the closing
    quote is the value on one line, and what follows is what was written after it. *)
Theorem label_value_roundtrip v rest :
  scan_label (escape_label v +:+ String quote_char rest) = Some (one_line_text v, rest).
Proof.
  induction v as [|c v IH]; [done|]. cbn [escape_label one_line_text]. rewrite str_app_assoc. unfold escape_label_char.
  destruct (Ascii.eqb_spec c backslash) as [->|Hb].
  { change (option_map (fun r => (String backslash (fst r), snd r)) (scan_label (escape_label v +:+ String quote_char rest))
      = Some (String backslash (one_line_text v), rest)). by rewrite IH. }
  destruct (Ascii.eqb_spec c quote_char) as [->|Hq].
  { change (option_map (fun r => (String quote_char (fst r), snd r)) (scan_label (escape_label v +:+ String quote_char rest))
      = Some (String quote_char (one_line_text v), rest)). by rewrite IH. }
  set (c' := if Ascii.eqb c "010" then " "%char else c).
  assert (Ec : (if Ascii.eqb c "010" then " " else String c "") = String c' "") by (unfold c'; by destruct (Ascii.eqb c "010")).
  rewrite Ec. change (scan_label (String c' (escape_label v +:+ String quote_char rest)) = Some (String c' (one_line_text v), rest)).
  assert (Hc : c' <> quote_char /\ c' <> backslash) by (unfold c'; by destruct (Ascii.eqb c "010")).
  cbn [scan_label]. rewrite IH. destruct (Ascii.eqb_spec c' quote_char) as [E|_]; [tauto|].
  destruct (Ascii.eqb_spec c' backslash) as [E|_]; [tauto|]. done.
Qed.

(** A body, one series. *)
Example prometheus_ex :
  let d := {| empty_db with metrics := [mkMetricRow QUEUE_DEPTH 0 (f_of_Z 3) "{}"] |} in
  split_char (ascii_of_nat 10) (prometheus d us_per_minute (Some STALE_AFTER))
  = ["# HELP gpu_broker_queue_depth Jobs waiting for capacity"; "# TYPE gpu_broker_queue_depth gauge";
     "gpu_broker_queue_depth 3"; ""].
Proof. by vm_compute. Qed.
