(* ===== verification/PriceList.v ===== *)
(** * pricing.py: what AWS asks for an instance

    [fetch_on_demand] is what [Pricing.refresh] calls for each GPU type.  The
    client's [get_products] is a call over a world, a failed one giving the text of
    its exception; an entry of its list is the JSON it is.  A price that is not a
    finite number is read as none. *)

From Stdlib Require Import Ascii.
From S2P Require Import Prelude PyFloat PyDecimal PyFormat PySort PyDict Errors Money Clock PyJson PyText States Models Config Tables Store StoreInv StoreSafe Backend.
Local Open Scope Z_scope.
Local Open Scope py_scope.

(** [v.get(key, d)] *)
Definition json_get (key : string) (d v : json) : outcome exn json :=
  match v with
  | JDict kvs => Ok (default d (dict_get key kvs))
  | _ => Raise (AttributeError "object has no attribute 'get'")
  end.

(** [v.values()] *)
Definition json_values (v : json) : outcome exn (list json) :=
  match v with
  | JDict kvs => Ok (map snd kvs)
  | _ => Raise (AttributeError "object has no attribute 'values'")
  end.

(** [v.lower()] *)
Definition json_lower (v : json) : outcome exn string :=
  match v with
  | JStr s => Ok (str_lower s)
  | _ => Raise (AttributeError "object has no attribute 'lower'")
  end.

(** [money(raw)], when it is a number *)
Definition raw_money (raw : json) : option Decimal :=
  match raw with
  | JStr s => decimal_text s
  | JInt n => Some (dec_of_Z n)
  | JFloat x => if is_finite x then Some (money x) else None
  | _ => None
  end.

(** One price dimension: its hourly rate, if it has one above zero. *)
Definition rate_of (dimension : json) : outcome exn (option Decimal) :=
  unit_ <-? json_get "unit" (JStr "") dimension;;
  unit_ <-? json_lower unit_;;
  if negb (bool_decide (unit_ ∈ ["hrs"; "hours"; "hour"])) then Ok None
  else
    per <-? json_get "pricePerUnit" (JDict []) dimension;;
    raw <-? json_get "USD" JNull per;;
    Ok (match raw_money raw with
        | Some value => if dec_ltb dzero value then Some value else None
        | None => None
        end).

(** [min(found)], the first of the least *)
Definition dec_least (ds : list Decimal) : option Decimal :=
  match ds with [] => None | d :: ds => Some (fold_left dec_min ds d) end.

Definition rates_of_term (term : json) : outcome exn (list Decimal) :=
  dimensions <-? json_get "priceDimensions" (JDict []) term;;
  dimensions <-? json_values dimensions;;
  found <-? omapM rate_of dimensions;;
  Ok (omap id found).

(** [_extract(entry)] *)
Definition extract (entry : json) : outcome exn (option Decimal) :=
  match (match entry with JStr s => loads s | v => Some v end) with
  | Some (JDict kvs) =>
      terms <-? json_get "terms" (JDict []) (JDict kvs);;
      on_demand <-? json_get "OnDemand" (JDict []) terms;;
      on_demand <-? json_values on_demand;;
      found <-? omapM rates_of_term on_demand;;
      Ok (dec_least (concat found))
  | _ => Ok None
  end.

(** The filters of the request. *)
Definition price_filters (instance_type region : string) : list (string * string) :=
  [("instanceType", instance_type); ("regionCode", region); ("operatingSystem", "Linux");
   ("tenancy", "Shared"); ("preInstalledSw", "NA"); ("capacitystatus", "Used")].

Section Fetch.
Context {W : Type} (get_products : list (string * string) -> M W string (list json)).

(** [fetch_on_demand(pricing_client, instance_type, region)] *)
Definition fetch_on_demand (instance_type region : string) : method W Decimal := fun _ w =>
  let '(w, r) := get_products (price_filters instance_type region) w in
  (w, match r with
      | Raise text => Raise (PricingError ("the pricing API did not answer: " +:+ text))
      | Ok [] =>
          Raise (PricingError ("AWS lists no on-demand price for " +:+ instance_type +:+ " in " +:+ region +:+ ". "
            +:+ "Either the type is unavailable there, or the name is wrong"))
      | Ok listings =>
          prices <-? omapM extract listings;;
          match dec_least (omap id prices) with
          | Some least => Ok least
          | None => Raise (PricingError ("the listing for " +:+ instance_type +:+ " had no usable price"))
          end
      end).
End Fetch.

(** ** What it promises *)

Lemma dec_least_spec ds d : dec_least ds = Some d -> d ∈ ds /\ forall x, x ∈ ds -> dec_leb d x = true.
Proof.
  destruct ds as [|a ds]; [discriminate|]. intros [= <-]. revert a. induction ds as [|b ds IH]; intros a; cbn [fold_left].
  - split; [left|]. intros x ->%list_elem_of_singleton. apply dec_leb_refl.
  - destruct (IH (dec_min a b)) as [Hin Hle]. split.
    + apply elem_of_cons in Hin as [->|Hin]; [|by do 2 right]. unfold dec_min. destruct (dec_ltb b a); [right; left|left].
    + assert (Hm : dec_leb (dec_min a b) a = true /\ dec_leb (dec_min a b) b = true).
      { unfold dec_min. rewrite dec_ltb_leb. destruct (dec_leb a b) eqn:Hab; cbn; [by rewrite dec_leb_refl|].
        destruct (dec_leb_total a b) as [H|H]; [congruence|]. by rewrite dec_leb_refl. }
      intros x [->|[->|Hx]%elem_of_cons]%elem_of_cons.
      * eapply dec_leb_trans; [apply Hle; left|apply Hm].
      * eapply dec_leb_trans; [apply Hle; left|apply Hm].
      * apply Hle. by right.
Qed.

Lemma rate_positive v d : rate_of v = Ok (Some d) -> dec_ltb dzero d = true.
Proof.
  unfold rate_of. intros (u & _ & H)%obind_ok. apply obind_ok in H as (l & _ & H). destruct (negb _); [discriminate|].
  apply obind_ok in H as (per & _ & H). apply obind_ok in H as (raw & _ & H).
  destruct (raw_money raw) as [value|]; [|discriminate]. destruct (dec_ltb dzero value) eqn:Hv; [|discriminate].
  by injection H as <-.
Qed.

Lemma extract_positive entry d : extract entry = Ok (Some d) -> dec_ltb dzero d = true.
Proof.
  unfold extract. destruct (match entry with JStr s => loads s | _ => Some entry end) as [[| | | | | |kvs]|]; try discriminate.
  intros (t & _ & H)%obind_ok. apply obind_ok in H as (o & _ & H). apply obind_ok in H as (vs & _ & H).
  apply obind_ok in H as (found & Hf & H). injection H as H. apply dec_least_spec in H as [Hin _].
  apply list_elem_of_In, in_concat in Hin as (ds & Hds & Hd). apply list_elem_of_In in Hds, Hd.
  apply (omapM_elem _ _ _ Hf) in Hds as (term & _ & Ht). unfold rates_of_term in Ht.
  apply obind_ok in Ht as (x & _ & Ht). apply obind_ok in Ht as (y & _ & Ht). apply obind_ok in Ht as (rs & Hr & Ht).
  injection Ht as <-. apply list_elem_of_omap in Hd as ([r|] & Hin & E); [|discriminate]. injection E as ->.
  apply (omapM_elem _ _ _ Hr) in Hin as (v & _ & Hv). by apply (rate_positive v).
Qed.

(** A price that is fetched is above zero, comes from an hourly rate of the
    listing AWS answered for the type and region under the six filters, and no rate
    of that listing is lower; without one the call raises instead of guessing. *)
Theorem price_cheapest {W} get_products instance_type region t (w : W) p :
  snd (fetch_on_demand get_products instance_type region t w) = Ok p ->
  exists listings, snd (get_products (price_filters instance_type region) w) = Ok listings /\
    dec_ltb dzero p = true /\ (exists entry, entry ∈ listings /\ extract entry = Ok (Some p)) /\
    forall entry q, entry ∈ listings -> extract entry = Ok (Some q) -> dec_leb p q = true.
Proof.
  unfold fetch_on_demand. destruct (get_products _ w) as [w' [[|e es]|text]]; cbn; try discriminate.
  intros H. exists (e :: es). split; [done|]. apply obind_ok in H as (prices & Hp & H).
  destruct (dec_least (omap id prices)) as [least|] eqn:Hl; [|discriminate]. injection H as <-.
  apply dec_least_spec in Hl as [Hin Hle]. change (omapM extract (e :: es) = Ok prices) in Hp.
  apply list_elem_of_omap in Hin as ([d|] & Hin & E); [|discriminate]. injection E as ->.
  apply (omapM_elem _ _ _ Hp) in Hin as (entry & He & Hx). split_and!.
  - by apply (extract_positive entry).
  - by exists entry.
  - intros entry' q Hin' Hq. apply Hle. apply list_elem_of_omap. exists (Some q). split; [|done].
    apply (omapM_elem _ _ _ Hp). by exists entry'.
Qed.

(** ** A listing *)

Definition rate (unit_ usd : string) : json :=
  JDict [("unit", JStr unit_); ("pricePerUnit", JDict [("USD", JStr usd)])].
Definition listing (dimensions : list json) : json :=
  JDict [("terms", JDict [("OnDemand", JDict [("sku", JDict [("priceDimensions",
    JDict (imap (fun i d => (str_of_Z (Z.of_nat i), d)) dimensions))])])])].

Definition answers (l : list json) : list (string * string) -> M unit string (list json) := fun _ w => (w, Ok l).
Definition three_listings : list json :=
  [listing [rate "Hrs" "0.71"; rate "Quantity" "0.01"]; listing [rate "Hrs" "0.526"; rate "Hrs" "0.0000000000"]; listing []].

Lemma price_cheapest_witness :
  snd (fetch_on_demand (answers three_listings) "g4dn.xlarge" "us-west-2" 0 tt) = Ok (mkDec 526 (-3)) /\
  dec_ltb dzero (mkDec 526 (-3)) = true.
Proof.
  split; [vm_compute; reflexivity|].
  destruct (price_cheapest (answers three_listings) "g4dn.xlarge" "us-west-2" 0 tt (mkDec 526 (-3))) as (l & _ & H & _);
    [vm_compute; reflexivity|exact H].
Defined.

(** [_extract] says it is defensive throughout, but an entry whose terms are null
    makes it raise, and the refresh of every price with it. *)
Example null_terms : extract (JDict [("terms", JNull)]) = Raise (AttributeError "object has no attribute 'get'").
Proof. reflexivity. Qed.
