(* ===== verification/Pricing.v ===== *)
(** * pricing.py: the price book

    A [PriceBook] is the configuration it was built with and its [_prices], a
    [dict] in insertion order.  Of the [aws] sub-configuration it reads the
    instance type of each GPU type and the region.  [fetch_on_demand], the
    digging in AWS's JSON, is the argument [fetch] of [refresh]: a call that
    returns a price, raises [PricingError], or raises something else. *)

From S2P Require Import Prelude PyFloat PyDecimal PyFormat PyDict Errors Money Clock States Models Config Tables Store StoreInv StoreSafe Backend.
Local Open Scope Z_scope.
Local Open Scope py_scope.

(** What [config.aws] says that the book reads. *)
Record AwsPrices := mkAwsPrices {
  aws_instance_types : gmap string string;
  aws_region : string
}.

Record PriceBook := mkPriceBook {
  pb_config : BrokerConfig;
  pb_aws : AwsPrices;
  pb_prices : dict string Price
}.

Record RefreshReport := mkRefreshReport {
  rr_at : Z;
  rr_updated : list Price;
  rr_failed : list (string * string)
}.

(** [RefreshReport.ok] *)
Definition refresh_ok (r : RefreshReport) : bool :=
  match rr_updated r, rr_failed r with _ :: _, [] => true | _, _ => false end.

(** The price the configuration itself gives a GPU type. *)
Definition builtin_price (aws : AwsPrices) (t : Z) (g : GpuType) : Price :=
  mkPrice (gt_name g) (gt_hourly_price g) (gt_currency g) "builtin" t
    (default "" (aws_instance_types aws !! gt_name g)) (aws_region aws).

(** [PriceBook(config, clock)]: [_load_builtin] on an empty book *)
Definition new_book (config : BrokerConfig) (aws : AwsPrices) (t : Z) : PriceBook :=
  mkPriceBook config aws
    (fold_left (fun m g => dict_set (gt_name g) (builtin_price aws t g) m) (gpu_types config) []).

(** [load(stored)] *)
Definition load (b : PriceBook) (stored : list (string * Price)) : PriceBook :=
  mkPriceBook (pb_config b) (pb_aws b)
    (fold_left (fun m kv => match dict_get (fst kv) m with
                            | Some _ => dict_set (fst kv) (snd kv) m
                            | None => m
                            end) stored (pb_prices b)).

(** [price(gpu_type)] *)
Definition price (b : PriceBook) (gpu_type : string) : outcome exn Price :=
  match dict_get gpu_type (pb_prices b) with
  | Some p => Ok p
  | None => Raise (BrokerError ("no price for gpu type '" +:+ gpu_type +:+ "'"))
  end.

(** [hourly(gpu_type)] *)
Definition hourly (b : PriceBook) (gpu_type : string) : outcome exn Decimal :=
  p <-? price b gpu_type;; Ok (prc_hourly p).

(** [stale(older_than_days)] *)
Definition stale (b : PriceBook) (older_than_days : float) (t : Z) : list Price :=
  List.filter (fun p => bool_decide (prc_currency p = USD)
    && (String.eqb (prc_source p) "builtin" || f_lt older_than_days (age_days p t)))
    (map snd (pb_prices b)).

Section Refresh.
Context {W : Type} (fetch : string -> string -> method W Decimal).

(** One GPU type of the loop of [refresh]: the prices, what was updated and
    what failed so far. *)
Definition refresh_one (b : PriceBook) (t : Z)
    (acc : dict string Price * list Price * list (string * string)) (g : GpuType)
  : M (St W) exn (dict string Price * list Price * list (string * string)) :=
  let '(m, updated, failed) := acc in
  if negb (bool_decide (gt_currency g = USD)) then ret acc
  else
    match aws_instance_types (pb_aws b) !! gt_name g with
    | None | Some EmptyString =>
        ret (m, updated, failed ++ [(gt_name g, "no instance type mapped in aws.instance_types")])
    | Some instance_type =>
        r <- try_catch (v <- call (fetch instance_type (aws_region (pb_aws b)));; ret (inr v))
               is_pricing_error (fun e => ret (inl e));;
        match r with
        | inl e => ret (m, updated, failed ++ [(gt_name g, exn_str e)])
        | inr v =>
            let p := mkPrice (gt_name g) v USD "aws" t instance_type (aws_region (pb_aws b)) in
            ret (dict_set (gt_name g) p m, updated ++ [p], failed)
        end
    end.

(** [refresh(pricing_client)] *)
Definition refresh (b : PriceBook) : M (St W) exn (PriceBook * RefreshReport) :=
  t <- now;;
  r <- foldM (refresh_one b t) (pb_prices b, [], []) (gpu_types (pb_config b));;
  let '(m, updated, failed) := r in
  ret (mkPriceBook (pb_config b) (pb_aws b) m, mkRefreshReport t updated failed).

Lemma safe_refresh js b : safe js (refresh b) none.
Proof.
  unfold refresh. apply safe_read; [done|]. intros t.
  apply safe_then; [|intros [[m u] f]; apply safe_ret_none].
  apply safe_foldM_none. intros [[m u] f] g. unfold refresh_one.
  destruct (negb _); [apply safe_ret_none|]. destruct (_ !! _) as [[|a i]|]; try apply safe_ret_none.
  apply safe_then; [|intros [e|v]; apply safe_ret_none].
  apply safe_try; [|intros; apply safe_ret_none].
  apply safe_then; [apply safe_call|]. intros. apply safe_ret_none.
Qed.
End Refresh.

#[export] Hint Resolve safe_refresh : safe.

(** [_apply_prices]'s configuration: each GPU type at the book's price. *)
Definition priced (b : PriceBook) (config : BrokerConfig) : BrokerConfig :=
  {| config with gpu_types := map (fun g =>
       match dict_get (gt_name g) (pb_prices b) with
       | Some p => {| g with gt_hourly_price := prc_hourly p |}
       | None => g
       end) (gpu_types config) |}.

(** ** Lemmas *)

Lemma find_map_name (f : GpuType -> GpuType) name l :
  (forall g, gt_name (f g) = gt_name g) ->
  List.find (fun g => String.eqb (gt_name g) name) (map f l)
  = option_map f (List.find (fun g => String.eqb (gt_name g) name) l).
Proof.
  intros Hf. induction l as [|g l IH]; cbn; [done|]. rewrite Hf. by destruct (String.eqb _ _).
Qed.

(** A book never gains a GPU type from what was stored. *)
Lemma load_keys b stored k :
  dict_get k (pb_prices b) = None -> dict_get k (pb_prices (load b stored)) = None.
Proof.
  cbn. generalize (pb_prices b). induction stored as [|[k' p] stored IH]; intros m Hm; cbn; [done|].
  apply IH. destruct (dict_get k' m) eqn:Hk; [|done]. rewrite dict_get_set.
  destruct (decide (k' = k)) as [->|]; congruence.
Qed.

(** After the price book is applied, every GPU type of the configuration is
    charged at the price the book gives it, a type the book does not know keeps
    its own, no type appears or disappears, and nothing else about it changes. *)
Theorem priced_gpu b config name :
  gpu (priced b config) name =
  match gpu config name with
  | Ok g => Ok {| g with gt_hourly_price := match hourly b name with
                                            | Ok h => h | Raise _ => gt_hourly_price g end |}
  | Raise e => Raise e
  end.
Proof.
  unfold gpu. cbn [priced gpu_types].
  set (f := fun g : GpuType => match dict_get (gt_name g) (pb_prices b) with
       | Some p => {| g with gt_hourly_price := prc_hourly p |} | None => g end).
  assert (Hf : forall g, gt_name (f g) = gt_name g).
  { intros g. unfold f. by destruct (dict_get _ _). }
  rewrite (find_map_name f name) by done.
  destruct (List.find _ _) as [g|] eqn:Hg; cbn.
  - apply List.find_some in Hg as [_ <-%String.eqb_eq]. unfold f, hourly, price.
    destruct (dict_get _ _); [done|]. by destruct g.
  - do 2 f_equal. rewrite map_map. by apply map_ext.
Qed.
