(* ===== verification/Forecast.v ===== *)
(** * forecast.py: when the pool runs dry

    [forecast] reads the settlements of the window, the pool's balance and what
    is committed.  The two divisions and [now + timedelta(days=...)] are the
    places it can raise: a burn rate so low that the pool outlasts the calendar
    overflows [datetime]. *)

From S2P Require Import Prelude PyFloat PyDecimal PyFormat PySort Errors Money Clock States Models Config Tables Store StoreInv StoreSafe.
Local Open Scope Z_scope.
Local Open Scope py_scope.

(** [Forecast.level] *)
Inductive Level : Type := LEVEL_OK | WARNING | CRITICAL | EXHAUSTED.

#[export] Instance Level_eq_dec : EqDecision Level.
Proof. solve_decision. Defined.

Record Forecast := mkForecast {
  fc_currency : Currency;
  fc_budget : Decimal;
  fc_spent : Z;
  fc_committed : Z;
  fc_available : Decimal;
  fc_burn_per_day : Decimal;
  fc_days_left : option float;
  fc_dry_on : option Z;
  fc_level : Level;
  fc_window_days : float;
  fc_observed_days : float
}.

(** [Forecast.confident] *)
Definition confident (f : Forecast) : bool := f_le f1 (fc_observed_days f).

(** [_noun(currency)] *)
Definition noun (c : Currency) : string :=
  match c with USD => "credit" | GPU_HOUR => "free GPU-hours" end.

(** [Forecast.headline()] *)
Definition headline (f : Forecast) : string :=
  let c := fc_currency f in
  if bool_decide (fc_level f = EXHAUSTED) then "the pool is out of " +:+ noun c
  else
    match fc_days_left f with
    | None => "nothing is being spent; " +:+ fmt (fc_available f) c +:+ " left"
    | Some d =>
        let over := f_lt (f_of_Z 365) d in
        let days := if over then "over a year"
                    else f_fixed 0 d +:+ " day" +:+ (if f_round d =? 1 then "" else "s") in
        fmt (fc_available f) c +:+ " left, " +:+ fmt (fc_burn_per_day f) c +:+ "/day, "
        +:+ (if over then "" else "about ") +:+ days +:+ " of runway"
        +:+ (if confident f then "" else " (based on under a day of history)")
    end.

(** [now + timedelta(days=x)] *)
Definition add_days (t : Z) (x : float) : outcome exn Z :=
  if negb (is_finite x) then Raise (OverflowError "cannot convert float infinity to integer")
  else if MAX_DATETIME <? t + timedelta_days x then Raise (OverflowError "date value out of range")
  else Ok (t + timedelta_days x).

Section Forecast.
Context {W : Type} `{TimeZones} (config : BrokerConfig).

Abbreviation M := (M (St W) exn).

(** The days of history behind the burn rate: since the earliest settlement. *)
Definition observed_days (t : Z) (settlements : list (option string * Z * Z)) : float :=
  match map snd settlements with
  | [] => f0
  | a :: ats => f_max (f_div (total_seconds (t - fold_left Z.min ats a)) (f_of_Z 86400)) f0
  end.

(** [burn_per_day]: what was settled over the days it is measured on *)
Definition burn_rate (burned : Z) (effective : float) : outcome exn Decimal :=
  if 0 <? burned then
    of_option (dec_div (of_cents burned) (money effective)) (ArithmeticError "DivisionByZero")
  else Ok ZERO.

(** The runway: level, days left and the day it ends. *)
Definition runway (t : Z) (available burn : Decimal)
  : outcome exn (Level * option float * option Z) :=
  if dec_leb available ZERO then Ok (EXHAUSTED, Some f0, Some t)
  else if dec_leb burn ZERO then Ok (LEVEL_OK, None, None)
  else
    q <-? of_option (dec_div available burn) (ArithmeticError "DivisionByZero");;
    let days_left := dec_to_float q in
    dry_on <-? add_days t days_left;;
    Ok (if f_le days_left (forecast_critical_days config) then CRITICAL
        else if f_le days_left (forecast_warning_days config) then WARNING
        else LEVEL_OK,
        Some days_left, Some dry_on).

(** [forecast(store, config, clock, currency)] *)
Definition forecast (currency : Currency) : M Forecast :=
  t <- now;;
  let window := forecast_window_days config in
  let cutoff := t - timedelta_days window in
  settlements <- query_ok (fun d => settlements_since d cutoff currency);;
  let burned := zsum (fun s => snd (fst s)) settlements in
  let observed := observed_days t settlements in
  let effective := f_max observed (forecast_min_days config) in
  burn <- lift_outcome (burn_rate burned effective);;
  pool <- pool_balance config currency;;
  committed <- pool_committed config currency;;
  let available := dec_sub (bal_budget pool) (of_cents committed) in
  r <- lift_outcome (runway t available burn);;
  let '(level, days_left, dry_on) := r in
  ret (mkForecast currency (bal_budget pool) (bal_spent pool) committed available burn
         days_left dry_on level window observed).

(** [alerts(store, config, clock)] *)
Definition alerts : M (list Forecast) :=
  foldM (fun out c =>
    f <- forecast c;;
    ret (if bool_decide (fc_level f = LEVEL_OK) then out else out ++ [f])) [] all_currencies.

(** ** Lemmas *)

Lemma reads_forecast c : reads (forecast c).
Proof.
  unfold forecast, pool_balance, pool_committed, period_now.
  repeat (apply reads_bind; [first [done | repeat (apply reads_bind; [done|intros ?]); done]|intros ?]).
  case_match. case_match. apply reads_ret.
Qed.

(** Is the pool dry, or within a warning threshold of it? *)
Definition due (f : Forecast) : bool :=
  dec_leb (fc_available f) ZERO ||
  match fc_days_left f with
  | Some d => f_le d (forecast_critical_days config) || f_le d (forecast_warning_days config)
  | None => false
  end.

Lemma runway_due t available burn level days dry :
  runway t available burn = Ok (level, days, dry) ->
  bool_decide (level = LEVEL_OK) =
  negb (dec_leb available ZERO ||
        match days with
        | Some d => f_le d (forecast_critical_days config) || f_le d (forecast_warning_days config)
        | None => false
        end).
Proof.
  unfold runway. destruct (dec_leb available ZERO); [by intros [= <- <- <-]|].
  destruct (dec_leb burn ZERO); [by intros [= <- <- <-]|].
  intros (q & _ & Hr)%obind_ok. apply obind_ok in Hr as (dry' & _ & [= <- <- <-]).
  destruct (f_le _ (forecast_critical_days config)); [done|].
  by destruct (f_le _ (forecast_warning_days config)).
Qed.

Lemma forecast_due c (s s' : St W) f :
  forecast c s = (s', Ok f) -> bool_decide (fc_level f = LEVEL_OK) = negb (due f).
Proof.
  unfold forecast. intros H0. repeat (apply bind_ok in H0 as (? & ? & ? & H0)).
  match goal with H : lift_outcome (runway _ _ _) _ = (_, Ok ?r) |- _ =>
    injection H as _ H; destruct r as [[level days] dry] end.
  injection H0 as _ <-. unfold due. cbn [fc_level fc_available fc_days_left].
  by eapply runway_due.
Qed.

(** The alerts are the forecasts of the currencies whose pool is dry or runs
    dry within a threshold, in the order of the currencies, and no other; and
    raising them changes nothing. *)
Theorem alerts_exact (s s' : St W) fs :
  alerts s = (s', Ok fs) ->
  s' = s /\ exists usd gpu_hours,
    forecast USD s = (s, Ok usd) /\ forecast GPU_HOUR s = (s, Ok gpu_hours) /\
    fs = List.filter due [usd; gpu_hours].
Proof.
  unfold alerts. cbn [all_currencies foldM]. intros H0.
  apply bind_ok in H0 as (s1 & a & H1 & H0). apply bind_ok in H1 as (s2 & usd & Hu & H1).
  apply bind_ok in H0 as (s3 & b & H2 & H0). apply bind_ok in H2 as (s4 & gh & Hg & H2).
  pose proof (reads_forecast USD s) as Ru. rewrite Hu in Ru. cbn in Ru. subst s2.
  injection H1 as <- <-. pose proof (reads_forecast GPU_HOUR s) as Rg. rewrite Hg in Rg. cbn in Rg.
  subst s4. injection H2 as <- <-. injection H0 as <- <-. split; [done|].
  exists usd, gh. split_and!; [done..|].
  rewrite (forecast_due _ _ _ _ Hu), (forecast_due _ _ _ _ Hg). cbn.
  by destruct (due usd), (due gh).
Qed.
End Forecast.

(** A pool of three thousand dollars and one cent spent in the last thirty days:
    the runway ends after the year 9999, and the forecast raises. *)
Example forecast_overflows :
  match burn_rate 1 (f_of_Z 30) with
  | Ok burn => runway default_config 1768478400000000 (mkDec 300000 (-2)) burn
  | Raise e => Raise e
  end = Raise (OverflowError "date value out of range").
Proof. vm_compute. reflexivity. Qed.
