(* ===== verification/Report.v ===== *)
(** * report.py: the measurement report

    [build] is a function of the database, the settings and the moment; amounts
    that are sums of stored ones are hundredths.  [markdown] is the text. *)

From Stdlib Require Import Ascii.
From S2P Require Import Prelude PyFloat PyDecimal PyFormat PySort PyDict Errors Money Clock PyJson States Models Config Tables.
Local Open Scope Z_scope.
Local Open Scope py_scope.

Definition SELF_LAUNCH_MINUTES : float := f_of_Z 3.

(** [n / m] of two counts *)
Definition ratio (n m : Z) : float := f_of_ratio n m.

(** [sum(1 for x in xs if p(x))] *)
Definition count_if {A} (p : A -> bool) (xs : list A) : Z := Z.of_nat (length (List.filter p xs)).

Definition is_state (s : JobState) (j : Job) : bool := bool_decide (j_state j = s).
Definition is_usd (j : Job) : bool := bool_decide (j_currency j = USD).

(** ** The figures *)

Record Adoption := mkAdoption {
  ad_distinct_users : Z;
  ad_repeat_users : Z;
  ad_jobs_submitted : Z;
  ad_jobs_completed : Z;
  ad_jobs_refused : Z;
  ad_dollars_spent : Z;
  ad_gpu_hours_spent : Z;
  ad_dollars_reclaimed : Z
}.

(** [Adoption.repeat_rate], [Adoption.completion_rate] *)
Definition repeat_rate (a : Adoption) : option float :=
  if ad_distinct_users a =? 0 then None else Some (ratio (ad_repeat_users a) (ad_distinct_users a)).
Definition completion_rate (a : Adoption) : option float :=
  if ad_jobs_submitted a =? 0 then None else Some (ratio (ad_jobs_completed a) (ad_jobs_submitted a)).

Record Efficiency := mkEfficiency {
  ef_gpu_hours_paid : float;
  ef_gpu_hours_useful : float;
  ef_dollars : Z
}.

(** [quantize(self.dollars / money(hours), Currency.USD)] *)
Definition dollars_per (dollars : Z) (hours : float) : outcome exn (option Z) :=
  if f_le hours f0 then Ok None
  else
    q <-? of_option (dec_div (of_cents dollars) (money hours)) (ArithmeticError "DivisionByZero");;
    c <-? of_option (quantize_checked q) (ArithmeticError "InvalidOperation");;
    Ok (Some c).

(** [Efficiency.dollars_per_useful_hour], [dollars_per_paid_hour], [useful_fraction] *)
Definition dollars_per_useful_hour (e : Efficiency) : outcome exn (option Z) :=
  dollars_per (ef_dollars e) (ef_gpu_hours_useful e).
Definition dollars_per_paid_hour (e : Efficiency) : outcome exn (option Z) :=
  dollars_per (ef_dollars e) (ef_gpu_hours_paid e).
Definition useful_fraction (e : Efficiency) : option float :=
  if f_le (ef_gpu_hours_paid e) f0 then None else Some (f_div (ef_gpu_hours_useful e) (ef_gpu_hours_paid e)).

Record WorkLost := mkWorkLost {
  wl_jobs_lost : list string;
  wl_hours_redone : float;
  wl_jobs_redone : Z;
  wl_reclaimed_hours : float;
  wl_reclaimed_useful_hours : float;
  wl_jobs_reclaimed : Z
}.

(** [WorkLost.zero] *)
Definition lost_zero (l : WorkLost) : bool :=
  match wl_jobs_lost l with [] => f_eq (wl_reclaimed_useful_hours l) f0 | _ => false end.

Record WhereItLoses := mkWhereItLoses {
  li_startup_hours_mean : float;
  li_startup_dollars : Z;
  li_waits_longer : Z;
  li_jobs_measured : Z;
  li_worst_wait_hours : float;
  li_worst_wait_user : string;
  li_heavy_user_penalty_hours : float;
  li_heavy_user : string
}.

(** [WhereItLoses.wait_penalty_rate] *)
Definition wait_penalty_rate (l : WhereItLoses) : option float :=
  if li_jobs_measured l =? 0 then None else Some (ratio (li_waits_longer l) (li_jobs_measured l)).

Record Report := mkReport {
  rp_generated_at : Z;
  rp_since : Z;
  rp_adoption : Adoption;
  rp_efficiency : Efficiency;
  rp_lost : WorkLost;
  rp_loses : WhereItLoses;
  rp_baseline : list (string * BaselineRow);
  rp_notes : list string
}.

(** ** The computation *)

Section Build.
Context (config : BrokerConfig) (d : DB).

(** [per_user[job.user_id] = per_user.get(job.user_id, 0) + 1] *)
Definition jobs_per_user (jobs : list Job) : dict string Z :=
  fold_left (fun m j => if is_state REFUSED j then m else dict_upd (j_user_id j) 0 (Z.add 1) m) jobs [].

(** [max(ZERO, job.reserved - store.job_spend(job.job_id))] *)
Definition unspent (j : Job) : Z := Z.max 0 (j_reserved j - job_spend d (j_job_id j)).

(** [_adoption(store, jobs)] *)
Definition adoption (jobs : list Job) : Adoption :=
  let per_user := jobs_per_user jobs in
  let spent p := zsum (fun j => job_spend d (j_job_id j)) (List.filter p jobs) in
  mkAdoption (Z.of_nat (length per_user)) (count_if (fun p => 1 <? snd p) per_user)
    (count_if (fun j => negb (is_state REFUSED j)) jobs) (count_if (is_state COMPLETED) jobs)
    (count_if (is_state REFUSED) jobs) (spent is_usd) (spent (fun j => negb (is_usd j)))
    (zsum unspent (List.filter (fun j => is_state RECLAIMED j && is_usd j) jobs)).

(** [_useful_fraction(store, config, job_id)] *)
Definition busy_fraction (samples : list Sample) : option float :=
  match samples with
  | [] => None
  | _ => Some (ratio (count_if (fun s => f_lt (idle_threshold_percent config) (smp_gpu_percent s)) samples)
                 (Z.of_nat (length samples)))
  end.

Definition useful_of (job_id : string) : option float := busy_fraction (samples_for d job_id None 10000).

(** [_efficiency(store, config, jobs, now)] *)
Definition efficiency_step (now : Z) (e : Efficiency) (j : Job) : Efficiency :=
  if negb (is_usd j) || bool_decide (j_started_at j = None) then e
  else
    let hours := elapsed_hours j now in
    mkEfficiency (f_add (ef_gpu_hours_paid e) hours)
      (match useful_of (j_job_id j) with
       | Some fraction => f_add (ef_gpu_hours_useful e) (f_mul hours fraction)
       | None => ef_gpu_hours_useful e
       end)
      (ef_dollars e + job_spend d (j_job_id j)).

Definition efficiency (jobs : list Job) (now : Z) : Efficiency :=
  fold_left (efficiency_step now) jobs (mkEfficiency f0 f0 0).

(** [_lost(store, config, jobs, now)] *)
Definition was_preempted (j : Job) : bool := negb (j_preemptions j =? 0).

Definition is_lost (j : Job) : bool :=
  negb (is_state RECLAIMED j) && was_preempted j && negb (is_state COMPLETED j) && is_terminal j.

Definition is_redone (j : Job) : bool :=
  was_preempted j && bool_decide (j_checkpoint_step j = None) && is_state COMPLETED j.

Definition lost_step (now : Z) (l : WorkLost) (j : Job) : WorkLost :=
  if is_state RECLAIMED j then
    let hours := elapsed_hours j now in
    {| l with wl_jobs_reclaimed := wl_jobs_reclaimed l + 1;
              wl_reclaimed_hours := f_add (wl_reclaimed_hours l) hours;
              wl_reclaimed_useful_hours := f_add (wl_reclaimed_useful_hours l)
                (f_mul hours (default f0 (useful_of (j_job_id j)))) |}
  else
    let l := if is_lost j then {| l with wl_jobs_lost := wl_jobs_lost l ++ [j_job_id j] |} else l in
    if is_redone j then
      {| l with wl_jobs_redone := wl_jobs_redone l + 1;
                wl_hours_redone := f_add (wl_hours_redone l) (elapsed_hours j now) |}
    else l.

Definition lost (jobs : list Job) (now : Z) : WorkLost :=
  fold_left (lost_step now) jobs (mkWorkLost [] f0 0 f0 f0 0).

(** The variables of the loop of [_loses]. *)
Record Losses := mkLosses {
  lo_startups : list float;
  lo_startup_cost : Decimal;
  lo_waited_longer : Z;
  lo_measured : Z;
  lo_worst : float;
  lo_worst_user : string;
  lo_per_user : dict string float
}.

(** The moment of the first row that enters RUNNING *)
Definition first_run (job_id : string) : option Z :=
  option_map jt_at (List.find (fun t => bool_decide (jt_to_state t = RUNNING)) (history d job_id)).

Definition loses_step (now : Z) (l : Losses) (j : Job) : outcome exn Losses :=
  if is_state REFUSED j then Ok l
  else
    let wait := wait_hours j now in
    let worse := f_lt (lo_worst l) wait in
    let l := {| l with
      lo_measured := lo_measured l + 1;
      lo_waited_longer := lo_waited_longer l + (if f_lt (f_div SELF_LAUNCH_MINUTES (f_of_Z 60)) wait then 1 else 0);
      lo_worst := if worse then wait else lo_worst l;
      lo_worst_user := if worse then j_user_id j else lo_worst_user l;
      lo_per_user := dict_upd (j_user_id j) f0 (fun w => f_add w wait) (lo_per_user l) |} in
    match j_started_at j, first_run (j_job_id j) with
    | Some started, Some at_ =>
        let overhead := hours_between started at_ in
        cost <-? (if is_usd j then
                    g <-? gpu config (j_gpu_type j);;
                    Ok (ctx_add (lo_startup_cost l) (ctx_mul (gt_hourly_price g) (money overhead)))
                  else Ok (lo_startup_cost l));;
        Ok {| l with lo_startups := lo_startups l ++ [overhead]; lo_startup_cost := cost |}
    | _, _ => Ok l
    end.

Fixpoint loses_over (now : Z) (l : Losses) (jobs : list Job) : outcome exn Losses :=
  match jobs with
  | [] => Ok l
  | j :: jobs => l <-? loses_step now l j;; loses_over now l jobs
  end.

(** [max(per_user_wait, key=...)]: the first of the greatest *)
Definition heaviest (waits : dict string float) : string * float :=
  match waits with
  | [] => ("", f0)
  | p :: ps => fold_left (fun best q => if f_lt (snd best) (snd q) then q else best) ps p
  end.

(** [_loses(store, config, jobs, now)] *)
Definition loses (jobs : list Job) (now : Z) : outcome exn WhereItLoses :=
  l <-? loses_over now (mkLosses [] ZERO 0 0 f0 "" []) jobs;;
  startup <-? of_option (quantize_checked (lo_startup_cost l)) (ArithmeticError "InvalidOperation");;
  let '(heavy_user, heavy_penalty) := heaviest (lo_per_user l) in
  Ok (mkWhereItLoses
        (match lo_startups l with
         | [] => f0
         | xs => f_div (f_sum xs) (f_of_Z (Z.of_nat (length xs)))
         end)
        startup (lo_waited_longer l) (lo_measured l) (lo_worst l) (lo_worst_user l) heavy_penalty heavy_user).

(** The jobs a report covers *)
Definition covered (since : Z) : list Job := List.filter (fun j => since <=? j_submitted_at j) (list_jobs d None None None).

(** [build(store, config, clock, since)] *)
Definition build (now : Z) (since : option Z) : outcome exn Report :=
  since <-? (match since with
             | Some t => Ok t
             | None =>
                 let t := now - 90 * us_per_day in
                 if t <? MIN_DATETIME then Raise (OverflowError "date value out of range") else Ok t
             end);;
  let jobs := covered since in
  ls <-? loses jobs now;;
  Ok (mkReport now since (adoption jobs) (efficiency jobs now) (lost jobs now) ls (by_key (baseline d))
        ["Utilization is sampled, not continuous, so useful hours are the "
         +:+ "sampled fraction above " +:+ f_general (idle_threshold_percent config) +:+ "% multiplied "
         +:+ "by billed time.";
         "Self-launch is assumed to take " +:+ f_general SELF_LAUNCH_MINUTES +:+ " minutes. That is "
         +:+ "a guess, not a measurement."]).
End Build.

(** ** The text *)

(** [WhereItLoses.unmeasured] *)
Definition UNMEASURED : list string := [
  "MPS overhead against exclusive access on the A6000. Two jobs sharing "
  +:+ "one card is slower than one job having it, and by how much is not in "
  +:+ "any record here -- it needs the same job run both ways on the real "
  +:+ "hardware and timed.";
  "Whether a member would actually have got an instance. Comparing a "
  +:+ "queue wait against a self-launch assumes capacity and quota were "
  +:+ "there, which on a fresh account they are not."].

(** [f"{(x or 0) * 100:.0f}%"] *)
Definition percent_of (x : option float) : string := f_fixed 0 (f_mul (default f0 x) (f_of_Z 100)) +:+ "%".

Definition count_text (n : Z) : string := str_of_Z n.

Definition headline_lines (e : Efficiency) : outcome exn (list string) :=
  rate <-? dollars_per_useful_hour e;;
  Ok (match rate with
      | Some r =>
          ["**" +:+ fmt (of_cents r) USD +:+ " per useful GPU-hour.**"; "";
           f_fixed 1 (ef_gpu_hours_useful e) +:+ " of " +:+ f_fixed 1 (ef_gpu_hours_paid e) +:+ " billed hours had a GPU "
           +:+ "doing something (" +:+ percent_of (useful_fraction e) +:+ "), for " +:+ fmt (of_cents (ef_dollars e)) USD +:+ "."]
      | None => ["Not enough billed GPU time yet to divide by."]
      end).

Definition lost_lines (l : WorkLost) : list string :=
  [if lost_zero l then
     "**Zero.** No job was interrupted and left unfinished. " +:+ count_text (wl_jobs_reclaimed l)
     +:+ " job(s) were reclaimed as idle, accounting for " +:+ f_fixed 1 (wl_reclaimed_hours l)
     +:+ " hours in which a GPU did " +:+ f_fixed 2 (wl_reclaimed_useful_hours l) +:+ " hours of work."
   else
     "**" +:+ count_text (Z.of_nat (length (wl_jobs_lost l))) +:+ " job(s) lost their work.** "
     +:+ str_join ", " (map (str_take 8) (firstn 10 (wl_jobs_lost l)))]
  ++ (if wl_jobs_redone l =? 0 then []
      else [""; count_text (wl_jobs_redone l) +:+ " job(s) finished but were preempted without a "
            +:+ "checkpoint, so " +:+ f_fixed 1 (wl_hours_redone l) +:+ " hours were paid for twice. "
            +:+ "Nothing was lost; money was."]).

Definition adoption_lines (a : Adoption) : list string :=
  ["- " +:+ count_text (ad_distinct_users a) +:+ " distinct user(s)";
   "- " +:+ count_text (ad_repeat_users a) +:+ " came back "
   +:+ match repeat_rate a with Some r => "(" +:+ percent_of (Some r) +:+ ")" | None => "" end;
   "- " +:+ count_text (ad_jobs_submitted a) +:+ " job(s) submitted, " +:+ count_text (ad_jobs_completed a) +:+ " completed"
   +:+ match completion_rate a with Some r => " (" +:+ percent_of (Some r) +:+ ")" | None => "" end;
   "- " +:+ count_text (ad_jobs_refused a) +:+ " refused for budget";
   "- " +:+ fmt (of_cents (ad_dollars_spent a)) USD +:+ " spent, "
   +:+ fmt (of_cents (ad_gpu_hours_spent a)) GPU_HOUR +:+ " of free capacity used";
   "- " +:+ fmt (of_cents (ad_dollars_reclaimed a)) USD +:+ " returned by reclaiming idle jobs";
   "";
   "Repeat use is the real signal. Anyone can be talked into trying something once."].

Definition baseline_lines (rows : list (string * BaselineRow)) : list string :=
  match rows with
  | [] =>
      ["## Before the broker"; "";
       "No baseline recorded. `gpu report --baseline` pulls it from Cost Explorer, "
       +:+ "or put the numbers in by hand if the IAM user cannot read it."; ""]
  | _ =>
      ["## Before the broker"; ""; "| month | instance-hours | spend | source |"; "|---|---|---|---|"]
      ++ map (fun p => "| " +:+ fst p +:+ " | " +:+ f_fixed 0 (bl_instance_hours (snd p)) +:+ " | "
                       +:+ fmt (bl_dollars (snd p)) USD +:+ " | " +:+ bl_source (snd p) +:+ " |") rows
      ++ [""]
  end.

Definition loses_lines (l : WhereItLoses) : list string :=
  (if f_eq (li_startup_hours_mean l) f0 then []
   else ["- **Startup overhead.** " +:+ f_fixed 1 (f_mul (li_startup_hours_mean l) (f_of_Z 60)) +:+ " minutes per job "
         +:+ "between taking a machine and the job's first output, "
         +:+ fmt (of_cents (li_startup_dollars l)) USD +:+ " in total. Launching it yourself "
         +:+ "has the same boot, but the broker adds its poll interval on top."])
  ++ match wait_penalty_rate l with
     | None => []
     | Some r =>
         ["- **Queue waits.** " +:+ count_text (li_waits_longer l) +:+ " of " +:+ count_text (li_jobs_measured l)
          +:+ " jobs waited longer than the " +:+ f_general SELF_LAUNCH_MINUTES
          +:+ " minutes it takes to launch an instance yourself (" +:+ percent_of (Some r) +:+ "). Worst was "
          +:+ f_fixed 1 (li_worst_wait_hours l) +:+ "h, for "
          +:+ (if String.eqb (li_worst_wait_user l) "" then "nobody" else li_worst_wait_user l) +:+ "."]
     end
  ++ (if String.eqb (li_heavy_user l) "" then []
      else ["- **The heaviest user pays for fair share.** " +:+ li_heavy_user l +:+ " has waited "
            +:+ f_fixed 1 (li_heavy_user_penalty_hours l) +:+ " hours in total. If that is you and "
            +:+ "you are the only person using the pool, this broker is costing you time."]).

(** [f"{moment:%Y-%m-%d}"], [f"{moment:%H:%M}"] *)
Definition ymd (moment : Z) : string := String.substring 0 10 (to_iso moment).
Definition hm (moment : Z) : string := String.substring 11 5 (to_iso moment).

(** [markdown(report)] *)
Definition markdown (r : Report) : outcome exn string :=
  headline <-? headline_lines (rp_efficiency r);;
  Ok (str_join newline (
    ["# GPU broker: what actually happened"; "";
     "Generated " +:+ ymd (rp_generated_at r) +:+ " " +:+ hm (rp_generated_at r) +:+ " UTC, "
     +:+ "covering " +:+ ymd (rp_since r) +:+ " onwards."; ""; "## Headline"; ""]
    ++ headline ++ [""; "## Work lost"; ""] ++ lost_lines (rp_lost r) ++ [""; "## Adoption"; ""]
    ++ adoption_lines (rp_adoption r) ++ [""] ++ baseline_lines (rp_baseline r)
    ++ ["## Where it loses"; ""] ++ loses_lines (rp_loses r) ++ [""; "### Not measured here"; ""]
    ++ map (fun note => "- " +:+ note) UNMEASURED ++ [""; "### Caveats"; ""]
    ++ map (fun note => "- " +:+ note) (rp_notes r) ++ [""])).
