(* ===== verification/ReportProps.v ===== *)
(** * What the report counts

    The figures of report.py as filters and counts of the jobs it covers. *)

From Stdlib Require Import Ascii.
From S2P Require Import Prelude PyFloat PyDecimal PyFormat PySort PyDict Errors Money Clock PyJson States Models Config Tables Fixture Report.
Local Open Scope Z_scope.
Local Open Scope py_scope.

(** ** Counting *)

Lemma count_if_nil {A} (p : A -> bool) : count_if p [] = 0.
Proof. done. Qed.

Lemma count_if_cons {A} (p : A -> bool) x xs : count_if p (x :: xs) = (if p x then 1 else 0) + count_if p xs.
Proof. unfold count_if. cbn. destruct (p x); cbn [length]; lia. Qed.

Lemma count_if_bounds {A} (p : A -> bool) xs : 0 <= count_if p xs <= Z.of_nat (length xs).
Proof. induction xs as [|x xs IH]; [done|]. rewrite count_if_cons. cbn [length]. destruct (p x); lia. Qed.

Lemma count_if_negb {A} (p : A -> bool) xs : count_if p xs + count_if (fun x => negb (p x)) xs = Z.of_nat (length xs).
Proof. induction xs as [|x xs IH]; [done|]. rewrite !count_if_cons. cbn [length]. destruct (p x); cbn; lia. Qed.

Lemma count_if_mono {A} (p q : A -> bool) xs : (forall x, p x = true -> q x = true) -> count_if p xs <= count_if q xs.
Proof.
  intros H. induction xs as [|x xs IH]; [done|]. rewrite !count_if_cons. specialize (H x).
  destruct (p x); [rewrite H by done|destruct (q x)]; lia.
Qed.

(** ** Tallies: a dict of counts *)

Section Tally.
Context {A K : Type} `{EqDecision K} (key : A -> K).

Definition tally (xs : list A) : dict K Z := fold_left (fun m x => dict_upd (key x) 0 (Z.add 1) m) xs [].

(** The keys in order of first appearance. *)
Fixpoint first_seen (xs : list A) (seen : list K) : list K :=
  match xs with
  | [] => seen
  | x :: xs => first_seen xs (if decide (key x ∈ seen) then seen else seen ++ [key x])
  end.

Lemma dict_set_keys {V} (k : K) (v : V) m :
  map fst (dict_set k v m) = if decide (k ∈ map fst m) then map fst m else map fst m ++ [k].
Proof.
  induction m as [|[k' v'] m IH]; cbn.
  - rewrite decide_False; [done|]. apply not_elem_of_nil.
  - destruct (decide (k' = k)) as [->|Hne]; cbn; [rewrite decide_True; [done|left]|]. rewrite IH.
    destruct (decide (k ∈ map fst m)) as [Hk|Hk].
    + rewrite decide_True; [done|by right].
    + rewrite decide_False; [done|]. by intros [->|?]%elem_of_cons.
Qed.

Definition of_key (k : K) (x : A) : bool := bool_decide (key x = k).

Lemma tally_from xs m : let r := fold_left (fun m x => dict_upd (key x) 0 (Z.add 1) m) xs m in
  map fst r = first_seen xs (map fst m) /\
  forall k, default 0 (dict_get k r) = default 0 (dict_get k m) + count_if (of_key k) xs.
Proof.
  revert m. induction xs as [|x xs IH]; intros m; cbn [fold_left first_seen].
  - split; [done|]. intros k. rewrite count_if_nil. lia.
  - destruct (IH (dict_upd (key x) 0 (Z.add 1) m)) as [Hk Hv]. split.
    + rewrite Hk. unfold dict_upd. by rewrite dict_set_keys.
    + intros k. rewrite Hv, count_if_cons. unfold dict_upd at 1, of_key at 2. rewrite dict_get_set.
      destruct (decide (key x = k)) as [->|Hne]; [rewrite bool_decide_true by done|rewrite bool_decide_false by done]; cbn; lia.
Qed.

Lemma first_seen_nodup xs seen : NoDup seen -> NoDup (first_seen xs seen).
Proof.
  revert seen. induction xs as [|x xs IH]; intros seen H; [done|]. cbn. apply IH. destruct (decide _) as [|Hx]; [done|].
  apply NoDup_app. split_and!; [done| |apply NoDup_singleton]. by intros k Hk ->%list_elem_of_singleton.
Qed.

Lemma elem_first_seen xs seen k : k ∈ first_seen xs seen <-> k ∈ seen \/ k ∈ map key xs.
Proof.
  revert seen. induction xs as [|x xs IH]; intros seen; cbn; [rewrite elem_of_nil; tauto|]. rewrite IH, elem_of_cons.
  destruct (decide (key x ∈ seen)) as [Hx|Hx].
  - split; [tauto|]. intros [H|[->|H]]; tauto.
  - rewrite elem_of_app, list_elem_of_singleton. tauto.
Qed.

Lemma tally_spec xs : let users := first_seen xs [] in
  map fst (tally xs) = users /\ NoDup users /\ (forall k, k ∈ users <-> k ∈ map key xs) /\
  forall k n, (k, n) ∈ tally xs -> n = count_if (of_key k) xs.
Proof.
  cbv zeta. destruct (tally_from xs []) as [Hk Hv]. fold (tally xs) in Hk, Hv. cbn [map dict_get default] in Hk, Hv. pose proof (first_seen_nodup xs [] (NoDup_nil_2)) as Hn.
  split_and!; [done|done| |].
  - intros k. rewrite elem_first_seen. split; [|tauto]. by intros [?%elem_of_nil|?].
  - intros k n Hin. replace (count_if (of_key k) xs) with (default 0 (dict_get k (tally xs))) by apply (Hv k). rewrite <- Hk in Hn. clear Hk Hv. revert Hn Hin. generalize (tally xs).
    induction d as [|[k' v'] m IH]; intros Hn Hin; [by apply elem_of_nil in Hin|]. cbn in Hn. apply NoDup_cons in Hn as [Hk' Hn].
    cbn. apply elem_of_cons in Hin as [[= <- <-]|Hin]; [by rewrite decide_True|].
    rewrite decide_False; [by apply IH|]. intros ->. apply Hk'. apply list_elem_of_fmap. by exists (k, n).
Qed.

(** How many keys are counted more than once. *)
Lemma tally_repeats xs : count_if (fun p => 1 <? snd p) (tally xs)
  = count_if (fun k => 1 <? count_if (of_key k) xs) (first_seen xs []).
Proof.
  destruct (tally_spec xs) as (Hk & _ & _ & Hv). rewrite <- Hk. revert Hv. generalize (tally xs) as m. clear Hk.
  induction m as [|[k n] m IH]; intros Hv; [done|]. cbn [map fst]. rewrite !count_if_cons, IH.
  - cbn. by rewrite (Hv k n) by left.
  - intros k' n' Hin. apply Hv. by right.
Qed.
End Tally.

(** ** The figures *)

Definition accepted_jobs (jobs : list Job) : list Job := List.filter (fun j => negb (is_state REFUSED j)) jobs.

Lemma jobs_per_user_tally jobs : jobs_per_user jobs = tally j_user_id (accepted_jobs jobs).
Proof.
  unfold jobs_per_user, tally, accepted_jobs. generalize (@nil (string * Z)) as m.
  induction jobs as [|j jobs IH]; intros m; [done|]. cbn. destruct (is_state REFUSED j); cbn; apply IH.
Qed.

Lemma ok_inj {E A} (a b : A) : Ok (E := E) a = Ok b -> a = b.
Proof. by intros [= ->]. Qed.

Lemma lost_fold config d now jobs l : let r := fold_left (lost_step config d now) jobs l in
  wl_jobs_lost r = wl_jobs_lost l ++ map j_job_id (List.filter is_lost jobs) /\
  wl_jobs_redone r = wl_jobs_redone l + count_if is_redone jobs /\
  wl_jobs_reclaimed r = wl_jobs_reclaimed l + count_if (is_state RECLAIMED) jobs.
Proof.
  revert l. induction jobs as [|j jobs IH]; intros l; cbn [fold_left List.filter map].
  - rewrite app_nil_r, !count_if_nil. split_and!; [done|lia|lia].
  - destruct (IH (lost_step config d now l j)) as (H1 & H2 & H3). rewrite H1, H2, H3, !count_if_cons. clear.
    unfold lost_step, is_lost, is_redone, is_state. destruct (j_state j) eqn:Hs;
      repeat match goal with
             | |- context [bool_decide (?a = ?b :> JobState)] =>
                 first [rewrite (bool_decide_true (a = b)) by done|rewrite (bool_decide_false (a = b)) by done]
             end; cbn;
      destruct (was_preempted j); cbn; rewrite ?andb_false_r, ?andb_true_r; cbn;
      try case_match; cbn; rewrite <- ?app_assoc; cbn; split_and!; try done; lia.
Qed.

Lemma loses_measured config d now jobs l l' : loses_over config d now l jobs = Ok l' ->
  lo_measured l' = lo_measured l + count_if (fun j => negb (is_state REFUSED j)) jobs.
Proof.
  revert l. induction jobs as [|j jobs IH]; intros l H; cbn in H; [injection H as <-; rewrite count_if_nil; lia|].
  apply obind_ok in H as (l1 & H1 & H). rewrite (IH _ H), count_if_cons. unfold loses_step in H1.
  destruct (is_state REFUSED j); cbn [negb]; [injection H1 as <-; lia|].
  assert (E : lo_measured l1 = lo_measured l + 1); [|lia].
  destruct (j_started_at j), (first_run d (j_job_id j)); try (injection H1 as <-; reflexivity).
  apply obind_ok in H1 as (c & _ & H1). by injection H1 as <-.
Qed.

(** Every job since the date is counted once: as refused, or as submitted,
    measured, and of one of the distinct users; those who came back have at least
    two; the jobs that lost their work are exactly those interrupted that ended
    neither completed nor reclaimed. *)
Theorem report_accounts config d now since r : build config d now (Some since) = Ok r ->
  let jobs := covered d since in
  let a := rp_adoption r in
  let users := first_seen j_user_id (accepted_jobs jobs) [] in
  NoDup users /\ (forall u, u ∈ users <-> exists j, j ∈ jobs /\ j_state j <> REFUSED /\ j_user_id j = u) /\
  ad_distinct_users a = Z.of_nat (length users) /\
  ad_repeat_users a = count_if (fun u => 1 <? count_if (of_key j_user_id u) (accepted_jobs jobs)) users /\
  ad_jobs_submitted a + ad_jobs_refused a = Z.of_nat (length jobs) /\
  ad_jobs_completed a <= ad_jobs_submitted a /\
  li_jobs_measured (rp_loses r) = ad_jobs_submitted a /\
  wl_jobs_lost (rp_lost r) = map j_job_id (List.filter is_lost jobs) /\
  wl_jobs_reclaimed (rp_lost r) = count_if (is_state RECLAIMED) jobs.
Proof.
  intros H. cbv zeta. unfold build in H. cbn [obind] in H. apply obind_ok in H as (ls & Hls & H). apply ok_inj in H. subst r.
  cbn [rp_adoption rp_lost rp_loses adoption ad_distinct_users ad_repeat_users ad_jobs_submitted ad_jobs_refused ad_jobs_completed].
  rewrite jobs_per_user_tally. set (jobs := covered d since) in *.
  destruct (tally_spec j_user_id (accepted_jobs jobs)) as (Hk & Hn & Hin & _).
  destruct (lost_fold config d now jobs (mkWorkLost [] f0 0 f0 f0 0)) as (Hl & _ & Hr).
  split_and!.
  - exact Hn.
  - intros u. rewrite Hin, list_elem_of_fmap. unfold accepted_jobs. split.
    + intros (j & -> & Hj). apply list_elem_of_In, filter_In in Hj as [Hj Hs]. exists j. split; [by apply list_elem_of_In|].
      split; [|done]. unfold is_state in Hs. by apply negb_true_iff, bool_decide_eq_false_1 in Hs.
    + intros (j & Hj & Hs & <-). exists j. split; [done|]. apply list_elem_of_In, filter_In. split; [by apply list_elem_of_In|].
      unfold is_state. by rewrite bool_decide_false.
  - by rewrite <- Hk, length_map.
  - apply tally_repeats.
  - pose proof (count_if_negb (is_state REFUSED) jobs). lia.
  - apply count_if_mono. intros j. unfold is_state. intros Hc%bool_decide_eq_true_1. by rewrite Hc.
  - unfold loses in Hls. apply obind_ok in Hls as (l & Hl1 & Hls). apply obind_ok in Hls as (c & _ & Hls).
    destruct (heaviest _). injection Hls as <-. cbn. apply loses_measured in Hl1. rewrite Hl1. cbn. lia.
  - exact Hl.
  - unfold lost. rewrite Hr. cbn. lia.
Qed.

(** ** A report, and one that cannot be built *)

Definition past (d : DB) (j : Job) : DB := {| d with jobs := <[j_job_id j := j]> (jobs d) |}.

Definition torn_job : Job :=
  {| job1 with j_state := FAILED; j_preemptions := 2; j_started_at := Some noon; j_finished_at := Some (noon + us_per_hour) |}.
Definition refused_job : Job := {| job1 with j_job_id := "job-2"; j_state := REFUSED |}.
Definition quarter : DB := past (past empty_db torn_job) refused_job.

Lemma report_accounts_witness : exists r, build default_config quarter (noon + us_per_day) (Some 0) = Ok r /\
  (wl_jobs_lost (rp_lost r), ad_jobs_refused (rp_adoption r)) = (["job-1"], 1) /\
  ad_jobs_submitted (rp_adoption r) + ad_jobs_refused (rp_adoption r) = 2.
Proof.
  destruct (build default_config quarter (noon + us_per_day) (Some 0)) as [r|e] eqn:H; [|vm_compute in H; discriminate H].
  exists r. split; [reflexivity|].
  pose proof (report_accounts default_config quarter (noon + us_per_day) 0 r H) as (_ & _ & _ & _ & Hs & _). split.
  - apply (f_equal (fun o => match o with Ok r => (wl_jobs_lost (rp_lost r), ad_jobs_refused (rp_adoption r)) | Raise _ => ([], 0) end)) in H.
    rewrite <- H. vm_compute. reflexivity.
  - rewrite Hs. vm_compute. reflexivity.
Defined.

(** Once a GPU type is taken out of the settings, a job of that type that ran makes
    every report that covers it raise. *)
Example report_of_removed_type :
  let j := {| job1 with j_gpu_type := "v100"; j_started_at := Some noon |} in
  let p := past empty_db j in
  let d := {| p with job_transitions := [mkTransitionRow "job-1" (Some ALLOCATING) RUNNING (noon + 60) None] |} in
  build default_config d (noon + us_per_day) (Some 0) = Raise (UnknownGpuType "v100" (map gt_name (gpu_types default_config))).
Proof. by vm_compute. Qed.

(** The first lines of the text. *)
Example markdown_ex :
  match (r <-? build default_config quarter (noon + us_per_day) (Some 0);; markdown r) with
  | Ok text => firstn 11 (split_char (ascii_of_nat 10) text)
  | Raise _ => []
  end = ["# GPU broker: what actually happened"; ""; "Generated 2026-01-16 12:00 UTC, covering 1970-01-01 onwards."; "";
         "## Headline"; ""; "Not enough billed GPU time yet to divide by."; ""; "## Work lost"; "";
         "**1 job(s) lost their work.** job-1"].
Proof. by vm_compute. Qed.
