(* ===== verification/Reaper.v ===== *)
(** * reaper.py: machines that are up with no live job behind them

    [reap] asks every backend for its resources and keeps the ones
    [why_orphaned] has a reason for. *)

From Stdlib Require Import Sorted.
From S2P Require Import Prelude PyFloat PyDecimal PyFormat PySort PyDict Errors Money Clock States Models Config Tables Store StoreInv StoreSafe Backend Aws.
Local Open Scope Z_scope.
Local Open Scope py_scope.

(** ** Orphans *)

Record Orphan := mkOrphan {
  or_backend : string;
  or_handle : string;
  or_gpu_type : string;
  or_user_id : option string;
  or_job_id : option string;
  or_launched_at : option Z;
  or_age_hours : float;
  or_burned : Z;
  or_currency : Currency;
  or_reason : string
}.

(** [Orphan.attributable] *)
Definition attributable (o : Orphan) : bool := truthy (or_user_id o).

(** [Orphan.cost_known] *)
Definition cost_known (o : Orphan) : bool :=
  match or_launched_at o with Some _ => true | None => false end.

(** [Orphan.describe()] *)
Definition or_describe (o : Orphan) : string :=
  or_backend o +:+ "/" +:+ or_handle o +:+ " (" +:+ or_gpu_type o +:+ ") launched by "
  +:+ str_or (or_user_id o) "nobody (untagged)" +:+ ", "
  +:+ (if cost_known o then f_fixed 1 (or_age_hours o) +:+ "h" else "unknown age") +:+ " ago, "
  +:+ (if cost_known o then fmt (of_cents (or_burned o)) (or_currency o) +:+ " burned"
       else "cost unknown (no launch time to measure from)")
  +:+ ": " +:+ or_reason o.

Record ReapReport := mkReapReport {
  rp_at : Z;
  rp_orphans : list Orphan;
  rp_scanned : Z
}.

(** [ReapReport.total_burned] *)
Definition total_burned (r : ReapReport) (c : Currency) : Z :=
  zsum or_burned (List.filter (fun o => bool_decide (or_currency o = c)) (rp_orphans r)).

(** [ReapReport.by_user]: whatever the currency *)
Definition by_user (r : ReapReport) : dict string Z :=
  py_sort (on snd Z.gtb)
    (fold_left (fun m o => dict_upd (str_or (or_user_id o) "<untagged>") 0
                             (fun v => v + or_burned o) m) (rp_orphans r) []).

Lemma dict_upd_sum k n (m : dict string Z) :
  zsum snd (dict_upd k 0 (fun v => v + n) m) = zsum snd m + n.
Proof.
  unfold dict_upd. induction m as [|[k' v] m IH]; cbn [dict_set dict_get zsum default]; [cbn; lia|].
  cbn in IH. destruct (decide (k' = k)) as [->|Hne]; cbn; cbn in IH; lia.
Qed.

(** The amounts of [by_user] add up to everything that was burned, dollars
    and GPU-hours in one sum. *)
Theorem by_user_total r :
  zsum snd (by_user r) = total_burned r USD + total_burned r GPU_HOUR.
Proof.
  unfold by_user, total_burned. rewrite (zsum_perm _ _ _ (py_sort_perm _ _)).
  assert (Hf : forall os m, zsum snd (fold_left (fun m o => dict_upd (str_or (or_user_id o) "<untagged>") 0
      (fun v => v + or_burned o) m) os m) = zsum snd m + zsum or_burned os).
  { induction os as [|o os IH]; intros m; cbn [fold_left zsum]; [lia|]. rewrite IH, dict_upd_sum. lia. }
  rewrite Hf, !zsum_filter, <- zsum_add. cbn [zsum]. rewrite Z.add_0_l. apply zsum_ext. intros o _.
  destruct (or_currency o); repeat case_bool_decide; try done; lia.
Qed.

(** One machine that burned a dollar and one that burned a GPU-hour: [by_user]
    says their user burned two, [total_burned] one of each. *)
Example by_user_mixes :
  let o c := mkOrphan "rig" "h" "t4" (Some "alice") None (Some 0) f0 100 c "" in
  let r := mkReapReport 0 [o USD; o GPU_HOUR] 2 in
  by_user r = [("alice", 200)] /\ map (total_burned r) all_currencies = [100; 100].
Proof. vm_compute. by split. Qed.

(** [_why_orphaned(store, backend, resource)] *)
Definition why_orphaned (d : DB) (r : Resource) : option string :=
  match res_job_id r with
  | None => Some ("no broker-job-id tag, so the broker cannot say whose this is. "
      +:+ "Either it was not launched by the broker, or the broker died "
      +:+ "between launching and tagging")
  | Some job_id =>
      match get_job d job_id with
      | Raise _ => Some "the broker has no record of this job at all"
      | Ok j =>
          if state_in (j_state j) TERMINAL then
            Some ("the job is " +:+ state_str (j_state j) +:+ ", but the machine is still up and billing")
          else if bool_decide (j_backend_handle j = Some (res_handle r)) then None
          else Some ("the job is " +:+ state_str (j_state j) +:+ " but the broker records it on "
                 +:+ str_or (j_backend_handle j) "nothing"
                 +:+ ", not this machine. Two machines are running for one job")
      end
  end.

Section Reaper.
Context {W : Type} (config : BrokerConfig).

(** [_burn(config, gpu_type, age_hours)] *)
Definition burn (gpu_type : string) (age_hours : float) : Currency * Z :=
  match gpu config gpu_type with
  | Raise _ => (USD, 0)
  | Ok g => (gt_currency g, quantize (dec_mul (gt_hourly_price g) (money age_hours)) (gt_currency g))
  end.

(** What is said of one resource. *)
Definition orphan_of (d : DB) (t : Z) (b : Backend W) (r : Resource) : option Orphan :=
  match why_orphaned d r with
  | None => None
  | Some reason =>
      let launched_at := launched_at_of (res_tags r) in
      let age := match launched_at with Some l => hours_between l t | None => f0 end in
      let '(currency, burned) := burn (res_gpu_type r) age in
      Some (mkOrphan (b_name b) (res_handle r) (res_gpu_type r) (res_user_id r) (res_job_id r)
              launched_at age burned currency reason)
  end.

(** Most expensive first. *)
Definition orphan_lt : Orphan -> Orphan -> bool :=
  lex (on or_burned Z.gtb) (on or_handle str_lt).

(** The loop over one backend. *)
Definition reap_backend (t : Z) (acc : list Orphan * Z) (b : Backend W)
  : M (St W) exn (list Orphan * Z) :=
  rs <- call (b_list_resources b);;
  query_ok (fun d => (fst acc ++ omap (orphan_of d t b) rs, snd acc + Z.of_nat (length rs))).

(** [reap(store, backends, config, clock)] *)
Definition reap (backends : list (Backend W)) : M (St W) exn ReapReport :=
  t <- now;;
  r <- foldM (reap_backend t) ([], 0) backends;;
  ret (mkReapReport t (py_sort orphan_lt (fst r)) (snd r)).

(** ** Lemmas *)

Lemma why_orphaned_none d r :
  why_orphaned d r = None <->
  exists id j, res_job_id r = Some id /\ jobs d !! id = Some j /\
    state_in (j_state j) TERMINAL = false /\ j_backend_handle j = Some (res_handle r).
Proof.
  unfold why_orphaned, get_job. split.
  - destruct (res_job_id r) as [id|]; [|done]. destruct (jobs d !! id) as [j|] eqn:Hj; [|done].
    cbn [of_option]. destruct (state_in (j_state j) TERMINAL) eqn:Ht; [done|]. case_bool_decide; [|done].
    intros _. by exists id, j.
  - intros (id & j & -> & -> & Ht & Hh). cbn [of_option]. rewrite Ht. by rewrite bool_decide_eq_true_2.
Qed.

Lemma reap_fold t bs reports acc (s : St W) :
  Forall2 lists_resources bs reports ->
  foldM (reap_backend t) acc bs s =
  (s, Ok (fst acc ++ concat (zip_with (fun b rs => omap (orphan_of (db s) t b) rs) bs reports),
          snd acc + zsum (fun rs => Z.of_nat (length rs)) reports)).
Proof.
  intros Hall. revert acc. induction Hall as [|b rs bs reports Hb Hall IH]; intros [os n]; cbn.
  - by rewrite app_nil_r, Z.add_0_r.
  - unfold bind at 1. unfold reap_backend at 1, bind at 1.
    rewrite (call_answers _ _ _ (Hb (clock s) (world s))). cbn. rewrite IH. cbn.
    by rewrite <- app_assoc, Z.add_assoc.
Qed.

#[local] Instance gtb_swo : StrictWeakOrder Z.gtb.
Proof.
  constructor.
  - intros a b. rewrite !Z.gtb_ltb, Z.ltb_lt, Z.ltb_ge. lia.
  - intros a b c. rewrite !Z.gtb_ltb, !Z.ltb_lt. lia.
Qed.

(** A reap scans every resource, reports a resource unless its job is on
    record, unfinished and on that very machine, reports each with what it has
    burned, the most expensive first, and changes nothing. *)
Theorem reap_exact backends reports (s : St W) :
  Forall2 lists_resources backends reports ->
  exists orphans, reap backends s = (s, Ok (mkReapReport (clock s) orphans
    (zsum (fun rs => Z.of_nat (length rs)) reports))) /\
  (forall b r, listed backends reports b r ->
     (exists id j, res_job_id r = Some id /\ jobs (db s) !! id = Some j /\
        state_in (j_state j) TERMINAL = false /\ j_backend_handle j = Some (res_handle r)) \/
     (exists o, o ∈ orphans /\ orphan_of (db s) (clock s) b r = Some o)) /\
  (forall o, o ∈ orphans -> exists b r, listed backends reports b r /\
     orphan_of (db s) (clock s) b r = Some o) /\
  StronglySorted (fun x y => or_burned y <= or_burned x) orphans.
Proof.
  intros Hall. unfold reap, bind, now, gets. rewrite (reap_fold _ _ _ _ _ Hall). cbn [fst snd app].
  set (os := concat _). exists (py_sort orphan_lt os).
  assert (Hos : forall o, o ∈ os <-> exists b r, listed backends reports b r /\
            orphan_of (db s) (clock s) b r = Some o).
  { intros o. unfold os. rewrite elem_of_concat_zip. split.
    - intros (i & b & rs & Hb & Hrs & (r & Hr & Ho)%list_elem_of_omap). exists b, r.
      split; [by exists i, rs|done].
    - intros (b & r & (i & rs & Hb & Hrs & Hr) & Ho). exists i, b, rs. split_and!; [done..|].
      apply list_elem_of_omap. by exists r. }
  split_and!; [done| | |].
  - intros b r Hl. destruct (why_orphaned (db s) r) as [why|] eqn:Hw.
    + right. destruct (orphan_of (db s) (clock s) b r) as [o|] eqn:Ho.
      * exists o. split; [|done]. apply py_sort_elem, Hos. by exists b, r.
      * exfalso. revert Ho. unfold orphan_of. rewrite Hw. by destruct (burn _ _).
    + left. by apply why_orphaned_none.
  - intros o Ho%py_sort_elem. by apply Hos.
  - pose proof (py_sort_sorted orphan_lt os) as Hs. induction Hs as [|x l Hs IH Hf]; constructor; [done|].
    eapply List.Forall_impl; [|exact Hf]. intros y. unfold sort_le, orphan_lt, lex, on.
    rewrite !Z.gtb_ltb. destruct (Z.ltb_spec (or_burned x) (or_burned y)); [done|lia].
Qed.

Lemma safe_reap js backends : safe js (reap backends) none.
Proof.
  unfold reap. apply safe_read; [done|]. intros t. apply safe_then; [|intros; apply safe_ret_none].
  apply safe_foldM_none. intros acc b. unfold reap_backend.
  apply safe_then; [apply safe_call|]. intros. apply safe_query_ok_plain.
Qed.
End Reaper.

#[export] Hint Resolve safe_reap : safe.
