(* ===== verification/Scheduler.v ===== *)
(** * scheduler.py: one pass of the broker

    [tick] advances every job that has capacity, then walks the queue, then
    writes the gauges.  [decisions] is a generator in the source: the decision
    on a job is taken after the consumer has dealt with the one before.
    [walk_queue] keeps that interleaving, and takes the consumer as an argument:
    [dispatch_one] for a tick, [plan_one] for a dry run.

    The OpenTelemetry spans are left out.  [finish_tick] is the [try] around the
    gauges: whatever they raise, the tick returns its report. *)

From S2P Require Import Prelude PyFloat PyDecimal PyFormat PySort Errors Money Clock States Models Config Tables Store StoreInv StoreSafe PyDict FairShare Backend Placement Idle Metrics Checkpoint.
Local Open Scope Z_scope.
Local Open Scope py_scope.

(** [_state_for(status)] *)
Definition state_for (s : BackendStatus) : JobState :=
  match s with
  | PENDING | READY => ALLOCATING
  | B_RUNNING => RUNNING
  | B_COMPLETED => COMPLETED
  | B_FAILED => FAILED
  | INTERRUPTED => PREEMPTED
  | GONE => FAILED
  end.

(** [_dedupe(items)] *)
Fixpoint dedupe_from (seen : list string) (items : list string) : list string :=
  match items with
  | [] => []
  | x :: xs => if bool_decide (x ∈ seen) then dedupe_from seen xs
               else x :: dedupe_from (x :: seen) xs
  end.
Definition dedupe (items : list string) : list string := dedupe_from [] items.

(** [Scheduler._Outcome] *)
Record Outcome := mkOutcome {
  oc_settled : bool;
  oc_hit_ceiling : bool;
  oc_preempted : bool;
  oc_final_state : option JobState
}.

Definition no_outcome : Outcome := mkOutcome false false false None.

(** What a pass over the queue remembers between jobs. *)
Record Walk := mkWalk {
  wk_committed : Currency -> Decimal;
  wk_blocked : list Currency;
  wk_held : gmap string Z
}.

Definition set_at (f : Currency -> Decimal) (c : Currency) (v : Decimal) : Currency -> Decimal :=
  fun c' => if decide (c' = c) then v else f c'.

(** The lists [_dispatch] returns. *)
Record Dispatched := mkDispatched {
  dp_dispatched : list string;
  dp_pool : list string;
  dp_capacity : list string;
  dp_tenant : list string;
  dp_auth : list string
}.

Section Scheduler.
Context {W : Type} `{TimeZones} (pow : pow_fun) (config : BrokerConfig).
Context (backends : list (Backend W)).
Context (checkpoints : option (string -> method W (option CheckpointRef))).

Abbreviation M := (M (St W) exn).

(** [backend(name)] *)
Definition backend (name : string) : option (Backend W) :=
  List.find (fun b => String.eqb (b_name b) name) backends.

(** [try: r = m except E: ...], the handler outside: [inl e] is what was caught *)
Definition attempt {A} (m : M A) (caught : exn -> bool) : M (exn + A) :=
  try_catch (a <- m;; ret (inr a)) caught (fun e => ret (inl e)).

(** ** Running jobs *)

(** [_accrue(job, now)] *)
Definition accrue (d : DB) (j : Job) (t : Z) : outcome exn Decimal :=
  g <-? gpu config (j_gpu_type j);;
  let total := dec_mul (gt_hourly_price g) (money (elapsed_hours j t)) in
  let total := dec_min (of_cents (quantize total (j_currency j))) (reserved j) in
  let already := of_cents (job_spend d (j_job_id j)) in
  Ok (dec_max ZERO (dec_sub total already)).

(** [_at_ceiling(job, now)] *)
Definition at_ceiling (j : Job) (t : Z) : outcome exn bool :=
  g <-? gpu config (j_gpu_type j);;
  let would_be := dec_mul (gt_hourly_price g) (money (elapsed_hours j t)) in
  Ok (dec_leb (reserved j) (of_cents (quantize would_be (j_currency j)))).

(** [_sample(job, backend)] *)
Definition sample_job (j : Job) (b : Backend W) : M unit :=
  t <- now;;
  last <- query_ok (fun d => last_sample_at d (j_job_id j));;
  let too_soon := match last with
                  | Some l => f_lt (total_seconds (t - l)) (idle_sample_interval_seconds config)
                  | None => false
                  end in
  if too_soon then ret tt
  else
    r <- attempt (call (b_sample_utilization b (default "" (j_backend_handle j)))) is_backend_error;;
    match r with
    | inl _ => ret tt
    | inr readings =>
        let cutoff := match last with Some l => timestamp l | None => f0 end in
        match List.filter (fun u => f_lt cutoff (us_at u)) readings with
        | [] => ret tt
        | fresh =>
            record_samples (j_job_id j)
              (map (fun u => mkSample (fromtimestamp (us_at u)) (us_gpu_percent u) (us_memory_mb u)
                               (b_name b)) fresh);;;
            verdict <- query (fun d => evaluate config d t j);;
            if iv_idle verdict && negb (notified verdict)
            then notify_idle config verdict;;; ret tt
            else ret tt
        end
    end.

(** [_drain_logs(job, backend)] *)
Definition drain_logs (j : Job) (b : Backend W) : M Job :=
  r <- attempt (call (b_fetch_logs b (default "" (j_backend_handle j)) (j_logs_fetched j)))
         is_backend_error;;
  match r with
  | inl e =>
      append_log config (j_job_id j) "broker" ("could not read logs: " +:+ exn_str e);;;
      ret j
  | inr [] => ret j
  | inr new_lines =>
      cursor <- append_backend_logs config j new_lines;;
      ret {| j with j_logs_fetched := cursor |}
  end.

(** [_collect_checkpoint(job)] *)
Definition collect_checkpoint (j : Job) : M (option Job) :=
  match checkpoints with
  | None => ret None
  | Some latest =>
      r <- attempt (call (latest (j_job_id j))) any_exception;;
      match r with
      | inl e =>
          append_log config (j_job_id j) "broker" ("could not look for a checkpoint: " +:+ exn_str e);;;
          ret None
      | inr None => ret None
      | inr (Some ref) =>
          if match j_checkpoint_step j with Some s => ck_step ref <=? s | None => false end
          then ret None
          else j' <- record_checkpoint j (ck_step ref) (ck_key ref);; ret (Some j')
      end
  end.

(** The tiers after [current] in the policy; all of them when it is not there. *)
Fixpoint after_tier (current : string) (order : list string) : list string :=
  match order with
  | [] => []
  | t :: ts => if String.eqb t current then ts else after_tier current ts
  end.

(** The backends of one tier that could run the job: the inner loop of
    [_fallback_tier]. *)
Fixpoint tier_runs (j : Job) (g : GpuType) (tier : string) (bs : list (Backend W)) : M bool :=
  match bs with
  | [] => ret false
  | b :: bs' =>
      if String.eqb (tier_of b) tier && bool_decide (b_currency b = gt_currency g) then
        s <- call (b_supports b (j_gpu_type j));;
        if s then ret true else tier_runs j g tier bs'
      else tier_runs j g tier bs'
  end.

Fixpoint first_tier (j : Job) (g : GpuType) (tiers : list string) : M (option string) :=
  match tiers with
  | [] => ret None
  | tier :: tiers' =>
      r <- tier_runs j g tier backends;;
      if r then ret (Some tier) else first_tier j g tiers'
  end.

(** [_fallback_tier(job)] *)
Definition fallback_tier (j : Job) : M (option string) :=
  g <- lift_outcome (gpu config (j_gpu_type j));;
  let order := placement_order config in
  let current := str_or (j_pinned_tier j) "spot" in
  let after := if bool_decide (current ∈ order) then after_tier current order else order in
  first_tier j g after.

(** [_requeue(job, outcome)] *)
Definition requeue (j : Job) (o : Outcome) : M Outcome :=
  let where_ := if resumable j
                then "resuming from step " +:+ match j_checkpoint_step j with
                                               | Some s => str_of_Z s | None => "None" end
                else "starting again from the beginning" in
  append_log config (j_job_id j) "broker" ("preempted; requeued, " +:+ where_);;;
  j' <- transition config j QUEUED
          {| no_args with ta_reason := Some ("requeued after preemption (" +:+ where_ +:+ ")") |};;
  ret {| o with oc_final_state := Some (j_state j'); oc_preempted := true |}.

Definition clearing (reason : string) : TransitionArgs :=
  {| no_args with ta_reason := Some reason; ta_clear_handle := true |}.

(** [_preempt(job, backend, observation, outcome)] *)
Definition preempt (j : Job) (b : Backend W) (ob : Observation) (o : Outcome) : M Outcome :=
  call (b_terminate b (default "" (j_backend_handle j)) "preempted");;;
  progressed <- collect_checkpoint j;;
  let j := match progressed with Some j' => j' | None => j end in
  j <- record_preemption j;;
  j <- transition config j PREEMPTED (clearing (str_or (ob_detail ob) "capacity was taken away"));;
  let made_progress := match progressed with Some _ => true | None => false end in
  if negb made_progress && (spot_max_preemptions_without_progress config <=? j_preemptions j) then
    fallback <- fallback_tier j;;
    match fallback with
    | None =>
        append_log config (j_job_id j) "broker"
          ("preempted " +:+ str_of_Z (j_preemptions j) +:+ " times with nothing saved, but no "
           +:+ "cheaper-than-spot alternative is configured, so it stays here");;;
        requeue j o
    | Some tier =>
        j <- pin_tier j tier ("preempted " +:+ str_of_Z (j_preemptions j) +:+ " times with nothing saved");;
        notify (j_user_id j) "pinned-ondemand"
          ("Job " +:+ short_id j +:+ " has been preempted " +:+ str_of_Z (j_preemptions j)
           +:+ " times without saving a checkpoint, so it will run on on-demand "
           +:+ "capacity from now on. To use the cheaper spot pool, have it "
           +:+ "write checkpoints -- see the Checkpointer in the README.") (Some (j_job_id j));;;
        requeue j o
    end
  else requeue j o.

(** The cost since the last settlement: is anything settled? *)
Definition settle_accrued (j : Job) (t : Z) : M bool :=
  accrued <- query (fun d => accrue d j t);;
  if dec_ltb ZERO accrued then
    settle config j accrued (Some (f_fixed 4 (elapsed_hours j t) +:+ "h elapsed"));;;
    ret true
  else ret false.

(** [_advance], from the poll on: what to do with what the backend reported. *)
Definition observed (j : Job) (b : Backend W) (handle : string) (t : Z) (ob : Observation)
    (o : Outcome) : M Outcome :=
  if bool_decide (ob_status ob = READY) then
    r <- attempt (call (b_start b handle j)) is_backend_error;;
    match r with
    | inl e =>
        append_log config (j_job_id j) "broker" ("could not start: " +:+ exn_str e);;;
        call (b_terminate b handle "failed to start");;;
        j' <- transition config j FAILED (clearing ("could not start: " +:+ exn_str e));;
        ret {| o with oc_final_state := Some (j_state j') |}
    | inr _ =>
        append_log config (j_job_id j) "broker" "command sent; job is running";;;
        ret o
    end
  else
    let target := state_for (ob_status ob) in
    let reason := str_or (ob_detail ob) ("backend reported " +:+ status_str (ob_status ob)) in
    if bool_decide (target = PREEMPTED) then preempt j b ob o
    else if state_in target TERMINAL then
      call (b_terminate b handle ("job " +:+ str_lower (state_str target)));;;
      j' <- transition config j target (mkTransitionArgs (Some reason) [] None None (ob_exit_code ob) true);;
      ret {| o with oc_final_state := Some (j_state j') |}
    else
      ceiling <- lift_outcome (at_ceiling j t);;
      if ceiling then
        call (b_terminate b handle "budget ceiling reached");;;
        j <- drain_logs j b;;
        transition config j FAILED (clearing ("stopped at its " +:+ fmt (reserved j) (j_currency j)
          +:+ " ceiling after " +:+ f_fixed 2 (elapsed_hours j t) +:+ "h"));;;
        ret {| o with oc_hit_ceiling := true; oc_final_state := Some FAILED |}
      else
        let target := if bool_decide (target = ALLOCATING) && resumable j
                         && bool_decide (j_state j = ALLOCATING) then RESUMING else target in
        if bool_decide (target = j_state j) then ret o
        else if negb (can_transition (j_state j) target) then
          append_log config (j_job_id j) "broker"
            ("ignored stale " +:+ status_str (ob_status ob) +:+ " from " +:+ b_name b
             +:+ "; job is already " +:+ state_str (j_state j));;;
          ret o
        else
          j' <- transition config j target
                  (mkTransitionArgs (Some reason) [] None None (ob_exit_code ob) false);;
          ret {| o with oc_final_state := Some (j_state j') |}.

(** [_advance(job, now)] *)
Definition advance_job (j : Job) (t : Z) : M Outcome :=
  match backend (default "" (j_backend j)), j_backend_handle j with
  | Some b, Some handle =>
      settled <- settle_accrued j t;;
      let o := {| no_outcome with oc_settled := settled |} in
      match j_cancel_requested j with
      | Some (String a s) =>
          let who := String a s in
          call (b_terminate b handle ("cancelled by " +:+ who));;;
          j <- drain_logs j b;;
          j' <- transition config j CANCELLED (clearing ("cancelled by " +:+ who));;
          ret {| o with oc_final_state := Some (j_state j') |}
      | _ =>
          ob <- call (b_poll b handle);;
          j <- drain_logs j b;;
          sample_job j b;;;
          observed j b handle t ob o
      end
  | _, _ => ret no_outcome
  end.

(** ** The queue *)

(** [ordered_queue(now)] *)
Definition ordered_queue (t : Z) : M (list (Job * Priority)) :=
  query_ok (fun d => order_queue pow config (queued_jobs d) d t).

(** A decision and the backend it names. *)
Definition step : Type := Decision * option (Backend W).

Definition blocked_step (j : Job) (a : Action) (detail : string) : step :=
  (mkDecision j a None detail, None).

(** The body of the loop of [decisions], for one job: the decision, what is
    remembered, and whether every currency is now blocked. *)
Definition decide_one (headroom : Currency -> Decimal) (suspended : gmap string string) (w : Walk)
    (j : Job) : M (Walk * step * bool) :=
  match suspended !! j_user_id j with
  | Some why =>
      ret (w, blocked_step j BLOCKED_UNAUTHORIZED
        (j_user_id j +:+ " is suspended from the pool ("
         +:+ str_or (Some why) "no reason recorded" +:+ ")"), false)
  | None =>
  if bool_decide (j_currency j ∈ wk_blocked w) then
    ret (w, blocked_step j BLOCKED_POOL "pool cap already reached", false)
  else
    held <- match wk_held w !! j_user_id j with
            | Some n => ret n
            | None => query_ok (fun d => running_count d (j_user_id j))
            end;;
    let w := {| w with wk_held := <[j_user_id j := held]> (wk_held w) |} in
    if max_running_jobs_per_user config <=? held then
      ret (w, blocked_step j BLOCKED_TENANT
        (j_user_id j +:+ " is holding " +:+ str_of_Z held +:+ " jobs, the limit is "
         +:+ str_of_Z (max_running_jobs_per_user config)), false)
    else
      let remaining := dec_sub (headroom (j_currency j)) (wk_committed w (j_currency j)) in
      if dec_ltb remaining (reserved j) then
        let w := {| w with wk_blocked := j_currency j :: wk_blocked w |} in
        ret (w, blocked_step j BLOCKED_POOL
          ("needs " +:+ fmt (reserved j) (j_currency j) +:+ ", pool has "
           +:+ fmt remaining (j_currency j) +:+ " free"),
          Nat.eqb (length (wk_blocked w)) (length all_currencies))
      else
        placement <- choose config j backends;;
        match pl_backend placement with
        | None => ret (w, blocked_step j BLOCKED_CAPACITY (pl_reason placement), false)
        | Some b =>
            let w := {| w with
              wk_committed := set_at (wk_committed w) (j_currency j)
                                (dec_add (wk_committed w (j_currency j)) (reserved j));
              wk_held := <[j_user_id j := held + 1]> (wk_held w) |} in
            ret (w, (mkDecision j DISPATCH (Some (b_name b)) (one_line placement), Some b), false)
        end
  end.

(** The loop of [decisions], interleaved with its consumer. *)
Fixpoint walk_queue {A} (consume : A -> step -> M A) (headroom : Currency -> Decimal)
    (suspended : gmap string string) (w : Walk) (queue : list (Job * Priority)) (acc : A) : M A :=
  match queue with
  | [] => ret acc
  | (j, _) :: rest =>
      r <- decide_one headroom suspended w j;;
      let '(w', st, all_blocked) := r in
      acc' <- consume acc st;;
      if all_blocked then
        foldM consume acc' (map (fun jp => blocked_step (fst jp) BLOCKED_POOL "pool cap reached") rest)
      else walk_queue consume headroom suspended w' rest acc'
  end.

Definition empty_walk : Walk := mkWalk (fun _ => ZERO) [] ∅.

(** [decisions(now)], run to its end by a consumer *)
Definition decisions {A} (t : Z) (consume : A -> step -> M A) (acc : A) : M A :=
  usd <- pool_headroom config USD;;
  gpu_hours <- pool_headroom config GPU_HOUR;;
  let headroom := fun c => match c with USD => usd | GPU_HOUR => gpu_hours end in
  queue <- ordered_queue t;;
  suspended <- query_ok suspended_users;;
  walk_queue consume headroom suspended empty_walk queue acc.

(** The body of the loop of [plan] *)
Definition plan_one (acc : list Decision * list (string * string) * list (string * string)) (st : step)
  : M (list Decision * list (string * string) * list (string * string)) :=
  let '(ds, checks, problems) := acc in
  let '(d, ob) := st in
  match ob with
  | None => ret (ds ++ [d], checks, problems)
  | Some b =>
      r <- attempt (call (b_validate_launch b (d_job d))) is_backend_error;;
      match r with
      | inl e => ret (ds ++ [d], checks, problems ++ [(j_job_id (d_job d), exn_str e)])
      | inr text => ret (ds ++ [d], checks ++ [(j_job_id (d_job d), text)], problems)
      end
  end.

(** [plan(now)] *)
Definition plan : M DryRunPlan :=
  t <- now;;
  r <- decisions t plan_one ([], [], []);;
  let '(ds, checks, problems) := r in
  ret (mkDryRunPlan t ds checks problems).

(** The body of the loop of [_dispatch] *)
Definition dispatch_one (acc : Dispatched) (st : step) : M Dispatched :=
  let '(d, ob) := st in
  let j := d_job d in
  g <- lift_outcome (gpu config (j_gpu_type j));;
  record_schedule_observation (j_job_id j) (action_str (d_action d)) (j_gpu_type j) (gt_memory_mb g)
    (option_map b_name ob) (option_map tier_of ob) (d_detail d);;;
  match d_action d, ob with
  | BLOCKED_UNAUTHORIZED, _ => ret {| acc with dp_auth := dp_auth acc ++ [j_job_id j] |}
  | BLOCKED_POOL, _ => ret {| acc with dp_pool := dp_pool acc ++ [j_job_id j] |}
  | BLOCKED_TENANT, _ => ret {| acc with dp_tenant := dp_tenant acc ++ [j_job_id j] |}
  | BLOCKED_CAPACITY, _ | DISPATCH, None =>
      ret {| acc with dp_capacity := dp_capacity acc ++ [j_job_id j] |}
  | DISPATCH, Some b =>
      r <- attempt (call (b_launch b j)) is_backend_error;;
      match r with
      | inl e =>
          append_log config (j_job_id j) "broker" ("launch failed: " +:+ exn_str e);;;
          ret {| acc with dp_capacity := dp_capacity acc ++ [j_job_id j] |}
      | inr al =>
          j <- record_attempt j;;
          transition config j ALLOCATING (mkTransitionArgs
            (Some ("placed on " +:+ b_name b +:+ " (" +:+ al_handle al +:+ ")"
                   +:+ (if 1 <? j_attempts j then ", attempt " +:+ str_of_Z (j_attempts j) else "")))
            [] (Some (b_name b)) (Some (al_handle al)) None false);;;
          append_log config (j_job_id j) "broker"
            ("dispatched to " +:+ b_name b +:+ "/" +:+ al_handle al +:+ " on " +:+ j_gpu_type j);;;
          append_log config (j_job_id j) "broker" ("placement: " +:+ d_detail d);;;
          ret {| acc with dp_dispatched := dp_dispatched acc ++ [j_job_id j] |}
      end
  end.

(** [_dispatch(now)] *)
Definition dispatch (t : Z) : M Dispatched :=
  r <- decisions t dispatch_one (mkDispatched [] [] [] [] []);;
  ret {| r with dp_pool := dedupe (dp_pool r) |}.

(** The body of the first loop of [tick], and what it collects. *)
Record Advanced := mkAdvanced {
  ad_completed : list string;
  ad_failed : list string;
  ad_settled : list string;
  ad_ceilinged : list string
}.

Definition note_outcome (acc : Advanced) (id : string) (o : Outcome) : Advanced :=
  mkAdvanced
    (if bool_decide (oc_final_state o = Some COMPLETED) then ad_completed acc ++ [id] else ad_completed acc)
    (if bool_decide (oc_final_state o = Some FAILED) || bool_decide (oc_final_state o = Some CANCELLED)
     then ad_failed acc ++ [id] else ad_failed acc)
    (if oc_settled o then ad_settled acc ++ [id] else ad_settled acc)
    (if oc_hit_ceiling o then ad_ceilinged acc ++ [id] else ad_ceilinged acc).

Definition advance_one (t : Z) (acc : Advanced) (j : Job) : M Advanced :=
  o <- advance_job j t;;
  ret (note_outcome acc (j_job_id j) o).

(** [try: Metrics(store).record(collect(...)) except Exception: pass] *)
Definition finish_tick : M unit :=
  try_catch (points <- collect config backends;; record points) any_exception (fun _ => ret tt).

(** [tick()] *)
Definition tick : M TickReport :=
  t <- now;;
  active <- query_ok active_jobs;;
  a <- foldM (advance_one t) (mkAdvanced [] [] [] []) active;;
  dp <- dispatch t;;
  finish_tick;;;
  ret (mkTickReport t (dp_dispatched dp) (ad_completed a) (ad_failed a) (ad_settled a)
         (dp_pool dp) (dp_capacity dp) (dp_tenant dp) (dp_auth dp) (ad_ceilinged a)).

(** ** Reconciliation *)

Definition untagged (b : Backend W) (r : Resource) : Drift :=
  mkDrift "UNTAGGED" (b_name b) (res_handle r) None
    ("holding capacity with no broker-job-id tag. The broker did not create this, or created it and "
     +:+ "died before tagging.").

(** [_known_state(job_id)] *)
Definition known_state (d : DB) (job_id : string) : string :=
  match get_job d job_id with
  | Ok j => state_str (j_state j)
  | Raise _ => "no job record at all"
  end.

Definition orphan_drift (d : DB) (b : Backend W) (r : Resource) (job_id : string) : Drift :=
  mkDrift "ORPHAN" (b_name b) (res_handle r) (Some job_id)
    ("backend is holding this for " +:+ default "None" (res_user_id r)
     +:+ ", but our record says " +:+ known_state d job_id +:+ ". Nothing will clean it up.").

(** Our key for an active job: [(job.backend, job.backend_handle)], when the
    handle is truthy. *)
Definition drift_key (j : Job) : option (option string * string) :=
  match j_backend_handle j with
  | Some (String a s) => Some (j_backend j, String a s)
  | _ => None
  end.

(** [our_active], a [dict] in insertion order: a later job with the same key
    replaces the value. *)
Definition our_active (d : DB) : list ((option string * string) * Job) :=
  fold_left (fun m j => match drift_key j with Some k => PyDict.dict_set k j m | None => m end)
    (active_jobs d) [].

(** The drift one resource shows, if any. *)
Definition resource_drift (d : DB) (ours : list ((option string * string) * Job)) (b : Backend W)
    (r : Resource) : list Drift :=
  match res_job_id r with
  | None => [untagged b r]
  | Some job_id =>
      match PyDict.dict_get (Some (b_name b), res_handle r) ours with
      | None => [orphan_drift d b r job_id]
      | Some _ => []
      end
  end.

Definition lost_drift (k : option string * string) (j : Job) : Drift :=
  let backend_name := match fst k with Some n => n | None => "None" end in
  mkDrift "LOST" (str_or (fst k) "?") (str_or (Some (snd k)) "?") (Some (j_job_id j))
    ("we record this job as " +:+ state_str (j_state j) +:+ " on " +:+ backend_name
     +:+ ", but the backend has no such resource. It may have been terminated outside the broker.").

(** The loop over one backend: drifts so far and the keys seen. *)
Definition reconcile_backend (ours : list ((option string * string) * Job))
    (acc : list Drift * list (option string * string)) (b : Backend W)
  : M (list Drift * list (option string * string)) :=
  rs <- call (b_list_resources b);;
  query_ok (fun d =>
    (fst acc ++ concat (map (resource_drift d ours b) rs),
     snd acc ++ map (fun r => (Some (b_name b), res_handle r)) rs)).

(** [reconcile()] *)
Definition reconcile : M (list Drift) :=
  ours <- query_ok our_active;;
  r <- foldM (reconcile_backend ours) ([], []) backends;;
  let '(drifts, seen) := r in
  ret (drifts ++ concat (map (fun kj : (option string * string) * Job =>
    if bool_decide (fst kj ∈ seen) then [] else [lost_drift (fst kj) (snd kj)]) ours)).
End Scheduler.
