(* ===== verification/SchedulerSafe.v ===== *)
(** * A tick keeps every committed image well formed

    Two facts are composed over the bodies of [Scheduler.v].  [stays id st m]:
    [m] leaves the state of job [id] alone, which is how the jobs a tick has not
    come to yet stay active.  [safe js m f] of [StoreInv.v]: [m] commits sound
    images only.  The one operation with a side condition, [settle], is met in
    [settle_accrued]: what is accrued is at most what is still held. *)

From S2P Require Import Prelude PyFloat PyDecimal PyFormat PySort PyDict Errors Money Clock States Models Config Tables Store StoreInv StoreSafe FairShare Backend Placement Idle Metrics Checkpoint Scheduler.
Local Open Scope Z_scope.
Local Open Scope py_scope.

Definition state_of (d : DB) (id : string) : option JobState := option_map j_state (jobs d !! id).

Section Stays.
Context {W : Type} (id : string) (st : option JobState).

Definition stays {A} (m : M (St W) exn A) : Prop := keeps (fun s => state_of (db s) id = st) m.

Lemma stays_transaction {A} (body : DB -> outcome exn (DB * A)) :
  (forall d d' a, body d = Ok (d', a) -> state_of d' id = state_of d id) -> stays (transaction body).
Proof.
  intros Hb s Hs. unfold transaction. destruct (body (db s)) as [[d' a]|e] eqn:E; cbn; [|done].
  by rewrite (Hb _ _ _ E).
Qed.

Lemma stays_commit_only body :
  (forall d d', body d = Ok d' -> state_of d' id = state_of d id) -> stays (commit_only body).
Proof.
  intros Hb. apply stays_transaction. intros d d' a H.
  apply obind_ok in H as (d1 & H & [= <- <-]). by apply Hb.
Qed.

Lemma stays_call {A} (m : method W A) : stays (call m).
Proof. intros s Hs. pose proof (call_db m s) as [Hd _]. destruct (call m s) as [s' []]; cbn in *; by rewrite Hd. Qed.

Lemma state_of_update d k f : (forall j, j_state (f j) = j_state j) -> state_of (update_job d k f) id = state_of d id.
Proof.
  intros Hf. unfold state_of. cbn. destruct (decide (k = id)) as [->|].
  - rewrite lookup_alter_eq. destruct (jobs d !! id); cbn; [by rewrite Hf|done].
  - by rewrite lookup_alter_ne.
Qed.

Lemma state_of_logs d k t ls d' : insert_logs d k t ls = Ok d' -> state_of d' id = state_of d id.
Proof. unfold insert_logs. destruct ls; [by intros [= <-]|]. repeat (case_match; try done). by intros [= <-]. Qed.

Lemma stays_reads {A} (m : M (St W) exn A) : reads m -> stays m.
Proof. apply keeps_reads. Qed.

Lemma stays_bind {A B} (m : M (St W) exn A) (k : A -> M (St W) exn B) :
  stays m -> (forall a, stays (k a)) -> stays (bind m k).
Proof. apply keeps_bind. Qed.

Lemma stays_attempt {A} (m : M (St W) exn A) caught : stays m -> stays (attempt m caught).
Proof.
  intros Hm. apply keeps_try; [|intros; apply keeps_ret].
  apply keeps_bind; [done|]. intros. apply keeps_ret.
Qed.
End Stays.

Create HintDb stays discriminated.
#[export] Hint Constants Opaque : stays.

Ltac stays_read := apply stays_bind; [by apply stays_reads|intros ?].

Section StaysOps.
Context {W : Type} `{TimeZones} (config : BrokerConfig) (id : string) (st : option JobState).

Abbreviation stays := (stays (W := W) id st).

Lemma stays_ret {A} (a : A) : stays (ret a).
Proof. apply keeps_ret. Qed.

Lemma stays_append_log k stream line : stays (append_log config k stream line).
Proof.
  unfold append_log. stays_read. case_match; [apply stays_ret|]. stays_read.
  apply stays_commit_only. intros d d'. apply state_of_logs.
Qed.

Lemma stays_append_backend_logs j lines : stays (append_backend_logs config j lines).
Proof.
  unfold append_backend_logs. case_match; [apply stays_ret|]. stays_read. stays_read.
  apply stays_bind; [|intros; apply stays_ret]. apply stays_commit_only. intros d d' Hb.
  apply obind_ok in Hb as (d1 & H1 & [= <-]). rewrite state_of_update by done. by eapply state_of_logs.
Qed.

Lemma stays_notify u k m j : stays (notify u k m j).
Proof.
  unfold notify. stays_read. apply stays_transaction. intros d d' n.
  unfold insert_notification. case_match; [done|]. by intros [= <- <-].
Qed.

Lemma stays_record_samples k ss : stays (record_samples k ss).
Proof.
  unfold record_samples. case_match; [apply stays_ret|]. apply stays_commit_only. intros d d'.
  unfold insert_samples. case_match; [done|]. by intros [= <-].
Qed.

Lemma stays_notify_idle v : stays (notify_idle config v).
Proof.
  unfold notify_idle. case_match; [apply stays_ret|].
  apply stays_bind; [apply stays_notify|]. intros ?.
  apply stays_bind; [apply stays_append_log|]. intros ?. apply stays_ret.
Qed.

Lemma stays_settle j a n : stays (settle config j a n).
Proof.
  unfold settle. case_match; [apply stays_ret|]. stays_read.
  apply stays_commit_only. intros d d' Hb. apply obind_ok in Hb as (d1 & H1 & Hb).
  apply obind_ok in Hb as (d2 & H2 & [= <-]). rewrite state_of_update by done.
  apply insert_ledger_ok in H1 as [_ ->]. by apply insert_ledger_ok in H2 as [_ ->].
Qed.

Lemma stays_update_only k (f : Job -> Job) :
  (forall j, j_state (f j) = j_state j) -> stays (commit_only (fun d => Ok (update_job d k f))).
Proof. intros Hf. apply stays_commit_only. intros d d' [= <-]. by apply state_of_update. Qed.

Lemma stays_record_attempt j : stays (record_attempt j).
Proof. unfold record_attempt. stays_read. apply stays_bind; [by apply stays_update_only|intros; apply stays_ret]. Qed.
Lemma stays_record_preemption j : stays (record_preemption j).
Proof. unfold record_preemption. stays_read. apply stays_bind; [by apply stays_update_only|intros; apply stays_ret]. Qed.
Lemma stays_record_checkpoint j k s : stays (record_checkpoint j k s).
Proof. unfold record_checkpoint. stays_read. apply stays_bind; [by apply stays_update_only|intros; apply stays_ret]. Qed.
Lemma stays_pin_tier j t r : stays (pin_tier j t r).
Proof.
  unfold pin_tier. stays_read. apply stays_bind; [|intros; apply stays_ret].
  apply stays_commit_only. intros d d' Hb. rewrite (state_of_logs id _ _ _ _ _ Hb). by apply state_of_update.
Qed.

(** A transition changes its own job only. *)
Lemma stays_transition j to args : j_job_id j <> id -> stays (transition config j to args).
Proof.
  intros Hne. unfold transition. case_match; [apply keeps_raise|]. stays_read. stays_read.
  apply stays_bind; [|intros; apply stays_ret]. apply stays_commit_only. intros d d' Hb.
  apply obind_ok in Hb as (d1 & H1 & Hb). apply obind_ok in Hb as (d2 & H2 & H3).
  apply update_state_ok in H1 as (row & _ & _ & ->). apply insert_transition_ok in H2 as (_ & ->).
  apply insert_writes_ok in H3 as (es & -> & _). unfold state_of. cbn. by rewrite lookup_alter_ne.
Qed.
End StaysOps.

#[export] Hint Resolve stays_ret stays_call stays_append_log stays_append_backend_logs
  stays_notify stays_record_samples stays_notify_idle stays_settle stays_record_attempt
  stays_record_preemption stays_record_checkpoint stays_pin_tier stays_transition : stays.

(** Walk the body of a scheduler step. *)
Ltac stays_walk :=
  repeat first
    [ solve [eauto with stays]
    | match goal with
      | |- stays _ _ (bind _ _) => apply stays_bind; [|intros ?]
      | |- stays _ _ (attempt _ _) => apply stays_attempt
      end
    | by apply stays_reads
    | case_match ].

(** Every result satisfies [P]. *)
Definition returns {W A} (P : A -> Prop) (m : M (St W) exn A) : Prop :=
  forall s s' a, m s = (s', Ok a) -> P a.

Lemma stays_bind_ret {W A B} id st (P : A -> Prop) (m : M (St W) exn A) (k : A -> M (St W) exn B) :
  returns P m -> stays id st m -> (forall a, P a -> stays id st (k a)) -> stays id st (bind m k).
Proof.
  intros Hr Hm Hk s Hs. unfold bind. specialize (Hr s). specialize (Hm s Hs).
  destruct (m s) as [s1 [a|e]]; [|done]. apply (Hk a); [by eapply Hr|done].
Qed.

Lemma returns_bind {W A B} (P : B -> Prop) (m : M (St W) exn A) (k : A -> M (St W) exn B) :
  (forall a, returns P (k a)) -> returns P (bind m k).
Proof. intros Hk s s' b Hb. apply bind_ok in Hb as (s1 & a & _ & Hb). by eapply Hk. Qed.

Lemma returns_ret {W A} (P : A -> Prop) (a : A) : P a -> returns (W := W) P (ret a).
Proof. intros Ha s s' a' [= <- <-]. exact Ha. Qed.

Section ReturnsJob.
Context {W : Type} `{TimeZones} (config : BrokerConfig).

Lemma returns_record_attempt j : returns (W := W) (same_fixed j) (record_attempt j).
Proof. unfold record_attempt. do 2 (apply returns_bind; intros ?). by apply returns_ret. Qed.
Lemma returns_record_preemption j : returns (W := W) (same_fixed j) (record_preemption j).
Proof. unfold record_preemption. do 2 (apply returns_bind; intros ?). by apply returns_ret. Qed.
Lemma returns_record_checkpoint j k s : returns (W := W) (same_fixed j) (record_checkpoint j k s).
Proof. unfold record_checkpoint. do 2 (apply returns_bind; intros ?). by apply returns_ret. Qed.
Lemma returns_pin_tier j t r : returns (W := W) (same_fixed j) (pin_tier j t r).
Proof. unfold pin_tier. do 2 (apply returns_bind; intros ?). by apply returns_ret. Qed.
Lemma returns_transition j to args : returns (W := W) (same_fixed j) (transition config j to args).
Proof.
  unfold transition. case_match; [by intros s s' a|]. do 3 (apply returns_bind; intros ?).
  apply returns_ret. by constructor.
Qed.
Lemma returns_drain_logs j b : returns (W := W) (same_fixed j) (drain_logs config j b).
Proof.
  unfold drain_logs. apply returns_bind. intros [e|[|l ls]]; [|by apply returns_ret|];
    apply returns_bind; intros ?; by apply returns_ret.
Qed.
Lemma returns_collect_checkpoint cks j :
  returns (W := W) (fun o => match o with Some j' => same_fixed j j' | None => True end)
    (collect_checkpoint config cks j).
Proof.
  unfold collect_checkpoint. destruct cks; [|by apply returns_ret].
  apply returns_bind. intros [e|[ref|]]; [|case_match; [by apply returns_ret|]|by apply returns_ret].
  - apply returns_bind. intros ?. by apply returns_ret.
  - intros s s' o Hb. apply bind_ok in Hb as (s1 & j' & Hr & [= <- <-]).
    by eapply returns_record_checkpoint.
Qed.
End ReturnsJob.

Section StaysScheduler.
Context {W : Type} `{TimeZones} (config : BrokerConfig) (backends : list (Backend W)).
Context (checkpoints : option (string -> method W (option CheckpointRef))).
Context (id : string) (st : option JobState).

Abbreviation stays := (stays (W := W) id st).

Lemma stays_drain_logs j b : stays (drain_logs config j b).
Proof. unfold drain_logs. stays_walk. Qed.

Lemma stays_sample_job j b : stays (sample_job config j b).
Proof. unfold sample_job. stays_walk. Qed.

Lemma stays_collect_checkpoint j : stays (collect_checkpoint config checkpoints j).
Proof. unfold collect_checkpoint. stays_walk. Qed.

Lemma stays_fallback_tier j : stays (fallback_tier config backends j).
Proof.
  unfold fallback_tier. stays_read.
  assert (Hr : forall t bs, stays (tier_runs j a t bs)).
  { intros t. induction bs; cbn; stays_walk. }
  generalize (if bool_decide (str_or (j_pinned_tier j) "spot" ∈ placement_order config)
    then after_tier (str_or (j_pinned_tier j) "spot") (placement_order config)
    else placement_order config).
  induction l as [|t l IH]; cbn; [apply stays_ret|].
  apply stays_bind; [apply Hr|]. intros []; [apply stays_ret|exact IH].
Qed.

Lemma stays_settle_accrued j t : stays (settle_accrued config j t).
Proof. unfold settle_accrued. stays_walk. Qed.

Hint Resolve stays_drain_logs stays_sample_job stays_collect_checkpoint stays_fallback_tier
  stays_settle_accrued : stays.

Lemma stays_requeue j o : j_job_id j <> id -> stays (requeue config j o).
Proof. intros Hne. unfold requeue. stays_walk. Qed.

Lemma stays_preempt j b ob o : j_job_id j <> id -> stays (preempt config backends checkpoints j b ob o).
Proof.
  intros Hne. unfold preempt. apply stays_bind; [apply stays_call|]. intros _.
  eapply stays_bind_ret; [apply returns_collect_checkpoint|apply stays_collect_checkpoint|].
  intros p Hp. set (j1 := match p with Some _ => _ | None => _ end).
  assert (H1 : j_job_id j1 <> id) by (subst j1; destruct p; [by rewrite (sf_id _ _ Hp)|done]).
  clearbody j1.
  eapply stays_bind_ret; [apply returns_record_preemption|apply stays_record_preemption|].
  intros j2 H2. rewrite <- (sf_id _ _ H2) in H1.
  eapply stays_bind_ret; [apply returns_transition|by apply stays_transition|].
  intros j3 H3. rewrite <- (sf_id _ _ H3) in H1.
  case_match; [|by apply stays_requeue].
  apply stays_bind; [apply stays_fallback_tier|]. intros [tier|].
  - eapply stays_bind_ret; [apply returns_pin_tier|apply stays_pin_tier|].
    intros j4 H4. rewrite <- (sf_id _ _ H4) in H1.
    apply stays_bind; [apply stays_notify|]. intros _. by apply stays_requeue.
  - apply stays_bind; [apply stays_append_log|]. intros _. by apply stays_requeue.
Qed.

Lemma stays_observed j b h t ob o :
  j_job_id j <> id -> stays (observed config backends checkpoints j b h t ob o).
Proof.
  intros Hne. unfold observed. case_match; [stays_walk|]. case_match; [by apply stays_preempt|].
  case_match; [stays_walk|]. apply stays_bind; [by apply stays_reads|]. intros [].
  - apply stays_bind; [apply stays_call|]. intros _.
    eapply stays_bind_ret; [apply returns_drain_logs|apply stays_drain_logs|].
    intros j1 Hj1. rewrite <- (sf_id _ _ Hj1) in Hne.
    apply stays_bind; [by apply stays_transition|]. intros. apply stays_ret.
  - stays_walk.
Qed.

(** Advancing a job changes the state of no other job. *)
Lemma stays_advance_job j t : j_job_id j <> id -> stays (advance_job config backends checkpoints j t).
Proof.
  intros Hne. unfold advance_job. case_match; [|apply stays_ret]. case_match; [|apply stays_ret].
  apply stays_bind; [apply stays_settle_accrued|]. intros settled.
  assert (Hpoll : stays (ob <- call (b_poll b s);; j0 <- drain_logs config j b;;
    sample_job config j0 b;;; observed config backends checkpoints j0 b s t ob
      {| no_outcome with oc_settled := settled |})).
  { apply stays_bind; [apply stays_call|]. intros ob.
    eapply stays_bind_ret; [apply returns_drain_logs|apply stays_drain_logs|].
    intros j1 Hj1. apply stays_bind; [apply stays_sample_job|]. intros _.
    apply stays_observed. by rewrite (sf_id _ _ Hj1). }
  destruct (j_cancel_requested j) as [[|a s']|]; [exact Hpoll| |exact Hpoll].
  apply stays_bind; [apply stays_call|]. intros _.
  eapply stays_bind_ret; [apply returns_drain_logs|apply stays_drain_logs|].
  intros j1 Hj1. apply stays_bind; [|intros; apply stays_ret].
  apply stays_transition. by rewrite (sf_id _ _ Hj1).
Qed.
End StaysScheduler.

(** [safe] from the states that also satisfy [Pre]. *)
Definition safe_at {W A} (Pre : St W -> Prop) (js : list Job) (m : M (St W) exn A)
    (f : A -> list Job) : Prop :=
  forall s, sound s -> Pre s -> Forall (copy_of (db s)) js ->
  let '(s', r) := m s in
  sound s' /\ grows s s' /\
  match r with Ok a => Forall (copy_of (db s')) (f a) | Raise _ => True end.

Lemma safe_at_bind {W A B} Pre js (m : M (St W) exn A) f (k : A -> M (St W) exn B) g :
  safe_at Pre js m f -> (forall a, safe (f a ++ js) (k a) g) -> safe_at Pre js (bind m k) g.
Proof.
  intros Hm Hk s Hs Hp Hc. unfold bind. specialize (Hm s Hs Hp Hc).
  destruct (m s) as [s1 [a|e]]; destruct Hm as (Hs1 & He1 & Ha); [|by split_and!].
  specialize (Hk a s1 Hs1). destruct (k a s1) as [s2 [b|e]];
    (destruct Hk as (? & He2 & ?);
      [apply Forall_app; split; [done|by eapply Forall_copy_extends]|]);
    (split_and!; [done|by etransitivity|done]).
Qed.

Lemma safe_safe_at {W A} Pre js (m : M (St W) exn A) f : safe js m f -> safe_at Pre js m f.
Proof. intros Hm s Hs _ Hc. by apply Hm. Qed.

Lemma safe_attempt {W A} js (m : M (St W) exn A) caught : safe js m none -> safe js (attempt m caught) none.
Proof.
  intros Hm. apply safe_try; [|intros; apply safe_ret_none].
  apply safe_then; [done|]. intros. apply safe_ret_none.
Qed.

(** Walk a body whose results carry no copies. *)
Ltac safe_walk :=
  repeat first
    [ solve [eauto with safe]
    | match goal with
      | |- safe _ (bind _ _) none => apply safe_then; [|intros ?]
      | |- safe _ (attempt _ _) none => apply safe_attempt
      end
    | by apply safe_reads
    | case_match ].

Section SafeScheduler.
Context {W : Type} `{TimeZones} (config : BrokerConfig) (backends : list (Backend W)).
Context (checkpoints : option (string -> method W (option CheckpointRef))).

(** What is accrued for a live job is at most what is still held for it. *)
Lemma accrue_bound d j row t a :
  db_ok d -> jobs d !! j_job_id j = Some row -> same_fixed row j ->
  state_in (j_state row) TERMINAL = false ->
  accrue config d j t = Ok a -> dec_ltb ZERO a = true ->
  quantize a (j_currency j) <= job_holding d (j_job_id j) (j_currency j).
Proof.
  intros Hd Hrow Hf Hlive Ha Hpos. unfold accrue, reserved, ZERO in *.
  apply obind_ok in Ha as (g & _ & [= <-]). revert Hpos.
  rewrite dec_min_cents, dec_sub_cents, dec_max_zero_cents.
  set (q := quantize _ _). set (spend := job_spend d (j_job_id j)).
  destruct (Z.ltb_spec 0 (Z.min q (j_reserved j) - spend)) as [Hlt|]; [|done]. intros _.
  unfold quantize at 1. rewrite quantize_cents_of_cents, job_holding_ksum, (sf_currency _ _ Hf).
  pose proof (ok_jobs _ Hd _ _ Hrow) as Hok.
  pose proof (job_spend_settled d (j_job_id j) (j_currency row) (ok_amounts _ Hd)) as Hspend.
  fold spend in Hspend. destruct (jo_hold _ _ _ Hok) as [HR _ _ HX _]. specialize (HX Hlive).
  rewrite bool_decide_eq_false_2 in HR by (intros E; by rewrite E in Hlive).
  rewrite (sf_reserved _ _ Hf) in *. lia.
Qed.

(** The job has not finished. *)
Definition live (j : Job) (s : St W) : Prop :=
  exists st, state_of (db s) (j_job_id j) = Some st /\ state_in st TERMINAL = false.

Lemma safe_settle_accrued js j t :
  j ∈ js -> safe_at (live j) js (settle_accrued config j t) none.
Proof.
  intros Hin s Hs (st & Hst & Hlive) Hc. unfold settle_accrued, bind, query.
  destruct (accrue config (db s) j t) as [a|e] eqn:Ha; [|by split_and!].
  destruct (dec_ltb ZERO a) eqn:Hpos; [|by split_and!].
  assert (Hcopy : copy_of (db s) j) by (eapply Forall_forall in Hc; eauto).
  pose proof Hcopy as (row & Hrow & Hf).
  unfold state_of in Hst. rewrite Hrow in Hst. injection Hst as <-.
  pose proof (settle_sound config s j a (Some (f_fixed 4 (elapsed_hours j t) +:+ "h elapsed")) Hs Hcopy) as Hset.
  destruct (settle config j a _ s) as [s1 [u|e]];
    (destruct Hset as [H1 H2]; [by eapply accrue_bound; [by apply so_db|done..]|]); by split_and!.
Qed.

Lemma safe_drain_logs js j b : j ∈ js -> safe (W := W) js (drain_logs config j b) one.
Proof.
  intros Hin. unfold drain_logs. apply safe_then; [apply safe_attempt, safe_call|].
  intros [e|[|l ls]].
  - apply safe_then; [apply safe_append_log|]. intros _. by eapply safe_ret_copy.
  - by eapply safe_ret_copy.
  - apply safe_then; [apply safe_append_backend_logs|]. intros c. eapply safe_ret_copy; [done|]. done.
Qed.

Lemma safe_sample_job js j b : safe (W := W) js (sample_job config j b) none.
Proof. unfold sample_job. safe_walk. Qed.

Lemma safe_collect_checkpoint js j :
  j ∈ js -> safe js (collect_checkpoint config checkpoints j) (fun o => match o with Some j' => [j'] | None => [] end).
Proof.
  intros Hin. unfold collect_checkpoint. destruct checkpoints as [latest|]; [|apply safe_ret; set_solver].
  apply safe_then; [apply safe_attempt, safe_call|]. intros [e|[ref|]].
  - apply safe_then; [apply safe_append_log|]. intros _. apply safe_ret. set_solver.
  - case_match; [apply safe_ret; set_solver|].
    eapply safe_bind; [by apply safe_record_checkpoint|]. intros j'. apply safe_ret. set_solver.
  - apply safe_ret. set_solver.
Qed.

Lemma safe_fallback_tier js j : safe js (fallback_tier config backends j) none.
Proof.
  unfold fallback_tier. apply safe_read; [done|]. intros g.
  assert (Hr : forall t bs, safe (W := W) js (tier_runs j g t bs) none).
  { intros t. induction bs; cbn; safe_walk. }
  generalize (if bool_decide (str_or (j_pinned_tier j) "spot" ∈ placement_order config)
    then after_tier (str_or (j_pinned_tier j) "spot") (placement_order config)
    else placement_order config).
  induction l as [|t l IH]; cbn; [apply safe_ret_none|].
  apply safe_then; [apply Hr|]. intros []; [apply safe_ret_none|exact IH].
Qed.

Lemma safe_transition_then {B} js j to args (k : Job -> M (St W) exn B) :
  j ∈ js -> ta_ledger args = [] -> (forall j', safe (j' :: js) (k j') none) ->
  safe js (bind (transition config j to args) k) none.
Proof. intros Hin Hnil Hk. eapply safe_bind; [by apply safe_transition|]. intros j'. apply Hk. Qed.

Lemma safe_requeue js j o : j ∈ js -> safe (W := W) js (requeue config j o) none.
Proof.
  intros Hin. unfold requeue. apply safe_then; [apply safe_append_log|]. intros _.
  apply safe_transition_then; [done..|]. intros. apply safe_ret_none.
Qed.

Lemma safe_preempt js j b ob o :
  j ∈ js -> safe js (preempt config backends checkpoints j b ob o) none.
Proof.
  intros Hin. unfold preempt. apply safe_then; [apply safe_call|]. intros _.
  eapply safe_bind; [by apply safe_collect_checkpoint|]. intros p.
  set (j1 := match p with Some _ => _ | None => _ end).
  assert (H1 : j1 ∈ match p with Some j' => [j'] | None => [] end ++ js)
    by (subst j1; destruct p; set_solver).
  eapply safe_bind; [by apply safe_record_preemption|]. intros j2.
  eapply safe_bind; [apply safe_transition; [cbn; set_solver|done]|]. intros j3.
  match goal with |- safe _ (if ?c then _ else _) _ => destruct c end;
    [|apply safe_requeue; cbn; set_solver].
  apply safe_then; [apply safe_fallback_tier|]. intros [tier|].
  - eapply safe_bind; [apply safe_pin_tier; cbn; set_solver|]. intros j4.
    apply safe_then; [apply safe_notify|]. intros _. apply safe_requeue. cbn. set_solver.
  - apply safe_then; [apply safe_append_log|]. intros _. apply safe_requeue. cbn. set_solver.
Qed.

Lemma safe_observed js j b h t ob o :
  j ∈ js -> safe js (observed config backends checkpoints j b h t ob o) none.
Proof.
  intros Hin. unfold observed. case_match.
  { apply safe_then; [apply safe_attempt, safe_call|]. intros [e|u].
    - do 2 (apply safe_then; [auto with safe|]; intros _).
      apply safe_transition_then; [done..|]. intros. apply safe_ret_none.
    - apply safe_then; [apply safe_append_log|]. intros _. apply safe_ret_none. }
  case_match; [by apply safe_preempt|]. case_match.
  { apply safe_then; [apply safe_call|]. intros _.
    apply safe_transition_then; [done..|]. intros. apply safe_ret_none. }
  apply safe_read; [done|]. intros [].
  - apply safe_then; [apply safe_call|]. intros _.
    eapply safe_bind; [by apply safe_drain_logs|]. intros j1.
    apply safe_transition_then; [cbn; set_solver|done|]. intros. apply safe_ret_none.
  - match goal with |- safe _ (if bool_decide (?tgt = _) then _ else _) _ =>
      set (target := tgt); clearbody target end.
    destruct (bool_decide (target = j_state j)); [apply safe_ret_none|].
    destruct (can_transition (j_state j) target); cbn [negb].
    2: { apply safe_then; [apply safe_append_log|]. intros _. apply safe_ret_none. }
    apply safe_transition_then; [done..|]. intros. apply safe_ret_none.
Qed.

Lemma safe_advance_job js j t :
  j ∈ js -> safe_at (live j) js (advance_job config backends checkpoints j t) none.
Proof.
  intros Hin. unfold advance_job. case_match; [|apply safe_safe_at, safe_ret_none].
  case_match; [|apply safe_safe_at, safe_ret_none].
  eapply safe_at_bind; [by apply safe_settle_accrued|]. intros settled. cbn [none app].
  assert (Hpoll : safe js (ob <- call (b_poll b s);; j0 <- drain_logs config j b;;
    sample_job config j0 b;;; observed config backends checkpoints j0 b s t ob
      {| no_outcome with oc_settled := settled |}) none).
  { apply safe_then; [apply safe_call|]. intros ob.
    eapply safe_bind; [by apply safe_drain_logs|]. intros j1.
    apply safe_then; [apply safe_sample_job|]. intros _. apply safe_observed. cbn. set_solver. }
  destruct (j_cancel_requested j) as [[|a s']|]; [exact Hpoll| |exact Hpoll].
  apply safe_then; [apply safe_call|]. intros _.
  eapply safe_bind; [by apply safe_drain_logs|]. intros j1.
  apply safe_transition_then; [cbn; set_solver|done|]. intros. apply safe_ret_none.
Qed.

(** ** The two halves of a tick *)

Lemma advance_all t todo acc (s : St W) :
  sound s -> Forall (copy_of (db s)) todo -> NoDup (map j_job_id todo) -> Forall (fun j => live j s) todo ->
  let '(s', r) := foldM (advance_one config backends checkpoints t) acc todo s in
  sound s' /\ grows s s'.
Proof.
  revert acc s. induction todo as [|j todo IH]; intros acc s Hs Hc Hnd Hl; [by cbn|].
  inversion_clear Hc as [|? ? Hcj Hct]. inversion_clear Hl as [|? ? Hlj Hlt].
  cbn in Hnd. apply NoDup_cons in Hnd as [Hnj Hnt].
  cbn [foldM]. unfold advance_one at 1. unfold bind.
  pose proof (safe_advance_job [j] j t ltac:(left) s Hs Hlj ltac:(by constructor)) as Hsafe.
  assert (Hstay : forall k, k ∈ todo -> live k (fst (advance_job config backends checkpoints j t s))).
  { intros k Hk. eapply Forall_forall in Hlt as (st & Hst & Hlive); [|exact Hk].
    exists st. split; [|done].
    assert (Hne : j_job_id j <> j_job_id k).
    { intros E. apply Hnj. rewrite E. by apply list_elem_of_fmap_2. }
    pose proof (stays_advance_job config backends checkpoints _ _ j t Hne s Hst) as Hx.
    destruct (advance_job _ _ _ j t s) as [s1 []]; exact Hx. }
  destruct (advance_job config backends checkpoints j t s) as [s1 [o|e]]; cbn [fst] in Hstay;
    destruct Hsafe as (Hs1 & He1 & _); [|by split].
  specialize (IH (note_outcome acc (j_job_id j) o) s1 Hs1 ltac:(by eapply Forall_copy_extends) Hnt
    ltac:(by apply Forall_forall)).
  change (let '(s', r) := foldM (advance_one config backends checkpoints t)
            (note_outcome acc (j_job_id j) o) todo s1 in sound s' /\ grows s s').
  destruct (foldM _ _ todo s1) as [s2 r]. destruct IH. split; [done|by etransitivity].
Qed.

Lemma list_jobs_elem d u sts l j : j ∈ list_jobs d u sts l -> exists id, jobs d !! id = Some j.
Proof.
  unfold list_jobs. intros Hj.
  assert (Hin : forall p n, j ∈ firstn n (py_sort job_order (List.filter p (all_jobs d))) \/
            j ∈ py_sort job_order (List.filter p (all_jobs d)) -> exists id, jobs d !! id = Some j).
  { intros p n Hor.
    assert (Hs : j ∈ py_sort job_order (List.filter p (all_jobs d))).
    { destruct Hor as [Hf|]; [|done]. eapply elem_of_take in Hf as (i & Hf & _).
      by eapply list_elem_of_lookup_2. }
    apply py_sort_elem, list_elem_of_In, List.filter_In in Hs as [Hs _].
    apply list_elem_of_In in Hs. unfold all_jobs in Hs.
    apply list_elem_of_fmap in Hs as ([k j'] & -> & Hm). exists k. by apply elem_of_map_to_list in Hm. }
  destruct sts as [[|st sts]|], l as [n|]; try (by apply elem_of_nil in Hj);
    try (eapply (Hin _ n); by left); eapply (Hin _ 0%nat); by right.
Qed.

Lemma list_jobs_state d u sts j :
  j ∈ list_jobs d u (Some sts) None -> state_in (j_state j) sts = true.
Proof.
  unfold list_jobs. destruct sts as [|st sts]; [by intros ?%elem_of_nil|].
  intros Hs%py_sort_elem%list_elem_of_In. apply List.filter_In in Hs as [_ Hs].
  by apply andb_true_iff in Hs as [_ Hs].
Qed.

Lemma list_jobs_copies d u sts l : db_ok d -> Forall (copy_of d) (list_jobs d u sts l).
Proof.
  intros Hd. apply Forall_forall. intros j Hj. destruct (list_jobs_elem _ _ _ _ _ Hj) as [id Hid].
  by eapply copy_of_row.
Qed.

Lemma list_jobs_nodup d u sts : db_ok d -> NoDup (map j_job_id (list_jobs d u sts None)).
Proof.
  intros Hd. unfold list_jobs.
  assert (Hall : NoDup (map j_job_id (all_jobs d))).
  { unfold all_jobs. rewrite map_map.
    replace (map (fun x => j_job_id (snd x)) (map_to_list (jobs d))) with (map fst (map_to_list (jobs d)));
      [apply NoDup_fst_map_to_list|].
    apply map_ext_in. intros [k j] Hk. cbn. apply list_elem_of_In, elem_of_map_to_list in Hk.
    symmetry. apply (jo_id _ _ _ (ok_jobs _ Hd _ _ Hk)). }
  assert (Hf : forall p, NoDup (map j_job_id (py_sort job_order (List.filter p (all_jobs d))))).
  { intros p. rewrite (py_sort_perm job_order). revert Hall. generalize (all_jobs d). intros l.
    induction l as [|x l IH]; cbn; [done|]. intros [Hx Hl]%NoDup_cons.
    destruct (p x); [|by apply IH]. cbn. constructor; [|by apply IH].
    intros (y & E & Hy)%list_elem_of_fmap. apply Hx. rewrite E. apply list_elem_of_fmap_2.
    apply list_elem_of_In, List.filter_In in Hy as [Hy _]. by apply list_elem_of_In. }
  destruct sts as [[|st sts]|]; [constructor|apply Hf..].
Qed.

Lemma active_live d j : db_ok d -> j ∈ active_jobs d ->
  exists st, state_of d (j_job_id j) = Some st /\ state_in st TERMINAL = false.
Proof.
  intros Hd Hj. pose proof (list_jobs_state _ _ _ _ Hj) as Hst.
  destruct (list_jobs_elem _ _ _ _ _ Hj) as [id Hid].
  exists (j_state j). unfold state_of. rewrite (jo_id _ _ _ (ok_jobs _ Hd _ _ Hid)), Hid.
  split; [done|]. revert Hst. by destruct (j_state j).
Qed.
End SafeScheduler.

Section SafeTick.
Context {W : Type} `{TimeZones} (pow : pow_fun) (config : BrokerConfig) (backends : list (Backend W)).
Context (checkpoints : option (string -> method W (option CheckpointRef))).

Definition step_job (st : step (W := W)) : Job := d_job (fst st).

Lemma safe_decide_one js headroom suspended w j :
  j ∈ js -> safe js (decide_one config backends headroom suspended w j)
              (fun r => [step_job (snd (fst r))]).
Proof.
  intros Hin. unfold decide_one.
  assert (Hret : forall w st b, step_job st = j -> safe js (ret (w, st, b) : M (St W) exn _)
            (fun r : Walk * step * bool => [step_job (snd (fst r))])).
  { intros w' st b E. apply safe_ret. cbn. rewrite E. set_solver. }
  case_match; [by apply Hret|]. case_match; [by apply Hret|].
  apply safe_read; [by destruct (wk_held w !! j_user_id j)|]. intros held.
  case_match; [by apply Hret|]. case_match; [by apply Hret|].
  apply safe_then; [apply safe_choose|]. intros p. destruct (pl_backend p); by apply Hret.
Qed.

Lemma safe_walk_queue {A} js (consume : A -> step -> M (St W) exn A) headroom suspended w queue acc :
  (forall a st js', step_job st ∈ js' -> safe js' (consume a st) none) ->
  Forall (fun jp : Job * Priority => fst jp ∈ js) queue ->
  safe js (walk_queue config backends consume headroom suspended w queue acc) none.
Proof.
  intros Hc. revert w acc. induction queue as [|[j p] rest IH]; intros w acc Hq; cbn; [apply safe_ret_none|].
  inversion_clear Hq as [|? ? Hj Hrest]. cbn in Hj.
  eapply safe_bind; [by apply safe_decide_one|]. intros [[w' st] blocked]. cbn.
  apply safe_then; [apply Hc; left|]. intros acc'.
  assert (Hsub : Forall (fun jp : Job * Priority => fst jp ∈ step_job st :: js) rest)
    by (eapply Forall_impl; [exact Hrest|]; intros; by right).
  destruct blocked.
  - clear IH Hrest. revert acc'. induction rest as [|[k q] rest IHr]; intros acc'; cbn; [apply safe_ret_none|].
    inversion_clear Hsub. apply safe_then; [by apply Hc|]. intros a. by apply IHr.
  - eapply safe_weaken; [apply (IH w' acc' Hrest)|set_solver|done].
Qed.

Lemma order_queue_jobs d t x : x ∈ order_queue pow config (queued_jobs d) d t -> fst x ∈ queued_jobs d.
Proof. intros Hx%py_sort_elem. by apply list_elem_of_fmap in Hx as (j & -> & Hj). Qed.

Lemma safe_decisions {A} js t (consume : A -> step -> M (St W) exn A) acc :
  (forall a st js', step_job st ∈ js' -> safe js' (consume a st) none) ->
  safe js (decisions pow config backends t consume acc) none.
Proof.
  intros Hc. unfold decisions, pool_headroom, pool_committed.
  do 2 (apply safe_read; [done|]; intros ?).
  eapply (safe_bind js _ (map fst)).
  - apply safe_query_ok. intros d Hd _. apply Forall_forall. intros j Hj.
    apply list_elem_of_fmap in Hj as (x & -> & Hx%order_queue_jobs).
    pose proof (list_jobs_copies d None (Some [QUEUED]) None Hd) as Hall.
    eapply Forall_forall in Hall; eauto.
  - intros queue. apply safe_read; [done|]. intros suspended. apply safe_walk_queue; [done|].
    apply Forall_forall. intros x Hx. apply elem_of_app. left. by apply list_elem_of_fmap_2.
Qed.

Lemma safe_dispatch_one acc st js :
  step_job st ∈ js -> safe js (dispatch_one config acc st) none.
Proof.
  intros Hin. unfold dispatch_one. destruct st as [d ob]. cbn in Hin.
  apply safe_read; [done|]. intros g. apply safe_then; [apply safe_record_schedule_observation|]. intros _.
  destruct (d_action d), ob as [b|]; try apply safe_ret_none.
  apply safe_then; [apply safe_attempt, safe_call|]. intros [e|al].
  - apply safe_then; [apply safe_append_log|]. intros _. apply safe_ret_none.
  - eapply safe_bind; [by apply safe_record_attempt|]. intros j.
    apply safe_transition_then; [cbn; set_solver|done|]. intros j'.
    do 2 (apply safe_then; [apply safe_append_log|]; intros _). apply safe_ret_none.
Qed.

Lemma safe_plan_one acc st js : safe (W := W) js (plan_one acc st) none.
Proof.
  unfold plan_one. destruct acc as [[ds cs] ps], st as [d [b|]]; [|apply safe_ret_none].
  apply safe_then; [apply safe_attempt, safe_call|]. intros [e|x]; apply safe_ret_none.
Qed.

Lemma safe_finish_tick js : safe js (finish_tick config backends) none.
Proof.
  unfold finish_tick. apply safe_try; [|intros; apply safe_ret_none].
  apply safe_then; [apply safe_collect|]. intros. apply safe_record.
Qed.

Lemma safe_dispatch js t : safe js (dispatch pow config backends t) none.
Proof.
  unfold dispatch. apply safe_then; [|intros; apply safe_ret_none].
  apply safe_decisions. intros. by apply safe_dispatch_one.
Qed.

(** A tick commits sound images only, whatever the backends do or raise. *)
Lemma safe_tick js : safe js (tick pow config backends checkpoints) none.
Proof.
  unfold tick. apply safe_read; [done|]. intros t s Hs Hc.
  unfold bind at 1. unfold query_ok at 1.
  assert (Hl : Forall (fun j => live j s) (active_jobs (db s))).
  { apply Forall_forall. intros j Hj. by apply active_live; [apply so_db|]. }
  pose proof (advance_all config backends checkpoints t (active_jobs (db s)) (mkAdvanced [] [] [] []) s Hs
    (list_jobs_copies _ _ _ _ (so_db _ Hs)) (list_jobs_nodup _ _ _ (so_db _ Hs)) Hl) as Ha.
  unfold bind at 1. destruct (foldM _ _ (active_jobs (db s)) s) as [s1 [a|e]]; destruct Ha as [H1 H2];
    [|by split_and!].
  assert (Hrest : safe [] (dp <- dispatch pow config backends t;; finish_tick config backends;;;
    ret (mkTickReport t (dp_dispatched dp) (ad_completed a) (ad_failed a) (ad_settled a)
         (dp_pool dp) (dp_capacity dp) (dp_tenant dp) (dp_auth dp) (ad_ceilinged a))) none).
  { apply safe_then; [apply safe_dispatch|]. intros dp.
    apply safe_then; [apply safe_finish_tick|]. intros _. apply safe_ret_none. }
  specialize (Hrest s1 H1 ltac:(constructor)).
  destruct (bind _ _ s1) as [s2 [r|e]]; destruct Hrest as (? & ? & ?); split_and!; try done; by etransitivity.
Qed.

Lemma safe_plan js : safe js (plan pow config backends) none.
Proof.
  unfold plan. apply safe_read; [done|]. intros t. apply safe_then; [|intros [[? ?] ?]; apply safe_ret_none].
  apply safe_decisions. intros. apply safe_plan_one.
Qed.

Lemma safe_reconcile js : safe js (reconcile backends) none.
Proof.
  unfold reconcile. apply safe_read; [done|]. intros ours. apply safe_then; [|intros [? ?]; apply safe_ret_none].
  apply safe_foldM_none. intros acc b. unfold reconcile_backend.
  apply safe_then; [apply safe_call|]. intros. apply safe_query_ok_plain.
Qed.
End SafeTick.

#[export] Hint Resolve safe_tick safe_plan safe_reconcile : safe.
