(* ===== verification/SchedulerStates.v ===== *)
(** * Where a job is after the scheduler has looked at it

    The state machine of [observed]: what each answer of a backend makes of the
    job, the ceiling and the requeue after a preemption included. *)

From S2P Require Import Prelude PyFloat PyDecimal PyFormat PySort PyDict Errors Money Clock States Models Config Tables Store StoreInv StoreSafe StoreProps FairShare Backend Placement Idle Metrics Checkpoint Scheduler SchedulerSafe.
Local Open Scope Z_scope.
Local Open Scope py_scope.

Section States.
Context {W : Type} `{TimeZones} (config : BrokerConfig).

Lemma stays_run {A} id (m : M (St W) exn A) (s s' : St W) o :
  stays id (state_of (db s) id) m -> m s = (s', o) -> state_of (db s') id = state_of (db s) id.
Proof. intros Hm Hr. specialize (Hm s eq_refl). rewrite Hr in Hm. by destruct o. Qed.

(** What a transition does to the states of the jobs. *)
Lemma transition_states j to args (s s' : St W) j' id :
  transition config j to args s = (s', Ok j') ->
  clock s' = clock s /\
  state_of (db s') id = if decide (id = j_job_id j) then Some to else state_of (db s) id.
Proof.
  intros Ht. pose proof (transition_effect config j to args s) as He. rewrite Ht in He.
  destruct He as (_ & _ & _ & Hrow & _). split.
  - revert Ht. unfold transition. destruct (can_transition _ _); [|done]. cbn [negb]. intros Ht.
    do 2 (apply bind_ok in Ht as (? & ? & Hx & Ht); injection Hx as <- _).
    apply bind_ok in Ht as (s1 & u & Hc & Ht). injection Ht as <- _.
    unfold commit_only, transaction in Hc. destruct (obind _ _) as [[d ?]|]; [|done]. by injection Hc as <-.
  - destruct (decide (id = j_job_id j)) as [->|Hne]; [done|].
    eapply stays_run; [|exact Ht]. apply stays_transition. congruence.
Qed.
End States.

Section Observed.
Context {W : Type} `{TimeZones} (config : BrokerConfig) (backends : list (Backend W)).
Context (checkpoints : option (string -> method W (option CheckpointRef))).

(** A bind whose first half leaves the state of a job alone. *)
Lemma stays_then {A B} id (m : M (St W) exn A) (k : A -> M (St W) exn B) (s s' : St W) b :
  stays id (state_of (db s) id) m -> bind m k s = (s', Ok b) ->
  exists s1 a, m s = (s1, Ok a) /\ k a s1 = (s', Ok b) /\ state_of (db s1) id = state_of (db s) id.
Proof.
  intros Hm Hb. apply bind_ok in Hb as (s1 & a & H1 & H2). exists s1, a. split_and!; [done..|].
  by eapply stays_run.
Qed.

Lemma requeue_state j o (s s' : St W) o' :
  requeue config j o s = (s', Ok o') ->
  state_of (db s') (j_job_id j) = Some QUEUED /\ oc_final_state o' = Some QUEUED /\
  oc_preempted o' = true.
Proof.
  unfold requeue. intros Hrun. apply bind_ok in Hrun as (s1 & [] & _ & Hrun).
  apply bind_ok in Hrun as (s2 & j' & Ht & Hrun). injection Hrun as <- <-.
  destruct (transition_states _ _ _ _ _ _ _ (j_job_id j) Ht) as [_ Hst].
  rewrite decide_True in Hst by done. apply transition_returns in Ht as ->. by split_and!.
Qed.

(** A preempted job goes back to the queue, pinned or not. *)
Lemma preempt_state j b ob o (s s' : St W) o' :
  preempt config backends checkpoints j b ob o s = (s', Ok o') ->
  state_of (db s') (j_job_id j) = Some QUEUED /\ oc_final_state o' = Some QUEUED /\
  oc_preempted o' = true.
Proof.
  unfold preempt. intros Hrun. apply bind_ok in Hrun as (s1 & [] & _ & Hrun).
  apply bind_ok in Hrun as (s2 & p & Hp & Hrun).
  apply (returns_collect_checkpoint config checkpoints j) in Hp.
  set (j1 := match p with Some _ => _ | None => _ end) in Hrun.
  assert (H1 : j_job_id j1 = j_job_id j) by (subst j1; destruct p; [by apply (sf_id _ _ Hp)|done]).
  clearbody j1. apply bind_ok in Hrun as (s3 & j2 & H2 & Hrun).
  apply returns_record_preemption, sf_id in H2. apply bind_ok in Hrun as (s4 & j3 & H3 & Hrun).
  apply returns_transition, sf_id in H3.
  assert (E3 : j_job_id j3 = j_job_id j) by congruence.
  match type of Hrun with (if ?c then _ else _) _ = _ => destruct c end.
  2: { apply requeue_state in Hrun. by rewrite E3 in Hrun. }
  apply bind_ok in Hrun as (s5 & [tier|] & _ & Hrun).
  - apply bind_ok in Hrun as (s6 & j4 & H4 & Hrun). apply returns_pin_tier, sf_id in H4.
    apply bind_ok in Hrun as (s7 & n & _ & Hrun). apply requeue_state in Hrun.
    by rewrite H4, E3 in Hrun.
  - apply bind_ok in Hrun as (s6 & [] & _ & Hrun). apply requeue_state in Hrun. by rewrite E3 in Hrun.
Qed.

(** The state a job should be in after an answer, from the state of its row. *)
Definition next_state (before : option JobState) (ceiling : bool) (started : bool) (j : Job)
    (st : BackendStatus) : option JobState :=
  match st with
  | B_COMPLETED => Some COMPLETED
  | B_FAILED | GONE => Some FAILED
  | INTERRUPTED => Some QUEUED
  | READY => if started then before else Some FAILED
  | PENDING | B_RUNNING =>
      if ceiling then Some FAILED
      else
        let target := if bool_decide (st = B_RUNNING) then RUNNING
                      else if resumable j && bool_decide (j_state j = ALLOCATING) then RESUMING
                      else ALLOCATING in
        if bool_decide (target = j_state j) || negb (can_transition (j_state j) target)
        then before else Some target
  end.

(** A transition that returned, and what follows it without writing. *)
Lemma transition_last {B} j to args (k : Job -> M (St W) exn B) (s s' : St W) o :
  (forall j', reads (k j')) -> (j' <- transition config j to args;; k j') s = (s', Ok o) ->
  state_of (db s') (j_job_id j) = Some to.
Proof.
  intros Hk Hrun. apply bind_ok in Hrun as (s1 & j' & Ht & Hrun).
  destruct (transition_states _ _ _ _ _ _ _ (j_job_id j) Ht) as [_ Hst]. rewrite decide_True in Hst by done.
  pose proof (Hk j' s1) as Hr. rewrite Hrun in Hr. cbn in Hr. by subst s1.
Qed.

(** Decide the comparisons of constants in a run. *)
Ltac decide_in Hrun :=
  repeat match type of Hrun with context [bool_decide ?P] =>
    first [rewrite (bool_decide_eq_true_2 P) in Hrun by done
          |rewrite (bool_decide_eq_false_2 P) in Hrun by done] end.

(** After the ceiling check, for an answer that keeps the machine. *)
Lemma keep_running j b h t ob o target before (s s' : St W) o' :
  before = state_of (db s) (j_job_id j) ->
  (ceiling <- lift_outcome (at_ceiling config j t);;
   if ceiling then
     call (b_terminate b h "budget ceiling reached");;;
     j <- drain_logs config j b;;
     transition config j FAILED (clearing ("stopped at its " +:+ fmt (reserved j) (j_currency j)
       +:+ " ceiling after " +:+ f_fixed 2 (elapsed_hours j t) +:+ "h"));;;
     ret {| o with oc_hit_ceiling := true; oc_final_state := Some FAILED |}
   else if bool_decide (target = j_state j) then ret o
   else if negb (can_transition (j_state j) target) then
     append_log config (j_job_id j) "broker"
       ("ignored stale " +:+ status_str (ob_status ob) +:+ " from " +:+ b_name b
        +:+ "; job is already " +:+ state_str (j_state j));;;
     ret o
   else
     j' <- transition config j target
       (mkTransitionArgs (Some (str_or (ob_detail ob) ("backend reported " +:+ status_str (ob_status ob))))
          [] None None (ob_exit_code ob) false);;
     ret {| o with oc_final_state := Some (j_state j') |}) s = (s', Ok o') ->
  exists ceiling, at_ceiling config j t = Ok ceiling /\
    state_of (db s') (j_job_id j) =
      if ceiling then Some FAILED
      else if bool_decide (target = j_state j) || negb (can_transition (j_state j) target)
           then before else Some target.
Proof.
  intros Hbefore Hrun. apply bind_ok in Hrun as (s1 & ceiling & Hc & Hrun). injection Hc as <- Hc.
  exists ceiling. split; [done|]. destruct ceiling.
  - apply bind_ok in Hrun as (s1 & [] & _ & Hrun). apply bind_ok in Hrun as (s2 & j1 & Hd & Hrun).
    apply returns_drain_logs, sf_id in Hd. apply transition_last in Hrun; [|by intros].
    by rewrite Hd in Hrun.
  - destruct (bool_decide _); cbn [orb]; [by injection Hrun as <- _|].
    destruct (can_transition _ _); cbn [negb] in *.
    + by apply transition_last in Hrun.
    + apply (stays_then (j_job_id j)) in Hrun as (s1 & [] & _ & Hrun & E1);
        [|apply stays_append_log]. injection Hrun as <- _. by rewrite Hbefore.
Qed.

(** An answer that ends the job. *)
Lemma end_job j b h why target args o (s s' : St W) o' :
  (call (b_terminate b h why);;;
   j' <- transition config j target args;;
   ret {| o with oc_final_state := Some (j_state j') |}) s = (s', Ok o') ->
  state_of (db s') (j_job_id j) = Some target.
Proof.
  intros Hrun. apply bind_ok in Hrun as (s1 & [] & _ & Hrun). by apply transition_last in Hrun.
Qed.

Lemma observed_state j b h t ob o (s s' : St W) o' :
  observed config backends checkpoints j b h t ob o s = (s', Ok o') ->
  exists ceiling started,
    (ob_status ob = PENDING \/ ob_status ob = B_RUNNING -> at_ceiling config j t = Ok ceiling) /\
    (ob_status ob = READY -> started = is_ok (snd (call (b_start b h j) s))) /\
    state_of (db s') (j_job_id j)
    = next_state (state_of (db s) (j_job_id j)) ceiling started j (ob_status ob).
Proof.
  unfold observed. intros Hrun. destruct (ob_status ob) eqn:Hst; cbn [state_for] in Hrun; decide_in Hrun;
    try change (state_in COMPLETED TERMINAL) with true in Hrun;
    try change (state_in FAILED TERMINAL) with true in Hrun;
    try change (state_in RUNNING TERMINAL) with false in Hrun;
    try change (state_in ALLOCATING TERMINAL) with false in Hrun; cbn [andb] in Hrun.
  - rewrite <- Hst in Hrun. apply (keep_running j b h t ob o _ _ _ _ _ eq_refl) in Hrun as (c & Hc & Hs).
    exists c, true. split_and!; [done|done|]. exact Hs.
  - apply bind_ok in Hrun as (s1 & [e|u] & Ha & Hrun).
    + exists true, false. split; [naive_solver|]. split.
      * intros _. unfold attempt, try_catch, bind in Ha. by destruct (call _ s) as [s2 [a|e']].
      * apply bind_ok in Hrun as (s2 & [] & _ & Hrun). by apply end_job in Hrun.
    + exists true, true. split; [naive_solver|]. split.
      { intros _. unfold attempt, try_catch, bind in Ha. destruct (call _ s) as [s2 [a|e']]; [done|].
        by destruct (is_backend_error e'). }
      cbn [next_state].
      apply (stays_then (j_job_id j)) in Hrun as (s2 & [] & _ & Hrun & E2); [|apply stays_append_log].
      injection Hrun as <- _. rewrite E2. eapply stays_run; [|exact Ha].
      apply stays_attempt, stays_call.
  - rewrite <- Hst in Hrun. apply (keep_running j b h t ob o _ _ _ _ _ eq_refl) in Hrun as (c & Hc & Hs).
    exists c, true. split_and!; [done|done|]. exact Hs.
  - exists true, true. split; [naive_solver|]. split; [done|]. by apply end_job in Hrun.
  - exists true, true. split; [naive_solver|]. split; [done|]. by apply end_job in Hrun.
  - exists true, true. split; [naive_solver|]. split; [done|]. by apply preempt_state in Hrun as [? _].
  - exists true, true. split; [naive_solver|]. split; [done|]. by apply end_job in Hrun.
Qed.

(** What reading the logs may change of the job in hand. *)
Lemma drain_logs_job j b : returns (W := W)
  (fun j' => exists n, j' = {| j with j_logs_fetched := n |}) (drain_logs config j b).
Proof.
  unfold drain_logs. apply returns_bind. intros [e|[|l ls]].
  - apply returns_bind. intros _. apply returns_ret. exists (j_logs_fetched j). by destruct j.
  - apply returns_ret. exists (j_logs_fetched j). by destruct j.
  - apply returns_bind. intros n. apply returns_ret. by exists n.
Qed.

(** What [advance_job] has done and seen when it comes to act on an answer: the
    cost settled, the backend polled, its logs read and its usage sampled. *)
Record looked (j : Job) (b : Backend W) (handle : string) (t : Z) (s : St W)
    (ob : Observation) (j1 : Job) (s4 : St W) : Prop := {
  lk_steps : exists settled s1 s2 s3,
    settle_accrued config j t s = (s1, Ok settled) /\
    call (b_poll b handle) s1 = (s2, Ok ob) /\
    drain_logs config j b s2 = (s3, Ok j1) /\
    sample_job config j1 b s3 = (s4, Ok tt)
}.

(** C4: the state machine of one look at a running job.  A pending cancellation
    is carried out, whatever the machine says.  Otherwise the answer decides: a
    finished or lost machine ends the job, even at the ceiling; an interrupted one
    sends it back to the queue; a ready one leaves it as it is, unless it cannot
    start; and while it runs or waits it is stopped when its cost has reached the
    reservation, else follows the answer along a legal edge, a stale answer
    changing nothing. *)
Theorem advance_state j b handle t (s s' : St W) o :
  backend backends (default "" (j_backend j)) = Some b -> j_backend_handle j = Some handle ->
  advance_job config backends checkpoints j t s = (s', Ok o) ->
  (truthy (j_cancel_requested j) = true -> state_of (db s') (j_job_id j) = Some CANCELLED) /\
  (truthy (j_cancel_requested j) = false -> exists ob j1 s4 ceiling started,
     looked j b handle t s ob j1 s4 /\
     (ob_status ob = PENDING \/ ob_status ob = B_RUNNING -> at_ceiling config j t = Ok ceiling) /\
     (ob_status ob = READY -> started = is_ok (snd (call (b_start b handle j1) s4))) /\
     state_of (db s') (j_job_id j)
     = next_state (state_of (db s) (j_job_id j)) ceiling started j (ob_status ob)).
Proof.
  intros Hb Hh. unfold advance_job. rewrite Hb, Hh. intros Hrun.
  apply (stays_then (j_job_id j)) in Hrun as (s1 & settled & Hset & Hrun & E1); [|apply stays_settle_accrued].
  assert (Hpoll : forall o0, (ob <- call (b_poll b handle);; j <- drain_logs config j b;;
      sample_job config j b;;; observed config backends checkpoints j b handle t ob o0) s1 = (s', Ok o) ->
    exists ob j1 s4 ceiling started, looked j b handle t s ob j1 s4 /\
     (ob_status ob = PENDING \/ ob_status ob = B_RUNNING -> at_ceiling config j t = Ok ceiling) /\
     (ob_status ob = READY -> started = is_ok (snd (call (b_start b handle j1) s4))) /\
     state_of (db s') (j_job_id j)
     = next_state (state_of (db s) (j_job_id j)) ceiling started j (ob_status ob)).
  { intros o0 Hr. apply (stays_then (j_job_id j)) in Hr as (s2 & ob & Hp & Hr & E2); [|apply stays_call].
    apply (stays_then (j_job_id j)) in Hr as (s3 & j1 & Hd & Hr & E3); [|apply stays_drain_logs].
    pose proof Hd as Hd'. apply drain_logs_job in Hd' as [n ->].
    apply (stays_then (j_job_id j)) in Hr as (s4 & [] & Hsm & Hr & E4); [|apply stays_sample_job].
    apply observed_state in Hr as (c & st & Hc & Hf & Hs).
    exists ob, {| j with j_logs_fetched := n |}, s4, c, st.
    split_and!; [constructor; by exists settled, s1, s2, s3|exact Hc|exact Hf|].
    rewrite <- E1, <- E2, <- E3, <- E4. exact Hs. }
  destruct (j_cancel_requested j) as [[|a w]|]; cbn [truthy].
  - split; [done|]. intros _. by eapply Hpoll.
  - split; [|done]. intros _. apply bind_ok in Hrun as (s2 & [] & _ & Hrun).
    apply bind_ok in Hrun as (s3 & j1 & Hd & Hrun). apply drain_logs_job in Hd as [n ->].
    by apply transition_last in Hrun.
  - split; [done|]. intros _. by eapply Hpoll.
Qed.
End Observed.
