(* ===== verification/SchedulerProps.v ===== *)
(** * Theorems on the scheduler's policy

    [decisions] is run by a consumer; [traced] adds to a consumer the list of the
    steps it was given, so that one theorem speaks of the dry run and of the tick
    alike.  Then: a dry run changes nothing, what a tick charges stays under the
    job's ceiling, and reconciliation reports exactly the differences. *)

From S2P Require Import Prelude PyFloat PyDecimal PyFormat PySort PyDict Errors Money Clock States Models Config Tables Store StoreInv StoreSafe FairShare Backend Placement Idle Metrics Checkpoint Scheduler SchedulerSafe Fixture.
Local Open Scope Z_scope.
Local Open Scope py_scope.

Section Policy.
Context {W : Type} `{TimeZones} (pow : pow_fun) (config : BrokerConfig) (backends : list (Backend W)).

Abbreviation step := (step (W := W)).

Definition traced {A} (consume : A -> step -> M (St W) exn A) (acc : A * list step) (st : step)
  : M (St W) exn (A * list step) :=
  a <- consume (fst acc) st;; ret (a, snd acc ++ [st]).

Definition st_job (st : step) : Job := d_job (fst st).
Definition is_dispatch (st : step) : bool := bool_decide (d_action (fst st) = DISPATCH).

(** The amounts the steps of a trace commit in one currency. *)
Definition dispatches (c : Currency) (tr : list step) : list step :=
  List.filter (fun st => is_dispatch st && bool_decide (j_currency (st_job st) = c)) tr.
Definition committed_in (c : Currency) (tr : list step) : Z :=
  zsum (fun st => j_reserved (st_job st)) (dispatches c tr).
Definition dispatches_of (u : string) (tr : list step) : Z :=
  Z.of_nat (length (List.filter (fun st => is_dispatch st && String.eqb (j_user_id (st_job st)) u) tr)).

Lemma dispatches_snoc c tr st :
  dispatches c (tr ++ [st]) = dispatches c tr
    ++ (if is_dispatch st && bool_decide (j_currency (st_job st) = c) then [st] else []).
Proof. unfold dispatches. rewrite List.filter_app. reflexivity. Qed.

(** What the policy promises of the steps on a queue: [headroom] is what the pool has
    left, [held] how many machines each member holds, when the pass begins. *)
Record policy (headroom : Currency -> Decimal) (suspended : gmap string string) (held : string -> Z)
    (tr : list step) : Prop := {
  po_pool : forall c, dispatches c tr <> [] -> dec_leb (of_cents (committed_in c tr)) (headroom c) = true;
  po_head : forall i k st st', tr !! i = Some st -> tr !! k = Some st' -> (i < k)%nat ->
    d_action (fst st) = BLOCKED_POOL -> j_currency (st_job st') = j_currency (st_job st) ->
    d_action (fst st') <> DISPATCH;
  po_member : forall st, st ∈ tr -> is_dispatch st = true -> suspended !! j_user_id (st_job st) = None;
  po_tenant : forall u, 0 < dispatches_of u tr -> held u + dispatches_of u tr <= max_running_jobs_per_user config
}.

(** What a walk remembers of the steps so far, the database being [d] now. *)
Record walk_ok (headroom : Currency -> Decimal) (suspended : gmap string string) (held : string -> Z)
    (d : DB) (w : Walk) (tr : list step) : Prop := {
  wo_committed : forall c, wk_committed w c
    = (if decide (dispatches c tr = []) then ZERO else of_cents (committed_in c tr));
  wo_blocked : forall st, st ∈ tr -> d_action (fst st) = BLOCKED_POOL ->
    j_currency (st_job st) ∈ wk_blocked w;
  wo_held : forall u, match wk_held w !! u with
    | Some n => n = held u + dispatches_of u tr
    | None => dispatches_of u tr = 0 /\ running_count d u = held u
    end;
  wo_policy : policy headroom suspended held tr
}.

Lemma dec_add_zero_cents c : dec_add ZERO (of_cents c) = of_cents c.
Proof. unfold dec_add, ZERO, dzero, of_cents, common, at_exp. cbn. by rewrite Z.mul_1_r. Qed.

(** What a member holds, when the walk comes to a job of theirs. *)
Definition held_now (w : Walk) (j : Job) (d : DB) : Z :=
  match wk_held w !! j_user_id j with Some n => n | None => running_count d (j_user_id j) end.

(** The outcome of one decision. *)
Lemma decide_one_spec headroom suspended w j s s' w' st b :
  decide_one config backends headroom suspended w j s = (s', Ok (w', st, b)) ->
  st_job st = j /\
  (d_action (fst st) <> DISPATCH /\ wk_committed w' = wk_committed w /\ snd st = None /\
   (forall c, c ∈ wk_blocked w -> c ∈ wk_blocked w') /\
   (d_action (fst st) = BLOCKED_POOL -> j_currency j ∈ wk_blocked w') /\
   (wk_held w' = wk_held w \/ wk_held w' = <[j_user_id j := held_now w j (db s)]> (wk_held w))
   \/
   d_action (fst st) = DISPATCH /\ suspended !! j_user_id j = None /\ j_currency j ∉ wk_blocked w /\
   held_now w j (db s) < max_running_jobs_per_user config /\
   wk_held w' = <[j_user_id j := held_now w j (db s) + 1]> (<[j_user_id j := held_now w j (db s)]> (wk_held w)) /\
   dec_leb (reserved j) (dec_sub (headroom (j_currency j)) (wk_committed w (j_currency j))) = true /\
   wk_committed w' = set_at (wk_committed w) (j_currency j)
     (dec_add (wk_committed w (j_currency j)) (reserved j)) /\ wk_blocked w' = wk_blocked w).
Proof.
  unfold decide_one. destruct (suspended !! j_user_id j) as [why|] eqn:Hsus.
  { intros [= _ <- <- _]. split; [done|]. left. split_and!; try done. by left. }
  case_bool_decide as Hbl.
  { intros [= _ <- <- _]. split; [done|]. left. split_and!; try done. by left. }
  intros Hb. apply bind_ok in Hb as (s1 & held & Hheld & Hb).
  assert (held = held_now w j (db s)) as ->.
  { unfold held_now. destruct (wk_held w !! j_user_id j) as [k|]; by injection Hheld as <- <-. }
  destruct (Z.leb_spec (max_running_jobs_per_user config) (held_now w j (db s))) as [Hge|Hlt].
  { injection Hb as _ <- <- _. split; [done|]. left. split_and!; try done. by right. }
  cbn [wk_committed] in Hb.
  destruct (dec_ltb _ (reserved j)) eqn:Hpool.
  { injection Hb as _ <- <- _. split; [done|]. left. cbn. split_and!; try done.
    - intros c Hc. by right.
    - intros _. left.
    - by right. }
  apply bind_ok in Hb as (s2 & p & _ & Hb). destruct (pl_backend p) as [bk|]; injection Hb as _ <- <- _.
  - split; [done|]. right. cbn. split_and!; try done.
    rewrite dec_ltb_leb in Hpool. by apply negb_false_iff in Hpool.
  - split; [done|]. left. split_and!; try done. by right.
Qed.

Lemma lookup_snoc {A} (l : list A) x i y :
  (l ++ [x]) !! i = Some y -> l !! i = Some y \/ (i = length l /\ y = x).
Proof.
  intros Hl. destruct (decide (i < length l)%nat).
  - rewrite lookup_app_l in Hl by done. by left.
  - rewrite lookup_app_r in Hl by lia. apply list_lookup_singleton_Some in Hl as [Hi ->]. right.
    split; [lia|done].
Qed.

Lemma dispatches_of_snoc u tr st :
  dispatches_of u (tr ++ [st])
  = dispatches_of u tr + (if is_dispatch st && String.eqb (j_user_id (st_job st)) u then 1 else 0).
Proof.
  unfold dispatches_of. rewrite List.filter_app, length_app. cbn [List.filter].
  destruct (_ && _); cbn [length]; lia.
Qed.

(** ** What a member holds, over the steps of a pass *)

(** A consumer changes the state of no job but the one it is told to dispatch. *)
Class MovesOwn {A} (consume : A -> step -> M (St W) exn A) : Prop :=
  moves_own acc st s : sound s -> copy_of (db s) (st_job st) ->
    let s' := fst (consume acc st s) in
    sound s' /\ grows s s' /\
    forall id, id <> j_job_id (st_job st) \/ d_action (fst st) <> DISPATCH -> state_of (db s') id = state_of (db s) id.

Definition counted (u : string) (kv : string * Job) : Prop :=
  String.eqb (j_user_id (snd kv)) u && state_in (j_state (snd kv)) ACTIVE = true.

#[local] Instance counted_dec u kv : base.Decision (counted u kv).
Proof. unfold counted. apply _. Defined.

Lemma running_count_size d u : running_count d u = Z.of_nat (size (dom (filter (counted u) (jobs d)))).
Proof.
  unfold running_count, count_in_states, all_jobs. rewrite size_dom. f_equal.
  assert (E : forall l : list (string * Job), length (List.filter (fun j => String.eqb (j_user_id j) u && state_in (j_state j) ACTIVE)
    (map snd l)) = length (filter (counted u) l)).
  { induction l as [|kv l IH]; [done|]. cbn [map List.filter]. rewrite filter_cons.
    destruct (decide (counted u kv)) as [Hk|Hk]; unfold counted in Hk; [rewrite Hk; cbn; by rewrite IH|].
    apply not_true_is_false in Hk. by rewrite Hk. }
  rewrite E, map_filter_alt, map_size_list_to_map; [done|].
  eapply sublist_NoDup; [apply (NoDup_fst_map_to_list (jobs d))|apply (fmap_sublist fst), sublist_filter].
Qed.

Lemma running_count_moves d d' u : extends d d' ->
  (forall id, state_of d' id = state_of d id \/ exists j, jobs d !! id = Some j /\ j_user_id j <> u) ->
  running_count d' u = running_count d u.
Proof.
  intros He Hst. rewrite !running_count_size. do 2 f_equal. apply set_eq. intros id. rewrite !elem_of_dom.
  assert (Hin : forall e, is_Some (filter (counted u) (jobs e) !! id) <->
    exists j, jobs e !! id = Some j /\ j_user_id j = u /\ state_in (j_state j) ACTIVE = true).
  { intros e. split.
    - intros [j [Hj [E%String.eqb_eq Ha]%andb_true_iff]%map_lookup_filter_Some]. by exists j.
    - intros (j & Hj & E & Ha). exists j. apply map_lookup_filter_Some. split; [done|]. apply andb_true_iff.
      split; [by apply String.eqb_eq|done]. }
  rewrite !Hin. destruct (jobs d !! id) as [j|] eqn:Hj.
  - destruct (ex_jobs _ _ He _ _ Hj) as (j' & Hj' & Hf). pose proof (sf_user _ _ Hf) as Eu. rewrite Hj'.
    destruct (Hst id) as [E|(k & Hk & Hne)].
    + unfold state_of in E. rewrite Hj, Hj' in E. injection E as E.
      split; intros (x & [= <-] & Hu & Ha); eexists; (split; [done|]); split; congruence.
    + rewrite Hj in Hk. injection Hk as <-. split; intros (x & [= <-] & Hu & Ha); congruence.
  - destruct (Hst id) as [E|(k & Hk & _)]; [|by rewrite Hj in Hk].
    unfold state_of in E. rewrite Hj in E. destruct (jobs d' !! id); naive_solver.
Qed.

Lemma moves_own_count {A} (consume : A -> step -> M (St W) exn A) `{!MovesOwn consume} acc st s u :
  sound s -> copy_of (db s) (st_job st) -> u <> j_user_id (st_job st) \/ d_action (fst st) <> DISPATCH ->
  running_count (db (fst (consume acc st s))) u = running_count (db s) u.
Proof.
  intros Hs Hc Hu. destruct (moves_own acc st s Hs Hc) as (_ & [He _] & Hst). apply running_count_moves; [done|].
  intros id. destruct Hu as [Hu|Hu]; [|left; apply Hst; by right].
  destruct (decide (id = j_job_id (st_job st))) as [->|]; [|left; apply Hst; by left].
  right. destruct Hc as (row & Hrow & Hf). exists row. split; [done|]. by rewrite <- (sf_user _ _ Hf).
Qed.

(** Deciding writes nothing. *)
Lemma decide_one_db headroom suspended w j (s : St W) :
  db (fst (decide_one config backends headroom suspended w j s)) = db s.
Proof.
  assert (Hcall : forall B (m : method W B), keeps (fun x => db x = db s) (call m)).
  { intros B m s0 Hs0. pose proof (call_db m s0) as (Hd & _). destruct (call m s0) as [s1 [?|?]]; cbn in *; congruence. }
  assert (Hk : keeps (fun x => db x = db s) (decide_one config backends headroom suspended w j));
    [|specialize (Hk s eq_refl); by destruct (decide_one _ _ _ _ _ _ s) as [? [?|?]]].
  unfold decide_one. case_match; [apply keeps_ret|]. case_match; [apply keeps_ret|].
  apply keeps_bind; [destruct (wk_held w !! j_user_id j); [apply keeps_ret|by apply keeps_reads]|]. intros held.
  case_match; [apply keeps_ret|]. case_match; [apply keeps_ret|].
  apply keeps_bind; [|intros p; case_match; apply keeps_ret]. unfold choose. apply keeps_bind; [apply keeps_lift|]. intros g.
  apply keeps_bind; [|intros [sk|p]; [case_match; [|case_match]|]; apply keeps_ret].
  generalize (@nil (string * string)). induction (order_for config j) as [|tier order IH]; intros sk; cbn; [apply keeps_ret|].
  apply keeps_bind; [|intros [sk'|p]; [apply IH|apply keeps_ret]]. revert sk.
  induction (in_tier backends tier) as [|b bs IHb]; intros sk; cbn; [apply keeps_ret|]. case_match; [apply IHb|].
  apply keeps_bind; [apply Hcall|]. intros []; [|apply IHb]. apply keeps_bind; [apply Hcall|]. intros free.
  case_match; [apply IHb|apply keeps_ret].
Qed.

Section Walk.
Context (headroom : Currency -> Decimal) (suspended : gmap string string) (held : string -> Z).
Abbreviation policy := (policy headroom suspended held).
Abbreviation walk_ok := (walk_ok headroom suspended held).

(** A step that dispatches nothing keeps the promises. *)
Lemma policy_blocked tr st :
  policy tr -> d_action (fst st) <> DISPATCH ->
  policy (tr ++ [st]).
Proof.
  intros [Hp Hh Hm Ht] Hst.
  assert (Hd : is_dispatch st = false) by (by apply bool_decide_eq_false).
  constructor.
  - intros c. unfold committed_in. rewrite dispatches_snoc, Hd. cbn. rewrite app_nil_r. apply Hp.
  - intros i k x y [Hi|[-> ->]]%lookup_snoc [Hk|[-> ->]]%lookup_snoc Hlt.
    + by eapply Hh.
    + done.
    + apply lookup_lt_Some in Hk. destruct (Nat.lt_asymm _ _ Hk Hlt).
    + destruct (Nat.lt_irrefl _ Hlt).
  - intros x [Hx|[->|[]%elem_of_nil]%elem_of_cons]%elem_of_app; [by apply Hm|congruence].
  - intros u. rewrite dispatches_of_snoc, Hd. cbn. specialize (Ht u). lia.
Qed.

Lemma held_now_value d w tr j : walk_ok d w tr ->
  held_now w j d = held (j_user_id j) + dispatches_of (j_user_id j) tr.
Proof.
  intros Hw. pose proof (wo_held _ _ _ _ _ _ Hw (j_user_id j)) as Hh. unfold held_now.
  destruct (wk_held w !! j_user_id j); [exact Hh|]. destruct Hh as [-> ->]. lia.
Qed.

Lemma walk_ok_step w tr j s s' w' st b :
  walk_ok (db s) w tr ->
  decide_one config backends headroom suspended w j s = (s', Ok (w', st, b)) ->
  st_job st = j /\ walk_ok (db s) w' (tr ++ [st]) /\
  (d_action (fst st) = DISPATCH -> is_Some (wk_held w' !! j_user_id j)).
Proof.
  intros Hw Hdec. pose proof (held_now_value _ _ _ j Hw) as Hnow. destruct Hw as [Hc Hb Hh Hp].
  apply decide_one_spec in Hdec as [Hj Hcase]. split; [done|]. rewrite Hnow in Hcase.
  destruct Hcase as [(Ha & Hc' & _ & Hmono & Hpool & Hheld)
                    |(Ha & Hsus & Hnb & Hlt & Hself & Hle & Hc' & Hb')].
  - assert (Hd : is_dispatch st = false) by (by apply bool_decide_eq_false). split; [|done]. constructor.
    + intros c. unfold committed_in. rewrite dispatches_snoc, Hd, Hc'. cbn. rewrite app_nil_r. apply Hc.
    + intros x [Hx|[->|[]%elem_of_nil]%elem_of_cons]%elem_of_app Hax; [by apply Hmono, Hb|].
      rewrite Hj. by apply Hpool.
    + intros u. rewrite dispatches_of_snoc, Hd. cbn. rewrite Z.add_0_r. specialize (Hh u).
      destruct Hheld as [->| ->]; [done|].
      destruct (decide (j_user_id j = u)) as [<-|]; [|by rewrite lookup_insert_ne].
      by rewrite lookup_insert_eq.
    + by apply policy_blocked.
  - assert (Hd : is_dispatch st = true) by (by apply bool_decide_eq_true).
    assert (Hcom : dec_add (wk_committed w (j_currency j)) (reserved j)
      = of_cents (committed_in (j_currency j) (tr ++ [st]))).
    { unfold committed_in, reserved. rewrite dispatches_snoc, Hd, Hj, bool_decide_eq_true_2 by done.
      cbn [andb]. rewrite zsum_app, Hc. cbn [zsum]. rewrite Hj.
      destruct (decide _) as [->|]; [rewrite dec_add_zero_cents; f_equal; cbn; lia|].
      rewrite dec_add_cents. unfold committed_in. f_equal. lia. }
    assert (Hp' : policy (tr ++ [st])).
    { destruct Hp as [P1 P2 P3 P4]. constructor.
      - intros c. destruct (decide (c = j_currency j)) as [->|Hne].
        + intros _. rewrite <- Hcom, dec_add_comm. by rewrite dec_leb_sub in Hle.
        + unfold committed_in. rewrite dispatches_snoc, Hj, (bool_decide_eq_false_2 (j_currency j = c)) by done.
          rewrite andb_false_r, app_nil_r. apply P1.
      - intros i k x y [Hi|[-> ->]]%lookup_snoc [Hk|[-> ->]]%lookup_snoc Hik.
        + by eapply P2.
        + intros Hax Hcur. exfalso. apply Hnb. rewrite Hj in Hcur. rewrite Hcur.
          apply Hb; [by eapply list_elem_of_lookup_2|done].
        + apply lookup_lt_Some in Hk. destruct (Nat.lt_asymm _ _ Hk Hik).
        + destruct (Nat.lt_irrefl _ Hik).
      - intros x [Hx|[->|[]%elem_of_nil]%elem_of_cons]%elem_of_app; [by apply P3|]. by rewrite Hj.
      - intros u. rewrite dispatches_of_snoc, Hd, Hj. cbn. destruct (String.eqb_spec (j_user_id j) u) as [<-|].
        + intros _. lia.
        + rewrite Z.add_0_r. apply P4. }
    split; [|intros _; rewrite Hself, lookup_insert_eq; by eexists]. constructor; [| | |done].
    + intros c. rewrite Hc'. unfold set_at. destruct (decide (c = j_currency j)) as [->|Hne].
      * rewrite Hcom, dispatches_snoc, Hd, Hj, bool_decide_eq_true_2 by done. cbn.
        destruct (decide _) as [E|]; [by destruct (dispatches _ tr)|done].
      * unfold committed_in. rewrite dispatches_snoc, Hj, (bool_decide_eq_false_2 (j_currency j = c)) by done.
        rewrite andb_false_r, app_nil_r. apply Hc.
    + intros x [Hx|[->|[]%elem_of_nil]%elem_of_cons]%elem_of_app Hax; [rewrite Hb'; by apply Hb|congruence].
    + intros u. rewrite dispatches_of_snoc, Hd, Hj. cbn.
      destruct (String.eqb_spec (j_user_id j) u) as [<-|Hne].
      * rewrite Hself, lookup_insert_eq. lia.
      * rewrite Hself, !lookup_insert_ne, Z.add_0_r by done. apply Hh.
Qed.

Lemma walk_ok_empty d : (forall u, held u = running_count d u) -> walk_ok d empty_walk [].
Proof.
  intros He. constructor; [done|by intros ? ?%elem_of_nil| |].
  - intros u. cbn. by rewrite lookup_empty.
  - constructor; [done|by intros ? ? ? ? ?|by intros ? ?%elem_of_nil|]. intros u. by intros ?%Z.lt_irrefl.
Qed.

(** The consumer has dealt with a step. *)
Lemma walk_ok_consumed {A} (consume : A -> step -> M (St W) exn A) `{!MovesOwn consume} w tr acc st s :
  sound s -> copy_of (db s) (st_job st) -> walk_ok (db s) w tr ->
  (d_action (fst st) = DISPATCH -> is_Some (wk_held w !! j_user_id (st_job st))) ->
  walk_ok (db (fst (consume acc st s))) w tr.
Proof.
  intros Hs Hc [W1 W2 W3 W4] Hd. constructor; try done. intros u. specialize (W3 u).
  destruct (wk_held w !! u) eqn:Hu; [done|]. destruct W3 as [H0 <-]. split; [done|].
  apply moves_own_count; [done..|]. destruct (decide (d_action (fst st) = DISPATCH)) as [Ha|Ha]; [|by right].
  left. intros ->. rewrite Hu in Hd. by destruct (Hd Ha).
Qed.

(** The rest of the queue, once every currency is blocked. *)
Lemma tail_traced {A} (consume : A -> step -> M (St W) exn A) why
    (rest : list (Job * Priority)) tr acc s s' a :
  let steps := map (fun jp => blocked_step (fst jp) BLOCKED_POOL why) rest in
  policy tr -> foldM consume acc steps s = (s', Ok a) ->
  exists tr', foldM (traced consume) (acc, tr) steps s = (s', Ok (a, tr')) /\
    policy tr' /\ map st_job tr' = map st_job tr ++ map fst rest.
Proof.
  cbn zeta. revert tr acc s. induction rest as [|[j p] rest IH]; intros tr acc s Hp; cbn.
  - intros [= <- <-]. exists tr. by rewrite app_nil_r.
  - intros Hrun. apply bind_ok in Hrun as (s1 & acc' & Hcons & Hrun).
    destruct (IH (tr ++ [blocked_step j BLOCKED_POOL why]) acc' s1) as (tr' & Hr & Hp' & Hm);
      [by apply policy_blocked|done|].
    exists tr'. split_and!; [|done|by rewrite Hm, map_app, <- app_assoc].
    unfold bind, traced at 1. cbn. unfold bind. by rewrite Hcons.
Qed.

(** The steps given to a consumer along a walk. *)
Lemma walk_traced {A} (consume : A -> step -> M (St W) exn A) `{!MovesOwn consume} queue w tr acc s s' a :
  sound s -> Forall (copy_of (db s)) (map fst queue) -> walk_ok (db s) w tr ->
  walk_queue config backends consume headroom suspended w queue acc s = (s', Ok a) ->
  exists tr', walk_queue config backends (traced consume) headroom suspended w queue (acc, tr) s
              = (s', Ok (a, tr')) /\
    policy tr' /\ map st_job tr' = map st_job tr ++ map fst queue.
Proof.
  revert w tr acc s. induction queue as [|[j p] rest IH]; intros w tr acc s Hs Hq Hw; cbn.
  - intros [= <- <-]. exists tr. rewrite app_nil_r. split_and!; [done|apply Hw|done].
  - intros Hrun. apply bind_ok in Hrun as (s1 & [[w' st] blocked] & Hdec & Hrun).
    apply bind_ok in Hrun as (s2 & acc' & Hcons & Hrun).
    destruct (walk_ok_step _ _ _ _ _ _ _ _ Hw Hdec) as (Hj & Hw' & Hd).
    cbn in Hq. apply Forall_cons in Hq as [Hqj Hq]. rewrite <- Hj in Hqj, Hd.
    pose proof (safe_decide_one config backends [j] headroom suspended w j ltac:(left) s Hs) as Hsafe.
    pose proof (decide_one_db headroom suspended w j s) as Hdb. rewrite Hdec in Hsafe, Hdb. cbn in Hdb.
    rewrite <- Hdb in Hqj, Hq, Hw'. destruct Hsafe as (Hs1 & _ & _); [rewrite <- Hj, <- Hdb; by repeat constructor|].
    assert (Hmap : map st_job (tr ++ [st]) = map st_job tr ++ [j]) by (by rewrite map_app; cbn; rewrite Hj).
    assert (Hstep : traced consume (acc, tr) st s1 = (s2, Ok (acc', tr ++ [st])))
      by (unfold traced, bind; cbn; by rewrite Hcons).
    unfold bind. rewrite Hdec, Hstep. destruct blocked.
    + destruct (tail_traced consume _ _ _ _ _ _ _ (wo_policy _ _ _ _ _ _ Hw') Hrun) as (tr' & Hr & Hp & Hm).
      exists tr'. split_and!; [exact Hr|exact Hp|]. by rewrite Hm, Hmap, <- app_assoc.
    + pose proof (walk_ok_consumed consume w' (tr ++ [st]) acc st s1 Hs1 Hqj Hw' Hd) as Hw2.
      destruct (moves_own acc st s1 Hs1 Hqj) as (Hs2 & [He _] & _). rewrite Hcons in Hw2, Hs2, He. cbn in Hw2, Hs2, He.
      destruct (IH w' (tr ++ [st]) acc' s2 Hs2) as (tr' & Hr & Hp & Hm); [|done..|].
      { eapply Forall_impl; [exact Hq|]. intros k. by apply copy_of_extends. }
      exists tr'. split_and!; [exact Hr|exact Hp|]. by rewrite Hm, Hmap, <- app_assoc.
Qed.
End Walk.

(** The pool's headroom in one currency. *)
Definition headroom_at (s : St W) (c : Currency) : Decimal :=
  match snd (pool_headroom config c s) with Ok h => h | Raise _ => ZERO end.

Lemma pool_headroom_reads c (s : St W) : pool_headroom config c s = (s, Ok (headroom_at s c)).
Proof. reflexivity. Qed.

Lemma policy_ext h h' suspended held tr :
  (forall c, h c = h' c) -> policy h suspended held tr -> policy h' suspended held tr.
Proof. intros E [P1 P2 P3 P4]. constructor; [intros c; rewrite <- E; apply P1|done..]. Qed.

(** C2: whoever consumes the decisions, a dry run or a real tick: every queued
    job gets exactly one, in the order of the queue; what is dispatched in a
    currency fits under the pool's headroom; nothing of a currency is dispatched
    after a job of it was held back by the pool; no suspended member's job is
    dispatched; and a member who is given machines has at most the limit of them,
    counting the ones held when the pass began. *)
Theorem decisions_policy {A} t (consume : A -> step -> M (St W) exn A) `{!MovesOwn consume} acc s s' a :
  sound s -> decisions pow config backends t consume acc s = (s', Ok a) ->
  exists tr, decisions pow config backends t (traced consume) (acc, []) s = (s', Ok (a, tr)) /\
    map st_job tr = map fst (order_queue pow config (queued_jobs (db s)) (db s) t) /\
    policy (headroom_at s) (suspended_users (db s)) (running_count (db s)) tr.
Proof.
  unfold decisions, bind, ordered_queue, query_ok. rewrite !pool_headroom_reads. intros Hs Hrun.
  eapply walk_traced in Hrun as (tr & Hr & Hp & Hm); [|exact _|exact Hs| |by apply walk_ok_empty].
  - exists tr. split_and!; [exact Hr|exact Hm|]. eapply policy_ext; [|exact Hp]. by intros [].
  - apply Forall_map, Forall_forall. intros x Hx%order_queue_jobs.
    pose proof (list_jobs_copies (db s) None (Some [QUEUED]) None (so_db _ Hs)) as Hall.
    eapply Forall_forall in Hall; eauto.
Qed.

(** ** The two consumers *)

#[export] Instance plan_moves_own : MovesOwn (plan_one (W := W)).
Proof.
  intros acc st s Hs Hc. pose proof (safe_plan_one acc st [] s Hs (List.Forall_nil _)) as Hsafe.
  assert (Hst : forall id, stays id (state_of (db s) id) (plan_one acc st)).
  { intros id. unfold plan_one. destruct acc as [[ds cs] ps], st as [d [b|]]; stays_walk. }
  destruct (plan_one acc st s) as [s' r] eqn:E. cbn. destruct Hsafe as (H1 & H2 & _). split_and!; [done..|].
  intros id _. specialize (Hst id s eq_refl). rewrite E in Hst. by destruct r.
Qed.

Lemma stays_record_schedule_observation id st a b c e f g h :
  stays (W := W) id st (record_schedule_observation a b c e f g h).
Proof.
  unfold record_schedule_observation. stays_read. case_match; [apply stays_ret|]. stays_read.
  apply stays_commit_only. intros d d'. by repeat (case_match; try done); intros [= <-].
Qed.

#[export] Instance dispatch_moves_own : MovesOwn (dispatch_one config).
Proof.
  intros acc st s Hs Hc. pose proof (safe_dispatch_one config acc st [st_job st] ltac:(left) s Hs ltac:(by repeat constructor)) as Hsafe.
  assert (Hst : forall id, id <> j_job_id (st_job st) \/ d_action (fst st) <> DISPATCH -> stays id (state_of (db s) id) (dispatch_one config acc st)).
  { intros id Hid. destruct st as [d ob]. unfold dispatch_one. cbn in Hid. stays_read.
    apply stays_bind; [apply stays_record_schedule_observation|]. intros _.
    destruct (d_action d) eqn:Ha, ob as [b|]; try apply stays_ret. destruct Hid as [Hid|]; [|done].
    apply stays_bind; [apply stays_attempt, stays_call|]. intros [e|al]; [stays_walk|].
    eapply stays_bind_ret; [apply returns_record_attempt|apply stays_record_attempt|]. intros j Hj.
    apply stays_bind; [apply stays_transition; by rewrite (sf_id _ _ Hj)|]. intros _. stays_walk. }
  destruct (dispatch_one config acc st s) as [s' r] eqn:E. cbn. destruct Hsafe as (H1 & H2 & _). split_and!; [done..|].
  intros id Hid. specialize (Hst id Hid s eq_refl). rewrite E in Hst. by destruct r.
Qed.
End Policy.

Section DryRun.
Context {W : Type} `{TimeZones} (pow : pow_fun) (config : BrokerConfig) (backends : list (Backend W)).

Lemma reads_attempt {A} (m : M (St W) exn A) caught : reads m -> reads (attempt m caught).
Proof.
  intros Hm s. unfold attempt, try_catch, bind. specialize (Hm s).
  destruct (m s) as [s' [a|e]]; cbn in *; [done|]. by destruct (caught e).
Qed.

Lemma reads_decide_one headroom suspended w j :
  Forall Looking backends -> reads (decide_one config backends headroom suspended w j).
Proof.
  intros Hl. unfold decide_one. case_match; [apply reads_ret|]. case_match; [apply reads_ret|].
  apply reads_bind; [by destruct (wk_held w !! j_user_id j)|]. intros held.
  case_match; [apply reads_ret|]. case_match; [apply reads_ret|].
  apply reads_bind; [by apply reads_choose|]. intros p. destruct (pl_backend p); apply reads_ret.
Qed.

(** The consumer of a dry run asks the backends that were given to it. *)
Lemma reads_plan_walk headroom suspended queue w acc :
  Forall Looking backends ->
  reads (walk_queue config backends plan_one headroom suspended w queue acc).
Proof.
  intros Hl. revert w acc. induction queue as [|[j p] rest IH]; intros w acc; cbn; [apply reads_ret|].
  intros s. unfold bind at 1.
  pose proof (reads_decide_one headroom suspended w j Hl s) as Hr.
  destruct (decide_one _ _ _ _ _ _ s) as [s1 [[[w' st] blocked]|e]] eqn:Hd; cbn in Hr; subst; [|done].
  revert s Hd.
  assert (Hone : forall acc st', match snd st' with Some b => b ∈ backends | None => True end ->
            reads (plan_one acc st')).
  { intros [[ds cs] ps] [d [b|]] Hb; cbn in *; [|apply reads_ret].
    apply reads_bind; [|intros [|]; apply reads_ret].
    apply reads_attempt, call_quiet. eapply Forall_forall in Hl; [|exact Hb]. apply look_validate. }
  intros s Hd.
  assert (Hst : match snd st with Some b => b ∈ backends | None => True end).
  { revert Hd. unfold decide_one, ret. case_match; [by intros; simplify_eq|].
    case_match; [by intros; simplify_eq|].
    intros Hd. apply bind_ok in Hd as (s1 & held & _ & Hd). revert Hd.
    case_match; [by intros; simplify_eq|]. case_match; [by intros; simplify_eq|].
    intros Hd. apply bind_ok in Hd as (s2 & p' & Hp & Hd).
    destruct (pl_backend p') as [b|] eqn:Hb; simplify_eq; [|done].
    exact (proj1 (choose_in _ _ _ _ _ _ _ Hp Hb)). }
  assert (Hrest : reads (acc' <- plan_one acc st;;
    (if blocked then foldM plan_one acc' (map (fun jp => blocked_step (fst jp) BLOCKED_POOL "pool cap reached") rest)
     else walk_queue config backends plan_one headroom suspended w' rest acc'))).
  { apply reads_bind; [by apply Hone|]. intros acc'. destruct blocked; [|apply IH].
    clear IH Hd. revert acc'. induction rest as [|[k q] rest IHr]; intros acc'; cbn; [apply reads_ret|].
    apply reads_bind; [by apply Hone|]. intros a. apply IHr. }
  exact (Hrest s).
Qed.

(** A dry run leaves the database, the journal and the backends alone. *)
Theorem plan_changes_nothing (s : St W) :
  Forall Looking backends -> fst (plan pow config backends s) = s.
Proof.
  intros Hl. apply reads_bind; [done|]. intros t. apply reads_bind; [|intros [[? ?] ?]; apply reads_ret].
  unfold decisions. do 2 (apply reads_bind; [done|]; intros ?).
  do 2 (apply reads_bind; [done|]; intros ?). by apply reads_plan_walk.
Qed.
End DryRun.

Section Reconcile.
Context {W : Type} `{TimeZones} (backends : list (Backend W)).

Abbreviation akey := (option string * string)%type.

(** No active job has this key in our records. *)
Lemma dict_get_set_elem {V} (k : akey) (v : V) m k' :
  dict_get k' (dict_set k v m) = None <-> k <> k' /\ dict_get k' m = None.
Proof. rewrite dict_get_set. destruct (decide (k = k')); naive_solver. Qed.

Lemma our_active_none d k :
  dict_get k (our_active d) = None <-> forall j, j ∈ active_jobs d -> drift_key j <> Some k.
Proof.
  unfold our_active.
  assert (Hf : forall js m, dict_get k (fold_left (fun m j => match drift_key j with
      | Some k' => dict_set k' j m | None => m end) js m) = None
    <-> dict_get k m = None /\ forall j, j ∈ js -> drift_key j <> Some k).
  { induction js as [|j js IH]; intros m; cbn [fold_left].
    - split; [intros ?; split; [done|]; by intros ? ?%elem_of_nil|naive_solver].
    - rewrite IH. destruct (drift_key j) as [k'|] eqn:Hk; [rewrite dict_get_set_elem|]; split.
      + intros [[Hne Hm] Hjs]. split; [done|]. intros x [->|Hx]%elem_of_cons; [congruence|by apply Hjs].
      + intros [Hm Hjs]. split_and!; [|done|].
        * intros ->. by apply (Hjs j); [left|].
        * intros x Hx. apply Hjs. by right.
      + intros [Hm Hjs]. split; [done|]. intros x [->|Hx]%elem_of_cons; [congruence|by apply Hjs].
      + intros [Hm Hjs]. split; [done|]. intros x Hx. apply Hjs. by right. }
  rewrite Hf. cbn. naive_solver.
Qed.

Lemma reconcile_fold ours bs reports acc (s : St W) :
  Forall2 lists_resources bs reports ->
  foldM (reconcile_backend ours) acc bs s =
  (s, Ok (fst acc ++ concat (zip_with (fun b rs => concat (map (resource_drift (db s) ours b) rs)) bs reports),
          snd acc ++ concat (zip_with (fun b rs => map (fun r => (Some (b_name b), res_handle r)) rs) bs reports))).
Proof.
  intros Hall. revert acc. induction Hall as [|b rs bs reports Hb Hall IH]; intros [ds seen]; cbn.
  - by rewrite !app_nil_r.
  - unfold bind at 1. unfold reconcile_backend at 1, bind at 1.
    rewrite (call_answers _ _ _ (Hb (clock s) (world s))). cbn. rewrite IH. cbn. by rewrite !app_assoc.
Qed.

(** C18: reconciliation reports an untagged resource, a resource whose key no
    active job has, and an active record whose key no backend lists; it reports
    nothing else, and changes nothing. *)
Theorem reconcile_exact (s : St W) reports :
  Forall2 lists_resources backends reports ->
  exists drifts, reconcile backends s = (s, Ok drifts) /\
  forall x, x ∈ drifts <->
    (exists b r, listed backends reports b r /\ res_job_id r = None /\ x = untagged b r) \/
    (exists b r id, listed backends reports b r /\ res_job_id r = Some id /\
       (forall j, j ∈ active_jobs (db s) -> drift_key j <> Some (Some (b_name b), res_handle r)) /\
       x = orphan_drift (db s) b r id) \/
    (exists k j, (k, j) ∈ our_active (db s) /\
       (forall b r, listed backends reports b r -> (Some (b_name b), res_handle r) <> k) /\
       x = lost_drift k j).
Proof.
  intros Hall. unfold reconcile, bind, query_ok. rewrite (reconcile_fold _ _ _ _ _ Hall).
  cbn [fst snd app]. eexists. split; [done|]. intros x. rewrite elem_of_app.
  set (seen := concat (zip_with (fun b rs => map (fun r => (Some (b_name b), res_handle r)) rs)
                        backends reports)).
  assert (Hseen : forall k, k ∈ seen <-> exists b r, listed backends reports b r /\ k = (Some (b_name b), res_handle r)).
  { intros k. unfold seen. rewrite elem_of_concat_zip. split.
    - intros (i & b & rs & Hb & Hrs & (r & -> & Hr)%list_elem_of_fmap). exists b, r. split; [|done].
      by exists i, rs.
    - intros (b & r & (i & rs & Hb & Hrs & Hr) & ->). exists i, b, rs. split_and!; [done..|].
      by apply (list_elem_of_fmap_2 (fun r => (Some (b_name b), res_handle r))). }
  assert (Hres : x ∈ concat (zip_with (fun b rs => concat (map (resource_drift (db s) (our_active (db s)) b) rs))
                   backends reports)
    <-> exists b r, listed backends reports b r /\ x ∈ resource_drift (db s) (our_active (db s)) b r).
  { rewrite elem_of_concat_zip. split.
    - intros (i & b & rs & Hb & Hrs & Hx). apply list_elem_of_In, in_concat in Hx as (l & Hl & Hx).
      apply list_elem_of_In, list_elem_of_fmap in Hl as (r & -> & Hr).
      exists b, r. split; [by exists i, rs|by apply list_elem_of_In].
    - intros (b & r & (i & rs & Hb & Hrs & Hr) & Hx). exists i, b, rs. split_and!; [done..|].
      apply list_elem_of_In, in_concat. eexists. split; [|by apply list_elem_of_In].
      by apply list_elem_of_In, list_elem_of_fmap_2. }
  rewrite Hres. split.
  - intros [(b & r & Hl & Hx)|Hx].
    + unfold resource_drift in Hx. destruct (res_job_id r) as [id|] eqn:Hid.
      * destruct (dict_get _ _) eqn:Hg; [by apply elem_of_nil in Hx|].
        apply list_elem_of_singleton in Hx as ->. right; left. exists b, r, id.
        split_and!; [done..| |done]. by apply our_active_none.
      * apply list_elem_of_singleton in Hx as ->. left. by exists b, r.
    + apply list_elem_of_In, in_concat in Hx as (l & Hl & Hx).
      apply list_elem_of_In, list_elem_of_fmap in Hl as ([k j] & -> & Hkj). cbn in Hx.
      case_bool_decide as Hk; [done|]. destruct Hx as [<-|[]]. right; right. exists k, j.
      split_and!; [done| |done]. intros b r Hl E. apply Hk, Hseen. by exists b, r.
  - intros [(b & r & Hl & Hid & ->)|[(b & r & id & Hl & Hid & Hno & ->)|(k & j & Hkj & Hno & ->)]].
    + left. exists b, r. split; [done|]. unfold resource_drift. rewrite Hid. left.
    + left. exists b, r. split; [done|]. unfold resource_drift. rewrite Hid.
      apply our_active_none in Hno. rewrite Hno. left.
    + right. apply list_elem_of_In, in_concat. exists [lost_drift k j]. split; [|by left].
      apply list_elem_of_In, list_elem_of_fmap. exists (k, j). split; [|done]. cbn.
      rewrite bool_decide_eq_false_2; [done|]. intros (b & r & Hl & E)%Hseen. by apply (Hno b r Hl).
Qed.
End Reconcile.
