(* ===== verification/Broker.v ===== *)
(** * broker.py: the facade

    A [Broker] is what the object holds besides the store: the configuration in
    force, the price book, the backends and the checkpoint lookup.  Each method
    is a computation on the store's state.  [refresh_prices] alone changes the
    object, so it returns the new one.

    The [on_tick] callback, the tracing spans and the queue context they record
    are left out; [report], [digest] and [refresh_baseline] are in [Digest]. *)

From S2P Require Import Prelude PyFloat PyDecimal PyFormat PySort PyDict Errors Money Clock States Models Config Tables Store StoreInv StoreSafe Admission FairShare Backend Placement Idle Metrics Pricing Forecast Reaper Checkpoint Scheduler.
Local Open Scope Z_scope.
Local Open Scope py_scope.

(** [PriceBook.load(store.prices())] reads these. *)
Definition stored_prices (d : DB) : list (string * Price) := by_key (prices d).

Record ReclaimReport := mkReclaimReport {
  rc_at : Z;
  rc_enabled : bool;
  rc_idle : list IdleVerdict;
  rc_ready : list IdleVerdict;
  rc_reclaimed : list string;
  rc_held : list (string * string)
}.

(** [ReclaimReport.would_reclaim] *)
Definition would_reclaim (r : ReclaimReport) : list IdleVerdict :=
  if rc_enabled r then [] else rc_ready r.

Record Broker (W : Type) := mkBroker {
  br_config : BrokerConfig;
  br_prices : PriceBook;
  br_backends : list (Backend W);
  br_checkpoints : option (string -> method W (option CheckpointRef))
}.
Arguments mkBroker {W} _ _ _ _.
Arguments br_config {W} _.
Arguments br_prices {W} _.
Arguments br_backends {W} _.
Arguments br_checkpoints {W} _.

(** [_apply_prices()] *)
Definition apply_prices {W} (br : Broker W) : Broker W :=
  {| br with br_config := priced (br_prices br) (br_config br) |}.

(** [clock.sleep(seconds)] of the manual clock *)
Definition sleep_for {W} (seconds : float) : M (St W) exn unit := fun s =>
  match sleep (clock s) seconds with
  | Some t => (mkSt (db s) t (journal s) (world s), Ok tt)
  | None => (s, Raise (ValueError "clocks do not run backwards"))
  end.

Section Broker.
Context {W : Type} `{TimeZones} (pow : pow_fun) (br : Broker W).

Abbreviation M := (M (St W) exn).
Abbreviation config := (br_config br).
Abbreviation backends := (br_backends br).

(** ** Submission *)

(** The checks of [submit], in order: the first refusal. *)
Definition policy_check (user_id : string) (user : User) (currency : Currency) (reserved : Decimal) : M (option Refusal) :=
  match check_membership user with
  | Some r => ret (Some r)
  | None =>
  match check_job_cap config currency reserved with
  | Some r => ret (Some r)
  | None =>
      queued <- query_ok (fun d => queued_count d user_id);;
      match check_queue_depth config queued with
      | Some r => ret (Some r)
      | None =>
          b <- balance config user_id currency;;
          ret (check_user_budget b reserved)
      end
  end end.

(** [submit(...)]; [budget] is [money(budget)] when one was given, [job_id] is
    the [new_job_id()] of the call. *)
Definition submit (user_id command gpu_type : string) (hours : float) (budget : option Decimal)
    (environment : option string) (origin job_id : string) : M SubmitResult :=
  lift_outcome (validate_request config gpu_type hours command);;;
  g <- lift_outcome (gpu config gpu_type);;
  let currency := gt_currency g in
  reserved <- lift_outcome (match budget with
                            | Some b => Ok b
                            | None => default_reservation config gpu_type hours
                            end);;
  user <- query (fun d => get_user d user_id);;
  (if truthy environment then
     e <- Store.environment (default "" environment);;
     match e with
     | Some _ => ret tt
     | None =>
         known <- environment_list;;
         raise (BrokerError ("no environment called '" +:+ default "" environment +:+ "'. "
           +:+ match known with
               | [] => "None have been created yet"
               | _ => "Known: " +:+ str_join ", " (map env_name known)
               end))
     end
   else ret tt);;;
  refusal <- policy_check user_id user currency reserved;;
  match refusal with
  | Some r =>
      job <- record_refusal user_id command gpu_type hours currency reserved (rfs_reason r) job_id origin;;
      ret (mkSubmitResult job (Some r) None)
  | None =>
      job <- create_job config user_id command gpu_type hours currency reserved job_id environment origin;;
      warning <- lift_outcome (ceiling_warning config gpu_type hours reserved);;
      ret (mkSubmitResult job None warning)
  end.

(** ** Privileges and cancellation *)

(** [_require_officer(actor, what, admin=)] *)
Definition require_officer (actor : option string) (what : string) (admin : bool) : M unit :=
  if admin || negb (truthy actor) then ret tt
  else
    query (fun d =>
      if negb (has_admins d) then Ok tt
      else match maybe_user d (default "" actor) with
           | Some u => if u_is_admin u then Ok tt
                       else Raise (Unauthorized (what +:+ " is for club officers, and "
                              +:+ default "" actor +:+ " is not one. Ask an officer"))
           | None => Raise (Unauthorized (what +:+ " is for club officers, and "
                              +:+ default "" actor +:+ " is not one. Ask an officer"))
           end).

(** May [actor] cancel this job? *)
Definition may_cancel (d : DB) (job : Job) (actor : option string) (admin : bool) : bool :=
  match actor with
  | None => true
  | Some a => String.eqb a (j_user_id job) || admin ||
              match maybe_user d a with Some u => u_is_admin u | None => false end
  end.

(** [if job.backend and job.backend_handle: ... backend.terminate(handle, reason)] *)
Definition terminate_job (job : Job) (reason : string) : M unit :=
  if truthy (j_backend job) && truthy (j_backend_handle job) then
    match backend backends (default "" (j_backend job)) with
    | Some b => call (b_terminate b (default "" (j_backend_handle job)) reason)
    | None => ret tt
    end
  else ret tt.

(** [cancel(job_id, actor=, admin=)] *)
Definition cancel (job_id : string) (actor : option string) (admin : bool) : M Job :=
  job <- query (fun d => find_job d job_id);;
  allowed <- query_ok (fun d => may_cancel d job actor admin);;
  if negb allowed then
    raise (Unauthorized ("job " +:+ short_id job +:+ " belongs to " +:+ j_user_id job +:+ ", not "
      +:+ default "" actor +:+ ". Ask them, or ask an officer"))
  else if is_terminal job then
    raise (BrokerError ("job " +:+ short_id job +:+ " is already "
      +:+ str_lower (state_str (j_state job)) +:+ "; nothing to cancel"))
  else
    let reason := "cancelled by " +:+ str_or actor (j_user_id job) in
    terminate_job job reason;;;
    transition config job CANCELLED (clearing reason).

(** ** The loop *)

Definition broker_tick : M TickReport :=
  tick pow config backends (br_checkpoints br).

Fixpoint run_ticks (step_seconds : float) (ticks : nat) (reports : list TickReport)
  : M (option (list TickReport)) :=
  match ticks with
  | O => ret None
  | S ticks' =>
      report <- broker_tick;;
      queued <- query_ok queued_jobs;;
      active <- query_ok active_jobs;;
      match queued, active with
      | [], [] => ret (Some (reports ++ [report]))
      | _, _ => sleep_for step_seconds;;; run_ticks step_seconds ticks' (reports ++ [report])
      end
  end.

(** [run_until_idle(step_seconds=, max_ticks=)] *)
Definition run_until_idle (step_seconds : float) (max_ticks : nat) : M (list TickReport) :=
  r <- run_ticks step_seconds max_ticks [];;
  match r with
  | Some reports => ret reports
  | None => raise (BrokerError ("queue did not drain after " +:+ str_of_Z (Z.of_nat max_ticks)
      +:+ " ticks. Something is stuck: check `gpu queue --why` and `gpu reconcile`."))
  end.

(** ** Idle capacity *)

(** [idle_jobs()] *)
Definition idle_jobs : M (list IdleVerdict) :=
  t <- now;; query (fun d => idle_candidates config d t).

(** The default [limit] of [evidence]. *)
Definition EVIDENCE_LIMIT : nat := 8.

(** [_reclaim_one(verdict)] *)
Definition reclaim_one (v : IdleVerdict) : M Job :=
  let job := iv_job v in
  let shown := evidence v EVIDENCE_LIMIT in
  t <- now;;
  notify (j_user_id job) "reclaimed"
    ("Job " +:+ short_id job +:+ " was reclaimed after " +:+ f_fixed 1 (idle_hours v t)
     +:+ "h idle. The samples that justified it:
" +:+ shown) (Some (j_job_id job));;;
  append_log config (j_job_id job) "broker" ("reclaimed as idle:
" +:+ shown);;;
  terminate_job job "reclaimed as idle";;;
  transition config job RECLAIMED (clearing ("idle: " +:+ iv_reason v)).

(** The loop of [reclaim]: ready, reclaimed and held so far. *)
Definition reclaim_step (enabled : bool)
    (acc : list IdleVerdict * list string * list (string * string)) (v : IdleVerdict)
  : M (list IdleVerdict * list string * list (string * string)) :=
  let '(ready, reclaimed, held) := acc in
  t <- now;;
  match reclaimable v t with
  | (false, why) => ret (ready, reclaimed, held ++ [(j_job_id (iv_job v), why)])
  | (true, _) =>
      if enabled then
        reclaim_one v;;; ret (ready ++ [v], reclaimed ++ [j_job_id (iv_job v)], held)
      else ret (ready ++ [v], reclaimed, held)
  end.

(** [reclaim(force)] *)
Definition reclaim (force : bool) : M ReclaimReport :=
  t <- now;;
  let enabled := reclaim_enabled config || force in
  verdicts <- idle_jobs;;
  r <- foldM (reclaim_step enabled) ([], [], []) verdicts;;
  let '(ready, reclaimed, held) := r in
  idle <- idle_jobs;;
  ret (mkReclaimReport t enabled idle ready reclaimed held).

(** ** Leaked machines *)

(** What is written down of an orphan. *)
Definition record_orphan (o : Orphan) : M unit :=
  if cost_known o then
    record_abandoned config (or_handle o) (or_job_id o) (or_user_id o) (or_currency o)
      (of_cents (or_burned o))
      (or_backend o +:+ "/" +:+ or_handle o +:+ " (" +:+ or_gpu_type o +:+ "): " +:+ or_reason o);;;
    ret tt
  else ret tt.

(** [reap()] *)
Definition broker_reap : M ReapReport :=
  report <- reap config backends;;
  foldM (fun _ o => record_orphan o) tt (rp_orphans report);;;
  ret report.

(** ** Hosts *)

(** [local_backend()] *)
Definition local_backend : option (Backend W * LocalOps W) :=
  head (omap (fun b => option_map (pair b) (b_local_ops b)) backends).

(** [drain_host(hostname, reason, actor, admin=)] *)
Definition broker_drain_host (hostname reason actor : string) (admin : bool) : M unit :=
  require_officer (Some actor) "draining a host" admin;;;
  match local_backend with
  | None => raise (BrokerError "the local pool is not configured; nothing to drain")
  | Some (_, ops) =>
      call (lo_drain ops hostname reason);;;
      drain_host hostname reason actor
  end.

(** [undrain_host(hostname, actor, admin=)] *)
Definition broker_undrain_host (hostname actor : string) (admin : bool) : M unit :=
  require_officer (Some actor) "undraining a host" admin;;;
  match local_backend with
  | None => raise (BrokerError "the local pool is not configured")
  | Some (_, ops) =>
      call (lo_undrain ops hostname);;;
      undrain_host hostname
  end.

(** [_reapply_drains()] *)
Definition reapply_drains : M unit :=
  match local_backend with
  | None => ret tt
  | Some (_, ops) =>
      drains <- query_ok drained_hosts;;
      foldM (fun _ hr => known <- call (lo_host ops (fst hr));;
                         if known then call (lo_drain ops (fst hr) (snd hr)) else ret tt) tt drains
  end.

(** ** Members *)

(** [add_user(user_id, actor=, admin=, display_name=, ...)] *)
Definition add_user (user_id : string) (actor : option string) (admin : bool)
    (display_name : option string) (budget_usd budget_gpu_hours : option Decimal)
    (is_admin : option bool) : M User :=
  (match is_admin with
   | Some _ => require_officer actor "changing who is an officer" admin
   | None => ret tt
   end);;;
  upsert_user config user_id display_name budget_usd budget_gpu_hours is_admin.

(** [suspend_user(user_id, reason=, actor=, admin=)] *)
Definition broker_suspend_user (user_id reason : string) (actor : option string) (admin : bool) : M User :=
  require_officer actor "suspending a member" admin;;;
  suspend_user user_id reason (default "" actor).

(** [restore_user(user_id, actor=, admin=)] *)
Definition broker_restore_user (user_id : string) (actor : option string) (admin : bool) : M User :=
  require_officer actor "restoring a member" admin;;;
  restore_user user_id (default "" actor).

(** ** Prices *)

(** [refresh_prices(pricing_client)]: the report and the broker after it *)
Definition refresh_prices (fetch : string -> string -> method W Decimal)
  : M (Broker W * RefreshReport) :=
  r <- refresh fetch (br_prices br);;
  let '(book, report) := r in
  save_prices (rr_updated report);;;
  ret (apply_prices {| br with br_prices := book |}, report).

(** ** Reads *)

(** [budgets(user_id)] *)
Definition budgets (user_id : string) : M (list (Currency * Balance)) :=
  mapM_ (fun c => b <- balance config user_id c;; ret (c, b)) all_currencies.

(** [pool()] *)
Definition pool : M (list (Currency * Balance)) :=
  mapM_ (fun c => b <- pool_balance config c;; ret (c, b)) all_currencies.

(** [who()] *)
Definition who : M (list Job) :=
  query_ok (fun d => py_sort (lex (on j_user_id str_lt) (on j_submitted_at Z.ltb))
                       (list_jobs d None (Some ACTIVE) None)).

(** [history(user_id, limit)] *)
Definition job_history (user_id : option string) (limit : nat) : M (list Job) :=
  query_ok (fun d => firstn limit (py_sort (on j_submitted_at Z.gtb) (list_jobs d user_id None None))).

(** [logs(job_id, after)]; the default [limit] of [read_logs] *)
Definition LOGS_LIMIT : nat := 1000.
Definition logs (job_id : string) (after : Z) : M (list (Z * LogRow)) :=
  job <- query (fun d => find_job d job_id);;
  query_ok (fun d => read_logs d (j_job_id job) after LOGS_LIMIT).
End Broker.

(** [Broker.open(...)] on a migrated database, with the backends it is given *)
Definition open_broker {W} (config : BrokerConfig) (aws : AwsPrices) (backends : list (Backend W))
    (checkpoints : option (string -> method W (option CheckpointRef))) : M (St W) exn (Broker W) :=
  t <- now;;
  stored <- query_ok stored_prices;;
  let book := load (new_book config aws t) stored in
  let br := apply_prices (mkBroker config book backends checkpoints) in
  reapply_drains br;;;
  ret br.
