(* ===== verification/Digest.v ===== *)
(** * digest.py: the weekly note, and the baseline from Cost Explorer

    [build] reads through a broker; the webhook and Cost Explorer are calls over the
    world.  The address of the webhook is an argument of [send]. *)

From Stdlib Require Import Ascii.
From S2P Require Import Prelude PyFloat PyDecimal PyFormat PySort PyDict Errors Money Clock PyJson PyText States Models Config Tables Store StoreInv StoreSafe Backend Idle Forecast Report PriceList Broker.
Local Open Scope Z_scope.
Local Open Scope py_scope.

Record UserLine := mkUserLine {
  ul_user_id : string;
  ul_jobs : Z;
  ul_dollars : Z;
  ul_gpu_hours : Z;
  ul_useful_fraction : option float
}.

Record Digest := mkDigest {
  dg_since : Z;
  dg_until : Z;
  dg_users : list UserLine;
  dg_jobs_run : Z;
  dg_jobs_failed : Z;
  dg_reclaimed_jobs : Z;
  dg_reclaimed_dollars : Z;
  dg_forecasts : list Forecast;
  dg_idle_now : Z;
  dg_new_users : list string
}.

(** [Digest.quiet] *)
Definition quiet_week (g : Digest) : bool := dg_jobs_run g =? 0.

(** ** The figures *)

(** [per_user.setdefault(job.user_id, []).append(job)] *)
Definition jobs_by_user (jobs : list Job) : dict string (list Job) :=
  fold_left (fun m j => if is_state REFUSED j then m else dict_upd (j_user_id j) [] (fun l => l ++ [j]) m) jobs [].

(** The useful fraction of a member's jobs: the mean over those with samples. *)
Definition mean_fraction (fractions : list float) : option float :=
  match fractions with
  | [] => None
  | _ => Some (f_div (f_sum fractions) (f_of_Z (Z.of_nat (length fractions))))
  end.

Definition user_line (config : BrokerConfig) (d : DB) (p : string * list Job) : UserLine :=
  let '(user_id, theirs) := p in
  let spent q := zsum (fun j => job_spend d (j_job_id j)) (List.filter q theirs) in
  mkUserLine user_id (Z.of_nat (length theirs)) (spent is_usd) (spent (fun j => negb (is_usd j)))
    (mean_fraction (omap (fun j => busy_fraction config (samples_for d (j_job_id j) None 5000)) theirs)).

(** [lines.sort(key=lambda line: (-line.dollars, -line.jobs, line.user_id))] *)
Definition line_lt : UserLine -> UserLine -> bool :=
  lex (on (fun l => - ul_dollars l) Z.ltb) (lex (on (fun l => - ul_jobs l) Z.ltb) (on ul_user_id str_lt)).

Section Build.
Context {W : Type} `{TimeZones} (br : Broker W).

Local Abbreviation config := (br_config br).
Local Abbreviation M := (M (St W) exn).

(** What a digest says of the jobs and the members, of one image of the database. *)
Definition summary (d : DB) (since until : Z) (forecasts : list Forecast) (idle : Z) : Digest :=
  let jobs := covered d since in
  mkDigest since until
    (py_sort line_lt (map (user_line config d) (jobs_by_user jobs)))
    (count_if (fun j => negb (is_state REFUSED j)) jobs) (count_if (is_state FAILED) jobs)
    (count_if (is_state RECLAIMED) jobs)
    (zsum (unspent d) (List.filter (fun j => is_state RECLAIMED j && is_usd j) jobs))
    forecasts idle
    (py_sort str_lt (map u_user_id (List.filter (fun u => since <=? u_created_at u) (list_users d)))).

(** [build(broker, days)] *)
Definition digest (days : float) : M Digest :=
  t <- now;;
  since <- lift_outcome (add_days t (f_neg days));;
  forecasts <- mapM_ (forecast config) all_currencies;;
  idle <- idle_jobs br;;
  query_ok (fun d => summary d since t forecasts (Z.of_nat (length idle))).

(** [Broker.report(since)] *)
Definition broker_report (since : option Z) : M Report := t <- now;; query (fun d => build config d t since).
End Build.

(** ** The note *)

Definition MONTHS : list string := ["Jan"; "Feb"; "Mar"; "Apr"; "May"; "Jun"; "Jul"; "Aug"; "Sep"; "Oct"; "Nov"; "Dec"].

(** [f"{moment:%d %b}"] *)
Definition day_month (moment : Z) : string :=
  let '(_, m, d) := civil_of_days (moment / us_per_day) in
  pad0 2 d +:+ " " +:+ nth (Z.to_nat (m - 1)) MONTHS "".

Definition mark_of (l : Level) : string :=
  match l with
  | LEVEL_OK => "" | WARNING => " :warning:" | CRITICAL => " :rotating_light:" | EXHAUSTED => " :rotating_light:"
  end.

Definition line_text (l : UserLine) : string :=
  let bits :=
    [str_of_Z (ul_jobs l) +:+ " job" +:+ (if ul_jobs l =? 1 then "" else "s")]
    ++ (if 0 <? ul_dollars l then [fmt (of_cents (ul_dollars l)) USD] else [])
    ++ (if 0 <? ul_gpu_hours l then [fmt (of_cents (ul_gpu_hours l)) GPU_HOUR] else [])
    ++ match ul_useful_fraction l with
       | Some f => [f_fixed 0 (f_mul f (f_of_Z 100)) +:+ "% of it using the GPU"]
       | None => []
       end in
  "- **" +:+ ul_user_id l +:+ "**: " +:+ str_join ", " bits.

(** [render(digest)] *)
Definition render (g : Digest) : string :=
  str_join newline (
    ["**GPU pool, " +:+ day_month (dg_since g) +:+ " to " +:+ day_month (dg_until g) +:+ "**"; ""]
    ++ map (fun f => "- " +:+ headline f +:+ mark_of (fc_level f)) (dg_forecasts g) ++ [""]
    ++ (if quiet_week g then ["Nobody ran anything this week."; ""]
        else ["**" +:+ str_of_Z (dg_jobs_run g) +:+ " job(s)**"
              +:+ (if dg_jobs_failed g =? 0 then "" else ", " +:+ str_of_Z (dg_jobs_failed g) +:+ " failed"); ""]
             ++ map line_text (dg_users g) ++ [""])
    ++ (if dg_reclaimed_jobs g =? 0 then []
        else ["Reclaimed " +:+ str_of_Z (dg_reclaimed_jobs g) +:+ " idle job(s), returning "
              +:+ fmt (of_cents (dg_reclaimed_dollars g)) USD +:+ " to the pool."; ""])
    ++ (if dg_idle_now g =? 0 then []
        else [str_of_Z (dg_idle_now g) +:+ " job(s) are holding a GPU without using it right now."; ""])
    ++ match dg_new_users g with
       | [] => []
       | us => ["New this week: " +:+ str_join ", " us +:+ ". Welcome."; ""]
       end).

(** ** The webhook *)

(** ["//" in url] *)
Fixpoint has_slashes (s : string) : bool :=
  starts_with "//" s || match s with EmptyString => false | String _ s' => has_slashes s' end.

(** [send(config, body, client)]; [post] gives the status of the answer. *)
Definition send {W} (post : string -> string -> M W exn Z) (url body : string) : M W exn string :=
  if String.eqb url "" then
    raise (BrokerError ("no digest_webhook in config.json. `gpu digest` prints it either way -- "
      +:+ "paste it wherever the club actually talks"))
  else
    status <- post url (dumps default_style (JDict [("text", JStr body); ("content", JStr body)]));;
    if (200 <=? status) && (status <? 300) then
      ret ("posted to " +:+ (if has_slashes url then nth 2 (split_char "/" url) "" else url))
    else raise (BrokerError ("the webhook rejected it: HTTP " +:+ str_of_Z status)).

(** ** The baseline *)

(** [float(v)] *)
Definition float_of (v : json) : outcome exn float :=
  match v with
  | JStr s => of_option (float_text s) (ValueError ("could not convert string to float: '" +:+ s +:+ "'"))
  | JInt n => Ok (f_of_Z n)
  | JFloat x => Ok x
  | JBool b => Ok (if b then f1 else f0)
  | _ => Raise (TypeError "float() argument must be a string or a real number")
  end.

(** [v or 0] *)
Definition or_zero (v : json) : json :=
  match v with
  | JNull | JBool false | JInt 0 | JStr EmptyString | JList [] | JDict [] => JInt 0
  | _ => v
  end.

(** [money(v)] of what Cost Explorer gives *)
Definition amount_of (v : json) : outcome exn Decimal :=
  of_option (raw_money v) (ArithmeticError "[<class 'decimal.ConversionSyntax'>]").

(** [v[:n]] *)
Definition json_take (n : nat) (v : json) : outcome exn string :=
  match v with JStr s => Ok (str_take n s) | _ => Raise (TypeError "object is not subscriptable") end.

(** One entry: nothing without a period. *)
Definition baseline_of (entry : json) : outcome exn (option (string * float * Z)) :=
  period <-? json_get "TimePeriod" (JDict []) entry;;
  start <-? json_get "Start" (JStr "") period;;
  period <-? json_take 7 start;;
  totals <-? json_get "Total" (JDict []) entry;;
  cost <-? json_get "UnblendedCost" (JDict []) totals;;
  amount <-? json_get "Amount" (JStr "0") cost;;
  dollars <-? amount_of amount;;
  usage <-? json_get "UsageQuantity" (JDict []) totals;;
  quantity <-? json_get "Amount" (JStr "0") usage;;
  hours <-? float_of (or_zero quantity);;
  if String.eqb period "" then Ok None
  else
    c <-? of_option (quantize_checked dollars) (ArithmeticError "InvalidOperation");;
    Ok (Some (period, hours, c)).

Section Baseline.
Context {W : Type} (get_cost_and_usage : string -> string -> Prelude.M W string (list json)).

(** [fetch_baseline(client, start, end)] *)
Definition fetch_baseline (start end_ : string) : Prelude.M W exn (list (string * float * Z)) := fun w =>
  let '(w, r) := get_cost_and_usage start end_ w in
  (w, match r with
      | Raise text => Raise (BrokerError ("could not read Cost Explorer: " +:+ text +:+ ". The IAM user needs "
          +:+ "ce:GetCostAndUsage, or put the baseline in by hand"))
      | Ok entries => rows <-? omapM baseline_of entries;; Ok (omap id rows)
      end).

(** The first day of the month of a moment *)
Definition month_start (moment : Z) : string := String.substring 0 8 (to_iso moment) +:+ "01".

(** [Broker.refresh_baseline(months, client)] *)
Definition refresh_baseline (months : Z) : Prelude.M (St W) exn (list string) :=
  t <- now;;
  let start := t - 31 * months * us_per_day in
  if start <? MIN_DATETIME then raise (OverflowError "date value out of range")
  else
    rows <- call (fun _ => fetch_baseline (month_start start) (ymd t));;
    foldM (fun _ row => let '(period, hours, dollars) := row in
             save_baseline period hours (of_cents dollars) "cost-explorer") tt rows;;;
    ret (map (fun row => fst (fst row)) rows).

Lemma safe_refresh_baseline js months : safe js (refresh_baseline months) none.
Proof.
  unfold refresh_baseline. apply safe_read; [done|]. intros t. destruct (_ <? _); [apply safe_raise|].
  apply safe_then; [apply safe_call|]. intros rows. apply safe_then; [|intros _; apply safe_ret_none].
  apply safe_foldM_none. intros [] [[period hours] dollars]. apply safe_save_baseline.
Qed.
End Baseline.

(** ** What the note adds up to *)

Lemma grouped_sum (g : Job -> Z) (m : dict string (list Job)) u j :
  zsum (fun p => zsum g (snd p)) (dict_upd u [] (fun l => l ++ [j]) m) = zsum (fun p => zsum g (snd p)) m + g j.
Proof.
  unfold dict_upd. induction m as [|[k l] m IH]; cbn [dict_get dict_set].
  - cbn. lia.
  - destruct (decide (k = u)) as [->|Hne].
    + change (default [] (Some l)) with l. rewrite !zsum_cons. cbn [snd]. rewrite zsum_app, zsum_cons, zsum_nil. lia.
    + rewrite !zsum_cons, IH. lia.
Qed.

Lemma jobs_by_user_sum (g : Job -> Z) jobs :
  zsum (fun p => zsum g (snd p)) (jobs_by_user jobs) = zsum g (List.filter (fun j => negb (is_state REFUSED j)) jobs).
Proof.
  unfold jobs_by_user. rewrite <- (Z.add_0_l (zsum g (List.filter _ _))). change 0 with (zsum (fun p : string * list Job => zsum g (snd p)) []).
  generalize (@nil (string * list Job)) as m. induction jobs as [|j jobs IH]; intros m; cbn [fold_left List.filter].
  - rewrite zsum_nil. lia.
  - rewrite IH. destruct (is_state REFUSED j); cbn [negb]; [done|]. rewrite grouped_sum, zsum_cons. lia.
Qed.

Lemma zsum_map {A B} (f : B -> Z) (g : A -> B) l : zsum f (map g l) = zsum (fun x => f (g x)) l.
Proof. induction l as [|x l IH]; [done|]. cbn [map]. by rewrite !zsum_cons, IH. Qed.

Lemma length_zsum {A} (l : list A) : Z.of_nat (length l) = zsum (fun _ => 1) l.
Proof. induction l as [|x l IH]; [done|]. rewrite zsum_cons, <- IH. cbn [length]. lia. Qed.

(** The lines of the note add up: to the jobs that ran, to the dollars and to
    the GPU-hours charged to them, whoever they belong to; and the members are in
    the order of what they spent. *)
Theorem digest_adds_up {W} (br : Broker W) d since until fs idle :
  let g := summary br d since until fs idle in
  let ran := List.filter (fun j => negb (is_state REFUSED j)) (covered d since) in
  zsum ul_jobs (dg_users g) = dg_jobs_run g /\ dg_jobs_run g = Z.of_nat (length ran) /\
  zsum ul_dollars (dg_users g) = zsum (fun j => job_spend d (j_job_id j)) (List.filter is_usd ran) /\
  zsum ul_gpu_hours (dg_users g) = zsum (fun j => job_spend d (j_job_id j)) (List.filter (fun j => negb (is_usd j)) ran) /\
  Sorted.StronglySorted (sort_le line_lt) (dg_users g).
Proof.
  cbv zeta. cbn [summary dg_users dg_jobs_run]. unfold count_if. fold (covered d since).
  split_and!; rewrite ?(zsum_perm _ _ _ (py_sort_perm line_lt _)), ?zsum_map.
  - rewrite length_zsum, <- jobs_by_user_sum. apply zsum_ext. intros [u l] _. cbn. apply length_zsum.
  - done.
  - rewrite zsum_filter, <- jobs_by_user_sum. apply zsum_ext. intros [u l] _. cbn. apply zsum_filter.
  - rewrite zsum_filter, <- jobs_by_user_sum. apply zsum_ext. intros [u l] _. cbn. apply zsum_filter.
  - apply py_sort_sorted. unfold line_lt. apply _.
Qed.
