(* ===== verification/WebAuth.v ===== *)
(** * web/auth.py: who is using this, and are they in the club

    Arguments: the environment, the text of the allowlist file (None when it is not
    a file), a secret from [secrets], GitHub behind [HttpClient], and the signing of
    a cookie ([Signer]: itsdangerous, whose clock is in whole seconds).  A login is
    ASCII, so [str_lower] is [str.lower]. *)

From Stdlib Require Import Ascii.
From S2P Require Import Prelude PyFloat PyDecimal PyFormat PySort PyDict Errors Money Clock PyJson PyText Checkpoint CheckpointStore S3Store States Models Config Tables Store StoreInv StoreSafe Backend PriceList.
Local Open Scope Z_scope.
Local Open Scope py_scope.

Definition SESSION_COOKIE : string := "gpu_broker_session".
Definition STATE_COOKIE : string := "gpu_broker_oauth_state".
Definition GITHUB_AUTHORIZE : string := "https://github.com/login/oauth/authorize".
Definition GITHUB_TOKEN : string := "https://github.com/login/oauth/access_token".
Definition GITHUB_API : string := "https://api.github.com".

Record Identity := mkIdentity { id_login : string; id_name : string; id_avatar_url : string }.

(** [Identity.display] *)
Definition display (i : Identity) : string := if non_empty (id_name i) then id_name i else id_login i.

Record WebConfig := mkWebConfig {
  wc_base_url : string;
  wc_github_client_id : string;
  wc_github_client_secret : string;
  wc_github_org : string;
  wc_allowlist : list string;
  wc_allowlist_file : string;
  wc_session_secret : string;
  wc_session_max_age_seconds : Z;
  wc_admins : list string;
  wc_public_status : bool;
  wc_public_status_title : string;
  wc_public_status_cache_seconds : float;
  wc_metrics_token : string;
  wc_dev_login : string
}.

(** [WebConfig()] *)
Definition default_web : WebConfig :=
  mkWebConfig "http://localhost:8000" "" "" "" [] "" "" 1209600 [] false "GPU broker" (f_of_Z 15) "" "".

(** [a or os.environ.get(name, "")] *)
Definition or_env (environ : string -> option string) (a name : string) : string :=
  if non_empty a then a else default "" (environ name).

(** [resolved_secret()], [resolved_metrics_token()], [resolved_session_secret()] *)
Definition resolved_secret (environ : string -> option string) (c : WebConfig) : string :=
  or_env environ (wc_github_client_secret c) "GPU_BROKER_GITHUB_CLIENT_SECRET".
Definition resolved_metrics_token (environ : string -> option string) (c : WebConfig) : string :=
  or_env environ (wc_metrics_token c) "GPU_BROKER_METRICS_TOKEN".
Definition resolved_session_secret (environ : string -> option string) (generated : string) (c : WebConfig) : string :=
  let secret := or_env environ (wc_session_secret c) "GPU_BROKER_SESSION_SECRET" in
  if non_empty secret then secret else generated.

(** What [validate] takes for this machine. *)
Definition is_local (url : string) : bool := starts_with "http://localhost" url || starts_with "http://127.0.0.1" url.

(** [WebConfig.validate()] *)
Definition validate_web (c : WebConfig) : outcome exn unit :=
  let dev := non_empty (wc_dev_login c) in
  if dev && negb (is_local (wc_base_url c)) then
    Raise (ConfigError ("web.dev_login is set but base_url is '" +:+ wc_base_url c +:+ "'. That would "
      +:+ "sign in anybody who found the page. Only allowed on localhost"))
  else if negb dev && negb (non_empty (wc_github_client_id c)) then
    Raise (ConfigError ("web.github_client_id is not set. Register an OAuth app at "
      +:+ "https://github.com/settings/developers, or set web.dev_login "
      +:+ "to work on this locally without one"))
  else if negb dev && negb (non_empty (wc_github_org c)) && match wc_allowlist c with [] => true | _ => false end
          && negb (non_empty (wc_allowlist_file c)) then
    Raise (ConfigError ("nobody could sign in: set web.github_org, or web.allowlist, or "
      +:+ "web.allowlist_file"))
  else Ok tt.

(** The fields of the dataclass. *)
Definition WEB_FIELDS : list string :=
  ["base_url"; "github_client_id"; "github_client_secret"; "github_org"; "allowlist"; "allowlist_file";
   "session_secret"; "session_max_age_seconds"; "admins"; "public_status"; "public_status_title";
   "public_status_cache_seconds"; "metrics_token"; "dev_login"].

(** [tuple(v)] of what JSON gives *)
Definition json_tuple (v : json) : outcome exn (list json) :=
  match v with
  | JList xs => Ok xs
  | JStr s => Ok (map (fun c => JStr (String c "")) (String.list_ascii_of_string s))
  | JDict kvs => Ok (map (fun kv => JStr (fst kv)) kvs)
  | _ => Raise (TypeError "object is not iterable")
  end.

(** The settings a JSON object gives, tuples made of the two lists; a setting keeps
    whatever JSON value it was given. *)
Definition web_settings (raw : dict string json) : outcome exn (dict string json) :=
  let unknown := py_sort str_lt (List.filter (fun k => negb (bool_decide (k ∈ WEB_FIELDS))) (map fst raw)) in
  match unknown with
  | _ :: _ =>
      Raise (ConfigError ("unknown keys under 'web' in config.json: " +:+ str_join ", " unknown +:+ ". "
        +:+ "Known: " +:+ str_join ", " (py_sort str_lt WEB_FIELDS)))
  | [] =>
      omapM (fun kv => if bool_decide (fst kv ∈ ["allowlist"; "admins"])
                       then xs <-? json_tuple (snd kv);; Ok (fst kv, JList xs) else Ok kv) raw
  end.

Definition text_at (k d : string) (m : dict string json) : option string :=
  match dict_get k m with None => Some d | Some (JStr s) => Some s | Some _ => None end.

Definition texts_of (xs : list json) : option (list string) :=
  mapM (fun v => match v with JStr s => Some s | _ => None end) xs.

Definition texts_at (k : string) (m : dict string json) : option (list string) :=
  match dict_get k m with None => Some [] | Some (JList xs) => texts_of xs | Some _ => None end.

(** The record of settings that have the declared types; Python keeps the others as they are. *)
Definition web_of (m : dict string json) : option WebConfig :=
  base_url ← text_at "base_url" "http://localhost:8000" m;
  client_id ← text_at "github_client_id" "" m;
  client_secret ← text_at "github_client_secret" "" m;
  org ← text_at "github_org" "" m;
  allowlist ← texts_at "allowlist" m;
  allowlist_file ← text_at "allowlist_file" "" m;
  session_secret ← text_at "session_secret" "" m;
  max_age ← match dict_get "session_max_age_seconds" m with None => Some 1209600 | Some (JInt n) => Some n | Some _ => None end;
  admins ← texts_at "admins" m;
  status ← match dict_get "public_status" m with None => Some false | Some (JBool b) => Some b | Some _ => None end;
  title ← text_at "public_status_title" "GPU broker" m;
  cache ← match dict_get "public_status_cache_seconds" m with
          | None => Some (f_of_Z 15) | Some (JFloat x) => Some x | Some (JInt n) => Some (f_of_Z n) | Some _ => None
          end;
  token ← text_at "metrics_token" "" m;
  dev ← text_at "dev_login" "" m;
  Some (mkWebConfig base_url client_id client_secret org allowlist allowlist_file session_secret max_age admins
          status title cache token dev).

(** [load_web_config(raw)]: None when a setting has another type than its field. *)
Definition load_web_config (raw : option (dict string json)) : outcome exn (option WebConfig) :=
  match raw with
  | None | Some [] => Ok (Some default_web)
  | Some raw => settings <-? web_settings raw;; Ok (web_of settings)
  end.

(** ** Membership *)

Section Membership.
Context (read_file : string -> option string) (c : WebConfig).

(** [line.split("#", 1)[0].strip()] *)
Definition entry_of (line : string) : string := strip (hd "" (split_char "#" line)).

(** [Membership.allowed_logins()] *)
Definition allowed_logins : gset string :=
  list_to_set (map str_lower (wc_allowlist c))
  ∪ (if non_empty (wc_dev_login c) then {[str_lower (wc_dev_login c)]} else ∅)
  ∪ (if non_empty (wc_allowlist_file c) then
       match read_file (wc_allowlist_file c) with
       | Some text => list_to_set (map str_lower (List.filter non_empty (map entry_of (splitlines text))))
       | None => ∅
       end
     else ∅).

Definition is_allowed (login : string) : bool := bool_decide (str_lower login ∈ allowed_logins).

(** [Membership.check(identity, org_member)] *)
Definition check (i : Identity) (org_member : bool) : outcome exn unit :=
  if non_empty (wc_github_org c) && org_member then Ok tt
  else if is_allowed (id_login i) then Ok tt
  else if non_empty (wc_github_org c) then
    Raise (AuthError (id_login i +:+ " is not a public member of the "
      +:+ wc_github_org c +:+ " organisation. Ask an officer to add you, "
      +:+ "and make sure your membership is set to public in your GitHub "
      +:+ "organisation settings -- private membership is invisible to us"))
  else Raise (AuthError (id_login i +:+ " is not on the club allowlist. Ask an officer to add you")).

(** [Membership.recheck(login)] *)
Definition recheck (login : string) : outcome exn unit :=
  if non_empty (wc_github_org c) then Ok tt
  else if is_allowed login then Ok tt
  else Raise (AuthError (login +:+ " is no longer on the club allowlist. " +:+ "Ask an officer to add you back")).

(** [Membership.is_admin(login)] *)
Definition is_admin (login : string) : bool := bool_decide (str_lower login ∈ map str_lower (wc_admins c)).
End Membership.

(** ** Identity providers *)

(** [urllib.parse.quote_plus(s)], of bytes *)
Definition is_url_safe (c : ascii) : bool :=
  let n := nat_of_ascii c in
  ((65 <=? n) && (n <=? 90) || (97 <=? n) && (n <=? 122) || (48 <=? n) && (n <=? 57)
   || (n =? 95) || (n =? 46) || (n =? 45) || (n =? 126))%nat.

Definition upper_hex (n : Z) : ascii := ascii_of_nat (Z.to_nat (if n <? 10 then 48 + n else 55 + n)).

Definition url_byte (b : Z) : string :=
  let c := ascii_of_nat (Z.to_nat b) in
  if is_url_safe c then String c ""
  else if b =? 32 then "+"
  else String "%" (String (upper_hex (b / 16)) (String (upper_hex (b mod 16)) "")).

Definition quote_plus (s : string) : string := String.concat "" (map url_byte (utf8 s)).

(** [urlencode(pairs)] *)
Definition urlencode (pairs : list (string * string)) : string :=
  str_join "&" (map (fun kv => quote_plus (fst kv) +:+ "=" +:+ quote_plus (snd kv)) pairs).

(** [s.rstrip("/")] *)
Fixpoint rstrip_slashes (s : string) : string :=
  match s with
  | EmptyString => ""
  | String c s' => match rstrip_slashes s' with
                   | EmptyString => if Ascii.eqb c "/" then "" else String c ""
                   | r => String c r
                   end
  end.

(** The calls of httpx: the JSON a post or a get answers, and a status. *)
Record HttpClient (W : Type) := mkHttpClient {
  http_post : string -> list (string * string) -> M W exn json;
  http_get : string -> string -> M W exn json;
  http_status : string -> string -> M W exn Z
}.
Arguments http_post {W}. Arguments http_get {W}. Arguments http_status {W}.

Record IdentityProvider (W : Type) := mkIdentityProvider {
  authorize_url : string -> string;
  exchange : string -> M W exn (Identity * bool)
}.
Arguments authorize_url {W}. Arguments exchange {W}.

(** [v.get(key)] that is a text, or nothing; [x or y] *)
Definition json_text (key : string) (v : json) : outcome exn string :=
  t <-? json_get key (JStr "") v;; Ok (match t with JStr s => s | _ => "" end).

Section Providers.
Context {W : Type} (environ : string -> option string) (c : WebConfig) (client : HttpClient W).

Definition redirect_uri : string := rstrip_slashes (wc_base_url c) +:+ "/auth/callback".

(** [GitHubProvider.exchange(code)] *)
Definition github_exchange (code : string) : M W exn (Identity * bool) :=
  let secret := resolved_secret environ c in
  if negb (non_empty secret) then
    raise (AuthError ("the GitHub client secret is not configured. Set "
      +:+ "GPU_BROKER_GITHUB_CLIENT_SECRET in the environment"))
  else
    payload <- http_post client GITHUB_TOKEN
                 [("client_id", wc_github_client_id c); ("client_secret", secret); ("code", code); ("redirect_uri", redirect_uri)];;
    token <- lift_outcome (json_text "access_token" payload);;
    if negb (non_empty token) then
      why <- lift_outcome (e <-? json_get "error" (JStr "no token") payload;; json_get "error_description" e payload);;
      raise (AuthError ("GitHub refused the sign-in: " +:+ match why with JStr s => s | v => str_json v end))
    else
      user <- http_get client (GITHUB_API +:+ "/user") token;;
      login <- lift_outcome (json_text "login" user);;
      if negb (non_empty login) then raise (AuthError "GitHub did not tell us who you are")
      else
        org_member <- (if non_empty (wc_github_org c) then
                         status <- http_status client (GITHUB_API +:+ "/orgs/" +:+ wc_github_org c +:+ "/members/" +:+ login) token;;
                         ret (status =? 204)
                       else ret false);;
        name <- lift_outcome (json_text "name" user);;
        avatar <- lift_outcome (json_text "avatar_url" user);;
        ret (mkIdentity login (if non_empty name then name else login) avatar, org_member).

(** [GitHubProvider] *)
Definition github_provider : IdentityProvider W := {|
  authorize_url state := GITHUB_AUTHORIZE +:+ "?" +:+ urlencode
    [("client_id", wc_github_client_id c); ("redirect_uri", redirect_uri);
     ("scope", if non_empty (wc_github_org c) then "read:org" else "read:user"); ("state", state)];
  exchange := github_exchange
|}.

(** [DevProvider] *)
Definition dev_provider (login : string) : IdentityProvider W := {|
  authorize_url state := "/auth/callback?code=dev&state=" +:+ state;
  exchange code := ret (mkIdentity login (login +:+ " (dev)") "", true)
|}.

(** The provider [create_app] makes when it is given none. *)
Definition provider_for : IdentityProvider W :=
  if non_empty (wc_dev_login c) then dev_provider (wc_dev_login c) else github_provider.
End Providers.

(** ** Sessions *)

(** [URLSafeTimedSerializer]: [sign] at a second, [unsign] at a second with a maximal age. *)
Record Signer := mkSigner {
  sign : Z -> json -> string;
  unsign : Z -> Z -> string -> option json
}.

(** [Sessions.issue(identity)] *)
Definition issue (sg : Signer) (second : Z) (i : Identity) : string :=
  sign sg second (JDict [("login", JStr (id_login i)); ("name", JStr (id_name i)); ("avatar", JStr (id_avatar_url i))]).

(** [Sessions.read(token)]; what is signed are the texts of [issue]. *)
Definition read_session (sg : Signer) (second max_age : Z) (token : option string) : option Identity :=
  match token with
  | None | Some EmptyString => None
  | Some token =>
      match unsign sg second max_age token with
      | Some (JDict kvs) =>
          let text k := match dict_get k kvs with Some (JStr s) => s | _ => "" end in
          if non_empty (text "login") then Some (mkIdentity (text "login") (text "name") (text "avatar")) else None
      | _ => None
      end
  end.
