(* ===== verification/ConfigLoad.v ===== *)
(** * config.py: reading config.json

    [load_config] from the text of the file (None when there is none), with the
    overrides of the caller.  The settings that may be given are a table of fields;
    each coerces the JSON value it finds.  A result [None] is a configuration that
    holds something else than its fields declare (a number for a text in a nested
    object, a budget that is not finite): Python keeps such values as they are, and
    what it then does with them is not described.  The directory it makes and the
    path of the database are left out; the text of a JSON error is an argument. *)

From Stdlib Require Import Ascii.
From S2P Require Import Prelude PyFloat PyDecimal PyFormat PySort PyDict Errors Money Clock PyJson PyText Checkpoint CheckpointStore S3Store States Models Config Tables Store StoreInv StoreSafe Backend Commands Volumes Aws Hosts Gce PriceList Report Broker Digest WebAuth.
Local Open Scope Z_scope.
Local Open Scope py_scope.

(** ** What was loaded *)

(** [BrokerConfig] with the fields the other modules read elsewhere. *)
Record Loaded := mkLoaded {
  ld_config : BrokerConfig;
  ld_checkpoint_root : string;
  ld_checkpoint_prefix : string;
  ld_environment_root : string;
  ld_ecr_repository : string;
  ld_digest_webhook : string;
  ld_metrics_retention_days : float;
  ld_aws : AwsConfig;
  ld_gce : GceConfig;
  ld_local : LocalConfig;
  ld_volumes : VolumeConfig;
  ld_web : WebConfig
}.

(** [BrokerConfig(db_path=...)] *)
Definition unloaded : Loaded :=
  mkLoaded default_config "" "checkpoints" "~/.gpu-broker/envs" "" "" (f_of_Z 90) default_aws default_gce default_local
    default_volumes default_web.

(** ** Coercions *)

(** [bool(v)] *)
Definition truth (v : json) : bool :=
  match v with
  | JNull | JBool false | JInt 0 | JStr EmptyString | JList [] | JDict [] => false
  | JFloat x => negb (f_eq x f0)
  | _ => true
  end.

(** The texts [Decimal] reads as an infinity or as no number. *)
Definition is_special (s : string) : bool :=
  let s := str_lower (strip s) in
  let s := if starts "-" s || starts "+" s then tail s else s in
  let after p := match strip_prefix p s with Some r => str_forall is_digit_char r | None => false end in
  String.eqb s "inf" || String.eqb s "infinity" || after "nan" || after "snan".

(** [money(v)]: None when it is not finite *)
Definition money_of (v : json) : outcome exn (option Decimal) :=
  match raw_money v with
  | Some d => Ok (Some d)
  | None =>
      match v with
      | JFloat _ => Ok None
      | JStr s => if is_special s then Ok None else Raise (ArithmeticError "[<class 'decimal.ConversionSyntax'>]")
      | _ => Raise (ArithmeticError "[<class 'decimal.ConversionSyntax'>]")
      end
  end.

Inductive Setting : Type :=
| VText (s : string)
| VFloat (x : float)
| VMoney (d : Decimal)
| VInt (n : Z)
| VBool (b : bool)
| VTexts (l : list string).

(** The functions of [_OVERRIDABLE] *)
Inductive Kind : Type := KText | KFloat | KMoney | KInt | KBool | KTexts.

(** [_OVERRIDABLE[key](value)], and [tuple] of the two lists *)
Definition coerce (k : Kind) (v : json) : outcome exn (option Setting) :=
  match k with
  | KText => Ok (Some (VText (str_json v)))
  | KFloat => x <-? float_of v;; Ok (Some (VFloat x))
  | KMoney => d <-? money_of v;; Ok (option_map VMoney d)
  | KInt => n <-? int_of v;; Ok (Some (VInt n))
  | KBool => Ok (Some (VBool (truth v)))
  | KTexts => xs <-? json_tuple v;; Ok (option_map VTexts (texts_of xs))
  end.

(** ** The table *)

Record Field := mkField {
  fd_key : string;
  fd_kind : Kind;
  fd_get : Loaded -> Setting;
  fd_set : Setting -> Loaded -> Loaded
}.

(** A field of one kind; a setting of another kind is never stored. *)
Definition text_field key get set : Field := mkField key KText (fun c => VText (get c)) (fun v c => match v with VText s => set s c | _ => c end).
Definition float_field key get set : Field := mkField key KFloat (fun c => VFloat (get c)) (fun v c => match v with VFloat s => set s c | _ => c end).
Definition money_field key get set : Field := mkField key KMoney (fun c => VMoney (get c)) (fun v c => match v with VMoney s => set s c | _ => c end).
Definition int_field key get set : Field := mkField key KInt (fun c => VInt (get c)) (fun v c => match v with VInt s => set s c | _ => c end).
Definition bool_field key get set : Field := mkField key KBool (fun c => VBool (get c)) (fun v c => match v with VBool s => set s c | _ => c end).
Definition texts_field key get set : Field := mkField key KTexts (fun c => VTexts (get c)) (fun v c => match v with VTexts s => set s c | _ => c end).

(** A field of the record the other modules use *)
Definition inner {A} (set : A -> BrokerConfig -> BrokerConfig) (x : A) (c : Loaded) : Loaded :=
  {| c with ld_config := set x (ld_config c) |}.

Local Notation "'cf' f" := (fun c => f (ld_config c)) (at level 10, f at level 9).

(** [_OVERRIDABLE] *)
Definition OVERRIDABLE : list Field := [
  text_field "timezone" (cf timezone) (inner (fun x c => {| c with timezone := x |}));
  float_field "w_fair" (cf w_fair) (inner (fun x c => {| c with w_fair := x |}));
  float_field "w_age" (cf w_age) (inner (fun x c => {| c with w_age := x |}));
  float_field "age_max_hours" (cf age_max_hours) (inner (fun x c => {| c with age_max_hours := x |}));
  float_field "fairshare_window_days" (cf fairshare_window_days) (inner (fun x c => {| c with fairshare_window_days := x |}));
  float_field "fairshare_half_life_days" (cf fairshare_half_life_days) (inner (fun x c => {| c with fairshare_half_life_days := x |}));
  float_field "w_usd_share" (cf w_usd_share) (inner (fun x c => {| c with w_usd_share := x |}));
  float_field "w_gpu_hour_share" (cf w_gpu_hour_share) (inner (fun x c => {| c with w_gpu_hour_share := x |}));
  money_field "default_budget_usd" (cf default_budget_usd) (inner (fun x c => {| c with default_budget_usd := x |}));
  money_field "default_budget_gpu_hours" (cf default_budget_gpu_hours) (inner (fun x c => {| c with default_budget_gpu_hours := x |}));
  money_field "pool_budget_usd" (cf pool_budget_usd) (inner (fun x c => {| c with pool_budget_usd := x |}));
  money_field "pool_budget_gpu_hours" (cf pool_budget_gpu_hours) (inner (fun x c => {| c with pool_budget_gpu_hours := x |}));
  money_field "max_job_usd" (cf max_job_usd) (inner (fun x c => {| c with max_job_usd := x |}));
  money_field "max_job_gpu_hours" (cf max_job_gpu_hours) (inner (fun x c => {| c with max_job_gpu_hours := x |}));
  float_field "max_job_hours" (cf max_job_hours) (inner (fun x c => {| c with max_job_hours := x |}));
  int_field "max_command_bytes" (cf max_command_bytes) (inner (fun x c => {| c with max_command_bytes := x |}));
  int_field "max_queued_jobs_per_user" (cf max_queued_jobs_per_user) (inner (fun x c => {| c with max_queued_jobs_per_user := x |}));
  int_field "max_running_jobs_per_user" (cf max_running_jobs_per_user) (inner (fun x c => {| c with max_running_jobs_per_user := x |}));
  int_field "max_log_lines_per_job" (cf max_log_lines_per_job) (inner (fun x c => {| c with max_log_lines_per_job := x |}));
  int_field "max_log_line_bytes" (cf max_log_line_bytes) (inner (fun x c => {| c with max_log_line_bytes := x |}));
  float_field "startup_allowance_hours" (cf startup_allowance_hours) (inner (fun x c => {| c with startup_allowance_hours := x |}));
  texts_field "backends" (cf cfg_backends) (inner (fun x c => {| c with cfg_backends := x |}));
  texts_field "placement_order" (cf placement_order) (inner (fun x c => {| c with placement_order := x |}));
  float_field "forecast_window_days" (cf forecast_window_days) (inner (fun x c => {| c with forecast_window_days := x |}));
  float_field "forecast_min_days" (cf forecast_min_days) (inner (fun x c => {| c with forecast_min_days := x |}));
  float_field "forecast_warning_days" (cf forecast_warning_days) (inner (fun x c => {| c with forecast_warning_days := x |}));
  float_field "forecast_critical_days" (cf forecast_critical_days) (inner (fun x c => {| c with forecast_critical_days := x |}));
  float_field "idle_threshold_percent" (cf idle_threshold_percent) (inner (fun x c => {| c with idle_threshold_percent := x |}));
  float_field "idle_window_minutes" (cf idle_window_minutes) (inner (fun x c => {| c with idle_window_minutes := x |}));
  int_field "idle_min_samples" (cf idle_min_samples) (inner (fun x c => {| c with idle_min_samples := x |}));
  float_field "idle_grace_minutes" (cf idle_grace_minutes) (inner (fun x c => {| c with idle_grace_minutes := x |}));
  float_field "idle_sample_interval_seconds" (cf idle_sample_interval_seconds) (inner (fun x c => {| c with idle_sample_interval_seconds := x |}));
  bool_field "reclaim_enabled" (cf reclaim_enabled) (inner (fun x c => {| c with reclaim_enabled := x |}));
  float_field "price_refresh_days" (cf price_refresh_days) (inner (fun x c => {| c with price_refresh_days := x |}));
  int_field "spot_max_preemptions_without_progress" (cf spot_max_preemptions_without_progress) (inner (fun x c => {| c with spot_max_preemptions_without_progress := x |}));
  int_field "spot_max_launch_failures" (cf spot_max_launch_failures) (inner (fun x c => {| c with spot_max_launch_failures := x |}));
  float_field "spot_cooldown_seconds" (cf spot_cooldown_seconds) (inner (fun x c => {| c with spot_cooldown_seconds := x |}));
  float_field "checkpoint_deadline_seconds" (cf checkpoint_deadline_seconds) (inner (fun x c => {| c with checkpoint_deadline_seconds := x |}));
  text_field "checkpoint_store" (cf checkpoint_store) (inner (fun x c => {| c with checkpoint_store := x |}));
  text_field "checkpoint_root" ld_checkpoint_root (fun x c => {| c with ld_checkpoint_root := x |});
  text_field "checkpoint_bucket" (cf checkpoint_bucket) (inner (fun x c => {| c with checkpoint_bucket := x |}));
  text_field "checkpoint_prefix" ld_checkpoint_prefix (fun x c => {| c with ld_checkpoint_prefix := x |});
  text_field "environment_root" ld_environment_root (fun x c => {| c with ld_environment_root := x |});
  text_field "ecr_repository" ld_ecr_repository (fun x c => {| c with ld_ecr_repository := x |});
  text_field "digest_webhook" ld_digest_webhook (fun x c => {| c with ld_digest_webhook := x |});
  float_field "metrics_retention_days" ld_metrics_retention_days (fun x c => {| c with ld_metrics_retention_days := x |})
].

Definition field_of (key : string) : option Field := List.find (fun f => String.eqb (fd_key f) key) OVERRIDABLE.

(** ** The nested objects *)

Definition as_text (v : json) : option string := match v with JStr s => Some s | _ => None end.
Definition as_opt_text (v : json) : option (option string) :=
  match v with JNull => Some None | JStr s => Some (Some s) | _ => None end.
Definition as_int (v : json) : option Z := match v with JInt n => Some n | _ => None end.
Definition as_bool (v : json) : option bool := match v with JBool b => Some b | _ => None end.
Definition as_float (v : json) : option float :=
  match v with JFloat x => Some x | JInt n => Some (f_of_Z n) | _ => None end.
Definition as_texts (v : json) : option (list string) := match v with JList xs => texts_of xs | _ => None end.
Definition as_dict {A} (read : json -> option A) (v : json) : option (dict string A) :=
  match v with JDict kvs => mapM (fun kv => option_map (pair (fst kv)) (read (snd kv))) kvs | _ => None end.

(** The value of a field: given, of its type, or the default. *)
Definition given {A} (read : json -> option A) (d : A) (key : string) (m : dict string json) : option A :=
  match dict_get key m with None => Some d | Some v => read v end.

(** The keys that are no field: refused, with both lists in order. *)
Definition known_only (what : string) (sep : string) (known : list string) (raw : dict string json) : outcome exn unit :=
  match py_sort str_lt (List.filter (fun k => negb (bool_decide (k ∈ known))) (map fst raw)) with
  | [] => Ok tt
  | unknown => Raise (ConfigError ("unknown keys " +:+ what +:+ ": " +:+ str_join ", " unknown +:+ ". "
                 +:+ sep +:+ str_join ", " (py_sort str_lt known)))
  end.

Definition in_config (name : string) : string := "under '" +:+ name +:+ "' in config.json".

(** [settings[key] = tuple(settings[key])] when it is given *)
Definition tupled (key : string) (m : dict string json) : outcome exn (dict string json) :=
  match dict_get key m with
  | None => Ok m
  | Some v => xs <-? json_tuple v;; Ok (dict_set key (JList xs) m)
  end.

(** [not raw] *)
Definition absent (raw : option (dict string json)) : bool := match raw with None | Some [] => true | _ => false end.

Definition AWS_FIELDS : list string :=
  ["region"; "ami"; "instance_profile"; "log_group"; "subnet_id"; "security_group_ids"; "instance_types";
   "spot_instance_types"; "max_instances"; "agent_timeout_seconds"; "working_dir"; "shutdown_behavior"].

Definition aws_of (m : dict string json) : option AwsConfig :=
  let d := default_aws in
  region ← given as_text (aws_region d) "region" m;
  ami ← given as_opt_text (aws_ami d) "ami" m;
  profile ← given as_opt_text (aws_instance_profile d) "instance_profile" m;
  log_group ← given as_text (aws_log_group d) "log_group" m;
  subnet ← given as_opt_text (aws_subnet_id d) "subnet_id" m;
  groups ← given as_texts (aws_security_group_ids d) "security_group_ids" m;
  types ← given (as_dict as_text) (aws_instance_types d) "instance_types" m;
  spot ← given (as_dict as_texts) (aws_spot_instance_types d) "spot_instance_types" m;
  most ← given (as_dict as_int) (aws_max_instances d) "max_instances" m;
  timeout ← given as_float (aws_agent_timeout_seconds d) "agent_timeout_seconds" m;
  dir ← given as_text (aws_working_dir d) "working_dir" m;
  shutdown ← given as_text (aws_shutdown_behavior d) "shutdown_behavior" m;
  Some (mkAwsConfig region ami profile log_group subnet groups types spot most timeout dir shutdown).

(** [load_aws_config(raw)] *)
Definition load_aws_config (raw : option (dict string json)) : outcome exn (option AwsConfig) :=
  if absent raw then Ok (Some default_aws)
  else
    let raw := default [] raw in
    _ <-? known_only (in_config "aws") "Known: " AWS_FIELDS raw;;
    settings <-? tupled "security_group_ids" raw;;
    Ok (aws_of settings).

Definition GCE_FIELDS : list string :=
  ["project"; "zone"; "boot_image"; "network"; "subnetwork"; "external_ip"; "service_account"; "service_account_scopes";
   "ssh_username"; "ssh_private_key"; "known_hosts"; "ssh_timeout_seconds"; "machine_types"; "accelerator_types";
   "accelerator_counts"; "max_instances"].

Definition gce_of (m : dict string json) : option GceConfig :=
  let d := default_gce in
  project ← given as_text (gc_project d) "project" m;
  zone ← given as_text (gc_zone d) "zone" m;
  image ← given as_text (gc_boot_image d) "boot_image" m;
  network ← given as_text (gc_network d) "network" m;
  subnetwork ← given as_text (gc_subnetwork d) "subnetwork" m;
  external ← given as_bool (gc_external_ip d) "external_ip" m;
  account ← given as_text (gc_service_account d) "service_account" m;
  scopes ← given as_texts (gc_service_account_scopes d) "service_account_scopes" m;
  user ← given as_text (gc_ssh_username d) "ssh_username" m;
  key ← given as_text (gc_ssh_private_key d) "ssh_private_key" m;
  hosts ← given as_text (gc_known_hosts d) "known_hosts" m;
  timeout ← given as_float (gc_ssh_timeout_seconds d) "ssh_timeout_seconds" m;
  machines ← given (as_dict as_text) (gc_machine_types d) "machine_types" m;
  cards ← given (as_dict as_text) (gc_accelerator_types d) "accelerator_types" m;
  counts ← given (as_dict as_int) (gc_accelerator_counts d) "accelerator_counts" m;
  most ← given (as_dict as_int) (gc_max_instances d) "max_instances" m;
  Some (mkGceConfig project zone image network subnetwork external account scopes user key hosts timeout machines cards counts most).

(** [load_gce_config(raw)] *)
Definition load_gce_config (raw : option (dict string json)) : outcome exn (option GceConfig) :=
  if absent raw then Ok (Some default_gce)
  else
    let raw := default [] raw in
    _ <-? known_only (in_config "gce") "Known: " GCE_FIELDS raw;;
    settings <-? tupled "service_account_scopes" raw;;
    Ok (gce_of settings).

Definition VOLUME_FIELDS : list string := ["enabled"; "efs_id"; "region"; "local_root"; "quota_gb"].

Definition volumes_of (m : dict string json) : option VolumeConfig :=
  let d := default_volumes in
  enabled ← given as_bool (vc_enabled d) "enabled" m;
  efs ← given as_text (vc_efs_id d) "efs_id" m;
  region ← given as_text (vc_region d) "region" m;
  root ← given as_text (vc_local_root d) "local_root" m;
  quota ← given as_float (vc_quota_gb d) "quota_gb" m;
  Some (mkVolumeConfig enabled efs region root quota).

(** [config.validate()], when the configuration is one *)
Definition validated {A} (check : A -> outcome exn unit) (c : option A) : outcome exn (option A) :=
  match c with None => Ok None | Some c => _ <-? check c;; Ok (Some c) end.

(** [load_volume_config(raw)] *)
Definition load_volume_config (raw : option (dict string json)) : outcome exn (option VolumeConfig) :=
  if absent raw then Ok (Some default_volumes)
  else
    let raw := default [] raw in
    _ <-? known_only (in_config "volumes") "Known: " VOLUME_FIELDS raw;;
    validated validate_volumes (volumes_of raw).

Definition HOST_FIELDS : list string := ["hostname"; "username"; "port"; "client_key"; "known_hosts"].

Definition host_of (m : dict string json) : option HostSpec :=
  name ← given as_text "" "hostname" m;
  user ← given as_text "broker" "username" m;
  port ← given as_int 22 "port" m;
  key ← given as_opt_text None "client_key" m;
  hosts ← given as_opt_text None "known_hosts" m;
  Some (mkHostSpec name user port key hosts).

(** [_host_from(entry)] *)
Definition host_from (entry : json) : outcome exn (option HostSpec) :=
  match entry with
  | JStr name => Ok (Some (mkHostSpec name "broker" 22 None None))
  | JDict kvs =>
      _ <-? known_only "in a local.hosts entry" "Known: " HOST_FIELDS kvs;;
      match dict_get "hostname" kvs with
      | None => Raise (TypeError "HostSpec.__init__() missing 1 required positional argument: 'hostname'")
      | Some _ => Ok (host_of kvs)
      end
  | JList _ => Ok None
  | _ => Raise (TypeError "object is not iterable")
  end.

Definition LOCAL_FIELDS : list string :=
  ["hosts"; "gpu_type"; "max_jobs_per_gpu"; "job_root"; "working_dir"; "mps_pipe_dir"; "mps_log_dir";
   "default_gpu_memory_mb"; "default_memory_max_mb"; "default_cpu_quota_percent"; "use_sudo"; "run_as";
   "health_interval_seconds"; "command_timeout_seconds"; "poll_timeout_seconds"].

Definition local_of (hosts : option (list HostSpec)) (m : dict string json) : option LocalConfig :=
  let d := default_local in
  hosts ← hosts;
  gpu_type ← given as_text (lc_gpu_type d) "gpu_type" m;
  jobs ← given as_int (lc_max_jobs_per_gpu d) "max_jobs_per_gpu" m;
  root ← given as_text (lc_job_root d) "job_root" m;
  dir ← given as_text (lc_working_dir d) "working_dir" m;
  pipe ← given as_text (lc_mps_pipe_dir d) "mps_pipe_dir" m;
  log ← given as_text (lc_mps_log_dir d) "mps_log_dir" m;
  gpu_memory ← given as_int (lc_default_gpu_memory_mb d) "default_gpu_memory_mb" m;
  memory ← given as_int (lc_default_memory_max_mb d) "default_memory_max_mb" m;
  cpu ← given as_int (lc_default_cpu_quota_percent d) "default_cpu_quota_percent" m;
  sudo ← given as_bool (lc_use_sudo d) "use_sudo" m;
  run_as ← given as_text (lc_run_as d) "run_as" m;
  interval ← given as_float (lc_health_interval_seconds d) "health_interval_seconds" m;
  timeout ← given as_float (lc_command_timeout_seconds d) "command_timeout_seconds" m;
  poll_timeout ← given as_float (lc_poll_timeout_seconds d) "poll_timeout_seconds" m;
  Some (mkLocalConfig hosts gpu_type jobs root dir pipe log gpu_memory memory cpu sudo run_as interval timeout poll_timeout).

(** [load_local_config(raw)] *)
Definition load_local_config (raw : option (dict string json)) : outcome exn (option LocalConfig) :=
  if absent raw then Ok (Some default_local)
  else
    let raw := default [] raw in
    _ <-? known_only (in_config "local") "Known: " LOCAL_FIELDS raw;;
    hosts <-? match dict_get "hosts" raw with
              | None => Ok (Some (lc_hosts default_local))
              | Some v => entries <-? json_tuple v;; hosts <-? omapM host_from entries;; Ok (mapM id hosts)
              end;;
    validated validate_local (local_of hosts raw).

(** ** The whole file *)

(** [settings.pop(name, None)], which must be an object if it is there *)
Definition object_at (name : string) (m : dict string json) : outcome exn (option (dict string json)) :=
  match dict_get name m with
  | None | Some JNull => Ok None
  | Some (JDict kvs) => Ok (Some kvs)
  | Some _ => Raise (ConfigError ("'" +:+ name +:+ "' in config.json must be an object"))
  end.

Definition NESTED : list string := ["aws"; "gce"; "local"; "volumes"; "web"].

(** One coerced setting, put where it belongs; None once a value is of another type. *)
Definition put_setting (acc : option Loaded) (kv : string * option Setting) : option Loaded :=
  match acc, snd kv, field_of (fst kv) with
  | Some c, Some v, Some f => Some (fd_set f v c)
  | _, _, _ => None
  end.

(** [{key: _OVERRIDABLE[key](value) for key, value in settings.items()}] *)
Definition coerce_all (settings : dict string json) : outcome exn (dict string (option Setting)) :=
  omapM (fun kv => match field_of (fst kv) with
                   | Some f => v <-? coerce (fd_kind f) (snd kv);; Ok (fst kv, v)
                   | None => Raise (KeyError (fst kv))
                   end) settings.

(** The nested configurations, set on what the flat settings gave. *)
Definition with_nested (c : option Loaded) (a : option AwsConfig) (g : option GceConfig) (l : option LocalConfig)
    (w : option WebConfig) (v : option VolumeConfig) : option Loaded :=
  c ← c; a ← a; g ← g; l ← l; w ← w; v ← v;
  Some {| c with ld_aws := a; ld_gce := g; ld_local := l; ld_volumes := v; ld_web := w |}.

(** The settings of the file, under those of the caller *)
Definition merged (path : string) (json_error : string -> string) (text : option string) (overrides : dict string json)
  : outcome exn (dict string json) :=
  raw <-? match text with
          | None => Ok []
          | Some text =>
              match loads text with
              | None => Raise (ConfigError (path +:+ " is not valid JSON: " +:+ json_error text))
              | Some (JDict kvs) => Ok kvs
              | Some _ => Raise (ConfigError (path +:+ " must contain a JSON object"))
              end
          end;;
  Ok (fold_left (fun m kv => dict_set (fst kv) (snd kv) m) overrides raw).

(** [load_config], from the settings on *)
Definition configure (path : string) (settings : dict string json) : outcome exn (option Loaded) :=
  aws <-? object_at "aws" settings;;
  gce <-? object_at "gce" settings;;
  local <-? object_at "local" settings;;
  volumes <-? object_at "volumes" settings;;
  web <-? object_at "web" settings;;
  let flat := List.filter (fun kv => negb (bool_decide (fst kv ∈ NESTED))) settings in
  match py_sort str_lt (List.filter (fun k => match field_of k with None => true | Some _ => false end) (map fst flat)) with
  | (_ :: _) as unknown =>
      Raise (ConfigError ("unknown config keys in " +:+ path +:+ ": " +:+ str_join ", " unknown +:+ ". Known keys: "
        +:+ str_join ", " (py_sort str_lt (map fd_key OVERRIDABLE))))
  | [] =>
      coerced <-? coerce_all flat;;
      a <-? load_aws_config aws;;
      g <-? load_gce_config gce;;
      l <-? load_local_config local;;
      w <-? load_web_config web;;
      v <-? load_volume_config volumes;;
      validated (fun c => validate (ld_config c))
        (with_nested (fold_left put_setting coerced (Some unloaded)) a g l w v)
  end.

(** [load_config(state_dir, overrides)] *)
Definition load_config (path : string) (json_error : string -> string) (text : option string) (overrides : dict string json)
  : outcome exn (option Loaded) :=
  settings <-? merged path json_error text overrides;; configure path settings.
