(* ===== verification/ConfigProps.v ===== *)
(** * What a loaded configuration is

    Each setting lands in its own field ([fields_apart]), so a configuration is the
    defaults with exactly the settings that were given, and it passed every check;
    the nested objects are described by slots, which say how the value of a field is
    written ([held]). *)

From S2P Require Import Prelude PyFloat PyDecimal PyFormat PySort PyDict Errors Money Clock PyJson PyText Checkpoint CheckpointStore S3Store States Models Config Tables Store StoreInv StoreSafe Backend Commands Volumes Aws Hosts Gce PriceList Report Broker Digest WebAuth ConfigLoad.
Local Open Scope Z_scope.
Local Open Scope py_scope.

#[local] Arguments field_of : simpl never.

(** ** The table *)

(** Every member of a list that is written out *)
Ltac each tac := repeat (apply Forall_cons_2; [solve [tac]|]); apply Forall_nil_2.

Lemma fields_apart : Forall (fun f => Forall (fun g => fd_key f = fd_key g \/
  forall v c, fd_get f (fd_set g v c) = fd_get f c) OVERRIDABLE) OVERRIDABLE.
Proof.
  unfold OVERRIDABLE.
  each ltac:(each ltac:(first [left; reflexivity | right; intros [] c; reflexivity])).
Qed.

(** The settings a coercion makes *)
Definition of_kind (k : Kind) (v : Setting) : bool :=
  match k, v with
  | KText, VText _ | KFloat, VFloat _ | KMoney, VMoney _ | KInt, VInt _ | KBool, VBool _ | KTexts, VTexts _ => true
  | _, _ => false
  end.

Lemma field_holds : Forall (fun f => forall v c, of_kind (fd_kind f) v = true -> fd_get f (fd_set f v c) = v) OVERRIDABLE.
Proof. unfold OVERRIDABLE. each ltac:(intros [] c H; first [discriminate H | reflexivity]). Qed.

Lemma fields_flat f c a g l v w : f ∈ OVERRIDABLE ->
  fd_get f {| c with ld_aws := a; ld_gce := g; ld_local := l; ld_volumes := v; ld_web := w |} = fd_get f c.
Proof.
  revert f. apply Forall_forall. unfold OVERRIDABLE. each ltac:(cbn beta; reflexivity).
Qed.

Lemma keys_distinct : NoDup (map fd_key OVERRIDABLE).
Proof. by apply (bool_decide_unpack _). Qed.

Lemma find_distinct {A} (key : A -> string) x xs : NoDup (map key xs) -> x ∈ xs ->
  List.find (fun y => String.eqb (key y) (key x)) xs = Some x.
Proof.
  induction xs as [|y xs IH]; [by intros _ ?%elem_of_nil|]. cbn.
  intros [Hy Hn]%NoDup_cons [->|Hx]%elem_of_cons; [by rewrite String.eqb_refl|].
  destruct (String.eqb_spec (key y) (key x)) as [He|]; [|by apply IH].
  destruct Hy. rewrite He. by apply list_elem_of_fmap_2.
Qed.

Lemma field_of_own f : f ∈ OVERRIDABLE -> field_of (fd_key f) = Some f.
Proof. intros Hf. unfold field_of. by apply find_distinct; [apply keys_distinct|]. Qed.

Lemma field_of_key key f : field_of key = Some f -> f ∈ OVERRIDABLE /\ fd_key f = key.
Proof. intros [Hin He]%List.find_some. split; [by apply list_elem_of_In|by apply String.eqb_eq]. Qed.

Lemma field_apart f g v c : f ∈ OVERRIDABLE -> g ∈ OVERRIDABLE -> fd_key f <> fd_key g ->
  fd_get f (fd_set g v c) = fd_get f c.
Proof.
  intros Hf Hg Hk. pose proof fields_apart as H. rewrite Forall_forall in H. specialize (H f Hf).
  rewrite Forall_forall in H. destruct (H g Hg); [done|auto].
Qed.

Lemma coerce_kind k v x : coerce k v = Ok (Some x) -> of_kind k x = true.
Proof.
  destruct k; cbn; [by intros [= <-]|intros (y & _ & [= <-])%obind_ok; done| |intros (y & _ & [= <-])%obind_ok; done
    |by intros [= <-]|].
  - intros (d & _ & H)%obind_ok. destruct d; [by injection H as <-|done].
  - intros (l & _ & H)%obind_ok. destruct (texts_of l); [by injection H as <-|done].
Qed.

(** ** Putting the settings in *)

Lemma dict_get_no_key {V} k (m : dict string V) : k ∉ map fst m -> dict_get k m = None.
Proof.
  intros Hk. destruct (dict_get k m) as [v|] eqn:He; [|done]. apply dict_get_in in He.
  destruct Hk. by apply (list_elem_of_fmap_2 fst) in He.
Qed.

Lemma put_none kvs : fold_left put_setting kvs None = None.
Proof. by induction kvs. Qed.

Lemma put_some c k v :
  put_setting (Some c) (k, Some v) = match field_of k with Some f => Some (fd_set f v c) | None => None end.
Proof. done. Qed.

(** What the fields hold once coerced settings with different keys were put in *)
Lemma put_exact kvs c c' :
  NoDup (map fst kvs) ->
  Forall (fun kv => match snd kv, field_of (fst kv) with Some v, Some f => of_kind (fd_kind f) v = true | _, _ => True end) kvs ->
  fold_left put_setting kvs (Some c) = Some c' ->
  forall f, f ∈ OVERRIDABLE ->
    match dict_get (fd_key f) kvs with
    | Some v => v = Some (fd_get f c')
    | None => fd_get f c' = fd_get f c
    end.
Proof.
  revert c. induction kvs as [|[k v] kvs IH]; intros c; [by cbn; intros _ _ [= <-]|].
  intros [Hk Hn]%NoDup_cons [Hv Hvs]%Forall_cons H f Hf. cbn in Hv |- *.
  change (fold_left put_setting kvs (put_setting (Some c) (k, v)) = Some c') in H.
  destruct v as [v|]; [|change (fold_left put_setting kvs None = Some c') in H; by rewrite put_none in H].
  rewrite put_some in H. destruct (field_of k) as [g|] eqn:Hg; [|by rewrite put_none in H].
  apply field_of_key in Hg as [Hg Hgk]. specialize (IH _ Hn Hvs H f Hf).
  destruct (decide (k = fd_key f)) as [->|Hne].
  - assert (Hnone : dict_get (fd_key f) kvs = None).
    { by apply dict_get_no_key. }
    rewrite Hnone in IH. rewrite IH. assert (g = f) as ->.
    { pose proof (field_of_own f Hf) as H1. pose proof (field_of_own g Hg) as H2. congruence. }
    pose proof field_holds as Hh. rewrite Forall_forall in Hh. by rewrite (Hh f Hf v c Hv).
  - destruct (dict_get (fd_key f) kvs); [done|]. rewrite IH. apply field_apart; [done..|congruence].
Qed.

(** The coerced settings, key by key *)
Lemma coerce_all_get settings coerced : coerce_all settings = Ok coerced ->
  map fst coerced = map fst settings /\
  Forall (fun kv => exists f v, field_of (fst kv) = Some f /\ snd kv = v /\
            (forall x, v = Some x -> of_kind (fd_kind f) x = true)) coerced /\
  forall f, f ∈ OVERRIDABLE ->
    match dict_get (fd_key f) settings with
    | Some v => exists x, coerce (fd_kind f) v = Ok x /\ dict_get (fd_key f) coerced = Some x
    | None => dict_get (fd_key f) coerced = None
    end.
Proof.
  unfold coerce_all. revert coerced. induction settings as [|[k v] settings IH]; cbn; intros coerced.
  - intros [= <-]. split_and!; [done|constructor|done].
  - intros ([k' x] & Hx & H)%obind_ok. apply obind_ok in H as (rest & Hr & [= <-]).
    destruct (field_of k) as [g|] eqn:Hg; [|done]. apply obind_ok in Hx as (y & Hy & [= <- <-]).
    destruct (IH _ Hr) as (H1 & H2 & H3). cbn. split_and!; [by rewrite H1| |].
    + constructor; [|done]. exists g, y. split_and!; [done..|]. intros z ->. by eapply coerce_kind.
    + intros f Hf. destruct (decide (k = fd_key f)) as [->|]; [|by apply H3].
      rewrite (field_of_own f Hf) in Hg. injection Hg as <-. by exists y.
Qed.

Lemma kinds_fit (coerced : dict string (option Setting)) :
  Forall (fun kv => exists f v, field_of (fst kv) = Some f /\ snd kv = v /\
            (forall x, v = Some x -> of_kind (fd_kind f) x = true)) coerced ->
  Forall (fun kv => match snd kv, field_of (fst kv) with Some v, Some f => of_kind (fd_kind f) v = true | _, _ => True end) coerced.
Proof. intros H. eapply Forall_impl; [exact H|]. intros [k v] (f & y & Hf & <- & Hv). cbn in *. rewrite Hf. destruct v; auto. Qed.

(** Filtering leaves the other keys. *)
Lemma dict_get_filter {V} (keep : string -> bool) k (m : dict string V) :
  dict_get k (List.filter (fun kv => keep (fst kv)) m) = if keep k then dict_get k m else None.
Proof.
  induction m as [|[k' v] m IH]; cbn; [by destruct (keep k)|].
  destruct (keep k') eqn:Hk; cbn; destruct (decide (k' = k)) as [->|]; rewrite ?IH, ?Hk; done.
Qed.

Lemma filter_keys_nodup {V} (keep : string * V -> bool) (m : dict string V) :
  NoDup (map fst m) -> NoDup (map fst (List.filter keep m)).
Proof.
  induction m as [|[k v] m IH]; cbn; [done|]. intros [Hk Hn]%NoDup_cons.
  destruct (keep (k, v)); [|by apply IH]. cbn. constructor; [|by apply IH].
  intros H. apply Hk. apply list_elem_of_fmap in H as ([k' v'] & -> & H).
  apply list_elem_of_In, List.filter_In in H as [H%list_elem_of_In _]. by apply (list_elem_of_fmap_2 fst) in H.
Qed.

Lemma not_nested f : f ∈ OVERRIDABLE -> bool_decide (fd_key f ∈ NESTED) = false.
Proof. revert f. apply Forall_forall. unfold OVERRIDABLE. each ltac:(vm_compute; reflexivity). Qed.

Lemma flat_get f (settings : dict string json) : f ∈ OVERRIDABLE ->
  dict_get (fd_key f) (List.filter (fun kv => negb (bool_decide (fst kv ∈ NESTED))) settings) = dict_get (fd_key f) settings.
Proof.
  intros Hf. pose (flat := fun k => negb (bool_decide (k ∈ NESTED))).
  transitivity (dict_get (fd_key f) (List.filter (fun kv => flat (fst kv)) settings)); [done|].
  rewrite dict_get_filter. unfold flat. by rewrite not_nested.
Qed.

Lemma validated_ok {A} (check : A -> outcome exn unit) c x : validated check c = Ok (Some x) -> c = Some x /\ check x = Ok tt.
Proof. destruct c as [c|]; cbn; [|done]. by intros ([] & Hc & [= <-])%obind_ok. Qed.

(** ** The settings have one value each *)

Lemma dict_set_in {V} k (v : V) (m : dict string V) x : x ∈ map fst (dict_set k v m) <-> x = k \/ x ∈ map fst m.
Proof.
  induction m as [|[k' v'] m IH]; cbn; [set_solver|].
  destruct (decide (k' = k)) as [->|]; cbn; rewrite !elem_of_cons; [|rewrite IH]; set_solver.
Qed.

Lemma dict_set_nodup {V} k (v : V) (m : dict string V) : NoDup (map fst m) -> NoDup (map fst (dict_set k v m)).
Proof.
  induction m as [|[k' v'] m IH]; cbn; [intros _; apply NoDup_singleton|].
  intros [Hk Hn]%NoDup_cons. destruct (decide (k' = k)) as [->|]; cbn; constructor; [done..| |by apply IH].
  rewrite dict_set_in. by intros [?|?].
Qed.

Lemma dict_sets_nodup {V} (kvs m : dict string V) :
  NoDup (map fst m) -> NoDup (map fst (fold_left (fun m kv => dict_set (fst kv) (snd kv) m) kvs m)).
Proof. revert m. induction kvs as [|kv kvs IH]; intros m Hm; cbn; [done|]. by apply IH, dict_set_nodup. Qed.

Lemma scan_literal_dict ls s kvs r : Forall (fun wv => forall kvs, snd wv <> JDict kvs) ls ->
  scan_literal ls s <> Some (JDict kvs, r).
Proof.
  induction 1 as [|[w v] ls Hv _ IH]; cbn; [done|]. destruct (strip_prefix w s); [|done].
  intros [= H _]. by apply (Hv kvs).
Qed.

Lemma scan_number_dict s kvs r : scan_number s <> Some (JDict kvs, r).
Proof.
  unfold scan_number. intros H.
  repeat match goal with
  | H : context [match ?x with _ => _ end] |- _ => destruct x; try discriminate
  | H : context [let '(_, _) := ?x in _] |- _ => destruct x; try discriminate
  end.
Qed.

Lemma value_dict_nodup k s kvs r : value k s = Some (JDict kvs, r) -> NoDup (map fst kvs).
Proof.
  destruct k as [|k]; cbn [value]; [done|]. destruct (starts quote_char s); [by destruct (scan_str _) as [[]|]|].
  destruct (starts "[" s); [destruct (starts "]" _); [done|by destruct (items k _) as [[]|]]|].
  destruct (starts "{" s).
  - destruct (starts "}" _); [intros [= <- _]; constructor|].
    destruct (members k _) as [[ms s']|]; [|done]. intros [= <- _]. apply dict_sets_nodup. constructor.
  - destruct (scan_literal literals s) as [[v s']|] eqn:Hl; intros H.
    + injection H as -> ->. exfalso. revert Hl. apply scan_literal_dict. repeat (constructor; [done|]). constructor.
    + exfalso. revert H. apply scan_number_dict.
Qed.

Lemma loads_dict_nodup s kvs : loads s = Some (JDict kvs) -> NoDup (map fst kvs).
Proof.
  unfold loads. destruct (value _ _) as [[v r]|] eqn:Hv; [|done]. cbn. destruct (skip r); [|done].
  intros [= ->]. by eapply value_dict_nodup.
Qed.

Lemma merged_nodup path err text overrides settings :
  merged path err text overrides = Ok settings -> NoDup (map fst settings).
Proof.
  unfold merged. intros (raw & Hraw & [= <-])%obind_ok. apply dict_sets_nodup.
  destruct text as [text|]; [|injection Hraw as <-; constructor].
  destruct (loads text) as [[]|] eqn:Hl; try discriminate. injection Hraw as ->. by eapply loads_dict_nodup.
Qed.

(** ** The nested objects *)

(** A field of a nested object: its key, when a given value is what a record holds
    there, and when two records hold the same. *)
Record Slot (C : Type) := mkSlot { sl_key : string; sl_holds : json -> C -> Prop; sl_same : C -> C -> Prop }.
Arguments mkSlot {C}.
Arguments sl_key {C}.
Arguments sl_holds {C}.
Arguments sl_same {C}.

(** [write] is how a value of the field is written in JSON. *)
Definition slot {C A} (write : A -> json) (key : string) (get : C -> A) : Slot C :=
  mkSlot key (fun v c => v = write (get c)) (fun c d => get c = get d).

Definition opt_json (o : option string) : json := match o with Some s => JStr s | None => JNull end.
Definition texts_json (l : list string) : json := JList (map JStr l).
Definition dict_json {A} (write : A -> json) (m : dict string A) : json := JDict (map (fun kv => (fst kv, write (snd kv))) m).

(** A number may be an integer. *)
Definition float_slot {C} (key : string) (get : C -> float) : Slot C :=
  mkSlot key (fun v c => v = JFloat (get c) \/ exists n, v = JInt n /\ get c = f_of_Z n) (fun c d => get c = get d).

(** What [tuple] makes of the value *)
Definition tuple_slot {C} (key : string) (get : C -> list string) : Slot C :=
  mkSlot key (fun v c => json_tuple v = Ok (map JStr (get c))) (fun c d => get c = get d).

Definition fills {C} (d : C) (raw : dict string json) (c : C) (s : Slot C) : Prop :=
  match dict_get (sl_key s) raw with Some v => sl_holds s v c | None => sl_same s c d end.

(** A record holds what an object gives, the rest is as in [d], and the object gives
    nothing else. *)
Definition held {C} (slots : list (Slot C)) (d : C) (raw : dict string json) (c : C) : Prop :=
  (forall k, k ∈ map fst raw -> k ∈ map sl_key slots) /\ Forall (fills d raw c) slots.

(** The nested object of a name: null or none is like an empty one. *)
Definition object_given (name : string) (settings : dict string json) : option (dict string json) :=
  match dict_get name settings with None | Some JNull => Some [] | Some (JDict kvs) => Some kvs | Some _ => None end.

Definition section {C} (slots : list (Slot C)) (d : C) (name : string) (settings : dict string json) (c : C) : Prop :=
  exists raw, object_given name settings = Some raw /\ held slots d raw c.

Definition aws_slots : list (Slot AwsConfig) := [
  slot JStr "region" aws_region; slot opt_json "ami" aws_ami; slot opt_json "instance_profile" aws_instance_profile;
  slot JStr "log_group" aws_log_group; slot opt_json "subnet_id" aws_subnet_id;
  tuple_slot "security_group_ids" aws_security_group_ids; slot (dict_json JStr) "instance_types" aws_instance_types;
  slot (dict_json texts_json) "spot_instance_types" aws_spot_instance_types; slot (dict_json JInt) "max_instances" aws_max_instances;
  float_slot "agent_timeout_seconds" aws_agent_timeout_seconds; slot JStr "working_dir" aws_working_dir;
  slot JStr "shutdown_behavior" aws_shutdown_behavior].

Definition gce_slots : list (Slot GceConfig) := [
  slot JStr "project" gc_project; slot JStr "zone" gc_zone; slot JStr "boot_image" gc_boot_image; slot JStr "network" gc_network;
  slot JStr "subnetwork" gc_subnetwork; slot JBool "external_ip" gc_external_ip; slot JStr "service_account" gc_service_account;
  tuple_slot "service_account_scopes" gc_service_account_scopes; slot JStr "ssh_username" gc_ssh_username;
  slot JStr "ssh_private_key" gc_ssh_private_key; slot JStr "known_hosts" gc_known_hosts;
  float_slot "ssh_timeout_seconds" gc_ssh_timeout_seconds; slot (dict_json JStr) "machine_types" gc_machine_types;
  slot (dict_json JStr) "accelerator_types" gc_accelerator_types; slot (dict_json JInt) "accelerator_counts" gc_accelerator_counts;
  slot (dict_json JInt) "max_instances" gc_max_instances].

Definition volume_slots : list (Slot VolumeConfig) := [
  slot JBool "enabled" vc_enabled; slot JStr "efs_id" vc_efs_id; slot JStr "region" vc_region;
  slot JStr "local_root" vc_local_root; float_slot "quota_gb" vc_quota_gb].

Definition web_slots : list (Slot WebConfig) := [
  slot JStr "base_url" wc_base_url; slot JStr "github_client_id" wc_github_client_id;
  slot JStr "github_client_secret" wc_github_client_secret; slot JStr "github_org" wc_github_org;
  tuple_slot "allowlist" wc_allowlist; slot JStr "allowlist_file" wc_allowlist_file; slot JStr "session_secret" wc_session_secret;
  slot JInt "session_max_age_seconds" wc_session_max_age_seconds; tuple_slot "admins" wc_admins;
  slot JBool "public_status" wc_public_status; slot JStr "public_status_title" wc_public_status_title;
  float_slot "public_status_cache_seconds" wc_public_status_cache_seconds; slot JStr "metrics_token" wc_metrics_token;
  slot JStr "dev_login" wc_dev_login].

Definition host_slots : list (Slot HostSpec) := [
  slot JStr "hostname" hs_hostname; slot JStr "username" hs_username; slot JInt "port" hs_port;
  slot opt_json "client_key" hs_client_key; slot opt_json "known_hosts" hs_known_hosts].

(** An entry of the hosts: a name alone, or an object with a name *)
Definition host_held (entry : json) (h : HostSpec) : Prop :=
  match entry with
  | JStr name => h = mkHostSpec name "broker" 22 None None
  | JDict kvs => held host_slots (mkHostSpec "" "broker" 22 None None) kvs h /\ dict_get "hostname" kvs <> None
  | _ => False
  end.

Definition local_slots : list (Slot LocalConfig) := [
  mkSlot "hosts" (fun v c => exists entries, json_tuple v = Ok entries /\ Forall2 host_held entries (lc_hosts c))
    (fun c d => lc_hosts c = lc_hosts d);
  slot JStr "gpu_type" lc_gpu_type; slot JInt "max_jobs_per_gpu" lc_max_jobs_per_gpu; slot JStr "job_root" lc_job_root;
  slot JStr "working_dir" lc_working_dir; slot JStr "mps_pipe_dir" lc_mps_pipe_dir; slot JStr "mps_log_dir" lc_mps_log_dir;
  slot JInt "default_gpu_memory_mb" lc_default_gpu_memory_mb; slot JInt "default_memory_max_mb" lc_default_memory_max_mb;
  slot JInt "default_cpu_quota_percent" lc_default_cpu_quota_percent; slot JBool "use_sudo" lc_use_sudo;
  slot JStr "run_as" lc_run_as; float_slot "health_interval_seconds" lc_health_interval_seconds;
  float_slot "command_timeout_seconds" lc_command_timeout_seconds; float_slot "poll_timeout_seconds" lc_poll_timeout_seconds].

(** *** Reading a field *)

(** A reader takes only what the field is written as. *)
Class Reads {A} (read : json -> option A) (write : A -> json) : Prop := reads : forall v x, read v = Some x -> v = write x.

#[export] Instance reads_text : Reads as_text JStr.
Proof. intros v a; destruct v; cbn; congruence. Qed.
#[export] Instance reads_opt_text : Reads as_opt_text opt_json.
Proof. intros v a; destruct v; cbn; try discriminate; by intros [= <-]. Qed.
#[export] Instance reads_int : Reads as_int JInt.
Proof. intros v a; destruct v; cbn; congruence. Qed.
#[export] Instance reads_bool : Reads as_bool JBool.
Proof. intros v a; destruct v; cbn; congruence. Qed.

Lemma texts_of_exact xs l : texts_of xs = Some l -> xs = map JStr l.
Proof.
  unfold texts_of. intros H%mapM_Some. induction H as [|v x xs l Hv _ IH]; [done|]. cbn. rewrite IH.
  destruct v; try discriminate. by injection Hv as ->.
Qed.

#[export] Instance reads_texts : Reads as_texts texts_json.
Proof. intros [] l; cbn; try discriminate. intros H%texts_of_exact. by rewrite H. Qed.

#[export] Instance reads_dict {A} (read : json -> option A) write : Reads read write -> Reads (as_dict read) (dict_json write).
Proof.
  intros Hr [] m; cbn; try discriminate. intros H%mapM_Some. unfold dict_json. f_equal.
  induction H as [|[k v] [k' x] kvs m Hv _ IH]; [done|]. cbn in *. rewrite IH.
  destruct (read v) as [y|] eqn:Hy; [|done]. injection Hv as <- <-. by rewrite (Hr _ _ Hy).
Qed.

Section Fills.
Context {C : Type} (d : C) (raw : dict string json) (c : C).

Lemma fills_slot {A} (read : json -> option A) write `{!Reads read write} key get :
  given read (get d) key raw = Some (get c) -> fills d raw c (slot write key get).
Proof. unfold given, fills. cbn. destruct (dict_get key raw) as [v|]; [apply reads|by intros [= <-]]. Qed.

Lemma fills_float key get : given as_float (get d) key raw = Some (get c) -> fills d raw c (float_slot key get).
Proof.
  unfold given, fills. cbn. destruct (dict_get key raw) as [[]|]; cbn; try discriminate; intros [= H];
    rewrite <- H; [right; by eexists|by left|done].
Qed.

Lemma fills_tuple key get : given as_texts (get d) key raw = Some (get c) -> fills d raw c (tuple_slot key get).
Proof.
  unfold given, fills. cbn. destruct (dict_get key raw) as [[]|]; cbn; try discriminate; [|by intros [= <-]].
  intros H%texts_of_exact. by rewrite H.
Qed.
End Fills.

(** *** Before the fields are read *)

(** The settings after some of them were made tuples: the same keys, and in the slots
    of those keys a tuple holds as what it was made of does. *)
Definition retold {C} (slots : list (Slot C)) (raw m : dict string json) : Prop :=
  Forall (fun s => match dict_get (sl_key s) raw with
                   | Some v => exists v', dict_get (sl_key s) m = Some v' /\ forall c, sl_holds s v' c -> sl_holds s v c
                   | None => dict_get (sl_key s) m = None
                   end) slots.

Lemma retold_fills {C} (slots : list (Slot C)) d raw m c :
  retold slots raw m -> Forall (fills d m c) slots -> Forall (fills d raw c) slots.
Proof.
  unfold retold. rewrite !Forall_forall. intros Hr Hm s Hs. specialize (Hr s Hs). specialize (Hm s Hs). unfold fills in *.
  destruct (dict_get (sl_key s) raw) as [v|]; [destruct Hr as (v' & Hv & Hh)|rename Hr into Hv]; rewrite Hv in Hm; auto.
Qed.

Lemma retold_tupled {C} (slots : list (Slot C)) key raw m :
  Forall (fun s => sl_key s = key -> exists get, s = tuple_slot key get) slots -> tupled key raw = Ok m -> retold slots raw m.
Proof.
  unfold retold. intros Hs Ht. eapply Forall_impl; [exact Hs|]. intros s Hkey. unfold tupled in Ht.
  destruct (dict_get key raw) as [v|] eqn:Hv.
  - apply obind_ok in Ht as (xs & Hxs & [= <-]). rewrite dict_get_set. destruct (decide (key = sl_key s)) as [->|].
    + rewrite Hv. eexists. split; [done|]. destruct (Hkey eq_refl) as [get Hget]. intros c. rewrite Hget. cbn. congruence.
    + destruct (dict_get (sl_key s) raw) as [v'|]; [by exists v'|done].
  - injection Ht as <-. destruct (dict_get (sl_key s) raw) as [v'|]; [by exists v'|done].
Qed.

Lemma retold_web raw m : web_settings raw = Ok m -> retold web_slots raw m.
Proof.
  unfold web_settings. cbv zeta. destruct (py_sort str_lt _); [|done]. intros H. apply Forall_forall. intros s Hs.
  assert (Htuple : bool_decide (sl_key s ∈ ["allowlist"; "admins"]) = true -> exists get, s = tuple_slot (sl_key s) get).
  { revert s Hs. refine (proj1 (Forall_forall _ _) _). unfold web_slots.
    each ltac:(first [intros H0; vm_compute in H0; discriminate H0|intros _; eexists; reflexivity]). }
  revert m H. induction raw as [|[k v] raw IH]; cbn [omapM]; intros m; [by intros [= <-]|].
  intros ([k' v'] & Hkv & H)%obind_ok. apply obind_ok in H as (rest & Hrest & [= <-]). specialize (IH _ Hrest). cbn [fst snd] in Hkv.
  assert (Hk : k' = k /\ (k = sl_key s -> forall c, sl_holds s v' c -> sl_holds s v c)).
  { destruct (bool_decide (k ∈ ["allowlist"; "admins"])) eqn:Hin; [|injection Hkv as <- <-; by split].
    apply obind_ok in Hkv as (xs & Hxs & [= <- <-]). split; [done|]. intros ->. destruct (Htuple Hin) as [get ->]. intros c. cbn. congruence. }
  destruct Hk as [-> Hv]. cbn. destruct (decide (k = sl_key s)) as [->|]; [|exact IH]. exists v'. split; [done|by apply Hv].
Qed.

(** *** The five objects *)

Lemma known_only_ok what sep known raw : known_only what sep known raw = Ok tt -> forall k, k ∈ map fst raw -> k ∈ known.
Proof.
  unfold known_only. destruct (py_sort str_lt _) eqn:Hu; [|done]. intros _ k Hk.
  destruct (decide (k ∈ known)) as [|Hn]; [done|]. assert (Hin : k ∈ @nil string); [|by apply elem_of_nil in Hin].
  rewrite <- Hu. apply py_sort_elem, list_elem_of_In, List.filter_In. split; [by apply list_elem_of_In|].
  by rewrite bool_decide_eq_false_2.
Qed.

Lemma held_default {C} (slots : list (Slot C)) d : Forall (fun s => sl_same s d d) slots -> held slots d [] d.
Proof. intros H. split; [by intros k ?%elem_of_nil|exact H]. Qed.

(** [make raw' = Some c]: every field was read. *)
Ltac fields H :=
  repeat match type of H with (_ ≫= _) = Some _ => apply bind_Some in H as (? & ? & H) end;
  injection H as <-;
  each ltac:(first [eapply fills_slot; [apply _|eassumption] | eapply fills_float; eassumption | eapply fills_tuple; eassumption]).

Lemma aws_fields m c : aws_of m = Some c -> Forall (fills default_aws m c) aws_slots.
Proof. unfold aws_of. cbv zeta. intros H. fields H. Qed.

Lemma gce_fields m c : gce_of m = Some c -> Forall (fills default_gce m c) gce_slots.
Proof. unfold gce_of. cbv zeta. intros H. fields H. Qed.

Lemma volume_fields m c : volumes_of m = Some c -> Forall (fills default_volumes m c) volume_slots.
Proof. unfold volumes_of. cbv zeta. intros H. fields H. Qed.

Lemma web_fields m c : web_of m = Some c -> Forall (fills default_web m c) web_slots.
Proof. unfold web_of. intros H. fields H. Qed.

Lemma host_fields kvs h : host_of kvs = Some h -> Forall (fills (mkHostSpec "" "broker" 22 None None) kvs h) host_slots.
Proof. unfold host_of. intros H. fields H. Qed.

Lemma host_from_held entry h : host_from entry = Ok (Some h) -> host_held entry h.
Proof.
  unfold host_from, host_held. destruct entry as [| | | |name|xs|kvs]; try discriminate; [by intros [= <-]|].
  intros ([] & Hk & H)%obind_ok. destruct (dict_get "hostname" kvs) eqn:Hn; [|discriminate]. injection H as H.
  split; [split|done]; [by eapply known_only_ok|by apply host_fields].
Qed.

Lemma hosts_held entries hosts hs : omapM host_from entries = Ok hosts -> mapM id hosts = Some hs -> Forall2 host_held entries hs.
Proof.
  revert hosts hs. induction entries as [|e entries IH]; cbn [omapM]; intros hosts hs; [by intros [= <-] [= <-]|].
  intros (h & Hh & H)%obind_ok. apply obind_ok in H as (rest & Hrest & [= <-]).
  intros (h' & Hh' & H)%bind_Some. apply bind_Some in H as (hs' & Hhs & [= <-]). cbn in Hh'. subst h.
  constructor; [by apply host_from_held|by eapply IH].
Qed.

Lemma local_fields hosts m c : local_of hosts m = Some c ->
  hosts = Some (lc_hosts c) /\ Forall (fills default_local m c) (drop 1 local_slots).
Proof.
  unfold local_of. cbv zeta. intros (hs & Hh & H)%bind_Some. rewrite Hh. cbn [drop local_slots].
  split; [|fields H]. clear Hh. repeat (apply bind_Some in H as (? & _ & H)). by injection H as <-.
Qed.

(** *** Loading them *)

(** Without an object, the defaults *)
Ltac or_default raw :=
  destruct raw as [[|? ?]|]; cbn [absent default];
  [intros [= <-]; apply held_default; each ltac:(hnf; reflexivity)| |intros [= <-]; apply held_default; each ltac:(hnf; reflexivity)].

Lemma load_aws_held raw c : load_aws_config raw = Ok (Some c) -> held aws_slots default_aws (default [] raw) c.
Proof.
  unfold load_aws_config. or_default raw.
  cbv zeta. intros ([] & Hk & H)%obind_ok. apply obind_ok in H as (m & Hm & [= H]). split; [by eapply known_only_ok|].
  eapply retold_fills; [eapply retold_tupled; [|exact Hm]|by apply aws_fields].
  unfold aws_slots. each ltac:(first [discriminate|intros _; eexists; reflexivity]).
Qed.

Lemma load_gce_held raw c : load_gce_config raw = Ok (Some c) -> held gce_slots default_gce (default [] raw) c.
Proof.
  unfold load_gce_config. or_default raw.
  cbv zeta. intros ([] & Hk & H)%obind_ok. apply obind_ok in H as (m & Hm & [= H]). split; [by eapply known_only_ok|].
  eapply retold_fills; [eapply retold_tupled; [|exact Hm]|by apply gce_fields].
  unfold gce_slots. each ltac:(first [discriminate|intros _; eexists; reflexivity]).
Qed.

Lemma load_volumes_held raw c : load_volume_config raw = Ok (Some c) -> held volume_slots default_volumes (default [] raw) c.
Proof.
  unfold load_volume_config. or_default raw.
  cbv zeta. intros ([] & Hk & H)%obind_ok. apply validated_ok in H as [H _].
  split; [by eapply known_only_ok|by apply volume_fields].
Qed.

Lemma load_local_held raw c : load_local_config raw = Ok (Some c) -> held local_slots default_local (default [] raw) c.
Proof.
  unfold load_local_config. or_default raw.
  cbv zeta. intros ([] & Hk & H)%obind_ok. apply obind_ok in H as (hosts & Hh & H). apply validated_ok in H as [H _].
  split; [by eapply known_only_ok|]. apply local_fields in H as [-> H]. apply Forall_cons. split; [|exact H].
  unfold fills. cbn [sl_key sl_holds sl_same]. destruct (dict_get "hosts" _) as [v|].
  - apply obind_ok in Hh as (entries & He & Hh). apply obind_ok in Hh as (hs & Hhs & Hh). injection Hh as Hh.
    exists entries. split; [done|by eapply hosts_held].
  - by injection Hh as <-.
Qed.

Lemma load_web_held raw c : load_web_config raw = Ok (Some c) -> held web_slots default_web (default [] raw) c.
Proof.
  unfold load_web_config. or_default raw.
  intros (m & Hm & [= H])%obind_ok. split.
  - apply (known_only_ok (in_config "web") "Known: "). unfold known_only. unfold web_settings in Hm. cbv zeta in Hm.
    by destruct (py_sort str_lt _).
  - eapply retold_fills; [by apply retold_web|by apply web_fields].
Qed.

Lemma object_section {C} (slots : list (Slot C)) d name settings raw c :
  object_at name settings = Ok raw -> held slots d (default [] raw) c -> section slots d name settings c.
Proof.
  unfold object_at, section, object_given. destruct (dict_get name settings) as [[]|]; try discriminate; intros [= <-] H; by eexists.
Qed.

(** ** The theorem *)

Lemma load_local_valid raw c : load_local_config raw = Ok (Some c) -> validate_local c = Ok tt.
Proof.
  unfold load_local_config. destruct (absent raw); [by intros [= <-]|].
  intros (_ & _ & H)%obind_ok. apply obind_ok in H as (hosts & _ & H). by apply validated_ok in H as [_ H].
Qed.

Lemma load_volumes_valid raw c : load_volume_config raw = Ok (Some c) -> validate_volumes c = Ok tt.
Proof.
  unfold load_volume_config. destruct (absent raw); [by intros [= <-]|].
  intros (_ & _ & H)%obind_ok. by apply validated_ok in H as [_ H].
Qed.

(** Without an error, every flat setting has a field. *)
Lemma all_known (kvs : dict string json) : py_sort str_lt (List.filter (fun k => match field_of k with None => true | Some _ => false end) (map fst kvs)) = [] ->
  forall k, k ∈ map fst kvs -> exists f : Field, field_of k = Some f.
Proof.
  intros H k Hk. destruct (field_of k) as [f|] eqn:Hf; [by exists f|].
  assert (Hin : k ∈ @nil string); [|by apply elem_of_nil in Hin].
  rewrite <- H. apply py_sort_elem, list_elem_of_In, List.filter_In. by rewrite Hf, <- list_elem_of_In.
Qed.

Lemma with_nested_ok c a g l w v x : with_nested c a g l w v = Some x ->
  exists c0 a0 g0 l0 w0 v0, c = Some c0 /\ a = Some a0 /\ g = Some g0 /\ l = Some l0 /\ w = Some w0 /\ v = Some v0 /\
    x = {| c0 with ld_aws := a0; ld_gce := g0; ld_local := l0; ld_volumes := v0; ld_web := w0 |}.
Proof.
  unfold with_nested. destruct c, a, g, l, w, v; cbn; try discriminate. intros [= <-]. repeat eexists.
Qed.

(** The settings of the caller come before those of the file. *)
Lemma dict_sets_get {V} k (kvs m : dict string V) : NoDup (map fst kvs) ->
  dict_get k (fold_left (fun m kv => dict_set (fst kv) (snd kv) m) kvs m)
  = match dict_get k kvs with Some v => Some v | None => dict_get k m end.
Proof.
  revert m. induction kvs as [|[k' v] kvs IH]; intros m; cbn; [done|]. intros [Hk Hn]%NoDup_cons.
  rewrite IH, dict_get_set by done. destruct (decide (k' = k)) as [->|]; [|done]. by rewrite dict_get_no_key.
Qed.

(** C33: a configuration that was loaded holds, in the field of every setting that was
    given, that setting coerced to the type of the field, and the default in every
    other; every key that was given is a field or a nested object.  The same holds in
    the objects of AWS, of GCE, of the lab (and of each of its hosts), of the volumes
    and of the web: each field is what the object gives under its key, a list as a
    tuple, or the default, and the object gives no other key.  The broker's, the
    lab's and the volumes' checks passed. *)
Theorem load_config_exact path err text overrides c :
  load_config path err text overrides = Ok (Some c) ->
  validate (ld_config c) = Ok tt /\ validate_local (ld_local c) = Ok tt /\ validate_volumes (ld_volumes c) = Ok tt /\
  exists settings, merged path err text overrides = Ok settings /\
    (forall k, k ∈ map fst settings -> k ∈ NESTED \/ exists f, field_of k = Some f) /\
    (forall f, f ∈ OVERRIDABLE ->
      match dict_get (fd_key f) settings with
      | Some v => coerce (fd_kind f) v = Ok (Some (fd_get f c))
      | None => fd_get f c = fd_get f unloaded
      end) /\
    section aws_slots default_aws "aws" settings (ld_aws c) /\
    section gce_slots default_gce "gce" settings (ld_gce c) /\
    section local_slots default_local "local" settings (ld_local c) /\
    section volume_slots default_volumes "volumes" settings (ld_volumes c) /\
    section web_slots default_web "web" settings (ld_web c).
Proof.
  unfold load_config. intros (settings & Hm & H)%obind_ok. pose proof (merged_nodup _ _ _ _ _ Hm) as Hn.
  unfold configure in H. apply obind_ok in H as (aws & Haws & H). apply obind_ok in H as (gce & Hgce & H).
  apply obind_ok in H as (local & Hlocal & H). apply obind_ok in H as (volumes & Hvol & H). apply obind_ok in H as (web & Hweb & H).
  set (flat := List.filter _ settings) in H. cbn zeta in H.
  destruct (py_sort str_lt _) eqn:Hu; [|discriminate].
  apply obind_ok in H as (coerced & Hc & H). apply obind_ok in H as (a0 & Ha & H). apply obind_ok in H as (g0 & Hg & H).
  apply obind_ok in H as (l0 & Hl & H). apply obind_ok in H as (w0 & Hw & H). apply obind_ok in H as (v0 & Hv & H).
  apply validated_ok in H as [H Hval].
  apply with_nested_ok in H as (c0 & a & g & l & w & v & Hp & -> & -> & -> & -> & -> & ->).
  destruct (coerce_all_get _ _ Hc) as (Hk & Hkinds & Hget).
  split; [exact Hval|]. split; [by eapply load_local_valid|]. split; [by eapply load_volumes_valid|].
  exists settings. split; [done|]. split; [|split].
  - intros k Hin. destruct (decide (k ∈ NESTED)) as [|Hnot]; [by left|right]. apply (all_known flat); [done|].
    apply list_elem_of_fmap in Hin as ([k' v'] & -> & Hin). apply (list_elem_of_fmap_2 fst flat (k', v')).
    apply list_elem_of_In, List.filter_In. split; [by apply list_elem_of_In|]. cbn in *. by rewrite bool_decide_eq_false_2.
  - intros f Hf. rewrite fields_flat by done. specialize (Hget f Hf).
    unfold flat in Hget. rewrite (flat_get f) in Hget by done.
    pose proof (put_exact coerced unloaded c0) as Hput. rewrite Hk in Hput.
    specialize (Hput (filter_keys_nodup _ _ Hn) (kinds_fit _ Hkinds) Hp f Hf). destruct (dict_get (fd_key f) settings).
    + destruct Hget as (y & Hy & Hin). rewrite Hin in Hput. by rewrite Hy, Hput.
    + by rewrite Hget in Hput.
  - split_and!; eapply object_section; eauto using load_aws_held, load_gce_held, load_local_held, load_volumes_held, load_web_held.
Qed.

(** ** Examples *)

Definition club_json : string :=
  dumps indented (JDict [("w_age", JInt 2); ("backends", JList [JStr "fake"; JStr "local"]); ("pool_budget_usd", JStr "250.50");
    ("aws", JDict [("ami", JStr "ami-1"); ("security_group_ids", JList [JStr "sg-1"]); ("max_instances", JDict [("a10g", JInt 3)])]);
    ("volumes", JDict [("quota_gb", JInt 20)]); ("web", JDict [("allowlist", JList [JStr "ann"; JStr "bob"])]);
    ("local", JDict [("hosts", JList [JStr "lab-1"; JDict [("hostname", JStr "lab-2"); ("port", JInt 2222)]])])]).

Definition club_loaded : option Loaded :=
  match load_config "config.json" id (Some club_json) [("timezone", JStr "Europe/London")] with Ok c => c | Raise _ => None end.

Example club_loads : option_map (fun c => (timezone (ld_config c), w_age (ld_config c), pool_budget_usd (ld_config c),
    cfg_backends (ld_config c), vc_quota_gb (ld_volumes c), map hs_hostname (lc_hosts (ld_local c)))) club_loaded
  = Some ("Europe/London", f_of_Z 2, mkDec 25050 (-2), ["fake"; "local"], f_of_Z 20, ["lab-1"; "lab-2"]).
Proof. vm_compute. reflexivity. Qed.

Lemma load_config_exact_witness : exists c,
  load_config "config.json" id (Some club_json) [("timezone", JStr "Europe/London")] = Ok (Some c) /\
  validate (ld_config c) = Ok tt /\
  aws_security_group_ids (ld_aws c) = ["sg-1"] /\ wc_allowlist (ld_web c) = ["ann"; "bob"] /\
  map hs_port (lc_hosts (ld_local c)) = [22; 2222].
Proof.
  assert (H : exists c, load_config "config.json" id (Some club_json) [("timezone", JStr "Europe/London")] = Ok (Some c) /\
    aws_security_group_ids (ld_aws c) = ["sg-1"] /\ wc_allowlist (ld_web c) = ["ann"; "bob"] /\
    map hs_port (lc_hosts (ld_local c)) = [22; 2222]).
  { eexists. vm_compute. split_and!; reflexivity. }
  destruct H as (c & H & Hc). exists c. split; [exact H|]. split; [|exact Hc].
  exact (proj1 (load_config_exact "config.json" id (Some club_json) [("timezone", JStr "Europe/London")] c H)).
Defined.

(** The error of a misspelt key names it and the known ones. *)
Example unknown_key : match load_config "config.json" id None [("w_aeg", JInt 2)] with
  | Raise (ConfigError m) => String.prefix "unknown config keys in config.json: w_aeg. Known keys: age_max_hours, backends, " m
  | _ => false end = true.
Proof. vm_compute. reflexivity. Qed.

(** Any text but the empty one turns reclaiming on. *)
Example reclaim_by_false : match load_config "config.json" id None [("reclaim_enabled", JStr "false")] with
  | Ok (Some c) => reclaim_enabled (ld_config c) | _ => false end = true.
Proof. vm_compute. reflexivity. Qed.

(** A weight that is no number passes the check that nobody starves. *)
Example weight_of_nan : match load_config "config.json" id None [("w_age", JStr "nan")] with
  | Ok (Some c) => f_lt (w_age (ld_config c)) (w_fair (ld_config c)) | _ => true end = false.
Proof. vm_compute. reflexivity. Qed.
