(* ===== verification/Trace.v ===== *)
(** * schedule_trace.py: anonymised traces, the cost study, the replay

    [build_cost_report] and [export_trace] are functions of the database to the JSON
    they write; [replay_trace] of the text of a trace.  The hashes and the power
    function are arguments.  A replay is [None] when a number of the trace is not
    finite: Python sorts such moments by its own algorithm. *)

From Stdlib Require Import Ascii.
From S2P Require Import Prelude PyFloat PyDecimal PyFormat PySort PyDict Errors Money Clock PyJson PyText Checkpoint CheckpointStore S3Store States Models Config Tables FairShare Placement Report Digest PriceList ConfigLoad.
Local Open Scope Z_scope.
Local Open Scope py_scope.

Definition SCHEMA : string := "gpu-broker.schedule-trace/v1".
Definition MIN_OPERATIONAL_JOBS : Z := 20.
Definition MIN_OPERATIONAL_USERS : Z := 5.

Definition len {A} (xs : list A) : Z := Z.of_nat (length xs).

(** [str(d)]: plain, or in scientific notation *)
Definition dec_text (d : Decimal) : string :=
  let c := Z.abs (coef d) in
  let n := if coef d =? 0 then 1 else ndigits c in
  let adjusted := n - 1 + dexp d in
  (if coef d <? 0 then "-" else "") +:+
  if (dexp d <=? 0) && (- 6 <=? adjusted) then dec_str c (Z.to_nat (- dexp d))
  else dec_str c (Z.to_nat (n - 1)) +:+ "E" +:+ (if adjusted <? 0 then "-" else "+") +:+ str_of_Z (Z.abs adjusted).

(** [round(x, 6)] *)
Definition round6 (x : float) : float :=
  match x with
  | SpecFloat.S754_finite s _ _ =>
      let '(n, d) := f_ratio x in
      let y := f_of_dec (round_half_even (Z.abs n * 10 ^ 6) d) (- 6) in
      if s then f_neg y else y
  | _ => x
  end.

(** ** Writing *)

(** [sort_keys=True] *)
Fixpoint sort_keys (v : json) : json :=
  match v with
  | JList xs => JList (map sort_keys xs)
  | JDict kvs => JDict (py_sort (on fst str_lt) (map (fun kv => (fst kv, sort_keys (snd kv))) kvs))
  | _ => v
  end.

(** [_canonical] *)
Definition canonical (v : json) : string := dumps compact (sort_keys v).

(** What [export_trace] and [export_cost_report] write *)
Definition file_text (v : json) : string := dumps indented (sort_keys v) +:+ newline.

(** [min(job.submitted_at for job in jobs)] *)
Definition first_moment (moments : list Z) : Z := match moments with [] => 0 | m :: ms => fold_left Z.min ms m end.

(** [_percentile(values, fraction)], [_p95] *)
Definition percentile (values : list float) (fraction : float) : option float :=
  let n := len values in
  py_sort f_ltk values !! Z.to_nat (Z.max 0 (f_ceil (f_mul fraction (f_of_Z n)) - 1)).

(** [x is None] *)
Definition is_none {A} (o : option A) : bool := match o with None => true | Some _ => false end.

Definition opt_float (o : option float) : json := match o with None => JNull | Some x => JFloat x end.

Section Trace.
Context (sha256 : string -> string) (hmac_sha256 : string -> string -> string) (pow : pow_fun).

(** [_digest(bundle)] *)
Definition digest (bundle : dict string json) : string :=
  sha256 (canonical (JDict (List.filter (fun kv => negb (String.eqb (fst kv) "content_sha256")) bundle))).

Definition signed (bundle : dict string json) : dict string json :=
  dict_set "content_sha256" (JStr (digest bundle)) bundle.

(** [anonymous_user_id(user_id, salt)] *)
Definition anonymous_user_id (user_id salt : string) : outcome exn string :=
  if len (utf8 salt) <? 16 then Raise (TraceError "GPU_BROKER_TRACE_SALT must contain at least 16 bytes")
  else Ok (str_take 24 (hmac_sha256 salt user_id)).

(** The jobs that are not of a demonstration *)
Definition operational (jobs : list Job) : list Job :=
  List.filter (fun j => negb (String.eqb (j_origin j) "seeded")) jobs.

(** ** The cost study *)

Definition Sums := dict string Decimal.
Definition add_to (currency : string) (d : Decimal) (m : Sums) : Sums := dict_upd currency dzero (fun x => ctx_add x d) m.
Definition sum_of (currency : string) (m : Sums) : Decimal := default dzero (dict_get currency m).

(** [store.job_spend(job_id)] as a decimal: [Decimal("0")] until something was settled *)
Definition spend_of (d : DB) (job_id : string) : Decimal :=
  match List.filter (fun e => of_job job_id e && (of_kind SETTLE e || of_kind ABANDONED e)) (ledger d) with
  | [] => dzero
  | _ => of_cents (job_spend d job_id)
  end.

Record Costs := mkCosts { co_settled : Sums; co_completed : Sums; co_retry : Sums; co_reserved : Sums }.

(** The loop over the jobs *)
Definition cost_of (d : DB) (c : Costs) (j : Job) : outcome exn Costs :=
  let cost := spend_of d (j_job_id j) in
  let currency := currency_str (j_currency j) in
  retry <-? (if 1 <? j_attempts j then
               share <-? of_option (dec_div (ctx_mul cost (dec_of_Z (j_attempts j - 1))) (dec_of_Z (j_attempts j)))
                           (ArithmeticError "DivisionByZero");;
               Ok (add_to currency share (co_retry c))
             else Ok (co_retry c));;
  Ok (mkCosts (add_to currency cost (co_settled c))
        (if is_state COMPLETED j then add_to currency cost (co_completed c) else co_completed c)
        retry (add_to currency (of_cents (j_reserved j)) (co_reserved c))).

Fixpoint costs_of (d : DB) (c : Costs) (jobs : list Job) : outcome exn Costs :=
  match jobs with [] => Ok c | j :: js => c <-? cost_of d c j;; costs_of d c js end.

Definition abandoned_of (d : DB) : Sums :=
  fold_left (fun m e => add_to (currency_str (le_currency e)) (of_cents (le_amount e)) m)
    (List.filter (of_kind ABANDONED) (ledger d)) [].

(** One FIFO slot per type: when each is free, and the waits. *)
Definition fifo_step (epoch : Z) (acc : dict string float * list float) (j : Job) : dict string float * list float :=
  let '(available, waits) := acc in
  let submitted := total_seconds (j_submitted_at j - epoch) in
  let start := f_max submitted (default f0 (dict_get (j_gpu_type j) available)) in
  let duration := match j_started_at j, j_finished_at j with
                  | Some s, Some f => f_max f0 (total_seconds (f - s))
                  | _, _ => f0
                  end in
  (dict_set (j_gpu_type j) (f_add start duration) available, waits ++ [f_sub start submitted]).

Definition fifo_waits (started : list Job) : list float :=
  snd (fold_left (fifo_step (first_moment (map j_submitted_at started))) (py_sort job_order started) ([], [])).

(** [needle in text] *)
Fixpoint str_contains (needle s : string) : bool :=
  match strip_prefix needle s with
  | Some _ => true
  | None => match s with EmptyString => false | String _ s' => str_contains needle s' end
  end.

Definition wait_of (j : Job) : list float :=
  match j_started_at j with Some s => [total_seconds (s - j_submitted_at j)] | None => [] end.

Definition currency_costs (c : Costs) (abandoned : Sums) (completed : list Job) (currency : string) : outcome exn (string * json) :=
  let n := count_if (fun j => String.eqb (currency_str (j_currency j)) currency) completed in
  each <-? (if n =? 0 then Ok JNull
            else q <-? of_option (dec_div (sum_of currency (co_completed c)) (dec_of_Z n)) (ArithmeticError "DivisionByZero");;
                 Ok (JStr (dec_text q)));;
  Ok (currency, JDict [
    ("settled_cost", JStr (dec_text (sum_of currency (co_settled c))));
    ("estimated_reserved_cost", JStr (dec_text (sum_of currency (co_reserved c))));
    ("cost_per_completed_job", each);
    ("estimated_retry_cost", JStr (dec_text (sum_of currency (co_retry c))));
    ("abandoned_capacity_cost", JStr (dec_text (sum_of currency abandoned)))]).

(** [build_cost_report] *)
Definition build_cost_report (d : DB) (salt : string) : outcome exn (dict string json) :=
  let jobs := operational (list_jobs d None None None) in
  users <-? omapM (fun j => anonymous_user_id (j_user_id j) salt) jobs;;
  let user_keys := remove_dups users in
  if (len jobs <? MIN_OPERATIONAL_JOBS) || (len user_keys <? MIN_OPERATIONAL_USERS) then
    Raise (TraceError ("insufficient data: the operational trace holds " +:+ str_of_Z (len jobs) +:+ " job(s) from "
      +:+ str_of_Z (len user_keys) +:+ " user(s); a cost comparison needs at least "
      +:+ str_of_Z MIN_OPERATIONAL_JOBS +:+ " jobs from " +:+ str_of_Z MIN_OPERATIONAL_USERS
      +:+ " users, so no cost-comparison verdict is emitted"))
  else
    let completed := List.filter (is_state COMPLETED) jobs in
    let started := List.filter (fun j => negb (is_none (j_started_at j))) jobs in
    let waits := concat (map wait_of started) in
    costs <-? costs_of d (mkCosts [] [] [] []) jobs;;
    let abandoned := abandoned_of d in
    let fifo := fifo_waits started in
    let refused := List.filter (is_state REFUSED) jobs in
    by_currency <-? omapM (currency_costs costs abandoned completed)
      (sorted_set (map fst (co_settled costs) ++ map fst (co_reserved costs) ++ map fst abandoned));;
    let rate := JFloat (ratio (len completed) (len jobs)) in
    Ok (signed [
      ("schema", JStr "gpu-broker.cost-study/v1");
      ("evidence_boundary", JDict [
        ("source", JStr "organic operational rows only; seeded rows excluded");
        ("jobs", JInt (len jobs)); ("anonymous_users", JInt (len user_keys));
        ("minimum_jobs", JInt MIN_OPERATIONAL_JOBS); ("minimum_users", JInt MIN_OPERATIONAL_USERS)]);
      ("instrumentation", JDict [
        ("scheduler_observations", JInt (len (schedule_observations d)));
        ("interruptions", JInt (zsum j_preemptions jobs));
        ("checkpoint_resumes", JInt (count_if (fun j => (1 <? j_attempts j) && negb (is_none (j_checkpoint_step j))) jobs));
        ("completed", JInt (len completed)); ("refused", JInt (len refused));
        ("budget_refusals", JInt (count_if (fun j => str_contains "budget" (str_lower (str_or (j_refusal_reason j) ""))) refused))]);
      ("current_policy", JDict [
        ("name", JStr "fair-share plus age, observed"); ("completion_rate", rate);
        ("queue_p50_seconds", opt_float (percentile waits (f_of_ratio 1 2)));
        ("queue_p95_seconds", opt_float (percentile waits (f_of_ratio 95 100)));
        ("cost", JDict by_currency)]);
      ("fifo_replay", JDict [
        ("name", JStr "FIFO, one observed-duration slot per resource class");
        ("same_trace_jobs", JInt (len started)); ("completion_rate_held_constant", rate);
        ("queue_p50_seconds", opt_float (percentile fifo (f_of_ratio 1 2)));
        ("queue_p95_seconds", opt_float (percentile fifo (f_of_ratio 95 100)));
        ("cost_held_constant", JBool true)]);
      ("limits", JList [
        JStr "FIFO changes ordering only; capacity, duration, outcome, and price are held constant";
        JStr "retry cost is allocated in proportion to extra attempts, not provider invoices"])]).

(** [export_cost_report]: the report, and the text of the file *)
Definition export_cost_report (d : DB) (salt : string) : outcome exn (dict string json * string) :=
  report <-? build_cost_report d salt;; Ok (report, file_text (JDict report)).

(** ** The export *)

(** [_seconds(moment, epoch)] *)
Definition seconds (moment : option Z) (epoch : Z) : json :=
  match moment with None => JNull | Some m => JFloat (round6 (total_seconds (m - epoch))) end.

(** [{user_id: f"user-{index:03d}" for index, user_id in enumerate(sorted(users), 1)}] *)
Definition user_keys (users : list string) : dict string string :=
  imap (fun i u => (u, "user-" +:+ pad0 3 (Z.of_nat i + 1))) (sorted_set users).

Definition record_of (keys : dict string string) (epoch : Z) (spent : Job -> Decimal) (i : nat) (j : Job) : json :=
  JDict [
    ("job_key", JStr ("job-" +:+ pad0 5 (Z.of_nat i + 1)));
    ("user_key", JStr (default "" (dict_get (j_user_id j) keys)));
    ("gpu_type", JStr (j_gpu_type j));
    ("currency", JStr (currency_str (j_currency j)));
    ("reserved", JStr (dec_text (of_cents (j_reserved j))));
    ("spent", JStr (dec_text (spent j)));
    ("requested_hours", JFloat (j_requested_hours j));
    ("state", JStr (state_str (j_state j)));
    ("origin", JStr (j_origin j));
    ("submitted_offset_seconds", seconds (Some (j_submitted_at j)) epoch);
    ("started_offset_seconds", seconds (j_started_at j) epoch);
    ("finished_offset_seconds", seconds (j_finished_at j) epoch);
    ("attempts", JInt (j_attempts j));
    ("preemptions", JInt (j_preemptions j))].

(** The bundle around the records *)
Definition bundle_of (records : list json) : dict string json := signed [
  ("schema", JStr SCHEMA);
  ("scheduler", JDict [
    ("name", JStr "gpu-broker fair-share plus age"); ("implementation", JStr "gpu_broker.fairshare.order_queue");
    ("pool_policy", JStr "strict head under pool cap, capacity misses may skip")]);
  ("privacy", JDict [
    ("identifiers", JStr "deterministic aliases scoped to this export");
    ("excluded", JList [JStr "commands"; JStr "display names"; JStr "backend handles"; JStr "logs"; JStr "wall-clock timestamps"]);
    ("minimum_operational_jobs", JInt MIN_OPERATIONAL_JOBS); ("minimum_operational_users", JInt MIN_OPERATIONAL_USERS)]);
  ("evaluation_limits", JDict [
    ("deadlines", JStr "unavailable"); ("capacity_snapshots", JStr "unavailable");
    ("optimizer_comparison", JStr "blocked until both fields and enough real history exist")]);
  ("jobs", JList records)].

(** The records of jobs, what they spent given *)
Definition records_of (jobs : list Job) (spent : Job -> Decimal) : list json :=
  let ordered := py_sort job_order jobs in
  match ordered with
  | [] => []
  | first :: _ => imap (record_of (user_keys (map j_user_id ordered)) (j_submitted_at first) spent) ordered
  end.

(** [export_trace]: the bundle, and the text of the file *)
Definition export_trace (d : DB) : outcome exn (dict string json * string) :=
  let jobs := list_jobs d None None None in
  let own := operational jobs in
  let users := remove_dups (map j_user_id own) in
  match jobs with
  | [] => Raise (TraceError "no jobs are available to export")
  | _ =>
      if (0 <? len own) && ((len own <? MIN_OPERATIONAL_JOBS) || (len users <? MIN_OPERATIONAL_USERS)) then
        Raise (TraceError ("operational history is too small to anonymize safely: " +:+ str_of_Z (len own) +:+ " job(s), "
          +:+ str_of_Z (len users) +:+ " user(s); need at least " +:+ str_of_Z MIN_OPERATIONAL_JOBS +:+ " jobs and "
          +:+ str_of_Z MIN_OPERATIONAL_USERS +:+ " users"))
      else
        let bundle := bundle_of (records_of jobs (fun j => spend_of d (j_job_id j))) in
        Ok (bundle, file_text (JDict bundle))
  end.

(** ** The replay *)

(** [v[key]] *)
Definition item (v : json) (key : string) : outcome exn json :=
  match v with
  | JDict kvs => of_option (dict_get key kvs) (KeyError ("'" +:+ key +:+ "'"))
  | JList _ => Raise (TypeError "list indices must be integers or slices, not str")
  | JStr _ => Raise (TypeError "string indices must be integers, not 'str'")
  | _ => Raise (TypeError "object is not subscriptable")
  end.

(** [v.get(key)] *)
Definition get_item (v : json) (key : string) : outcome exn json :=
  match v with
  | JDict kvs => Ok (default JNull (dict_get key kvs))
  | _ => Raise (AttributeError "object has no attribute 'get'")
  end.

(** [v == text] *)
Definition is_str (v : json) (text : string) : bool := match v with JStr s => String.eqb s text | _ => false end.

(** [None if v is None else float(v)] *)
Definition opt_offset (v : json) : outcome exn (option float) :=
  match v with JNull => Ok None | _ => x <-? float_of v;; Ok (Some x) end.

(** What the replay takes from one job *)
Record Row := mkRow {
  rw_key : string;
  rw_submitted : float;
  rw_start : option float;
  rw_finish : option float;
  rw_useful : option (string * float);
  rw_spend : string * option Decimal
}.

(** One turn of the loop over the jobs *)
Definition read_row (job : json) : outcome exn Row :=
  key <-? item job "job_key";;
  let key := str_json key in
  submitted <-? item job "submitted_offset_seconds";;
  submitted <-? float_of submitted;;
  start <-? get_item job "started_offset_seconds";;
  finish <-? get_item job "finished_offset_seconds";;
  start <-? opt_offset start;;
  _ <-? (match start with
         | Some s => if f_lt s submitted then Raise (TraceError (key +:+ " starts before it was submitted")) else Ok tt
         | None => Ok tt
         end);;
  finish <-? opt_offset finish;;
  useful <-? (match finish with
              | None => Ok None
              | Some f =>
                  if f_lt f (default submitted start) then Raise (TraceError (key +:+ " has an invalid finish time"))
                  else
                    state <-? get_item job "state";;
                    if is_str state (state_str COMPLETED) then
                      user <-? item job "user_key";;
                      match start with
                      | Some s => Ok (Some (str_json user, f_div (f_sub f s) (f_of_Z 3600)))
                      | None => Raise (TypeError "unsupported operand type(s) for -: 'float' and 'NoneType'")
                      end
                    else Ok None
              end);;
  currency <-? item job "currency";;
  spent <-? item job "spent";;
  let text := str_json spent in
  amount <-? (match decimal_text text with
              | Some d => Ok (Some d)
              | None => if is_special text then Ok None
                        else Raise (ArithmeticError "[<class 'decimal.ConversionSyntax'>]")
              end);;
  Ok (mkRow key submitted start finish useful (str_json currency, amount)).

Inductive Action : Type := Submit | Start | Finish | FinishUnstarted.

#[export] Instance Action_eq_dec : EqDecision Action.
Proof. solve_decision. Defined.

Record Event := mkEvent { ev_at : float; ev_action : Action; ev_key : string }.

(** The number and the word of an action, which come before the key in the order *)
Definition code (a : Action) : Z := match a with Submit => 0 | Start => 1 | Finish | FinishUnstarted => 2 end.
Definition word (a : Action) : string :=
  match a with Submit => "submit" | Start => "start" | Finish => "finish" | FinishUnstarted => "finish_unstarted" end.

(** The order of the tuples *)
Definition event_lt : Event -> Event -> bool :=
  lex (on ev_at f_ltk) (lex (on (fun e => code (ev_action e)) Z.ltb) (lex (on (fun e => word (ev_action e)) str_lt) (on ev_key str_lt))).

Definition events_of (r : Row) : list Event :=
  [mkEvent (rw_submitted r) Submit (rw_key r)]
  ++ match rw_start r with Some s => [mkEvent s Start (rw_key r)] | None => [] end
  ++ match rw_finish r with
     | Some f => [mkEvent f (match rw_start r with Some _ => Finish | None => FinishUnstarted end) (rw_key r)]
     | None => []
     end.

Record Walk := mkWalk { wk_active : gset string; wk_submitted : gset string; wk_max : Z }.

(** One turn of the loop over the events *)
Definition walk_step (w : Walk) (e : Event) : outcome exn Walk :=
  let key := ev_key e in
  match ev_action e with
  | Submit =>
      if bool_decide (key ∈ wk_submitted w) then Raise (TraceError ("duplicate submit for " +:+ key))
      else Ok {| w with wk_submitted := {[key]} ∪ wk_submitted w |}
  | Start =>
      if negb (bool_decide (key ∈ wk_submitted w)) || bool_decide (key ∈ wk_active w) then
        Raise (TraceError ("invalid start for " +:+ key))
      else
        let active := {[key]} ∪ wk_active w in
        Ok (mkWalk active (wk_submitted w) (Z.max (wk_max w) (len (elements active))))
  | Finish =>
      if negb (bool_decide (key ∈ wk_active w)) then Raise (TraceError ("finish without active job for " +:+ key))
      else Ok {| w with wk_active := wk_active w ∖ {[key]} |}
  | FinishUnstarted =>
      if negb (bool_decide (key ∈ wk_submitted w)) then Raise (TraceError ("terminal state before submit for " +:+ key))
      else Ok w
  end.

Fixpoint walk_events (w : Walk) (es : list Event) : outcome exn Walk :=
  match es with [] => Ok w | e :: es => w <-? walk_step w e;; walk_events w es end.

Definition no_walk : Walk := mkWalk ∅ ∅ 0.

Definition is_inf (x : float) : bool := match x with SpecFloat.S754_infinity _ => true | _ => false end.

(** [_jain(values)] *)
Definition jain (values : list float) : outcome exn (option float) :=
  let total := f_sum values in
  match values with
  | [] => Ok None
  | _ =>
      if f_eq total f0 then Ok None
      else
        let squared := pow total (f_of_Z 2) in
        let below := f_mul (f_of_Z (len values)) (f_sum (map (fun v => f_mul v v) values)) in
        if is_inf squared && negb (is_inf total) then Raise (OverflowError "(34, 'Numerical result out of range')")
        else if f_eq below f0 then Raise (ArithmeticError "float division by zero") else Ok (Some (f_div squared below))
  end.

Record ReplaySummary := mkReplaySummary {
  rs_jobs : Z;
  rs_users : Z;
  rs_completed : Z;
  rs_max_active : Z;
  rs_p95_wait_seconds : option float;
  rs_useful_gpu_hours : float;
  rs_jain_fairness : option float;
  rs_spend : dict string string;
  rs_digest : string
}.

Definition finite_row (r : Row) : bool :=
  let finite o := match o with Some x => negb (is_nan x) | None => true end in
  negb (is_nan (rw_submitted r)) && finite (rw_start r) && finite (rw_finish r).

Definition wait_seconds (r : Row) : list float :=
  match rw_start r with Some s => [f_sub s (rw_submitted r)] | None => [] end.

(** [useful_by_user[...] += ...], [spend[...] += ...] *)
Definition useful_hours (rows : list Row) : dict string float :=
  fold_left (fun m r => match rw_useful r with Some (u, h) => dict_upd u f0 (fun x => f_add x h) m | None => m end) rows [].
Definition spend_by (rows : list Row) : dict string Decimal :=
  fold_left (fun m r => match rw_spend r with (c, Some d) => add_to c d m | _ => m end) rows [].

(** The replay of the rows of a bundle *)
Definition replay_rows (actual : string) (jobs : list json) (rows : list Row) : outcome exn (option ReplaySummary) :=
  if negb (forallb finite_row rows) then Ok None
  else
    walk <-? walk_events no_walk (py_sort event_lt (concat (map events_of rows)));;
    users <-? omapM (fun job => u <-? item job "user_key";; Ok (str_json u)) jobs;;
    let useful := useful_hours rows in
    fairness <-? jain (map snd useful);;
    if existsb (fun r => is_none (snd (rw_spend r))) rows then Ok None
    else
      Ok (Some (mkReplaySummary (len jobs) (len (remove_dups users)) (count_if (fun r => negb (is_none (rw_useful r))) rows)
        (wk_max walk) (percentile (concat (map wait_seconds rows)) (f_of_ratio 95 100)) (f_sum (map snd useful)) fairness
        (map (fun kv => (fst kv, dec_text (snd kv))) (py_sort (on fst str_lt) (spend_by rows))) actual)).

(** [replay_trace], from the bundle on *)
Definition replay_bundle (v : json) : outcome exn (option ReplaySummary) :=
  schema <-? get_item v "schema";;
  if negb (is_str schema SCHEMA) then Raise (TraceError ("unsupported trace schema: " +:+ repr_json schema))
  else
    let bundle := match v with JDict kvs => kvs | _ => [] end in
    expected <-? get_item v "content_sha256";;
    let actual := digest bundle in
    if negb (is_str expected actual) then Raise (TraceError "trace digest does not match its contents")
    else
      jobs <-? get_item v "jobs";;
      match jobs with
      | JList jobs => rows <-? omapM read_row jobs;; replay_rows actual jobs rows
      | _ => Raise (TraceError "trace jobs must be a list")
      end.

(** [replay_trace(path)] on the text of the file *)
Definition replay_trace (text : string) : outcome exn (option ReplaySummary) :=
  match loads text with
  | None => Raise (ValueError "Expecting value")
  | Some v => replay_bundle v
  end.
End Trace.
