(* ===== verification/TraceProps.v ===== *)
(** * What an exported trace says, and what a replay accepts

    [trace_blind]: an export is the same for two databases that differ by what it
    promises to leave out.  [replay_exact]: a replay accepts a trace exactly when
    the digest fits, no job is there twice and the numbers of its summary can be
    calculated, and its peak is the greatest number of jobs that ran at one
    moment. *)

From Stdlib Require Import Permutation Sorted.
From stdpp Require sorting.
From S2P Require Import Prelude PyFloat PyDecimal PyFormat PySort PyDict Errors Money Clock PyJson PyText S3Store States Models Config Tables FairShare Placement Report Trace.
Local Open Scope Z_scope.
Local Open Scope py_scope.

(** ** Sorting what is sorted *)

Lemma py_sort_again {A} (lt : A -> A -> bool) `{!StrictWeakOrder lt} l : StronglySorted (sort_le lt) l -> py_sort lt l = l.
Proof.
  induction 1 as [|x l _ IH Hx]; [done|].
  change (insert_sorted lt x (py_sort lt l) = x :: l). rewrite IH. destruct l as [|y l]; [done|].
  apply Forall_cons in Hx as [Hx _]. cbn. unfold sort_le in Hx. by rewrite Hx.
Qed.

#[export] Instance job_order_swo : StrictWeakOrder job_order.
Proof. unfold job_order. apply _. Qed.

(** The jobs come in the order of the trace. *)
Lemma list_jobs_sorted d : py_sort job_order (list_jobs d None None None) = list_jobs d None None None.
Proof. apply py_sort_again; [apply _|]. apply py_sort_sorted, _. Qed.

(** ** The export is blind *)

Section Blind.
Context (alias : string -> string) (Halias : forall a b, str_lt (alias a) (alias b) = str_lt a b) (shift : Z).

Let alias_inj : Inj (=) (=) alias := keeps_order_inj alias Halias.
#[local] Existing Instance alias_inj.

(** Two jobs of two databases with the same work, under another name and at
    another time; the id, the command, the machine, the log, the environment, the
    checkpoint and the reasons may differ. *)
Record twin (d1 d2 : DB) (j1 j2 : Job) : Prop := {
  tw_user : j_user_id j2 = alias (j_user_id j1);
  tw_gpu : j_gpu_type j2 = j_gpu_type j1;
  tw_currency : j_currency j2 = j_currency j1;
  tw_reserved : j_reserved j2 = j_reserved j1;
  tw_spent : spend_of d2 (j_job_id j2) = spend_of d1 (j_job_id j1);
  tw_hours : j_requested_hours j2 = j_requested_hours j1;
  tw_state : j_state j2 = j_state j1;
  tw_origin : j_origin j2 = j_origin j1;
  tw_submitted : j_submitted_at j2 = j_submitted_at j1 + shift;
  tw_started : j_started_at j2 = option_map (fun t => t + shift) (j_started_at j1);
  tw_finished : j_finished_at j2 = option_map (fun t => t + shift) (j_finished_at j1);
  tw_attempts : j_attempts j2 = j_attempts j1;
  tw_preemptions : j_preemptions j2 = j_preemptions j1
}.

Lemma seconds_shift m epoch : seconds (option_map (fun t => t + shift) m) (epoch + shift) = seconds m epoch.
Proof. destruct m as [m|]; cbn; [|done]. do 3 f_equal. lia. Qed.

Lemma remove_dups_alias us : remove_dups (map alias us) = map alias (remove_dups us).
Proof.
  induction us as [|u us IH]; [done|]. cbn.
  case_decide as H1; case_decide as H2; cbn; [done| | |by rewrite IH].
  - apply list_elem_of_fmap in H1 as (v & E%alias_inj & Hv). by subst.
  - destruct H1. by apply list_elem_of_fmap_2.
Qed.

Lemma user_keys_alias us : user_keys (map alias us) = map (fun kv => (alias (fst kv), snd kv)) (user_keys us).
Proof.
  unfold user_keys, sorted_set. rewrite remove_dups_alias, (py_sort_map str_lt str_lt) by (intros; apply Halias).
  generalize (py_sort str_lt (remove_dups us)). intros l.
  change (imap (fun i u => (u, "user-" +:+ pad0 3 (Z.of_nat i + 1))) (alias <$> l)
    = (fun kv => (alias (fst kv), snd kv)) <$> imap (fun i u => (u, "user-" +:+ pad0 3 (Z.of_nat i + 1))) l).
  by rewrite imap_fmap, fmap_imap.
Qed.

Lemma alias_get {V} u (m : dict string V) : dict_get (alias u) (map (fun kv => (alias (fst kv), snd kv)) m) = dict_get u m.
Proof.
  induction m as [|[k v] m IH]; [done|]. cbn. destruct (decide (k = u)) as [->|Hne]; [by rewrite decide_True|].
  rewrite decide_False; [done|]. by intros E%alias_inj.
Qed.

Lemma record_twin d1 d2 keys epoch i j1 j2 : twin d1 d2 j1 j2 ->
  record_of (map (fun kv => (alias (fst kv), snd kv)) keys) (epoch + shift) (fun j => spend_of d2 (j_job_id j)) i j2
  = record_of keys epoch (fun j => spend_of d1 (j_job_id j)) i j1.
Proof.
  intros []. unfold record_of. rewrite tw_user0, alias_get, tw_gpu0, tw_currency0, tw_reserved0, tw_spent0, tw_hours0, tw_state0,
    tw_origin0, tw_started0, tw_finished0, tw_attempts0, tw_preemptions0, tw_submitted0, !seconds_shift.
  by rewrite <- (seconds_shift (Some (j_submitted_at j1))).
Qed.

Lemma imap_twin {A B C} (R : A -> B -> Prop) (f : nat -> A -> C) (g : nat -> B -> C) xs ys :
  (forall i x y, R x y -> g i y = f i x) -> Forall2 R xs ys -> imap g ys = imap f xs.
Proof.
  intros Hfg H. revert f g Hfg. induction H as [|x y xs ys Hxy _ IH]; intros f g Hfg; [done|].
  cbn. f_equal; [by apply Hfg|]. apply IH. intros i. apply (Hfg (S i)).
Qed.

Lemma twins_field {d1 d2 jobs1 jobs2} {B} (f g : Job -> B) : (forall j1 j2, twin d1 d2 j1 j2 -> g j2 = f j1) ->
  Forall2 (twin d1 d2) jobs1 jobs2 -> map g jobs2 = map f jobs1.
Proof. intros Hfg. induction 1 as [|j1 j2 l1 l2 Hj _ IH]; cbn; [done|]. by rewrite (Hfg _ _ Hj), IH. Qed.

Lemma records_twin d1 d2 jobs1 jobs2 : py_sort job_order jobs1 = jobs1 -> py_sort job_order jobs2 = jobs2 ->
  Forall2 (twin d1 d2) jobs1 jobs2 ->
  records_of jobs2 (fun j => spend_of d2 (j_job_id j)) = records_of jobs1 (fun j => spend_of d1 (j_job_id j)).
Proof.
  intros E1 E2 Htw. unfold records_of. rewrite E1, E2. destruct Htw as [|j1 j2 l1 l2 Hj Hl]; [done|].
  assert (Hu : map j_user_id (j2 :: l2) = map alias (map j_user_id (j1 :: l1))).
  { rewrite map_map. apply (twins_field (d1 := d1) (d2 := d2)); [by intros ? ? []|by constructor]. }
  rewrite Hu, user_keys_alias, (tw_submitted _ _ _ _ Hj).
  apply (imap_twin (twin d1 d2)); [|by constructor]. intros. by apply record_twin.
Qed.

Lemma operational_twin d1 d2 jobs1 jobs2 : Forall2 (twin d1 d2) jobs1 jobs2 ->
  Forall2 (twin d1 d2) (operational jobs1) (operational jobs2).
Proof.
  unfold operational. induction 1 as [|j1 j2 l1 l2 Hj _ IH]; cbn; [done|]. rewrite (tw_origin _ _ _ _ Hj).
  destruct (negb _); [by constructor|done].
Qed.

End Blind.

(** C30: an exported trace is blind to what it says it leaves out: two databases whose
    jobs, in their order, did the same work for the same money, for members under
    other names in the same alphabetical order, at moments shifted by any amount,
    give the same bundle, the same text and the same refusals, whatever the ids,
    commands, machines, logs, environments, checkpoints and reasons are. *)
Theorem trace_blind sha256 alias shift d1 d2 :
  (forall a b, str_lt (alias a) (alias b) = str_lt a b) ->
  Forall2 (twin alias shift d1 d2) (list_jobs d1 None None None) (list_jobs d2 None None None) ->
  export_trace sha256 d1 = export_trace sha256 d2.
Proof.
  intros Halias Htw. unfold export_trace.
  pose proof (records_twin alias Halias shift d1 d2 _ _ (list_jobs_sorted d1) (list_jobs_sorted d2) Htw) as Hrec.
  pose proof (operational_twin alias shift d1 d2 _ _ Htw) as Hown.
  assert (Hu : map j_user_id (operational (list_jobs d2 None None None)) = map alias (map j_user_id (operational (list_jobs d1 None None None)))).
  { rewrite map_map. apply (twins_field alias shift (d1 := d1) (d2 := d2)); [by intros ? ? []|done]. }
  rewrite Hrec, Hu, (remove_dups_alias alias Halias). unfold len. rewrite length_map, (Forall2_length _ _ _ Hown).
  by destruct Htw.
Qed.

(** ** What a replay accepts *)

(** The times of a row are in order. *)
Definition timely (r : Row) : Prop :=
  match rw_start r with Some s => f_lt s (rw_submitted r) = false | None => True end /\
  match rw_finish r with Some f => f_lt f (default (rw_submitted r) (rw_start r)) = false | None => True end.

(** A job runs at a moment: it started no later, and had not finished before. *)
Definition running (at_ : float) (r : Row) : bool :=
  match rw_start r with
  | Some s => negb (f_lt at_ s) && match rw_finish r with Some f => negb (f_lt f at_) | None => true end
  | None => false
  end.

Definition starts_of (rows : list Row) : list float := omap rw_start rows.

(** The greatest number of jobs that run at one start *)
Definition peak (rows : list Row) : Z := foldr Z.max 0 (map (fun s => count_if (running s) rows) (starts_of rows)).

Lemma read_row_timely job r : read_row job = Ok r -> timely r.
Proof.
  unfold read_row. do 5 (intros (? & _ & H)%obind_ok; revert H).
  intros (start & _ & H)%obind_ok. apply obind_ok in H as ([] & Hs & H). apply obind_ok in H as (finish & _ & H).
  apply obind_ok in H as (useful & Hf & H). do 3 (apply obind_ok in H as (? & _ & H)). injection H as <-. split; cbn.
  - destruct start as [s|]; [|done]. by destruct (f_lt s _).
  - destruct finish as [f|]; [|done]. by destruct (f_lt f _).
Qed.

(** *** Counting by keys *)

Definition keys_of (rows : list Row) : gset string := list_to_set (map rw_key rows).

Lemma keys_size rows : NoDup (map rw_key rows) -> base.size (keys_of rows) = length rows.
Proof. intros H. unfold keys_of. by rewrite size_list_to_set, length_map. Qed.

Lemma filter_keys (p : Row -> bool) rows : NoDup (map rw_key rows) -> NoDup (map rw_key (List.filter p rows)).
Proof.
  induction rows as [|r rows IH]; cbn; [done|]. intros [Hr Hn]%NoDup_cons. destruct (p r); [|by apply IH].
  cbn. constructor; [|by apply IH]. intros (r' & E & Hr')%list_elem_of_fmap. apply Hr. rewrite E.
  apply list_elem_of_fmap_2. by apply list_elem_of_In, List.filter_In, proj1, list_elem_of_In in Hr'.
Qed.

Lemma max_ge {A} (f : A -> Z) (xs : list A) x : x ∈ xs -> f x <= foldr Z.max 0 (map f xs).
Proof. induction xs as [|y xs IH]; [by intros ?%elem_of_nil|]. intros [->|Hx]%elem_of_cons; cbn; [lia|]. specialize (IH Hx). cbn in IH. lia. Qed.

Lemma max_le {A} (f : A -> Z) (xs : list A) b : 0 <= b -> (forall x, x ∈ xs -> f x <= b) -> foldr Z.max 0 (map f xs) <= b.
Proof.
  intros Hb. induction xs as [|y xs IH]; intros H; cbn; [done|]. apply Z.max_lub; [by apply H; left|].
  apply IH. intros. apply H. by right.
Qed.

Lemma max_nonneg xs : 0 <= foldr Z.max 0 xs.
Proof. induction xs as [|x xs IH]; cbn; lia. Qed.

(** A list that has a member has a last one in an order. *)
Lemma last_in_order {A} (lt : A -> A -> bool) `{!StrictWeakOrder lt} (xs : list A) x : x ∈ xs ->
  exists y, y ∈ xs /\ sort_le lt x y /\ forall z, z ∈ xs -> sort_le lt z y.
Proof.
  assert (Hrefl : forall a, sort_le lt a a) by (intros a; apply not_true_is_false; intros H; pose proof (swo_asym lt _ _ H); congruence).
  revert x. induction xs as [|a xs IH]; intros x Hx; [by apply elem_of_nil in Hx|].
  destruct xs as [|b xs].
  - apply list_elem_of_singleton in Hx as ->. exists a. split_and!; [left|done|]. by intros z ->%list_elem_of_singleton.
  - destruct (IH b) as (y & Hy & _ & Hmax); [left|]. destruct (lt y a) eqn:Hya.
    + assert (Hall : forall z, z ∈ a :: b :: xs -> sort_le lt z a).
      { intros z [->|Hz]%elem_of_cons; [done|]. apply (sort_le_trans lt _ y); [by apply Hmax|]. exact (swo_asym lt y a Hya). }
      exists a. split_and!; [left|by apply Hall|done].
    + assert (Hall : forall z, z ∈ a :: b :: xs -> sort_le lt z y) by (intros z [->|Hz]%elem_of_cons; [done|by apply Hmax]).
      exists y. split_and!; [by right|by apply Hall|done].
Qed.

(** *** The order of the events *)

#[export] Instance event_lt_swo : StrictWeakOrder event_lt.
Proof. unfold event_lt. apply _. Qed.

Lemma event_earlier a b : f_ltk (ev_at a) (ev_at b) = true -> event_lt a b = true.
Proof. intros H. unfold event_lt, lex, on. by rewrite H. Qed.

Lemma event_by_code a b : f_ltk (ev_at b) (ev_at a) = false -> code (ev_action a) < code (ev_action b) -> event_lt a b = true.
Proof.
  intros H Hc. unfold event_lt, lex at 1, on at 1 2. rewrite H. cbn. unfold lex at 1, on at 1.
  apply Z.ltb_lt in Hc. rewrite Hc. by rewrite orb_true_r.
Qed.

Lemma event_tie a b : ev_action a = ev_action b -> f_ltk (ev_at a) (ev_at b) = false -> f_ltk (ev_at b) (ev_at a) = false ->
  event_lt a b = false -> event_lt b a = false -> ev_key a = ev_key b.
Proof.
  intros Ha H1 H2. unfold event_lt, lex, on. rewrite H1, H2, Ha, !Z.ltb_irrefl.
  assert (Hw : forall w, str_lt w w = false) by (intros w; apply not_true_is_false; intros H; pose proof (swo_asym str_lt _ _ H); congruence).
  rewrite Hw. cbn. apply str_lt_total.
Qed.

Lemma event_lt_irrefl a : event_lt a a = false.
Proof. apply not_true_is_false. intros H. pose proof (swo_asym event_lt _ _ H). congruence. Qed.

(** The times of a row, by the order of keys *)
Lemma row_times r : finite_row r = true -> timely r ->
  (forall s, rw_start r = Some s -> f_ltk s (rw_submitted r) = false) /\
  (forall s f, rw_start r = Some s -> rw_finish r = Some f -> f_ltk f s = false) /\
  (forall f, rw_start r = None -> rw_finish r = Some f -> f_ltk f (rw_submitted r) = false).
Proof.
  intros [[Hsub Hs]%andb_true_iff Hf]%andb_true_iff [Ts Tf]. apply negb_true_iff in Hsub.
  split_and!; intros; simplify_option_eq; rewrite f_ltk_lt; try done; by apply negb_true_iff.
Qed.

Lemma finite_start r s : finite_row r = true -> rw_start r = Some s -> is_nan s = false.
Proof. intros [[_ H]%andb_true_iff _]%andb_true_iff Hs. rewrite Hs in H. by apply negb_true_iff. Qed.

Lemma finite_finish r f : finite_row r = true -> rw_finish r = Some f -> is_nan f = false.
Proof. intros [_ H]%andb_true_iff Hf. rewrite Hf in H. by apply negb_true_iff. Qed.

Lemma tied_left a b x : f_ltk a b = false -> f_ltk b a = false -> f_ltk a x = f_ltk b x.
Proof.
  intros H1 H2. destruct (f_ltk a x) eqn:E1, (f_ltk b x) eqn:E2; try done.
  - destruct (swo_cotrans f_ltk a b x E1); congruence.
  - destruct (swo_cotrans f_ltk b a x E2); congruence.
Qed.

Lemma tied_right a b x : f_ltk a b = false -> f_ltk b a = false -> f_ltk x a = f_ltk x b.
Proof.
  intros H1 H2. destruct (f_ltk x a) eqn:E1, (f_ltk x b) eqn:E2; try done.
  - destruct (swo_cotrans f_ltk x b a E1); congruence.
  - destruct (swo_cotrans f_ltk x a b E2); congruence.
Qed.

Lemma running_same a b r : is_nan a = false -> is_nan b = false ->
  (forall s, rw_start r = Some s -> is_nan s = false) -> (forall f, rw_finish r = Some f -> is_nan f = false) ->
  f_ltk a b = false -> f_ltk b a = false -> running a r = running b r.
Proof.
  intros Ha Hb Hs Hf H1 H2. unfold running. destruct (rw_start r) as [s|]; [|done]. specialize (Hs s eq_refl).
  rewrite <- !f_ltk_lt by done. rewrite (tied_left a b s H1 H2). f_equal. destruct (rw_finish r) as [f|]; [|done].
  specialize (Hf f eq_refl). rewrite <- !f_ltk_lt by done. by rewrite (tied_right a b f H1 H2).
Qed.

Lemma count_same {A} (p q : A -> bool) (xs : list A) : (forall x, x ∈ xs -> p x = q x) -> count_if p xs = count_if q xs.
Proof.
  intros H. unfold count_if. do 2 f_equal. induction xs as [|x xs IH]; [done|]. cbn. rewrite H by left. rewrite IH; [done|].
  intros. apply H. by right.
Qed.

Lemma filter_permutes {A} (p : A -> bool) xs ys : Permutation xs ys -> Permutation (List.filter p xs) (List.filter p ys).
Proof.
  induction 1 as [|x xs ys _ IH|x y xs|xs ys zs _ IH1 _ IH2]; cbn; [done| | |by etransitivity].
  - destruct (p x); [by apply perm_skip|done].
  - destruct (p x), (p y); try reflexivity. apply perm_swap.
Qed.

(** *** The events of a row *)

Lemma same_row rows r r' : NoDup (map rw_key rows) -> r ∈ rows -> r' ∈ rows -> rw_key r = rw_key r' -> r = r'.
Proof.
  induction rows as [|x l IH]; [by intros _ ?%elem_of_nil|]. cbn. intros [Hx Hl]%NoDup_cons [->|Hr]%elem_of_cons [->|Hr']%elem_of_cons E; [done| | |by apply IH].
  - destruct Hx. rewrite E. by apply list_elem_of_fmap_2.
  - destruct Hx. rewrite <- E. by apply list_elem_of_fmap_2.
Qed.

Lemma event_key r e : e ∈ events_of r -> ev_key e = rw_key r.
Proof. unfold events_of. destruct (rw_start r), (rw_finish r); cbn; set_solver. Qed.

(** One event of each action and key *)
Lemma event_of r a t t' : mkEvent t a (rw_key r) ∈ events_of r -> mkEvent t' a (rw_key r) ∈ events_of r -> t = t'.
Proof.
  unfold events_of. destruct (rw_start r), (rw_finish r); cbn; rewrite ?elem_of_cons; 
    intros H H'; destruct_or!; try (by apply elem_of_nil in H); try (by apply elem_of_nil in H'); congruence.
Qed.

Lemma events_nodup r : NoDup (events_of r).
Proof.
  unfold events_of. destruct (rw_start r), (rw_finish r); cbn; repeat (constructor; [set_solver|]); constructor.
Qed.

Definition has (a : Action) (k : string) (es : list Event) : Prop := exists e, e ∈ es /\ ev_action e = a /\ ev_key e = k.

Lemma has_snoc a k es e : has a k (es ++ [e]) <-> has a k es \/ (ev_action e = a /\ ev_key e = k).
Proof.
  unfold has. split.
  - intros (x & [Hx| ->%list_elem_of_singleton]%elem_of_app & Ha & Hk); [left; by exists x|by right].
  - intros [(x & Hx & Ha & Hk)|[Ha Hk]]; [exists x|exists e]; (split; [|done]); apply elem_of_app; [by left|right; left].
Qed.

(** *** The walk over the events *)

Section Replay.
Context (rows : list Row) (Hnd : NoDup (map rw_key rows)).
Context (Hfin : Forall (fun r => finite_row r = true) rows) (Htime : Forall timely rows).

Definition evs : list Event := py_sort event_lt (concat (map events_of rows)).

Lemma evs_elem e : e ∈ evs <-> exists r, r ∈ rows /\ e ∈ events_of r.
Proof.
  unfold evs. rewrite py_sort_elem, list_elem_of_In, in_concat. split.
  - intros (l & (r & <- & Hr)%in_map_iff & He). exists r. split; by apply list_elem_of_In.
  - intros (r & Hr & He). exists (events_of r). split; [by apply in_map, list_elem_of_In|by apply list_elem_of_In].
Qed.

Lemma evs_once e e' : e ∈ evs -> e' ∈ evs -> ev_action e = ev_action e' -> ev_key e = ev_key e' -> e = e'.
Proof.
  intros (r & Hr & He)%evs_elem (r' & Hr' & He')%evs_elem Ea Ek.
  assert (r = r') as <- by (apply (same_row rows); [done..|]; by rewrite <- (event_key _ _ He), <- (event_key _ _ He')).
  destruct e as [t a k], e' as [t' a' k']. cbn in *. subst a' k'. pose proof (event_key _ _ He) as E. cbn in E. subst k. f_equal. exact (event_of r a t t' He He').
Qed.

Lemma evs_nodup : NoDup evs.
Proof.
  unfold evs. rewrite py_sort_perm. revert Hnd. clear Hfin Htime. induction rows as [|r l IH]; [constructor|].
  intros [Hr Hl]%NoDup_cons. cbn [map concat]. apply NoDup_app. split_and!; [apply events_nodup| |by apply IH].
  intros e He Hin. apply Hr. rewrite <- (event_key _ _ He). apply list_elem_of_In, in_concat in Hin as (x & Hx & Hin).
  apply in_map_iff in Hx as (r' & <- & Hr'%list_elem_of_In). apply list_elem_of_In in Hin. rewrite (event_key _ _ Hin).
  by apply list_elem_of_fmap_2.
Qed.

(** What stands before and after an event *)
Lemma evs_split p e q : evs = p ++ e :: q ->
  (forall x, x ∈ p -> event_lt e x = false) /\ (forall x, x ∈ evs -> event_lt x e = true -> x ∈ p) /\ e ∉ p.
Proof.
  intros E. pose proof (py_sort_sorted event_lt (concat (map events_of rows))) as Hs. fold evs in Hs. rewrite E in Hs.
  pose proof evs_nodup as Hn. rewrite E in Hn. split_and!.
  - intros x Hx. eapply (sorting.StronglySorted_app_1_elem_of (sort_le event_lt)); [exact Hs|done|left].
  - intros x Hx Hlt. rewrite E in Hx. apply elem_of_app in Hx as [|[->|Hx]%elem_of_cons]; [done| |].
    + by rewrite event_lt_irrefl in Hlt.
    + apply sorting.StronglySorted_app in Hs as (_ & _ & [_ Hf]%StronglySorted_inv). rewrite Forall_forall in Hf.
      specialize (Hf x Hx). unfold sort_le in Hf. congruence.
  - apply NoDup_app in Hn as (_ & Hn & _). intros Hp. by apply (Hn e Hp); left.
Qed.

Lemma evs_after p e q x : evs = p ++ e :: q -> x ∈ q -> event_lt x e = false.
Proof.
  intros E Hx. pose proof (py_sort_sorted event_lt (concat (map events_of rows))) as Hs. fold evs in Hs. rewrite E in Hs.
  apply sorting.StronglySorted_app in Hs as (_ & _ & [_ Hf]%StronglySorted_inv). rewrite Forall_forall in Hf. by apply Hf.
Qed.

(** Before an event there was none of its action and key. *)
Lemma has_fresh p e q : evs = p ++ e :: q -> ~ has (ev_action e) (ev_key e) p.
Proof.
  intros E (x & Hx & Ha & Hk). destruct (evs_split p e q E) as (_ & _ & He). apply He.
  assert (x = e) as <-; [|done]. apply evs_once; [..|done|done]; rewrite E; apply elem_of_app; [by left|right; left].
Qed.
(** The events of a row are in order. *)
Lemma row_order r : r ∈ rows ->
  (forall s, rw_start r = Some s -> event_lt (mkEvent (rw_submitted r) Submit (rw_key r)) (mkEvent s Start (rw_key r)) = true) /\
  (forall s f, rw_start r = Some s -> rw_finish r = Some f ->
     event_lt (mkEvent s Start (rw_key r)) (mkEvent f Finish (rw_key r)) = true) /\
  (forall f, rw_start r = None -> rw_finish r = Some f ->
     event_lt (mkEvent (rw_submitted r) Submit (rw_key r)) (mkEvent f FinishUnstarted (rw_key r)) = true).
Proof.
  intros Hr. pose proof Hfin as F. pose proof Htime as T. rewrite Forall_forall in F, T.
  destruct (row_times r (F r Hr) (T r Hr)) as (H1 & H2 & H3).
  split_and!; intros; (apply event_by_code; cbn; [auto|lia]).
Qed.

Lemma submit_event r : r ∈ rows -> mkEvent (rw_submitted r) Submit (rw_key r) ∈ evs.
Proof. intros Hr. apply evs_elem. exists r. split; [done|]. left. Qed.

Lemma start_event r s : r ∈ rows -> rw_start r = Some s -> mkEvent s Start (rw_key r) ∈ evs.
Proof. intros Hr Hs. apply evs_elem. exists r. split; [done|]. unfold events_of. rewrite Hs. right. left. Qed.

Lemma finish_event r s f : r ∈ rows -> rw_start r = Some s -> rw_finish r = Some f -> mkEvent f Finish (rw_key r) ∈ evs.
Proof. intros Hr Hs Hf. apply evs_elem. exists r. split; [done|]. unfold events_of. rewrite Hs, Hf. right. right. left. Qed.

(** The row of an event *)
Lemma event_row e : e ∈ evs -> exists r, r ∈ rows /\ ev_key e = rw_key r /\
  match ev_action e with
  | Submit => ev_at e = rw_submitted r
  | Start => rw_start r = Some (ev_at e)
  | Finish => exists s, rw_start r = Some s /\ rw_finish r = Some (ev_at e)
  | FinishUnstarted => rw_start r = None /\ rw_finish r = Some (ev_at e)
  end.
Proof.
  intros (r & Hr & He)%evs_elem. exists r. split; [done|]. unfold events_of in He.
  destruct (rw_start r) as [s|] eqn:Hs, (rw_finish r) as [f|] eqn:Hf; cbn in He; rewrite ?elem_of_cons, ?elem_of_nil in He;
    destruct_or?; subst; cbn; eauto; done.
Qed.

(** The latest start of its moment *)
Definition latest (e : Event) : Prop :=
  forall x, x ∈ evs -> ev_action x = Start -> f_ltk (ev_at e) (ev_at x) = false -> f_ltk (ev_at x) (ev_at e) = false ->
    event_lt e x = false.

(** The walk so far *)
Record walked (p : list Event) (w : Walk) : Prop := {
  wd_submitted : forall k, k ∈ wk_submitted w <-> has Submit k p;
  wd_active : forall k, k ∈ wk_active w <-> has Start k p /\ ~ has Finish k p;
  wd_zero : 0 <= wk_max w;
  wd_below : wk_max w <= peak rows;
  wd_reached : forall e, e ∈ p -> ev_action e = Start -> latest e -> count_if (running (ev_at e)) rows <= wk_max w
}.

Lemma walked_nil : walked [] no_walk.
Proof.
  assert (Hno : forall a k, ~ has a k []) by (intros a k (e & He & _); by apply elem_of_nil in He).
  split; cbn.
  - intros k. split; [by intros ?%elem_of_empty|]. intros H. by apply Hno in H.
  - intros k. split; [by intros ?%elem_of_empty|]. intros [H _]. by apply Hno in H.
  - done.
  - apply max_nonneg.
  - by intros e ?%elem_of_nil.
Qed.

(** The jobs that run at a moment, by key *)
Lemma running_key at_ k : k ∈ keys_of (List.filter (running at_) rows) <-> exists r, r ∈ rows /\ rw_key r = k /\ running at_ r = true.
Proof.
  unfold keys_of. rewrite elem_of_list_to_set, list_elem_of_fmap. split.
  - intros (r & -> & [Hr Hp]%list_elem_of_In%filter_In). exists r. by rewrite list_elem_of_In.
  - intros (r & Hr & <- & Hp). exists r. split; [done|]. apply list_elem_of_In, filter_In. by rewrite <- list_elem_of_In.
Qed.

Lemma count_keys at_ : count_if (running at_) rows = Z.of_nat (base.size (keys_of (List.filter (running at_) rows))).
Proof. unfold count_if. by rewrite keys_size by by apply filter_keys. Qed.

Lemma count_peak r s : r ∈ rows -> rw_start r = Some s -> count_if (running s) rows <= peak rows.
Proof.
  intros Hr Hs. unfold peak. apply (max_ge (fun s => count_if (running s) rows)). unfold starts_of.
  apply list_elem_of_omap. by exists r.
Qed.

Lemma start_number r s : r ∈ rows -> rw_start r = Some s -> is_nan s = false.
Proof. intros Hr Hs. pose proof Hfin as F. rewrite Forall_forall in F. exact (finite_start r s (F r Hr) Hs). Qed.

Lemma finish_number r f : r ∈ rows -> rw_finish r = Some f -> is_nan f = false.
Proof. intros Hr Hf. pose proof Hfin as F. rewrite Forall_forall in F. exact (finite_finish r f (F r Hr) Hf). Qed.

(** Who is active once an event was a start: the jobs that run then, if it was the latest of its moment *)
Section Start.
Context (p q : list Event) (s : float) (r : Row) (active : gset string).
Context (Hr : r ∈ rows) (Hs : rw_start r = Some s).
Let e := mkEvent s Start (rw_key r).
Context (E : evs = p ++ e :: q).
Context (Hactive : forall k, k ∈ active <-> has Start k (p ++ [e]) /\ ~ has Finish k (p ++ [e])).

Lemma event_in x : x ∈ p ++ [e] -> x ∈ evs.
Proof. rewrite E, !elem_of_app. intros [Hx|Hx%list_elem_of_singleton]; [by left|right]. subst. left. Qed.

Lemma active_runs : active ⊆ keys_of (List.filter (running s) rows).
Proof.
  destruct (evs_split p e q E) as (Hlate & Hearly & _).
  intros k [(x & Hx & Ha & Hk) Hf]%Hactive. destruct (event_row x (event_in x Hx)) as (r' & Hr' & Hk' & Hx'). rewrite Ha in Hx'.
  apply running_key. exists r'. split; [done|]. split; [congruence|]. unfold running. rewrite Hx'. apply andb_true_iff. split.
  - apply negb_true_iff. apply elem_of_app in Hx as [Hx| ->%list_elem_of_singleton].
    + specialize (Hlate x Hx). rewrite <- (f_ltk_lt _ _ (start_number r s Hr Hs) (start_number r' _ Hr' Hx')).
      apply not_true_is_false. intros Hlt. by rewrite (event_earlier e x Hlt) in Hlate.
    + cbn. apply f_lt_irrefl.
  - destruct (rw_finish r') as [f|] eqn:Hf'; [|done]. apply negb_true_iff, not_true_is_false. intros Hlt. apply Hf.
    exists (mkEvent f Finish (rw_key r')). split; [|split; [done|cbn; congruence]]. apply elem_of_app. left. apply Hearly.
    + by apply (finish_event r' (ev_at x)).
    + apply event_earlier. cbn. by rewrite (f_ltk_lt _ _ (finish_number r' f Hr' Hf') (start_number r s Hr Hs)).
Qed.

Lemma runs_active : latest e -> keys_of (List.filter (running s) rows) ⊆ active.
Proof.
  destruct (evs_split p e q E) as (Hlate & Hearly & _).
  intros Hlast k (r' & Hr' & <- & Hrun)%running_key. unfold running in Hrun.
  destruct (rw_start r') as [s'|] eqn:Hs'; [|done]. apply andb_true_iff in Hrun as [Hle%negb_true_iff Hf].
  rewrite <- (f_ltk_lt _ _ (start_number r s Hr Hs) (start_number r' s' Hr' Hs')) in Hle.
  apply Hactive. split.
  - exists (mkEvent s' Start (rw_key r')). split; [|done]. apply elem_of_app.
    destruct (f_ltk s' s) eqn:Hlt; [left; apply Hearly; [by apply start_event|by apply event_earlier]|].
    pose proof (start_event r' s' Hr' Hs') as Hx. pose proof (Hlast _ Hx eq_refl Hle Hlt) as Hnot.
    rewrite E in Hx. apply elem_of_app in Hx as [|[->|Hx]%elem_of_cons]; [by left|right; left|].
    right. apply list_elem_of_singleton, evs_once; [by apply start_event|by apply start_event|done|].
    symmetry. apply (event_tie e (mkEvent s' Start (rw_key r'))); [done..|]. by apply (evs_after p e q).
  - intros (x & Hx & Ha & Hk). destruct (event_row x (event_in x Hx)) as (r2 & Hr2 & Hk2 & Hx2). rewrite Ha in Hx2.
    destruct Hx2 as (s2 & Hs2 & Hf2). assert (r2 = r') as -> by (apply (same_row rows); [done..|congruence]).
    rewrite Hf2 in Hf. apply negb_true_iff in Hf.
    rewrite <- (f_ltk_lt _ _ (finish_number r' _ Hr' Hf2) (start_number r s Hr Hs)) in Hf.
    apply elem_of_app in Hx as [Hx|Hx%list_elem_of_singleton]; [|by subst x].
    specialize (Hlate x Hx). rewrite (event_by_code e x) in Hlate; [done|done|]. rewrite Ha. cbn. lia.
Qed.
End Start.

(** A finish and a refused end leave the starts, the peak and what it has to reach. *)
Lemma reached_snoc p e w : ev_action e <> Start -> walked p w ->
  forall x, x ∈ p ++ [e] -> ev_action x = Start -> latest x -> count_if (running (ev_at x)) rows <= wk_max w.
Proof.
  intros He [_ _ _ _ Hw] x [Hx|Hx%list_elem_of_singleton]%elem_of_app Ha; [by apply Hw|by subst x].
Qed.

Lemma step_submit p e q w : evs = p ++ e :: q -> walked p w -> ev_action e = Submit ->
  exists w', walk_step w e = Ok w' /\ walked (p ++ [e]) w'.
Proof.
  intros E Hw Ha. pose proof (has_fresh p e q E) as Hno. unfold walk_step. rewrite Ha in *.
  rewrite bool_decide_eq_false_2 by (by rewrite (wd_submitted _ _ Hw)). eexists. split; [reflexivity|].
  split; cbn; [| |apply Hw|apply Hw|by apply reached_snoc; [rewrite Ha|]].
  - intros k. rewrite has_snoc, elem_of_union, elem_of_singleton, (wd_submitted _ _ Hw), Ha. naive_solver.
  - intros k. rewrite !has_snoc, (wd_active _ _ Hw), Ha. naive_solver.
Qed.

Lemma step_refused p e q w : evs = p ++ e :: q -> walked p w -> ev_action e = FinishUnstarted ->
  exists w', walk_step w e = Ok w' /\ walked (p ++ [e]) w'.
Proof.
  intros E Hw Ha. assert (Hin : e ∈ evs) by (rewrite E; apply elem_of_app; right; left).
  destruct (event_row e Hin) as (r & Hr & Hk & Hx). rewrite Ha in Hx. destruct Hx as [Hs Hf].
  assert (Hsub : has Submit (ev_key e) p).
  { exists (mkEvent (rw_submitted r) Submit (rw_key r)). split; [|by split; [|rewrite Hk]].
    apply (evs_split p e q E); [by apply submit_event|]. destruct e as [t a k]. cbn in *. subst a k. by apply (row_order r Hr). }
  unfold walk_step. rewrite Ha, bool_decide_eq_true_2 by (by apply (wd_submitted _ _ Hw)). cbn.
  eexists. split; [reflexivity|]. split; cbn; [| |apply Hw|apply Hw|by apply reached_snoc; [rewrite Ha|]].
  - intros k. rewrite has_snoc, (wd_submitted _ _ Hw), Ha. naive_solver.
  - intros k. rewrite !has_snoc, (wd_active _ _ Hw), Ha. naive_solver.
Qed.

Lemma step_finish p e q w : evs = p ++ e :: q -> walked p w -> ev_action e = Finish ->
  exists w', walk_step w e = Ok w' /\ walked (p ++ [e]) w'.
Proof.
  intros E Hw Ha. pose proof (has_fresh p e q E) as Hno. assert (Hin : e ∈ evs) by (rewrite E; apply elem_of_app; right; left).
  destruct (event_row e Hin) as (r & Hr & Hk & Hx). rewrite Ha in Hx, Hno. destruct Hx as (s & Hs & Hf).
  assert (Hst : has Start (ev_key e) p).
  { exists (mkEvent s Start (rw_key r)). split; [|by split; [|rewrite Hk]].
    apply (evs_split p e q E); [by apply start_event|]. destruct e as [t a k]. cbn in *. subst a k. by apply (row_order r Hr). }
  unfold walk_step. rewrite Ha, bool_decide_eq_true_2 by (by apply (wd_active _ _ Hw)). cbn.
  eexists. split; [reflexivity|]. split; cbn; [| |apply Hw|apply Hw|by apply reached_snoc; [rewrite Ha|]].
  - intros k. rewrite has_snoc, (wd_submitted _ _ Hw), Ha. naive_solver.
  - intros k. rewrite !has_snoc, elem_of_difference, elem_of_singleton, (wd_active _ _ Hw), Ha. naive_solver.
Qed.

Lemma step_start p e q w : evs = p ++ e :: q -> walked p w -> ev_action e = Start ->
  exists w', walk_step w e = Ok w' /\ walked (p ++ [e]) w'.
Proof.
  intros E Hw Ha. pose proof (has_fresh p e q E) as Hno. assert (Hin : e ∈ evs) by (rewrite E; apply elem_of_app; right; left).
  destruct (event_row e Hin) as (r & Hr & Hk & Hs). rewrite Ha in Hs, Hno.
  destruct e as [s a k]. cbn in Ha, Hk, Hs, Hno. subst a k. set (e := mkEvent s Start (rw_key r)) in *.
  destruct (evs_split p e q E) as (Hlate & Hearly & _).
  assert (Hsub : has Submit (rw_key r) p).
  { exists (mkEvent (rw_submitted r) Submit (rw_key r)). split; [|done]. apply Hearly; [by apply submit_event|exact (proj1 (row_order r Hr) s Hs)]. }
  assert (Hnf : ~ has Finish (rw_key r) p).
  { intros (x & Hx & Ha & Hkx). destruct (event_row x) as (r2 & Hr2 & Hk2 & Hx2); [rewrite E; apply elem_of_app; by left|].
    rewrite Ha in Hx2. destruct Hx2 as (s2 & Hs2 & Hf2). assert (r2 = r) as -> by (apply (same_row rows); [done..|congruence]).
    specialize (Hlate x Hx). destruct x as [t a k]. cbn in *. subst a k.
    pose proof (proj1 (proj2 (row_order r Hr)) s t Hs Hf2) as Hlt. subst e. congruence. }
  unfold walk_step. cbn. rewrite bool_decide_eq_true_2 by (by apply (wd_submitted _ _ Hw)).
  rewrite bool_decide_eq_false_2 by (rewrite (wd_active _ _ Hw); tauto). cbn. eexists. split; [reflexivity|].
  set (active := {[rw_key r]} ∪ wk_active w).
  assert (Hact : forall k, k ∈ active <-> has Start k (p ++ [e]) /\ ~ has Finish k (p ++ [e])).
  { intros k. unfold active. rewrite !has_snoc, elem_of_union, elem_of_singleton, (wd_active _ _ Hw). subst e. cbn. naive_solver. }
  assert (Hsize : len (elements active) = Z.of_nat (base.size active)) by done. rewrite Hsize.
  split; cbn.
  - intros k. rewrite has_snoc, (wd_submitted _ _ Hw). subst e. cbn. naive_solver.
  - done.
  - pose proof (wd_zero _ _ Hw). lia.
  - pose proof (wd_below _ _ Hw). pose proof (subseteq_size _ _ (active_runs p q s r active Hr Hs E Hact)) as Hle.
    pose proof (count_peak r s Hr Hs) as Hp. rewrite count_keys in Hp. lia.
  - intros x [Hx|Hx%list_elem_of_singleton]%elem_of_app Hax Hlast.
    + pose proof (wd_reached _ _ Hw x Hx Hax Hlast). lia.
    + subst x. cbn. pose proof (subseteq_size _ _ (runs_active p q s r active Hr Hs E Hact Hlast)) as Hle.
      rewrite count_keys. lia.
Qed.

Lemma walk_step_ok p e q w : evs = p ++ e :: q -> walked p w -> exists w', walk_step w e = Ok w' /\ walked (p ++ [e]) w'.
Proof.
  intros E Hw. destruct (ev_action e) eqn:Ha;
    [eapply step_submit|eapply step_start|eapply step_finish|eapply step_refused]; done.
Qed.

Lemma walk_rest p q w : evs = p ++ q -> walked p w -> exists w', walk_events w q = Ok w' /\ walked evs w'.
Proof.
  revert p w. induction q as [|e q IH]; intros p w E Hw; cbn.
  - exists w. split; [done|]. by rewrite E, app_nil_r.
  - destruct (walk_step_ok p e q w E Hw) as (w1 & -> & Hw1). cbn. apply (IH (p ++ [e])); [|done].
    by rewrite E, <- app_assoc.
Qed.

(** The walk goes through, and its greatest number is the peak. *)
Lemma walk_peak : exists w, walk_events no_walk evs = Ok w /\ wk_max w = peak rows.
Proof.
  destruct (walk_rest [] evs no_walk eq_refl walked_nil) as (w & Hok & Hw). exists w. split; [done|].
  apply Z.le_antisymm; [apply Hw|]. unfold peak. apply max_le; [apply Hw|].
  intros s (r & Hr & Hs)%list_elem_of_omap. set (first := mkEvent s Start (rw_key r)).
  set (tied := List.filter (fun x => bool_decide (ev_action x = Start) && negb (f_ltk (ev_at x) s) && negb (f_ltk s (ev_at x))) evs).
  assert (Hirr : f_ltk s s = false) by (apply not_true_is_false; intros H; pose proof (swo_asym f_ltk _ _ H); congruence).
  assert (Hfirst : first ∈ tied).
  { apply list_elem_of_In, filter_In. split; [by apply list_elem_of_In, start_event|]. cbn. by rewrite Hirr. }
  destruct (last_in_order event_lt tied first Hfirst) as (e & He & _ & Hmax).
  apply list_elem_of_In, filter_In in He as [He%list_elem_of_In [[Ha%bool_decide_eq_true H1%negb_true_iff]%andb_true_iff H2%negb_true_iff]%andb_true_iff].
  destruct (event_row e He) as (r' & Hr' & _ & Hs'). rewrite Ha in Hs'.
  assert (Hsame : forall r0, r0 ∈ rows -> running (ev_at e) r0 = running s r0).
  { intros r0 Hr0. apply running_same; [by apply (start_number r' _ Hr')|by apply (start_number r _ Hr)| | |done|done];
      intros; [by apply (start_number r0)|by apply (finish_number r0)]. }
  rewrite <- (count_same _ _ rows Hsame). apply (wd_reached _ _ Hw e He Ha).
  intros x Hx Hax Hle1 Hle2. apply Hmax, list_elem_of_In, filter_In. split; [by apply list_elem_of_In|].
  rewrite (bool_decide_eq_true_2 _ Hax). cbn. apply andb_true_iff; split; apply negb_true_iff.
  - exact (sort_le_trans f_ltk s (ev_at e) (ev_at x) H1 Hle2).
  - exact (sort_le_trans f_ltk (ev_at x) (ev_at e) s Hle1 H2).
Qed.
End Replay.

(** A walk that goes through met no key twice. *)
Lemma walk_submits es : forall w w', walk_events w es = Ok w' ->
  NoDup (map ev_key (List.filter (fun e => bool_decide (ev_action e = Submit)) es)) /\
  forall e, e ∈ es -> ev_action e = Submit -> ev_key e ∉ wk_submitted w.
Proof.
  induction es as [|e es IH]; intros w w'; cbn; [intros _; split; [constructor|by intros ? ?%elem_of_nil]|].
  intros (w1 & Hstep & H)%obind_ok. destruct (IH _ _ H) as [Hn Hout].
  assert (Hsub : wk_submitted w ⊆ wk_submitted w1 /\ (ev_action e = Submit -> ev_key e ∉ wk_submitted w /\ ev_key e ∈ wk_submitted w1)).
  { unfold walk_step in Hstep. destruct (ev_action e); repeat case_bool_decide; try discriminate; cbn in Hstep;
      injection Hstep as <-; cbn; set_solver. }
  destruct Hsub as [Hsub He]. split.
  - case_bool_decide as Ha; [|done]. cbn. constructor; [|done]. destruct (He Ha) as [_ Hin].
    intros (x & Hk & [Hx Hax]%list_elem_of_In%filter_In)%list_elem_of_fmap. apply list_elem_of_In in Hx. apply bool_decide_eq_true in Hax.
    apply (Hout x Hx Hax). by rewrite <- Hk.
  - intros x [->|Hx]%elem_of_cons Ha; [by apply He|]. intros Hin. by apply (Hout x Hx Ha), Hsub.
Qed.

Lemma submits_keys rows :
  map ev_key (List.filter (fun e => bool_decide (ev_action e = Submit)) (concat (map events_of rows))) = map rw_key rows.
Proof.
  induction rows as [|r rows IH]; [done|]. cbn [map concat]. rewrite List.filter_app, map_app, IH.
  unfold events_of. by destruct (rw_start r), (rw_finish r).
Qed.

Lemma walk_keys rows w : walk_events no_walk (evs rows) = Ok w -> NoDup (map rw_key rows).
Proof.
  intros [Hn _]%walk_submits. rewrite <- submits_keys. revert Hn. apply NoDup_Permutation_proper, Permutation_map.
  unfold evs. apply filter_permutes. symmetry. apply py_sort_perm.
Qed.

(** *** The walk decides *)

Lemma walk_refused es w e : walk_events w es = Raise e -> exists text, e = TraceError text.
Proof.
  revert w. induction es as [|x es IH]; intros w; [done|]. cbn [walk_events].
  destruct (walk_step w x) as [w1|e1] eqn:Hstep; cbn [obind]; [apply IH|]. intros [= <-].
  unfold walk_step in Hstep. destruct (ev_action x); repeat case_match; try discriminate; injection Hstep as <-; by eexists.
Qed.

(** The walk goes through exactly when no key is there twice; its greatest number is the peak. *)
Lemma walk_exact rows : Forall (fun r => finite_row r = true) rows -> Forall timely rows ->
  match walk_events no_walk (evs rows) with
  | Ok w => NoDup (map rw_key rows) /\ wk_max w = peak rows
  | Raise e => ~ NoDup (map rw_key rows) /\ exists text, e = TraceError text
  end.
Proof.
  intros Hfin Htime. destruct (walk_events no_walk (evs rows)) as [w|e] eqn:Hw.
  - pose proof (walk_keys rows w Hw) as Hnd. split; [done|]. destruct (walk_peak rows Hnd Hfin Htime) as (w' & Hw' & Hmax). congruence.
  - split; [|by eapply walk_refused]. intros Hnd. destruct (walk_peak rows Hnd Hfin Htime) as (w' & Hw' & _). congruence.
Qed.

(** *** The numbers of the summary *)

(** The job names its member. *)
Definition has_user (job : json) : Prop := exists u, item job "user_key" = Ok u.

(** The fairness of some hours can be calculated: there are none, or they add up to
    0, or the square of their sum is not too large and the sum of their squares is
    not 0. *)
Definition fair_defined (pow : pow_fun) (hours : list float) : Prop :=
  hours = [] \/ f_eq (f_sum hours) f0 = true \/
  (is_inf (pow (f_sum hours) (f_of_Z 2)) = true -> is_inf (f_sum hours) = true) /\
  f_eq (f_mul (f_of_Z (len hours)) (f_sum (map (fun v => f_mul v v) hours))) f0 = false.

Lemma users_exact jobs :
  match omapM (fun job => u <-? item job "user_key";; Ok (str_json u)) jobs with
  | Ok _ => Forall has_user jobs
  | Raise e => ~ Forall has_user jobs /\ forall text, e <> TraceError text
  end.
Proof.
  induction jobs as [|job jobs IH]; [constructor|]. cbn [omapM].
  destruct (item job "user_key") as [u|e] eqn:Hu; cbn [obind].
  - destruct (omapM _ jobs) as [us|e]; cbn [obind]; [constructor; [by exists u|done]|].
    split; [|apply IH]. intros [_ H]%Forall_cons. by apply (proj1 IH).
  - split; [intros [[u Hu'] _]%Forall_cons; congruence|]. intros text ->. unfold item in Hu.
    destruct job; try discriminate. by destruct (dict_get _ _).
Qed.

Lemma jain_exact pow hours :
  match jain pow hours with
  | Ok _ => fair_defined pow hours
  | Raise e => ~ fair_defined pow hours /\ forall text, e <> TraceError text
  end.
Proof.
  unfold jain, fair_defined. destruct hours as [|h hours]; [by left|]. set (hs := h :: hours).
  destruct (f_eq (f_sum hs) f0) eqn:Hz; [by right; left|].
  destruct (is_inf (pow (f_sum hs) (f_of_Z 2))) eqn:Hsq, (is_inf (f_sum hs)) eqn:Hsum; cbn [andb negb];
    try (destruct (f_eq (f_mul _ _) f0) eqn:Hb; [|by right; right]);
    (split; [intros [?|[?|[Ha ?]]]; try discriminate; by specialize (Ha eq_refl)|done]).
Qed.

Definition plain_spend (r : Row) : bool := negb (is_none (snd (rw_spend r))).

Lemma plain_spends rows : forallb plain_spend rows = true -> existsb (fun r => is_none (snd (rw_spend r))) rows = false.
Proof. induction rows as [|r rows IH]; cbn; [done|]. unfold plain_spend at 1. destruct (is_none _); [done|]. apply IH. Qed.

(** What can be said of a replay: it goes through exactly when the trace is whole and
    its numbers can be calculated, and it complains about the trace exactly when it
    is not whole. *)
Definition verdict (o : outcome exn (option ReplaySummary)) (whole sums : Prop) (max : Z) : Prop :=
  (is_ok o = true <-> whole /\ sums) /\
  ((exists text, o = Raise (TraceError text)) <-> ~ whole) /\
  forall r, o = Ok r -> exists s, r = Some s /\ rs_max_active s = max.

Lemma verdict_refused text (whole sums : Prop) max : ~ whole -> verdict (Raise (TraceError text)) whole sums max.
Proof. intros Hn. split_and!; [by split; [|intros []]|split; [done|by exists text]|done]. Qed.

Lemma verdict_sums e (whole sums : Prop) max : whole -> ~ sums -> (forall text, e <> TraceError text) -> verdict (Raise e) whole sums max.
Proof. intros Hw Hn He. split_and!; [by split; [|intros []]|split; [|done]; by intros [text [= ?%He]]|done]. Qed.

Lemma verdict_through s (whole sums : Prop) : whole -> sums -> verdict (Ok (Some s)) whole sums (rs_max_active s).
Proof. intros Hw Hs. split_and!; [done|by split; [intros [? ?]|]|by intros r [= <-]; exists s]. Qed.

Lemma replay_rows_exact pow actual jobs rows :
  omapM read_row jobs = Ok rows -> forallb finite_row rows = true -> forallb plain_spend rows = true ->
  verdict (replay_rows pow actual jobs rows) (NoDup (map rw_key rows))
    (Forall has_user jobs /\ fair_defined pow (map snd (useful_hours rows))) (peak rows).
Proof.
  intros Hrows Hfin Hplain. assert (Htime : Forall timely rows).
  { apply Forall_forall. intros r Hr. apply (omapM_elem _ _ _ Hrows) in Hr as (job & _ & Hjob). by eapply read_row_timely. }
  unfold replay_rows. rewrite Hfin. cbn [negb].
  assert (Hall : Forall (fun r => finite_row r = true) rows) by (apply Forall_forall; intros r Hr; apply (proj1 (forallb_forall _ _) Hfin), list_elem_of_In, Hr).
  change (py_sort event_lt (concat (map events_of rows))) with (evs rows).
  pose proof (walk_exact rows Hall Htime) as Hwalk. destruct (walk_events no_walk (evs rows)) as [w|e]; cbn [obind].
  2: { destruct Hwalk as [Hn [text ->]]. by apply verdict_refused. }
  destruct Hwalk as [Hnd <-]. clear Hrows.
  pose proof (users_exact jobs) as Husers. destruct (omapM _ jobs) as [users|e]; cbn [obind].
  2: { destruct Husers as [Hn He]. apply verdict_sums; [done|by intros []|done]. }
  pose proof (jain_exact pow (map snd (useful_hours rows))) as Hjain. destruct (jain _ _) as [fairness|e]; cbn [obind].
  2: { destruct Hjain as [Hn He]. apply verdict_sums; [done|by intros []|done]. }
  rewrite plain_spends by done. by apply verdict_through.
Qed.

(** C31: a replay of a trace whose jobs can be read accepts it exactly when the digest
    in it is the digest of the rest, no key is there twice, every job names its
    member and the fairness of the members' hours can be calculated; it complains
    about the trace exactly when the digest is another or a key is there twice; and
    what it calls the greatest number of active jobs is the greatest number that ran
    at one start: of those that had started by then and had not finished before.
    The offsets and the amounts of the jobs are numbers, not NaN or Infinity. *)
Theorem replay_exact sha256 pow kvs jobs rows :
  dict_get "schema" kvs = Some (JStr SCHEMA) -> dict_get "jobs" kvs = Some (JList jobs) ->
  omapM read_row jobs = Ok rows -> forallb finite_row rows = true -> forallb plain_spend rows = true ->
  let fits := dict_get "content_sha256" kvs = Some (JStr (digest sha256 kvs)) in
  verdict (replay_bundle sha256 pow (JDict kvs)) (fits /\ NoDup (map rw_key rows))
    (Forall has_user jobs /\ fair_defined pow (map snd (useful_hours rows))) (peak rows).
Proof.
  intros Hschema Hjobs Hrows Hfin Hplain fits. unfold replay_bundle, get_item. rewrite Hschema, Hjobs.
  cbn [default obind id]. change (is_str (JStr SCHEMA) SCHEMA) with true. cbn [negb].
  destruct (is_str _ _) eqn:Hd; cbn [negb].
  - assert (Hfits : fits).
    { unfold fits. destruct (dict_get "content_sha256" kvs) as [[]|]; cbn in Hd; try discriminate. apply String.eqb_eq in Hd. by rewrite Hd. }
    cbn [obind id]. rewrite Hrows. cbn [obind].
    destruct (replay_rows_exact pow (digest sha256 kvs) jobs rows Hrows Hfin Hplain) as (H1 & H2 & H3).
    split_and!; [rewrite H1; tauto|rewrite H2; tauto|exact H3].
  - apply verdict_refused. intros [Hf _]. unfold fits in Hf. rewrite Hf in Hd. cbn in Hd. by rewrite String.eqb_refl in Hd.
Qed.

(** ** Examples *)

Definition demo_job (id user command : string) (at_ : Z) (started finished : option Z) (s : JobState) : Job :=
  mkJob id user command "a10g" f1 USD 100 s at_ at_ None None started finished None None 0 1 0 None None None None None None "seeded".

Definition second : Z := 1000000.

(** Three jobs of two members; the second and the third run side by side. *)
Definition club_jobs (name : string -> string) (mark : string) (t : Z) : gmap string Job :=
  list_to_map (map (fun j => (j_job_id j, j)) [
    demo_job (mark +:+ "1") (name "ann") ("train " +:+ mark) t (Some (t + 5 * second)) (Some (t + 25 * second)) COMPLETED;
    demo_job (mark +:+ "2") (name "bob") ("sweep " +:+ mark) (t + second) (Some (t + 30 * second)) (Some (t + 90 * second)) COMPLETED;
    demo_job (mark +:+ "3") (name "ann") ("eval " +:+ mark) (t + 2 * second) (Some (t + 40 * second)) None RUNNING]).

Definition club_db : DB := {| empty_db with jobs := club_jobs id "j" 1768478400000000 |}.

Definition mask (s : string) : string := "m-" +:+ s.

(** The same club with masked names, other ids and commands, a week later *)
Definition masked_db : DB := {| empty_db with jobs := club_jobs mask "k" (1768478400000000 + 604800 * second) |}.

Lemma trace_blind_witness :
  (forall a b, str_lt (mask a) (mask b) = str_lt a b) /\ export_trace id club_db = export_trace id masked_db /\
  exists b, export_trace id club_db = Ok b.
Proof.
  split; [intros a b; reflexivity|]. split.
  - apply (trace_blind id mask (604800 * second) club_db masked_db); [intros a b; reflexivity|].
    vm_compute. repeat (constructor; [constructor; reflexivity|]). constructor.
  - eexists. vm_compute. reflexivity.
Defined.

Definition club_bundle : dict string json := match export_trace id club_db with Ok (b, _) => b | Raise _ => [] end.
Definition club_text : string := match export_trace id club_db with Ok (_, text) => text | Raise _ => "" end.
Definition club_records : list json := match dict_get "jobs" club_bundle with Some (JList l) => l | _ => [] end.
Definition club_rows : list Row := match omapM read_row club_records with Ok l => l | Raise _ => [] end.
Definition same_power : pow_fun := fun x _ => f_mul x x.

(** What was written is read back and goes through. *)
Example club_replay :
  match replay_trace id same_power club_text with
  | Ok (Some s) => (rs_jobs s, rs_users s, rs_completed s, rs_max_active s, rs_spend s, option_map f_repr (rs_p95_wait_seconds s))
  | _ => (0, 0, 0, 0, [], None)
  end = (3, 2, 2, 2, [("USD", "0")], Some "38.0").
Proof. vm_compute. reflexivity. Qed.

Lemma replay_exact_witness : exists s, replay_bundle id same_power (JDict club_bundle) = Ok (Some s) /\
  rs_max_active s = peak club_rows /\ peak club_rows = 2 /\
  NoDup (map rw_key club_rows) /\ fair_defined same_power (map snd (useful_hours club_rows)).
Proof.
  pose proof (replay_exact id same_power club_bundle club_records club_rows) as H.
  assert (E : exists s, replay_bundle id same_power (JDict club_bundle) = Ok (Some s)) by (eexists; vm_compute; reflexivity).
  destruct E as [s E]. exists s. split; [exact E|]. destruct H as (Hok & _ & Hmax); [vm_compute; reflexivity..|].
  destruct (Hmax _ E) as (s' & [= <-] & Hs). rewrite E in Hok. destruct (proj1 Hok eq_refl) as ((_ & Hnd) & _ & Hfair).
  split_and!; [exact Hs|vm_compute; reflexivity|exact Hnd|exact Hfair].
Defined.

(** A trace that was touched is refused. *)
Example touched : replay_bundle id same_power (JDict (dict_set "jobs" (JList []) club_bundle))
  = Raise (TraceError "trace digest does not match its contents").
Proof. vm_compute. reflexivity. Qed.

(** A completed job that never started stops the replay with an error of its own. *)
Example completed_unstarted :
  match read_row (JDict [("job_key", JStr "job-00001"); ("submitted_offset_seconds", JInt 0); ("finished_offset_seconds", JInt 5);
    ("state", JStr "COMPLETED"); ("user_key", JStr "user-001"); ("currency", JStr "USD"); ("spent", JStr "0")]) with
  | Raise (TypeError _) => true | _ => false end = true.
Proof. vm_compute. reflexivity. Qed.
