(* ===== verification/Adapters.v ===== *)
(** * adapters/*.py: what runs inside a training job

    The listener for the broker's notice, [Checkpointer] of torch_adapter.py and
    [BrokerCallback] of hf_adapter.py.  The state is that of the job's process
    ([Proc]): the files of its checkpoint directory with every image they went
    through (the machine may be taken away at any of them), the listener, and what
    is trained.  torch is a parameter: what its objects and generators are, their
    [state_dict], and the text of a saved payload with the drafts a write of it goes
    through.  [training] is the loop of the documentation; what it keeps outside of the
    checkpointer, such as the order a [DataLoader] draws its batches in, is its
    [loader], which a new process opens again. *)

From Stdlib Require Import Ascii.
From S2P Require Import Prelude PyFloat PyFormat PySort PyDict Errors Money Clock PyJson PyText Digest.
Local Open Scope Z_scope.
Local Open Scope py_scope.

Definition ENV_CHECKPOINT_DIR : string := "GPU_BROKER_CHECKPOINT_DIR".
Definition ENV_RESUME_DIR : string := "GPU_BROKER_RESUME_DIR".
Definition ENV_JOB_ID : string := "GPU_BROKER_JOB_ID".
Definition ENV_DEADLINE : string := "GPU_BROKER_CHECKPOINT_DEADLINE".
Definition SAVED_MARKER : string := "CHECKPOINT_COMPLETE".
Definition STATE_FILE : string := "checkpoint.pt".

(** [target.with_suffix(".partial")] *)
Definition STAGING_FILE : string := "checkpoint.partial".

(** ** The notice *)

(** [_notice] and [_installed] *)
Record Listener := mkListener { ls_requested : bool; ls_at : float; ls_installed : bool }.

Definition no_listener : Listener := mkListener false f0 false.

(** [install]; [allowed] is whether this thread and platform can have a handler. *)
Definition install (allowed : bool) (l : Listener) : Listener :=
  if ls_installed l then l else if allowed then {| l with ls_installed := true |} else l.

(** The signal arrives: the handler runs, or the process dies, which is what this
    signal does to a process without one. *)
Definition deliver (at_ : float) (l : Listener) : option Listener :=
  if ls_installed l then Some (mkListener true at_ true) else None.

(** [preempted()]: what it says, and the listener after *)
Definition preempted (allowed : bool) (l : Listener) : bool * Listener :=
  let l := install allowed l in (ls_requested l, l).

(** [deadline_seconds()] *)
Definition deadline_seconds (environ : string -> option string) (now : float) (l : Listener) : outcome exn float :=
  budget <-? float_of (JStr (default "90" (environ ENV_DEADLINE)));;
  if negb (ls_requested l) then Ok budget else Ok (f_max f0 (f_sub budget (f_sub now (ls_at l)))).

(** [wait_for_preemption(timeout)]: what each turn of the loop sees, the flag and the
    clock; None while it is still waiting. *)
Fixpoint wait_for_preemption (timeout : option float) (started : float) (turns : list (bool * float)) : option bool :=
  match turns with
  | [] => None
  | (requested, now) :: turns =>
      if requested then Some true
      else match timeout with
           | Some t => if f_le t (f_sub now started) then Some false else wait_for_preemption timeout started turns
           | None => wait_for_preemption timeout started turns
           end
  end.

(** [job_id()] *)
Definition env_job_id (environ : string -> option string) : string := default "" (environ ENV_JOB_ID).

(** ** Directories *)

Abbreviation Files := (gmap string string).

(** [checkpoint_dir()]: its path; it is made if it is not there. *)
Definition checkpoint_dir (environ : string -> option string) : string := default "./checkpoints" (environ ENV_CHECKPOINT_DIR).

(** [resume_dir()]: the files, None when there is nothing *)
Definition resume_dir (environ : string -> option string) (disk : string -> option Files) : option Files :=
  match environ ENV_RESUME_DIR with
  | Some (String _ _ as raw) =>
      match disk raw with Some files => if bool_decide (files = ∅) then None else Some files | None => None end
  | _ => None
  end.

(** ** The checkpointer *)

Section Torch.
Context {Obj Sd Rng Any : Type}.

(** What is trained, and the generators *)
Record Core := mkCore {
  co_model : Obj;
  co_optimizer : option Obj;
  co_scheduler : option Obj;
  co_rng : Rng;
  co_cuda : option Rng;
  co_extra : dict string Any
}.

(** The payload of a save *)
Record Payload := mkPayload {
  pl_step : Z;
  pl_epoch : Z;
  pl_model : Sd;
  pl_optimizer : option Sd;
  pl_scheduler : option Sd;
  pl_rng : Rng;
  pl_cuda : option Rng;
  pl_extra : dict string Any
}.

Context (state_dict : Obj -> Sd) (load_state_dict : Obj -> Sd -> outcome exn Obj).
Context (torch_dump : Payload -> string) (torch_load : string -> outcome exn Payload) (drafts : string -> list string).
Context (allowed : bool).

Record Proc := mkProc {
  pc_files : Files;
  pc_seen : list Files;
  pc_listener : Listener;
  pc_core : Core;
  pc_every : Z;
  pc_last_saved_step : Z
}.

(** A change of the directory, seen from outside *)
Definition on_disk (f : Files -> Files) : M Proc exn unit :=
  modify (fun s => {| s with pc_files := f (pc_files s); pc_seen := f (pc_files s) :: pc_seen s |}).

(** A file written from the start *)
Definition write_file (name text : string) : M Proc exn unit :=
  foldM (fun _ t => on_disk <[name := t]>) tt (drafts text);;; on_disk <[name := text]>.

(** [saved(step)] *)
Definition saved (step : Z) : M Proc exn unit := write_file SAVED_MARKER (str_of_Z step).

(** [_clear_saved()] *)
Definition clear_saved : M Proc exn unit :=
  there <- gets (fun s => bool_decide (is_Some (pc_files s !! SAVED_MARKER)));;
  if there then on_disk (delete SAVED_MARKER) else ret tt.

Definition payload_of (c : Core) (step epoch : Z) : Payload :=
  mkPayload step epoch (state_dict (co_model c)) (option_map state_dict (co_optimizer c))
    (option_map state_dict (co_scheduler c)) (co_rng c) (co_cuda c) (co_extra c).

(** [staging.replace(target)] *)
Definition rename (a b : string) (fs : Files) : Files :=
  match fs !! a with Some text => <[b := text]> (delete a fs) | None => fs end.

(** [Checkpointer.save(step, epoch)] *)
Definition save (step epoch : Z) : M Proc exn unit :=
  core <- gets pc_core;;
  write_file STAGING_FILE (torch_dump (payload_of core step epoch));;;
  on_disk (rename STAGING_FILE STATE_FILE);;;
  saved step;;;
  modify (fun s => {| s with pc_last_saved_step := step |}).

(** [Checkpointer.step(step, epoch)] *)
Definition step (n epoch : Z) : M Proc exn bool :=
  asked <- (fun s => let '(asked, l) := preempted allowed (pc_listener s) in ({| s with pc_listener := l |}, Ok asked));;
  if (asked : bool) then save n epoch;;; ret true
  else
    every <- gets pc_every;;
    last <- gets pc_last_saved_step;;
    (if negb (every =? 0) && (0 <? n) && (n mod every =? 0) && negb (n =? last) then
       save n epoch;;; clear_saved
     else ret tt);;;
    ret false.

(** [obj.load_state_dict(payload[...])], when there is an object and a payload for it *)
Definition load_opt (o : option Obj) (d : option Sd) : outcome exn (option Obj) :=
  match o, d with
  | Some o, Some d => o <-? load_state_dict o d;; Ok (Some o)
  | _, _ => Ok o
  end.

Definition set_core (f : Core -> Core) : M Proc exn unit := modify (fun s => {| s with pc_core := f (pc_core s) |}).

(** [Checkpointer.resume()], [files] being those of [resume_dir()] *)
Definition resume (files : option Files) : M Proc exn Z :=
  match option_bind _ _ (lookup STATE_FILE) files with
  | None => ret 0
  | Some text =>
      payload <- lift_outcome (torch_load text);;
      core <- gets pc_core;;
      model <- lift_outcome (load_state_dict (co_model core) (pl_model payload));;
      set_core (fun c => {| c with co_model := model |});;;
      optimizer <- lift_outcome (load_opt (co_optimizer core) (pl_optimizer payload));;
      set_core (fun c => {| c with co_optimizer := optimizer |});;;
      scheduler <- lift_outcome (load_opt (co_scheduler core) (pl_scheduler payload));;
      set_core (fun c => {| c with co_scheduler := scheduler; co_rng := pl_rng payload;
        co_cuda := match pl_cuda payload, co_cuda c with Some r, Some _ => Some r | _, old => old end;
        co_extra := pl_extra payload |});;;
      ret (pl_step payload + 1)
  end.

(** [Checkpointer.epoch] *)
Definition epoch_of (to_int : Any -> outcome exn Z) (c : Core) : outcome exn Z := match dict_get "epoch" (co_extra c) with Some v => to_int v | None => Ok 0 end.

(** ** The loop of the documentation *)

Inductive Ended : Type := Finished | Stopped (step : Z) | Killed (step : Z).

(** One step, which reads and changes the loader too; the loader a process opens before
    its first step, from what it resumed; and the epoch of a step *)
Context {Loader : Type} (train : Z -> Loader -> Core -> Loader * Core) (opened : Z -> Core -> Loader) (epoch_at : Z -> Z).

(** [for step in range(start, total)], the notices arriving while a step trains *)
Fixpoint training_loop (notices : Z -> option float) (n : Z) (turns : nat) (loader : Loader) : M Proc exn Ended :=
  match turns with
  | O => ret Finished
  | S turns =>
      core <- gets pc_core;;
      let trained := train n loader core in
      modify (fun s => {| s with pc_core := snd trained |});;;
      l <- gets pc_listener;;
      match (match notices n with Some at_ => deliver at_ l | None => Some l end) with
      | None => ret (Killed n)
      | Some l =>
          modify (fun s => {| s with pc_listener := l |});;;
          stop <- step n (epoch_at n);;
          if stop then ret (Stopped n) else training_loop notices (n + 1) turns (fst trained)
      end
  end.

(** One attempt: a new process on what is in the directories *)
Definition start_process (fresh : Core) (every : Z) (files : Files) : Proc := mkProc files [files] no_listener fresh every (-1).

Definition training (notices : Z -> option float) (total : Z) (resumed : option Files) : M Proc exn Ended :=
  start <- resume resumed;; core <- gets pc_core;; training_loop notices start (Z.to_nat (total - start)) (opened start core).

(** ** [BrokerCallback] *)

Record Control := mkControl { should_save : bool; should_training_stop : bool }.

Record Callback := mkCallback { cb_check_every : Z; cb_triggered : bool }.

(** [BrokerCallback(check_every)] *)
Definition new_callback (check_every : Z) : Callback := mkCallback (Z.max 1 check_every) false.

(** [on_step_end] *)
Definition on_step_end (cb : Callback) (global_step : Z) (l : Listener) (control : Control) : Callback * Listener * Control :=
  if cb_triggered cb || negb (global_step mod cb_check_every cb =? 0) then (cb, l, control)
  else
    let '(asked, l) := preempted allowed l in
    if negb asked then (cb, l, control) else ({| cb with cb_triggered := true |}, l, mkControl true true).

(** [on_save] *)
Definition on_save (cb : Callback) (global_step : Z) : M Proc exn unit :=
  if negb (cb_triggered cb) then ret tt else saved global_step.
End Torch.

Arguments Core : clear implicits.
Arguments Payload : clear implicits.
Arguments Proc : clear implicits.

(** [int(path.name.rsplit("-", 1)[-1] or 0)] *)
Definition step_of_name (name : string) : outcome exn Z :=
  let number := List.last (split_char "-" name) "" in
  if non_empty number then int_of (JStr number) else Ok 0.

(** [BrokerCallback.resume_from()] on the entries of [resume_dir()]: their names, and
    whether each is a directory *)
Definition resume_from (directory : string) (entries : option (list (string * bool))) : outcome exn (option string) :=
  match entries with
  | None => Ok None
  | Some entries =>
      let names := map fst (List.filter (fun e => snd e && starts_with "checkpoint-" (fst e)) entries) in
      keyed <-? omapM (fun n => k <-? step_of_name n;; Ok (k, n)) names;;
      match List.last (map Some (py_sort (on fst Z.ltb) keyed)) None with
      | Some (_, n) => Ok (Some (directory +:+ "/" +:+ n))
      | None => Ok (match entries with [] => None | _ => Some directory end)
      end
  end.

(** * Training survives its machines

    [training_exact]: over any history of attempts, each started on what an earlier
    one left or uploaded and cut off at any write, the attempt that finishes has
    trained exactly what one uninterrupted run would have, if a process that resumes
    can open its loader where the run it goes on was ([order_kept]).  [Toy.shuffled]
    is a loop that cannot, and ends elsewhere. *)

Local Open Scope Z_scope.
Local Open Scope py_scope.

(** The state file of a restored directory, if there is one *)
Abbreviation state_in resumed := (option_bind _ _ (lookup STATE_FILE) resumed).

(** ** What torch promises *)

Section Laws.
Context {Obj Sd Rng Any : Type}.
Context (state_dict : Obj -> Sd) (load_state_dict : Obj -> Sd -> outcome exn Obj).
Context (torch_dump : Payload Sd Rng Any -> string) (torch_load : string -> outcome exn (Payload Sd Rng Any)).

(** A saved payload loads as it was; the state of an object loads into an object of
    the same architecture. *)
Class TorchLaws (alike : Obj -> Obj -> Prop) : Prop := {
  tl_load : forall p, torch_load (torch_dump p) = Ok p;
  tl_state : forall o o', alike o o' -> load_state_dict o (state_dict o') = Ok o'
}.
End Laws.

Section Training.
Context {Obj Sd Rng Any : Type}.
Abbreviation Core := (Core Obj Rng Any).
Abbreviation Proc := (Proc Obj Rng Any).
Context (state_dict : Obj -> Sd) (load_state_dict : Obj -> Sd -> outcome exn Obj).
Context (torch_dump : Payload Sd Rng Any -> string) (torch_load : string -> outcome exn (Payload Sd Rng Any)) (drafts : string -> list string).
Context (alike : Obj -> Obj -> Prop) `{!TorchLaws state_dict load_state_dict torch_dump torch_load alike}.
Context {Loader : Type} (allowed : bool) (train : Z -> Loader -> Core -> Loader * Core) (opened : Z -> Core -> Loader).
Context (epoch_at : Z -> Z) (fresh : Core) (total : nat).

(** The same parts, of the same architecture *)
Record core_alike (a b : Core) : Prop := {
  al_model : alike (co_model a) (co_model b);
  al_optimizer : option_Forall2 alike (co_optimizer a) (co_optimizer b);
  al_scheduler : option_Forall2 alike (co_scheduler a) (co_scheduler b);
  al_cuda : is_Some (co_cuda a) <-> is_Some (co_cuda b)
}.

(** One uninterrupted run, after [n] steps: the loader, and what is trained *)
Fixpoint run_after (n : nat) : Loader * Core :=
  match n with
  | O => (opened 0 fresh, fresh)
  | S n => let '(loader, core) := run_after n in train (Z.of_nat n) loader core
  end.
Definition loader_after (n : nat) : Loader := fst (run_after n).
Definition core_after (n : nat) : Core := snd (run_after n).

Lemma run_after_S n : run_after (S n) = train (Z.of_nat n) (loader_after n) (core_after n).
Proof. unfold loader_after, core_after. cbn [run_after]. by destruct (run_after n). Qed.

(** The loop keeps the order of its data: what a process resumes, its [extra] above all,
    is enough to open the loader as the uninterrupted run had it then. *)
Definition order_kept : Prop := forall n, (n < total)%nat -> opened (Z.of_nat (S n)) (core_after (S n)) = loader_after (S n).

(** A training step changes what the parts hold. *)
Context (Hfresh : core_alike fresh fresh) (Htrain : forall n l c, core_alike fresh c -> core_alike fresh (snd (train n l c))).

Lemma core_after_alike n : core_alike fresh (core_after n).
Proof. induction n as [|n IH]; [done|]. unfold core_after. rewrite run_after_S. by apply Htrain. Qed.

(** The text of the state after step [n] *)
Definition state_text (n : nat) (epoch : Z) : string :=
  torch_dump (payload_of state_dict (core_after (S n)) (Z.of_nat n) epoch).

(** A directory holds nothing to resume from, or the state after a step. *)
Definition good (fs : Files) : Prop :=
  fs !! STATE_FILE = None \/ exists n epoch, (n < total)%nat /\ fs !! STATE_FILE = Some (state_text n epoch).

Lemma good_ext fs fs' : fs !! STATE_FILE = fs' !! STATE_FILE -> good fs -> good fs'.
Proof. unfold good. by intros ->. Qed.

(** ** Writing *)

(** The images added are [P] in their state file. *)
Definition adds (P : option string -> Prop) (s s' : Proc) : Prop :=
  forall im, im ∈ pc_seen s' -> im ∈ pc_seen s \/ P (im !! STATE_FILE).

Lemma write_file_spec name text (s : Proc) : name <> STATE_FILE ->
  exists s', write_file drafts name text s = (s', Ok tt) /\ pc_files s' = <[name := text]> (pc_files s) /\
    pc_core s' = pc_core s /\ pc_every s' = pc_every s /\ pc_listener s' = pc_listener s /\
    pc_last_saved_step s' = pc_last_saved_step s /\ adds (eq (pc_files s !! STATE_FILE)) s s'.
Proof.
  intros Hne. unfold write_file, bind. revert s. induction (drafts text) as [|t ts IH]; intros s; cbn.
  - eexists. split; [reflexivity|]. cbn. split_and!; try done.
    intros im [->|Him]%elem_of_cons; [right; by rewrite lookup_insert_ne|by left].
  - destruct (IH {| s with pc_files := <[name := t]> (pc_files s); pc_seen := <[name := t]> (pc_files s) :: pc_seen s |})
      as (s' & Hrun & Hf & Hc & He & Hl & Hs & Hadd).
    exists s'. split; [exact Hrun|]. rewrite Hf, Hc, He, Hl, Hs. cbn. split_and!; try done; [apply insert_insert_eq|].
    intros im Him. destruct (Hadd im Him) as [[->|Hin]%elem_of_cons|Heq]; [right|by left|right; rewrite <- Heq]; cbn; by rewrite lookup_insert_ne.
Qed.

Lemma save_spec n epoch (s : Proc) :
  let text := torch_dump (payload_of state_dict (pc_core s) n epoch) in
  exists s', save state_dict torch_dump drafts n epoch s = (s', Ok tt) /\
    pc_files s' !! STATE_FILE = Some text /\ pc_files s' !! SAVED_MARKER = Some (str_of_Z n) /\
    pc_core s' = pc_core s /\ pc_every s' = pc_every s /\ pc_listener s' = pc_listener s /\
    adds (fun o => o = pc_files s !! STATE_FILE \/ o = Some text) s s'.
Proof.
  cbn. destruct (write_file_spec STAGING_FILE (torch_dump (payload_of state_dict (pc_core s) n epoch)) s) as (s1 & H1 & F1 & C1 & E1 & L1 & _ & A1); [done|].
  set (s2 := {| s1 with pc_files := rename STAGING_FILE STATE_FILE (pc_files s1);
                        pc_seen := rename STAGING_FILE STATE_FILE (pc_files s1) :: pc_seen s1 |}).
  destruct (write_file_spec SAVED_MARKER (str_of_Z n) s2) as (s3 & H3 & F3 & C3 & E3 & L3 & _ & A3); [done|].
  assert (Hstate : pc_files s2 !! STATE_FILE = Some (torch_dump (payload_of state_dict (pc_core s) n epoch))).
  { subst s2. cbn. unfold rename. rewrite F1, lookup_insert_eq. by rewrite lookup_insert_eq. }
  exists {| s3 with pc_last_saved_step := n |}. split.
  { unfold save, bind, gets. rewrite H1. unfold on_disk, modify. cbv beta iota. fold s2. unfold saved. by rewrite H3. }
  cbn. rewrite F3, C3, E3, L3. split_and!; try done.
  - by rewrite lookup_insert_ne.
  - by rewrite lookup_insert_eq.
  - intros im Him. destruct (A3 im Him) as [[->|Hin]%elem_of_cons|Heq].
    + right; right. exact Hstate.
    + destruct (A1 im Hin) as [|Heq]; [by left|right; by left].
    + right; right. by rewrite <- Heq.
Qed.

Lemma clear_saved_spec (s : Proc) : exists s', clear_saved s = (s', Ok tt) /\
  pc_files s' !! STATE_FILE = pc_files s !! STATE_FILE /\ pc_files s' !! SAVED_MARKER = None /\
  pc_core s' = pc_core s /\ pc_every s' = pc_every s /\ pc_listener s' = pc_listener s /\ adds (eq (pc_files s !! STATE_FILE)) s s'.
Proof.
  unfold clear_saved, bind, gets. destruct (pc_files s !! SAVED_MARKER) as [t|] eqn:Hm.
  - rewrite bool_decide_eq_true_2 by done. eexists. split; [reflexivity|]. cbn.
    assert (Hd : delete SAVED_MARKER (pc_files s) !! STATE_FILE = pc_files s !! STATE_FILE) by by rewrite lookup_delete_ne.
    split_and!; try done; [by rewrite lookup_delete_eq|].
    intros im [->|Him]%elem_of_cons; [right; by rewrite Hd|by left].
  - rewrite bool_decide_eq_false_2 by (intros [? ?]; done). eexists. split; [reflexivity|]. split_and!; try done.
    intros im Him. by left.
Qed.

(** ** One attempt *)

(** What holds whenever the loop is about to train step [n] *)
Record sane (n : nat) (s : Proc) : Prop := {
  sn_core : pc_core s = core_after n;
  sn_files : good (pc_files s);
  sn_seen : Forall good (pc_seen s)
}.

Lemma good_adds (P : option string -> Prop) s s' : Forall good (pc_seen s) -> adds P s s' ->
  (forall fs : Files, P (fs !! STATE_FILE) -> good fs) -> Forall good (pc_seen s').
Proof. rewrite !Forall_forall. intros Hs Ha HP im Him. destruct (Ha im Him); auto. Qed.

Abbreviation run_step := (step state_dict torch_dump drafts allowed).

(** After the step [n] was trained: the loop goes on, or it stops with the state of
    that step saved and marked. *)
Lemma step_spec n (s : Proc) : (n < total)%nat ->
  pc_core s = core_after (S n) -> good (pc_files s) -> Forall good (pc_seen s) ->
  exists s' asked, run_step (Z.of_nat n) (epoch_at (Z.of_nat n)) s = (s', Ok asked) /\ sane (S n) s' /\
    asked = ls_requested (pc_listener s) /\ ls_installed (pc_listener s') = ls_installed (pc_listener s) || allowed /\
    ls_requested (pc_listener s') = asked /\
    (asked = true -> pc_files s' !! STATE_FILE = Some (state_text n (epoch_at (Z.of_nat n))) /\
                     pc_files s' !! SAVED_MARKER = Some (str_of_Z (Z.of_nat n))).
Proof.
  intros Hn Hc Hf Hs. set (l := install allowed (pc_listener s)). set (s0 := {| s with pc_listener := l |}).
  assert (Hreq : ls_requested l = ls_requested (pc_listener s)) by (unfold l, install; by destruct (ls_installed _), allowed).
  assert (Hins : ls_installed l = ls_installed (pc_listener s) || allowed).
  { unfold l, install. by destruct (ls_installed (pc_listener s)) eqn:E, allowed; cbn; rewrite ?E. }
  destruct (save_spec (Z.of_nat n) (epoch_at (Z.of_nat n)) s0) as (s1 & H1 & T1 & M1 & C1 & E1 & L1 & A1).
  assert (Hold : forall fs : Files, pc_files s !! STATE_FILE = fs !! STATE_FILE -> good fs) by (intros fs Hfs; by apply (good_ext (pc_files s))).
  assert (Hnew : forall fs : Files, fs !! STATE_FILE = Some (torch_dump (payload_of state_dict (pc_core s0) (Z.of_nat n) (epoch_at (Z.of_nat n)))) -> good fs).
  { intros fs Hfs. right. exists n, (epoch_at (Z.of_nat n)). split; [done|]. rewrite Hfs. cbn [s0 pc_core]. by rewrite Hc. }
  assert (G1 : Forall good (pc_seen s1)).
  { apply (good_adds _ s0 s1 Hs A1). intros fs [Hfs|Hfs]; [by apply Hold|by apply Hnew]. }
  unfold step. unfold bind at 1. cbv beta. unfold preempted. fold l. cbn [fst snd]. rewrite Hreq.
  destruct (ls_requested (pc_listener s)) eqn:Hask.
  - unfold bind at 1. fold s0. rewrite H1. exists s1, true. split; [reflexivity|].
    split_and!; [|done|by rewrite L1|by rewrite L1|].
    + split; [by rewrite C1|by apply Hnew|done].
    + intros _. split; [|done]. rewrite T1. cbn [s0 pc_core]. by rewrite Hc.
  - unfold bind at 1 2, gets. cbv beta iota. fold s0. destruct (_ && _ && _ && _).
    + destruct (clear_saved_spec s1) as (s2 & H2 & F2 & _ & C2 & E2 & L2 & A2).
      unfold bind. rewrite H1. rewrite H2. exists s2, false. split; [reflexivity|].
      split_and!; [|done|by rewrite L2, L1|by rewrite L2, L1|done].
      split; [by rewrite C2, C1| |].
      * apply (good_ext (pc_files s1)); [done|]. by apply Hnew.
      * apply (good_adds _ s1 s2 G1 A2). intros fs Hfs. apply (good_ext (pc_files s1)); [done|]. by apply Hnew.
    + exists s0, false. split; [reflexivity|]. by split_and!.
Qed.

Context (Hkept : order_kept).

Abbreviation run_loop := (training_loop state_dict torch_dump drafts allowed train epoch_at).

(** How an attempt ends: trained to the end; or stopped on a notice with the state of
    its last step saved and marked; or killed by a notice that came before the
    listener was installed. *)
Definition ended_well (n : nat) (s : Proc) (r : Proc * outcome exn Ended) : Prop :=
  Forall good (pc_seen (fst r)) /\
  match snd r with
  | Ok Finished => pc_core (fst r) = core_after total
  | Ok (Stopped k) => exists m, k = Z.of_nat m /\ (n <= m < total)%nat /\
      pc_files (fst r) !! STATE_FILE = Some (state_text m (epoch_at k)) /\ pc_files (fst r) !! SAVED_MARKER = Some (str_of_Z k)
  | Ok (Killed k) => ls_installed (pc_listener s) = false /\ (k = Z.of_nat n \/ allowed = false)
  | Raise _ => False
  end.

Lemma loop_spec notices turns n (s : Proc) : sane n s -> (n + turns)%nat = total ->
  ended_well n s (run_loop notices (Z.of_nat n) turns (loader_after n) s).
Proof.
  revert n s. induction turns as [|turns IH]; intros n s [Hc Hf Hs] Ht; cbn [training_loop].
  - split; [done|]. cbn. rewrite Hc. f_equal. lia.
  - unfold bind at 1 2 3, modify at 1, gets at 1 2. cbv beta iota zeta. rewrite Hc, <- run_after_S. fold (core_after (S n)) (loader_after (S n)).
    set (s1 := {| s with pc_core := core_after (S n) |}). assert (Hc1 : pc_core s1 = core_after (S n)) by done.
    destruct (match notices (Z.of_nat n) with Some at_ => deliver at_ (pc_listener s1) | None => Some (pc_listener s1) end) as [l|] eqn:Hl.
    2: { split; [done|]. cbn. destruct (notices (Z.of_nat n)) as [at_|]; [|done]. unfold deliver in Hl. cbn in Hl.
         destruct (ls_installed (pc_listener s)); [done|]. by split; [|left]. }
    unfold bind at 1 2, modify at 1. cbv beta iota. set (s2 := {| s1 with pc_listener := l |}).
    assert (Hinst : ls_installed l = ls_installed (pc_listener s)).
    { destruct (notices (Z.of_nat n)); cbn in Hl; [|by injection Hl as <-]. unfold deliver in Hl.
      destruct (ls_installed (pc_listener s)); [|done]. by injection Hl as <-. }
    destruct (step_spec n s2) as (s3 & asked & H3 & Hsane & Hask & Hins & Hreq & Hsaved); [lia|done..|].
    rewrite H3. destruct asked.
    + destruct (Hsaved eq_refl) as [Hst Hmk]. split; [apply Hsane|]. cbn. exists n. split_and!; [done|lia|lia|done|done].
    + replace (Z.of_nat n + 1) with (Z.of_nat (S n)) by lia.
      specialize (IH (S n) s3 Hsane ltac:(lia)). unfold ended_well in IH |- *.
      destruct (run_loop notices (Z.of_nat (S n)) turns (loader_after (S n)) s3) as [s4 [[|k|k]|e]]; cbn [fst snd] in *; [exact IH| | |exact IH].
      * destruct IH as [Hg (m & -> & Hm & Hst & Hmk)]. split; [done|]. exists m. split_and!; [done|lia|lia|done|done].
      * destruct IH as [Hg [Hno _]]. split; [done|]. cbn in Hins. rewrite Hno, Hinst in Hins.
        symmetry in Hins. apply orb_false_iff in Hins as [? ?]. by split; [|right].
Qed.

Lemma state_back o o' : alike o o' -> load_state_dict o (state_dict o') = Ok o'.
Proof. apply TorchLaws0. Qed.

Lemma load_back p : torch_load (torch_dump p) = Ok p.
Proof. apply TorchLaws0. Qed.

(** Loading what was saved gives the state back. *)
Lemma load_opt_alike a b : option_Forall2 alike a b -> load_opt load_state_dict a (option_map state_dict b) = Ok b.
Proof. intros [x y Hxy|]; [|done]. cbn. by rewrite (state_back x y Hxy). Qed.

Lemma resume_spec (s : Proc) (resumed : option Files) : pc_core s = fresh ->
  match option_bind _ _ (lookup STATE_FILE) resumed with
  | None => resume load_state_dict torch_load resumed s = (s, Ok 0)
  | Some text => forall n epoch, text = state_text n epoch ->
      resume load_state_dict torch_load resumed s = ({| s with pc_core := core_after (S n) |}, Ok (Z.of_nat n + 1))
  end.
Proof.
  intros Hc. unfold resume. destruct (option_bind _ _ _ resumed) as [text|]; [|done]. intros n epoch ->.
  pose proof (core_after_alike (S n)) as [Hm Ho Hsc Hcu].
  unfold bind, lift_outcome, gets, set_core, modify, ret. unfold state_text. rewrite load_back. cbn [payload_of pl_model pl_optimizer pl_scheduler pl_rng pl_cuda pl_extra pl_step].
  rewrite Hc. rewrite (state_back _ _ Hm). rewrite (load_opt_alike _ _ Ho), (load_opt_alike _ _ Hsc). cbn [pc_core pc_files pc_seen pc_listener pc_every pc_last_saved_step co_model co_optimizer co_scheduler co_rng co_cuda co_extra].
  f_equal. f_equal. rewrite ?Hc. destruct (core_after (S n)) as [m o sc r cu x]. cbn in *. f_equal.
  destruct cu as [c|], (co_cuda fresh) as [c'|]; try done.
  - destruct (proj2 Hcu) as [? [=]]. by exists c.
  - destruct (proj1 Hcu) as [? [=]]. by exists c'.
Qed.

(** ** Histories *)


(** One attempt, from what is in the checkpoint directory and what was restored *)
Definition attempt (notices : Z -> option float) (every : Z) (files : Files) (resumed : option Files) : Proc * outcome exn Ended :=
  training state_dict load_state_dict torch_dump torch_load drafts allowed train opened epoch_at notices (Z.of_nat total) resumed
    (start_process fresh every files).

(** The images a checkpoint directory can have.  An attempt starts in a new or an old
    directory, and resumes from whatever state file some earlier image had: of the
    same directory, or of an upload, which may have taken its other files at other
    moments; and it can be cut off at any image. *)
Inductive possible : Files -> Prop :=
| possible_none : possible ∅
| possible_image files old resumed notices every fs :
    possible files -> possible old -> state_in resumed = old !! STATE_FILE ->
    fs ∈ pc_seen (fst (attempt notices every files resumed)) -> possible fs.

Lemma attempt_ends notices every files old resumed : good files -> good old -> state_in resumed = old !! STATE_FILE ->
  exists n s, resume load_state_dict torch_load resumed (start_process fresh every files) = (s, Ok (Z.of_nat n)) /\
    ls_installed (pc_listener s) = false /\ ended_well n s (attempt notices every files resumed).
Proof.
  intros Hf Ho Hst. pose proof (resume_spec (start_process fresh every files) resumed eq_refl) as Hres. rewrite Hst in Hres.
  unfold attempt, training, bind. destruct Ho as [Ho|(n & epoch & Hn & Ho)]; rewrite Ho in Hres.
  - rewrite Hres. exists 0%nat, (start_process fresh every files). split_and!; [done|done|].
    unfold gets. cbn [start_process pc_core]. change (opened 0 fresh) with (loader_after 0).
    replace (Z.to_nat (Z.of_nat total - 0)) with total by lia. apply loop_spec; [|lia].
    split; [done|done|]. by constructor.
  - rewrite (Hres n epoch eq_refl). replace (Z.of_nat n + 1) with (Z.of_nat (S n)) by lia. exists (S n). eexists.
    split; [reflexivity|]. split; [done|]. unfold gets. cbn [pc_core]. rewrite Hkept by done. replace (Z.to_nat (Z.of_nat total - Z.of_nat (S n))) with (total - S n)%nat by lia.
    apply loop_spec; [|lia]. split; [done|done|by constructor].
Qed.

Lemma possible_good fs : possible fs -> good fs.
Proof.
  induction 1 as [|files old resumed notices every fs _ Hf _ Ho Hst Hin]; [by left; rewrite lookup_empty|].
  destruct (attempt_ends notices every files old resumed Hf Ho Hst) as (n & s & _ & _ & Hg & _).
  rewrite Forall_forall in Hg. by apply Hg.
Qed.
End Training.

(** C34: whatever the history of a job is -- attempts cut off at any write of any file,
    each going on in an old or a new directory from the state of any earlier image --
    the attempt that reaches the end has trained exactly what one uninterrupted run
    would have trained, no attempt fails for what it finds, and one that stops on a
    notice leaves the mark and the state of its last step, from which the next
    starts at the step after it.  Only a notice that comes before the listener is
    installed ends a process without that.  This is so for a loop that keeps the order
    of its data ([order_kept]), one whose steps depend on no more than their number,
    what the checkpointer holds, and a loader that a process opens from that as the
    run it resumes had it.  It is not for a loader that draws its order anew
    ([Toy.shuffled]). *)
Theorem training_exact {Obj Sd Rng Any Loader : Type} state_dict load_state_dict torch_dump torch_load drafts alike
    `{!TorchLaws (Obj := Obj) (Sd := Sd) (Rng := Rng) (Any := Any) state_dict load_state_dict torch_dump torch_load alike}
    allowed (train : Z -> Loader -> Core Obj Rng Any -> Loader * Core Obj Rng Any) opened epoch_at fresh total :
  core_alike alike fresh fresh -> (forall n l c, core_alike alike fresh c -> core_alike alike fresh (snd (train n l c))) ->
  order_kept train opened fresh total ->
  forall files old resumed notices every,
  let run := attempt state_dict load_state_dict torch_dump torch_load drafts allowed train opened epoch_at fresh total in
  let reachable := possible state_dict load_state_dict torch_dump torch_load drafts allowed train opened epoch_at fresh total in
  reachable files -> reachable old -> state_in resumed = old !! STATE_FILE ->
  match run notices every files resumed with
  | (s, Ok Finished) => pc_core s = core_after train opened fresh total
  | (s, Ok (Stopped k)) =>
      exists m, k = Z.of_nat m /\ (m < total)%nat /\ pc_files s !! SAVED_MARKER = Some (str_of_Z k) /\
      forall resumed' files' every', state_in resumed' = pc_files s !! STATE_FILE ->
        resume load_state_dict torch_load resumed' (start_process fresh every' files')
        = (start_process (core_after train opened fresh (S m)) every' files', Ok (k + 1))
  | (_, Ok (Killed k)) => allowed = false \/ exists s, resume load_state_dict torch_load resumed (start_process fresh every files) = (s, Ok k)
  | (_, Raise _) => False
  end.
Proof.
  intros Hfresh Htrain Hkept files old resumed notices every run reachable Hf Ho Hst.
  apply (possible_good _ _ _ _ _ alike) in Hf, Ho; [|done..].
  destruct (attempt_ends state_dict load_state_dict torch_dump torch_load drafts alike allowed train opened epoch_at fresh total
    Hfresh Htrain Hkept notices every files old resumed Hf Ho Hst) as (n & s0 & Hstart & Hno & Hg & Hend). fold run in Hg, Hend.
  destruct (run notices every files resumed) as [s [[|k|k]|e]]; cbn [fst snd] in *; [done| | |done].
  - destruct Hend as (m & -> & Hm & Hstate & Hmark). exists m. split_and!; [done|lia|done|].
    intros resumed' files' every' Hr. rewrite Hstate in Hr.
    pose proof (resume_spec state_dict load_state_dict torch_dump torch_load alike train opened fresh Hfresh Htrain
      (start_process fresh every' files') resumed' eq_refl) as Hres. rewrite Hr in Hres. by rewrite (Hres m _ eq_refl).
  - destruct Hend as [Hl [->|Ha]]; [right; by exists s0|by left].
Qed.

(** ** A toy torch *)

(** A model of one number, trained by a recurrence with a generator that counts. *)
Module Toy.

Fixpoint pos_text (p : positive) : string :=
  match p with xH => "" | xO p => String "0" (pos_text p) | xI p => String "1" (pos_text p) end.
Fixpoint text_pos (s : string) : positive :=
  match s with
  | EmptyString => xH
  | String c s => if Ascii.eqb c "0" then xO (text_pos s) else xI (text_pos s)
  end.

Lemma pos_text_back p : text_pos (pos_text p) = p.
Proof. induction p as [p IH|p IH|]; cbn; [by rewrite IH|by rewrite IH|done]. Qed.

Abbreviation ToyPayload := (Payload Z Z Z).
Abbreviation ToyCore := (Core Z Z Z).

Definition tuple_of_payload (p : ToyPayload) :=
  (pl_step p, pl_epoch p, pl_model p, pl_optimizer p, pl_scheduler p, pl_rng p, pl_cuda p, pl_extra p).
Definition payload_of_tuple (t : Z * Z * Z * option Z * option Z * Z * option Z * list (string * Z)) : ToyPayload :=
  let '(s, e, m, o, sc, r, c, x) := t in mkPayload s e m o sc r c x.

Definition dump (p : ToyPayload) : string := pos_text (encode (tuple_of_payload p)).
Definition load (s : string) : outcome exn ToyPayload :=
  match decode (text_pos s) with Some t => Ok (payload_of_tuple t) | None => Raise (ValueError "unreadable") end.

Definition load_state (o d : Z) : outcome exn Z := Ok d.

#[local] Instance toy_laws : TorchLaws id load_state dump load (fun _ _ => True).
Proof.
  split; [|done]. intros p. unfold load, dump. rewrite pos_text_back, decode_encode. by destruct p.
Qed.

(** The loader is the order drawn from the generator when it was opened; the steps
    read it and go on using the generator. *)
Definition train (n order : Z) (c : ToyCore) : Z * ToyCore :=
  (order, {| c with co_model := 3 * co_model c + (n + 1) * (order + 1) + co_rng c; co_rng := co_rng c + 1 |}).
Definition opened (n : Z) (c : ToyCore) : Z := co_rng c.

(** The same loop with the order in [extra]; both halves of tests/test_recovery.py *)
Definition train_keeping (n order : Z) (c : ToyCore) : Z * ToyCore :=
  let '(order, c) := train n order c in (order, {| c with co_extra := [("loader_state", order)] |}).
Definition opened_kept (n : Z) (c : ToyCore) : Z := default (opened n c) (dict_get "loader_state" (co_extra c)).

Definition fresh : ToyCore := mkCore 1 (Some 7) None 0 None [].

(** An attempt at five steps with a save every two; a write goes through an empty file. *)
Definition run_loop train opened (notices : Z -> option float) (files : Files) (resumed : option Files) :=
  attempt (Loader := Z) id load_state dump load (fun _ => [""]) true train opened (fun n => n + 10) fresh 5 notices 2 files resumed.
Definition run := run_loop train_keeping opened_kept.

(** A notice during the step [k] *)
Definition at_step (k n : Z) : option float := if n =? k then Some f0 else None.

Definition left_behind : Files := pc_files (fst (run (at_step 3) ∅ None)).

Lemma left_behind_possible :
  possible id load_state dump load (fun _ => [""]) true train_keeping opened_kept (fun n => n + 10) fresh 5 left_behind.
Proof.
  apply (possible_image _ _ _ _ _ _ _ _ _ _ _ ∅ ∅ None (at_step 3) 2); [constructor|constructor|by rewrite lookup_empty|].
  apply (bool_decide_unpack _). vm_compute. reflexivity.
Qed.

Lemma same_state (fs : Files) : state_in (Some fs) = fs !! STATE_FILE.
Proof. reflexivity. Qed.

Lemma keeping_order : order_kept train_keeping opened_kept fresh 5.
Proof. intros n Hn. do 5 (destruct n as [|n]; [reflexivity|]). lia. Qed.

Lemma training_exact_witness :
  order_kept train_keeping opened_kept fresh 5 /\
  snd (run (at_step 3) ∅ None) = Ok (Stopped 3) /\ snd (run (at_step 9) ∅ (Some left_behind)) = Ok Finished /\
  pc_core (fst (run (at_step 9) ∅ (Some left_behind))) = core_after train_keeping opened_kept fresh 5 /\
  co_model (core_after train_keeping opened_kept fresh 5) = 480.
Proof.
  split; [exact keeping_order|]. split; [vm_compute; reflexivity|].
  assert (E : snd (run (at_step 9) ∅ (Some left_behind)) = Ok Finished) by (vm_compute; reflexivity).
  split; [exact E|]. split; [|vm_compute; reflexivity].
  pose proof (training_exact id load_state dump load (fun _ => [""]) (fun _ _ => True) true train_keeping opened_kept (fun n => n + 10) fresh 5
    ltac:(repeat constructor; intros [? [=]]) ltac:(intros n l c [? ? ? ?]; by split) keeping_order
    ∅ left_behind (Some left_behind) (at_step 9) 2 (possible_none _ _ _ _ _ _ _ _ _ _ _) left_behind_possible (same_state left_behind)) as H.
  revert E H. unfold run, run_loop. generalize left_behind. intros lb.
  generalize (attempt id load_state dump load (fun _ => [""]) true train_keeping opened_kept (fun n => n + 10) fresh 5 (at_step 9) 2 ∅ (Some lb)).
  intros [s r]. cbn [fst snd]. intros ->. exact (fun H => H).
Defined.

(** Without the order in [extra], the generator that was restored draws another one:
    the run that resumes finishes, and ends elsewhere than the uninterrupted run. *)
Example shuffled :
  let first := run_loop train opened (at_step 3) ∅ None in
  let second := run_loop train opened (at_step 9) ∅ (Some (pc_files (fst first))) in
  (snd second, co_model (pc_core (fst second)), co_model (core_after train opened fresh 5)) = (Ok Finished, 500, 480).
Proof. vm_compute. reflexivity. Qed.

(** A periodic save leaves the mark of a finished checkpoint in the directory for a
    moment, although nobody asked the job to stop. *)
Example periodic_mark : existsb (fun fs => bool_decide (fs !! SAVED_MARKER = Some "2")) (pc_seen (fst (run (at_step 9) ∅ None))) = true.
Proof. vm_compute. reflexivity. Qed.

(** A notice before the first poll kills the process, whatever it had resumed. *)
Example early_notice : snd (run (at_step 4) ∅ (Some left_behind)) = Ok (Killed 4).
Proof. vm_compute. reflexivity. Qed.

(** The epoch is saved with the payload and not given back by it. *)
Example epoch_lost : match load (default "" (left_behind !! STATE_FILE)), resume load_state load (Some left_behind) (start_process fresh 2 ∅) with
  | Ok p, (s, Ok _) => Some (pl_epoch p, epoch_of Ok (pc_core s)) | _, _ => None end = Some (13, Ok 0).
Proof. vm_compute. reflexivity. Qed.
End Toy.

(** The newest by number, not by name; a directory without any is given as it is. *)
Example resume_from_newest :
  (resume_from "r" (Some [("checkpoint-9", true); ("checkpoint-100", true); ("checkpoint-20", false); ("log", false)]),
   resume_from "r" (Some [("state.pt", false)]), resume_from "r" None)
  = (Ok (Some "r/checkpoint-100"), Ok (Some "r"), Ok None).
Proof. vm_compute. reflexivity. Qed.
