(* ===== verification/Migrations.v ===== *)
(** * db/migrations.py: the schema, one file at a time

    The files of the directory are names with texts.  What a script does to the rest
    of the database is a parameter ([execute]): the texts are SQL, run by SQLite.  A
    script and its version are one transaction, so the committed images are what a
    crash can leave ([md_seen], newest first).  [migrations_hold]: however many
    processes migrate at once, every image has the versions 1 to some [k] and exactly
    the changes of the first [k] scripts. *)

From Stdlib Require Import Ascii.
From S2P Require Import Prelude PyFormat PySort PyDict Errors Clock PyJson PyText.
Local Open Scope Z_scope.
Local Open Scope py_scope.

(** ** The files *)

Record Migration := mkMigration { mg_version : Z; mg_name : string; mg_text : string }.

(** [[a-z0-9_]] *)
Definition is_name_char (c : ascii) : bool :=
  let n := nat_of_ascii c in
  ((97 <=? n)%nat && (n <=? 122)%nat) || ((48 <=? n)%nat && (n <=? 57)%nat) || (n =? 95)%nat.

(** [s.endswith(suffix)], as what comes before it *)
Definition before_suffix (suffix s : string) : option string :=
  let n := (String.length s - String.length suffix)%nat in
  if String.eqb (String.substring n (String.length suffix) s) suffix && (String.length suffix <=? String.length s)%nat
  then Some (str_take n s) else None.

(** [_FILENAME.match(name)] *)
Definition parse_name (name : string) : option (Z * string) :=
  match name with
  | String a (String b (String c (String u rest))) =>
      if is_digit_char a && is_digit_char b && is_digit_char c && Ascii.eqb u "_" then
        stem ← before_suffix ".sql" rest;
        version ← int_text (String a (String b (String c "")));
        if non_empty stem && str_forall is_name_char stem then Some (version, stem) else None
      else None
  | _ => None
  end.

(** [repr(versions)] *)
Definition repr_ints (l : list Z) : string := "[" +:+ str_join ", " (map str_of_Z l) +:+ "]".

(** [list(range(1, n + 1))] *)
Definition one_to (n : nat) : list Z := map Z.of_nat (seq 1 n).

(** [discover()] on the files of the directory *)
Definition discover (files : list (string * string)) : outcome exn (list Migration) :=
  let scripts := List.filter (fun f => bool_decide (is_Some (before_suffix ".sql" (fst f)))) files in
  found <-? omapM (fun f => match parse_name (fst f) with
                           | Some (v, name) => Ok (mkMigration v name (snd f))
                           | None => Raise (MigrationError (fst f +:+ " does not look like a migration. Expected NNN_lower_snake_case.sql"))
                           end) (py_sort (on fst str_lt) scripts);;
  let versions := map mg_version found in
  if negb (bool_decide (NoDup versions)) then Raise (MigrationError ("duplicate migration numbers: " +:+ repr_ints versions))
  else if negb (bool_decide (versions = one_to (length versions))) then
    Raise (MigrationError ("migration numbers must be 1..N with no gaps, got " +:+ repr_ints versions))
  else Ok found.

(** ** The database *)

Section Migrate.
Context {Schema : Type} (execute : string -> Schema -> outcome exn Schema).

(** A committed image: what the scripts made, and the rows of [schema_migrations] *)
Record Image := mkImage { im_schema : Schema; im_rows : list (Z * string * string) }.

Record Db := mkDb { md_image : Image; md_seen : list Image }.

Definition im_versions (im : Image) : list Z := map (fun r => fst (fst r)) (im_rows im).

(** [current_version(conn)]: [MAX(version)], or 0 *)
Definition current_version (im : Image) : Z := foldr Z.max 0 (im_versions im).

(** [conn.executescript(script)]: the text and the row of the version, or nothing; a
    version that is there already breaks the primary key. *)
Definition run_script (now : string) (m : Migration) : M Db exn unit := fun db =>
  let im := md_image db in
  match execute (mg_text m) (im_schema im) with
  | Raise e => (db, Raise e)
  | Ok schema =>
      if bool_decide (mg_version m ∈ im_versions im) then
        (db, Raise (IntegrityError "UNIQUE constraint failed: schema_migrations.version"))
      else
        let im := mkImage schema (im_rows im ++ [(mg_version m, mg_name m, now)]) in
        (mkDb im (im :: md_seen db), Ok tt)
  end.

Fixpoint run_scripts (clock : Z -> string) (ms : list Migration) : M Db exn (list Z) :=
  match ms with
  | [] => ret []
  | m :: ms => run_script (clock (mg_version m)) m;;; applied <- run_scripts clock ms;; ret (mg_version m :: applied)
  end.

(** The scripts a process has still to run, by the version it read *)
Definition pending (have : Z) (found : list Migration) : list Migration :=
  List.filter (fun m => negb (mg_version m <=? have)) found.

(** [migrate(conn)]; [files] is the directory of this build *)
Definition migrate (files : list (string * string)) (clock : Z -> string) : M Db exn (list Z) :=
  found <- lift_outcome (discover files);;
  have <- gets (fun db => current_version (md_image db));;
  let latest := Z.of_nat (length found) in
  if latest <? have then
    raise (MigrationError ("database is at schema version " +:+ str_of_Z have +:+ ", but this build only knows about "
      +:+ str_of_Z latest +:+ ". You are running an old broker against a new database."))
  else run_scripts clock (pending have found).
End Migrate.

Arguments Image : clear implicits.
Arguments Db : clear implicits.

(** * What is in the database while processes migrate it

    The relation [turn] interleaves any number of processes, of builds that know
    fewer or more of the same scripts; every script is one turn. *)

Local Open Scope Z_scope.
Local Open Scope py_scope.

(** ** The files that are accepted *)

Lemma discover_versions files found : discover files = Ok found -> map mg_version found = one_to (length found).
Proof.
  unfold discover. intros (ms & _ & H)%obind_ok. destruct (negb (bool_decide (NoDup _))); [discriminate|].
  destruct (bool_decide (map mg_version ms = _)) eqn:E; [|discriminate]. injection H as <-.
  apply bool_decide_eq_true in E. by rewrite E, length_map.
Qed.

Lemma one_to_take n k : (k <= n)%nat -> take k (one_to n) = one_to k.
Proof.
  intros H. unfold one_to. change (take k (Z.of_nat <$> seq 1 n) = Z.of_nat <$> seq 1 k).
  rewrite <- fmap_take, take_seq. do 2 f_equal. lia.
Qed.

Lemma one_to_elem n v : v ∈ one_to n <-> 1 <= v <= Z.of_nat n.
Proof.
  unfold one_to. rewrite list_elem_of_fmap. split.
  - intros (k & -> & Hk%elem_of_seq). lia.
  - intros Hv. exists (Z.to_nat v). split; [lia|]. apply elem_of_seq. lia.
Qed.

Lemma one_to_snoc n : one_to n ++ [Z.of_nat (S n)] = one_to (S n).
Proof. unfold one_to. by rewrite seq_S, map_app. Qed.

Lemma one_to_max n : foldr Z.max 0 (one_to n) = Z.of_nat n.
Proof.
  assert (H : forall l m, foldr Z.max 0 (l ++ [m]) = Z.max (foldr Z.max 0 l) (Z.max m 0)).
  { intros l m. induction l as [|x l IH]; cbn; [lia|]. rewrite IH. lia. }
  induction n as [|n IH]; [done|]. rewrite <- one_to_snoc, H, IH. lia.
Qed.

Section Migrate.
Context {Schema : Type} (execute : string -> Schema -> outcome exn Schema) (clock : Z -> string).

(** All the scripts of the newest build *)
Context (all : list Migration) (Hall : map mg_version all = one_to (length all)).
Context (empty : Schema).

(** What the first scripts make of an empty database *)
Fixpoint run_texts (ms : list Migration) (s : Schema) : outcome exn Schema :=
  match ms with [] => Ok s | m :: ms => s <-? execute (mg_text m) s;; run_texts ms s end.

Lemma run_texts_snoc ms m s : run_texts (ms ++ [m]) s = (s <-? run_texts ms s;; execute (mg_text m) s).
Proof.
  revert s. induction ms as [|m' ms IH]; intros s; cbn.
  - by destruct (execute _ _).
  - destruct (execute (mg_text m') s); cbn; [apply IH|done].
Qed.

(** An image after [k] scripts *)
Definition after (k : nat) (im : Image Schema) : Prop :=
  (k <= length all)%nat /\ im_versions im = one_to k /\ run_texts (take k all) empty = Ok (im_schema im).

(** Several processes: the database, and the scripts each has still to run *)
Definition System : Type := Db Schema * list (list Migration).

Inductive turn : System -> System -> Prop :=
| turn_open db ps found : found `prefix_of` all -> current_version (md_image db) <= Z.of_nat (length found) ->
    turn (db, ps) (db, ps ++ [pending (current_version (md_image db)) found])
| turn_run db ps1 m ms ps2 db' r : run_script execute (clock (mg_version m)) m db = (db', r) ->
    turn (db, ps1 ++ (m :: ms) :: ps2) (db', ps1 ++ (if is_ok r then ms else []) :: ps2).

(** Of an image that is there, and of what a process has still to run *)
Record holds (sys : System) : Prop := {
  hd_image : exists k, after k (md_image (fst sys)) /\
    Forall (fun p => p = [] \/ exists j n, (j <= k)%nat /\ (n <= length all)%nat /\ p = drop j (take n all)) (snd sys);
  hd_seen : Forall (fun im => exists k, after k im) (md_seen (fst sys))
}.

Lemma version_at k m : all !! k = Some m -> mg_version m = Z.of_nat (S k).
Proof.
  intros H. assert (H' : map mg_version all !! k = Some (mg_version m)).
  { change ((mg_version <$> all) !! k = Some (mg_version m)). by rewrite list_lookup_fmap, H. }
  pose proof (lookup_lt_Some _ _ _ H) as Hk. rewrite Hall in H'. unfold one_to in H'.
  change ((Z.of_nat <$> seq 1 (length all)) !! k = Some (mg_version m)) in H'.
  rewrite list_lookup_fmap, lookup_seq_lt in H' by done. cbn in H'. injection H' as <-. lia.
Qed.

Lemma pending_drop k n : (k <= n)%nat -> (n <= length all)%nat -> pending (Z.of_nat k) (take n all) = drop k (take n all).
Proof.
  intros Hk Hn. unfold pending. rewrite <- (take_drop k (take n all)) at 1. rewrite List.filter_app, take_take.
  replace (k `min` n)%nat with k by lia.
  assert (H1 : List.filter (fun m => negb (mg_version m <=? Z.of_nat k)) (take k all) = []).
  { apply filter_nil. intros m Hm. apply list_elem_of_lookup in Hm as [i Hi].
    apply lookup_take_Some in Hi as [Hi Hlt]. apply version_at in Hi. lia. }
  rewrite H1. cbn. apply filter_all. intros m Hm. apply list_elem_of_lookup in Hm as [i Hi].
  rewrite lookup_drop in Hi. apply lookup_take_Some in Hi as [Hi Hlt]. apply version_at in Hi. lia.
Qed.

Lemma after_max k im : after k im -> current_version im = Z.of_nat k.
Proof. intros (_ & H & _). unfold current_version. by rewrite H, one_to_max. Qed.

(** The next script of a process on an image: the one that is missing goes in, any
    other is refused and leaves the image. *)
Lemma run_script_after k j n m ms db db' r : after k (md_image db) -> (j <= k)%nat -> (n <= length all)%nat ->
  drop j (take n all) = m :: ms -> run_script execute (clock (mg_version m)) m db = (db', r) ->
  (db' = db /\ is_ok r = false) \/
  (r = Ok tt /\ j = k /\ after (S k) (md_image db') /\ md_seen db' = md_image db' :: md_seen db /\ ms = drop (S k) (take n all)).
Proof.
  intros (Hk & Hv & Hs) Hj Hn Hp Hrun. unfold run_script in Hrun.
  assert (Hm : take n all !! j = Some m) by (rewrite <- (Nat.add_0_r j), <- lookup_drop, Hp; done).
  apply lookup_take_Some in Hm as [Hm Hlt]. pose proof (version_at j m Hm) as Hver.
  destruct (execute (mg_text m) (im_schema (md_image db))) as [schema|e] eqn:He; [|injection Hrun as <- <-; by left].
  rewrite Hv, Hver in Hrun. case_bool_decide as Hin; [injection Hrun as <- <-; by left|].
  rewrite one_to_elem in Hin. assert (j = k) as -> by lia. injection Hrun as <- <-. right.
  split_and!; [done|done| |done|].
  - split; [by apply lookup_lt_Some in Hm; lia|]. split.
    + unfold im_versions in *. cbn [md_image im_rows]. rewrite map_app, Hv. cbn [map fst]. apply one_to_snoc.
    + cbn [im_schema md_image]. rewrite (take_S_r all k m Hm), run_texts_snoc, Hs. exact He.
  - rewrite (drop_S (take n all) m k) in Hp by (by apply lookup_take_Some). by injection Hp as <-.
Qed.

Lemma turn_holds sys sys' : turn sys sys' -> holds sys -> holds sys'.
Proof.
  intros Hturn [(k & Hk & Hps) Hseen]. destruct Hturn as [db ps found Hfound Hlatest|db ps1 m ms ps2 db' r Hrun]; cbn [fst snd] in *.
  - split; cbn [fst snd]; [|done]. exists k. split; [done|]. apply Forall_app. split; [done|]. constructor; [right|done].
    assert (E : found = take (length found) all /\ (length found <= length all)%nat).
    { destruct Hfound as [rest Ha]. rewrite Ha. rewrite take_app_length, length_app. split; [done|lia]. }
    destruct E as [E Hle]. exists k, (length found). rewrite (after_max k _ Hk) in Hlatest |- *.
    split_and!; [done|done|]. rewrite <- (pending_drop k (length found)) by lia. by rewrite <- E.
  - apply Forall_app in Hps as [Hps1 [Hp Hps2]%Forall_cons]. destruct Hp as [|(j & n & Hj & Hn & Hp)]; [done|].
    destruct (run_script_after k j n m ms db db' r Hk Hj Hn (eq_sym Hp) Hrun) as [[-> Hr]|(-> & -> & Hk' & Hs & ->)].
    + split; cbn [fst snd]; [|done]. exists k. split; [done|]. apply Forall_app. split; [done|]. constructor; [|done].
      rewrite Hr. by left.
    + split; cbn [fst snd].
      * exists (S k). split; [done|]. cbn [is_ok]. apply Forall_app. split; [|constructor].
        -- eapply Forall_impl; [exact Hps1|]. intros p [->|(j' & n' & ? & ? & ->)]; [by left|right]. exists j', n'. split_and!; [lia|done|done].
        -- right. by exists (S k), n.
        -- eapply Forall_impl; [exact Hps2|]. intros p [->|(j' & n' & ? & ? & ->)]; [by left|right]. exists j', n'. split_and!; [lia|done|done].
      * rewrite Hs. constructor; [by exists (S k)|done].
Qed.

Definition blank : Db Schema := mkDb (mkImage empty []) [mkImage empty []].

Lemma blank_holds : holds (blank, []).
Proof.
  assert (H : after 0 (mkImage empty [])) by (split; [lia|done]).
  split; cbn; [by exists 0%nat|]. constructor; [by exists 0%nat|constructor].
Qed.

(** Alone, a process that finds an image after [k] scripts runs the rest. *)
Lemma run_scripts_rest k db s : after k (md_image db) -> run_texts (drop k all) (im_schema (md_image db)) = Ok s ->
  exists db', run_scripts execute clock (drop k all) db = (db', Ok (map mg_version (drop k all))) /\ after (length all) (md_image db').
Proof.
  remember (length all - k)%nat as d eqn:Hd. revert k db Hd. induction d as [|d IH]; intros k db Hd Hk Hrun.
  - rewrite drop_ge by lia. exists db. split; [done|]. destruct Hk as (Hle & Hk). assert (k = length all) as <- by lia. by split.
  - destruct (drop k all) as [|m ms] eqn:Hp; [apply (f_equal length) in Hp; rewrite length_drop in Hp; cbn in Hp; lia|].
    cbn in Hrun. apply obind_ok in Hrun as (s1 & He & Hrun).
    destruct (run_script execute (clock (mg_version m)) m db) as [db1 r] eqn:Hscript.
    rewrite <- (firstn_all all) in Hp.
    destruct (run_script_after k k (length all) m ms db db1 r Hk ltac:(lia) ltac:(lia) Hp Hscript)
      as [[_ Hr]|(-> & _ & Hk1 & _ & ->)].
    + exfalso. unfold run_script in Hscript. rewrite He in Hscript. destruct Hk as (_ & Hv & _). rewrite Hv in Hscript.
      assert (Hm : all !! k = Some m) by (rewrite <- (Nat.add_0_r k), <- lookup_drop, <- (firstn_all all), Hp; done).
      rewrite (version_at k m Hm) in Hscript. rewrite bool_decide_eq_false_2 in Hscript by (rewrite one_to_elem; lia).
      injection Hscript as _ <-. done.
    + rewrite firstn_all in Hp, Hrun |- *. assert (Hs1 : im_schema (md_image db1) = s1).
      { unfold run_script in Hscript. rewrite He in Hscript. case_bool_decide; [discriminate|]. by injection Hscript as <-. }
      rewrite <- Hs1 in Hrun. destruct (IH (S k) db1 ltac:(lia) Hk1 Hrun) as (db2 & H2 & Hend).
      exists db2. split; [|done]. cbn [run_scripts]. unfold bind. rewrite Hscript, H2. done.
Qed.
End Migrate.

(** C36: whatever the order in which processes of older and newer builds open a database
    and run their scripts, every image a crash could leave has the versions 1 to some k
    and exactly what the first k scripts made of an empty database; and a process that
    migrates any such image alone, when no script fails, applies the missing versions
    and ends with all of them, and applies nothing the next time. *)
Theorem migrations_hold {Schema : Type} (execute : string -> Schema -> outcome exn Schema) clock files all empty :
  discover files = Ok all ->
  forall db ps, rtc (turn execute clock all) (blank empty, []) (db, ps) ->
  Forall (fun im => exists k, after execute all empty k im) (md_seen db) /\
  forall k s, after execute all empty k (md_image db) -> run_texts execute (drop k all) (im_schema (md_image db)) = Ok s ->
    exists db', migrate execute files clock db = (db', Ok (map mg_version (drop k all))) /\
      after execute all empty (length all) (md_image db') /\ migrate execute files clock db' = (db', Ok []).
Proof.
  intros Hfiles db ps Hreach. pose proof (discover_versions _ _ Hfiles) as Hall.
  assert (Hholds : holds execute all empty (db, ps)).
  { remember (blank empty, []) as sys0 eqn:E0. assert (H0 : holds execute all empty sys0) by (subst; apply blank_holds).
    clear E0. induction Hreach as [|sys sys1 sys2 Ht _ IH]; [done|]. by eapply IH, turn_holds. }
  split; [apply Hholds|]. intros k s Hk Hrun.
  destruct (run_scripts_rest execute clock all Hall empty k db s Hk Hrun) as (db' & H1 & Hend). exists db'.
  assert (Hmig : forall k db, after execute all empty k (md_image db) -> migrate execute files clock db = run_scripts execute clock (drop k all) db).
  { clear -Hfiles Hall. intros k db Hk. unfold migrate, bind, lift_outcome, gets. rewrite Hfiles, (after_max _ _ _ _ _ Hk).
    destruct Hk as [Hle _]. rewrite (proj2 (Z.ltb_ge _ _)) by lia. f_equal.
    rewrite <- (firstn_all all) at 1. rewrite pending_drop by (done || lia). by rewrite firstn_all. }
  split; [by rewrite (Hmig k)|]. split; [done|]. rewrite (Hmig _ _ Hend), drop_all. done.
Qed.

(** ** Examples *)

(** A schema as the list of the scripts that made it; one text is no SQL. *)
Definition listing (text : string) (s : list string) : outcome exn (list string) :=
  if String.eqb text "bad" then Raise (ValueError "near bad: syntax error") else Ok (s ++ [text]).

Definition two_files : list (string * string) := [("002_more.sql", "b"); ("001_initial.sql", "a"); ("README.md", "")].
Definition two_scripts : list Migration := [mkMigration 1 "initial" "a"; mkMigration 2 "more" "b"].

Example discover_files :
  (discover two_files, discover [("1_x.sql", "")], discover [("001_x.sql", ""); ("001_y.sql", "")], discover [("002_x.sql", "")])
  = (Ok two_scripts, Raise (MigrationError "1_x.sql does not look like a migration. Expected NNN_lower_snake_case.sql"),
     Raise (MigrationError "duplicate migration numbers: [1, 1]"), Raise (MigrationError "migration numbers must be 1..N with no gaps, got [2]")).
Proof. vm_compute. reflexivity. Qed.

Definition at_one (v : Z) : string := "now".

(** A database whose first script ran and whose second did not. *)
Definition half : Db (list string) :=
  let im := mkImage ["a"] [(1, "initial", "now")] in mkDb im [im; mkImage [] []].

Lemma half_reached : rtc (turn listing at_one two_scripts) (blank [], []) (half, [[mkMigration 2 "more" "b"]]).
Proof.
  eapply rtc_l; [apply (turn_open listing at_one two_scripts (blank []) [] two_scripts); [by exists []|cbn; lia]|].
  apply rtc_once. apply (turn_run listing at_one two_scripts _ [] (mkMigration 1 "initial" "a") [mkMigration 2 "more" "b"] [] half (Ok tt)).
  reflexivity.
Qed.

Lemma migrations_hold_witness :
  Forall (fun im => exists k, after listing two_scripts [] k im) (md_seen half) /\
  exists db', migrate listing two_files at_one half = (db', Ok [2]) /\ im_schema (md_image db') = ["a"; "b"].
Proof.
  pose proof (migrations_hold listing at_one two_files two_scripts [] ltac:(vm_compute; reflexivity) half _ half_reached) as [H1 H2].
  split; [exact H1|]. destruct (H2 1%nat ["a"; "b"]) as (db' & Hrun & (_ & _ & Hs) & _).
  - split; [cbn; lia|]. split; reflexivity.
  - reflexivity.
  - exists db'. split; [exact Hrun|]. vm_compute in Hs. by injection Hs.
Defined.

(** Two processes that open a new database at the same time: the second fails on the
    script the first has run, though the database is fine. *)
Example race_refused :
  let '(db1, r1) := run_script listing "now" (mkMigration 1 "initial" "a") (blank []) in
  let '(db2, r2) := run_script listing "now" (mkMigration 1 "initial" "a") db1 in
  is_ok r1 = true /\ is_ok r2 = false /\ db2 = db1.
Proof. vm_compute. by split_and!. Qed.
