(* ===== verification/Tracing.v ===== *)
(** * tracing.py: what a span says, and what it must not say

    The OpenTelemetry SDK is seen through the calls made to it: the record of them
    is in the state, [Traced], beside the world [W] of the caller.  The context manager
    [span] takes its body as a function of the handle.  The identifiers the SDK
    gives a span are arguments, and so is the environment. *)

From Stdlib Require Import Ascii.
From S2P Require Import Prelude PyFloat PyFormat PyDict Errors Clock PyText.
Local Open Scope Z_scope.
Local Open Scope py_scope.

(** ** Regular expressions, as far as the patterns use them *)

Local Notation text := (list ascii).

(** One character of a class, one or none, or as many as there are but at least so many. *)
Inductive item :=
| One (p : ascii -> bool)
| Opt (p : ascii -> bool)
| Many (p : ascii -> bool) (least : nat).

(** A greedy repetition, given what comes after it. *)
Fixpoint many (p : ascii -> bool) (least : nat) (after : text -> option text) (s : text) : option text :=
  let stop := match least with O => after s | S _ => None end in
  match s with
  | c :: s' =>
      if p c then match many p (pred least) after s' with Some rest => Some rest | None => stop end
      else stop
  | [] => stop
  end.

(** [pattern.match(s)], as what comes after the match *)
Fixpoint matches (pattern : list item) (s : text) : option text :=
  match pattern with
  | [] => Some s
  | One p :: rest => match s with c :: s' => if p c then matches rest s' else None | [] => None end
  | Opt p :: rest =>
      match s with
      | c :: s' => if p c then match matches rest s' with Some r => Some r | None => matches rest s end else matches rest s
      | [] => matches rest s
      end
  | Many p least :: rest => many p least (matches rest) s
  end.

(** [a|b|...] *)
Fixpoint first_match (patterns : list (list item)) (s : text) : option text :=
  match patterns with
  | [] => None
  | pattern :: patterns => match matches pattern s with Some rest => Some rest | None => first_match patterns s end
  end.

Definition REDACTED : string := "[redacted]".
Definition MAX_ATTR_CHARS : nat := 256.

Definition chars (s : string) : text := String.list_ascii_of_string s.
Definition of_chars (s : text) : string := String.string_of_list_ascii s.

(** [pattern.sub(REDACTED, s)] and [s.replace(old, REDACTED)]: from the left, each match
    replaced, the search going on after it.  No pattern matches the empty text, so
    the length is fuel enough. *)
Fixpoint sub_from (fuel : nat) (m : text -> option text) (s : text) : text :=
  match fuel, s with
  | S fuel, c :: s' =>
      match m s with
      | Some rest => chars REDACTED ++ sub_from fuel m rest
      | None => c :: sub_from fuel m s'
      end
  | _, _ => s
  end.
Definition sub (m : text -> option text) (s : text) : text := sub_from (length s) m s.

Definition exactly (c : ascii) : item := One (Ascii.eqb c).
Definition literal (s : string) : list item := map exactly (chars s).

(** [(?i)] *)
Definition letters_of (s : string) : list item := map (fun c => One (fun d => Ascii.eqb (ascii_lower c) (ascii_lower d))) (chars s).

Definition one_of (s : string) (c : ascii) : bool := existsb (Ascii.eqb c) (chars s).

(** [[0-9A-Z]], [[A-Za-z0-9]], [[A-Za-z0-9_-]] *)
Definition in_range (a b : nat) (c : ascii) : bool := let n := nat_of_ascii c in (a <=? n)%nat && (n <=? b)%nat.
Definition digit_or_upper (c : ascii) : bool := in_range 48 57 c || in_range 65 90 c.
Definition alnum (c : ascii) : bool := digit_or_upper c || in_range 97 122 c.
Definition dashed (c : ascii) : bool := alnum c || one_of "_-" c.

(** The names the last pattern starts with *)
Definition SECRET_NAMES : list (list item) :=
  [letters_of "api" ++ [Opt (one_of "_-")] ++ letters_of "key"; letters_of "apikey"; letters_of "authorization";
   letters_of "bearer"; letters_of "password"; letters_of "secret"; letters_of "token"].

Definition double_quote : ascii := ascii_of_nat 34.

(** [_SECRET_PATTERNS], each as its alternatives *)
Definition SECRET_PATTERNS : list (list (list item)) :=
  [[literal "hf_" ++ [Many alnum 8]];
   [literal "sk-" ++ [Many dashed 8]];
   [literal "AKIA" ++ [Many digit_or_upper 12]];
   [literal "ghp_" ++ [Many alnum 16]];
   [literal "eyJ" ++ [Many dashed 4; exactly "."; Many dashed 4; exactly "."; Many dashed 4]];
   map (fun name => name ++ [Many (fun c => Ascii.eqb c double_quote || one_of "':=" c || is_py_space c) 1;
                             Many (fun c => dashed c || Ascii.eqb c ".") 8]) SECRET_NAMES].

Definition SECRET_ENV_VARS : list string :=
  ["AWS_SECRET_ACCESS_KEY"; "AWS_SESSION_TOKEN"; "GPU_BROKER_GITHUB_CLIENT_SECRET"; "GPU_BROKER_METRICS_TOKEN"].

Definition PAYLOAD_ATTRS : list string :=
  ["command"; "cmd"; "argv"; "script"; "env"; "environ"; "config"; "payload";
   "body"; "headers"; "note"; "reason"; "stderr"; "stdout"; "log"; "logs"].

(** ** Attributes *)

Inductive value :=
| VNone
| VStr (s : string)
| VInt (n : Z)
| VFloat (x : float)
| VBool (b : bool)
| VDict (length : Z)
| VList (length : Z)
| VTuple (length : Z).

(** [type(value).__name__] *)
Definition type_name (v : value) : string :=
  match v with
  | VNone => "NoneType" | VStr _ => "str" | VInt _ => "int" | VFloat _ => "float" | VBool _ => "bool"
  | VDict _ => "dict" | VList _ => "list" | VTuple _ => "tuple"
  end.

Definition str_len (s : string) : Z := Z.of_nat (String.length s).

(** [type(exc).__name__] *)
Definition exn_name (e : exn) : string :=
  match e with
  | BrokerError _ => "BrokerError" | ConfigError _ => "ConfigError" | MigrationError _ => "MigrationError"
  | IllegalTransition _ _ _ => "IllegalTransition" | Unauthorized _ => "Unauthorized" | UnknownJob _ => "UnknownJob"
  | UnknownUser _ => "UnknownUser" | UnknownGpuType _ _ => "UnknownGpuType" | BackendError _ => "BackendError"
  | CheckpointError _ => "CheckpointError" | PricingError _ => "PricingError" | AuthError _ => "AuthError"
  | IntegrityError _ => "IntegrityError" | RuntimeError _ => "RuntimeError" | ValueError _ => "ValueError"
  | IndexError _ => "IndexError" | ArithmeticError _ => "ArithmeticError" | OverflowError _ => "OverflowError"
  | TypeError _ => "TypeError" | KeyError _ => "KeyError" | AttributeError _ => "AttributeError"
  | TraceError _ => "TraceError" | HTTPException _ _ => "HTTPException"
  end.

Section Tracing.
Context (environ : string -> option string).

(** One live credential *)
Definition hide_live (s : text) (var : string) : text :=
  match environ var with
  | Some live => if (8 <=? String.length live)%nat then sub (matches (literal live)) s else s
  | None => s
  end.

(** [scrub(text)] *)
Definition scrub (s : string) : string :=
  of_chars (fold_left (fun t alternatives => sub (first_match alternatives) t) SECRET_PATTERNS
    (fold_left hide_live SECRET_ENV_VARS (chars s))).

(** [value.split(" ", 1)[0].rsplit("/", 1)[-1]] *)
Definition program_of (s : string) : string :=
  List.last (split_char "/" (match partition_char " " s with Some (before, _) => before | None => s end)) "".

(** [value[:MAX_ATTR_CHARS] + f"...<truncated {len(value)}>"], if it is longer *)
Definition shorten (s : string) : string :=
  if (MAX_ATTR_CHARS <? String.length s)%nat
  then str_take MAX_ATTR_CHARS s +:+ "...<truncated " +:+ str_of_Z (str_len s) +:+ ">" else s.

(** What one attribute becomes. *)
Definition sanitise_one (key : string) (v : value) : list (string * value) :=
  match v with
  | VNone => []
  | _ =>
      if bool_decide (str_lower key ∈ PAYLOAD_ATTRS) then
        match v with
        | VStr s => [(key +:+ ".program", VStr (str_take 64 (scrub (program_of s)))); (key +:+ ".length", VInt (str_len s))]
        | _ => [(key +:+ ".type", VStr (type_name v))]
        end
      else
        match v with
        | VDict n | VList n | VTuple n => [(key +:+ ".length", VInt n)]
        | VStr s => [(key, VStr (shorten (scrub s)))]
        | _ => [(key, v)]
        end
  end.

(** [sanitise(attrs)] *)
Definition sanitise (attrs : dict string value) : dict string value :=
  fold_left (fun out e => fold_left (fun out kv => dict_set (fst kv) (snd kv) out) (sanitise_one (fst e) (snd e)) out) attrs [].

(** ** The SDK *)

Inductive context := Ambient (current : option nat) | Traceparent (s : string).

Inductive call :=
| StartSpan (id : nat) (name kind : string) (parent : context) (attributes : dict string value)
| SetAttribute (id : nat) (k : string) (v : value)
| AddEvent (id : nat) (name : string) (attributes : dict string value)
| UpdateName (id : nat) (name : string)
| SetStatus (id : nat) (description : string)
| EndSpan (id : nat).

(** [_enabled], the calls so far, the spans that are current, and the caller's world *)
Record Traced (W : Type) := mkTraced {
  tr_enabled : bool;
  tr_calls : list call;
  tr_current : list nat;
  tr_world : W
}.
Arguments mkTraced {W} _ _ _ _.
Arguments tr_enabled {W} _.
Arguments tr_calls {W} _.
Arguments tr_current {W} _.
Arguments tr_world {W} _.

(** [setup(service_name, endpoint=...)], without an exporter of its own *)
Definition setup {W} (endpoint : option string) (s : Traced W) : Traced W :=
  let endpoint := match endpoint with
                  | Some (String _ _ as e) => e
                  | _ => default "" (environ "OTEL_EXPORTER_OTLP_ENDPOINT")
                  end in
  mkTraced (non_empty endpoint) (tr_calls s) (tr_current s) (tr_world s).

(** [shutdown()] *)
Definition shutdown {W} (s : Traced W) : Traced W := mkTraced false (tr_calls s) (tr_current s) (tr_world s).

Context {W : Type}.
Notation T := (Traced W).

Definition tell (cs : list call) : M T exn unit := fun s =>
  (mkTraced (tr_enabled s) (tr_calls s ++ cs) (tr_current s) (tr_world s), Ok tt).

(** [_Span] over a span of the SDK, or [_NoSpan] *)
Definition handle := option nat.

(** [set_attributes(attrs)] *)
Definition set_attributes (h : handle) (attrs : dict string value) : M T exn unit :=
  match h with
  | Some id => tell (map (fun kv => SetAttribute id (fst kv) (snd kv)) (sanitise attrs))
  | None => ret tt
  end.

(** [set_attribute(key, value)] *)
Definition set_attribute (h : handle) (key : string) (v : value) : M T exn unit := set_attributes h [(key, v)].

(** [add_event(name, attrs)] *)
Definition add_event (h : handle) (name : string) (attrs : dict string value) : M T exn unit :=
  match h with Some id => tell [AddEvent id name (sanitise attrs)] | None => ret tt end.

(** [update_name(name)] *)
Definition update_name (h : handle) (name : string) : M T exn unit :=
  match h with Some id => tell [UpdateName id name] | None => ret tt end.

(** [failed(outcome, **attrs)] *)
Definition failed (h : handle) (outcome : string) (attrs : dict string value) : M T exn unit :=
  match h with
  | Some id => tell [SetStatus id outcome];;; set_attributes h (("outcome", VStr outcome) :: attrs)
  | None => ret tt
  end.

Definition set_current (l : list nat) : M T exn unit := fun s =>
  (mkTraced (tr_enabled s) (tr_calls s) l (tr_world s), Ok tt).

(** [with span(name, kind=..., parent=..., **attrs) as handle: body]; a span is known by
    the number of calls before it. *)
Definition span {A} (name kind : string) (parent : option string) (attrs : dict string value)
    (body : handle -> M T exn A) : M T exn A :=
  enabled <- gets tr_enabled;;
  if negb enabled then body None else
  before <- gets tr_current;;
  id <- gets (fun s => length (tr_calls s));;
  let origin := match parent with Some (String _ _ as p) => Traceparent p | _ => Ambient (head before) end in
  tell [StartSpan id name kind origin (sanitise attrs)];;;
  set_current (id :: before);;;
  fun s =>
    let '(s1, r) := body (Some id) s in
    let noted := match r with
                 | Ok _ => []
                 | Raise e =>
                     [SetStatus id (exn_name e);
                      AddEvent id "exception" (sanitise [("exception.type", VStr (exn_name e)); ("exception.message", VStr (exn_str e))])]
                 end in
    (mkTraced (tr_enabled s1) (tr_calls s1 ++ noted ++ [EndSpan id]) before (tr_world s1), r).

(** ** The queue hop *)

(** The header the SDK makes of a span *)
Context (traceparent_of : nat -> string).

(** The text of the trace of a span, if the SDK recorded it *)
Context (trace_id_of : nat -> option string).

(** [_Span.trace_id], [_NoSpan.trace_id] *)
Definition trace_id (h : handle) : option string := match h with Some id => trace_id_of id | None => None end.

(** [current_trace_id()] *)
Definition current_trace_id (s : T) : option string :=
  if negb (tr_enabled s) then None else match tr_current s with id :: _ => trace_id_of id | [] => None end.

(** [current_traceparent()] *)
Definition current_traceparent (s : T) : option string :=
  if negb (tr_enabled s) then None else traceparent_of <$> head (tr_current s).

(** [except sqlite3.Error] *)
Definition is_sqlite_error (e : exn) : bool := match e with IntegrityError _ => true | _ => false end.

(** A statement on the caller's database *)
Definition on_world {A} (m : M W exn A) : M T exn A := fun s =>
  let (w, r) := m (tr_world s) in (mkTraced (tr_enabled s) (tr_calls s) (tr_current s) w, r).

(** [record_queue_context(conn, job_id, now)], [insert] being its INSERT and commit *)
Definition record_queue_context (insert : string -> string -> string -> M W exn unit) (job_id : string) (now : Z) : M T exn unit :=
  header <- gets current_traceparent;;
  match header with
  | Some (String _ _ as traceparent) =>
      try_catch (on_world (insert job_id traceparent (to_iso now))) is_sqlite_error (fun _ => ret tt)
  | _ => ret tt
  end.

(** [queue_context(conn, job_id)], [select] being its SELECT *)
Definition queue_context (select : string -> M W exn (option string)) (job_id : string) : M T exn (option string) :=
  try_catch (on_world (select job_id)) is_sqlite_error (fun _ => ret None).
End Tracing.

Arguments mkTraced {W} _ _ _ _.
Arguments tr_enabled {W} _.
Arguments tr_calls {W} _.
Arguments tr_current {W} _.
Arguments tr_world {W} _.

(** * What no span can say

    A credential that is live in the environment is in no attribute of any call
    to the SDK, whatever the program passes to it; of an attribute with the name
    of a payload only the first word's last part and the length are seen; and the
    spans change neither the result of what they surround nor its world. *)

From stdpp Require Import pretty.
Local Open Scope Z_scope.
Local Open Scope py_scope.

(** ** Parts of a text *)

Definition within (l s : list ascii) : Prop := exists a b, s = a ++ l ++ b.

Lemma within_nil l : within l [] -> l = [].
Proof. intros (a & b & H). symmetry in H. apply app_eq_nil in H as [_ H]. by apply app_eq_nil in H as [H _]. Qed.

Lemma within_cons l c s : within l (c :: s) <-> l `prefix_of` (c :: s) \/ within l s.
Proof.
  split.
  - intros ([|d a] & b & H); [left; by exists b|]. injection H as -> ->. right. by exists a, b.
  - intros [[b ->]|(a & b & ->)]; [by exists [], b|by exists (c :: a), b].
Qed.

Lemma within_prefix l s s' : s `prefix_of` s' -> within l s -> within l s'.
Proof. intros [k ->] (a & b & ->). exists a, (b ++ k). by rewrite <- !app_assoc. Qed.

Lemma within_suffix l s s' : s `suffix_of` s' -> within l s -> within l s'.
Proof. intros [k ->] (a & b & ->). exists (k ++ a), b. by rewrite <- !app_assoc. Qed.

Lemma within_forall (p : ascii -> bool) l s : forallb p s = true -> within l s -> forallb p l = true.
Proof. intros Hs (a & b & ->). rewrite !forallb_app, !andb_true_iff in Hs. by destruct Hs as (_ & Hs & _). Qed.

Lemma prefix_boundary (l x : list ascii) c y : c ∉ l -> l `prefix_of` (x ++ c :: y) -> l `prefix_of` x.
Proof.
  revert x. induction l as [|d l IH]; intros x Hc Hp; [apply prefix_nil|].
  apply not_elem_of_cons in Hc as [Hne Hc]. destruct x as [|e x]; cbn in Hp.
  - by apply prefix_cons_inv_1 in Hp.
  - pose proof (prefix_cons_inv_1 _ _ _ _ Hp) as ->. apply prefix_cons, IH; [done|]. by apply prefix_cons_inv_2 in Hp.
Qed.

(** A part with no [c] in it is before the [c] or after it. *)
Lemma within_boundary (l x : list ascii) c y : l <> [] -> c ∉ l -> within l (x ++ c :: y) -> within l x \/ within l y.
Proof.
  intros Hl Hc. induction x as [|d x IH]; cbn.
  - intros [Hp|H]%within_cons; [|by right]. by apply (prefix_boundary l [] c y Hc), prefix_nil_inv in Hp.
  - intros [Hp|H]%within_cons.
    + left. apply within_cons. left. by apply (prefix_boundary l (d :: x) c y).
    + destruct (IH H) as [H'|H']; [left; apply within_cons; by right|by right].
Qed.

(** ** Matching leaves an end of the text *)

Lemma many_suffix p after s r : (forall t r', after t = Some r' -> r' `suffix_of` t) ->
  forall least, many p least after s = Some r -> r `suffix_of` s.
Proof.
  intros Ha. induction s as [|c s IH]; intros least H; cbn in H.
  - destruct least; [by apply Ha|done].
  - assert (Hstop : match least with O => after (c :: s) | S _ => None end = Some r -> r `suffix_of` (c :: s)).
    { destruct least; [by apply Ha|done]. }
    destruct (p c); [|by apply Hstop]. destruct (many p (pred least) after s) eqn:E; [|by apply Hstop].
    injection H as ->. apply suffix_cons_r. by apply (IH (pred least)).
Qed.

Lemma matches_suffix pattern s r : matches pattern s = Some r -> r `suffix_of` s.
Proof.
  revert s r. induction pattern as [|[p|p|p least] pattern IH]; intros s r H; cbn in H.
  - by injection H as ->.
  - destruct s as [|c s]; [done|]. destruct (p c); [|done]. by apply suffix_cons_r, IH.
  - destruct s as [|c s]; [by apply IH|]. destruct (p c); [|by apply IH].
    destruct (matches pattern s) eqn:E; [|by apply IH]. injection H as ->. by apply suffix_cons_r, IH.
  - by apply (many_suffix p (matches pattern) s r) in H.
Qed.

Lemma first_match_suffix patterns s r : first_match patterns s = Some r -> r `suffix_of` s.
Proof.
  induction patterns as [|pattern patterns IH]; cbn; [done|].
  destruct (matches pattern s) eqn:E; [|done]. intros [= ->]. by apply (matches_suffix pattern).
Qed.

Lemma literal_matches l s : matches (map exactly l) s = if decide (l `prefix_of` s) then Some (drop (length l) s) else None.
Proof.
  revert s. induction l as [|c l IH]; intros s; cbn.
  - destruct (decide ([] `prefix_of` s)) as [|H]; [done|]. destruct H. apply prefix_nil.
  - destruct s as [|d s].
    + destruct (decide (c :: l `prefix_of` [])) as [H|]; [by apply prefix_nil_inv in H|done].
    + rewrite IH. destruct (Ascii.eqb_spec c d) as [->|Hne].
      * destruct (decide (l `prefix_of` s)) as [H|H], (decide (d :: l `prefix_of` d :: s)) as [H'|H']; try done.
        -- destruct H'. by apply prefix_cons.
        -- destruct H. by apply prefix_cons_inv_2 in H'.
      * destruct (decide (c :: l `prefix_of` d :: s)) as [H|]; [|done]. by apply prefix_cons_inv_1 in H.
Qed.

(** ** Credentials *)

(** What a credential is made of: the letters, digits and signs of base64 and of hex,
    with a digit or a capital and something that is no digit. *)
Definition credential (l : list ascii) : bool :=
  (8 <=? length l)%nat && forallb (fun c => alnum c || one_of "/+=_-" c) l &&
  existsb digit_or_upper l && existsb (fun c => negb (in_range 48 57 c)) l.

Section Live.
Context (live : list ascii) (Hlive : credential live = true).

Notation clean s := (~ within live s).

Lemma live_facts : (8 <= length live)%nat /\ live <> [] /\
  (forall c, alnum c || one_of "/+=_-" c = false -> c ∉ live) /\
  (forall s, forallb (fun c => negb (digit_or_upper c)) s = true -> clean s) /\
  (forall s, forallb (in_range 48 57) s = true -> clean s).
Proof.
  unfold credential in Hlive. rewrite !andb_true_iff in Hlive. destruct Hlive as [[[H1%Nat.leb_le H2] H3] H4].
  split_and!.
  - done.
  - intros E. rewrite E in H1. cbn in H1. lia.
  - intros c Hc Hin. rewrite forallb_forall in H2. apply list_elem_of_In, H2 in Hin. congruence.
  - intros s Hs Hw. apply (within_forall _ _ _ Hs) in Hw. apply existsb_exists in H3 as (c & Hc & Hd).
    rewrite forallb_forall in Hw. specialize (Hw c Hc). by rewrite Hd in Hw.
  - intros s Hs Hw. apply (within_forall _ _ _ Hs) in Hw. apply existsb_exists in H4 as (c & Hc & Hd).
    rewrite forallb_forall in Hw. specialize (Hw c Hc). by rewrite Hw in Hd.
Qed.

Lemma clean_around x c y : alnum c || one_of "/+=_-" c = false -> clean x -> clean y -> clean (x ++ c :: y).
Proof.
  destruct live_facts as (_ & Hne & Hc & _). intros H Hx Hy [Hw|Hw]%within_boundary; [by auto..|done|by apply Hc].
Qed.

Lemma clean_redacted s : clean s -> clean (chars REDACTED ++ s).
Proof.
  destruct live_facts as (_ & Hne & Hc & Hlow & _). intros Hs.
  apply (clean_around [] "["%char (chars "redacted" ++ "]"%char :: s)); [done|intros H; by apply within_nil in H|].
  apply clean_around; [done| |done]. by apply Hlow.
Qed.

(** What begins the result of a substitution begins the text, if it has no bracket. *)
Lemma sub_prefix m l fuel s : "["%char ∉ l -> l `prefix_of` sub_from fuel m s -> l `prefix_of` s.
Proof.
  revert l s. induction fuel as [|fuel IH]; intros l s Hl Hp; [done|]. destruct s as [|c s]; [done|]. cbn [sub_from] in Hp.
  destruct l as [|d l]; [apply prefix_nil|]. apply not_elem_of_cons in Hl as [Hd Hl]. destruct (m (c :: s)).
  - cbn in Hp. apply prefix_cons_inv_1 in Hp. by subst d.
  - pose proof (prefix_cons_inv_1 _ _ _ _ Hp) as ->. apply prefix_cons_inv_2 in Hp. by apply prefix_cons, IH.
Qed.

Lemma bracket_free : "["%char ∉ live.
Proof. destruct live_facts as (_ & _ & Hc & _). by apply Hc. Qed.

(** A substitution brings no credential into a text without it. *)
Lemma clean_sub m s : (forall t r, m t = Some r -> r `suffix_of` t) -> clean s -> clean (sub m s).
Proof.
  intros Hm. unfold sub. generalize (length s) as fuel. intros fuel. revert s.
  induction fuel as [|fuel IH]; intros s Hs; [done|]. destruct s as [|c s]; [done|]. cbn [sub_from].
  destruct (m (c :: s)) as [rest|] eqn:E.
  - apply clean_redacted, IH. intros Hw. apply Hs. by apply (within_suffix _ rest); [apply Hm|].
  - intros [Hp|Hw]%within_cons.
    + apply Hs, within_cons. left. pose proof bracket_free as Hb. clear Hlive.
      destruct live as [|d l]; [apply prefix_nil|]. apply not_elem_of_cons in Hb as [_ Hb].
      pose proof (prefix_cons_inv_1 _ _ _ _ Hp) as ->. apply prefix_cons_inv_2 in Hp.
      apply prefix_cons. by apply (sub_prefix m l fuel).
    + apply (IH s); [|done]. intros H. apply Hs, within_cons. by right.
Qed.

(** Replacing the credential takes every occurrence of it out. *)
Lemma clean_replaced s : clean (sub (matches (map exactly live)) s).
Proof.
  destruct live_facts as (Hlen & Hne & _). unfold sub. assert (Hf : (length s <= length s)%nat) by done. revert Hf.
  generalize (length s) at 2 3 as fuel. intros fuel. revert s. induction fuel as [|fuel IH]; intros s Hf.
  { destruct s; [|cbn in Hf; lia]. cbn. intros H. by apply within_nil in H. }
  destruct s as [|c s]; [intros H; by apply within_nil in H|]. cbn [sub_from]. rewrite literal_matches.
  destruct (decide (live `prefix_of` c :: s)) as [Hp|Hp].
  - apply clean_redacted, IH. rewrite length_drop. cbn [length] in *. lia.
  - intros [Hp'|Hw]%within_cons; [|by apply (IH s); [cbn in Hf; lia|]]. apply Hp.
    apply (sub_prefix (matches (map exactly live)) live (S fuel) (c :: s)); [apply bracket_free|].
    cbn [sub_from]. rewrite literal_matches. by destruct (decide _).
Qed.
End Live.

(** ** Attributes *)

Lemma digits_of_N (x : N) : forallb (in_range 48 57) (chars (pretty x)) = true.
Proof.
  assert (H : forall y s, forallb (in_range 48 57) (chars s) = true -> forallb (in_range 48 57) (chars (pretty_N_go y s)) = true).
  { intros y. induction (N.lt_wf_0 y) as [y _ IH]. intros s Hs.
    destruct (decide (y = 0%N)) as [->|Hy]; [by rewrite pretty_N_go_0|].
    rewrite pretty_N_go_step by lia. apply IH; [apply N.div_lt; lia|].
    unfold chars in *. cbn [String.list_ascii_of_string forallb]. rewrite Hs, andb_true_r. unfold pretty_N_char. by repeat case_match. }
  unfold pretty, pretty_N. destruct (decide (x = 0%N)); [done|]. by apply H.
Qed.

Lemma digits_of_len s : forallb (in_range 48 57) (chars (str_of_Z (str_len s))) = true.
Proof. unfold str_len, str_of_Z. destruct (String.length s); [done|]. cbn [Z.of_nat]. exact (digits_of_N (Npos _)). Qed.

Lemma chars_app a b : chars (a +:+ b) = chars a ++ chars b.
Proof. unfold chars. induction a as [|c a IH]; [done|]. exact (f_equal (cons c) IH). Qed.

Lemma chars_length s : length (chars s) = String.length s.
Proof. unfold chars. induction s as [|c s IH]; [done|]. exact (f_equal S IH). Qed.

Lemma chars_take n s : chars (str_take n s) = take n (chars s).
Proof.
  unfold str_take, chars. revert n. induction s as [|c s IH]; intros [|n]; cbn; try done. by rewrite IH.
Qed.

Lemma chars_of s : chars (of_chars s) = s.
Proof. apply String.list_ascii_of_string_of_list_ascii. Qed.

Lemma elem_dict_set {V} (k : string) (v : V) m k' v' : (k', v') ∈ dict_set k v m -> (k', v') = (k, v) \/ (k', v') ∈ m.
Proof.
  induction m as [|[k1 v1] m IH]; cbn; [intros H%list_elem_of_singleton; by left|].
  destruct (decide (k1 = k)) as [->|].
  - intros [H|H]%elem_of_cons; [by left|right; by right].
  - intros [H|H]%elem_of_cons; [right; rewrite H; by left|]. destruct (IH H) as [|]; [by left|right; by right].
Qed.

(** A property of the values of single attributes is one of all of them. *)
Lemma sanitise_all environ (P : value -> Prop) attrs :
  (forall k v k' v', (k', v') ∈ sanitise_one environ k v -> P v') ->
  forall k v, (k, v) ∈ sanitise environ attrs -> P v.
Proof.
  intros Hone. unfold sanitise.
  assert (Hin : forall new out : dict string value, (forall k v, (k, v) ∈ out -> P v) -> (forall k v, (k, v) ∈ new -> P v) ->
    forall k v, (k, v) ∈ fold_left (fun out kv => dict_set (fst kv) (snd kv) out) new out -> P v).
  { induction new as [|[k0 v0] new IH]; intros out Ho Hn; [done|]. cbn [fold_left]. apply IH.
    - intros k v [[= -> ->]|H]%elem_dict_set; [apply (Hn k0); by left|by apply (Ho k)].
    - intros k v H. apply (Hn k). by right. }
  assert (Hall : forall attrs out : dict string value, (forall k v, (k, v) ∈ out -> P v) -> forall k v,
    (k, v) ∈ fold_left (fun out e => fold_left (fun out kv => dict_set (fst kv) (snd kv) out) (sanitise_one environ (fst e) (snd e)) out) attrs out -> P v).
  { clear attrs. induction attrs as [|[k0 v0] attrs IH]; intros out Ho; [done|]. cbn [fold_left]. apply IH.
    apply Hin; [done|]. apply Hone. }
  apply Hall. by intros k v []%elem_of_nil.
Qed.

Section Hidden.
Context (environ : string -> option string) (var live : string).
Context (Hvar : var ∈ SECRET_ENV_VARS) (Henv : environ var = Some live) (Hlive : credential (chars live) = true).

(** The credential is not in the value. *)
Definition hidden (v : value) : Prop :=
  match v with VStr s => ~ within (chars live) (chars s) | _ => True end.

Lemma scrub_clean s : ~ within (chars live) (chars (scrub environ s)).
Proof.
  unfold scrub. rewrite chars_of.
  assert (Hpat : forall patterns t, ~ within (chars live) t ->
    ~ within (chars live) (fold_left (fun t alternatives => sub (first_match alternatives) t) patterns t)).
  { induction patterns as [|p patterns IH]; intros t Ht; [done|]. apply IH, clean_sub; [done| |done].
    intros. by eapply first_match_suffix. }
  apply Hpat. clear Hpat. generalize (chars s) as t.
  assert (Hkeep : forall vars t, ~ within (chars live) t -> ~ within (chars live) (fold_left (hide_live environ) vars t)).
  { induction vars as [|v vars IH]; intros t Ht; [done|]. apply IH. unfold hide_live. destruct (environ v); [|done].
    destruct (8 <=? _)%nat; [|done]. apply clean_sub; [done| |done]. intros. by eapply matches_suffix. }
  revert Hvar. generalize SECRET_ENV_VARS as vars. induction vars as [|v vars IH]; [by intros []%elem_of_nil|].
  intros [<-|Hin]%elem_of_cons t; [|by apply IH]. cbn [fold_left]. apply Hkeep. unfold hide_live. rewrite Henv.
  pose proof (live_facts _ Hlive) as (Hlen & _). rewrite chars_length in Hlen.
  apply Nat.leb_le in Hlen. rewrite Hlen. by apply clean_replaced.
Qed.

Lemma shorten_clean s : ~ within (chars live) (chars s) -> ~ within (chars live) (chars (shorten s)).
Proof.
  intros Hs. unfold shorten. destruct (MAX_ATTR_CHARS <? _)%nat; [|done].
  pose proof (live_facts _ Hlive) as (_ & _ & _ & Hlow & Hdigits).
  rewrite !chars_app, chars_take.
  change (chars "...<truncated ") with ("."%char :: "."%char :: "."%char :: "<"%char :: chars "truncated" ++ [" "%char]).
  cbn [app]. rewrite <- app_assoc. cbn [app].
  assert (Hnil : ~ within (chars live) []) by (by apply Hlow).
  apply clean_around; [done|done| |].
  { intros Hw. apply Hs. apply (within_prefix _ (take MAX_ATTR_CHARS (chars s))); [apply prefix_take|done]. }
  apply (clean_around _ Hlive [] "."%char); [done..|]. apply (clean_around _ Hlive [] "."%char); [done..|].
  apply (clean_around _ Hlive [] "<"%char); [done..|]. apply clean_around; [done|done|by apply Hlow|].
  change (chars ">") with [">"%char]. apply clean_around; [done|done| |done]. apply Hdigits, digits_of_len.
Qed.

Lemma sanitise_one_hidden k v k' v' : (k', v') ∈ sanitise_one environ k v -> hidden v'.
Proof.
  pose proof (live_facts _ Hlive) as (_ & _ & _ & Hlow & _).
  unfold sanitise_one. destruct v as [|s|n|x|b|n|n|n]; [by intros []%elem_of_nil|..];
    destruct (bool_decide (str_lower k ∈ PAYLOAD_ATTRS));
    try (intros [= -> ->]%list_elem_of_singleton; cbn; try done; by apply Hlow).
  - intros [[= -> ->]|[= -> ->]%list_elem_of_singleton]%elem_of_cons; [|done]. cbn. rewrite chars_take.
    intros Hw. apply (scrub_clean (program_of s)). by apply (within_prefix _ _ _ (prefix_take _ 64)).
  - intros [= -> ->]%list_elem_of_singleton. apply shorten_clean, scrub_clean.
Qed.

Lemma sanitise_hidden attrs k v : (k, v) ∈ sanitise environ attrs -> hidden v.
Proof. apply sanitise_all. apply sanitise_one_hidden. Qed.
End Hidden.

(** ** Calls *)

Definition in_attributes (P : value -> Prop) (attrs : dict string value) : Prop := forall k v, (k, v) ∈ attrs -> P v.

(** A property of every attribute in a call *)
Definition in_call (P : value -> Prop) (c : call) : Prop :=
  match c with
  | StartSpan _ _ _ _ attrs | AddEvent _ _ attrs => in_attributes P attrs
  | SetAttribute _ _ v => P v
  | UpdateName _ _ | SetStatus _ _ | EndSpan _ => True
  end.

Definition told_only {W} (P : value -> Prop) (s : Traced W) : Prop := Forall (in_call P) (tr_calls s).

(** Two attributes that say the same once only the shape of a payload is left. *)
Definition same_shape (a b : string * value) : Prop :=
  fst a = fst b /\
  (snd a = snd b \/
   str_lower (fst a) ∈ PAYLOAD_ATTRS /\
   match snd a, snd b with
   | VStr s, VStr t => program_of s = program_of t /\ String.length s = String.length t
   | VNone, _ | _, VNone => False
   | v, w => type_name v = type_name w
   end).

Lemma same_shape_one environ a b : same_shape a b ->
  sanitise_one environ (fst a) (snd a) = sanitise_one environ (fst b) (snd b).
Proof.
  destruct a as [k v], b as [k' w]. unfold same_shape. cbn [fst snd]. intros [<- [->|[Hk H]]]; [done|].
  unfold sanitise_one. rewrite (bool_decide_eq_true_2 _ Hk).
  destruct v, w; try done; cbn in H; try discriminate.
  destruct H as [Hp Hl]. unfold str_len. by rewrite Hp, Hl.
Qed.

Lemma same_shape_all environ attrs attrs' : Forall2 same_shape attrs attrs' -> sanitise environ attrs = sanitise environ attrs'.
Proof.
  unfold sanitise. generalize (@nil (string * value)) as out. intros out H. revert out.
  induction H as [|a b attrs attrs' Hab _ IH]; intros out; [done|]. cbn [fold_left].
  by rewrite (same_shape_one environ a b Hab), IH.
Qed.

Section Calls.
Context {W : Type} (environ : string -> option string) (P : value -> Prop).
Context (Hone : forall k v k' v', (k', v') ∈ sanitise_one environ k v -> P v').

Notation T := (Traced W).

Lemma sanitise_in attrs : in_attributes P (sanitise environ attrs).
Proof. intros k v. apply sanitise_all, Hone. Qed.

Lemma tell_told cs : Forall (in_call P) cs -> keeps (told_only P) (@tell W cs).
Proof. intros H s Hs. unfold told_only, tell in *. cbn. by apply Forall_app. Qed.

Lemma set_attributes_told h attrs : keeps (told_only P) (@set_attributes environ W h attrs).
Proof.
  destruct h as [id|]; cbn; [|apply keeps_ret]. apply tell_told, Forall_forall.
  intros c ([k v] & -> & Hin)%list_elem_of_fmap. by apply (sanitise_in attrs k).
Qed.

Lemma failed_told h outcome attrs : keeps (told_only P) (@failed environ W h outcome attrs).
Proof.
  destruct h as [id|]; cbn [failed]; [|apply keeps_ret].
  apply keeps_bind; [by apply tell_told, Forall_singleton|]. intros _. apply set_attributes_told.
Qed.

Lemma add_event_told h name attrs : keeps (told_only P) (@add_event environ W h name attrs).
Proof. destruct h as [id|]; cbn; [|apply keeps_ret]. apply tell_told, Forall_singleton, sanitise_in. Qed.

Lemma span_told {A} name kind parent attrs (body : handle -> M T exn A) :
  (forall h, keeps (told_only P) (body h)) -> keeps (told_only P) (span environ name kind parent attrs body).
Proof.
  intros Hbody s Hs. unfold span, bind, gets. destruct (tr_enabled s) eqn:He; cbn [negb]; [|by apply Hbody].
  unfold tell, set_current. cbn [tr_enabled tr_calls tr_current tr_world].
  set (s0 := mkTraced _ _ _ _).
  assert (H0 : told_only P s0).
  { unfold told_only, s0. cbn. apply Forall_app. split; [exact Hs|]. apply Forall_singleton. apply sanitise_in. }
  specialize (Hbody (Some (length (tr_calls s))) s0 H0). destruct (body _ s0) as [s1 [a|e]]; unfold told_only in *; cbn [tr_calls].
  - apply Forall_app. split; [done|]. by apply Forall_singleton.
  - apply Forall_app. split; [done|]. apply Forall_cons. split; [done|]. apply Forall_cons. split; [apply sanitise_in|by apply Forall_singleton].
Qed.

Lemma on_world_told {A} (m : M W exn A) : keeps (told_only P) (on_world m).
Proof. intros s Hs. unfold on_world. by destruct (m (tr_world s)) as [w [a|e]]. Qed.

Lemma record_told (traceparent_of : nat -> string) insert job_id now :
  keeps (told_only P) (@record_queue_context W traceparent_of insert job_id now).
Proof.
  unfold record_queue_context. apply keeps_bind; [apply keeps_gets|]. intros [[|c t]|]; try apply keeps_ret.
  apply keeps_try; [apply on_world_told|]. intros. apply keeps_ret.
Qed.
End Calls.

(** C39: A live credential reaches no attribute: whatever a program passes to a span, to
    its handle or to an event, and whatever message an exception carries out of a
    span, no attribute in any call made to the SDK holds the value of one of the
    secret variables of the environment.  And of an attribute with the name of a
    payload the calls show the last part of its first word and its length only: two
    programs that differ in the rest make the same calls. *)
Theorem telemetry_hides {W A : Type} (environ : string -> option string) (var live : string) :
  var ∈ SECRET_ENV_VARS -> environ var = Some live -> credential (chars live) = true ->
  (forall name kind parent attrs (body : handle -> M (Traced W) exn A),
     (forall h, keeps (told_only (hidden live)) (body h)) ->
     keeps (told_only (hidden live)) (span environ name kind parent attrs body)) /\
  (forall h attrs, keeps (told_only (hidden live)) (@set_attributes environ W h attrs)) /\
  (forall h name attrs, keeps (told_only (hidden live)) (@add_event environ W h name attrs)) /\
  (forall h outcome attrs, keeps (told_only (hidden live)) (@failed environ W h outcome attrs)) /\
  (forall traceparent_of insert job_id now,
     keeps (told_only (hidden live)) (@record_queue_context W traceparent_of insert job_id now)) /\
  (forall attrs attrs', Forall2 same_shape attrs attrs' ->
     (forall name kind parent (body : handle -> M (Traced W) exn A) s,
        span environ name kind parent attrs body s = span environ name kind parent attrs' body s) /\
     (forall h s, @set_attributes environ W h attrs s = set_attributes environ h attrs' s) /\
     (forall h name s, @add_event environ W h name attrs s = add_event environ h name attrs' s)).
Proof.
  intros Hvar Henv Hlive. pose proof (sanitise_one_hidden environ var live Hvar Henv Hlive) as Hone.
  split_and!; intros.
  - by apply span_told.
  - by apply set_attributes_told.
  - by apply add_event_told.
  - by apply failed_told.
  - by apply record_told.
  - match goal with H : Forall2 _ _ _ |- _ => pose proof (same_shape_all environ _ _ H) as E end.
    split_and!; intros; unfold span, set_attributes, add_event; by rewrite E.
Qed.

(** What the span writes on a submission: the header of the span that is current, if
    tracing is on and there is one *)
Definition parked {W} (traceparent_of : nat -> string) (s : Traced W) : option string :=
  match current_traceparent traceparent_of s with Some (String _ _ as t) => Some t | _ => None end.

Section Hop.
Context {W : Type} (traceparent_of : nat -> string) (s : Traced W).

Lemma parking_spec insert job_id now : record_queue_context traceparent_of insert job_id now s =
  match parked traceparent_of s with
  | None => (s, Ok tt)
  | Some t => let (w, r) := insert job_id t (to_iso now) (tr_world s) in
      (mkTraced (tr_enabled s) (tr_calls s) (tr_current s) w,
       match r with Raise e => if is_sqlite_error e then Ok tt else Raise e | Ok _ => Ok tt end)
  end.
Proof.
  unfold record_queue_context, parked, bind, gets, try_catch, on_world.
  destruct (current_traceparent traceparent_of s) as [[|c t]|]; [done| |done].
  destruct (insert job_id (String c t) (to_iso now) (tr_world s)) as [w [[]|e]]; [done|]. by destruct (is_sqlite_error e).
Qed.

Lemma reading_spec select job_id : queue_context select job_id s =
  let (w, r) := select job_id (tr_world s) in
  (mkTraced (tr_enabled s) (tr_calls s) (tr_current s) w,
   match r with Raise e => if is_sqlite_error e then Ok None else Raise e | Ok o => Ok o end).
Proof.
  unfold queue_context, try_catch, on_world. destruct (select job_id (tr_world s)) as [w [o|e]]; [done|].
  by destruct (is_sqlite_error e).
Qed.
End Hop.


(** ** One credential *)

Definition one_secret (var : string) : option string :=
  if String.eqb var "AWS_SECRET_ACCESS_KEY" then Some "wJalrXUtnFEMI/K7MDENG" else None.

Definition secret_command : M (Traced unit) exn unit :=
  span one_secret "queue.enqueue" "producer" None
    [("gpu_type", VStr "a10g"); ("command", VStr "/usr/bin/env KEY=wJalrXUtnFEMI/K7MDENG python train.py");
     ("label", VStr "run hf_abcdefghijkl with wJalrXUtnFEMI/K7MDENG")]
    (fun h => raise (BackendError "denied for wJalrXUtnFEMI/K7MDENG")).

Example redacted_calls :
  tr_calls (fst (secret_command (mkTraced true [] [] tt))) =
  [StartSpan 0 "queue.enqueue" "producer" (Ambient None)
     [("gpu_type", VStr "a10g"); ("command.program", VStr "env"); ("command.length", VInt 54);
      ("label", VStr "run [redacted] with [redacted]")];
   SetStatus 0 "BackendError";
   AddEvent 0 "exception" [("exception.type", VStr "BackendError"); ("exception.message", VStr "denied for [redacted]")];
   EndSpan 0].
Proof. vm_compute. reflexivity. Qed.

Lemma telemetry_hides_witness :
  credential (chars "wJalrXUtnFEMI/K7MDENG") = true /\
  told_only (hidden "wJalrXUtnFEMI/K7MDENG") (fst (secret_command (mkTraced true [] [] tt))).
Proof.
  split; [vm_compute; reflexivity|].
  destruct (@telemetry_hides unit unit one_secret "AWS_SECRET_ACCESS_KEY" "wJalrXUtnFEMI/K7MDENG") as (H & _);
    [by left|reflexivity|vm_compute; reflexivity|].
  assert (Hs : told_only (hidden "wJalrXUtnFEMI/K7MDENG") (mkTraced true [] [] tt)) by constructor.
  pose proof (H "queue.enqueue" "producer" None
    [("gpu_type", VStr "a10g"); ("command", VStr "/usr/bin/env KEY=wJalrXUtnFEMI/K7MDENG python train.py");
     ("label", VStr "run hf_abcdefghijkl with wJalrXUtnFEMI/K7MDENG")]
    (fun h => raise (BackendError "denied for wJalrXUtnFEMI/K7MDENG")) (fun h => keeps_raise _ _) _ Hs) as Hk.
  unfold secret_command. destruct (span _ _ _ _ _ _ _) as [s' [a|e]]; exact Hk.
Defined.

(** A submission parks its context in a table of headers, and its job reads it. *)
Definition park_then_read : option string :=
  let insert job t (at_ : string) (m : gmap string string) : gmap string string * outcome exn unit := (<[job := t]> m, Ok tt) in
  let select job (m : gmap string string) : gmap string string * outcome exn (option string) := (m, Ok (m !! job)) in
  let s := mkTraced true [] [7%nat] ∅ in
  match queue_context select "job-1" (fst (record_queue_context (fun id => "00-" +:+ str_of_Z (Z.of_nat id) +:+ "-01") insert "job-1" 0 s)) with
  | (_, Ok t) => t | _ => None end.


(** The name of the program is cut at its slashes before it is scrubbed: of a
    credential with a slash in it that stands first, the end is shown. *)
Example credential_cut :
  sanitise one_secret [("command", VStr "wJalrXUtnFEMI/K7MDENG")] =
  [("command.program", VStr "K7MDENG"); ("command.length", VInt 21)].
Proof. vm_compute. reflexivity. Qed.

(** The description of a status and the names of spans and events are not attributes,
    and pass unscrubbed. *)
Example status_unscrubbed :
  tr_calls (fst (failed (W := unit) one_secret (Some 0%nat) "no wJalrXUtnFEMI/K7MDENG" [] (mkTraced true [] [] tt))) =
  [SetStatus 0 "no wJalrXUtnFEMI/K7MDENG"; SetAttribute 0 "outcome" (VStr "no [redacted]")].
Proof. vm_compute. reflexivity. Qed.
