(* ===== verification/WebPublic.v ===== *)
(** * web/public.py and web/publicapp.py: the page without sign-in

    [status_of] is what [build] makes of one image of the database, given the
    forecast; [get] is the cache in front of it. *)

From Stdlib Require Import Ascii.
From S2P Require Import Prelude PyFloat PyDecimal PyFormat PySort PyDict Errors Money Clock PyJson PyText States Models Config Tables Store StoreInv StoreSafe Backend Metrics Forecast Report Broker.
Local Open Scope Z_scope.
Local Open Scope py_scope.

Definition WEEK : Z := 7 * us_per_day.
Definition MONTH : Z := 30 * us_per_day.

Record PublicJob := mkPublicJob {
  pj_member : string;
  pj_gpu_type : string;
  pj_state : string;
  pj_where : string;
  pj_hours : float;
  pj_utilization : option float
}.

Record Outcomes := mkOutcomes {
  oc_completed : Z;
  oc_preempted : Z;
  oc_interrupted : Z;
  oc_reclaimed : Z;
  oc_failed : Z
}.

(** [Outcomes.total] *)
Definition oc_total (o : Outcomes) : Z := oc_completed o + oc_preempted o + oc_reclaimed o + oc_failed o.

Record BackendUse := mkBackendUse {
  bu_name : string;
  bu_kind : string;
  bu_jobs : Z;
  bu_hours : float;
  bu_share : float
}.

Record PublicStatus := mkPublicStatus {
  ps_generated_at : Z;
  ps_demo : bool;
  ps_pilot : bool;
  ps_members_all_time : Z;
  ps_members_this_week : Z;
  ps_repeat_members : Z;
  ps_week : Outcomes;
  ps_month : Outcomes;
  ps_jobs_all_time : Z;
  ps_queue_depth : Z;
  ps_running_now : Z;
  ps_running : list PublicJob;
  ps_dollars_spent : Z;
  ps_dollars_reclaimed : Z;
  ps_gpu_hours_used : Z;
  ps_runway_days : option float;
  ps_burn_per_day : Decimal;
  ps_pool_remaining : Decimal;
  ps_runway_confident : bool;
  ps_utilization_7d : list (option float);
  ps_utilization_30d : list (option float);
  ps_queue_7d : list (option float);
  ps_utilization_mean_7d : option float;
  ps_utilization_peak_7d : option float;
  ps_utilization_mean_30d : option float;
  ps_backends : list BackendUse;
  ps_recent : list PublicJob
}.

(** [PublicStatus.quiet] *)
Definition quiet_pool (p : PublicStatus) : bool := ps_jobs_all_time p =? 0.

(** ** Labels *)

(** The loop of [_labels]: a, b, ... z, aa, ab, ... *)
Fixpoint letters_fuel (fuel : nat) (n : Z) (suffix : string) : string :=
  match fuel with
  | O => suffix
  | S fuel =>
      let suffix := String (ascii_of_nat (Z.to_nat (97 + n mod 26))) suffix in
      let n := n / 26 - 1 in
      if n <? 0 then suffix else letters_fuel fuel n suffix
  end.

Definition letters (n : nat) : string := letters_fuel (S n) (Z.of_nat n) "".

(** [sorted(users, key=lambda u: (u.created_at, u.user_id))] *)
Definition by_arrival : User -> User -> bool := lex (on u_created_at Z.ltb) (on u_user_id str_lt).

(** [_labels(store)] *)
Definition public_labels (d : DB) : dict string string :=
  imap (fun i u => (u_user_id u, "user-" +:+ letters i)) (py_sort by_arrival (list_users d)).

(** ** The figures *)

(** [_kind(backend, currency)] *)
Definition kind (backend : option string) (c : Currency) : string :=
  if bool_decide (c = GPU_HOUR) then "local"
  else if starts_with "local" (default "" backend) then "local"
  else "cloud".

(** [_ran_for(job, now)] *)
Definition ran_for (j : Job) (now : Z) : float :=
  match j_started_at j with
  | None => f0
  | Some started => hours_between started (default now (j_finished_at j))
  end.

(** [_outcomes(jobs, since)] *)
Definition outcomes (jobs : list Job) (since : Z) : Outcomes :=
  let recent := List.filter (fun j => since <=? j_submitted_at j) jobs in
  mkOutcomes (count_if (is_state COMPLETED) recent) (count_if (is_state PREEMPTED) recent)
    (count_if (fun j => 0 <? j_preemptions j) recent) (count_if (is_state RECLAIMED) recent)
    (count_if (is_state FAILED) recent).

(** [round(x, n)] *)
Definition round_to (n : nat) (x : float) : float :=
  let '(a, b) := f_ratio x in f_of_dec (round_half_even (a * 10 ^ Z.of_nat n) b) (- Z.of_nat n).

(** [max(xs, default=None)], [sum(xs) / len(xs) if xs else None] *)
Definition f_peak (xs : list float) : option float :=
  match xs with [] => None | x :: xs => Some (fold_left f_max xs x) end.
Definition f_mean (xs : list float) : option float :=
  match xs with [] => None | _ => Some (f_div (f_sum xs) (f_of_Z (Z.of_nat (length xs)))) end.

(** [by_backend.setdefault(key, []).append(_ran_for(job, now))] *)
Definition use_of (now : Z) (m : dict (string * string) (list float)) (j : Job) : dict (string * string) (list float) :=
  match j_backend j with
  | None | Some EmptyString => m
  | Some b => dict_upd (b, kind (Some b) (j_currency j)) [] (fun l => l ++ [ran_for j now]) m
  end.

Definition backend_uses (now : Z) (real : list Job) : list BackendUse :=
  let by_backend := fold_left (use_of now) real [] in
  let sum := f_sum (map (fun p => f_sum (snd p)) by_backend) in
  let total_hours := if f_eq sum f0 then f1 else sum in
  py_sort (on (fun b => f_neg (bu_hours b)) f_ltk)
    (map (fun p => let hours := f_sum (snd p) in
                   mkBackendUse (fst (fst p)) (snd (fst p)) (Z.of_nat (length (snd p))) (round_to 2 hours)
                     (round_to 1 (f_div (f_mul (f_of_Z 100) hours) total_hours))) by_backend).

(** [public_job(job)] *)
Definition public_job (d : DB) (labels : dict string string) (now : Z) (j : Job) : PublicJob :=
  mkPublicJob (default "user-?" (dict_get (j_user_id j) labels)) (j_gpu_type j) (state_str (j_state j))
    (kind (j_backend j) (j_currency j)) (round_to 2 (ran_for j now))
    (f_peak (map smp_gpu_percent (samples_for d (j_job_id j) None 200))).

(** What [build] shows of the database [d]. *)
Definition status_of (d : DB) (t : Z) (f : Forecast) (recent : nat) (buckets : Z) : PublicStatus :=
  let labels := public_labels d in
  let real := List.filter (fun j => negb (is_state REFUSED j)) (list_jobs d None None None) in
  let per_member := jobs_per_user real in
  let spent p := zsum (fun j => job_spend d (j_job_id j)) (List.filter p real) in
  let running := List.filter (fun j => state_in (j_state j) ACTIVE) real in
  let finished := py_sort (on (fun j => default 0 (j_finished_at j)) Z.gtb)
                    (List.filter (fun j => bool_decide (is_Some (j_finished_at j))) real) in
  let origin_is o := forallb (fun j => String.eqb (j_origin j) o) real in
  let any := match real with [] => false | _ => true end in
  let demo := any && origin_is "seeded" in
  let util days := bucketed d UTILIZATION (t - days * us_per_day) t buckets in
  let seen := omap id (util 7) in
  mkPublicStatus t demo
    (negb demo && (origin_is "pilot" || (length per_member <=? 1)%nat) && any)
    (Z.of_nat (length per_member))
    (Z.of_nat (length (remove_dups (map j_user_id (List.filter (fun j => t - WEEK <=? j_submitted_at j) real)))))
    (count_if (fun p => 1 <? snd p) per_member)
    (outcomes real (t - WEEK)) (outcomes real (t - MONTH)) (Z.of_nat (length real))
    (count_if (is_state QUEUED) real) (Z.of_nat (length running))
    (map (public_job d labels t) (firstn recent running))
    (spent is_usd) (zsum (unspent d) (List.filter (fun j => is_state RECLAIMED j && is_usd j) real))
    (spent (fun j => negb (is_usd j)))
    (fc_days_left f) (fc_burn_per_day f) (fc_available f) (confident f)
    (util 7) (util 30) (bucketed d QUEUE_DEPTH (t - WEEK) t buckets)
    (f_mean seen) (f_peak seen) (f_mean (omap id (util 30)))
    (backend_uses t real)
    (map (public_job d labels t) (firstn recent finished)).

Section Build.
Context {W : Type} `{TimeZones} (br : Broker W).

(** [build(broker, recent, buckets)] *)
Definition public_status (recent : nat) (buckets : Z) : M (St W) exn PublicStatus :=
  t <- now;;
  f <- forecast (br_config br) USD;;
  query_ok (fun d => status_of d t f recent buckets).
End Build.

(** ** The cache *)

Record Cache (V : Type) := mkCache { ca_seconds : float; ca_at : option Z; ca_value : option V }.
Arguments mkCache {V}. Arguments ca_seconds {V}. Arguments ca_at {V}. Arguments ca_value {V}.

(** [_Cache.get(produce)] *)
Definition get {V} (c : Cache V) (moment : Z) (produce : outcome exn V) : outcome exn (Cache V * V) :=
  let renew := v <-? produce;; Ok (mkCache (ca_seconds c) (Some moment) (Some v), v) in
  match ca_value c, ca_at c with
  | Some v, Some at_ => if f_lt (total_seconds (moment - at_)) (ca_seconds c) then Ok (c, v) else renew
  | _, _ => renew
  end.

(** [_Cache.clear()] *)
Definition clear {V} (c : Cache V) : Cache V := mkCache (ca_seconds c) None None.

(** * What the public page cannot show

    [disguise] changes everything the module promises to keep back: every name of a
    member and of a job, and it empties commands, handles, reasons, logs, warnings
    and labels.  The page is the same. *)

From S2P Require Import Prelude PyFloat PyDecimal PyFormat PySort PyDict Errors Money Clock PyJson PyText States Models Config Tables Store StoreInv StoreSafe Fixture Backend Metrics Pricing Forecast Report ReportProps Broker.
Local Open Scope Z_scope.
Local Open Scope py_scope.

(** ** Lists under a map *)

Lemma filter_map {A B} (p : B -> bool) (q : A -> bool) (h : A -> B) l : (forall x, p (h x) = q x) ->
  List.filter p (map h l) = map h (List.filter q l).
Proof. intros E. induction l as [|x l IH]; [done|]. cbn. rewrite E, IH. by destruct (q x). Qed.

Lemma count_if_map {A B} (p : B -> bool) (q : A -> bool) (h : A -> B) l : (forall x, p (h x) = q x) ->
  count_if p (map h l) = count_if q l.
Proof. intros E. unfold count_if. by rewrite (filter_map p q h l E), length_map. Qed.

Lemma zsum_over_map {A B} (f : B -> Z) (g : A -> Z) (h : A -> B) l : (forall x, f (h x) = g x) -> zsum f (map h l) = zsum g l.
Proof. intros E. induction l as [|x l IH]; [done|]. cbn [map]. by rewrite !zsum_cons, E, IH. Qed.

Lemma forallb_over_map {A B} (p : B -> bool) (q : A -> bool) (h : A -> B) l : (forall x, p (h x) = q x) ->
  forallb p (map h l) = forallb q l.
Proof. intros E. induction l as [|x l IH]; [done|]. cbn. by rewrite E, IH. Qed.

Lemma fold_over_map {A B C} (s : C -> B -> C) (s' : C -> A -> C) (h : A -> B) c l : (forall c x, s c (h x) = s' c x) ->
  fold_left s (map h l) c = fold_left s' l c.
Proof. intros E. revert c. induction l as [|x l IH]; intros c; [done|]. cbn. by rewrite E, IH. Qed.

Lemma remove_dups_inj {A} `{EqDecision A} (f : A -> A) `{!Inj (=) (=) f} l :
  length (remove_dups (map f l)) = length (remove_dups l).
Proof.
  induction l as [|x l IH]; [done|]. cbn. destruct (decide_rel (∈) (f x) (map f l)) as [H1|H1], (decide_rel (∈) x l) as [H2|H2]; cbn; [done| | |by rewrite IH].
  - exfalso. apply H2. apply list_elem_of_fmap in H1 as (y & E%(inj f) & Hy). by subst.
  - exfalso. apply H1. by apply list_elem_of_fmap_2.
Qed.

Lemma omap_ext_id {A} (l l' : list (option A)) : l = l' -> omap id l = omap id l'.
Proof. by intros ->. Qed.

(** ** The disguise *)

Section Blind.
Context (f g : string -> string).

Definition hide_job (j : Job) : Job :=
  {| j with j_job_id := g (j_job_id j); j_user_id := f (j_user_id j); j_command := ""; j_backend_handle := None;
            j_requested_hours := f0; j_exit_code := None; j_refusal_reason := None; j_logs_fetched := O;
            j_pinned_tier := None; j_checkpoint_key := None; j_environment := None; j_cancel_requested := None |}.

Definition hide_user (u : User) : User :=
  mkUser (f (u_user_id u)) "" dzero dzero false (u_created_at u) None "" "".

Definition hide_entry (e : LedgerEntry) : LedgerEntry :=
  {| e with le_job_id := g <$> le_job_id e; le_user_id := f <$> le_user_id e; le_note := None; le_resource_handle := None |}.

Definition hide_sample (p : string * Sample) : string * Sample :=
  let s := snd p in (g (fst p), {| s with smp_memory_mb := 0; smp_source := "" |}).

Definition hide_metric (m : MetricRow) : MetricRow := {| m with m_labels := "{}" |}.

Definition disguise (d : DB) : DB := {|
  users := kmap f (hide_user <$> users d);
  jobs := kmap g (hide_job <$> jobs d);
  job_transitions := [];
  ledger := map hide_entry (ledger d);
  job_logs := [];
  host_drains := ∅;
  prices := prices d;
  gpu_samples := map hide_sample (gpu_samples d);
  notifications := [];
  environments := ∅;
  environment_builds := ∅;
  baseline := ∅;
  metrics := map hide_metric (metrics d);
  schedule_observations := []
|}.

(** The names keep their alphabetical order, which breaks ties. *)
Context (Hf : forall a b, str_lt (f a) (f b) = str_lt a b) (Hg : forall a b, str_lt (g a) (g b) = str_lt a b).

#[local] Instance f_inj : Inj (=) (=) f := keeps_order_inj f Hf.
#[local] Instance g_inj : Inj (=) (=) g := keeps_order_inj g Hg.

Lemma job_spend_hidden d id : job_spend (disguise d) (g id) = job_spend d id.
Proof.
  unfold job_spend, aggregate. f_equal. cbn. rewrite (filter_map _ (of_job id)).
  - apply fold_over_map. by intros [] e.
  - intros e. unfold of_job. cbn. destruct (le_job_id e) as [i|]; cbn; [|by rewrite !bool_decide_false].
    apply bool_decide_ext. split; [|by intros [= ->]]. intros [= E%g_inj]. by subst.
Qed.

Lemma job_holding_hidden d id c : job_holding (disguise d) (g id) c = job_holding d id c.
Proof.
  unfold job_holding, aggregate. f_equal. cbn. rewrite (filter_map _ (fun e => of_job id e && in_currency c e)).
  - apply fold_over_map. by intros [] e.
  - intros e. unfold of_job, in_currency. cbn. f_equal. destruct (le_job_id e) as [i|]; cbn; [|by rewrite !bool_decide_false].
    apply bool_decide_ext. split; [|by intros [= ->]]. intros [= E%g_inj]. by subst.
Qed.

Lemma samples_hidden d id n : map smp_gpu_percent (samples_for (disguise d) (g id) None n)
  = map smp_gpu_percent (samples_for d id None n).
Proof.
  unfold samples_for, samples_of. cbn [disguise gpu_samples].
  set (all := fun _ : Sample => true). change (fun s : Sample => _) with all.
  assert (Hall : forall l, List.filter all l = l) by (intros l; apply List.filter_true). rewrite !Hall.
  rewrite (filter_map (fun r => String.eqb (fst r) (g id)) (fun r => String.eqb (fst r) id)).
  - rewrite !length_map, !skipn_map, !map_map. apply map_ext. by intros [].
  - intros [i smp]. cbn. destruct (String.eqb_spec i id) as [->|Hne]; [apply String.eqb_refl|].
    apply String.eqb_neq. by intros E%g_inj.
Qed.

(** ** Rows in order *)

Lemma kmap_rows {A B} (h : string -> string) `{!Inj (=) (=) h} (k : A -> B) (m : gmap string A) :
  Permutation (map snd (map_to_list (kmap (M2 := gmap string) h (k <$> m)))) (map k (map snd (map_to_list m))).
Proof.
  rewrite map_to_list_kmap, map_to_list_fmap by done. rewrite !map_map.
  induction (map_to_list m) as [|[a b] l IH]; cbn; [done|]. by constructor.
Qed.

Context (d : DB) (Hd : db_ok d).

Lemma jobs_hidden states : list_jobs (disguise d) None states None = map hide_job (list_jobs d None states None).
Proof.
  unfold list_jobs. set (p := fun j : Job => _ && _).
  assert (E : py_sort job_order (List.filter p (all_jobs (disguise d))) = map hide_job (py_sort job_order (List.filter p (all_jobs d)))).
  2: { destruct states as [[|s states]|]; [done|exact E|exact E]. }
  rewrite <- (py_sort_map job_order job_order).
  2: { intros a b _ _. unfold job_order, lex, on. cbn. by rewrite !Hg. }
  rewrite <- (filter_map p p hide_job) by done.
  apply py_sort_perm_eq.
  - apply _.
  - intros a b Ha Hb. unfold sort_le. intros H1 H2.
    assert (Hrow : forall x, x ∈ List.filter p (all_jobs (disguise d)) ->
              exists y, x = hide_job y /\ jobs d !! j_job_id y = Some y).
    { intros x [Hx _]%list_elem_of_In%filter_In. apply list_elem_of_In in Hx. unfold all_jobs in Hx. cbn in Hx.
      rewrite (kmap_rows g hide_job (jobs d)) in Hx. apply list_elem_of_fmap in Hx as (y & -> & Hy). exists y. split; [done|].
      apply list_elem_of_fmap in Hy as ([i y'] & -> & Hy%elem_of_map_to_list). cbn.
      by rewrite (jo_id _ _ _ (ok_jobs _ Hd _ _ Hy)). }
    destruct (Hrow a Ha) as (a' & -> & Ha'), (Hrow b Hb) as (b' & -> & Hb'). f_equal.
    unfold job_order, lex, on in H1, H2. cbn in H1, H2.
    destruct (j_submitted_at b' <? j_submitted_at a') eqn:E1, (j_submitted_at a' <? j_submitted_at b') eqn:E2; try done.
    rewrite Hg in H1, H2. pose proof (str_lt_total _ _ H1 H2) as E. congruence.
  - assert (HP : Permutation (all_jobs (disguise d)) (map hide_job (all_jobs d))) by apply (kmap_rows g hide_job).
    revert HP. generalize (all_jobs (disguise d)), (map hide_job (all_jobs d)). intros l1 l2 HP.
    clearbody p. induction HP as [|x l1 l2 _ IH|x y l|l1 l2 l3 _ IH1 _ IH2]; cbn [List.filter]; [done| | |by etransitivity].
    + destruct (p x); [by apply perm_skip|done].
    + destruct (p x), (p y); try reflexivity. apply perm_swap.
Qed.

Lemma users_hidden : py_sort by_arrival (list_users (disguise d)) = map hide_user (py_sort by_arrival (list_users d)).
Proof.
  rewrite <- (py_sort_map by_arrival by_arrival).
  2: { intros a b _ _. unfold by_arrival, lex, on. cbn. by rewrite !Hf. }
  assert (Hp : forall d, Permutation (list_users d) (map snd (map_to_list (users d)))).
  { intros d0. unfold list_users, by_key. by rewrite (py_sort_perm (on fst str_lt)). }
  apply py_sort_perm_eq.
  - apply _.
  - intros a b Ha Hb. unfold sort_le. intros H1 H2.
    assert (Hrow : forall x, x ∈ list_users (disguise d) -> exists y, x = hide_user y /\ users d !! u_user_id y = Some y).
    { intros x Hx. rewrite (Hp (disguise d)) in Hx. cbn in Hx. rewrite (kmap_rows f hide_user (users d)) in Hx.
      apply list_elem_of_fmap in Hx as (y & -> & Hy). exists y. split; [done|].
      apply list_elem_of_fmap in Hy as ([i y'] & -> & Hy%elem_of_map_to_list). cbn. by rewrite (ok_users _ Hd _ _ Hy). }
    destruct (Hrow a Ha) as (a' & -> & Ha'), (Hrow b Hb) as (b' & -> & Hb'). f_equal.
    unfold by_arrival, lex, on in H1, H2. cbn in H1, H2.
    destruct (u_created_at b' <? u_created_at a') eqn:E1, (u_created_at a' <? u_created_at b') eqn:E2; try done.
    rewrite Hf in H1, H2. pose proof (str_lt_total _ _ H1 H2) as E. congruence.
  - rewrite (Hp (disguise d)), (Hp d). apply (kmap_rows f hide_user).
Qed.

(** ** Dicts keyed by member *)

Definition renamed {V} (p : string * V) : string * V := (f (fst p), snd p).

Lemma dict_get_renamed {V} (m : dict string V) k : dict_get (f k) (map renamed m) = dict_get k m.
Proof.
  induction m as [|[k' v] m IH]; [done|]. cbn. destruct (decide (f k' = f k)) as [E|E], (decide (k' = k)) as [E'|E']; try done.
  - by apply (inj f) in E.
  - by subst.
Qed.

Lemma dict_set_renamed {V} (m : dict string V) k v : dict_set (f k) v (map renamed m) = map renamed (dict_set k v m).
Proof.
  induction m as [|[k' v'] m IH]; [done|]. cbn. destruct (decide (f k' = f k)) as [E|E], (decide (k' = k)) as [E'|E']; try done.
  - by apply (inj f) in E.
  - by subst.
  - by rewrite IH.
Qed.

Lemma labels_hidden : public_labels (disguise d) = map renamed (public_labels d).
Proof.
  unfold public_labels. rewrite users_hidden. generalize (py_sort by_arrival (list_users d)) as us. intros us.
  change (map hide_user us) with (hide_user <$> us). change (map (@renamed string)) with (fmap (M := list) (@renamed string)).
  rewrite imap_fmap, fmap_imap. reflexivity.
Qed.

Lemma per_user_hidden jobs : jobs_per_user (map hide_job jobs) = map renamed (jobs_per_user jobs).
Proof.
  unfold jobs_per_user. change (@nil (string * Z)) with (map (@renamed Z) []) at 1. generalize (@nil (string * Z)) as m.
  induction jobs as [|j jobs IH]; intros m; [done|]. cbn [map fold_left].
  change (is_state REFUSED (hide_job j)) with (is_state REFUSED j). destruct (is_state REFUSED j); [apply IH|].
  unfold dict_upd at 2 4. change (j_user_id (hide_job j)) with (f (j_user_id j)).
  rewrite dict_get_renamed, dict_set_renamed. apply IH.
Qed.

(** ** The figures *)

Lemma bucketed_hidden name since until buckets : bucketed (disguise d) name since until buckets = bucketed d name since until buckets.
Proof.
  unfold bucketed. destruct (f_le _ f0 || (buckets <? 1)); [done|]. f_equal. unfold series. cbn [disguise metrics].
  set (p := fun r : MetricRow => _ && _ && _). rewrite (filter_map p p hide_metric) by done. rewrite map_map.
  rewrite (fold_over_map _ (fun acc r => bucket_add since (total_seconds (until - since)) buckets acc (point_of r))
    (fun r => point_of (hide_metric r))) by done. symmetry. by apply fold_over_map.
Qed.

Lemma public_job_hidden t j : public_job (disguise d) (public_labels (disguise d)) t (hide_job j) = public_job d (public_labels d) t j.
Proof.
  unfold public_job. rewrite labels_hidden. change (j_user_id (hide_job j)) with (f (j_user_id j)).
  change (j_job_id (hide_job j)) with (g (j_job_id j)). by rewrite dict_get_renamed, samples_hidden.
Qed.

Lemma public_jobs_hidden t jobs n :
  map (public_job (disguise d) (public_labels (disguise d)) t) (firstn n (map hide_job jobs))
  = map (public_job d (public_labels d) t) (firstn n jobs).
Proof. rewrite firstn_map, map_map. apply map_ext. intros j. apply public_job_hidden. Qed.

Lemma outcomes_hidden jobs since : outcomes (map hide_job jobs) since = outcomes jobs since.
Proof.
  unfold outcomes. rewrite (filter_map _ (fun j => since <=? j_submitted_at j) hide_job) by done. f_equal; by apply count_if_map.
Qed.

Lemma uses_hidden t jobs : backend_uses t (map hide_job jobs) = backend_uses t jobs.
Proof. unfold backend_uses. by rewrite (fold_over_map (use_of t) (use_of t) hide_job). Qed.

Lemma spent_hidden p q jobs : (forall j, p (hide_job j) = q j) ->
  zsum (fun j => job_spend (disguise d) (j_job_id j)) (List.filter p (map hide_job jobs))
  = zsum (fun j => job_spend d (j_job_id j)) (List.filter q jobs).
Proof. intros E. rewrite (filter_map p q hide_job jobs E). apply zsum_over_map. intros j. apply job_spend_hidden. Qed.

Lemma unspent_hidden jobs :
  zsum (unspent (disguise d)) (List.filter (fun j => is_state RECLAIMED j && is_usd j) (map hide_job jobs))
  = zsum (unspent d) (List.filter (fun j => is_state RECLAIMED j && is_usd j) jobs).
Proof.
  rewrite (filter_map _ (fun j => is_state RECLAIMED j && is_usd j) hide_job) by done. apply zsum_over_map. intros j.
  unfold unspent. change (j_job_id (hide_job j)) with (g (j_job_id j)). by rewrite job_spend_hidden.
Qed.

Lemma members_hidden p q jobs : (forall j, p (hide_job j) = q j) ->
  length (remove_dups (map j_user_id (List.filter p (map hide_job jobs)))) = length (remove_dups (map j_user_id (List.filter q jobs))).
Proof.
  intros E. rewrite (filter_map p q hide_job jobs E), map_map.
  rewrite <- (remove_dups_inj f (map j_user_id (List.filter q jobs))), map_map. done.
Qed.

Lemma status_hidden t fc recent buckets : status_of (disguise d) t fc recent buckets = status_of d t fc recent buckets.
Proof.
  unfold status_of. cbv zeta. rewrite jobs_hidden, (filter_map _ (fun j => negb (is_state REFUSED j)) hide_job) by done.
  set (real := List.filter (fun j => negb (is_state REFUSED j)) (list_jobs d None None None)).
  rewrite !bucketed_hidden, !outcomes_hidden, uses_hidden, per_user_hidden, unspent_hidden, !length_map.
  rewrite (spent_hidden is_usd is_usd), (spent_hidden (fun j => negb (is_usd j)) (fun j => negb (is_usd j))) by done.
  rewrite (members_hidden _ (fun j => t - WEEK <=? j_submitted_at j)) by done.
  rewrite !(forallb_over_map _ (fun j => String.eqb (j_origin j) _) hide_job) by done.
  rewrite (count_if_map _ (fun p : string * Z => 1 <? snd p) renamed), (count_if_map (is_state QUEUED) (is_state QUEUED)) by done.
  rewrite (filter_map (fun j => state_in (j_state j) ACTIVE) (fun j => state_in (j_state j) ACTIVE) hide_job) by done.
  rewrite (filter_map (fun j => bool_decide (is_Some (j_finished_at j))) (fun j => bool_decide (is_Some (j_finished_at j))) hide_job) by done.
  rewrite (py_sort_map (on (fun j => default 0 (j_finished_at j)) Z.gtb) _ hide_job) by done.
  rewrite !public_jobs_hidden, length_map. destruct real; reflexivity.
Qed.
End Blind.

Section Page.
Context {W : Type} `{TimeZones} (f g : string -> string).
Context (Hf : forall a b, str_lt (f a) (f b) = str_lt a b) (Hg : forall a b, str_lt (g a) (g b) = str_lt a b).

(** The same broker over the disguised database. *)
Definition veil (s : St W) : St W := {| s with db := disguise f g (db s) |}.

Lemma aggregate_hidden d p q : (forall e, p (hide_entry f g e) = q e) ->
  aggregate p (ledger (disguise f g d)) = aggregate q (ledger d).
Proof.
  intros E. unfold aggregate. cbn [disguise ledger]. rewrite (filter_map p q _ _ E). apply fold_over_map. by intros [] e.
Qed.

Lemma settlements_hidden d cutoff c :
  settlements_since (disguise f g d) cutoff c
  = map (fun r => (f <$> fst (fst r), snd (fst r), snd r)) (settlements_since d cutoff c).
Proof.
  unfold settlements_since. cbn [disguise ledger].
  rewrite (filter_map _ (fun e => of_kind SETTLE e && in_currency c e && (cutoff <=? le_at e)) (hide_entry f g)) by done.
  rewrite (py_sort_map (on le_at Z.ltb) _ (hide_entry f g)), !map_map by done. reflexivity.
Qed.

Lemma holds_hidden d c : db_ok d -> active_holds (disguise f g d) c = active_holds d c.
Proof.
  intros Hd. unfold active_holds, active_jobs. rewrite (jobs_hidden f g Hg d Hd). apply zsum_over_map. intros j.
  change (j_currency (hide_job f g j)) with (j_currency j). change (j_job_id (hide_job f g j)) with (g (j_job_id j)).
  by rewrite (job_holding_hidden f g Hg).
Qed.

Lemma forecast_hidden config c s : db_ok (db s) ->
  forecast config c (veil s) = (veil s, snd (forecast config c s)).
Proof.
  intros Hd. unfold forecast, pool_balance, pool_committed, period_now, bind, now, gets, query_ok, lift_outcome, ret, veil.
  cbn [db clock]. rewrite settlements_hidden.
  rewrite (zsum_over_map _ (fun s : option string * Z * Z => snd (fst s))) by done.
  assert (Ho : forall l, observed_days (clock s) (map (fun r : option string * Z * Z => (f <$> fst (fst r), snd (fst r), snd r)) l)
                       = observed_days (clock s) l) by (intros l; unfold observed_days; by rewrite map_map).
  rewrite Ho. destruct (burn_rate _ _) as [burn|e]; [|done].
  rewrite !(aggregate_hidden (db s) (fun e => in_currency c e && in_period _ e) (fun e => in_currency c e && in_period _ e)) by done.
  rewrite (holds_hidden (db s) c Hd). destruct (runway _ _ _ _) as [[[level days] dry]|e]; reflexivity.
Qed.

(** C13: the public page is blind to what it must keep back.  Rename every member
    and every job, by renamings that keep the alphabetical order, and empty every
    command, handle, reason, display name, budget, log line, warning and label: the
    page, or the error in its place, is exactly the same.  The order is needed:
    members who came at the same moment are lettered in the order of their names, and
    jobs of one moment are listed in the order of theirs, so another renaming may
    swap them. *)
Theorem public_page_blind (br : Broker W) recent buckets s : sound s ->
  snd (public_status br recent buckets (veil s)) = snd (public_status br recent buckets s).
Proof.
  intros Hs%so_db. unfold public_status, bind, now, gets. cbn [veil clock].
  rewrite forecast_hidden by done. pose proof (reads_forecast (W := W) (br_config br) USD s) as Hr.
  destruct (forecast (br_config br) USD s) as [s' [fc|e]]; cbn in Hr |- *; [|done]. subst s'.
  unfold query_ok. cbn. by rewrite (status_hidden f g Hf Hg (db s) Hs).
Qed.
End Page.

(** A disguise: every name behind a mask. *)
Definition masked (s : string) : string := "m-" +:+ s.

Lemma masked_order a b : str_lt (masked a) (masked b) = str_lt a b.
Proof. reflexivity. Qed.

Definition plain_broker : Broker unit :=
  mkBroker default_config (new_book default_config (mkAwsPrices ∅ "us-west-2") noon) [] None.

Lemma public_page_blind_witness :
  sound (with_job tt) /\
  jobs (db (veil masked masked (with_job tt))) !! "m-job-1" <> None /\
  snd (public_status (plain_broker) 5 24 (veil masked masked (with_job tt)))
  = snd (public_status (plain_broker) 5 24 (with_job tt)).
Proof.
  split; [exact (sound_with_job tt)|]. split; [by vm_compute|].
  exact (public_page_blind masked masked masked_order masked_order _ 5 24 _ (sound_with_job tt)).
Defined.
