(* ===== verification/WebApp.v ===== *)
(** * web/app.py: the pages

    A request is its cookies and one [Action], the route with its parameters; the
    answer is a [Response], whose body is the template and the values it is given
    (the templates themselves are HTML).  [respond] is a whole request: the handler
    over a broker opened for it without any backend, then the exception handlers; an
    exception they do not catch is the server's 500.  The tracing middleware, the
    static files and the check of a form's fields by FastAPI are left out; an amount
    typed in a form is a finite number or refused as no number. *)

From Stdlib Require Import Ascii.
From S2P Require Import Prelude PyFloat PyDecimal PyFormat PySort PyDict Errors Money Clock PyJson PyText Checkpoint States Models Config Tables Store StoreInv StoreSafe Admission FairShare Backend Hosts Placement Idle Metrics PriceList Pricing Forecast Report Scheduler Broker Digest WebAuth.
Local Open Scope Z_scope.
Local Open Scope py_scope.

(** ** The helpers of the templates *)

(** [_ago(moment)], at the moment [t] *)
Definition ago (t : Z) (moment : option Z) : string :=
  match moment with
  | None => "-"
  | Some m =>
      let seconds := total_seconds (t - m) in
      let in_unit n u := f_fixed 0 (f_div seconds (f_of_Z n)) +:+ u +:+ " ago" in
      if f_lt seconds (f_of_Z 90) then "just now"
      else if f_lt seconds (f_of_Z 5400) then in_unit 60 "m"
      else if f_lt seconds (f_of_Z 172800) then in_unit 3600 "h"
      else in_unit 86400 "d"
  end.

(** [_duration(hours)] *)
Definition duration (hours : option float) : string :=
  match hours with
  | None => "-"
  | Some h => if f_eq h f0 then "-"
              else if f_lt h f1 then f_fixed 0 (f_mul h (f_of_Z 60)) +:+ "m"
              else f_fixed 1 h +:+ "h"
  end.

(** [_sse(event, payload)] *)
Definition sse (event : string) (payload : json) : string :=
  "event: " +:+ event +:+ newline +:+ "data: " +:+ dumps default_style payload +:+ newline +:+ newline.

(** [_recent_utilization], [_peak_utilization] *)
Definition mean_percent (xs : list float) : option float :=
  match xs with [] => None | _ => Some (f_div (f_sum xs) (f_of_Z (Z.of_nat (length xs)))) end.
Definition max_percent (xs : list float) : option float :=
  match xs with [] => None | x :: xs => Some (fold_left f_max xs x) end.

Definition recent_utilization (d : DB) (job_id : string) : option float :=
  mean_percent (map smp_gpu_percent (samples_for d job_id None 5)).
Definition peak_utilization (d : DB) (job_id : string) : option float :=
  max_percent (map smp_gpu_percent (samples_for d job_id None 500)).

(** ** The sparkline *)

(** The runs of values between gaps, each with its points. *)
Fixpoint segments {A} (point : Z -> float -> A) (index : Z) (current : list A) (values : list (option float))
  : list (list A) :=
  let flush := match current with [] => [] | _ => [current] end in
  match values with
  | [] => flush
  | None :: vs => flush ++ segments point (index + 1) [] vs
  | Some v :: vs => segments point (index + 1) (current ++ [point index v]) vs
  end.

Definition quoted (s : string) : string := String quote_char (s +:+ String quote_char "").

Definition svg_attr (name value : string) : string := " " +:+ name +:+ "=" +:+ quoted value.

(** The mark of a run: a line, or a dot for a run of one. *)
Definition mark (points : list (string * string)) : string :=
  match points with
  | [(x, y)] => "<circle" +:+ svg_attr "cx" x +:+ svg_attr "cy" y +:+ svg_attr "r" "1.6" +:+ svg_attr "fill" "currentColor" +:+ "/>"
  | _ => "<polyline" +:+ svg_attr "points" (str_join " " (map (fun p => fst p +:+ "," +:+ snd p) points))
         +:+ svg_attr "fill" "none" +:+ svg_attr "stroke" "currentColor" +:+ svg_attr "stroke-width" "1.5"
         +:+ svg_attr "stroke-linejoin" "round" +:+ svg_attr "stroke-linecap" "round" +:+ "/>"
  end.

(** [max(max(points), 1.0)] when no ceiling is given *)
Definition top_of (ceiling : option float) (points : list float) : float :=
  match ceiling, max_percent points with
  | Some c, _ => c
  | None, Some m => f_max m f1
  | None, None => f1
  end.

(** The height of a value: [height - (min(value, top) / top) * (height - 2) - 1] *)
Definition y_of (height : Z) (top v : float) : float :=
  f_sub (f_sub (f_of_Z height) (f_mul (f_div (f_min v top) top) (f_of_Z (height - 2)))) f1.

(** [_sparkline(values, height, ceiling)]; a ceiling is not zero *)
Definition sparkline (values : list (option float)) (height : Z) (ceiling : option float) : string :=
  let points := omap id values in
  match points with
  | [] => ""
  | _ =>
      let top := top_of ceiling points in
      let n := Z.of_nat (length values) in
      let width := Z.max (n * 6) 60 in
      let step := f_div (f_of_Z width) (f_of_Z (Z.max (n - 1) 1)) in
      let at_ i v := (f_fixed 1 (f_mul (f_of_Z i) step), f_fixed 1 (y_of height top v)) in
      "<svg" +:+ svg_attr "viewBox" ("0 0 " +:+ str_of_Z width +:+ " " +:+ str_of_Z height)
      +:+ svg_attr "preserveAspectRatio" "none" +:+ svg_attr "width" "100%" +:+ svg_attr "height" (str_of_Z height)
      +:+ svg_attr "role" "img" +:+ ">" +:+ String.concat "" (map mark (segments at_ 0 [] values)) +:+ "</svg>"
  end.

Example sparkline_gap :
  segments (fun i _ => i) 0 [] [Some f0; Some f0; None; Some f0; None; None] = [[0; 1]; [3]].
Proof. reflexivity. Qed.

(** ** Requests and answers *)

Record Request := mkRequest {
  rq_session : option string;
  rq_state : option string;
  rq_authorization : string
}.

(** What was typed in the form of a submission. *)
Record SubmitForm := mkSubmitForm {
  sf_command : string;
  sf_gpu : string;
  sf_hours : float;
  sf_budget : string;
  sf_environment : string
}.

Inductive Action : Type :=
| GetLogin (new_state : string)
| GetCallback (code state : string)
| GetLogout
| GetDashboard
| GetJobs (everyone : bool)
| GetJob (job_id : string)
| PostCancel (job_id : string)
| GetSubmit
| PostSubmit (form : SubmitForm) (new_job_id : string)
| GetAdmin
| PostBudget (user_id usd gpu_hours : string)
| PostDrain (hostname reason undrain : string)
| GetMetrics
| GetReport (days : float)
| GetHealth.

(** A job in a list, with what it spent and how it used its GPU. *)
Record JobRow := mkJobRow {
  jr_job : Job;
  jr_elapsed : option float;
  jr_spent : Z;
  jr_utilization : option float
}.

Record DashboardPage := mkDashboardPage {
  dp_utilization_series : list (option float);
  dp_queue_series : list (option float);
  dp_holders : list JobRow;
  dp_queue : list (Job * Priority);
  dp_queue_depth : Z;
  dp_forecasts : list Forecast;
  dp_idle : list IdleVerdict;
  dp_hosts : list HostHealth;
  dp_my_balances : list (Currency * Balance)
}.

Record JobPage := mkJobPage {
  jp_job : Job;
  jp_spent : Z;
  jp_history : list TransitionRow;
  jp_logs : list (Z * LogRow);
  jp_samples : list Sample;
  jp_peak : option float;
  jp_notices : list Notification;
  jp_mine : bool
}.

(** The form, with the error or the refusal it is shown again for. *)
Record SubmitPage := mkSubmitPage {
  sp_error : option string;
  sp_refusal : option string;
  sp_gpus : list GpuType;
  sp_prices : list (string * Price);
  sp_balances : list (Currency * Balance);
  sp_allowance : float;
  sp_environments : list Environment;
  sp_form : option SubmitForm
}.

Record AdminPage := mkAdminPage {
  ap_users : list (User * list (Currency * Balance));
  ap_hosts : list HostHealth;
  ap_pool : list (Currency * Balance)
}.

Inductive Template : Type :=
| ErrorHtml (code : Z) (message : string)
| DashboardHtml (p : DashboardPage)
| JobsHtml (rows : list JobRow) (everyone : bool)
| JobHtml (p : JobPage)
| SubmitHtml (p : SubmitPage)
| AdminHtml (p : AdminPage)
| ReportHtml (body : string) (days : float).

Inductive Body : Type :=
| Nothing
| PlainText (text : string)
| Healthy
| Html (viewer : option Identity) (is_admin : bool) (t : Template).

Record Response := mkResponse {
  rs_status : Z;
  rs_location : option string;
  rs_set_cookies : list (string * string * Z);
  rs_delete_cookies : list string;
  rs_body : Body
}.

(** [RedirectResponse(location, status_code=303)] *)
Definition redirect (location : string) : Response := mkResponse 303 (Some location) [] [] Nothing.

Definition plain (code : Z) (text : string) : Response := mkResponse code None [] [] (PlainText text).

(** [s.lstrip("$")] *)
Fixpoint lstrip_dollars (s : string) : string :=
  match s with String c s' => if Ascii.eqb c "$" then lstrip_dollars s' else s | EmptyString => "" end.

(** [Decimal(text) if given.strip() else None] *)
Definition typed_amount (text given : string) : outcome exn (option Decimal) :=
  if non_empty (strip given) then
    v <-? of_option (decimal_text text) (ArithmeticError "[<class 'decimal.ConversionSyntax'>]");; Ok (Some v)
  else Ok None.

(** [except (BrokerError, ArithmeticError)] *)
Definition is_user_error (e : exn) : bool :=
  is_broker_error e || match e with ArithmeticError _ | OverflowError _ => true | _ => false end.

(** [s or None] *)
Definition or_none (s : string) : option string := if non_empty s then Some s else None.

(** The suffix [l[-n:]] *)
Definition last_rows {A} (n : nat) (l : list A) : list A := skipn (length l - n) l.

(** ** The application *)

Section App.
Context {W : Type} `{TimeZones} (pow : pow_fun).
Context (config : BrokerConfig) (aws : AwsPrices) (checkpoints : option (string -> method W (option CheckpointRef))).
Context (environ : string -> option string) (read_file : string -> option string).
Context (web : WebConfig) (sg : Signer) (provider : IdentityProvider W).

Local Abbreviation M := (M (St W) exn).

(** [open_broker(config)] of this module: no backends *)
Definition open_web : M (Broker W) := open_broker config aws [] checkpoints.

(** Who the session cookie says is asking. *)
Definition session_of (rq : Request) : M (option Identity) :=
  t <- now;; ret (read_session sg (t / us_per_second) (wc_session_max_age_seconds web) (rq_session rq)).

Definition officer (i : Identity) : bool := WebAuth.is_admin web (id_login i).

(** [page(request, name, status_code, ...)] *)
Definition page (rq : Request) (code : Z) (t : Template) : M Response :=
  who <- session_of rq;;
  ret (mkResponse code None [] [] (Html who (match who with Some i => officer i | None => false end) t)).

(** [_revocation(state, broker, login)] *)
Definition suspension (login : string) (u : option User) : string :=
  match u with
  | Some u => if is_suspended u then
                login +:+ " is suspended from the pool ("
                +:+ (if non_empty (u_suspended_reason u) then u_suspended_reason u else "no reason recorded")
                +:+ "). Ask an officer"
              else ""
  | None => ""
  end.

Definition revocation (login : string) : M string :=
  match recheck read_file web login with
  | Raise e => ret (exn_str e)
  | Ok _ => query_ok (fun d => suspension login (maybe_user d login))
  end.

(** [viewer(request, broker)] *)
Definition viewer (rq : Request) : M Identity :=
  who <- session_of rq;;
  match who with
  | None => raise (HTTPException 401 "sign in")
  | Some me =>
      refusal <- revocation (id_login me);;
      if non_empty refusal then raise (HTTPException 403 refusal) else ret me
  end.

(** ** Signing in *)

(** [login(request)] *)
Definition get_login (new_state : string) : Response :=
  let r := redirect (authorize_url provider new_state) in
  {| r with rs_set_cookies := [(STATE_COOKIE, new_state, 600)] |}.

(** The account of a first sign-in. *)
Definition first_sign_in (i : Identity) : M unit :=
  br <- open_web;;
  known <- query_ok (fun d => maybe_user d (id_login i));;
  match known with
  | Some _ => ret tt
  | None => add_user br (id_login i) None false (Some (display i)) None None None;;; ret tt
  end.

(** [exchange(code)], then [membership.check] *)
Definition identify (code : string) : M Identity :=
  r <- call (fun _ => exchange provider code);;
  lift_outcome (check read_file web (fst r) (snd r));;;
  ret (fst r).

Definition is_auth_error (e : exn) : bool := match e with AuthError _ => true | _ => false end.

(** [callback(request, code, state)] *)
Definition get_callback (rq : Request) (code state : string) : M Response :=
  let expected := default "" (rq_state rq) in
  if negb (non_empty expected) || negb (String.eqb state expected) then
    page rq 400 (ErrorHtml 400 "that sign-in link has expired or was not started here. Try again.")
  else
    r <- attempt (identify code) is_auth_error;;
    match r with
    | inl e => page rq 403 (ErrorHtml 403 (exn_str e))
    | inr i =>
        first_sign_in i;;;
        t <- now;;
        ret (mkResponse 303 (Some "/")
               [(SESSION_COOKIE, issue sg (t / us_per_second) i, wc_session_max_age_seconds web)] [STATE_COOKIE] Nothing)
    end.

(** [logout()] *)
Definition get_logout : Response := mkResponse 303 (Some "/auth/login") [] [SESSION_COOKIE] Nothing.

(** ** What a member may read *)

Section Member.
Context (br : Broker W) (rq : Request) (me : Identity).

(** [dashboard(request, me, broker)] *)
Definition get_dashboard : M Response :=
  t <- now;;
  holders <- who;;
  let since := t - us_per_day in
  utilization <- query_ok (fun d => bucketed d UTILIZATION since t 48);;
  depth <- query_ok (fun d => bucketed d QUEUE_DEPTH since t 48);;
  rows <- query_ok (fun d => map (fun j => mkJobRow j (Some (elapsed_hours j t)) (job_spend d (j_job_id j))
                                             (recent_utilization d (j_job_id j))) holders);;
  queue <- ordered_queue pow (br_config br) t;;
  queued <- query_ok queued_jobs;;
  forecasts <- mapM_ (forecast (br_config br)) all_currencies;;
  idle <- idle_jobs br;;
  mine <- budgets br (id_login me);;
  page rq 200 (DashboardHtml (mkDashboardPage utilization depth rows (firstn 10 queue) (Z.of_nat (length queued))
                                forecasts idle [] mine)).

(** [jobs(request, me, broker, everyone)] *)
Definition get_jobs (everyone : bool) : M Response :=
  history <- job_history (if everyone then None else Some (id_login me)) 100;;
  rows <- query_ok (fun d => map (fun j => mkJobRow j None (job_spend d (j_job_id j))
                                             (peak_utilization d (j_job_id j))) history);;
  page rq 200 (JobsHtml rows everyone).

(** [broker.status(job_id)], or a 404 *)
Definition found (job_id : string) : M Job :=
  try_catch (query (fun d => find_job d job_id)) is_broker_error (fun e => raise (HTTPException 404 (exn_str e))).

(** [job_detail(request, job_id, me, broker)] *)
Definition get_job (job_id : string) : M Response :=
  job <- found job_id;;
  let id := j_job_id job in
  samples <- query_ok (fun d => samples_for d id None 240);;
  spent <- query_ok (fun d => job_spend d id);;
  history <- query_ok (fun d => history d id);;
  lines <- logs id 0;;
  notices <- query_ok (fun d => notifications_for_job d id None);;
  page rq 200 (JobHtml (mkJobPage job spent history (last_rows 400 lines) samples
                          (max_percent (map smp_gpu_percent samples)) notices
                          (String.eqb (j_user_id job) (id_login me)))).

(** What every showing of the form is given. *)
Definition submit_page (error refusal : option string) (form : option SubmitForm) : M Response :=
  balances <- budgets br (id_login me);;
  known <- environment_list;;
  page rq 200 (SubmitHtml (mkSubmitPage error refusal (gpu_types (br_config br)) (pb_prices (br_prices br)) balances
                             (startup_allowance_hours (br_config br)) known form)).

(** ** What a member may do *)

(** [cancel(request, job_id, me, broker)] *)
Definition post_cancel (job_id : string) : M Response :=
  job <- found job_id;;
  if negb (String.eqb (j_user_id job) (id_login me)) && negb (officer me) then
    raise (HTTPException 403 ("that job belongs to " +:+ j_user_id job))
  else if is_terminal job then
    raise (HTTPException 400 ("already " +:+ str_lower (state_str (j_state job))))
  else
    (if bool_decide (j_state job = QUEUED) then Broker.cancel br (j_job_id job) (Some (id_login me)) (officer me)
     else request_cancel job (id_login me));;;
    ret (redirect ("/jobs/" +:+ j_job_id job)).

(** [broker.submit(...)] with what was typed *)
Definition submit_typed (f : SubmitForm) (new_job_id : string) : M SubmitResult :=
  budget <- lift_outcome (typed_amount (lstrip_dollars (sf_budget f)) (sf_budget f));;
  submit br (id_login me) (strip (sf_command f)) (sf_gpu f) (sf_hours f) budget
    (or_none (strip (sf_environment f))) "real" new_job_id.

(** [submit(request, me, broker, command, gpu, hours, budget, environment)] *)
Definition post_submit (f : SubmitForm) (new_job_id : string) : M Response :=
  r <- attempt (submit_typed f new_job_id) is_user_error;;
  match r with
  | inl e => submit_page (Some (exn_str e)) None (Some f)
  | inr result =>
      match sr_refusal result with
      | Some why => submit_page None (Some (rfs_reason why)) (Some f)
      | None => ret (redirect ("/jobs/" +:+ j_job_id (sr_job result)))
      end
  end.

(** ** The officers' pages *)

(** The first lines of each. *)
Definition officers_only {A} (k : M A) : M A :=
  if officer me then k else raise (HTTPException 403 "that page is for club officers").

(** [except errors as exc: raise HTTPException(400, str(exc))] *)
Definition or_400 {A} (errors : exn -> bool) (m : M A) : M A :=
  try_catch m errors (fun e => raise (HTTPException 400 (exn_str e))).

(** [admin(request, me, broker)] *)
Definition get_admin : M Response :=
  officers_only (
    members <- query_ok list_users;;
    rows <- mapM_ (fun u => bs <- budgets br (u_user_id u);; ret (u, bs)) members;;
    pool_now <- pool br;;
    page rq 200 (AdminHtml (mkAdminPage rows [] pool_now))).

(** [set_budget(request, me, broker, user_id, usd, gpu_hours)] *)
Definition post_budget (user_id usd gpu_hours : string) : M Response :=
  officers_only (
    or_400 is_user_error (
      usd <- lift_outcome (typed_amount (lstrip_dollars usd) usd);;
      gpu_hours <- lift_outcome (typed_amount gpu_hours gpu_hours);;
      add_user br user_id None false None usd gpu_hours None);;;
    ret (redirect "/admin")).

(** [drain(request, hostname, me, broker, reason, undrain)] *)
Definition post_drain (hostname reason undrain : string) : M Response :=
  officers_only (
    or_400 is_broker_error (
      if non_empty undrain then broker_undrain_host br hostname (id_login me) true
      else broker_drain_host br hostname reason (id_login me) true);;;
    ret (redirect "/admin")).

(** [report_page(request, me, broker, days)] *)
Definition get_report (days : float) : M Response :=
  t <- now;;
  since <- lift_outcome (add_days t (f_neg days));;
  r <- broker_report br (Some since);;
  text <- lift_outcome (markdown r);;
  page rq 200 (ReportHtml text days).
End Member.

(** [prometheus_metrics(request, broker)] *)
Definition get_metrics (rq : Request) : M Response :=
  let token := resolved_metrics_token environ web in
  if negb (non_empty token) then
    raise (HTTPException 404 ("the metrics endpoint is off. Set web.metrics_token, or "
      +:+ "GPU_BROKER_METRICS_TOKEN, to turn it on -- these series name " +:+ "people and jobs"))
  else if negb (String.eqb (rq_authorization rq) ("Bearer " +:+ token)) then
    raise (HTTPException 401 "bad or missing bearer token")
  else
    t <- now;; query_ok (fun d => plain 200 (prometheus d t (Some STALE_AFTER))).

(** ** The routes *)

(** A handler that depends on [viewer]. *)
Definition as_viewer (rq : Request) (k : Broker W -> Identity -> M Response) : M Response :=
  br <- open_web;; me <- viewer rq;; k br me.

Definition handle (rq : Request) (a : Action) : M Response :=
  match a with
  | GetLogin new_state => ret (get_login new_state)
  | GetCallback code state => get_callback rq code state
  | GetLogout => ret get_logout
  | GetHealth => ret (mkResponse 200 None [] [] Healthy)
  | GetMetrics => open_web;;; get_metrics rq
  | GetDashboard => as_viewer rq (fun br me => get_dashboard br rq me)
  | GetJobs everyone => as_viewer rq (fun _ me => get_jobs rq me everyone)
  | GetJob job_id => as_viewer rq (fun _ me => get_job rq me job_id)
  | GetSubmit => as_viewer rq (fun br me => submit_page br rq me None None None)
  | GetReport days => as_viewer rq (fun br _ => get_report br rq days)
  | GetAdmin => as_viewer rq (fun br me => get_admin br rq me)
  | PostCancel job_id => as_viewer rq (fun br me => post_cancel br me job_id)
  | PostSubmit form new_job_id => as_viewer rq (fun br me => post_submit br rq me form new_job_id)
  | PostBudget user_id usd gpu_hours => as_viewer rq (fun br me => post_budget br me user_id usd gpu_hours)
  | PostDrain hostname reason undrain => as_viewer rq (fun br me => post_drain br me hostname reason undrain)
  end.

Definition is_http_error (e : exn) : bool := match e with HTTPException _ _ => true | _ => false end.

(** [needs_sign_in], [http_error] *)
Definition error_page (rq : Request) (a : Action) (e : exn) : M Response :=
  match e, a with
  | HTTPException code detail, GetMetrics => ret (plain code detail)
  | HTTPException code detail, _ =>
      if code =? 401 then ret (redirect "/auth/login") else page rq code (ErrorHtml code detail)
  | e, _ => raise e
  end.

(** One request *)
Definition respond (rq : Request) (a : Action) : M Response :=
  try_catch (handle rq a) is_http_error (error_page rq a).

(** ** The live log *)

Inductive Frame : Type :=
| FrameLine (id : Z) (row : LogRow)
| FrameRevoked (reason : string)
| FrameDone (state : string)
| FrameKeepAlive.

Definition frame_text (f : Frame) : string :=
  match f with
  | FrameLine id row => sse "line" (JDict [("id", JInt id); ("at", JStr (String.substring 11 8 (to_iso (lg_at row))));
                                           ("stream", JStr (lg_stream row)); ("line", JStr (lg_line row))])
  | FrameRevoked reason => sse "revoked" (JDict [("reason", JStr reason)])
  | FrameDone state => sse "done" (JDict [("state", JStr state)])
  | FrameKeepAlive => ": keepalive" +:+ newline +:+ newline
  end.

(** [_stream_revocation(state, config, login)] *)
Definition stream_revocation (login : string) : M string := open_web;;; revocation login.

(** What [stream] asks before the first round. *)
Definition stream_opening (rq : Request) : M Identity :=
  who <- session_of rq;;
  match who with
  | None => raise (HTTPException 401 "sign in")
  | Some me =>
      opening <- stream_revocation (id_login me);;
      if non_empty opening then raise (HTTPException 403 opening) else ret me
  end.

(** The lines of one poll. *)
Definition POLL_LIMIT : nat := 200.

(** [_poll_logs(config, job_id, after)] *)
Definition poll_logs (job_id : string) (after : Z) : M (list (Z * LogRow) * string) :=
  open_web;;;
  r <- attempt (query (fun d => find_job d job_id)) is_broker_error;;
  match r with
  | inl _ => ret ([], "gone")
  | inr job => query_ok (fun d => (read_logs d (j_job_id job) after POLL_LIMIT,
                                   if is_terminal job then state_str (j_state job) else ""))
  end.

(** One turn of [events]: the frames, and the cursor and the quiet rounds of the
    next turn unless it was the last. *)
Definition stream_round (login job_id : string) (after idle_rounds : Z) : M (list Frame * option (Z * Z)) :=
  revoked <- stream_revocation login;;
  if non_empty revoked then ret ([FrameRevoked revoked], None)
  else
    r <- poll_logs job_id after;;
    let '(lines, done) := r in
    let frames := map (fun l => FrameLine (fst l) (snd l)) lines in
    let after := fold_left (fun _ l => fst l) lines after in
    if non_empty done then ret (frames ++ [FrameDone done], None)
    else
      let idle_rounds := match lines with [] => idle_rounds + 1 | _ => 0 end in
      ret (frames ++ (if negb (idle_rounds =? 0) && (idle_rounds mod 15 =? 0) then [FrameKeepAlive] else []),
           Some (after, idle_rounds)).
End App.

(** What a running web process was given. *)
Record WebApp (W : Type) := mkWebApp {
  wa_config : BrokerConfig;
  wa_aws : AwsPrices;
  wa_checkpoints : option (string -> method W (option CheckpointRef));
  wa_environ : string -> option string;
  wa_read_file : string -> option string;
  wa_web : WebConfig;
  wa_signer : Signer;
  wa_provider : IdentityProvider W
}.
Arguments mkWebApp {W}. Arguments wa_config {W}. Arguments wa_aws {W}. Arguments wa_checkpoints {W}. Arguments wa_environ {W}.
Arguments wa_read_file {W}. Arguments wa_web {W}. Arguments wa_signer {W}. Arguments wa_provider {W}.

(** One request to it *)
Definition visit {W} `{TimeZones} (pow : pow_fun) (app : WebApp W) (rq : Request) (a : Action) : M (St W) exn Response :=
  respond pow (wa_config app) (wa_aws app) (wa_checkpoints app) (wa_environ app) (wa_read_file app) (wa_web app)
    (wa_signer app) (wa_provider app) rq a.
