(* ===== verification/BrokerSafe.v ===== *)
(** * Every broker operation keeps its databases well formed

    One [safe] lemma per method of [Broker.v], then the system: a broker and its
    store, the requests it serves, crashes in the middle of one, and the world
    moving on by itself.  Every reachable system is [sound]. *)

From S2P Require Import Prelude PyFloat PyDecimal PyFormat PySort PyDict Errors Money Clock States Models Config Tables Store StoreInv StoreSafe Admission FairShare Backend Placement Idle Metrics Pricing Forecast Reaper Checkpoint Scheduler SchedulerSafe Broker.
Local Open Scope Z_scope.
Local Open Scope py_scope.

(** A job found by its prefix is a stored row. *)
Lemma find_job_row d prefix j : find_job d prefix = Ok j -> exists id, jobs d !! id = Some j.
Proof.
  unfold find_job. set (rows := py_sort _ _). intros Hf.
  assert (Hj : j ∈ rows) by (destruct rows as [|x [|? ?]]; [done| |done]; injection Hf as ->; left).
  apply py_sort_elem, list_elem_of_In, List.filter_In in Hj as [Hj _].
  apply list_elem_of_In, list_elem_of_fmap in Hj as ([k x] & -> & Hx).
  exists k. by apply elem_of_map_to_list in Hx.
Qed.

Section Ops.
Context {W : Type} `{TimeZones} (pow : pow_fun) (br : Broker W).

Lemma safe_balance js u c : safe (W := W) js (balance (br_config br) u c) none.
Proof. apply safe_reads. unfold balance, period_now. repeat (apply reads_bind; [done|intros ?]). done. Qed.

(** The job of the result is the stored one. *)
Lemma safe_submit_job js u cmd g h b e o id : safe js (submit br u cmd g h b e o id) (fun r => [sr_job r]).
Proof.
  unfold submit. do 4 (apply safe_read; [done|]; intros ?).
  apply safe_then.
  { case_match; [|apply safe_ret_none]. apply safe_read; [done|]. intros [x|]; [apply safe_ret_none|].
    apply safe_read; [done|]. intros known. apply safe_raise. }
  intros _. apply safe_then.
  { unfold policy_check. destruct (check_membership _); [apply safe_ret_none|].
    destruct (check_job_cap _ _ _); [apply safe_ret_none|]. apply safe_read; [done|]. intros n.
    destruct (check_queue_depth _ _); [apply safe_ret_none|].
    apply safe_then; [apply safe_balance|]. intros. apply safe_ret_none. }
  intros [r|].
  - eapply safe_bind; [apply safe_record_refusal|]. intros j. apply safe_ret. set_solver.
  - eapply safe_bind; [apply safe_create_job|]. intros j. apply safe_read; [done|]. intros w. apply safe_ret. set_solver.
Qed.

Lemma safe_submit js u cmd g h b e o id : safe js (submit br u cmd g h b e o id) none.
Proof. eapply safe_weaken; [apply safe_submit_job|done|]. intros r. set_solver. Qed.

Lemma safe_require_officer js a what adm : safe (W := W) js (require_officer a what adm) none.
Proof. apply safe_reads. unfold require_officer. by case_match. Qed.

Lemma safe_terminate_job js j why : safe js (terminate_job br j why) none.
Proof. unfold terminate_job. case_match; [|apply safe_ret_none]. case_match; auto with safe. Qed.

Lemma safe_cancel js id a adm : safe js (cancel br id a adm) one.
Proof.
  unfold cancel. eapply (safe_bind js _ one).
  - apply safe_query. intros d j Hd _ [k Hk]%find_job_row. constructor; [|done]. by eapply copy_of_row.
  - intros j. apply safe_read; [done|]. intros ok. case_match; [apply safe_raise|].
    case_match; [apply safe_raise|]. apply safe_then; [apply safe_terminate_job|]. intros _.
    apply safe_transition; [set_solver|done].
Qed.

Lemma safe_broker_tick js : safe js (broker_tick pow br) none.
Proof. apply safe_tick. Qed.

Lemma safe_sleep_for js x : safe (W := W) js (sleep_for x) none.
Proof.
  intros s Hs Hc. unfold sleep_for. destruct (sleep (clock s) x); cbn; [|by split_and!].
  edestruct (sound_same s (mkSt (db s) z (journal s) (world s))); [done..|]. by split_and!.
Qed.

Lemma safe_run_until_idle js x n : safe js (run_until_idle pow br x n) none.
Proof.
  unfold run_until_idle. apply safe_then; [|intros [r|]; [apply safe_ret_none|apply safe_raise]].
  generalize (@nil TickReport). induction n as [|n IH]; intros reports; cbn; [apply safe_ret_none|].
  apply safe_then; [apply safe_broker_tick|]. intros report.
  do 2 (apply safe_read; [done|]; intros ?).
  assert (Hrest : safe js (sleep_for x;;; run_ticks pow br x n (reports ++ [report])) none).
  { apply safe_then; [apply safe_sleep_for|]. intros _. apply IH. }
  destruct a, a0; try exact Hrest. apply safe_ret_none.
Qed.

(** The verdicts of [idle_jobs] are on active jobs of the store. *)
Lemma idle_candidates_in config d t vs v :
  idle_candidates config d t = Ok vs -> v ∈ vs ->
  iv_idle v = true /\ iv_job v ∈ list_jobs d None (Some ACTIVE) None /\
  evaluate config d t (iv_job v) = Ok v.
Proof.
  unfold idle_candidates. intros (l & Hl & [= <-])%obind_ok Hv%py_sort_elem.
  apply list_elem_of_In, List.filter_In in Hv as [Hv Hi]. split; [done|].
  apply list_elem_of_In in Hv. destruct (proj1 (omapM_elem _ _ _ Hl _) Hv) as (j & Hj & He).
  by rewrite (evaluate_job _ _ _ _ _ He).
Qed.

Lemma safe_idle_jobs js : safe (W := W) js (idle_jobs br) (map iv_job).
Proof.
  unfold idle_jobs. apply safe_read; [done|]. intros t. apply safe_query.
  intros d vs Hd _ Hvs. apply Forall_forall. intros j (v & -> & Hv)%list_elem_of_fmap.
  destruct (idle_candidates_in _ _ _ _ _ Hvs Hv) as (_ & Hj & _).
  pose proof (list_jobs_copies d None (Some ACTIVE) None Hd) as Hall.
  eapply Forall_forall in Hall; eauto.
Qed.

Lemma safe_reclaim_one js v : iv_job v ∈ js -> safe js (reclaim_one br v) one.
Proof.
  intros Hin. unfold reclaim_one. apply safe_read; [done|]. intros t.
  apply safe_then; [apply safe_notify|]. intros _.
  apply safe_then; [apply safe_append_log|]. intros _.
  apply safe_then; [apply safe_terminate_job|]. intros _. by apply safe_transition.
Qed.

Lemma safe_reclaim js force : safe js (reclaim br force) none.
Proof.
  unfold reclaim. apply safe_read; [done|]. intros t.
  eapply safe_bind; [apply safe_idle_jobs|]. intros vs.
  apply safe_then.
  - eapply (safe_foldM _ _ _ (fun v => [iv_job v])).
    + apply Forall_forall. intros v Hv x ->%list_elem_of_singleton. apply elem_of_app. left.
      by apply list_elem_of_fmap_2.
    + set_solver.
    + intros [[ready recl] held] v. unfold reclaim_step. apply safe_read; [done|]. intros t'.
      destruct (reclaimable v t') as [[] why]; [|apply safe_ret_none].
      case_match; [|apply safe_ret_none].
      eapply safe_bind; [apply safe_reclaim_one; cbn; set_solver|]. intros. apply safe_ret_none.
  - intros [[ready recl] held]. eapply safe_bind; [apply safe_idle_jobs|]. intros. apply safe_ret_none.
Qed.

Lemma safe_broker_reap js : safe js (broker_reap br) none.
Proof.
  unfold broker_reap. apply safe_then; [apply safe_reap|]. intros report.
  apply safe_then; [|intros; apply safe_ret_none]. apply safe_foldM_none. intros [] o.
  unfold record_orphan. case_match; [|apply safe_ret_none].
  apply safe_then; [apply safe_record_abandoned|]. intros. apply safe_ret_none.
Qed.

Lemma safe_reapply_drains js : safe js (reapply_drains br) none.
Proof.
  unfold reapply_drains. destruct (local_backend br) as [[b ops]|]; [|apply safe_ret_none].
  apply safe_read; [done|]. intros drains. apply safe_foldM_none. intros _ hr.
  apply safe_then; [apply safe_call|]. intros []; auto with safe.
Qed.

Lemma safe_broker_drain_host js h r a adm : safe js (broker_drain_host br h r a adm) none.
Proof.
  unfold broker_drain_host. apply safe_then; [apply safe_require_officer|]. intros _.
  destruct (local_backend br) as [[b ops]|]; [|apply safe_raise].
  apply safe_then; [apply safe_call|]. intros _. apply safe_drain_host.
Qed.

Lemma safe_broker_undrain_host js h a adm : safe js (broker_undrain_host br h a adm) none.
Proof.
  unfold broker_undrain_host. apply safe_then; [apply safe_require_officer|]. intros _.
  destruct (local_backend br) as [[b ops]|]; [|apply safe_raise].
  apply safe_then; [apply safe_call|]. intros _. apply safe_undrain_host.
Qed.

Lemma safe_add_user js u a adm n b1 b2 ia : safe (W := W) js (add_user br u a adm n b1 b2 ia) none.
Proof.
  unfold add_user. apply safe_then; [case_match; [apply safe_require_officer|apply safe_ret_none]|].
  intros _. apply safe_upsert_user.
Qed.

Lemma safe_broker_suspend_user js u r a adm : safe (W := W) js (broker_suspend_user u r a adm) none.
Proof. unfold broker_suspend_user. apply safe_then; [apply safe_require_officer|]. intros _. apply safe_suspend_user. Qed.

Lemma safe_broker_restore_user js u a adm : safe (W := W) js (broker_restore_user u a adm) none.
Proof. unfold broker_restore_user. apply safe_then; [apply safe_require_officer|]. intros _. apply safe_restore_user. Qed.

Lemma safe_refresh_prices js f : safe js (refresh_prices br f) none.
Proof.
  unfold refresh_prices. apply safe_then; [apply safe_refresh|]. intros [book report].
  apply safe_then; [apply safe_save_prices|]. intros _. apply safe_ret_none.
Qed.
End Ops.

Lemma safe_open_broker {W} `{TimeZones} js config aws (bs : list (Backend W)) cks :
  safe js (open_broker config aws bs cks) none.
Proof.
  unfold open_broker. do 2 (apply safe_read; [done|]; intros ?).
  apply safe_then; [apply safe_reapply_drains|]. intros _. apply safe_ret_none.
Qed.
