(* ===== verification/WebSafe.v ===== *)
(** * Web requests keep the database well formed

    Every page that is shown only reads; the four that write do so through the
    operations of the broker. *)

From S2P Require Import Prelude PyFloat PyDecimal PyFormat PySort PyDict Errors Money Clock PyJson PyText Checkpoint States Models Config Tables Store StoreInv StoreSafe Admission FairShare Backend Hosts Placement Idle Metrics PriceList Pricing Forecast Report Scheduler SchedulerSafe Broker Digest WebAuth WebApp BrokerSafe.
Local Open Scope Z_scope.
Local Open Scope py_scope.

(** Walk a body that only reads. *)
Ltac reads_walk :=
  repeat first
    [ done
    | match goal with
      | |- reads (bind _ _) => apply reads_bind; [|intros ?]
      | |- reads (mapM_ _ _) => apply reads_mapM; intros ?
      | |- reads (match ?x with _ => _ end) => destruct x
      | |- reads (let '(_, _) := ?x in _) => destruct x
      end
    | solve [auto with reads] ].

Section Web.
Context {W : Type} `{TimeZones} (pow : pow_fun).
Context (config : BrokerConfig) (aws : AwsPrices) (checkpoints : option (string -> method W (option CheckpointRef))).
Context (environ : string -> option string) (read_file : string -> option string).
Context (web : WebConfig) (sg : Signer) (provider : IdentityProvider W).

(** The broker a request opens: without backends, there is nothing to reapply. *)
Definition web_broker (s : St W) : Broker W :=
  apply_prices (mkBroker config (load (new_book config aws (clock s)) (stored_prices (db s))) [] checkpoints).

Lemma open_web_eq s : open_web config aws checkpoints s = (s, Ok (web_broker s)).
Proof. reflexivity. Qed.

Lemma reads_open_web : reads (open_web config aws checkpoints).
Proof. intros s. by rewrite open_web_eq. Qed.

Lemma reads_page rq code t : reads (page (W := W) web sg rq code t).
Proof. unfold page, session_of. reads_walk. Qed.

Lemma reads_revocation login : reads (revocation (W := W) read_file web login).
Proof. unfold revocation. reads_walk. Qed.

Lemma reads_viewer rq : reads (viewer (W := W) read_file web sg rq).
Proof. unfold viewer, session_of. reads_walk. apply reads_revocation. Qed.

Lemma reads_try {A} (m : M (St W) exn A) c h : reads m -> (forall e, reads (h e)) -> reads (try_catch m c h).
Proof. intros Hm Hh s. unfold try_catch. specialize (Hm s). destruct (m s) as [s' [a|e]]; [done|]. cbn in Hm. subst. destruct (c e); [apply Hh|done]. Qed.

Lemma reads_found id : reads (found (W := W) id).
Proof. by apply reads_try. Qed.

Lemma reads_budgets (br : Broker W) u : reads (budgets br u).
Proof. unfold budgets, balance, period_now. reads_walk. Qed.

Lemma reads_error_page rq a e : reads (error_page (W := W) web sg rq a e).
Proof. unfold error_page. destruct e; try done. destruct a; try done; destruct (_ =? _); try done; apply reads_page. Qed.

#[local] Hint Resolve reads_open_web reads_page reads_viewer reads_found reads_budgets reads_error_page reads_forecast : reads.
Ltac go := reads_walk; eauto with reads.

Lemma reads_dashboard br rq me : reads (get_dashboard (W := W) pow web sg br rq me).
Proof. unfold get_dashboard, who, ordered_queue, idle_jobs. go. Qed.

Lemma reads_jobs_page rq me all : reads (get_jobs (W := W) web sg rq me all).
Proof. unfold get_jobs, job_history. go. Qed.

Lemma reads_job_page rq me id : reads (get_job (W := W) web sg rq me id).
Proof. unfold get_job, logs. go. Qed.

Lemma reads_submit_page br rq me e r f : reads (submit_page (W := W) web sg br rq me e r f).
Proof. unfold submit_page, environment_list. go. Qed.

Lemma reads_admin br rq me : reads (get_admin (W := W) web sg br rq me).
Proof. unfold get_admin, officers_only, pool, pool_balance, pool_committed, period_now. go. Qed.

Lemma reads_report br rq days : reads (get_report (W := W) web sg br rq days).
Proof. unfold get_report, broker_report. go. Qed.

Lemma reads_metrics rq : reads (get_metrics (W := W) environ web rq).
Proof. unfold get_metrics. go. Qed.
#[local] Hint Resolve reads_dashboard reads_jobs_page reads_job_page reads_submit_page reads_admin reads_report reads_metrics : reads.

(** ** The ones that write *)

Lemma safe_identify js code : safe (W := W) js (identify read_file web provider code) none.
Proof. unfold identify. apply safe_then; [apply safe_call|]. intros r. apply safe_then; [by apply safe_reads|]. intros. apply safe_ret_none. Qed.

Lemma safe_first_sign_in js i : safe js (first_sign_in config aws checkpoints i) none.
Proof.
  unfold first_sign_in. apply safe_read; [apply reads_open_web|]. intros br. apply safe_read; [done|]. intros [u|].
  - apply safe_ret_none.
  - apply safe_then; [apply safe_add_user|]. intros. apply safe_ret_none.
Qed.

Lemma safe_callback js rq code state : safe js (get_callback config aws checkpoints read_file web sg provider rq code state) none.
Proof.
  unfold get_callback. destruct (_ || _); [apply safe_reads, reads_page|].
  apply safe_then; [apply safe_attempt, safe_identify|]. intros [e|i]; [apply safe_reads, reads_page|].
  apply safe_then; [apply safe_first_sign_in|]. intros _. apply safe_read; [done|]. intros. apply safe_ret_none.
Qed.

Lemma safe_post_cancel br me id : safe (W := W) [] (post_cancel web br me id) none.
Proof.
  unfold post_cancel. eapply safe_bind.
  - unfold found. apply safe_try.
    + apply safe_query. intros d j Hd _ [k Hk]%find_job_row. constructor; [|done]. by eapply copy_of_row.
    + intros. apply safe_raise.
  - intros j. destruct (_ && _); [apply safe_raise|]. destruct (is_terminal j); [apply safe_raise|].
    eapply safe_bind; [|intros; apply safe_ret_none].
    case_bool_decide; [apply safe_cancel|]. apply safe_request_cancel. set_solver.
Qed.

Lemma safe_post_submit js br rq me f id : safe (W := W) js (post_submit web sg br rq me f id) none.
Proof.
  unfold post_submit. apply safe_then.
  - apply safe_attempt. unfold submit_typed. apply safe_read; [done|]. intros. apply safe_submit.
  - intros [e|r]; [apply safe_reads, reads_submit_page|]. destruct (sr_refusal r); [apply safe_reads, reads_submit_page|].
    apply safe_ret_none.
Qed.

Lemma safe_or_400 {A} js errors (m : M (St W) exn A) : safe js m none -> safe js (or_400 errors m) none.
Proof. intros Hm. apply safe_try; [done|]. intros. apply safe_raise. Qed.

Lemma safe_post_budget js br me u x y : safe (W := W) js (post_budget web br me u x y) none.
Proof.
  unfold post_budget, officers_only. destruct (officer web me); [|apply safe_raise].
  apply safe_then; [|intros; apply safe_ret_none]. apply safe_or_400.
  apply safe_read; [done|]. intros. apply safe_read; [done|]. intros. apply safe_add_user.
Qed.

Lemma safe_post_drain js br me h r x : safe (W := W) js (post_drain web br me h r x) none.
Proof.
  unfold post_drain, officers_only. destruct (officer web me); [|apply safe_raise].
  apply safe_then; [|intros; apply safe_ret_none]. apply safe_or_400.
  destruct (non_empty x); [apply safe_broker_undrain_host|apply safe_broker_drain_host].
Qed.

Lemma safe_as_viewer rq (k : Broker W -> Identity -> M (St W) exn Response) :
  (forall br me, safe [] (k br me) none) -> safe [] (as_viewer config aws checkpoints read_file web sg rq k) none.
Proof.
  intros Hk. unfold as_viewer. apply safe_read; [apply reads_open_web|]. intros br.
  apply safe_read; [apply reads_viewer|]. intros me. apply Hk.
Qed.

Lemma safe_respond rq a :
  safe [] (respond pow config aws checkpoints environ read_file web sg provider rq a) none.
Proof.
  unfold respond. apply safe_try; [|intros e; apply safe_reads, reads_error_page].
  destruct a; cbn [handle]; try apply safe_ret_none; try (apply safe_as_viewer; intros br me).
  - apply safe_callback.
  - apply safe_reads, reads_dashboard.
  - apply safe_reads, reads_jobs_page.
  - apply safe_reads, reads_job_page.
  - apply safe_post_cancel.
  - apply safe_reads, reads_submit_page.
  - apply safe_post_submit.
  - apply safe_reads, reads_admin.
  - apply safe_post_budget.
  - apply safe_post_drain.
  - apply safe_read; [apply reads_open_web|]. intros. apply safe_reads, reads_metrics.
  - apply safe_reads, reads_report.
Qed.
End Web.

Lemma safe_visit {W} `{TimeZones} pow (app : WebApp W) rq a : safe [] (visit pow app rq a) none.
Proof. apply safe_respond. Qed.
