(* ===== verification/Doctor.v ===== *)
(** * doctor.py: what is wrong, check by check

    boto3, SQLite's pragmas and the disk are arguments: a call of AWS gives its
    answer or what it raised ([Aws.raised]), over the world of the backends.
    [_run] turns whatever a check raises into a failed check; the checks of AWS
    and of the lab hosts are called without it. *)

From S2P Require Import Prelude PyFloat PyDecimal PyFormat PySort PyDict Errors Money Clock PyJson PyText Checkpoint States Models Config Tables Store StoreInv StoreSafe Volumes Environments Aws Backend Commands Hosts Gce Placement Pricing Broker WebAuth ConfigLoad.
Local Open Scope Z_scope.
Local Open Scope py_scope.

Inductive Status := C_OK | C_WARN | C_FAIL.

#[export] Instance Status_eq_dec : EqDecision Status.
Proof. solve_decision. Defined.

Record Check := mkCheck { ch_name : string; ch_status : Status; ch_detail : string; ch_fix : string }.

(** [Check.bad] *)
Definition bad (c : Check) : bool := bool_decide (ch_status c = C_FAIL).

(** [_short(exc)] *)
Definition short (e : raised) : string :=
  str_take 160 (match e with
                | FromAws (mkAwsError (Some code) message _) => code +:+ ": " +:+ message
                | _ => raised_str e
                end).

(** What the checks of AWS call: [make_clients], then the calls in their order. *)
Record AwsProbe (W : Type) := mkAwsProbe {
  ap_clients : outcome raised unit;
  ap_identity : W -> W * outcome raised (option string);
  ap_images : string -> W -> W * outcome raised (list string);
  ap_profile : string -> W -> W * outcome raised unit;
  ap_quota : W -> W * outcome raised float
}.
Arguments ap_clients {W} _.
Arguments ap_identity {W} _ _.
Arguments ap_images {W} _ _ _.
Arguments ap_profile {W} _ _ _.
Arguments ap_quota {W} _ _.

(** [broker.checkpoints]: the local store with the attempt to write in it, or the bucket
    with [head_bucket]. *)
Inductive CheckpointProbe (W : Type) :=
| NoStore
| OnDisk (root : string) (probe : W -> W * outcome string unit)
| InBucket (bucket prefix : string) (head_bucket : W -> W * outcome raised unit).
Arguments NoStore {W}.
Arguments OnDisk {W} root probe.
Arguments InBucket {W} bucket prefix head_bucket.

Section Doctor.
Context {W : Type} (loaded : Loaded) (br : Broker W) (environ : string -> option string).
Context (version latest : Z) (journal_mode : string).
Context (aws : AwsProbe W) (checkpoints : CheckpointProbe W).

Local Abbreviation M := (M (St W) exn).

(** A call on the world *)
Definition ask {E A} (f : W -> W * outcome E A) : M (outcome E A) := fun s =>
  let (w, r) := f (world s) in (mkSt (db s) (clock s) (journal s) w, Ok r).

(** [_run(name, fn)] *)
Definition guarded (name : string) (m : M Check) : M Check :=
  try_catch m any_exception (fun e => ret (mkCheck name C_FAIL ("the check itself failed: " +:+ exn_str e) "")).

Definition backend_names : list string := cfg_backends (ld_config loaded).

(** [_config(config)] *)
Definition check_config : Check :=
  let missing := List.filter (fun n => negb (bool_decide (n ∈ ["fake"; "ec2"; "ec2-spot"; "local"; "gce"]))) backend_names in
  match missing with
  | [] => mkCheck "config" C_OK ("backends " +:+ repr_list backend_names +:+ ", placement "
            +:+ repr_list (placement_order (ld_config loaded))) ""
  | _ => mkCheck "config" C_FAIL ("unknown backends: " +:+ repr_list missing) ""
  end.

(** [_gce(config)] *)
Definition check_gce : outcome exn Check :=
  match Gce.require_launchable (ld_gce loaded) with
  | Raise (ConfigError m) => Ok (mkCheck "backend: gce" C_FAIL m "complete the gce configuration")
  | Raise e => Raise e
  | Ok _ => Ok (mkCheck "backend: gce" C_WARN
      "launch configuration complete; credentials, connectivity and quota are not provider-validated"
      "validate the selected GCE environment before scheduling real jobs")
  end.

(** [_database(broker)] *)
Definition check_database : M Check :=
  users <- query_ok (fun d => length (list_users d));;
  if negb (version =? latest) then
    ret (mkCheck "database" C_FAIL
      ("schema is at version " +:+ str_of_Z version +:+ ", this build expects " +:+ str_of_Z latest)
      "run any `gpu` command to migrate, or check you are not running an old binary")
  else if negb (String.eqb (str_lower journal_mode) "wal") then
    ret (mkCheck "database" C_WARN
      ("journal mode is " +:+ journal_mode +:+ ", not WAL. Crash durability is weaker than intended") "")
  else ret (mkCheck "database" C_OK
      ("schema v" +:+ str_of_Z version +:+ ", WAL, " +:+ str_of_Z (Z.of_nat users) +:+ " member(s)") "").

(** [_checkpoints(broker)] *)
Definition check_checkpoints : M Check :=
  match checkpoints with
  | NoStore => ret (mkCheck "checkpoints" C_WARN "no checkpoint store, so preempted jobs start over" "")
  | OnDisk root probe =>
      r <- ask probe;;
      match r with
      | Raise text => ret (mkCheck "checkpoints" C_FAIL ("cannot write to " +:+ root +:+ ": " +:+ text)
                             "check the directory exists and is writable")
      | Ok _ =>
          if bool_decide ("ec2-spot" ∈ backend_names) then
            ret (mkCheck "checkpoints" C_FAIL "spot is configured but checkpoints are on local disk"
              "a preempted job comes back on a different machine, so set checkpoint_store to 's3'")
          else ret (mkCheck "checkpoints" C_OK ("local, at " +:+ root) "")
      end
  | InBucket bucket prefix head_bucket =>
      r <- ask head_bucket;;
      match r with
      | Raise e => ret (mkCheck "checkpoints" C_FAIL ("cannot reach s3://" +:+ bucket +:+ ": " +:+ short e)
                          "create the bucket, or grant s3:ListBucket and s3:GetObject on it")
      | Ok _ => ret (mkCheck "checkpoints" C_OK ("s3://" +:+ bucket +:+ "/" +:+ prefix) "")
      end
  end.

(** The AMI, the instance profile and the quota: the three parts of [_aws] *)
Definition check_ami : M Check :=
  let region := Aws.aws_region (ld_aws loaded) in
  match aws_ami (ld_aws loaded) with
  | Some (String _ _ as ami) =>
      r <- ask (ap_images aws ami);;
      ret (match r with
           | Ok [] => mkCheck "aws ami" C_FAIL (ami +:+ " does not exist in " +:+ region)
                        "AMI ids are per-region; check you copied the right one"
           | Ok _ => mkCheck "aws ami" C_OK (ami +:+ " exists in " +:+ region) ""
           | Raise e => mkCheck "aws ami" C_FAIL (short e) "check aws.ami and that the region is right"
           end)
  | _ => ret (mkCheck "aws ami" C_FAIL "aws.ami is not set in config.json"
                "pick a Deep Learning AMI that has the SSM agent")
  end.

Definition check_profile : M Check :=
  match aws_instance_profile (ld_aws loaded) with
  | Some (String _ _ as profile) =>
      r <- ask (ap_profile aws profile);;
      ret (match r with
           | Ok _ => mkCheck "aws instance profile" C_OK profile ""
           | Raise e => mkCheck "aws instance profile" C_FAIL (short e)
               ("create the profile and give it AmazonSSMManagedInstanceCore "
                +:+ "plus logs:PutLogEvents. The broker also needs iam:PassRole on it, "
                +:+ "which is the permission everybody forgets")
           end)
  | _ => ret (mkCheck "aws instance profile" C_FAIL "aws.instance_profile is not set"
                "jobs cannot register with SSM without it")
  end.

Definition check_quota : M Check :=
  r <- ask (ap_quota aws);;
  ret (match r with
       | Ok quota =>
           if f_le quota f0 then
             mkCheck "aws gpu quota" C_FAIL "your G and VT on-demand vCPU quota is 0"
               ("request an increase in Service Quotas (it is zero on new accounts "
                +:+ "and takes a day or two), or run on the local pool meanwhile")
           else mkCheck "aws gpu quota" C_OK (f_fixed 0 quota +:+ " G/VT on-demand vCPUs") ""
       | Raise e => mkCheck "aws gpu quota" C_WARN ("could not read it: " +:+ short e)
                      "grant servicequotas:GetServiceQuota to see this"
       end).

(** [_aws(broker, backend_name)] *)
Definition check_aws (name : string) : M (list Check) :=
  match ap_clients aws with
  | Raise e => ret [mkCheck ("backend: " +:+ name) C_FAIL ("boto3 is not usable: " +:+ short e) "pip install 'gpu-broker'"]
  | Ok _ =>
      who <- ask (ap_identity aws);;
      match who with
      | Raise e => ret [mkCheck "aws credentials" C_FAIL (short e)
                          "run `aws configure`, or set AWS_ACCESS_KEY_ID and AWS_SECRET_ACCESS_KEY"]
      | Ok arn =>
          ami <- check_ami;;
          profile <- check_profile;;
          quota <- check_quota;;
          ret [mkCheck "aws credentials" C_OK (default "unknown" arn +:+ " in " +:+ Aws.aws_region (ld_aws loaded)) "";
               ami; profile; quota]
      end
  end.

Definition check_host_health (h : HostHealth) : Check :=
  if accepts_jobs (hh_state h) then
    let gpus := str_join ", " (map commands.gi_name (hh_gpus h)) in
    mkCheck ("lab: " +:+ hh_hostname h) C_OK (if non_empty gpus then gpus else "reachable") ""
  else mkCheck ("lab: " +:+ hh_hostname h) C_FAIL (host_state_str (hh_state h) +:+ ": " +:+ hh_reason h)
         "`gpu hosts` has the same detail".

(** [_local(broker)] *)
Definition check_local : M (list Check) :=
  match local_backend br with
  | None => ret [mkCheck "backend: local" C_WARN "configured but not built in this process" ""]
  | Some (_, ops) =>
      match lo_hosts ops with
      | [] => ret [mkCheck "backend: local" C_FAIL "no hosts under local.hosts" ""]
      | _ => found <- call (lo_health ops true);; ret (map check_host_health found)
      end
  end.

(** [_web(config)] *)
Definition check_web : Check :=
  let web := ld_web loaded in
  if negb (non_empty (wc_github_client_id web)) && negb (non_empty (wc_dev_login web)) then
    mkCheck "web" C_WARN "no OAuth app configured, so the web UI cannot sign anyone in"
      "register one at https://github.com/settings/developers"
  else if non_empty (wc_dev_login web) then
    mkCheck "web" C_WARN ("dev_login is on: everybody signs in as " +:+ wc_dev_login web)
      "fine locally, never in production"
  else if negb (non_empty (wc_github_org web)) && match wc_allowlist web with [] => true | _ => false end
          && negb (non_empty (wc_allowlist_file web)) then
    mkCheck "web" C_FAIL "no org and no allowlist, so nobody can sign in" "set web.github_org or web.allowlist"
  else if negb (non_empty (resolved_secret environ web)) then
    mkCheck "web" C_FAIL "the GitHub client secret is not set" "export GPU_BROKER_GITHUB_CLIENT_SECRET"
  else
    let who := if non_empty (wc_github_org web) then wc_github_org web
               else str_of_Z (Z.of_nat (length (wc_allowlist web))) +:+ " listed login(s)" in
    mkCheck "web" C_OK ("GitHub OAuth, membership by " +:+ who) "".

(** The checks of one configured backend *)
Definition check_backend (name : string) : M (list Check) :=
  if String.eqb name "fake" then
    ret [mkCheck "backend: fake" C_OK "the simulator is available, so the broker works with no AWS account" ""]
  else if starts_with "ec2" name then check_aws name
  else if String.eqb name "local" then check_local
  else if String.eqb name "gce" then c <- guarded "backend: gce" (lift_outcome check_gce);; ret [c]
  else ret [].

(** [diagnose(broker)] *)
Definition diagnose : M (list Check) :=
  config <- guarded "config" (ret check_config);;
  database <- guarded "database" check_database;;
  store <- guarded "checkpoints" check_checkpoints;;
  backends <- mapM_ check_backend backend_names;;
  web <- guarded "web" (ret check_web);;
  ret ([config; database; store] ++ concat backends ++ [web]).

(** ** What a diagnosis is *)

(** It writes nothing to the database, and fails only as a backend's health does. *)
Definition looks {A} (m : M A) : Prop := forall s, db (fst (m s)) = db s /\ journal (fst (m s)) = journal s.

Lemma looks_ret {A} (a : A) : looks (ret a).
Proof. by intros s. Qed.

Lemma looks_bind {A B} (m : M A) (k : A -> M B) : looks m -> (forall a, looks (k a)) -> looks (bind m k).
Proof.
  intros Hm Hk s. unfold bind. specialize (Hm s). destruct (m s) as [s' [a|e]]; [|exact Hm].
  destruct (Hk a s') as [-> ->]. exact Hm.
Qed.

Lemma looks_ask {E A} (f : W -> W * outcome E A) : looks (ask f).
Proof. intros s. unfold ask. by destruct (f (world s)). Qed.

Lemma looks_call {A} (m : method W A) : looks (call m).
Proof. intros s. split; apply call_db. Qed.

Lemma looks_guarded name m : looks m -> looks (guarded name m).
Proof. intros Hm s. unfold guarded, try_catch. specialize (Hm s). by destruct (m s) as [s' [a|e]]. Qed.

Lemma looks_mapM {A B} (f : A -> M B) l : (forall x, looks (f x)) -> looks (mapM_ f l).
Proof.
  intros Hf. induction l as [|x l IH]; [apply looks_ret|]. cbn. apply looks_bind; [done|]. intros y.
  apply looks_bind; [done|]. intros ys. apply looks_ret.
Qed.

Lemma looks_backend name : looks (check_backend name).
Proof.
  unfold check_backend. destruct (String.eqb name "fake"); [apply looks_ret|].
  destruct (starts_with "ec2" name).
  { unfold check_aws. destruct (ap_clients aws); [|apply looks_ret]. apply looks_bind; [apply looks_ask|].
    intros [arn|e]; [|apply looks_ret].
    apply looks_bind; [|intros ?; apply looks_bind; [|intros ?; apply looks_bind; [|intros ?; apply looks_ret]]].
    - unfold check_ami. destruct (aws_ami _) as [[|c t]|]; try apply looks_ret.
      apply looks_bind; [apply looks_ask|intros ?; apply looks_ret].
    - unfold check_profile. destruct (aws_instance_profile _) as [[|c t]|]; try apply looks_ret.
      apply looks_bind; [apply looks_ask|intros ?; apply looks_ret].
    - apply looks_bind; [apply looks_ask|intros ?; apply looks_ret]. }
  destruct (String.eqb name "local").
  { unfold check_local. destruct (local_backend br) as [[b ops]|]; [|apply looks_ret].
    destruct (lo_hosts ops) as [|h l]; [apply looks_ret|]. apply looks_bind; [apply looks_call|intros ?; apply looks_ret]. }
  destruct (String.eqb name "gce"); [|apply looks_ret].
  apply looks_bind; [apply looks_guarded; by intros s|intros ?; apply looks_ret].
Qed.

(** A diagnosis leaves the database alone, whatever it finds. *)
Lemma looks_diagnose : looks diagnose.
Proof.
  unfold diagnose. apply looks_bind; [apply looks_guarded, looks_ret|intros config].
  apply looks_bind.
  { apply looks_guarded. unfold check_database. apply looks_bind; [by intros s|intros users].
    destruct (negb _); [apply looks_ret|]. destruct (negb _); apply looks_ret. }
  intros database. apply looks_bind.
  { apply looks_guarded. unfold check_checkpoints. destruct checkpoints as [|root probe|bucket prefix head_bucket]; [apply looks_ret|..];
      (apply looks_bind; [apply looks_ask|intros [u|e]]); try apply looks_ret. destruct (bool_decide _); apply looks_ret. }
  intros store. apply looks_bind; [apply looks_mapM, looks_backend|intros checks].
  apply looks_bind; [apply looks_guarded, looks_ret|intros web]. apply looks_ret.
Qed.

(** ** That it comes to an end *)

Definition total {A} (m : M A) : Prop := forall s, is_ok (snd (m s)) = true.

Lemma total_ret {A} (a : A) : total (ret a).
Proof. by intros s. Qed.

Lemma total_bind {A B} (m : M A) (k : A -> M B) : total m -> (forall a, total (k a)) -> total (bind m k).
Proof. intros Hm Hk s. unfold bind. specialize (Hm s). destruct (m s) as [s' [a|e]]; [apply Hk|done]. Qed.

Lemma total_guarded name m : total (guarded name m).
Proof. intros s. unfold guarded, try_catch. by destruct (m s) as [s' [a|e]]. Qed.

Lemma total_ask {E A} (f : W -> W * outcome E A) : total (ask f).
Proof. intros s. unfold ask. by destruct (f (world s)). Qed.

Lemma total_mapM {A B} (f : A -> M B) l : (forall x, total (f x)) -> total (mapM_ f l).
Proof.
  intros Hf. induction l as [|x l IH]; [apply total_ret|]. cbn. apply total_bind; [done|]. intros y.
  apply total_bind; [done|]. intros ys. apply total_ret.
Qed.

(** The lab, if there is one, can be asked about its hosts. *)
Definition hosts_answer : Prop := forall b ops, local_backend br = Some (b, ops) -> forall t w, is_ok (snd (lo_health ops true t w)) = true.

Lemma total_backend name : hosts_answer -> total (check_backend name).
Proof.
  intros Hh. unfold check_backend. destruct (String.eqb name "fake"); [apply total_ret|].
  destruct (starts_with "ec2" name).
  { unfold check_aws. destruct (ap_clients aws); [|apply total_ret]. apply total_bind; [apply total_ask|].
    intros [arn|e]; [|apply total_ret].
    apply total_bind; [|intros ?; apply total_bind; [|intros ?; apply total_bind; [|intros ?; apply total_ret]]].
    - unfold check_ami. destruct (aws_ami _) as [[|c t]|]; try apply total_ret.
      apply total_bind; [apply total_ask|intros ?; apply total_ret].
    - unfold check_profile. destruct (aws_instance_profile _) as [[|c t]|]; try apply total_ret.
      apply total_bind; [apply total_ask|intros ?; apply total_ret].
    - apply total_bind; [apply total_ask|intros ?; apply total_ret]. }
  destruct (String.eqb name "local").
  { unfold check_local. revert Hh. unfold hosts_answer. destruct (local_backend br) as [[b ops]|]; intros Hh; [|apply total_ret].
    destruct (lo_hosts ops) as [|h l]; [apply total_ret|]. apply total_bind; [|intros ?; apply total_ret].
    intros s. unfold call. specialize (Hh b ops eq_refl (clock s) (world s)). by destruct (lo_health ops true (clock s) (world s)). }
  destruct (String.eqb name "gce"); [|apply total_ret].
  apply total_bind; [apply total_guarded|intros ?; apply total_ret].
Qed.

(** As long as the hosts can be asked, a diagnosis is a list of checks, which begins
    with the configuration, the database and the checkpoints and ends with the web,
    and the configuration fails when a backend has no such name. *)
Lemma diagnose_returns s : hosts_answer ->
  exists database store checks, snd (diagnose s) = Ok (check_config :: database :: store :: checks ++ [check_web]) /\
    (Exists (fun n => n ∉ ["fake"; "ec2"; "ec2-spot"; "local"; "gce"]) backend_names -> bad check_config = true).
Proof.
  intros Hh. unfold diagnose, bind.
  change (guarded "config" (ret check_config) s) with (s, @Ok exn _ check_config). cbv beta iota.
  pose proof (total_guarded "database" check_database s) as H1.
  destruct (guarded "database" check_database s) as [s1 [database|]]; [|done].
  pose proof (total_guarded "checkpoints" check_checkpoints s1) as H2.
  destruct (guarded "checkpoints" check_checkpoints s1) as [s2 [store|]]; [|done].
  pose proof (total_mapM check_backend backend_names (fun n => total_backend n Hh) s2) as H3.
  destruct (mapM_ check_backend backend_names s2) as [s3 [checks|]]; [|done].
  exists database, store, (concat checks). split; [done|]. intros Hex. unfold bad, check_config.
  destruct (List.filter _ backend_names) as [|n l] eqn:E; [|done]. exfalso.
  apply Exists_exists in Hex as (n & Hin & Hn).
  assert (Hf : In n (List.filter (fun n => negb (bool_decide (n ∈ ["fake"; "ec2"; "ec2-spot"; "local"; "gce"]))) backend_names)).
  { apply filter_In. split; [by apply list_elem_of_In|]. by rewrite bool_decide_eq_false_2. }
  by rewrite E in Hf.
Qed.
End Doctor.
