(* ===== verification/Cli.v ===== *)
(** * cli.py: the commands of [gpu]

    A command runs on the store with a screen beside it: the lines printed, each the
    argument of [console.print] with its markup, or a table as its title, its
    columns and its rows.  A command ends by itself, by [typer.Exit] or by an
    exception that escapes it.  [opening] is [open_broker(state_dir)].

    The options are the arguments, parsed.  Not here: [gpu web], which hands over to
    uvicorn, [gpu demo], and ctrl-c during [gpu run]. *)

From Stdlib Require Import Ascii.
From S2P Require Import Prelude PyFloat PyDecimal PyFormat PySort PyDict Errors Money Clock PyJson PyText Checkpoint States Models Config Tables Store StoreInv StoreSafe Environments Admission FairShare Backend Commands Hosts Placement Idle Metrics PriceList Pricing Forecast Report Reaper Scheduler Broker Digest Trace WebApp Aws Volumes WebAuth Gce ConfigLoad Doctor.
Local Open Scope Z_scope.
Local Open Scope py_scope.

(** ** The screen *)

Inductive line :=
| Out (text : string)
| Err (text : string)
| Table (title : option string) (columns : list string) (rows : list (list string)).

Record Term (W : Type) := mkTerm { tm_store : St W; tm_lines : list line }.
Arguments mkTerm {W} _ _.
Arguments tm_store {W} _.
Arguments tm_lines {W} _.

Inductive ended := Exit (code : Z) | Escaped (e : exn).

(** ** Texts *)

(** [f"{x:N}"] of a string: padded on the right *)
Definition ljust (w : nat) (s : string) : string := s +:+ str_repeat " " (w - String.length s).

(** [f"{moment:%H:%M:%S}"], [f"{moment:%Y-%m-%d %H:%M}"] *)
Definition hms (moment : Z) : string := String.substring 11 8 (to_iso moment).
Definition ymd_hm (moment : Z) : string := ymd moment +:+ " " +:+ hm moment.

(** [f"{x:.0%}"] *)
Definition percent0 (x : float) : string := f_fixed 0 (f_mul x (f_of_Z 100)) +:+ "%".

Definition WEEKDAYS : list string :=
  ["Monday"; "Tuesday"; "Wednesday"; "Thursday"; "Friday"; "Saturday"; "Sunday"].
Definition MONTH_NAMES : list string :=
  ["January"; "February"; "March"; "April"; "May"; "June"; "July"; "August"; "September"; "October"; "November"; "December"].

(** [f"{moment:%A %d %B}"]; day 0 was a Thursday *)
Definition weekday_day_month (moment : Z) : string :=
  let day := moment / us_per_day in
  let '(_, m, d) := civil_of_days day in
  nth (Z.to_nat ((day + 3) mod 7)) WEEKDAYS "" +:+ " " +:+ pad0 2 d +:+ " " +:+ nth (Z.to_nat (m - 1)) MONTH_NAMES "".

Definition dquote : string := String (ascii_of_nat 34) EmptyString.

(** [repr(s)]: in apostrophes, or in quotes when there is an apostrophe and no quote *)
Definition repr_char (q c : ascii) : string :=
  let n := nat_of_ascii c in
  if Ascii.eqb c "\" then "\\"
  else if Ascii.eqb c q then String "\" (String c EmptyString)
  else if (n =? 10)%nat then "\n" else if (n =? 13)%nat then "\r" else if (n =? 9)%nat then "\t"
  else if ((n <? 32) || (127 <=? n) && (n <=? 160) || (n =? 173))%nat then "\x" +:+ String (hex_digit (n / 16)) (String (hex_digit (n mod 16)) EmptyString)
  else String c EmptyString.
Definition has_char (c : ascii) (s : string) : bool := negb (str_forall (fun d => negb (Ascii.eqb c d)) s).
Definition py_repr (s : string) : string :=
  let quote_mark := if has_char apostrophe s && negb (has_char (ascii_of_nat 34) s) then ascii_of_nat 34 else apostrophe in
  String quote_mark EmptyString +:+ String.concat "" (map (repr_char quote_mark) (String.list_ascii_of_string s))
    +:+ String quote_mark EmptyString.

(** [state_style(state)] *)
Definition state_style (s : JobState) : string :=
  match s with
  | COMPLETED => "green"
  | PREEMPTED | RESUMING => "magenta"
  | FAILED | REFUSED => "red"
  | CANCELLED => "yellow"
  | _ => if state_in s ACTIVE then "cyan" else "white"
  end.

(** [f"[{state_style(state)}]{state}[/]"] *)
Definition styled_state (s : JobState) : string := "[" +:+ state_style s +:+ "]" +:+ state_str s +:+ "[/]".

(** ["dollars" if currency is Currency.USD else "free gpu-hours"] *)
Definition currency_label (c : Currency) : string := match c with USD => "dollars" | GPU_HOUR => "free gpu-hours" end.

(** ** The computation of a command *)

Section Cli.
Context {W : Type} `{TimeZones} (pow : pow_fun) (environ : string -> option string).
Context (opening : M (St W) exn (Broker W)).

Abbreviation C := (M (Term W) ended).

(** A call of the broker or of its store *)
Definition on_store {A} (m : M (St W) exn A) : C A := fun t =>
  let (s, r) := m (tm_store t) in
  (mkTerm s (tm_lines t), match r with Ok a => Ok a | Raise e => Raise (Escaped e) end).

(** What a query computes; what an expression raises *)
Definition ask_db {A} (f : DB -> A) : C A := on_store (query_ok f).
Definition expr {A} (r : outcome exn A) : C A := on_store (lift_outcome r).

Definition print (l : line) : C unit := fun t => (mkTerm (tm_store t) (tm_lines t ++ [l]), Ok tt).

(** [console.print(text)], [err_console.print(text)], [console.print(table)] *)
Definition say (text : string) : C unit := print (Out text).
Definition complain (text : string) : C unit := print (Err text).
Definition say_all (texts : list string) : C unit := mapM_ say texts;;; ret tt.

(** [raise typer.Exit(code)] *)
Definition exit {A} (code : Z) : C A := raise (Exit code).

(** [die(message, hint)] *)
Definition die {A} (message : string) (hint : option string) : C A :=
  complain ("[red]error:[/red] " +:+ message);;;
  (match hint with Some (String _ _ as h) => complain ("[dim]hint: " +:+ h +:+ "[/dim]") | _ => ret tt end);;;
  exit 1.

(** [try: m except E as exc: die(str(exc))] *)
Definition or_die_of {A} (caught : exn -> bool) (m : C A) : C A :=
  try_catch m (fun x => match x with Escaped e => caught e | Exit _ => false end)
    (fun x => match x with Escaped e => die (exn_str e) None | Exit c => exit c end).
Definition or_die {A} (m : C A) : C A := or_die_of is_broker_error m.

(** [whoami(explicit)] *)
Definition whoami (explicit : option string) : string :=
  str_or explicit (str_or (environ "GPU_BROKER_USER") (str_or (environ "USER") "unknown")).

Definition open_cli : C (Broker W) := on_store opening.

(** [ensure_user(broker, user_id)] *)
Definition ensure_user (br : Broker W) (user_id : string) : C unit :=
  known <- ask_db (fun d => maybe_user d user_id);;
  match known with
  | Some _ => ret tt
  | None =>
      on_store (add_user br user_id None false None None None None);;;
      say ("[dim]welcome, " +:+ user_id +:+ ". Starting budget: "
        +:+ fmt (default_budget_usd (br_config br)) USD +:+ " and "
        +:+ fmt (default_budget_gpu_hours (br_config br)) GPU_HOUR +:+ " this month.[/dim]")
  end.

(** [_is_admin(broker, user_id)] *)
Definition is_admin_of (user_id : string) (d : DB) : bool :=
  match maybe_user d user_id with Some u => u_is_admin u | None => false end.

(** [_local_gpu(broker)] *)
Definition local_gpu (br : Broker W) : option string :=
  head (map gt_name (List.filter (fun g => bool_decide (gt_currency g = GPU_HOUR)) (gpu_types (br_config br)))).

(** ** [gpu submit] *)

(** [_queue_position(broker, job_id)] *)
Fixpoint position_of (job_id : string) (i : Z) (queue : list (Job * Priority)) : option Z :=
  match queue with
  | [] => None
  | (j, _) :: rest => if String.eqb (j_job_id j) job_id then Some i else position_of job_id (i + 1) rest
  end.

Definition queue_of (br : Broker W) : C (list (Job * Priority)) :=
  t <- on_store now;; on_store (ordered_queue pow (br_config br) t).

(** [Decimal(budget.lstrip("$"))].  The decimals here are finite: of an infinity, or of
    [nan], the exception its first comparison raises is raised at once. *)
Definition parse_budget (budget : option string) : C (option Decimal) :=
  match budget with
  | None => ret None
  | Some text =>
      match decimal_text (lstrip_dollars text) with
      | Some d => ret (Some d)
      | None =>
          if is_special (lstrip_dollars text) then raise (Escaped (ArithmeticError "[<class 'decimal.InvalidOperation'>]"))
          else die ("--budget " +:+ py_repr text +:+ " is not a number") (Some "try --budget 12")
      end
  end.

(** The GPU a pilot runs on: [gpu] is [None] when the option was not given. *)
Definition pilot_gpu (br : Broker W) (given : option string) : C string :=
  let gpu_name := match given with Some g => g | None => str_or (local_gpu br) "a10g" end in
  or_die (
    g <- expr (gpu (br_config br) gpu_name);;
    if bool_decide (gt_currency g = GPU_HOUR) then ret gpu_name
    else die ("--pilot runs on free local capacity and " +:+ gpu_name +:+ " is cloud capacity")
           (Some ("drop --gpu, or pass --gpu " +:+ str_or (local_gpu br) "a6000"))).

(** [submit(command, gpu, hours, budget, env, pilot, user)] *)
Definition cmd_submit (command : list string) (gpu_option : option string) (hours : float) (budget env : option string)
    (pilot : bool) (user : option string) (new_job_id : string) : C unit :=
  match command with
  | [] => die "no command given" (Some "gpu submit --gpu a10g --hours 4 --budget 12 -- python train.py")
  | _ =>
  parsed_budget <- parse_budget budget;;
  br <- open_cli;;
  let user_id := whoami user in
  gpu_name <- (if pilot then pilot_gpu br gpu_option else ret (default "a10g" gpu_option));;
  result <- or_die (
    ensure_user br user_id;;;
    on_store (submit br user_id (str_join " " (map quote command)) gpu_name hours parsed_budget env
                (if pilot then "pilot" else "real") new_job_id));;
  match sr_refusal result with
  | Some refusal =>
      complain ("[red]" +:+ rfs_reason refusal +:+ "[/red]");;;
      complain ("[dim]recorded as " +:+ short_id (sr_job result) +:+ ". See `gpu budget` for where your month went.[/dim]");;;
      exit 2
  | None =>
      job <- (if pilot then on_store (pin_tier (sr_job result) "local" "pilot: local capacity only") else ret (sr_job result));;
      say ("[green]queued[/green] " +:+ short_id job +:+ "  " +:+ j_gpu_type job +:+ "  " +:+ f_general hours +:+ "h  ceiling "
        +:+ fmt (reserved job) (j_currency job)
        +:+ match j_environment job with Some (String _ _ as e) => "  env " +:+ e | _ => "" end);;;
      (match sr_warning result with
       | Some (String _ _ as w) => say ("[yellow]" +:+ w +:+ "[/yellow]")
       | _ => ret tt
       end);;;
      queue <- queue_of br;;
      match position_of (j_job_id job) 1 queue with
      | Some position => say ("[dim]position " +:+ str_of_Z position +:+ " in the queue. `gpu queue --why` for the ordering.[/dim]")
      | None => ret tt
      end
  end
  end.

(** ** [gpu status] *)

Definition optional_row (name : string) (o : option string) : list (list string) :=
  match o with Some text => [[name; text]] | None => [] end.

(** The rows of [_print_job_detail] *)
Definition detail_rows (j : Job) (spent : Z) : list (list string) :=
  let c := j_currency j in
  [["job"; j_job_id j]; ["user"; j_user_id j]; ["command"; j_command j];
   ["gpu"; j_gpu_type j +:+ " for " +:+ f_general (j_requested_hours j) +:+ "h"];
   ["state"; styled_state (j_state j)];
   ["cost"; fmt (of_cents spent) c +:+ " of " +:+ fmt (reserved j) c +:+ " ceiling"]]
  ++ (if truthy (j_backend j) then
        [["running on"; default "" (j_backend j) +:+ "/" +:+ str_or (j_backend_handle j) "-"]] else [])
  ++ (if truthy (j_refusal_reason j) then [["refused"; "[red]" +:+ default "" (j_refusal_reason j) +:+ "[/red]"]] else [])
  ++ optional_row "exit code" (str_of_Z <$> j_exit_code j)
  ++ (if 1 <? j_attempts j then
        [["attempts"; str_of_Z (j_attempts j) +:+ " (" +:+ str_of_Z (j_preemptions j) +:+ " preempted)"]] else [])
  ++ match j_checkpoint_step j with
     | Some step => [["checkpoint"; "step " +:+ str_of_Z step +:+
         match j_checkpoint_at j with Some at_ => ", saved " +:+ hms at_ | None => "" end]]
     | None => if j_preemptions j =? 0 then [] else [["checkpoint"; "[yellow]none saved[/yellow]"]]
     end
  ++ (if truthy (j_pinned_tier j) then [["pinned to"; "[yellow]" +:+ default "" (j_pinned_tier j) +:+ "[/yellow]"]] else []).

Definition sample_line (s : Sample) : string :=
  "  [dim]" +:+ hms (smp_at s) +:+ "[/dim] " +:+ rjust 5 (f_fixed 1 (smp_gpu_percent s)) +:+ "% [dim]"
  +:+ str_repeat "#" (Z.to_nat (f_trunc (f_div (smp_gpu_percent s) (f_of_Z 5)))) +:+ "[/dim]".

Definition history_line (t : TransitionRow) : string :=
  "  [dim]" +:+ ymd_hms (jt_at t) +:+ "[/dim]  "
  +:+ match jt_from_state t with
      | Some from => state_str from +:+ " -> " +:+ state_str (jt_to_state t)
      | None => state_str (jt_to_state t)
      end
  +:+ match jt_reason t with Some (String _ _ as r) => "  [dim]" +:+ r +:+ "[/dim]" | _ => "" end.

(** [_print_job_detail(broker, job)] *)
Definition print_job_detail (j : Job) : C unit :=
  spent <- ask_db (fun d => job_spend d (j_job_id j));;
  print (Table None [""; ""] (detail_rows j spent));;;
  samples <- ask_db (fun d => samples_for d (j_job_id j) None 200);;
  (match samples with
   | [] => ret tt
   | s :: rest =>
       let peak := fold_left f_max (map smp_gpu_percent rest) (smp_gpu_percent s) in
       say (newline +:+ "[dim]gpu utilization (" +:+ str_of_Z (Z.of_nat (length samples)) +:+ " samples, peak "
         +:+ f_fixed 1 peak +:+ "%)[/dim]");;;
       say_all (map sample_line (last_rows 12 samples))
   end);;;
  warnings <- ask_db (fun d => notifications_for_job d (j_job_id j) None);;
  (match warnings with
   | [] => ret tt
   | _ => say (newline +:+ "[yellow]notices[/yellow]");;;
          say_all (map (fun n => "  [dim]" +:+ ymd_hm (ntf_at n) +:+ "[/dim] " +:+ ntf_message n) warnings)
   end);;;
  rows <- ask_db (fun d => history d (j_job_id j));;
  match rows with
  | [] => ret tt
  | _ => say (newline +:+ "[dim]history[/dim]");;; say_all (map history_line rows)
  end.

Definition job_row (d : DB) (j : Job) : list string :=
  [short_id j; j_user_id j; j_gpu_type j;
   styled_state (j_state j) +:+ (if j_preemptions j =? 0 then "" else " [dim]x" +:+ str_of_Z (j_preemptions j) +:+ "[/dim]");
   fmt (of_cents (job_spend d (j_job_id j))) (j_currency j); j_command j].

(** [_print_job_table(broker, jobs, title)] *)
Definition print_job_table (jobs : list Job) (title : string) : C unit :=
  rows <- ask_db (fun d => map (job_row d) jobs);;
  print (Table (Some title) ["id"; "user"; "gpu"; "state"; "cost"; "command"] rows).

(** [status(job_id, user, all_users, limit)] *)
Definition cmd_status (job_id user : option string) (all_users : bool) (limit : nat) : C unit :=
  br <- open_cli;;
  match job_id with
  | Some (String _ _ as id) =>
      j <- or_die (on_store (query (fun d => find_job d id)));; print_job_detail j
  | _ =>
      let who_ := if all_users then None else Some (whoami user) in
      jobs <- on_store (job_history who_ limit);;
      match jobs with
      | [] => say "[dim]no jobs yet. `gpu submit --gpu a10g --hours 1 -- nvidia-smi`[/dim]"
      | _ => print_job_table jobs (if truthy who_ then "your jobs" else "all jobs")
      end
  end.

(** ** [gpu queue] *)

Definition queue_row (why : bool) (i : nat) (e : Job * Priority) : list string :=
  let '(j, p) := e in
  [str_of_Z (Z.of_nat i + 1); short_id j; j_user_id j; j_gpu_type j; fmt (reserved j) (j_currency j);
   f_fixed 1 (pri_wait_hours p) +:+ "h"]
  ++ (if why then [f_fixed 3 (pri_score p); f_fixed 3 (pri_fair_term p); f_fixed 3 (pri_age_term p); percent0 (pri_usage_share p)]
      else []).

(** [queue(why)] *)
Definition cmd_queue (why : bool) : C unit :=
  br <- open_cli;;
  entries <- queue_of br;;
  match entries with
  | [] => say "[dim]queue is empty.[/dim]"
  | _ =>
      print (Table None (["#"; "id"; "user"; "gpu"; "need"; "waited"]
                         ++ (if why then ["priority"; "= fair"; "+ age"; "used"] else []))
        (imap (queue_row why) entries));;;
      if why then
        let c := br_config br in
        say (newline +:+ "[dim]priority = " +:+ f_general (w_fair c) +:+ " x (1 - share of pool used) + "
          +:+ f_general (w_age c) +:+ " x min(1, waited / " +:+ f_general (age_max_hours c) +:+ "h)" +:+ newline
          +:+ "usage decays by half every " +:+ f_general (fairshare_half_life_days c) +:+ " days.[/dim]")
      else ret tt
  end.

(** ** [gpu cancel] *)

Definition refund_of (j : Job) : C Decimal :=
  spent <- ask_db (fun d => job_spend d (j_job_id j));; ret (dec_sub (reserved j) (of_cents spent)).

(** [_print_cancel_plan(broker, job)] *)
Definition print_cancel_plan (br : Broker W) (j : Job) : C unit :=
  if is_terminal j then
    say ("[dim]" +:+ short_id j +:+ " is already " +:+ str_lower (state_str (j_state j)) +:+ ". Nothing would happen.[/dim]")
  else
    refund <- refund_of j;;
    say ("would cancel " +:+ short_id j +:+ " (" +:+ j_user_id j +:+ ", " +:+ j_gpu_type j +:+ ")");;;
    (if truthy (j_backend j) && truthy (j_backend_handle j) then
       match backend (br_backends br) (default "" (j_backend j)) with
       | None => say ("  [yellow]backend " +:+ default "" (j_backend j)
                    +:+ " is not configured; the machine would be left running[/yellow]")
       | Some b =>
           r <- on_store (attempt (call (b_validate_terminate b (default "" (j_backend_handle j)))) is_broker_error);;
           match r with
           | inr text => say ("  " +:+ text)
           | inl e => say ("  [red]would fail: " +:+ exn_str e +:+ "[/red]")
           end
       end
     else say "  it is still queued, so no machine would be touched");;;
    say ("  " +:+ fmt refund (j_currency j) +:+ " would go back to " +:+ j_user_id j +:+ "'s budget").

(** The part of [cancel] inside its [try]: the cancelled job, or nothing after a dry run *)
Definition cancel_or_plan (br : Broker W) (job_id : string) (dry_run : bool) (user : option string) : C (option Job) :=
  j <- on_store (query (fun d => find_job d job_id));;
  let actor := whoami user in
  officer <- ask_db (is_admin_of actor);;
  if negb (String.eqb (j_user_id j) actor) && negb officer then
    die ("job " +:+ short_id j +:+ " belongs to " +:+ j_user_id j +:+ ", not you")
      (Some "ask them, or ask an admin to cancel it")
  else if dry_run then print_cancel_plan br j;;; ret None
  else cancelled <- on_store (cancel br job_id (Some actor) false);; ret (Some cancelled).

(** [cancel(job_id, dry_run, user)] *)
Definition cmd_cancel (job_id : string) (dry_run : bool) (user : option string) : C unit :=
  br <- open_cli;;
  done_ <- or_die (cancel_or_plan br job_id dry_run user);;
  match done_ with
  | None => ret tt
  | Some j =>
      refunded <- refund_of j;;
      say ("[yellow]cancelled[/yellow] " +:+ short_id j +:+ ". " +:+ fmt refunded (j_currency j) +:+ " returned to your budget.")
  end.

(** ** [gpu budget] and [gpu who] *)

Definition coloured (red : bool) (text : string) : string := "[" +:+ (if red then "red" else "green") +:+ "]" +:+ text +:+ "[/]".

(** [balance.available <= balance.budget / 10] *)
Definition is_low (b : Balance) : bool :=
  match dec_div (bal_budget b) (dec_of_Z 10) with Some tenth => dec_leb (bal_available b) tenth | None => false end.

Definition balance_row (e : Currency * Balance) : list string :=
  let '(c, b) := e in
  [currency_label c; fmt (of_cents (bal_spent b)) c; fmt (of_cents (bal_held b)) c;
   coloured (is_low b) (fmt (bal_available b) c); fmt (bal_budget b) c].

Definition pool_row (br : Broker W) (e : Currency * Balance) : C (list string) :=
  let '(c, b) := e in
  committed <- on_store (pool_committed (br_config br) c);;
  headroom <- on_store (pool_headroom (br_config br) c);;
  ret [currency_label c; fmt (of_cents (bal_spent b)) c; fmt (of_cents (committed - bal_spent b)) c;
       fmt (of_cents (bal_committed b - committed)) c; coloured (dec_leb headroom ZERO) (fmt headroom c); fmt (bal_budget b) c].

(** [_print_pool(broker)] *)
Definition print_pool (br : Broker W) : C unit :=
  period <- on_store (period_now (br_config br));;
  balances <- on_store (pool br);;
  rows <- mapM_ (pool_row br) balances;;
  print (Table (Some ("club pool - " +:+ period)) ["currency"; "spent"; "running"; "queued"; "free to dispatch"; "cap"] rows);;;
  say "[dim]'queued' is demand waiting for room. It does not count against the cap until it is dispatched.[/dim]".

(** [budget(user, pool)] *)
Definition cmd_budget (user : option string) (pool_view : bool) : C unit :=
  br <- open_cli;;
  if pool_view then print_pool br
  else
    let user_id := whoami user in
    balances <- on_store (budgets br user_id);;
    period <- on_store (period_now (br_config br));;
    print (Table (Some (user_id +:+ " - " +:+ period)) ["currency"; "spent"; "held"; "left"; "budget"] (map balance_row balances));;;
    say "[dim]'held' is reserved by your jobs that have not finished yet.[/dim]".

(** [who()] *)
Definition cmd_who : C unit :=
  br <- open_cli;;
  holders <- on_store who;;
  match holders with
  | [] => say "[dim]nothing running. The pool is idle.[/dim]"
  | _ =>
      t <- on_store now;;
      rows <- ask_db (fun d => map (fun j =>
        [j_user_id j; short_id j; j_gpu_type j; styled_state (j_state j); f_fixed 1 (elapsed_hours j t) +:+ "h";
         fmt (of_cents (job_spend d (j_job_id j))) (j_currency j); fmt (reserved j) (j_currency j)]) holders);;
      print (Table None ["user"; "id"; "gpu"; "state"; "running"; "spent"; "of ceiling"] rows)
  end.

(** ** [gpu logs] *)

Definition log_line (e : Z * LogRow) : string :=
  let row := snd e in
  let style := if String.eqb (lg_stream row) "stderr" then "red" else if String.eqb (lg_stream row) "broker" then "dim" else "" in
  "[dim]" +:+ hms (lg_at row) +:+ "[/dim] "
  +:+ (if non_empty style then "[" +:+ style +:+ "]" +:+ lg_line row +:+ "[/]" else lg_line row).

(** The loop of [logs]; between two turns the other processes do the next of [others],
    and the last turn is the one after all of them. *)
Fixpoint follow_logs (br : Broker W) (others : list (St W -> St W)) (job_id : string) (after : Z) (follow : bool) : C unit :=
  lines <- on_store (logs job_id after);;
  say_all (map log_line lines);;;
  let after := fold_left (fun _ e => fst e) lines after in
  if negb follow then ret tt
  else
    j <- on_store (query (fun d => find_job d job_id));;
    if is_terminal j then say ("[dim]-- job " +:+ str_lower (state_str (j_state j)) +:+ " --[/dim]")
    else
      match others with
      | [] => ret tt
      | other :: others =>
          on_store (sleep_for (f_of_Z 2));;; on_store (modify other);;; follow_logs br others job_id after follow
      end.

(** [logs(job_id, follow)] *)
Definition cmd_logs (others : list (St W -> St W)) (job_id : string) (follow : bool) : C unit :=
  br <- open_cli;;
  j <- or_die (on_store (query (fun d => find_job d job_id)));;
  follow_logs br others (j_job_id j) 0 follow.

(** ** [gpu tick] *)

Definition tick_parts (r : TickReport) : list string :=
  concat (map (fun p => match snd p with
                        | [] => []
                        | items => [fst p +:+ ": " +:+ str_join ", " (map (str_take 8) items)]
                        end)
    [("dispatched", tr_dispatched r); ("completed", tr_completed r); ("failed", tr_failed r);
     ("stopped at ceiling", tr_stopped_at_ceiling r); ("waiting on pool cap", tr_blocked_on_pool_cap r);
     ("waiting on capacity", tr_blocked_on_capacity r); ("waiting on their own limit", tr_blocked_on_tenant r);
     ("held: owner suspended", tr_blocked_on_authorization r)]).

(** [dict(pairs)] *)
Definition as_dict {A} (pairs : list (string * A)) : dict string A :=
  fold_left (fun m p => dict_set (fst p) (snd p) m) pairs [].

(** The row of one decision in [_print_plan] *)
Definition plan_row (checks problems : dict string string) (d : Decision) : list string :=
  let j := d_job d in
  let row style verb detail := [short_id j; j_user_id j; j_gpu_type j; "[" +:+ style +:+ "]" +:+ verb +:+ "[/]"; detail] in
  match d_action d with
  | DISPATCH =>
      let detail := str_or (dict_get (j_job_id j) problems) (default (d_detail d) (dict_get (j_job_id j) checks)) in
      match dict_get (j_job_id j) problems with
      | Some _ => row "red" "FAIL" detail
      | None => row "green" "launch" detail
      end
  | BLOCKED_POOL => row "yellow" "wait" ("pool cap: " +:+ d_detail d)
  | _ => row "yellow" "wait" (d_detail d)
  end.

(** [_print_plan(broker)] *)
Definition print_plan (br : Broker W) : C unit :=
  p <- on_store (plan pow (br_config br) (br_backends br));;
  match plan_decisions p with
  | [] => say "[dim]nothing queued. A real tick would do nothing.[/dim]"
  | ds =>
      let checks := as_dict (plan_checks p) in
      let problems := as_dict (plan_problems p) in
      print (Table (Some "dry run - nothing was launched") ["id"; "user"; "gpu"; "would"; "detail"] (map (plan_row checks problems) ds));;;
      match problems with
      | [] => ret tt
      | _ =>
          complain (newline +:+ "[red]" +:+ str_of_Z (Z.of_nat (length problems))
            +:+ " of these would fail.[/red] Fix them before the next real tick.");;;
          exit 1
      end
  end.

(** [tick(dry_run)] *)
Definition cmd_tick (dry_run : bool) : C unit :=
  br <- open_cli;;
  if dry_run then print_plan br
  else
    report <- on_store (broker_tick pow br);;
    match tick_parts report with
    | [] => say "[dim]nothing to do.[/dim]"
    | parts => say (str_join newline parts)
    end.

(** ** [gpu reap] *)

Definition orphan_row (o : Orphan) : list string :=
  [or_backend o +:+ "/" +:+ or_handle o; or_gpu_type o; str_or (or_user_id o) "[red]untagged[/red]";
   match or_launched_at o with Some _ => f_fixed 1 (or_age_hours o) +:+ "h" | None => "?" end;
   "[red]" +:+ fmt (of_cents (or_burned o)) (or_currency o) +:+ "[/red]"; or_reason o].

(** [reap()] *)
Definition cmd_reap : C unit :=
  br <- open_cli;;
  report <- on_store (broker_reap br);;
  match rp_orphans report with
  | [] => say ("[green]nothing to reap.[/green] Scanned " +:+ str_of_Z (rp_scanned report)
            +:+ " machine(s); every one has a live job behind it.")
  | orphans =>
      print (Table (Some (str_of_Z (Z.of_nat (length orphans)) +:+ " orphan(s) of " +:+ str_of_Z (rp_scanned report) +:+ " machine(s) scanned"))
        ["machine"; "gpu"; "launched by"; "age"; "burned"; "why"] (map orphan_row orphans));;;
      let burned := str_join ", " (map (fun c => fmt (of_cents (total_burned report c)) c)
                      (List.filter (fun c => 0 <? total_burned report c) all_currencies)) in
      (if non_empty burned then say (newline +:+ "total burned by orphans: [red]" +:+ burned +:+ "[/red]") else ret tt);;;
      (match by_user report with
       | [] => ret tt
       | users => say ("[dim]who to ask, most expensive first: "
                    +:+ str_join ", " (map (fun ua => fst ua +:+ " (" +:+ fmt (of_cents (snd ua)) USD +:+ ")") users) +:+ "[/dim]")
       end);;;
      say (newline +:+ "[dim]Nothing was terminated. Check each one, then stop it yourself with `gpu cancel` or the AWS console.[/dim]");;;
      exit 1
  end.

(** ** [gpu prices] *)

Definition is_builtin (p : Price) : bool := String.eqb (prc_source p) "builtin".

Definition price_row (t : Z) (p : Price) : list string :=
  [prc_gpu_type p; (if non_empty (prc_instance_type p) then prc_instance_type p else "-"); fmt (prc_hourly p) (prc_currency p);
   (if is_builtin p then "[yellow]" +:+ prc_source p +:+ "[/yellow]" else "[green]" +:+ prc_source p +:+ "[/green]");
   match prc_currency p with USD => f_fixed 0 (age_days p t) +:+ "d" | GPU_HOUR => "-" end].

(** [prices(refresh)]; [fetch] is what [refresh_prices] asks of the client *)
Definition cmd_prices (fetch : string -> string -> method W Decimal) (refresh_first : bool) : C unit :=
  br <- open_cli;;
  br <- (if refresh_first then
           r <- or_die (on_store (refresh_prices br fetch));;
           let '(br, report) := r in
           mapM_ (fun f => complain ("[yellow]" +:+ fst f +:+ ": " +:+ snd f +:+ "[/yellow]")) (rr_failed report);;;
           say ("[dim]refreshed " +:+ str_of_Z (Z.of_nat (length (rr_updated report))) +:+ " price(s) from AWS.[/dim]" +:+ newline);;;
           ret br
         else ret br);;
  t <- on_store now;;
  let all := map snd (pb_prices (br_prices br)) in
  print (Table None ["gpu"; "instance"; "per hour"; "source"; "age"] (map (price_row t) (py_sort (on prc_gpu_type str_lt) all)));;;
  if existsb (fun p => is_builtin p && bool_decide (prc_currency p = USD)) all then
    say (newline +:+ "[dim]`builtin` means a number typed in by hand, not one AWS gave us. Run `gpu prices --refresh`.[/dim]")
  else ret tt.

(** ** [gpu forecast] *)

Definition level_str (l : Level) : string :=
  match l with LEVEL_OK => "OK" | WARNING => "WARNING" | CRITICAL => "CRITICAL" | EXHAUSTED => "EXHAUSTED" end.

Definition level_colour (l : Level) : string :=
  match l with LEVEL_OK => "green" | WARNING => "yellow" | CRITICAL | EXHAUSTED => "red" end.

(** One turn of the loop: what is printed, and [worst] after it. *)
Definition forecast_turn (br : Broker W) (worst : Level) (c : Currency) : C Level :=
  f <- on_store (forecast (br_config br) c);;
  say ("[" +:+ level_colour (fc_level f) +:+ "]" +:+ ljust 9 (level_str (fc_level f)) +:+ "[/] "
    +:+ ljust 15 (currency_label c) +:+ " " +:+ headline f);;;
  (match fc_dry_on f, fc_days_left f with
   | Some day, Some days =>
       if f_eq days f0 then ret tt
       else say ("[dim]" +:+ ljust 9 "" +:+ " " +:+ ljust 15 "" +:+ " empty around " +:+ weekday_day_month day +:+ "[/dim]")
   | _, _ => ret tt
   end);;;
  ret (if bool_decide (fc_level f = LEVEL_OK) then worst else fc_level f).

(** [forecast()] *)
Definition cmd_forecast : C unit :=
  br <- open_cli;;
  worst <- foldM (forecast_turn br) LEVEL_OK all_currencies;;
  say (newline +:+ "[dim]Straight-line from the last " +:+ f_general (forecast_window_days (br_config br))
    +:+ " days. Three people starting week-long runs tomorrow is not in this number.[/dim]");;;
  match worst with CRITICAL | EXHAUSTED => exit 1 | _ => ret tt end.

(** ** [gpu reclaim] *)

Definition reclaim_row (t : Z) (held : dict string string) (reclaimed : list string) (v : IdleVerdict) : list string :=
  let j := iv_job v in
  [short_id j; j_user_id j; j_gpu_type j; f_fixed 1 (idle_hours v t) +:+ "h"; f_fixed 1 (iv_peak_percent v) +:+ "%";
   fmt (of_cents (iv_wasted v)) (iv_currency v);
   if bool_decide (j_job_id j ∈ reclaimed) then "[red]reclaimed[/red]"
   else match dict_get (j_job_id j) held with
        | Some why => "[dim]" +:+ why +:+ "[/dim]"
        | None => "[yellow]would reclaim[/yellow]"
        end].

(** [reclaim(force)] *)
Definition cmd_reclaim (force : bool) : C unit :=
  br <- open_cli;;
  report <- on_store (reclaim br force);;
  t <- on_store now;;
  match rc_idle report with
  | [] => say "[green]nothing idle.[/green] Every running job is using its GPU."
  | idle =>
      print (Table None ["job"; "user"; "gpu"; "idle"; "peak"; "wasted"; "status"]
        (map (reclaim_row t (as_dict (rc_held report)) (rc_reclaimed report)) idle));;;
      (match would_reclaim report with
       | [] => ret tt
       | vs =>
           say (newline +:+ "[yellow]" +:+ str_of_Z (Z.of_nat (length vs)) +:+ " job(s) would have been reclaimed.[/yellow] "
             +:+ "Nothing was killed: reclaim_enabled is false in config.json. "
             +:+ "Watch this be right for a few weeks, then turn it on.");;;
           mapM_ (fun v =>
             say (newline +:+ "[dim]" +:+ short_id (iv_job v) +:+ " -- the samples that justify it:[/dim]");;;
             say ("[dim]" +:+ evidence v EVIDENCE_LIMIT +:+ "[/dim]")) vs;;;
           ret tt
       end);;;
      say (newline +:+ "[dim]Every one of these was told before it appeared here. `gpu status <id>` shows a job's own samples.[/dim]")
  end.

(** ** [gpu hosts] and [gpu doctor] *)

(** [broker.hosts(refresh)] *)
Definition hosts_of (br : Broker W) (refresh_now : bool) : C (list HostHealth) :=
  match local_backend br with Some (_, ops) => on_store (call (lo_health ops refresh_now)) | None => ret [] end.

Definition host_row (br : Broker W) (h : HostHealth) : C (list string) :=
  free <- (match local_backend br with
           | Some (_, ops) =>
               if accepts_jobs (hh_state h) then n <- on_store (call (lo_free_on ops h));; ret (str_of_Z n) else ret "0"
           | None => ret "0"
           end);;
  let cards := str_join ", " (map (fun g => commands.gi_name g +:+ " " +:+ str_of_Z (commands.gi_memory_total_mb g) +:+ "MB") (hh_gpus h)) in
  ret [hh_hostname h;
       "[" +:+ (if accepts_jobs (hh_state h) then "green" else "yellow") +:+ "]" +:+ host_state_str (hh_state h) +:+ "[/]";
       (if non_empty cards then cards else "-"); free; (if hh_mps_ready h then "up" else "[dim]down[/dim]");
       if hh_limits_enforced h then "[green]yes[/green]"
       else if hh_limits_tested h then "[red]NO[/red]" else "[dim]?[/dim]"].

Definition host_reason (h : HostHealth) : C unit :=
  if accepts_jobs (hh_state h) then ret tt
  else if hh_limits_tested h && negb (hh_limits_enforced h) then
    complain (newline +:+ "[red]" +:+ hh_hostname h +:+ ": cgroup limits are NOT ENFORCED.[/red] "
      +:+ "One job can take the whole machine down, so nothing will be placed here until it is fixed. " +:+ hh_reason h)
  else say (newline +:+ "[yellow]" +:+ hh_hostname h +:+ " is " +:+ str_lower (host_state_str (hh_state h)) +:+ "[/yellow]: " +:+ hh_reason h).

(** [hosts(refresh)] *)
Definition cmd_hosts (refresh_now : bool) : C unit :=
  br <- open_cli;;
  found <- hosts_of br refresh_now;;
  match found with
  | [] => say ("[dim]no local pool configured. Add hosts under `local` in config.json and put "
            +:+ dquote +:+ "local" +:+ dquote +:+ " in `backends`.[/dim]")
  | _ =>
      rows <- mapM_ (host_row br) found;;
      print (Table None ["host"; "state"; "gpus"; "free"; "mps"; "limits"] rows);;;
      mapM_ host_reason found;;;
      if existsb (fun h => negb (accepts_jobs (hh_state h))) found then
        say (newline +:+ "[dim]A drained host keeps running whatever is already on it. It just stops taking new work.[/dim]")
      else ret tt
  end.

Definition status_mark (s : Status) : string :=
  match s with C_OK => "[green]ok  [/green]" | C_WARN => "[yellow]warn[/yellow]" | C_FAIL => "[red]FAIL[/red]" end.

Definition check_lines (c : Check) : list string :=
  (status_mark (ch_status c) +:+ "  [bold]" +:+ ch_name c +:+ "[/bold]  " +:+ ch_detail c)
  :: (if non_empty (ch_fix c) then ["       [dim]" +:+ ch_fix c +:+ "[/dim]"] else []).

(** [doctor()]; [diagnosis] is [diagnose(broker)] *)
Definition cmd_doctor (diagnosis : Broker W -> M (St W) exn (list Check)) : C unit :=
  br <- open_cli;;
  results <- on_store (diagnosis br);;
  say_all (concat (map check_lines results));;;
  match List.filter bad results with
  | [] => say (newline +:+ "[green]everything checks out.[/green]")
  | broken =>
      complain (newline +:+ "[red]" +:+ str_of_Z (Z.of_nat (length broken))
        +:+ " thing(s) need fixing[/red] before this will run against real hardware.");;;
      exit 1
  end.

(** ** [gpu metrics], [gpu digest], [gpu report] *)

Definition metric_row (d : DB) (since : Z) (m : string * string) : list (list string) :=
  match map pt_value (series d (fst m) (Some since) None) with
  | [] => []
  | v :: vs =>
      let n := Z.of_nat (length (v :: vs)) in
      [[snd m; f_fixed 1 (f_div (f_sum (v :: vs)) (f_of_Z n)); f_fixed 1 (fold_left f_max vs v); str_of_Z n]]
  end.

(** [metrics(prune, export)]; [retention_days] is the setting *)
Definition cmd_metrics (retention_days : float) (prune_now export : bool) : C unit :=
  br <- open_cli;;
  t <- on_store now;;
  if export then body <- ask_db (fun d => prometheus d t (Some STALE_AFTER));; say body
  else if prune_now then
    cutoff <- expr (add_days t (f_neg retention_days));;
    removed <- on_store (Metrics.prune cutoff);;
    say ("removed " +:+ str_of_Z removed +:+ " point(s) older than " +:+ ymd cutoff)
  else
    rows <- ask_db (fun d => concat (map (metric_row d (t - 7 * us_per_day))
      [(QUEUE_DEPTH, "jobs queued"); (RUNNING_JOBS, "jobs running"); (HEAD_WAIT_HOURS, "longest wait (h)");
       (UTILIZATION, "gpu utilization %")]));;
    print (Table (Some "last 7 days") ["metric"; "mean"; "peak"; "points"] rows);;;
    say "[dim]Scrape `gpu metrics --prometheus`, or the web app's /metrics.[/dim]".

(** [digest(days, send)]; [post] is the webhook *)
Definition cmd_digest (post : string -> string -> Prelude.M W exn Z) (webhook : string) (days : float) (send_it : bool) : C unit :=
  br <- open_cli;;
  g <- on_store (Digest.digest br days);;
  let body := render g in
  say body;;;
  if send_it then
    or_die (posted <- on_store (call (fun _ => send post webhook body));; say ("[green]" +:+ posted +:+ "[/green]"))
  else ret tt.

(** [Path(path).write_text(text)] *)
Context (write_text : string -> string -> method W unit).

(** [report(days, baseline, out)] *)
Definition cmd_report (get_cost_and_usage : string -> string -> Prelude.M W string (list json)) (days : float) (baseline : bool)
    (out : option string) : C unit :=
  br <- open_cli;;
  (if baseline then
     r <- on_store (attempt (refresh_baseline get_cost_and_usage 6) is_broker_error);;
     match r with
     | inr months => say ("[dim]baseline: " +:+ str_of_Z (Z.of_nat (length months)) +:+ " month(s) from Cost Explorer[/dim]")
     | inl e => complain ("[yellow]" +:+ exn_str e +:+ "[/yellow]")
     end
   else ret tt);;;
  t <- on_store now;;
  since <- expr (add_days t (f_neg days));;
  r <- on_store (broker_report br (Some since));;
  body <- expr (markdown r);;
  say body;;;
  match out with
  | Some (String _ _ as path) =>
      on_store (call (write_text path body));;; say (newline +:+ "[dim]written to " +:+ path +:+ "[/dim]")
  | _ => ret tt
  end.

(** ** [gpu run] and [gpu reconcile] *)

(** One of the four loops of [narrate] *)
Definition narrate_each (text : Job -> string) (ids : list string) : C unit :=
  mapM_ (fun id => j <- on_store (query (fun d => find_job d id));; say (text j)) ids;;; ret tt.

(** [narrate(report)] *)
Definition narrate (r : TickReport) : C unit :=
  narrate_each (fun j => "  [green]start[/green]  " +:+ short_id j +:+ "  " +:+ j_user_id j +:+ "  " +:+ j_gpu_type j
    +:+ "  [dim]" +:+ str_take 44 (j_command j) +:+ "[/dim]") (tr_dispatched r);;;
  narrate_each (fun j => "  [green]done [/green]  " +:+ short_id j) (tr_completed r);;;
  narrate_each (fun j => "  [red]fail [/red]  " +:+ short_id j +:+ "  [dim]" +:+ str_lower (state_str (j_state j)) +:+ "[/dim]") (tr_failed r);;;
  narrate_each (fun j => "  [yellow]stop [/yellow]  " +:+ short_id j +:+ "  [dim]hit its budget ceiling[/dim]") (tr_stopped_at_ceiling r).

(** The loop of [broker.run_until_idle(step_seconds, on_tick=narrate)] *)
Fixpoint narrated_ticks (br : Broker W) (step_seconds : float) (ticks : nat) (reports : list TickReport)
  : C (option (list TickReport)) :=
  match ticks with
  | O => ret None
  | S ticks =>
      report <- on_store (broker_tick pow br);;
      narrate report;;;
      queued <- ask_db queued_jobs;;
      active <- ask_db active_jobs;;
      match queued, active with
      | [], [] => ret (Some (reports ++ [report]))
      | _, _ => on_store (sleep_for step_seconds);;; narrated_ticks br step_seconds ticks (reports ++ [report])
      end
  end.

Definition total_of {A} (f : TickReport -> list A) (reports : list TickReport) : Z :=
  zsum (fun r => Z.of_nat (length (f r))) reports.

(** [run(interval)]; [max_ticks] is the default of [run_until_idle] *)
Definition cmd_run (interval : float) (max_ticks : nat) : C unit :=
  br <- open_cli;;
  say ("[dim]scheduling every " +:+ f_general interval +:+ "s. ctrl-c to stop.[/dim]");;;
  r <- narrated_ticks br interval max_ticks [];;
  match r with
  | None => raise (Escaped (BrokerError ("queue did not drain after " +:+ str_of_Z (Z.of_nat max_ticks)
              +:+ " ticks. Something is stuck: check `gpu queue --why` and `gpu reconcile`.")))
  | Some reports =>
      say ("queue drained. dispatched " +:+ str_of_Z (total_of tr_dispatched reports) +:+ ", finished "
        +:+ str_of_Z (total_of (fun r => tr_completed r ++ tr_failed r) reports) +:+ ".")
  end.

(** [reconcile()] *)
Definition cmd_reconcile : C unit :=
  br <- open_cli;;
  drifts <- on_store (reconcile (br_backends br));;
  match drifts with
  | [] => say "[green]no drift.[/green] Every record matches every backend."
  | _ =>
      say ("[yellow]" +:+ str_of_Z (Z.of_nat (length drifts))
        +:+ " disagreement(s) found.[/yellow] Reporting only, nothing was touched." +:+ newline);;;
      say_all (map (fun d => "  " +:+ drift_str d) drifts);;;
      say (newline +:+ "[dim]ORPHAN means a backend is holding capacity for a job we consider finished.[/dim]");;;
      exit 1
  end.

(** ** [gpu admin] *)

(** [Decimal(text) if text else None] *)
Definition amount_option (text : option string) (number : string -> string) : outcome exn (option Decimal) :=
  match text with
  | Some (String _ _ as s) =>
      v <-? of_option (decimal_text (number s)) (ArithmeticError "[<class 'decimal.ConversionSyntax'>]");; Ok (Some v)
  | _ => Ok None
  end.

(** [admin_add_user(user_id, usd, gpu_hours, admin, user)] *)
Definition cmd_add_user (user_id : string) (usd gpu_hours : option string) (admin : bool) (user : option string) : C unit :=
  br <- open_cli;;
  u <- or_die (
    dollars <- expr (amount_option usd lstrip_dollars);;
    hours <- expr (amount_option gpu_hours id);;
    on_store (add_user br user_id (Some (whoami user)) false None dollars hours (if admin then Some true else None)));;
  say ("[green]" +:+ u_user_id u +:+ "[/green]: " +:+ fmt (u_budget_usd u) USD +:+ " and "
    +:+ fmt (u_budget_gpu_hours u) GPU_HOUR +:+ " per month" +:+ (if u_is_admin u then " [dim](admin)[/dim]" else "")).

(** [admin_drain(hostname, reason, user)], [admin_undrain(hostname, user)] *)
Definition cmd_drain (hostname reason : string) (user : option string) : C unit :=
  br <- open_cli;;
  or_die (on_store (broker_drain_host br hostname reason (whoami user) false));;;
  say ("[yellow]" +:+ hostname +:+ " drained[/yellow]: " +:+ reason +:+ ". Jobs already running there are untouched.").

Definition cmd_undrain (hostname : string) (user : option string) : C unit :=
  br <- open_cli;;
  or_die (on_store (broker_undrain_host br hostname (whoami user) false));;;
  say ("[green]" +:+ hostname +:+ "[/green] will be re-checked on the next pass.").

Definition user_row (br : Broker W) (u : User) : C (list string) :=
  balances <- on_store (budgets br (u_user_id u));;
  ret (u_user_id u :: map (fun cb => fmt (bal_available (snd cb)) (fst cb)) balances
       ++ [(if u_is_admin u then "yes" else ""); if is_suspended u then u_suspended_reason u else ""]).

(** [admin_users()] *)
Definition cmd_users : C unit :=
  br <- open_cli;;
  users <- ask_db list_users;;
  rows <- mapM_ (user_row br) users;;
  print (Table None ["user"; "dollars left"; "gpu-hours left"; "admin"; "suspended"] rows).

(** The check both [admin_suspend] and [admin_restore] start with *)
Definition officers_first (actor : string) : C unit :=
  officer <- ask_db (is_admin_of actor);;
  if negb officer then die (actor +:+ " is not an officer") (Some "ask one to run this") else ret tt.

(** [admin_suspend(user_id, reason, user)] *)
Definition cmd_suspend (user_id reason : string) (user : option string) : C unit :=
  br <- open_cli;;
  let actor := whoami user in
  officers_first actor;;;
  u <- or_die (on_store (broker_suspend_user user_id reason (Some actor) false));;
  held <- ask_db (fun d => queued_count d user_id);;
  say ("[yellow]suspended[/yellow] " +:+ u_user_id u +:+ ". " +:+ str_of_Z held
    +:+ " queued job(s) held; nothing was cancelled. `gpu admin restore " +:+ u_user_id u +:+ "` puts them back.").

(** [admin_restore(user_id, user)] *)
Definition cmd_restore (user_id : string) (user : option string) : C unit :=
  br <- open_cli;;
  let actor := whoami user in
  officers_first actor;;;
  u <- or_die (on_store (broker_restore_user user_id (Some actor) false));;
  held <- ask_db (fun d => queued_count d user_id);;
  say ("[green]restored[/green] " +:+ u_user_id u +:+ ". " +:+ str_of_Z held +:+ " held job(s) go on the next tick.").

(** ** [gpu env] *)

Context (sha256 : string -> string) (read_file : string -> option string).

Definition env_row (e : Environment) : C (list string) :=
  builds <- on_store (builds_for (Environments.digest sha256 e));;
  let ready := map bld_target (List.filter usable builds) in
  ret [env_name e; "[dim]" +:+ Environments.digest sha256 e +:+ "[/dim]"; str_of_Z (Z.of_nat (length (env_requirements e)));
       match ready with [] => "[dim]on first use[/dim]" | _ => str_join ", " ready end;
       (if non_empty (env_owner e) then env_owner e else "-")].

(** [env_list()] *)
Definition cmd_env_list : C unit :=
  open_cli;;;
  found <- on_store environment_list;;
  match found with
  | [] => say "[dim]no environments yet. `gpu env create mine --requirements requirements.txt`[/dim]"
  | _ =>
      rows <- mapM_ env_row found;;
      print (Table None ["name"; "digest"; "packages"; "built"; "owner"] rows);;;
      say ("[dim]An environment is built the first time a job asks for it, then reused. "
        +:+ "Changing a package changes the digest, so a cached build is never stale.[/dim]")
  end.

Definition no_environment {A} (name : string) (hint : option string) : C A :=
  die ("no environment called " +:+ py_repr name) hint.

(** [env_show(name)] *)
Definition cmd_env_show (name : string) : C unit :=
  open_cli;;;
  found <- on_store (environment name);;
  match found with
  | None => no_environment name (Some "`gpu env list` shows them")
  | Some e =>
      say ("[bold]" +:+ env_name e +:+ "[/bold]  [dim]" +:+ Environments.digest sha256 e +:+ "[/dim]");;;
      (if non_empty (env_description e) then say ("  " +:+ env_description e) else ret tt);;;
      say ("  base    " +:+ env_base_image e);;;
      say_all (map (fun r => "  pip     " +:+ r) (env_requirements e));;;
      say_all (map (fun p => "  apt     " +:+ p) (env_apt_packages e));;;
      builds <- on_store (builds_for (Environments.digest sha256 e));;
      match builds with
      | [] => say "  [dim]not built anywhere yet; the first job that asks builds it[/dim]"
      | _ => say_all (map (fun b => "  [" +:+ (if usable b then "green" else "yellow") +:+ "]" +:+ bld_target b +:+ "[/]  "
               +:+ (if non_empty (bld_reference b) then bld_reference b else bld_detail b)) builds)
      end
  end.

(** [env_create(name, requirements, pip, apt, base, description, user)]; [read_file] is
    [None] where there is no such file *)
Definition cmd_env_create (name : string) (requirements : option string) (pip apt : list string) (base : option string)
    (description : string) (user : option string) : C unit :=
  open_cli;;;
  listed <- match requirements with
            | Some (String _ _ as path) =>
                match read_file path with
                | None => die ("no such file: " +:+ path) None
                | Some text => e <- expr (from_requirements name text);; ret (env_requirements e)
                end
            | _ => ret []
            end;;
  let packages := pip ++ listed in
  let e := mkEnvironment name (str_or base DEFAULT_BASE) "" packages apt (whoami user) description None None in
  or_die (expr (validate_env e));;;
  existing <- on_store (environment name);;
  saved <- on_store (save_environment e);;
  (match existing with
   | Some old =>
       if String.eqb (Environments.digest sha256 old) (Environments.digest sha256 saved) then
         say ("[green]" +:+ name +:+ "[/green]  [dim]" +:+ Environments.digest sha256 saved +:+ "[/dim]  "
           +:+ str_of_Z (Z.of_nat (length packages)) +:+ " package(s)")
       else
         say ("[yellow]" +:+ name +:+ " changed[/yellow]: " +:+ Environments.digest sha256 old +:+ " -> "
           +:+ Environments.digest sha256 saved +:+ ". Jobs already running keep the old build; the next one builds this.")
   | None => say ("[green]" +:+ name +:+ "[/green]  [dim]" +:+ Environments.digest sha256 saved +:+ "[/dim]  "
           +:+ str_of_Z (Z.of_nat (length packages)) +:+ " package(s)")
   end);;;
  say ("[dim]use it with: gpu submit --env " +:+ name +:+ " -- python train.py[/dim]").

(** [env_delete(name)] *)
Definition cmd_env_delete (name : string) : C unit :=
  open_cli;;;
  found <- on_store (environment name);;
  match found with
  | None => no_environment name None
  | Some _ =>
      on_store (delete_environment name);;;
      say ("[yellow]" +:+ name +:+ " removed.[/yellow] Jobs already using it keep running.")
  end.

(** ** [gpu trace] *)

Context (hmac : string -> string -> string) (read_text : string -> W -> W * outcome string string).

Definition json_text (v : json) : string := match v with JStr s => s | JInt n => str_of_Z n | _ => dumps default_style v end.
Definition field_text (key : string) (bundle : dict string json) : string := json_text (default JNull (dict_get key bundle)).

(** [except TraceError] *)
Definition is_trace_error (e : exn) : bool := match e with TraceError _ => true | _ => false end.
(** [except (json.JSONDecodeError, TraceError)] *)
Definition is_replay_error (e : exn) : bool := match e with TraceError _ | ValueError _ => true | _ => false end.

(** A study of the database, written to a file *)
Definition exported (study : DB -> outcome exn (dict string json * string)) (output : string) : C (dict string json) :=
  or_die_of is_trace_error (
    r <- on_store (query study);;
    on_store (call (write_text output (snd r)));;; ret (fst r)).

(** [trace_export(output)] *)
Definition cmd_trace_export (output : string) : C unit :=
  open_cli;;;
  bundle <- exported (export_trace sha256) output;;
  let jobs := match dict_get "jobs" bundle with Some (JList l) => length l | _ => O end in
  say ("[green]exported[/green] " +:+ str_of_Z (Z.of_nat jobs) +:+ " anonymized job(s) to " +:+ output);;;
  say ("[dim]sha256 " +:+ field_text "content_sha256" bundle +:+ "[/dim]").

(** [repr(dict)] of texts *)
Definition repr_spend (m : dict string string) : string :=
  "{" +:+ str_join ", " (map (fun kv => py_repr (fst kv) +:+ ": " +:+ py_repr (snd kv)) m) +:+ "}".

(** [trace_replay(trace)]; what [replay_trace] does not decide, it does not print *)
Definition cmd_trace_replay (path : string) : C unit :=
  text <- on_store (fun s => let (w, r) := read_text path (world s) in (mkSt (db s) (clock s) (journal s) w, Ok r));;
  match text with
  | Raise message => die message None
  | Ok text =>
      summary <- or_die_of is_replay_error (expr (replay_trace sha256 pow text));;
      match summary with
      | None => ret tt
      | Some r =>
          say ("[green]replayed[/green] " +:+ str_of_Z (rs_jobs r) +:+ " job(s), " +:+ str_of_Z (rs_users r) +:+ " user(s), "
            +:+ str_of_Z (rs_completed r) +:+ " completed, max " +:+ str_of_Z (rs_max_active r) +:+ " active");;;
          say ("p95 wait " +:+ match rs_p95_wait_seconds r with Some x => f_fixed 1 x +:+ "s" | None => "unavailable" end
            +:+ "; useful GPU-hours " +:+ f_fixed 3 (rs_useful_gpu_hours r) +:+ "; Jain fairness "
            +:+ match rs_jain_fairness r with Some x => f_fixed 3 x | None => "unavailable" end
            +:+ "; spend " +:+ repr_spend (rs_spend r));;;
          say "[yellow]deadline and optimizer metrics remain unavailable[/yellow]";;;
          say ("[dim]sha256 " +:+ rs_digest r +:+ "[/dim]")
      end
  end.

(** [trace_cost_export(output, salt_env)] *)
Definition cmd_trace_cost_export (output salt_env : string) : C unit :=
  match environ salt_env with
  | Some (String _ _ as salt) =>
      open_cli;;;
      report <- exported (fun d => export_cost_report sha256 hmac d salt) output;;
      let boundary := match dict_get "evidence_boundary" report with Some (JDict kvs) => kvs | _ => [] end in
      say ("[green]exported[/green] aggregate study for " +:+ field_text "jobs" boundary +:+ " job(s), "
        +:+ field_text "anonymous_users" boundary +:+ " anonymous user(s) to " +:+ output);;;
      say ("[dim]sha256 " +:+ field_text "content_sha256" report +:+ "[/dim]")
  | _ => die (salt_env +:+ " is not set; the salt is required and must not be committed") None
  end.

(** [trace_prune(days)] *)
Definition cmd_trace_prune (days : Z) : C unit :=
  open_cli;;;
  t <- on_store now;;
  let cutoff := t - days * us_per_day in
  if cutoff <? MIN_DATETIME then raise (Escaped (OverflowError "date value out of range"))
  else
    deleted <- on_store (delete_schedule_observations_before cutoff);;
    say ("[green]deleted[/green] " +:+ str_of_Z deleted +:+ " observation(s) older than " +:+ str_of_Z days +:+ " days").
End Cli.

(** ** The program *)

(** What surrounds the commands: the settings, the backends and everything outside. *)
Record Shell (W : Type) := mkShell {
  sh_pow : pow_fun;
  sh_environ : string -> option string;
  sh_loaded : Loaded;
  sh_prices : AwsPrices;
  sh_backends : list (Backend W);
  sh_checkpoints : option (string -> method W (option CheckpointRef));
  sh_schema : Z * Z * string;
  sh_aws_probe : AwsProbe W;
  sh_checkpoint_probe : CheckpointProbe W;
  sh_fetch : string -> string -> method W Decimal;
  sh_post : string -> string -> Prelude.M W exn Z;
  sh_costs : string -> string -> Prelude.M W string (list json);
  sh_write_text : string -> string -> method W unit;
  sh_read_text : string -> W -> W * outcome string string;
  sh_read_file : string -> option string;
  sh_sha256 : string -> string;
  sh_hmac : string -> string -> string
}.
Arguments sh_pow {W} _.
Arguments sh_environ {W} _.
Arguments sh_loaded {W} _.
Arguments sh_prices {W} _.
Arguments sh_backends {W} _.
Arguments sh_checkpoints {W} _.
Arguments sh_schema {W} _.
Arguments sh_aws_probe {W} _.
Arguments sh_checkpoint_probe {W} _.
Arguments sh_fetch {W} _.
Arguments sh_post {W} _.
Arguments sh_costs {W} _.
Arguments sh_write_text {W} _.
Arguments sh_read_text {W} _.
Arguments sh_read_file {W} _.
Arguments sh_sha256 {W} _.
Arguments sh_hmac {W} _.

Inductive Command :=
| CSubmit (command : list string) (gpu : option string) (hours : float) (budget env : option string) (pilot : bool)
    (user : option string) (new_job_id : string)
| CStatus (job_id user : option string) (all_users : bool) (limit : nat)
| CQueue (why : bool)
| CCancel (job_id : string) (dry_run : bool) (user : option string)
| CBudget (user : option string) (pool : bool)
| CWho
| CLogs (job_id : string)
| CTick (dry_run : bool)
| CReap
| CPrices (refresh : bool)
| CForecast
| CReclaim (force : bool)
| CHosts (refresh : bool)
| CDoctor
| CMetrics (prune export : bool)
| CDigest (days : float) (send : bool)
| CReport (days : float) (baseline : bool) (out : option string)
| CRun (interval : float)
| CReconcile
| CAddUser (user_id : string) (usd gpu_hours : option string) (admin : bool) (user : option string)
| CDrain (hostname reason : string) (user : option string)
| CUndrain (hostname : string) (user : option string)
| CUsers
| CSuspend (user_id reason : string) (user : option string)
| CRestore (user_id : string) (user : option string)
| CEnvList
| CEnvShow (name : string)
| CEnvCreate (name : string) (requirements : option string) (pip apt : list string) (base : option string)
    (description : string) (user : option string)
| CEnvDelete (name : string)
| CTraceExport (output : string)
| CTraceReplay (trace : string)
| CTraceCostExport (output salt_env : string)
| CTracePrune (days : Z).

(** How the process ends: by a status, or by an exception nothing caught. *)
Inductive finish := Finished (status : Z) | Traceback (x : ended).

Section Main.
Context {W : Type} `{TimeZones} (sh : Shell W).

Definition cli_config : BrokerConfig := ld_config (sh_loaded sh).

(** [open_broker(state_dir)] *)
Definition opening_of : M (St W) exn (Broker W) :=
  open_broker cli_config (sh_prices sh) (sh_backends sh) (sh_checkpoints sh).

(** [diagnose(broker)] *)
Definition diagnosis_of (br : Broker W) : M (St W) exn (list Check) :=
  let '(version, latest, journal_mode) := sh_schema sh in
  diagnose (sh_loaded sh) br (sh_environ sh) version latest journal_mode (sh_aws_probe sh) (sh_checkpoint_probe sh).

(** [@app.command], [@admin_app.command], [@env_app.command], [@trace_app.command] *)
Definition perform (c : Command) : M (Term W) ended unit :=
  let o := opening_of in
  match c with
  | CSubmit command g hours budget env pilot user new_job_id =>
      cmd_submit (sh_pow sh) (sh_environ sh) o command g hours budget env pilot user new_job_id
  | CStatus job_id user all_users limit => cmd_status (sh_environ sh) o job_id user all_users limit
  | CQueue why => cmd_queue (sh_pow sh) o why
  | CCancel job_id dry_run user => cmd_cancel (sh_environ sh) o job_id dry_run user
  | CBudget user pool_view => cmd_budget (sh_environ sh) o user pool_view
  | CWho => cmd_who o
  | CLogs job_id => cmd_logs o [] job_id false
  | CTick dry_run => cmd_tick (sh_pow sh) o dry_run
  | CReap => cmd_reap o
  | CPrices refresh_first => cmd_prices o (sh_fetch sh) refresh_first
  | CForecast => cmd_forecast o
  | CReclaim force => cmd_reclaim o force
  | CHosts refresh_now => cmd_hosts o refresh_now
  | CDoctor => cmd_doctor o diagnosis_of
  | CMetrics prune_now export => cmd_metrics o (ld_metrics_retention_days (sh_loaded sh)) prune_now export
  | CDigest days send_it => cmd_digest o (sh_post sh) (ld_digest_webhook (sh_loaded sh)) days send_it
  | CReport days baseline out => cmd_report o (sh_write_text sh) (sh_costs sh) days baseline out
  | CRun interval => cmd_run (sh_pow sh) o interval (Z.to_nat 10000)
  | CReconcile => cmd_reconcile o
  | CAddUser user_id usd gpu_hours admin user => cmd_add_user (sh_environ sh) o user_id usd gpu_hours admin user
  | CDrain hostname reason user => cmd_drain (sh_environ sh) o hostname reason user
  | CUndrain hostname user => cmd_undrain (sh_environ sh) o hostname user
  | CUsers => cmd_users o
  | CSuspend user_id reason user => cmd_suspend (sh_environ sh) o user_id reason user
  | CRestore user_id user => cmd_restore (sh_environ sh) o user_id user
  | CEnvList => cmd_env_list o (sh_sha256 sh)
  | CEnvShow name => cmd_env_show o (sh_sha256 sh) name
  | CEnvCreate name requirements pip apt base description user =>
      cmd_env_create (sh_environ sh) o (sh_sha256 sh) (sh_read_file sh) name requirements pip apt base description user
  | CEnvDelete name => cmd_env_delete o name
  | CTraceExport output => cmd_trace_export o (sh_write_text sh) (sh_sha256 sh) output
  | CTraceReplay trace => cmd_trace_replay (sh_pow sh) (sh_sha256 sh) (sh_read_text sh) trace
  | CTraceCostExport output salt_env =>
      cmd_trace_cost_export (sh_environ sh) o (sh_write_text sh) (sh_sha256 sh) (sh_hmac sh) output salt_env
  | CTracePrune days => cmd_trace_prune o days
  end.

(** [main()]: the [typer.Exit] that [die] raises here is outside [app()], where nothing
    turns it into a status. *)
Definition main (c : Command) (t : Term W) : Term W * finish :=
  match perform c t with
  | (t', Ok _) => (t', Finished 0)
  | (t', Raise (Exit code)) => (t', Finished code)
  | (t', Raise (Escaped e)) =>
      if is_broker_error e then
        match @die W unit (exn_str e) None t' with
        | (t'', Raise x) => (t'', Traceback x)
        | (t'', Ok _) => (t'', Finished 0)
        end
      else (t', Traceback (Escaped e))
  end.

(** What the shell sees *)
Definition status_of (f : finish) : Z := match f with Finished code => code | Traceback _ => 1 end.
End Main.
