(* ===== verification/CliSafe.v ===== *)
(** * The commands keep the database well formed

    Every command is [safely] run: like [safe] of [StoreInv], over the screen.  The
    commands that look are [quietly] run, which is more: they leave the database and the
    journal alone, whatever the backends, the hosts and the services answer. *)

From S2P Require Import Prelude PyFloat PyDecimal PyFormat PySort PyDict Errors Money Clock PyJson PyText Checkpoint States Models Config Tables Store StoreInv StoreSafe Environments Admission FairShare Backend Commands Hosts Placement Idle Metrics PriceList Pricing Forecast Report Reaper Scheduler SchedulerSafe Broker Digest Trace WebApp BrokerSafe WebSafe Aws Volumes WebAuth Gce ConfigLoad Doctor Cli.
Local Open Scope Z_scope.
Local Open Scope py_scope.

(** ** Computations that write nothing *)

Section Looks.
Context {W : Type} `{TimeZones}.

Lemma looks_reads {A} (m : M (St W) exn A) : reads m -> looks m.
Proof. intros Hm s. by rewrite (Hm s). Qed.

Lemma looks_raise {A} (e : exn) : looks (raise (S := St W) (A := A) e).
Proof. by intros s. Qed.

Lemma looks_foldM {A B} (f : A -> B -> M (St W) exn A) l : (forall a x, looks (f a x)) -> forall a, looks (foldM f a l).
Proof.
  intros Hf. induction l as [|x l IH]; intros a; [apply looks_ret|]. cbn. apply looks_bind; [apply Hf|apply IH].
Qed.

Lemma looks_try {A} (m : M (St W) exn A) caught h : looks m -> (forall e, looks (h e)) -> looks (try_catch m caught h).
Proof.
  intros Hm Hh s. unfold try_catch. specialize (Hm s). destruct (m s) as [s' [a|e]]; [done|].
  destruct (caught e); [|done]. destruct (Hh e s') as [-> ->]. exact Hm.
Qed.

Lemma looks_attempt {A} (m : M (St W) exn A) caught : looks m -> looks (attempt m caught).
Proof.
  intros Hm. unfold attempt. apply looks_try; [|intros e; apply looks_ret].
  apply looks_bind; [done|intros a; apply looks_ret].
Qed.

Create HintDb looks.
#[local] Hint Resolve looks_ret looks_raise looks_call looks_attempt : looks.
Ltac looks_walk :=
  repeat first
    [ solve [auto with looks] | by intros ?
    | match goal with
      | |- looks (bind _ _) => apply looks_bind; [|intros ?]
      | |- looks (foldM _ _ _) => apply looks_foldM; intros ? ?
      | |- looks (mapM_ _ _) => apply looks_mapM; intros ?
      | |- looks (match ?x with _ => _ end) => destruct x
      end ].

Lemma looks_open config aws backends checkpoints : looks (open_broker (W := W) config aws backends checkpoints).
Proof. unfold open_broker, reapply_drains. looks_walk. Qed.

Lemma looks_choose (br : Broker W) j backends : looks (W := W) (choose (br_config br) j backends).
Proof.
  unfold choose. apply looks_bind; [by intros s|]. intros g.
  assert (Hb : forall t bs sk, looks (W := W) (try_backends j g t bs sk)).
  { intros t. induction bs as [|b bs IH]; intros sk; cbn; looks_walk. }
  apply looks_bind; [|intros [sk|p]; looks_walk].
  generalize (@nil (string * string)). induction (order_for (br_config br) j) as [|t order IH]; intros sk; cbn; looks_walk.
Qed.

Lemma looks_decide (br : Broker W) headroom suspended w j :
  looks (W := W) (decide_one (br_config br) (br_backends br) headroom suspended w j).
Proof. pose proof (looks_choose br) as Hc. unfold decide_one. looks_walk; try done. Qed.

Lemma looks_plan_one acc st : looks (plan_one (W := W) acc st).
Proof. unfold plan_one. looks_walk. Qed.

(** A dry run, on backends that may answer anything *)
Lemma looks_plan pow (br : Broker W) : looks (plan pow (br_config br) (br_backends br)).
Proof.
  pose proof (looks_decide br) as Hd. pose proof looks_plan_one as Ho.
  assert (Hw : forall headroom suspended queue w acc,
    looks (W := W) (walk_queue (br_config br) (br_backends br) plan_one headroom suspended w queue acc)).
  { intros headroom suspended. induction queue as [|[j p] rest IH]; intros w acc; cbn; looks_walk; try done. }
  unfold plan, decisions. looks_walk; try done.
Qed.

Lemma looks_reconcile (backends : list (Backend W)) : looks (reconcile backends).
Proof. unfold reconcile, reconcile_backend. looks_walk. Qed.
End Looks.

(** ** Commands that write nothing *)

(** [m] only adds lines to the screen. *)
Definition quietly {W A} (m : M (Term W) ended A) : Prop := forall t,
  db (tm_store (fst (m t))) = db (tm_store t) /\ journal (tm_store (fst (m t))) = journal (tm_store t) /\
  exists more, tm_lines (fst (m t)) = tm_lines t ++ more.

Section Quiet.
Context {W : Type}.

Lemma quietly_ret {A} (a : A) : quietly (W := W) (ret a).
Proof. intros t. split_and!; [done..|]. exists []. by rewrite app_nil_r. Qed.

Lemma quietly_raise {A} (x : ended) : quietly (W := W) (A := A) (raise x).
Proof. intros t. split_and!; [done..|]. exists []. by rewrite app_nil_r. Qed.

Lemma quietly_bind {A B} (m : M (Term W) ended A) (k : A -> M (Term W) ended B) :
  quietly m -> (forall a, quietly (k a)) -> quietly (bind m k).
Proof.
  intros Hm Hk t. unfold bind. specialize (Hm t). destruct (m t) as [t' [a|e]]; [|exact Hm].
  destruct Hm as (Hd & Hj & more & Hl), (Hk a t') as (-> & -> & more' & ->). split_and!; [done..|].
  exists (more ++ more'). cbn in Hl. by rewrite Hl, app_assoc.
Qed.

Lemma quietly_on {A} (m : M (St W) exn A) : looks m -> quietly (on_store m).
Proof.
  intros Hm t. unfold on_store. specialize (Hm (tm_store t)). destruct (m (tm_store t)) as [s' r], Hm.
  split_and!; [done..|]. exists []. by rewrite app_nil_r.
Qed.

Lemma quietly_reads {A} (m : M (St W) exn A) : reads m -> quietly (on_store m).
Proof. intros Hm. by apply quietly_on, looks_reads. Qed.

Lemma quietly_print l : quietly (W := W) (print l).
Proof. intros t. split_and!; [done..|]. by exists [l]. Qed.

Lemma quietly_mapM {A B} (f : A -> M (Term W) ended B) l : (forall x, quietly (f x)) -> quietly (mapM_ f l).
Proof.
  intros Hf. induction l as [|x l IH]; [apply quietly_ret|]. cbn. apply quietly_bind; [done|]. intros y.
  apply quietly_bind; [done|]. intros ys. apply quietly_ret.
Qed.

Lemma quietly_foldM {A B} (f : A -> B -> M (Term W) ended A) l :
  (forall a x, quietly (f a x)) -> forall a, quietly (foldM f a l).
Proof.
  intros Hf. induction l as [|x l IH]; intros a; [apply quietly_ret|]. cbn. apply quietly_bind; [apply Hf|apply IH].
Qed.

Lemma quietly_say text : quietly (W := W) (say text).
Proof. apply quietly_print. Qed.

Lemma quietly_complain text : quietly (W := W) (complain text).
Proof. apply quietly_print. Qed.

Lemma quietly_say_all texts : quietly (W := W) (say_all texts).
Proof. unfold say_all. apply quietly_bind; [apply quietly_mapM, quietly_say|intros ?; apply quietly_ret]. Qed.

Lemma quietly_ask {A} (f : DB -> A) : quietly (W := W) (ask_db f).
Proof. by apply quietly_reads. Qed.

Lemma quietly_expr {A} (r : outcome exn A) : quietly (W := W) (expr r).
Proof. by apply quietly_reads. Qed.

Lemma quietly_die {A} message hint : quietly (W := W) (A := A) (die message hint).
Proof.
  unfold die. apply quietly_bind; [apply quietly_complain|intros ?].
  apply quietly_bind; [|intros ?; apply quietly_raise]. destruct hint as [[|]|]; try apply quietly_ret. apply quietly_complain.
Qed.

Lemma quietly_or_die {A} caught (m : M (Term W) ended A) : quietly m -> quietly (or_die_of caught m).
Proof.
  intros Hm t. unfold or_die_of, try_catch. specialize (Hm t). destruct (m t) as [t' [a|[c|e]]]; [exact Hm..|].
  destruct (caught e); [|exact Hm]. destruct Hm as (Hd & Hj & more & Hl).
  destruct (@quietly_die A (exn_str e) None t') as (-> & -> & more' & ->). split_and!; [done..|].
  exists (more ++ more'). cbn in Hl. by rewrite Hl, app_assoc.
Qed.
End Quiet.

Create HintDb quietly.
#[export] Hint Resolve quietly_ret quietly_raise quietly_print quietly_say quietly_complain quietly_say_all quietly_ask
  quietly_expr quietly_die : quietly.

(** Taking a command apart: its calls of the store are left. *)
Ltac quiet_walk :=
  repeat first
    [ solve [auto with quietly]
    | match goal with
      | |- quietly (bind _ _) => apply quietly_bind; [|intros ?]
      | |- quietly (foldM _ _ _) => apply quietly_foldM; intros ? ?
      | |- quietly (mapM_ _ _) => apply quietly_mapM; intros ?
      | |- quietly (or_die _) => apply quietly_or_die
      | |- quietly (or_die_of _ _) => apply quietly_or_die
      | |- quietly (match ?x with _ => _ end) => destruct x
      | |- quietly (let '(_, _) := ?x in _) => destruct x
      | |- quietly (on_store (call _)) => apply quietly_on, looks_call
      | |- quietly (on_store _) => solve [apply quietly_reads; reads_walk]
      end ].

Section Commands.
Context {W : Type} `{TimeZones} (sh : Shell W).
Abbreviation o := (opening_of sh).

Lemma quietly_open : quietly (open_cli o).
Proof. apply quietly_on, looks_open. Qed.
#[local] Hint Resolve quietly_open : quietly.

Lemma quietly_exit {A} code : quietly (W := W) (A := A) (exit code).
Proof. apply quietly_raise. Qed.
#[local] Hint Resolve quietly_exit : quietly.

Lemma quiet_status job_id user all_users limit : quietly (cmd_status (sh_environ sh) o job_id user all_users limit).
Proof. unfold cmd_status, print_job_detail, print_job_table. quiet_walk. Qed.

Lemma quiet_queue why : quietly (cmd_queue (sh_pow sh) o why).
Proof. unfold cmd_queue, queue_of, ordered_queue. quiet_walk. Qed.

Lemma quiet_cancel job_id user : quietly (cmd_cancel (sh_environ sh) o job_id true user).
Proof.
  unfold cmd_cancel, cancel_or_plan, print_cancel_plan, refund_of. quiet_walk.
  all: try (apply quietly_on, looks_attempt, looks_call). all: quiet_walk.
Qed.

Lemma quiet_budget user pool_view : quietly (cmd_budget (sh_environ sh) o user pool_view).
Proof.
  unfold cmd_budget, print_pool, pool_row. quiet_walk; try apply quietly_reads.
  all: unfold pool, pool_balance, pool_committed, pool_headroom, period_now, budgets, balance; reads_walk.
Qed.

Lemma quiet_who : quietly (cmd_who o).
Proof. unfold cmd_who, who. quiet_walk. Qed.

Lemma quiet_logs job_id follow : quietly (cmd_logs o [] job_id follow).
Proof. unfold cmd_logs, follow_logs, logs. quiet_walk. Qed.

Lemma quiet_plan : quietly (cmd_tick (sh_pow sh) o true).
Proof. unfold cmd_tick, print_plan. quiet_walk. apply quietly_on, looks_plan. Qed.

Lemma quiet_prices : quietly (cmd_prices o (sh_fetch sh) false).
Proof. unfold cmd_prices. quiet_walk. Qed.

Lemma quiet_forecast : quietly (cmd_forecast o).
Proof. unfold cmd_forecast, forecast_turn. quiet_walk; try apply quietly_reads, reads_forecast. Qed.

Lemma quiet_hosts refresh_now : quietly (cmd_hosts o refresh_now).
Proof. unfold cmd_hosts, hosts_of, host_row, host_reason. quiet_walk. Qed.

Lemma quiet_doctor : quietly (cmd_doctor o (diagnosis_of sh)).
Proof.
  unfold cmd_doctor, diagnosis_of. quiet_walk. apply quietly_on. destruct (sh_schema sh) as [[? ?] ?]. apply looks_diagnose.
Qed.

Lemma quiet_metrics prune_now export_ : negb prune_now || export_ = true ->
  quietly (cmd_metrics o (ld_metrics_retention_days (sh_loaded sh)) prune_now export_).
Proof. intros Hl. unfold cmd_metrics. destruct prune_now, export_; try done; quiet_walk. Qed.

Lemma quiet_digest days send_it :
  quietly (cmd_digest o (sh_post sh) (ld_digest_webhook (sh_loaded sh)) days send_it).
Proof.
  unfold cmd_digest. quiet_walk. apply quietly_reads. unfold Digest.digest, idle_jobs.
  reads_walk; apply reads_forecast.
Qed.

Lemma quiet_report days out : quietly (cmd_report o (sh_write_text sh) (sh_costs sh) days false out).
Proof. unfold cmd_report, broker_report. quiet_walk. Qed.

Lemma quiet_reconcile : quietly (cmd_reconcile o).
Proof. unfold cmd_reconcile. quiet_walk. apply quietly_on, looks_reconcile. Qed.

Lemma quiet_users : quietly (cmd_users o).
Proof. unfold cmd_users, user_row. quiet_walk. apply quietly_reads, reads_budgets. Qed.

Lemma quiet_env_list : quietly (cmd_env_list o (sh_sha256 sh)).
Proof. unfold cmd_env_list, env_row, environment_list, builds_for. quiet_walk. Qed.

Lemma quiet_env_show name : quietly (cmd_env_show o (sh_sha256 sh) name).
Proof. unfold cmd_env_show, no_environment, environment, builds_for. quiet_walk. Qed.

Lemma quiet_trace_export output : quietly (cmd_trace_export o (sh_write_text sh) (sh_sha256 sh) output).
Proof. unfold cmd_trace_export, exported. quiet_walk. Qed.

Lemma quiet_trace_replay path : quietly (cmd_trace_replay (sh_pow sh) (sh_sha256 sh) (sh_read_text sh) path).
Proof.
  unfold cmd_trace_replay. quiet_walk. apply quietly_on. intros s. by destruct (sh_read_text sh path (world s)).
Qed.

Lemma quiet_trace_cost_export output salt_env :
  quietly (cmd_trace_cost_export (sh_environ sh) o (sh_write_text sh) (sh_sha256 sh) (sh_hmac sh) output salt_env).
Proof. unfold cmd_trace_cost_export, exported. quiet_walk. Qed.
#[local] Hint Resolve quiet_status quiet_queue quiet_cancel quiet_budget quiet_who quiet_logs quiet_plan quiet_prices
  quiet_forecast quiet_hosts quiet_doctor quiet_metrics quiet_digest quiet_report quiet_reconcile quiet_users
  quiet_env_list quiet_env_show quiet_trace_export quiet_trace_replay quiet_trace_cost_export : quietly.

(** The commands the help text describes as looking *)
Definition looking (c : Command) : bool :=
  match c with
  | CStatus _ _ _ _ | CQueue _ | CBudget _ _ | CWho | CLogs _ | CForecast | CHosts _ | CDoctor | CDigest _ _ | CReconcile
  | CUsers | CEnvList | CEnvShow _ | CTraceExport _ | CTraceReplay _ | CTraceCostExport _ _ => true
  | CCancel _ dry_run _ | CTick dry_run => dry_run
  | CPrices refresh_first => negb refresh_first
  | CMetrics prune_now export => negb prune_now || export
  | CReport _ baseline _ => negb baseline
  | _ => false
  end.

Lemma quiet_perform c : looking c = true -> quietly (perform sh c).
Proof.
  destruct c; cbn [looking perform]; intros Hl; try done;
    repeat match goal with b : bool |- _ => destruct b; try done end; auto with quietly.
Qed.
End Commands.

(** ** Commands that write *)

(** [safe], over the screen *)
Definition safely {W A} (js : list Job) (m : M (Term W) ended A) (f : A -> list Job) : Prop :=
  forall t, sound (tm_store t) -> Forall (copy_of (db (tm_store t))) js ->
  let '(t', r) := m t in
  sound (tm_store t') /\ grows (tm_store t) (tm_store t') /\
  match r with Ok a => Forall (copy_of (db (tm_store t'))) (f a) | Raise _ => True end.

Section Safely.
Context {W : Type}.

Lemma safely_bind {A B} js (m : M (Term W) ended A) f (k : A -> M (Term W) ended B) g :
  safely js m f -> (forall a, safely (f a ++ js) (k a) g) -> safely js (bind m k) g.
Proof.
  intros Hm Hk t Hs Hc. unfold bind. specialize (Hm t Hs Hc).
  destruct (m t) as [t1 [a|e]]; destruct Hm as (Hs1 & He1 & Ha); [|by split_and!].
  specialize (Hk a t1 Hs1). destruct (k a t1) as [t2 [b|e]];
    (destruct Hk as (? & He2 & ?);
      [apply Forall_app; split; [done|by eapply Forall_copy_extends]|]);
    (split_and!; [done|by etransitivity|done]).
Qed.

Lemma safely_then {A B} js (m : M (Term W) ended A) (k : A -> M (Term W) ended B) g :
  safely js m none -> (forall a, safely js (k a) g) -> safely js (bind m k) g.
Proof. intros Hm Hk. eapply safely_bind; [exact Hm|]. intros a. apply Hk. Qed.

Lemma safely_weaken {A} js js' (m : M (Term W) ended A) f f' :
  safely js' m f' -> js' ⊆ js -> (forall a, f a ⊆ f' a) -> safely js m f.
Proof.
  intros Hm Hjs Hf t Hs Hc. specialize (Hm t Hs). destruct (m t) as [t' [a|e]]; destruct Hm as (? & ? & ?).
  1,3: by eapply Forall_sub.
  - split_and!; [done..|]. eapply Forall_sub; [apply Hf|done].
  - by split_and!.
Qed.

Lemma safely_on {A} js (m : M (St W) exn A) f : safe js m f -> safely js (on_store m) f.
Proof.
  intros Hm t Hs Hc. unfold on_store. specialize (Hm (tm_store t) Hs Hc). by destruct (m (tm_store t)) as [s' [a|e]].
Qed.

Lemma safely_quiet {A} js (m : M (Term W) ended A) : quietly m -> safely js m none.
Proof.
  intros Hm t Hs Hc. specialize (Hm t). destruct (m t) as [t' r]. cbn in Hm. destruct Hm as (Hd & Hj & _).
  destruct (sound_same _ (tm_store t') Hs Hd Hj). split_and!; [done..|]. by destruct r.
Qed.

Lemma safely_raise {A} js (x : ended) f : safely js (raise x : M (Term W) ended A) f.
Proof. intros t Hs Hc. by cbn. Qed.

Lemma safely_or_die {A} js caught (m : M (Term W) ended A) f : safely js m f -> safely js (or_die_of caught m) f.
Proof.
  intros Hm t Hs Hc. unfold or_die_of, try_catch. specialize (Hm t Hs Hc).
  destruct (m t) as [t' [a|[code|e]]]; [done..|]. destruct (caught e); [|done]. destruct Hm as (Hs' & Hg & _).
  pose proof (quietly_die (W := W) (A := A) (exn_str e) None t') as (Hd & Hj & _).
  destruct (die (exn_str e) None t') as [t'' [a|x]] eqn:E; cbn in Hd, Hj; [by injection E|].
  destruct (sound_same _ (tm_store t'') Hs' Hd Hj). split_and!; [done|by etransitivity|done].
Qed.
End Safely.

(** Taking a command apart: what it writes is left. *)
Ltac safely_walk :=
  repeat first
    [ apply safely_raise
    | solve [apply safely_quiet; quiet_walk]
    | match goal with
      | |- safely _ (bind _ _) _ => apply safely_then; [|intros ?]
      | |- safely _ (or_die _) _ => apply safely_or_die
      | |- safely _ (match ?x with _ => _ end) _ => destruct x
      | |- safely _ (let '(_, _) := ?x in _) _ => destruct x
      | |- safely _ (on_store _) none => apply safely_on; solve [eauto with safe]
      end ].

Section Writing.
Context {W : Type} `{TimeZones} (sh : Shell W).
Abbreviation o := (opening_of sh).
#[local] Hint Resolve quietly_open quietly_exit : quietly.

Lemma safely_submit command gpu_option hours budget env pilot user id :
  safely (W := W) [] (cmd_submit (sh_pow sh) (sh_environ sh) o command gpu_option hours budget env pilot user id) none.
Proof.
  destruct command as [|word words]; [safely_walk|]. unfold cmd_submit, parse_budget, pilot_gpu, queue_of, ordered_queue.
  apply safely_then; [safely_walk|intros b]. apply safely_then; [safely_walk|intros br]. apply safely_then; [safely_walk|intros name].
  eapply safely_bind.
  { apply safely_or_die. apply safely_then; [|intros _; apply safely_on, safe_submit_job].
    unfold ensure_user. safely_walk; apply safely_on, safe_add_user. }
  intros r. destruct (sr_refusal r); [safely_walk|]. apply safely_then; [|intros j; safely_walk].
  destruct pilot; [|safely_walk]. apply safely_on. eapply safe_weaken; [eapply safe_pin_tier|done|set_solver]. set_solver.
Qed.

Lemma safely_cancel job_id dry_run user :
  safely (W := W) [] (cmd_cancel (sh_environ sh) o job_id dry_run user) none.
Proof.
  destruct dry_run; [apply safely_quiet, quiet_cancel|]. unfold cmd_cancel, cancel_or_plan, refund_of. safely_walk.
  eapply safely_on, safe_weaken; [apply safe_cancel|done|set_solver].
Qed.

Lemma safely_tick dry_run : safely (W := W) [] (cmd_tick (sh_pow sh) o dry_run) none.
Proof. destruct dry_run; [apply safely_quiet, quiet_plan|]. unfold cmd_tick. safely_walk; apply safely_on, safe_broker_tick. Qed.

Lemma safely_reap : safely (W := W) [] (cmd_reap o) none.
Proof. unfold cmd_reap. safely_walk; apply safely_on, safe_broker_reap. Qed.

Lemma safely_prices refresh_first : safely (W := W) [] (cmd_prices o (sh_fetch sh) refresh_first) none.
Proof. unfold cmd_prices. safely_walk; apply safely_on, safe_refresh_prices. Qed.

Lemma safely_reclaim force : safely (W := W) [] (cmd_reclaim o force) none.
Proof. unfold cmd_reclaim. safely_walk; apply safely_on, safe_reclaim. Qed.

Lemma safely_metrics prune_now export_ :
  safely (W := W) [] (cmd_metrics o (ld_metrics_retention_days (sh_loaded sh)) prune_now export_) none.
Proof. unfold cmd_metrics. safely_walk; apply safely_on, safe_prune. Qed.

Lemma safely_report days baseline out : safely (W := W) [] (cmd_report o (sh_write_text sh) (sh_costs sh) days baseline out) none.
Proof. unfold cmd_report, broker_report. safely_walk; apply safely_on, safe_attempt, safe_refresh_baseline. Qed.

Lemma safely_ticks br step_seconds ticks reports :
  safely (W := W) [] (narrated_ticks (sh_pow sh) br step_seconds ticks reports) none.
Proof.
  revert reports. induction ticks as [|ticks IH]; intros reports; cbn; unfold narrate, narrate_each; safely_walk; try apply IH.
  1: apply safely_on, safe_broker_tick.
  all: apply safely_on, safe_sleep_for.
Qed.

Lemma safely_run interval max_ticks : safely (W := W) [] (cmd_run (sh_pow sh) o interval max_ticks) none.
Proof. unfold cmd_run. safely_walk; apply safely_ticks. Qed.

Lemma safely_add_user user_id usd gpu_hours admin user :
  safely (W := W) [] (cmd_add_user (sh_environ sh) o user_id usd gpu_hours admin user) none.
Proof. unfold cmd_add_user. safely_walk; apply safely_on, safe_add_user. Qed.

Lemma safely_drain hostname reason user : safely (W := W) [] (cmd_drain (sh_environ sh) o hostname reason user) none.
Proof. unfold cmd_drain. safely_walk; apply safely_on, safe_broker_drain_host. Qed.

Lemma safely_undrain hostname user : safely (W := W) [] (cmd_undrain (sh_environ sh) o hostname user) none.
Proof. unfold cmd_undrain. safely_walk; apply safely_on, safe_broker_undrain_host. Qed.

Lemma safely_suspend user_id reason user : safely (W := W) [] (cmd_suspend (sh_environ sh) o user_id reason user) none.
Proof. unfold cmd_suspend, officers_first. safely_walk; apply safely_on, safe_broker_suspend_user. Qed.

Lemma safely_restore user_id user : safely (W := W) [] (cmd_restore (sh_environ sh) o user_id user) none.
Proof. unfold cmd_restore, officers_first. safely_walk; apply safely_on, safe_broker_restore_user. Qed.

Lemma safely_env_create name requirements pip apt base description user :
  safely (W := W) [] (cmd_env_create (sh_environ sh) o (sh_sha256 sh) (sh_read_file sh) name requirements pip apt base description user) none.
Proof. unfold cmd_env_create, environment. safely_walk; apply safely_on, safe_save_environment. Qed.

Lemma safely_env_delete name : safely (W := W) [] (cmd_env_delete o name) none.
Proof. unfold cmd_env_delete, no_environment, environment. safely_walk; apply safely_on, safe_delete_environment. Qed.

Lemma safely_trace_prune days : safely (W := W) [] (cmd_trace_prune o days) none.
Proof. unfold cmd_trace_prune. safely_walk; apply safely_on, safe_delete_observations. Qed.
#[local] Hint Resolve safely_submit safely_cancel safely_tick safely_reap safely_prices safely_reclaim safely_metrics safely_report
  safely_run safely_add_user safely_drain safely_undrain safely_suspend safely_restore safely_env_create safely_env_delete
  safely_trace_prune : quietly.

Lemma safely_perform c : safely (W := W) [] (perform sh c) none.
Proof. destruct (looking c) eqn:Hl; [by apply safely_quiet, quiet_perform|]. destruct c; cbn [perform]; try done; auto with quietly. Qed.

(** What a command does to the store *)
Definition command (c : Command) : M (St W) exn unit := fun s => (tm_store (fst (main sh c (mkTerm s []))), Ok tt).

Lemma safe_command c : safe [] (command c) none.
Proof.
  intros s Hs Hc. unfold command, main. pose proof (safely_perform c (mkTerm s []) Hs Hc) as Hp.
  destruct (perform sh c _) as [t' [u|[code|e]]]; destruct Hp as (Hs' & Hg & _); [by split_and!..|].
  destruct (is_broker_error e); [|by split_and!].
  pose proof (quietly_die (W := W) (A := unit) (exn_str e) None t') as (Hd & Hj & _).
  destruct (die (exn_str e) None t') as [t'' [u|x]]; cbn in *;
    (destruct (sound_same _ (tm_store t'') Hs' Hd Hj); split_and!; [done|by etransitivity|done]).
Qed.
End Writing.
