(* ===== verification/System.v ===== *)
(** * The whole system: requests, crashes and the world outside

    [serve] is one request to the broker or the store, or to the web app or the
    command line over a broker of its own, run to its end, returned or raised.
    [step] adds that a process can die at any commit and restart, perhaps with
    other settings, and that time and the machines move on by themselves.  Two
    processes serving at once are interleaved at whole requests only. *)

From Stdlib Require Import Sorted.
From S2P Require Import Prelude PyFloat PyDecimal PyFormat PySort PyDict Errors Money Clock States Models Config Tables Store StoreInv StoreSafe Admission FairShare Backend Placement Idle Metrics Pricing Forecast Reaper Checkpoint Scheduler SchedulerSafe Broker BrokerSafe WebAuth WebApp WebSafe Cli CliSafe.
Local Open Scope Z_scope.
Local Open Scope py_scope.

Section System.
Context {W : Type} `{TimeZones} (pow : pow_fun).

Record System := mkSystem {
  sy_broker : Broker W;
  sy_store : St W
}.

Inductive Request : Type :=
| Submit (user_id command gpu_type : string) (hours : float) (budget : option Decimal)
    (environment : option string) (origin job_id : string)
| Cancel (job_id : string) (actor : option string) (admin : bool)
| RequestCancel (job_id actor : string)
| PinTier (job_id tier reason : string)
| Tick
| RunUntilIdle (step_seconds : float) (max_ticks : nat)
| Reconcile
| Plan
| Reclaim (force : bool)
| Reap
| AddUser (user_id : string) (actor : option string) (admin : bool) (display_name : option string)
    (budget_usd budget_gpu_hours : option Decimal) (is_admin : option bool)
| SuspendUser (user_id reason : string) (actor : option string) (admin : bool)
| RestoreUser (user_id : string) (actor : option string) (admin : bool)
| DrainHost (hostname reason actor : string) (admin : bool)
| UndrainHost (hostname actor : string) (admin : bool)
| RefreshPrices (fetch : string -> string -> method W Decimal)
| SaveEnvironment (e : Environment)
| DeleteEnvironment (name : string)
| RecordBuild (digest target state reference detail : string)
| SaveBaseline (period : string) (instance_hours : float) (dollars : Decimal) (source : string)
| PruneMetrics (older_than : Z)
| PruneObservations (cutoff : Z)
| Visit (app : WebApp W) (rq : WebApp.Request) (a : Action)
| Enter (sh : Shell W) (c : Command).

(** An operation of the store on a job looked up by its prefix. *)
Definition on_job (prefix : string) (k : Job -> M (St W) exn Job) : M (St W) exn Job :=
  job <- query (fun d => find_job d prefix);; k job.

(** What serving a request does to the store, [refresh_prices] aside. *)
Definition serve_store (br : Broker W) (r : Request) : M (St W) exn unit :=
  match r with
  | Submit u cmd g h b e o id => submit br u cmd g h b e o id;;; ret tt
  | Cancel id a adm => cancel br id a adm;;; ret tt
  | RequestCancel id a => on_job id (fun j => request_cancel j a);;; ret tt
  | PinTier id tier why => on_job id (fun j => pin_tier j tier why);;; ret tt
  | Tick => broker_tick pow br;;; ret tt
  | RunUntilIdle x n => run_until_idle pow br x n;;; ret tt
  | Reconcile => reconcile (br_backends br);;; ret tt
  | Plan => plan pow (br_config br) (br_backends br);;; ret tt
  | Reclaim force => reclaim br force;;; ret tt
  | Reap => broker_reap br;;; ret tt
  | AddUser u a adm n b1 b2 ia => add_user br u a adm n b1 b2 ia;;; ret tt
  | SuspendUser u why a adm => broker_suspend_user u why a adm;;; ret tt
  | RestoreUser u a adm => broker_restore_user u a adm;;; ret tt
  | DrainHost h why a adm => broker_drain_host br h why a adm
  | UndrainHost h a adm => broker_undrain_host br h a adm
  | RefreshPrices f => refresh_prices br f;;; ret tt
  | SaveEnvironment e => save_environment e;;; ret tt
  | DeleteEnvironment n => delete_environment n
  | RecordBuild dg t st rf dt => record_build dg t st rf dt;;; ret tt
  | SaveBaseline p h c src => save_baseline p h c src
  | PruneMetrics t => prune t;;; ret tt
  | PruneObservations t => delete_schedule_observations_before t;;; ret tt
  | Visit app rq a => visit pow app rq a;;; ret tt
  | Enter sh c => command sh c
  end.

(** The broker after the request: new prices, or the same. *)
Definition serve_broker (r : Request) (y : System) : Broker W :=
  match r with
  | RefreshPrices f =>
      match snd (refresh_prices (sy_broker y) f (sy_store y)) with
      | Ok (br, _) => br
      | Raise _ => sy_broker y
      end
  | _ => sy_broker y
  end.

Definition serve (r : Request) (y : System) : System :=
  mkSystem (serve_broker r y) (fst (serve_store (sy_broker y) r (sy_store y))).

Inductive step : System -> System -> Prop :=
| step_serve y r : step y (serve r y)
(* the process dies while serving [r]: what is on disk is some image committed
   by then, and a broker is opened on it again *)
| step_crash y r d older br t w :
    journal (sy_store y) `suffix_of` d :: older ->
    d :: older `suffix_of` journal (sy_store (serve r y)) ->
    step y (mkSystem br (mkSt d t (d :: older) w))
| step_world y t w :
    step y (mkSystem (sy_broker y)
      (mkSt (db (sy_store y)) t (journal (sy_store y)) w)).

(** A broker just opened on an empty database. *)
Definition initial (y : System) : Prop :=
  db (sy_store y) = empty_db /\ journal (sy_store y) = [empty_db].

Definition reachable (y : System) : Prop := exists y0, initial y0 /\ rtc step y0 y.

(** ** Soundness is invariant *)

Lemma safe_then_unit {A} (m : M (St W) exn A) f :
  safe [] m f -> safe [] (m;;; ret tt) none.
Proof. intros Hm. eapply safe_bind; [exact Hm|]. intros. apply safe_ret_none. Qed.

Lemma safe_on_job id (k : Job -> M (St W) exn Job) :
  (forall js j, j ∈ js -> safe js (k j) one) -> safe [] (on_job id k) one.
Proof.
  intros Hk. unfold on_job. eapply (safe_bind [] _ one).
  - apply safe_query. intros d j Hd _ [i Hi]%find_job_row. constructor; [|done]. by eapply copy_of_row.
  - intros j. apply Hk. set_solver.
Qed.

Lemma safe_serve br r : safe [] (serve_store br r) none.
Proof.
  destruct r; cbn [serve_store]; try (eapply safe_then_unit).
  - apply safe_submit.
  - apply safe_cancel.
  - apply safe_on_job. intros. by apply safe_request_cancel.
  - apply safe_on_job. intros. by apply safe_pin_tier.
  - apply safe_broker_tick.
  - apply safe_run_until_idle.
  - apply safe_reconcile.
  - apply safe_plan.
  - apply safe_reclaim.
  - apply safe_broker_reap.
  - apply safe_add_user.
  - apply safe_broker_suspend_user.
  - apply safe_broker_restore_user.
  - apply safe_broker_drain_host.
  - apply safe_broker_undrain_host.
  - apply safe_refresh_prices.
  - apply safe_save_environment.
  - apply safe_delete_environment.
  - apply safe_record_build.
  - apply safe_save_baseline.
  - apply safe_prune.
  - apply safe_delete_observations.
  - apply safe_visit.
  - apply safe_command.
Qed.

Lemma sound_serve r y :
  sound (sy_store y) -> sound (sy_store (serve r y)) /\ grows (sy_store y) (sy_store (serve r y)).
Proof.
  intros Hs. pose proof (safe_serve (sy_broker y) r (sy_store y) Hs (List.Forall_nil _)) as Hx.
  cbn [serve sy_store]. destruct (serve_store _ _ _) as [s' o]. cbn. destruct Hx as (? & ? & _). by split.
Qed.

(** Dropping the newest images leaves a sound journal. *)
Lemma sound_suffix (s : St W) d older t (w : W) :
  sound s -> d :: older `suffix_of` journal s -> sound (mkSt d t (d :: older) w).
Proof.
  intros [_ Hj Hc] [newer E]. rewrite E in Hj, Hc. constructor; cbn.
  - by eexists.
  - by apply Forall_app in Hj as [_ Hj].
  - clear -Hc. induction newer as [|x newer IH]; [done|]. apply StronglySorted_inv in Hc as [Hc _]. auto.
Qed.

Lemma sound_step y y' :
  sound (sy_store y) -> step y y' -> sound (sy_store y') /\ grows (sy_store y) (sy_store y').
Proof.
  intros Hs Hst. inversion Hst as [? r|? r d older br t w Hold Hnew|? t w]; subst.
  - by apply sound_serve.
  - destruct (sound_serve r y Hs) as [Hs' _]. cbn [sy_store].
    assert (Hd : sound (mkSt d t (d :: older) w)) by (by eapply sound_suffix).
    split; [done|]. constructor; [|done]. apply (so_older _ _ Hd). cbn.
    destruct (so_newest _ Hs) as [o E]. destruct Hold as [newer En]. rewrite En, E.
    apply elem_of_app. right. left.
  - cbn [sy_store]. by apply sound_same.
Qed.

Lemma sound_steps y y' :
  sound (sy_store y) -> rtc step y y' -> sound (sy_store y') /\ grows (sy_store y) (sy_store y').
Proof.
  intros Hs Hr. revert Hs. induction Hr as [y|y y1 y2 H1 _ IH]; intros Hs; [by split|].
  destruct (sound_step _ _ Hs H1) as [Hs1 Hg1]. destruct (IH Hs1). split; [done|by etransitivity].
Qed.

Lemma sound_initial y : initial y -> sound (sy_store y).
Proof.
  intros [Ed Ej]. constructor; rewrite ?Ed, Ej.
  - by eexists.
  - by constructor; [apply db_ok_empty|].
  - by repeat constructor.
Qed.

Lemma reachable_sound y : reachable y -> sound (sy_store y).
Proof. intros (y0 & H0 & Hr). by apply (sound_steps y0 y (sound_initial _ H0)). Qed.

(** An image that was ever on disk, and the database of a later system. *)
Lemma image_extends y y' d :
  reachable y -> rtc step y y' -> d ∈ journal (sy_store y) ->
  db_ok d /\ db_ok (db (sy_store y')) /\ extends d (db (sy_store y')).
Proof.
  intros Hy%reachable_sound Hr Hd. destruct (sound_steps _ _ Hy Hr) as [Hs' [Hg _]].
  split_and!; [|by apply so_db|].
  - pose proof (so_journal _ Hy) as Hj. by eapply Forall_forall in Hj.
  - etransitivity; [by apply (so_older (sy_store y))|done].
Qed.

(** C1: in every database image ever left on disk, whatever was asked of the
    broker, the web app and the command line, whatever the backends did or raised,
    and wherever a process died: what is
    held for a job and what was settled for it stay within its reservation; until
    the job ends they add up to it exactly; and once it has ended nothing is held. *)
Theorem money_conserved y d id j :
  reachable y -> d ∈ journal (sy_store y) -> jobs d !! id = Some j ->
  let held := job_holding d id (j_currency j) in
  let settled := ksum SETTLE id (j_currency j) (ledger d) in
  0 <= held /\ 0 <= settled /\ held + settled <= Z.max 0 (j_reserved j) /\
  (state_in (j_state j) TERMINAL = false -> held + settled = Z.max 0 (j_reserved j)) /\
  (state_in (j_state j) TERMINAL = true -> held = 0).
Proof.
  intros Hy Hd Hj held settled. destruct (image_extends y y d Hy ltac:(constructor) Hd) as (Hok & _ & _).
  destruct (jo_hold _ _ _ (ok_jobs _ Hok _ _ Hj)) as [HR HS HX Hlive Hdone].
  subst held settled. rewrite job_holding_ksum.
  pose proof (ksum_nonneg SETTLE id (j_currency j) (ledger d) (ok_amounts _ Hok)).
  assert (state_in (j_state j) TERMINAL = false -> j_state j <> REFUSED) by (by intros ? E; rewrite E in *).
  case_bool_decide; split_and!; try lia; naive_solver lia.
Qed.

(** C6: in every such image the recorded transitions of a job are one legal walk
    of the lifecycle from its submission to the state of its row. *)
Theorem history_legal y d id j :
  reachable y -> d ∈ journal (sy_store y) -> jobs d !! id = Some j ->
  exists r rows, history d id = r :: rows /\ jt_from_state r = None /\
    (jt_to_state r = QUEUED \/ jt_to_state r = REFUSED) /\
    walk (Some (jt_to_state r)) rows = Some (Some (j_state j)).
Proof.
  intros Hy Hd Hj. destruct (image_extends y y d Hy ltac:(constructor) Hd) as (Hok & _ & _).
  pose proof (jo_history _ _ _ (ok_jobs _ Hok _ _ Hj)) as Hw.
  destruct (history d id) as [|r rows]; cbn [walk] in Hw; [done|].
  destruct (step_legal None r) eqn:Hr; [|done]. exists r, rows. unfold step_legal in Hr.
  apply andb_true_iff in Hr as [Hn%bool_decide_eq_true Ht]. split_and!; try done.
  destruct (jt_to_state r); try done; [by left|by right].
Qed.

(** C5: a job never disappears, never changes owner, command, currency or
    reservation, moves along legal edges only, and once it has ended keeps its
    state for ever; the ledger and the history only ever grow. *)
Theorem lifecycle_forward y y' d id j :
  reachable y -> rtc step y y' -> d ∈ journal (sy_store y) -> jobs d !! id = Some j ->
  let d' := db (sy_store y') in
  exists j', jobs d' !! id = Some j' /\ same_fixed j j' /\ path (j_state j) (j_state j') /\
    (state_in (j_state j) TERMINAL = true -> j_state j' = j_state j) /\
    ledger d `prefix_of` ledger d' /\ job_transitions d `prefix_of` job_transitions d'.
Proof.
  intros Hy Hr Hd Hj d'. destruct (image_extends y y' d Hy Hr Hd) as (Hok & Hok' & He).
  destruct (extends_path _ _ _ _ Hok Hok' He Hj) as (j' & Hj' & Hf & Hp).
  exists j'. split_and!; [done..| |apply He|apply He].
  intros Ht. inversion Hp as [|? ? ? Hcan]; [done|]. exfalso. revert Hcan Ht.
  by destruct (j_state j), t.
Qed.
End System.
