(* ===== verification/Calls.v ===== *)
(** * What the broker does to the world, it does through the protocol

    A relation [R] on the world that a call of any backend stays within is one that
    every request to the broker stays within: [acts] goes through the operations.
    With [R] the sequences of calls themselves, a request is for the machines a
    sequence of calls of the protocol; with [R] what a backend keeps over every call,
    the broker keeps it too.  [fleet_bounded] is the case of the Google Cloud fleet. *)

From Stdlib Require Import Ascii.
From S2P Require Import Prelude PyFloat PyDecimal PyFormat PySort PyDict Errors Money Clock PyJson PyText Checkpoint States Models Config Tables Store StoreInv StoreSafe Environments Admission FairShare Commands Hosts Backend Volumes Placement Idle Metrics Pricing Forecast Reaper Scheduler SchedulerSafe Broker Digest BrokerSafe WebAuth WebApp WebSafe System Fixture Gce GceProps.
Local Open Scope Z_scope.
Local Open Scope py_scope.

(** ** Staying within a relation *)

Section Acts.
Context {W : Type} `{TimeZones} (R : relation W) `{!PreOrder R}.

Definition acts {A} (m : M (St W) exn A) : Prop := forall s, R (world s) (world (fst (m s))).

Lemma acts_same {A} (m : M (St W) exn A) : (forall s, world (fst (m s)) = world s) -> acts m.
Proof. intros Hm s. by rewrite Hm. Qed.

Lemma acts_ret {A} (a : A) : acts (ret a).
Proof. by apply acts_same. Qed.

Lemma acts_raise {A} (e : exn) : acts (raise (A := A) e).
Proof. by apply acts_same. Qed.

Lemma acts_reads {A} (m : M (St W) exn A) : reads m -> acts m.
Proof. intros Hm. apply acts_same. intros s. by rewrite Hm. Qed.

Lemma acts_bind {A B} (m : M (St W) exn A) (k : A -> M (St W) exn B) : acts m -> (forall a, acts (k a)) -> acts (bind m k).
Proof.
  intros Hm Hk s. unfold bind. specialize (Hm s). destruct (m s) as [s' [a|e]]; [|exact Hm].
  etransitivity; [exact Hm|apply Hk].
Qed.

Lemma acts_transaction {A} (body : DB -> outcome exn (DB * A)) : acts (transaction body).
Proof. apply acts_same. intros s. unfold transaction. by destruct (body (db s)) as [[d' a]|]. Qed.

Lemma acts_try {A} (m : M (St W) exn A) caught h : acts m -> (forall e, acts (h e)) -> acts (try_catch m caught h).
Proof.
  intros Hm Hh s. unfold try_catch. specialize (Hm s). destruct (m s) as [s' [a|e]]; [exact Hm|].
  destruct (caught e); [|exact Hm]. etransitivity; [exact Hm|apply Hh].
Qed.

Lemma acts_foldM_in {A B} (f : A -> B -> M (St W) exn A) l : Forall (fun x => forall a, acts (f a x)) l -> forall a, acts (foldM f a l).
Proof.
  intros Hf. induction Hf as [|x l Hx _ IH]; intros a; [apply acts_ret|]. cbn. apply acts_bind; [apply Hx|apply IH].
Qed.

Lemma acts_mapM {A B} (f : A -> M (St W) exn B) l : (forall x, acts (f x)) -> acts (mapM_ f l).
Proof.
  intros Hf. induction l as [|x l IH]; [apply acts_ret|]. cbn. apply acts_bind; [done|]. intros y.
  apply acts_bind; [done|]. intros ys. apply acts_ret.
Qed.

Lemma acts_call {A} (m : method W A) : (forall t w, R w (fst (m t w))) -> acts (call m).
Proof. intros Hm s. unfold call. specialize (Hm (clock s) (world s)). by destruct (m (clock s) (world s)). Qed.
End Acts.

Create HintDb acts.
#[export] Hint Resolve acts_ret acts_raise acts_transaction : acts.

(** Taking an operation apart; what asks a backend is left. *)
Ltac acts_walk :=
  repeat first
    [ solve [auto with acts]
    | match goal with
      | |- acts _ (bind _ _) => apply acts_bind; [exact _| |intros ?]
      | |- acts _ (attempt _ _) => unfold attempt
      | |- acts _ (try_catch _ _ _) => apply acts_try; [exact _| |intros ?]
      | |- acts _ (foldM _ _ _) => apply acts_foldM_in; [exact _|apply Forall_forall; intros ? ? ?]
      | |- acts _ (mapM_ _ _) => apply acts_mapM; [exact _|intros ?]
      | |- acts _ (commit_only _) => unfold commit_only
      | |- acts _ (match ?x with _ => _ end) => destruct x eqn:?
      end
    | solve [apply acts_same; [exact _|intros ?; reflexivity]] ].

(** ** The store *)

Section StoreActs.
Context {W : Type} `{TimeZones} (R : relation W) `{!PreOrder R} (config : BrokerConfig).

Lemma acts_transition j st a : acts R (transition (W := W) config j st a).
Proof. unfold transition. acts_walk. Qed.
Lemma acts_settle j a n : acts R (settle (W := W) config j a n).
Proof. unfold settle. acts_walk. Qed.
Lemma acts_append_log i st l : acts R (append_log (W := W) config i st l).
Proof. unfold append_log. acts_walk. Qed.
Lemma acts_append_backend_logs j l : acts R (append_backend_logs (W := W) config j l).
Proof. unfold append_backend_logs. acts_walk. Qed.
Lemma acts_record_checkpoint j s k : acts R (record_checkpoint (W := W) j s k).
Proof. unfold record_checkpoint. acts_walk. Qed.
Lemma acts_record_preemption j : acts R (record_preemption (W := W) j).
Proof. unfold record_preemption. acts_walk. Qed.
Lemma acts_record_attempt j : acts R (record_attempt (W := W) j).
Proof. unfold record_attempt. acts_walk. Qed.
Lemma acts_pin_tier j t r : acts R (pin_tier (W := W) j t r).
Proof. unfold pin_tier. acts_walk. Qed.
Lemma acts_notify u k m i : acts R (notify (W := W) u k m i).
Proof. unfold notify. acts_walk. Qed.
Lemma acts_record_samples i ss : acts R (record_samples (W := W) i ss).
Proof. unfold record_samples. acts_walk. Qed.
Lemma acts_request_cancel j a : acts R (request_cancel (W := W) j a).
Proof. unfold request_cancel. acts_walk. Qed.
Lemma acts_create_job u cmd g h c r id e o : acts R (create_job (W := W) config u cmd g h c r id e o).
Proof. unfold create_job. acts_walk. Qed.
Lemma acts_record_refusal u cmd g h c r w id o : acts R (record_refusal (W := W) u cmd g h c r w id o).
Proof. unfold record_refusal. acts_walk. Qed.
Lemma acts_drain_host h r a : acts R (drain_host (W := W) h r a).
Proof. unfold drain_host. acts_walk. Qed.
Lemma acts_undrain_host h : acts R (undrain_host (W := W) h).
Proof. unfold undrain_host. acts_walk. Qed.
Lemma acts_upsert_user u n b1 b2 a : acts R (upsert_user (W := W) config u n b1 b2 a).
Proof. unfold upsert_user. acts_walk. Qed.
Lemma acts_suspend_user u r a : acts R (suspend_user (W := W) u r a).
Proof. unfold suspend_user. acts_walk. Qed.
Lemma acts_restore_user u a : acts R (restore_user (W := W) u a).
Proof. unfold restore_user. acts_walk. Qed.
Lemma acts_save_prices ps : acts R (save_prices (W := W) ps).
Proof. unfold save_prices. acts_walk. Qed.
Lemma acts_save_environment e : acts R (save_environment (W := W) e).
Proof. unfold save_environment. acts_walk. Qed.
Lemma acts_delete_environment n : acts R (delete_environment (W := W) n).
Proof. unfold delete_environment. acts_walk. Qed.
Lemma acts_record_build a b c d e : acts R (record_build (W := W) a b c d e).
Proof. unfold record_build. acts_walk. Qed.
Lemma acts_save_baseline a b c d : acts R (save_baseline (W := W) a b c d).
Proof. unfold save_baseline. acts_walk. Qed.
Lemma acts_delete_schedule_observations_before c : acts R (delete_schedule_observations_before (W := W) c).
Proof. unfold delete_schedule_observations_before. acts_walk. Qed.
Lemma acts_record_schedule_observation a b c d e f g : acts R (record_schedule_observation (W := W) a b c d e f g).
Proof. unfold record_schedule_observation. acts_walk. Qed.
Lemma acts_record_abandoned a b c d e f : acts R (record_abandoned (W := W) config a b c d e f).
Proof. unfold record_abandoned. acts_walk. Qed.
Lemma acts_sleep_for x : acts R (sleep_for (W := W) x).
Proof. apply acts_same; [exact _|]. intros s. unfold sleep_for. by destruct (sleep (clock s) x). Qed.
Lemma acts_prune c : acts R (prune (W := W) c).
Proof. unfold prune. acts_walk. Qed.
Lemma acts_record ps : acts R (record (W := W) ps).
Proof. unfold record. acts_walk. Qed.
Lemma acts_notify_idle v : acts R (notify_idle (W := W) config v).
Proof. unfold notify_idle. acts_walk; first [apply acts_notify | apply acts_append_log]. Qed.
End StoreActs.

#[export] Hint Resolve acts_transition acts_settle acts_append_log acts_append_backend_logs acts_record_checkpoint acts_record_preemption acts_record_attempt acts_pin_tier acts_notify acts_record_samples acts_request_cancel acts_create_job acts_record_refusal acts_drain_host acts_undrain_host acts_upsert_user acts_suspend_user acts_restore_user acts_save_prices acts_save_environment acts_delete_environment acts_record_build acts_save_baseline acts_delete_schedule_observations_before acts_record_schedule_observation acts_record_abandoned acts_sleep_for acts_prune acts_record acts_notify_idle : acts.

(** ** The scheduler and the broker *)

Section BrokerActs.
Context {W : Type} `{TimeZones} (R : relation W) `{!PreOrder R} (pow : pow_fun) (br : Broker W).
Abbreviation config := (br_config br).
Abbreviation backends := (br_backends br).

(** What the world may do when the machines are asked *)
Context (Hcall : forall b c w, b ∈ backends -> R w (perform b w c)).
Context (Hlocal : forall b ops, b ∈ backends -> b_local_ops b = Some ops -> forall h why t w,
  R w (fst (lo_host ops h t w)) /\ R w (fst (lo_drain ops h why t w)) /\ R w (fst (lo_undrain ops h t w))).
Context (Hlookup : forall latest, br_checkpoints br = Some latest -> forall id t w, R w (fst (latest id t w))).

Abbreviation acts m := (acts R m).

Lemma acts_free b g : b ∈ backends -> acts (call (b_free_slots b g)).
Proof. intros Hb. apply acts_call. intros t w. exact (Hcall b (t, CFree g) w Hb). Qed.

Lemma acts_supports b g : b ∈ backends -> acts (call (b_supports b g)).
Proof. intros Hb. apply acts_call. intros t w. exact (Hcall b (t, CSupports g) w Hb). Qed.

Lemma acts_launch b j : b ∈ backends -> acts (call (b_launch b j)).
Proof. intros Hb. apply acts_call. intros t w. exact (Hcall b (t, CLaunch j) w Hb). Qed.

Lemma acts_start b h j : b ∈ backends -> acts (call (b_start b h j)).
Proof. intros Hb. apply acts_call. intros t w. exact (Hcall b (t, CStart h j) w Hb). Qed.

Lemma acts_poll b h : b ∈ backends -> acts (call (b_poll b h)).
Proof. intros Hb. apply acts_call. intros t w. exact (Hcall b (t, CPoll h) w Hb). Qed.

Lemma acts_validate b j : b ∈ backends -> acts (call (b_validate_launch b j)).
Proof. intros Hb. apply acts_call. intros t w. exact (Hcall b (t, CValidate j) w Hb). Qed.

Lemma acts_logs b h n : b ∈ backends -> acts (call (b_fetch_logs b h n)).
Proof. intros Hb. apply acts_call. intros t w. exact (Hcall b (t, CLogs h n) w Hb). Qed.

Lemma acts_terminate b h why : b ∈ backends -> acts (call (b_terminate b h why)).
Proof. intros Hb. apply acts_call. intros t w. exact (Hcall b (t, CTerminate h why) w Hb). Qed.

Lemma acts_list b : b ∈ backends -> acts (call (b_list_resources b)).
Proof. intros Hb. apply acts_call. intros t w. exact (Hcall b (t, CList) w Hb). Qed.

Lemma acts_sample b h : b ∈ backends -> acts (call (b_sample_utilization b h)).
Proof. intros Hb. apply acts_call. intros t w. exact (Hcall b (t, CSample h) w Hb). Qed.
#[local] Hint Resolve acts_free acts_supports acts_launch acts_start acts_poll acts_validate acts_logs acts_terminate acts_list
  acts_sample : acts.

Lemma backend_in name b : backend backends name = Some b -> b ∈ backends.
Proof. intros [Hin _]%find_some. by apply list_elem_of_In. Qed.

Lemma acts_sample_job j b : b ∈ backends -> acts (sample_job config j b).
Proof. intros Hb. unfold sample_job. acts_walk. Qed.

Lemma acts_drain_logs j b : b ∈ backends -> acts (drain_logs config j b).
Proof. intros Hb. unfold drain_logs. acts_walk. Qed.

Lemma acts_collect_checkpoint j : acts (collect_checkpoint config (br_checkpoints br) j).
Proof.
  unfold collect_checkpoint. destruct (br_checkpoints br) as [latest|] eqn:Hl; [|auto with acts]. acts_walk.
  apply acts_call. by apply Hlookup.
Qed.

Lemma acts_fallback_tier j : acts (fallback_tier config backends j).
Proof.
  unfold fallback_tier. acts_walk.
  assert (Hruns : forall g tier bs, bs ⊆ backends -> acts (tier_runs j g tier bs)).
  { intros g tier. induction bs as [|b bs IH]; intros Hsub; cbn; [auto with acts|].
    assert (b ∈ backends) by set_solver. assert (bs ⊆ backends) by set_solver. acts_walk. }
  generalize (if bool_decide (str_or (j_pinned_tier j) "spot" ∈ placement_order config)
    then after_tier (str_or (j_pinned_tier j) "spot") (placement_order config)
    else placement_order config).
  intros tiers. induction tiers as [|tier tiers IH]; cbn; [auto with acts|].
  apply acts_bind; [exact _|by apply Hruns|]. intros []; [auto with acts|apply IH].
Qed.
#[local] Hint Resolve acts_sample_job acts_drain_logs acts_collect_checkpoint acts_fallback_tier : acts.

Lemma acts_requeue j o : acts (requeue config j o).
Proof. unfold requeue. acts_walk. Qed.
#[local] Hint Resolve acts_requeue : acts.

Lemma acts_preempt j b ob o : b ∈ backends -> acts (preempt config backends (br_checkpoints br) j b ob o).
Proof. intros Hb. unfold preempt. acts_walk. Qed.
#[local] Hint Resolve acts_preempt : acts.

Lemma acts_observed j b h t ob o : b ∈ backends -> acts (observed config backends (br_checkpoints br) j b h t ob o).
Proof. intros Hb. unfold observed. acts_walk. Qed.

Lemma acts_advance_job j t : acts (advance_job config backends (br_checkpoints br) j t).
Proof.
  unfold advance_job, settle_accrued. destruct (backend _ _) as [b|] eqn:Hb; [|auto with acts]. apply backend_in in Hb.
  acts_walk; by apply acts_observed.
Qed.
#[local] Hint Resolve acts_advance_job : acts.

(** The consumer of a pass over the queue, on the steps the pass makes *)
Definition on_backends {A} (consume : A -> Scheduler.step -> M (St W) exn A) : Prop :=
  forall acc d ob, (forall b, ob = Some b -> b ∈ backends) -> acts (consume acc (d, ob)).

Lemma acts_choose j : acts (choose config j backends).
Proof.
  unfold choose.
  assert (Hbs : forall g tier bs sk, bs ⊆ backends -> acts (try_backends j g tier bs sk)).
  { intros g tier. induction bs as [|b bs IH]; intros sk Hsub; cbn; [auto with acts|].
    assert (b ∈ backends) by set_solver. assert (bs ⊆ backends) by set_solver. acts_walk; by apply IH. }
  acts_walk. generalize (@nil (string * string)). induction (order_for config j) as [|tier order IH]; intros sk; cbn; [auto with acts|].
  apply acts_bind; [exact _|apply Hbs|intros [sk'|p]; [apply IH|auto with acts]].
  by intros b [Hb%list_elem_of_In _]%list_elem_of_In%List.filter_In.
Qed.
#[local] Hint Resolve acts_choose : acts.

Lemma acts_decide_one headroom suspended w j : acts (decide_one config backends headroom suspended w j).
Proof. unfold decide_one. acts_walk. Qed.

Lemma acts_bind_post {A B} (P : A -> Prop) (m : M (St W) exn A) (k : A -> M (St W) exn B) :
  acts m -> returns P m -> (forall a, P a -> acts (k a)) -> acts (bind m k).
Proof.
  intros Hm Hp Hk s. unfold bind. specialize (Hm s). specialize (Hp s). destruct (m s) as [s' [a|e]]; [|exact Hm].
  etransitivity; [exact Hm|]. eapply (Hk a), Hp. reflexivity.
Qed.

Lemma returns_decide_one headroom suspended w j :
  returns (fun r => forall b, snd (snd (fst r)) = Some b -> b ∈ backends) (decide_one config backends headroom suspended w j).
Proof.
  intros s s' r. unfold decide_one. destruct (suspended !! j_user_id j); [by intros [= _ <-]|].
  case_bool_decide; [by intros [= _ <-]|]. intros (s1 & held & _ & Hb)%bind_ok.
  destruct (_ <=? held); [by injection Hb as _ <-|]. destruct (dec_ltb _ _); [by injection Hb as _ <-|].
  apply bind_ok in Hb as (s2 & p & Hp & Hb). destruct (pl_backend p) as [b|] eqn:Eb; injection Hb as _ <-; [|done].
  intros ? [= <-]. by eapply choose_in.
Qed.

Lemma acts_walk_queue {A} (consume : A -> Scheduler.step -> M (St W) exn A) headroom suspended queue :
  on_backends consume -> forall w acc, acts (walk_queue config backends consume headroom suspended w queue acc).
Proof.
  intros Hc. induction queue as [|[j p] rest IH]; intros w acc; cbn; [auto with acts|].
  eapply acts_bind_post; [apply acts_decide_one|apply returns_decide_one|]. intros [[w' [d ob]] all] Hin.
  apply acts_bind; [exact _|by apply Hc|]. intros acc'. destruct all; [|apply IH].
  apply acts_foldM_in; [exact _|]. apply Forall_map, Forall_forall. intros jp _ a. by apply Hc.
Qed.

Lemma acts_decisions {A} t (consume : A -> Scheduler.step -> M (St W) exn A) acc :
  on_backends consume -> acts (decisions pow config backends t consume acc).
Proof. intros Hc. unfold decisions. acts_walk. by apply acts_walk_queue. Qed.

Lemma acts_dispatch_one : on_backends (dispatch_one config).
Proof. intros acc d ob Hb. unfold dispatch_one. acts_walk; subst; try apply acts_launch; naive_solver. Qed.

Lemma acts_plan_one : on_backends plan_one.
Proof. intros acc d ob Hb. unfold plan_one. acts_walk; subst; try apply acts_validate; naive_solver. Qed.

Lemma acts_total_free name : acts (total_free backends name).
Proof. unfold total_free. acts_walk. Qed.
#[local] Hint Resolve acts_total_free : acts.

Lemma acts_finish_tick : acts (finish_tick config backends).
Proof. unfold finish_tick, collect, gpu_gauges, currency_gauges. acts_walk. Qed.

Lemma acts_tick : acts (broker_tick pow br).
Proof.
  unfold broker_tick, tick, dispatch, advance_one. acts_walk; first [apply acts_decisions, acts_dispatch_one|apply acts_finish_tick].
Qed.

Lemma acts_plan : acts (plan pow config backends).
Proof. unfold plan. acts_walk. apply acts_decisions, acts_plan_one. Qed.

Lemma acts_reconcile : acts (reconcile backends).
Proof.
  unfold reconcile, reconcile_backend. acts_walk.
Qed.

Lemma acts_reap : acts (broker_reap br).
Proof.
  unfold broker_reap, record_orphan, reap, reap_backend. acts_walk.
Qed.

Lemma acts_terminate_job j why : acts (terminate_job br j why).
Proof. unfold terminate_job. acts_walk. apply acts_terminate. by eapply backend_in. Qed.
#[local] Hint Resolve acts_tick acts_terminate_job : acts.

Lemma acts_submit u cmd g h b e o id : acts (submit br u cmd g h b e o id).
Proof. unfold submit, policy_check, balance. acts_walk. Qed.

Lemma acts_cancel id a adm : acts (cancel br id a adm).
Proof. unfold cancel. acts_walk. Qed.

Lemma acts_run_until_idle x n : acts (run_until_idle pow br x n).
Proof.
  unfold run_until_idle. acts_walk. generalize (@nil TickReport). induction n as [|n IH]; intros rs; cbn; acts_walk; apply IH.
Qed.

Lemma acts_reclaim force : acts (reclaim br force).
Proof. unfold reclaim, reclaim_step, reclaim_one, idle_jobs. acts_walk. Qed.

Lemma local_backend_in b ops : local_backend br = Some (b, ops) -> b ∈ backends /\ b_local_ops b = Some ops.
Proof.
  unfold local_backend. intros Hh. apply head_Some_elem_of, list_elem_of_omap in Hh as (b' & Hin & Ho).
  destruct (b_local_ops b') eqn:E; [|done]. by injection Ho as <- <-.
Qed.

Lemma acts_officer a what adm : acts (require_officer a what adm).
Proof. unfold require_officer. acts_walk. Qed.
#[local] Hint Resolve acts_officer : acts.

Lemma acts_broker_drain_host h why a adm : acts (broker_drain_host br h why a adm).
Proof.
  unfold broker_drain_host. acts_walk. destruct (local_backend_in _ _ Heqo) as [Hin Ho].
  apply acts_call. intros t w. by eapply Hlocal.
Qed.

Lemma acts_broker_undrain_host h a adm : acts (broker_undrain_host br h a adm).
Proof.
  unfold broker_undrain_host. acts_walk. destruct (local_backend_in _ _ Heqo) as [Hin Ho].
  apply acts_call. intros t w. by eapply (Hlocal b l Hin Ho h "").
Qed.
End BrokerActs.

(** ** The web app: brokers without backends *)

Section WebActs.
Context {W : Type} `{TimeZones} (R : relation W) `{!PreOrder R} (pow : pow_fun) (app : WebApp W).
Context (Hprovider : forall code w, R w (fst (exchange (wa_provider app) code w))).

Abbreviation acts m := (acts R m).

Lemma acts_callback rq code state :
  acts (get_callback (wa_config app) (wa_aws app) (wa_checkpoints app) (wa_read_file app) (wa_web app) (wa_signer app)
          (wa_provider app) rq code state).
Proof.
  unfold get_callback, identify, first_sign_in, add_user, require_officer.
  acts_walk; first [apply acts_reads; [exact _|apply reads_page]|apply acts_reads; [exact _|apply reads_revocation]|apply acts_reads; [exact _|apply reads_open_web]
    |apply acts_call; intros; apply Hprovider|idtac].
Qed.

Lemma acts_post_cancel br me id : br_backends br = [] -> acts (post_cancel (wa_web app) br me id).
Proof.
  intros Hb. unfold post_cancel, found. acts_walk. apply acts_cancel; [exact _|rewrite Hb; set_solver].
Qed.

Lemma acts_post_submit br rq me f id : acts (post_submit (wa_web app) (wa_signer app) br rq me f id).
Proof.
  unfold post_submit, submit_typed.
  acts_walk; first [apply acts_submit; exact _|apply acts_reads; [exact _|apply reads_submit_page]].
Qed.

Lemma acts_post_budget br me u x y : acts (post_budget (W := W) (wa_web app) br me u x y).
Proof. unfold post_budget, officers_only, or_400, add_user, require_officer. acts_walk. Qed.

Lemma acts_post_drain br me h r x : br_backends br = [] -> acts (post_drain (wa_web app) br me h r x).
Proof.
  intros Hb. unfold post_drain, officers_only, or_400.
  acts_walk; [apply acts_broker_undrain_host|apply acts_broker_drain_host]; first [exact _|rewrite Hb; set_solver].
Qed.

Lemma acts_as_viewer rq (k : Broker W -> Identity -> M (St W) exn Response) :
  (forall br me, br_backends br = [] -> acts (k br me)) ->
  acts (as_viewer (wa_config app) (wa_aws app) (wa_checkpoints app) (wa_read_file app) (wa_web app) (wa_signer app) rq k).
Proof.
  intros Hk s. unfold as_viewer, bind at 1. rewrite open_web_eq.
  assert (Hm : acts (me <- viewer (wa_read_file app) (wa_web app) (wa_signer app) rq;;
    k (web_broker (wa_config app) (wa_aws app) (wa_checkpoints app) s) me)); [|apply Hm].
  apply acts_bind; [exact _|apply acts_reads; [exact _|apply reads_viewer]|]. intros me. by apply Hk.
Qed.

Lemma acts_visit rq a : acts (visit pow app rq a).
Proof.
  unfold visit, respond. apply acts_try; [exact _| |intros e; apply acts_reads; [exact _|apply reads_error_page]].
  destruct a; cbn [handle]; try (apply acts_ret; exact _); try (apply acts_as_viewer; intros br me Hb).
  - by apply acts_callback.
  - apply acts_reads; [exact _|apply reads_dashboard].
  - apply acts_reads; [exact _|apply reads_jobs_page].
  - apply acts_reads; [exact _|apply reads_job_page].
  - by apply acts_post_cancel.
  - apply acts_reads; [exact _|apply reads_submit_page].
  - apply acts_post_submit.
  - apply acts_reads; [exact _|apply reads_admin].
  - apply acts_post_budget.
  - by apply acts_post_drain.
  - apply acts_bind; [exact _|apply acts_reads; [exact _|apply reads_open_web]|]. intros br. apply acts_reads; [exact _|apply reads_metrics].
  - apply acts_reads; [exact _|apply reads_report].
Qed.
End WebActs.

(** ** The system *)

Section Served.
Context {W : Type} `{TimeZones} (R : relation W) `{!PreOrder R} (pow : pow_fun).

(** What a request asks besides the broker's own backends stays within [R].  The
    command line opens brokers of its own. *)
Definition asks (r : System.Request (W := W)) : Prop :=
  match r with
  | RefreshPrices fetch => forall instance region t w, R w (fst (fetch instance region t w))
  | Visit app _ _ => forall code w, R w (fst (exchange (wa_provider app) code w))
  | Enter _ _ => False
  | _ => True
  end.

(** Whatever a broker on these backends asks of the machines stays within [R]. *)
Record within (br : Broker W) : Prop := {
  wi_calls b c w : b ∈ br_backends br -> R w (perform b w c);
  wi_local b ops : b ∈ br_backends br -> b_local_ops b = Some ops -> forall h why t w,
    R w (fst (lo_host ops h t w)) /\ R w (fst (lo_drain ops h why t w)) /\ R w (fst (lo_undrain ops h t w));
  wi_lookup latest : br_checkpoints br = Some latest -> forall id t w, R w (fst (latest id t w))
}.

Lemma acts_refresh_prices br fetch : (forall instance region t w, R w (fst (fetch instance region t w))) ->
  acts R (refresh_prices br fetch).
Proof. intros Hf. unfold refresh_prices, refresh, refresh_one. acts_walk. by apply acts_call. Qed.

Lemma acts_serve br r : within br -> asks r -> acts R (serve_store pow br r).
Proof.
  intros [Hc Hl Hk] Hr. destruct r; cbn [serve_store asks] in *; try done; acts_walk; eauto using acts_submit, acts_cancel, acts_tick,
    acts_run_until_idle, acts_reconcile, acts_plan, acts_reclaim, acts_reap, acts_broker_drain_host, acts_broker_undrain_host,
    acts_refresh_prices, acts_visit.
  all: unfold on_job, add_user, broker_suspend_user, broker_restore_user, require_officer; acts_walk.
Qed.
End Served.

(** ** The fleet of the project, under the broker *)

Section Fleet.
Context {C T : Type} `{TimeZones} (pow : pow_fun) (gb : GceBackend C T) (view : C -> list GceInstance) `{!GceLaws (gb_instances gb) view}.
Context (g : string).

(** A fleet within its limit stays so. *)
Definition kept (w w' : GceWorld C T) : Prop := fleet view g w <= limit gb g -> fleet view g w' <= limit gb g.

#[export] Instance kept_preorder : PreOrder kept.
Proof. split; unfold kept; intros ?; auto. Qed.

(** A broker whose machines are this project's *)
Definition on_project (br : Broker (GceWorld C T)) : Prop :=
  br_backends br = [gce gb] /\
  forall latest, br_checkpoints br = Some latest -> forall id t w, fst (latest id t w) = w.

(** What goes on: a request served, or anything else -- time passes, the database is
    another one, a process died and a broker was opened again, the cloud moves by
    itself -- as long as it does not overfill the fleet. *)
Inductive goes_on : System -> System -> Prop :=
| go_serve y r : asks kept r -> goes_on y (serve pow r y)
| go_else y br s : on_project br -> kept (world (sy_store y)) (world s) -> goes_on y (mkSystem br s).

Lemma within_project br : honest_labels gb -> on_project br -> within kept br.
Proof.
  intros Hl [Hb Hk]. constructor; rewrite ?Hb.
  - intros b c w ->%list_elem_of_singleton Hw. by apply perform_bounded.
  - by intros b ops ->%list_elem_of_singleton.
  - intros latest Hla id t w. by rewrite (Hk _ Hla).
Qed.

Lemma serve_on_project r y : on_project (sy_broker y) -> on_project (sy_broker (serve pow r y)).
Proof.
  intros Hp. cbn. destruct r; try exact Hp. cbn.
  destruct (snd (refresh_prices _ _ _)) as [[br rep]|e] eqn:E; [|exact Hp].
  revert E. unfold refresh_prices, bind. destruct (refresh _ _ _) as [s1 [[book report]|]]; [|done]. 
  destruct (save_prices _ s1) as [s2 [u|]]; [|done]. by intros [= <- <-].
Qed.

(** C32: as long as the name of each type the settings map is the label the backend
    makes of it, nothing the broker and the web app are asked, in whatever order,
    with whatever in the database, and with the cloud failing as it pleases, takes
    the instances of a type over [gce.max_instances]. *)
Theorem fleet_bounded y y' : honest_labels gb -> on_project (sy_broker y) ->
  fleet view g (world (sy_store y)) <= limit gb g -> rtc goes_on y y' ->
  fleet view g (world (sy_store y')) <= limit gb g.
Proof.
  intros Hl Hp Hw Hr. revert Hp Hw. induction Hr as [y|y y1 y2 H1 _ IH]; intros Hp Hw; [done|].
  destruct H1 as [y r Ha|y br s Hb Hm]; apply IH; [by apply serve_on_project| |done|by apply Hm].
  by apply (acts_serve kept pow _ r (within_project _ Hl Hp) Ha).
Qed.
End Fleet.

(** A day at the club: a tick places the queued job on a machine. *)
Definition cloud_club : Broker (GceWorld Project Shells) :=
  mkBroker default_config (new_book default_config (mkAwsPrices ∅ "us-west-2") noon) [gce (gce_pool "t4")] None.

Definition cloud_morning : System := mkSystem cloud_club (with_job (empty_project "")).

Definition cloud_evening : System := serve (fun _ _ => f1) Tick cloud_morning.

Lemma fleet_bounded_witness :
  fleet pj_vms "t4" (world (sy_store cloud_evening)) = 1 /\
  fleet pj_vms "t4" (world (sy_store cloud_evening)) <= limit (gce_pool "t4") "t4".
Proof.
  split; [vm_compute; reflexivity|].
  apply (fleet_bounded (fun _ _ => f1) (gce_pool "t4") pj_vms "t4" cloud_morning).
  - apply gce_pool_honest.
  - by split.
  - vm_compute. discriminate.
  - apply rtc_once. by apply go_serve.
Defined.
