(* ===== verification/BrokerProps.v ===== *)
(** * Theorems on the facade

    Submission: what an accepted job satisfied and what it changed, that a
    refusal costs nothing, that a call that raises wrote nothing.  Privileges:
    who may cancel, and what only an officer may do.  The loop ends with an empty
    queue.  Reclaiming needs a verdict, a warning and an expired grace period.
    Reaping charges what was burned, once. *)

From S2P Require Import Prelude PyFloat PyDecimal PyFormat PySort PyDict Errors Money Clock States Models Config Tables Store StoreInv StoreSafe StoreProps Admission FairShare Backend Placement Idle Metrics Pricing Forecast Reaper Checkpoint Scheduler SchedulerSafe SchedulerStates Broker BrokerSafe System.
Local Open Scope Z_scope.
Local Open Scope py_scope.

Section Submit.
Context {W : Type} `{TimeZones} (br : Broker W).

Abbreviation config := (br_config br).

(** What a member has committed this month, in one currency: the [committed] of
    [balance(user_id, currency)]. *)
Definition committed_by (u : string) (c : Currency) (s : St W) : Z :=
  let p := billing_period (clock s) (timezone config) in
  let '(held, spent) := aggregate (fun e => of_user u e && in_currency c e && in_period p e)
                          (ledger (db s)) in
  held + spent.

Lemma balance_value u c (s : St W) user :
  get_user (db s) u = Ok user ->
  exists b, balance config u c s = (s, Ok b) /\ bal_currency b = c /\
    bal_budget b = user_budget user c /\ bal_committed b = committed_by u c s.
Proof.
  intros Hu. unfold balance, period_now, bind, query, query_ok, now, gets. cbn. rewrite Hu.
  eexists. split; [done|]. cbn. unfold bal_committed, committed_by. cbn.
  by destruct (aggregate _ _).
Qed.

(** The conditions a submission is let in under. *)
Record admissible (u : string) (user : User) (c : Currency) (reserved : Decimal) (s : St W) : Prop := {
  adm_member : is_suspended user = false;
  adm_positive : dec_ltb ZERO reserved = true;
  adm_cap : dec_leb reserved (max_job config c) = true;
  adm_queue : queued_count (db s) u < max_queued_jobs_per_user config;
  adm_budget : dec_leb (dec_add reserved (of_cents (committed_by u c s))) (user_budget user c) = true
}.

Lemma policy_check_spec u user c reserved (s : St W) :
  get_user (db s) u = Ok user ->
  exists o, policy_check br u user c reserved s = (s, Ok o) /\
    (o = None <-> admissible u user c reserved s).
Proof.
  intros Hu. unfold policy_check.
  destruct (check_membership user) eqn:H1.
  { eexists. split; [done|]. split; [done|]. intros [Hm]. unfold check_membership in H1. by rewrite Hm in H1. }
  apply check_membership_ok in H1.
  destruct (check_job_cap config c reserved) eqn:H2.
  { eexists. split; [done|]. split; [done|]. intros [_ Hp Hc]. unfold check_job_cap in H2.
    rewrite dec_ltb_leb in Hp. apply negb_true_iff in Hp. by rewrite Hp, dec_ltb_leb, Hc in H2. }
  apply check_job_cap_ok in H2 as [H2 H3]. unfold bind at 1, query_ok at 1.
  destruct (check_queue_depth config _) eqn:H4.
  { eexists. split; [done|]. split; [done|]. intros [_ _ _ Hq]. unfold check_queue_depth in H4.
    apply Z.ltb_lt in Hq. by rewrite Hq in H4. }
  apply check_queue_depth_ok in H4.
  destruct (balance_value u c s user Hu) as (b & Hb & Hc & Hbud & Hcom).
  unfold bind. rewrite Hb. eexists. split; [done|]. split.
  - intros H5%check_user_budget_ok. rewrite Hbud, Hcom in H5. by constructor.
  - intros [_ _ _ _ Hle]. unfold check_user_budget, bal_available.
    by rewrite dec_leb_sub, Hbud, Hcom, Hle.
Qed.

(** [commit_only] and [transaction] roll back when they raise. *)
Lemma commit_only_raise body (s s' : St W) e : commit_only body s = (s', Raise e) -> s' = s.
Proof. unfold commit_only, transaction. destruct (obind _ _) as [[]|]; [done|]. by intros [= <- _]. Qed.

Lemma create_job_raise u cmd g h c r id env org (s s' : St W) e :
  create_job config u cmd g h c r id env org s = (s', Raise e) -> s' = s.
Proof.
  unfold create_job, bind, query, now, gets. destruct (get_user _ _); [|by intros [= <- _]].
  destruct (commit_only _ s) as [s1 [a0|e']] eqn:Hc; [done|]. intros [= <- _].
  by eapply commit_only_raise.
Qed.

Lemma record_refusal_raise u cmd g h c r why id org (s s' : St W) e :
  record_refusal u cmd g h c r why id org s = (s', Raise e) -> s' = s.
Proof.
  unfold record_refusal, bind, now, gets.
  destruct (commit_only _ s) as [s1 [a0|e']] eqn:Hc; [done|]. intros [= <- _].
  by eapply commit_only_raise.
Qed.

(** A free GPU type never costs more than a positive reservation. *)
Lemma ceiling_warning_total g h r gt :
  gpu config g = Ok gt -> dec_ltb ZERO r = true -> exists w, ceiling_warning config g h r = Ok w.
Proof.
  intros Hg Hr. unfold ceiling_warning. rewrite Hg. cbn [obind].
  destruct (dec_leb (of_cents (full_cost config gt h)) r) eqn:Hle; [by eexists|].
  destruct (dec_div r (gt_hourly_price gt)) as [q|] eqn:Hq; [by eexists|].
  exfalso. unfold dec_div in Hq.
  destruct (Z.eqb_spec (coef (gt_hourly_price gt)) 0) as [E|]; [|by repeat case_match].
  enough (full_cost config gt h = 0) as E0.
  { rewrite E0 in Hle. enough (dec_leb (of_cents 0) r = true) by congruence.
    apply (dec_leb_trans _ ZERO); [by rewrite dec_leb_zero_cents|].
    rewrite dec_ltb_leb in Hr. apply negb_true_iff in Hr. by destruct (dec_leb_total ZERO r); [|congruence]. }
  unfold full_cost, dec_mul, quantize, quantize_cents, half_up, at_exp. rewrite E. cbn [coef dexp].
  by destruct (_ <=? _).
Qed.

(** What is asked for is within the limits of one job. *)
Record well_asked (g : string) (h : float) (cmd : string) : Prop := {
  wa_hours_positive : f_le h f0 = false;
  wa_hours_cap : f_lt (max_job_hours config) h = false;
  wa_command_cap : Z.of_nat (String.length cmd) <= max_command_bytes config
}.

Lemma validate_request_ok g h cmd : validate_request config g h cmd = Ok tt -> well_asked g h cmd.
Proof.
  unfold validate_request. intros (gt & _ & Hv)%obind_ok. destruct (f_le h f0) eqn:H1; [done|].
  destruct (f_lt _ h) eqn:H2; [done|]. destruct (Z.ltb_spec (max_command_bytes config) (Z.of_nat (String.length cmd))); [done|].
  by constructor.
Qed.

(** An environment that is named exists. *)
Definition env_known (env : option string) (d : DB) : Prop :=
  truthy env = true -> is_Some (environments d !! default "" env).

(** The run of [submit] up to the policy. *)
Lemma submit_steps u cmd g h b env org id (s s' : St W) o :
  submit br u cmd g h b env org id s = (s', o) ->
  (exists e, o = Raise e /\ s' = s) \/
  exists gt user reserved refusal,
    validate_request config g h cmd = Ok tt /\ env_known env (db s) /\
    gpu config g = Ok gt /\ get_user (db s) u = Ok user /\
    match b with Some x => Ok x | None => default_reservation config g h end = Ok reserved /\
    policy_check br u user (gt_currency gt) reserved s = (s, Ok refusal) /\
    match refusal with
    | Some r =>
        job <- record_refusal u cmd g h (gt_currency gt) reserved (rfs_reason r) id org;;
        ret (mkSubmitResult job (Some r) None)
    | None =>
        job <- create_job config u cmd g h (gt_currency gt) reserved id env org;;
        warning <- lift_outcome (ceiling_warning config g h reserved);;
        ret (mkSubmitResult job None warning)
    end s = (s', o).
Proof.
  unfold submit. intros Hrun. unfold bind at 1, lift_outcome at 1 in Hrun.
  destruct (validate_request _ _ _ _) as [[]|] eqn:Hv; [|left; injection Hrun as <- <-; by eexists].
  unfold bind at 1, lift_outcome at 1 in Hrun.
  destruct (gpu config g) as [gt|] eqn:Hg; [|left; injection Hrun as <- <-; by eexists].
  unfold bind at 1, lift_outcome at 1 in Hrun.
  set (res := match b with Some x => Ok x | None => _ end) in *.
  destruct res as [reserved|] eqn:Hres; [|left; injection Hrun as <- <-; by eexists].
  unfold bind at 1, query at 1 in Hrun.
  destruct (get_user (db s) u) as [user|] eqn:Hu; [|left; injection Hrun as <- <-; by eexists].
  unfold bind at 1 in Hrun.
  match type of Hrun with (let '(_, _) := ?m s in _) = _ => set (envcheck := m) in * end.
  assert (He : fst (envcheck s) = s).
  { subst envcheck. destruct (truthy env); [|done]. apply reads_bind; [done|].
    intros [x|]; [done|]. by apply reads_bind. }
  assert (Hk : forall s1, envcheck s = (s1, Ok tt) -> env_known env (db s)).
  { subst envcheck. intros s1 Hs1 Ht. rewrite Ht in Hs1. unfold bind at 1, Store.environment, query_ok in Hs1.
    destruct (environments (db s) !! default "" env); [by eexists|]. by apply bind_ok in Hs1 as (? & ? & _ & ?). }
  destruct (envcheck s) as [s1 [[]|e]]; cbn in He; subst s1;
    [|left; injection Hrun as <- <-; by eexists].
  destruct (policy_check_spec u user (gt_currency gt) reserved s Hu) as (refusal & Hp & _).
  unfold bind at 1 in Hrun. rewrite Hp in Hrun. right.
  exists gt, user, reserved, refusal. split_and!; try done. by eapply Hk.
Qed.

(** A submission that raises has written nothing. *)
Theorem submit_raises_clean u cmd g h b env org id (s s' : St W) e :
  submit br u cmd g h b env org id s = (s', Raise e) -> s' = s.
Proof.
  intros [(? & _ & ->)|(gt & user & reserved & refusal & _ & _ & Hg & Hu & _ & Hp & Hrun)]%submit_steps; [done|].
  destruct refusal as [r|]; unfold bind at 1 in Hrun.
  - destruct (record_refusal _ _ _ _ _ _ _ _ _ s) as [s1 [j|e1]] eqn:Hr; [done|].
    injection Hrun as <- _. by eapply record_refusal_raise.
  - destruct (create_job _ _ _ _ _ _ _ _ _ _ s) as [s1 [j|e1]] eqn:Hc.
    + destruct (policy_check_spec u user (gt_currency gt) reserved s Hu) as (o & Hp' & Ho).
      rewrite Hp in Hp'. injection Hp' as <-. destruct (proj1 Ho eq_refl) as [_ Hpos _ _ _].
      destruct (ceiling_warning_total g h reserved gt Hg Hpos) as [w Hw].
      unfold bind, lift_outcome in Hrun. by rewrite Hw in Hrun.
    + injection Hrun as <- _. by eapply create_job_raise.
Qed.

Lemma insert_new_job d j d' :
  insert_job d j = Ok d' -> j_logs_fetched j = 0%nat -> j_attempts j = 0 -> j_preemptions j = 0 ->
  j_pinned_tier j = None -> j_checkpoint_step j = None -> j_checkpoint_key j = None ->
  j_checkpoint_at j = None -> j_cancel_requested j = None ->
  jobs d !! j_job_id j = None /\ d' = {| d with jobs := <[j_job_id j := j]> (jobs d) |}.
Proof.
  unfold insert_job. case_bool_decide as Hn; [done|]. case_match; [done|].
  case_match; [done|]. case_match; [done|]. intros [= <-]. destruct j. cbn. intros -> -> -> -> -> -> -> ->.
  split; [by apply eq_None_not_Some|done].
Qed.

(** What a refusal writes. *)
Lemma record_refusal_writes u cmd g h c r why id org (s s' : St W) j :
  record_refusal u cmd g h c r why id org s = (s', Ok j) ->
  jobs (db s') !! id = Some j /\ j_state j = REFUSED /\ j_refusal_reason j = Some why /\
  ledger (db s') = ledger (db s) /\ world s' = world s.
Proof.
  unfold record_refusal. intros Hj. apply bind_ok in Hj as (s2 & t & Ht & Hj).
  injection Ht as <- <-. apply bind_ok in Hj as (s2 & [] & Hc & Hj). injection Hj as <- <-.
  unfold commit_only, transaction in Hc. destruct (obind _ _) as [[d' []]|] eqn:Hb; [|done].
  injection Hc as <-. apply obind_ok in Hb as (d3 & Hb & [= <-]).
  apply obind_ok in Hb as (d1 & H1 & H2). apply insert_transition_ok in H2 as [_ ->].
  apply insert_new_job in H1 as [_ ->]; [|done..]. cbn. by rewrite lookup_insert_eq.
Qed.

(** A job records what was asked for. *)
Record asked_for (j : Job) (cmd g : string) (h : float) (c : Currency) (env : option string) : Prop := {
  af_command : j_command j = cmd;
  af_gpu : j_gpu_type j = g;
  af_hours : j_requested_hours j = h;
  af_currency : j_currency j = c;
  af_environment : j_environment j = env
}.

(** What an admission writes. *)
Lemma create_job_writes u cmd g h c r id env org (s s' : St W) j :
  create_job config u cmd g h c r id env org s = (s', Ok j) ->
  clock s' = clock s /\ jobs (db s) !! id = None /\ j_job_id j = id /\
  jobs (db s') !! id = Some j /\ j_state j = QUEUED /\ j_user_id j = u /\
  asked_for j cmd g h c env /\
  j_reserved j = quantize r c /\
  exists es, ledger (db s') = ledger (db s) ++ es /\
    (es = [] /\ quantize r c <= 0 \/
     exists e, es = [e] /\ 0 < quantize r c /\ le_job_id e = Some id /\ le_user_id e = Some u /\
       le_currency e = c /\ le_kind e = RESERVE /\ le_amount e = quantize r c /\
       le_period e = billing_period (clock s) (timezone config)).
Proof.
  unfold create_job. intros Hrun. apply bind_ok in Hrun as (s1 & u0 & Hu & Hrun).
  unfold query in Hu. injection Hu as <- _. apply bind_ok in Hrun as (s1 & t & Ht & Hrun).
  injection Ht as <- <-. apply bind_ok in Hrun as (s1 & [] & Hc & Hrun). injection Hrun as <- <-.
  unfold commit_only, transaction in Hc. set (job := mkJob _ _ _ _ _ _ _ _ _ _ _ _ _ _ _ _ _ _ _ _ _ _ _ _ _ _) in *.
  destruct (obind _ _) as [[d' []]|] eqn:Hb; [|done]. injection Hc as <-.
  apply obind_ok in Hb as (d3 & Hb & [= <-]). apply obind_ok in Hb as (d1 & H1 & Hb).
  apply obind_ok in Hb as (d2 & H2 & H3). cbn [db clock].
  apply insert_new_job in H1 as [Hn ->]; [|done..]. apply insert_transition_ok in H2 as [_ ->].
  assert (Hres : j_reserved job = quantize r c) by done. rewrite Hres in H3.
  destruct (Z.ltb_spec 0 (quantize r c)).
  - apply insert_ledger_ok in H3 as [_ ->]. cbn [jobs ledger]. rewrite lookup_insert_eq.
    split_and!; try done. eexists. split; [done|]. right. eexists. split; [done|].
    assert (Hq : quantize (of_cents (quantize r c)) c = quantize r c) by apply quantize_cents_of_cents.
    unfold ledger_row, reserved. cbn [le_amount le_job_id le_user_id le_currency le_kind le_period].
    rewrite Hres, Hq. by split_and!.
  - injection H3 as <-. cbn [jobs ledger]. rewrite lookup_insert_eq. split_and!; try done.
    exists []. rewrite app_nil_r. split; [done|]. left. split; [done|lia].
Qed.

(** C3: an accepted submission satisfied every limit at that moment: the hours asked
    for are positive and within the longest job, the command is not too long, the
    environment named exists, the member is not suspended, the reservation is
    positive and within the per-job cap, the member had fewer than the maximum of jobs waiting, and what the member had
    committed this month plus the reservation is within the member's budget.  The
    job is then queued under its id as asked for, and the member's committed amount in that
    currency is up by exactly the reservation in hundredths. *)
Theorem submit_admits u cmd g h b env org id (s s' : St W) r :
  submit br u cmd g h b env org id s = (s', Ok r) -> accepted r = true ->
  exists gt user reserved,
    well_asked g h cmd /\ env_known env (db s) /\
    gpu config g = Ok gt /\ get_user (db s) u = Ok user /\
    match b with Some x => Ok x | None => default_reservation config g h end = Ok reserved /\
    admissible u user (gt_currency gt) reserved s /\
    jobs (db s) !! id = None /\ jobs (db s') !! id = Some (sr_job r) /\
    j_state (sr_job r) = QUEUED /\ j_user_id (sr_job r) = u /\
    asked_for (sr_job r) cmd g h (gt_currency gt) env /\
    j_reserved (sr_job r) = quantize reserved (gt_currency gt) /\
    forall c, committed_by u c s' = committed_by u c s +
      (if bool_decide (c = gt_currency gt) then Z.max 0 (j_reserved (sr_job r)) else 0).
Proof.
  intros Hrun Hacc. apply submit_steps in Hrun
    as [(? & [=] & _)|(gt & user & reserved & refusal & Hv & Henv & Hg & Hu & Hres & Hp & Hrun)].
  destruct refusal as [rf|]; apply bind_ok in Hrun as (s1 & j & Hj & Hrun).
  { injection Hrun as _ <-. done. }
  apply bind_ok in Hrun as (s2 & w & Hw & Hrun). injection Hw as <- _. injection Hrun as <- <-.
  destruct (policy_check_spec u user (gt_currency gt) reserved s Hu) as (o & Hp' & Ho).
  rewrite Hp in Hp'. injection Hp' as <-.
  destruct (create_job_writes _ _ _ _ _ _ _ _ _ _ _ _ Hj)
    as (Hclk & Hn & Hid & Hrow & Hst & Hus & Hask & Hr & es & Hl & Hes).
  exists gt, user, reserved. cbn [sr_job]. split_and!; try done; [by apply validate_request_ok|by apply Ho|].
  intros c. unfold committed_by. rewrite Hclk, Hl, Hr, !aggregate_sums, !zsum_app.
  destruct Hes as [[-> Hle]|(e & -> & Hlt & _ & Heu & Hec & Hek & Hea & Hep)].
  { cbn [zsum]. case_bool_decide; lia. }
  cbn [zsum]. unfold of_user, in_currency, in_period, held_part at 2, spent_part at 2.
  rewrite Heu, Hec, Hek, Hea, Hep, bool_decide_eq_true_2, String.eqb_refl by done.
  destruct (decide (c = gt_currency gt)) as [->|Hne].
  - rewrite !bool_decide_eq_true_2 by done. cbn [andb]. lia.
  - rewrite !bool_decide_eq_false_2 by congruence. cbn [andb]. lia.
Qed.

(** A refused submission is on record as REFUSED, with the reason of the
    first limit it broke, and costs nothing: the ledger is as it was. *)
Theorem submit_refuses u cmd g h b env org id (s s' : St W) r :
  submit br u cmd g h b env org id s = (s', Ok r) -> accepted r = false ->
  exists gt user reserved rf,
    gpu config g = Ok gt /\ get_user (db s) u = Ok user /\
    match b with Some x => Ok x | None => default_reservation config g h end = Ok reserved /\
    ~ admissible u user (gt_currency gt) reserved s /\
    sr_refusal r = Some rf /\ jobs (db s') !! id = Some (sr_job r) /\
    j_state (sr_job r) = REFUSED /\ j_refusal_reason (sr_job r) = Some (rfs_reason rf) /\
    ledger (db s') = ledger (db s) /\ world s' = world s.
Proof.
  intros Hrun Hacc. apply submit_steps in Hrun
    as [(? & [=] & _)|(gt & user & reserved & refusal & Hv & Henv & Hg & Hu & Hres & Hp & Hrun)].
  destruct refusal as [rf|]; apply bind_ok in Hrun as (s1 & j & Hj & Hrun).
  2: { apply bind_ok in Hrun as (s2 & w & Hw & Hrun). injection Hrun as _ <-. done. }
  injection Hrun as <- <-.
  destruct (policy_check_spec u user (gt_currency gt) reserved s Hu) as (o & Hp' & Ho).
  rewrite Hp in Hp'. injection Hp' as <-.
  destruct (record_refusal_writes _ _ _ _ _ _ _ _ _ _ _ _ Hj) as (? & ? & ? & ? & ?).
  exists gt, user, reserved, rf. cbn [sr_job sr_refusal]. split_and!; try done. by intros ?%Ho.
Qed.
End Submit.

Section Cancel.
Context {W : Type} `{TimeZones} (br : Broker W).

Abbreviation config := (br_config br).

(** What [terminate_job] may change. *)
Lemma terminate_job_frame j why (s s' : St W) o :
  terminate_job br j why s = (s', o) ->
  db s' = db s /\ journal s' = journal s /\ clock s' = clock s.
Proof.
  unfold terminate_job. destruct (_ && _); [|by intros [= <- _]].
  destruct (backend _ _) as [b|]; [|by intros [= <- _]].
  intros Hc. pose proof (call_db (b_terminate b (default "" (j_backend_handle j)) why) s) as Hd.
  by rewrite Hc in Hd.
Qed.

(** C9: cancelling is for the owner of the job, an officer, a door that vouches
    for one, or the broker itself.  Anybody else is told so, and the machine, the
    job and the ledger are as they were; so are they for a job that has ended.  A
    cancellation that succeeds leaves the job CANCELLED, off its machine's handle,
    with nothing held. *)
Theorem cancel_policy prefix job a adm (s : St W) :
  sound s -> find_job (db s) prefix = Ok job ->
  (may_cancel (db s) job a adm = false ->
     exists why, cancel br prefix a adm s = (s, Raise (Unauthorized why))) /\
  (may_cancel (db s) job a adm = true -> is_terminal job = true ->
     exists why, cancel br prefix a adm s = (s, Raise (BrokerError why))) /\
  (forall s' job', cancel br prefix a adm s = (s', Ok job') ->
     may_cancel (db s) job a adm = true /\ is_terminal job = false /\
     j_state job' = CANCELLED /\ j_backend_handle job' = None /\
     exists row, jobs (db s') !! j_job_id job = Some row /\ same_fixed row job /\
       j_state row = CANCELLED /\ job_holding (db s') (j_job_id job) (j_currency job) = 0).
Proof.
  intros Hs Hf.
  assert (E : cancel br prefix a adm s =
    (if negb (may_cancel (db s) job a adm) then
       raise (Unauthorized ("job " +:+ short_id job +:+ " belongs to " +:+ j_user_id job +:+ ", not "
         +:+ default "" a +:+ ". Ask them, or ask an officer"))
     else if is_terminal job then
       raise (BrokerError ("job " +:+ short_id job +:+ " is already "
         +:+ str_lower (state_str (j_state job)) +:+ "; nothing to cancel"))
     else terminate_job br job ("cancelled by " +:+ str_or a (j_user_id job));;;
          transition config job CANCELLED (clearing ("cancelled by " +:+ str_or a (j_user_id job)))) s)
    by (unfold cancel, bind at 1, query; by rewrite Hf).
  rewrite E.
  destruct (may_cancel (db s) job a adm); cbn [negb].
  2: { split_and!; [intros _; by eexists|done|by intros s' j' [=]]. }
  destruct (is_terminal job) eqn:Ht.
  { split_and!; [done|intros _ _; by eexists|by intros s' j' [=]]. }
  split_and!; [done|done|]. intros s' job' Hrun.
  apply bind_ok in Hrun as (s1 & [] & Hterm & Htr).
  apply terminate_job_frame in Hterm as (Hdb & Hjn & Hck).
  destruct (sound_same s s1 Hs Hdb Hjn) as [Hs1 _].
  assert (Hc : copy_of (db s1) job).
  { rewrite Hdb. apply find_job_row in Hf as [k Hk]. eapply copy_of_row; [by apply so_db|exact Hk]. }
  destruct (transition_ends config job CANCELLED (clearing ("cancelled by " +:+ str_or a (j_user_id job)))
    s1 s' job' Hs1 Hc eq_refl eq_refl Htr) as (_ & _ & row & Hrow & Hfix & Hst & Hz).
  apply transition_returns in Htr as ->. split_and!; try done. by exists row.
Qed.
End Cancel.

Section Officers.
Context {W : Type} `{TimeZones} (pow : pow_fun) (br : Broker W).

(** Does this actor pass: nobody is named, the pool has no officer yet, or the
    actor is one? *)
Definition officer_ok (d : DB) (actor : option string) : bool :=
  negb (truthy actor) || negb (has_admins d) ||
  match maybe_user d (default "" actor) with Some u => u_is_admin u | None => false end.

(** The requests that act on the pool itself: who asks, whether the door vouches
    for them, and what is done when they pass. *)
Definition gated (r : Request (W := W)) : option (option string * bool * M (St W) exn unit) :=
  match r with
  | SuspendUser u why a adm => Some (a, adm, suspend_user u why (default "" a);;; ret tt)
  | RestoreUser u a adm => Some (a, adm, restore_user u (default "" a);;; ret tt)
  | DrainHost h why a adm => Some (Some a, adm,
      match local_backend br with
      | None => raise (BrokerError "the local pool is not configured; nothing to drain")
      | Some (_, ops) => call (lo_drain ops h why);;; drain_host h why a
      end)
  | UndrainHost h a adm => Some (Some a, adm,
      match local_backend br with
      | None => raise (BrokerError "the local pool is not configured")
      | Some (_, ops) => call (lo_undrain ops h);;; undrain_host h
      end)
  | AddUser u a adm n b1 b2 (Some ia) =>
      Some (a, adm, upsert_user (br_config br) u n b1 b2 (Some ia);;; ret tt)
  | _ => None
  end.

Lemma require_officer_spec a what adm (s : St W) :
  if adm || officer_ok (db s) a then require_officer a what adm s = (s, Ok tt)
  else exists why, require_officer a what adm s = (s, Raise (Unauthorized why)).
Proof.
  unfold require_officer, officer_ok, query. destruct adm, (truthy a); cbn [orb negb]; try done.
  destruct (has_admins (db s)); cbn [orb negb]; [|done].
  destruct (maybe_user _ _) as [u|]; [|by eexists]. destruct (u_is_admin u); [done|by eexists].
Qed.

Lemma gate_bind {A} a what adm (k : M (St W) exn A) (s : St W) :
  if adm || officer_ok (db s) a then (require_officer a what adm;;; k) s = k s
  else exists why, (require_officer a what adm;;; k) s = (s, Raise (Unauthorized why)).
Proof.
  pose proof (require_officer_spec a what adm s) as Hr. unfold bind.
  destruct (_ || _); [by rewrite Hr|]. destruct Hr as [why ->]. by exists why.
Qed.

(** C10: suspending, restoring, draining, undraining and changing who is an
    officer go through one gate: somebody who is not an officer, in a pool that
    has one, is refused and changes nothing; anybody else gets exactly the
    operation of the store behind it. *)
Theorem officer_gate r a adm op (s : St W) :
  gated r = Some (a, adm, op) ->
  if adm || officer_ok (db s) a then serve_store pow br r s = op s
  else exists why, serve_store pow br r s = (s, Raise (Unauthorized why)).
Proof.
  assert (Hassoc : forall A (g : M (St W) exn unit) (m : M (St W) exn A),
    (if adm || officer_ok (db s) a then (g;;; m) s = m s
     else exists why, (g;;; m) s = (s, Raise (Unauthorized why))) ->
    if adm || officer_ok (db s) a then ((g;;; m);;; ret tt) s = (m;;; ret tt) s
    else exists why, ((g;;; m);;; ret tt) s = (s, Raise (Unauthorized why))).
  { intros A g m Hg. unfold bind in *.
    destruct (_ || _); [by rewrite Hg|]. destruct Hg as [w ->]. by exists w. }
  destruct r; cbn [gated]; try done.
  - destruct is_admin as [ia|]; [|done]. intros [= <- <- <-]. apply Hassoc, gate_bind.
  - intros [= <- <- <-]. apply Hassoc, gate_bind.
  - intros [= <- <- <-]. apply Hassoc, gate_bind.
  - intros [= <- <- <-]. apply gate_bind.
  - intros [= <- <- <-]. apply gate_bind.
Qed.
End Officers.

Section Loop.
Context {W : Type} `{TimeZones} (pow : pow_fun) (br : Broker W).

Definition drained (d : DB) : Prop := queued_jobs d = [] /\ active_jobs d = [].

(** Rounds of the loop that did not end it: a tick, work left, a sleep. *)
Inductive rounds (x : float) : St W -> list TickReport -> St W -> Prop :=
| rounds_none s : rounds x s [] s
| rounds_more s s1 s2 s3 report reports :
    broker_tick pow br s = (s1, Ok report) -> ~ drained (db s1) ->
    sleep_for x s1 = (s2, Ok tt) -> rounds x s2 reports s3 ->
    rounds x s (report :: reports) s3.

(** One turn of the loop, after a tick that returned. *)
Lemma run_ticks_turn x n acc (s s1 : St W) report :
  broker_tick pow br s = (s1, Ok report) ->
  (drained (db s1) -> run_ticks pow br x (S n) acc s = (s1, Ok (Some (acc ++ [report])))) /\
  (~ drained (db s1) -> run_ticks pow br x (S n) acc s =
     (sleep_for x;;; run_ticks pow br x n (acc ++ [report])) s1).
Proof.
  intros Ht.
  assert (E : run_ticks pow br x (S n) acc s =
    match queued_jobs (db s1), active_jobs (db s1) with
    | [], [] => ret (Some (acc ++ [report]))
    | _, _ => sleep_for x;;; run_ticks pow br x n (acc ++ [report])
    end s1) by (cbn [run_ticks]; unfold bind at 1; by rewrite Ht).
  rewrite E. unfold drained.
  destruct (queued_jobs (db s1)), (active_jobs (db s1)); split; intros Hd;
    first [done | by destruct Hd].
Qed.

Lemma run_ticks_rounds x n acc (s s' : St W) reports :
  rounds x s reports s' -> (length reports <= n)%nat ->
  run_ticks pow br x n acc s = run_ticks pow br x (n - length reports) (acc ++ reports) s'.
Proof.
  intros Hr. revert n acc. induction Hr as [s|s s1 s2 s3 report reports Ht Hd Hs Hr IH]; intros n acc Hn.
  - by rewrite app_nil_r, Nat.sub_0_r.
  - destruct n as [|n]; [cbn in Hn; lia|].
    rewrite (proj2 (run_ticks_turn x n acc s s1 report Ht) Hd). unfold bind. rewrite Hs.
    cbn [length] in Hn. rewrite IH by lia. by rewrite <- app_assoc.
Qed.

Lemma run_ticks_some x n acc (s s' : St W) out :
  run_ticks pow br x n acc s = (s', Ok (Some out)) ->
  exists reports s1 report, rounds x s reports s1 /\ (length reports < n)%nat /\
    broker_tick pow br s1 = (s', Ok report) /\ drained (db s') /\ out = acc ++ reports ++ [report].
Proof.
  revert acc s. induction n as [|n IH]; intros acc s; [done|]. intros Hrun.
  pose proof Hrun as Hrun'. cbn [run_ticks] in Hrun'. apply bind_ok in Hrun' as (s1 & report & Ht & _).
  destruct (run_ticks_turn x n acc s s1 report Ht) as [Hyes Hno].
  assert (Hdec : drained (db s1) \/ ~ drained (db s1)).
  { unfold drained. destruct (queued_jobs (db s1)), (active_jobs (db s1)); first [by left|right; by intros []]. }
  destruct Hdec as [Hd|Hd].
  - rewrite (Hyes Hd) in Hrun. injection Hrun as <- <-. exists [], s, report.
    split_and!; [constructor|cbn; lia|done..].
  - rewrite (Hno Hd) in Hrun. apply bind_ok in Hrun as (s2 & [] & Hs & Hrun).
    apply IH in Hrun as (reports & s3 & last & Hr & Hlen & Hlast & Hdr & ->).
    exists (report :: reports), s3, last. split_and!; try done.
    + by eapply rounds_more.
    + cbn. lia.
    + by rewrite <- app_assoc.
Qed.

(** C16: [run_until_idle] returns exactly when, within the number of ticks allowed,
    a tick leaves nothing queued and nothing active, and then stops at that tick
    with one report for each; when that many ticks all leave work it raises after
    the last of them. *)
Theorem run_until_idle_spec x n (s : St W) :
  (forall s' out, run_until_idle pow br x n s = (s', Ok out) <->
     exists reports s1 report, rounds x s reports s1 /\ (length reports < n)%nat /\
       broker_tick pow br s1 = (s', Ok report) /\ drained (db s') /\ out = reports ++ [report]) /\
  (forall s' reports, rounds x s reports s' -> length reports = n ->
     exists why, run_until_idle pow br x n s = (s', Raise (BrokerError why))).
Proof.
  split.
  - intros s' out. unfold run_until_idle. split.
    + intros Hrun. apply bind_ok in Hrun as (s1 & [o|] & Hr & Ho); [|done].
      injection Ho as -> ->. by apply run_ticks_some in Hr.
    + intros (reports & s1 & report & Hr & Hlen & Ht & Hd & ->). unfold bind.
      rewrite (run_ticks_rounds x n [] s s1 reports Hr) by lia.
      destruct (n - length reports)%nat as [|k] eqn:Hk; [lia|].
      by rewrite (proj1 (run_ticks_turn x k _ s1 s' report Ht) Hd).
  - intros s' reports Hr <-. unfold run_until_idle, bind.
    rewrite (run_ticks_rounds x _ [] s s' reports Hr) by lia. rewrite Nat.sub_diag. by eexists.
Qed.
End Loop.

Section Reclaim.
Context {W : Type} `{TimeZones} (br : Broker W).

Abbreviation config := (br_config br).

Lemma stays_terminate_job id st j why : stays id st (terminate_job br j why).
Proof. unfold terminate_job. stays_walk. Qed.

Lemma keeps_clock_commit t (body : DB -> outcome exn DB) :
  keeps (fun s : St W => clock s = t) (commit_only body).
Proof. intros s Hs. unfold commit_only, transaction. by destruct (obind _ _) as [[? ?]|]. Qed.

Lemma reclaim_one_effect v (s s' : St W) j' id :
  reclaim_one br v s = (s', Ok j') ->
  clock s' = clock s /\
  state_of (db s') id = if decide (id = j_job_id (iv_job v)) then Some RECLAIMED else state_of (db s) id.
Proof.
  unfold reclaim_one. intros Hrun. apply bind_ok in Hrun as (s1 & t & Ht & Hrun). injection Ht as <- <-.
  apply bind_ok in Hrun as (s2 & n & Hn & Hrun). apply bind_ok in Hrun as (s3 & [] & Hl & Hrun).
  apply bind_ok in Hrun as (s4 & [] & Hterm & Hrun).
  apply terminate_job_frame in Hterm as (Hd4 & _ & Hc4).
  assert (Hc3 : clock s3 = clock s).
  { assert (Hc2 : clock s2 = clock s).
    { revert Hn. unfold notify, bind, now, gets, transaction.
      destruct (insert_notification _ _ _ _ _ _) as [[? ?]|]; [|done]. by intros [= <- _]. }
    rewrite <- Hc2. revert Hl. unfold append_log, bind, query_ok.
    destruct (within_log_budget _ _ _ _); [by intros [= <-]|]. cbn [now gets].
    intros Hl. pose proof (keeps_clock_commit (clock s2)
      (fun d => insert_logs d (j_job_id (iv_job v)) (clock s2) (p :: l)) s2 eq_refl) as Hk.
    unfold now, gets in Hl. rewrite Hl in Hk. done. }
  assert (Hs3 : state_of (db s3) id = state_of (db s) id).
  { transitivity (state_of (db s2) id).
    - eapply stays_run; [apply stays_append_log|exact Hl].
    - eapply stays_run; [apply stays_notify|exact Hn]. }
  destruct (transition_states config _ _ _ _ _ _ id Hrun) as [Hck Hst]. split; [congruence|].
  rewrite Hst, Hd4. by destruct (decide _).
Qed.

(** On a job in a state that cannot be reclaimed, which [reclaim] does take
    for a candidate while it is active, [_reclaim_one] never succeeds: after its
    notification, its log line and the end of its machine it raises, with every
    job in the state it was in. *)
Theorem reclaim_unready v (s : St W) :
  can_transition (j_state (iv_job v)) RECLAIMED = false ->
  exists s' e, reclaim_one br v s = (s', Raise e) /\
    forall id, state_of (db s') id = state_of (db s) id.
Proof.
  intros Hno.
  assert (Hst : forall id, stays id (state_of (db s) id) (reclaim_one br v)).
  { intros id. unfold reclaim_one. stays_read.
    apply stays_bind; [apply stays_notify|]. intros _.
    apply stays_bind; [apply stays_append_log|]. intros _.
    apply stays_bind; [apply stays_terminate_job|]. intros _.
    unfold transition. rewrite Hno. apply keeps_raise. }
  destruct (reclaim_one br v s) as [s' [j|e]] eqn:Hrun.
  - exfalso. unfold reclaim_one in Hrun. do 4 (apply bind_ok in Hrun as (? & ? & _ & Hrun)).
    unfold transition in Hrun. by rewrite Hno in Hrun.
  - exists s', e. split; [done|]. intros id. by eapply stays_run.
Qed.

(** What the loop of [reclaim] has done so far. *)
Record reclaim_inv (s0 : St W) (vs : list IdleVerdict)
    (acc : list IdleVerdict * list string * list (string * string)) (s : St W) : Prop := {
  ri_clock : clock s = clock s0;
  ri_ready : forall v, v ∈ fst (fst acc) -> v ∈ vs /\ fst (reclaimable v (clock s0)) = true;
  ri_done : forall id, id ∈ snd (fst acc) ->
    (exists v, v ∈ fst (fst acc) /\ j_job_id (iv_job v) = id) /\ state_of (db s) id = Some RECLAIMED;
  ri_other : forall id, id ∉ snd (fst acc) -> state_of (db s) id = state_of (db s0) id
}.

Lemma reclaim_step_inv s0 vs acc v (s s' : St W) acc' :
  v ∈ vs -> reclaim_inv s0 vs acc s -> reclaim_step br true acc v s = (s', Ok acc') ->
  reclaim_inv s0 vs acc' s'.
Proof.
  destruct acc as [[ready recl] held]. intros Hv [Hc Hr Hd Ho] Hrun. cbn [fst snd] in *.
  unfold reclaim_step in Hrun. unfold bind at 1, now at 1, gets at 1 in Hrun. rewrite Hc in Hrun.
  destruct (reclaimable v (clock s0)) as [[] why] eqn:Hrec.
  2: { injection Hrun as <- <-. by constructor. }
  apply bind_ok in Hrun as (s1 & j' & Hone & Hrun). injection Hrun as <- <-.
  pose proof (fun id => reclaim_one_effect _ _ _ _ id Hone) as He. constructor; cbn [fst snd].
  - destruct (He "") as [-> _]. done.
  - intros x [Hx| ->%list_elem_of_singleton]%elem_of_app; [by apply Hr|]. by rewrite Hrec.
  - intros id [Hid| ->%list_elem_of_singleton]%elem_of_app.
    + destruct (Hd id Hid) as [(x & Hx & Hxid) Hst]. split.
      * exists x. split; [|done]. apply elem_of_app. by left.
      * destruct (He id) as [_ ->]. by destruct (decide _).
    + split.
      * exists v. split; [|done]. apply elem_of_app. right. left.
      * destruct (He (j_job_id (iv_job v))) as [_ ->]. by rewrite decide_True.
  - intros id Hid. rewrite not_elem_of_app, list_elem_of_singleton in Hid. destruct Hid as [Hid Hne].
    destruct (He id) as [_ ->]. rewrite decide_False by done. by apply Ho.
Qed.

Lemma reclaim_fold_inv s0 vs todo acc (s s' : St W) acc' :
  todo ⊆ vs -> reclaim_inv s0 vs acc s -> foldM (reclaim_step br true) acc todo s = (s', Ok acc') ->
  reclaim_inv s0 vs acc' s'.
Proof.
  revert acc s. induction todo as [|v todo IH]; intros acc s Hsub Hi Hrun.
  - by injection Hrun as <- <-.
  - cbn in Hrun. apply bind_ok in Hrun as (s1 & acc1 & H1 & H2).
    eapply IH; [set_solver| |exact H2]. eapply reclaim_step_inv; [|exact Hi|exact H1]. set_solver.
Qed.

Lemma reads_reclaim_off todo acc : reads (foldM (reclaim_step (W := W) br false) acc todo).
Proof.
  apply reads_foldM. intros [[ready recl] held] v. apply reads_bind; [done|]. intros t.
  by destruct (reclaimable v t) as [[] why].
Qed.

Lemma reclaim_off_none todo acc (s s' : St W) acc' :
  foldM (reclaim_step br false) acc todo s = (s', Ok acc') -> snd (fst acc') = snd (fst acc).
Proof.
  revert acc s. induction todo as [|v todo IH]; intros acc s; [by intros [= _ <-]|].
  cbn [foldM]. intros Hrun. apply bind_ok in Hrun as (s1 & acc1 & H1 & H2). rewrite (IH _ _ H2).
  destruct acc as [[ready recl] held]. unfold reclaim_step, bind, now, gets in H1.
  by destruct (reclaimable v (clock s)) as [[] why]; injection H1 as _ <-.
Qed.

(** C15: switched off, [reclaim] only looks.  Switched on, it stops a job only on
    an idle verdict on the active job, evaluated on the samples of that moment,
    that had been notified and whose grace period was over; those jobs are
    RECLAIMED and no other job changes state. *)
Theorem reclaim_justified force (s s' : St W) r :
  reclaim br force s = (s', Ok r) ->
  (reclaim_enabled config || force = false -> s' = s /\ rc_reclaimed r = []) /\
  (forall id, id ∈ rc_reclaimed r ->
     state_of (db s') id = Some RECLAIMED /\
     exists v, j_job_id (iv_job v) = id /\ iv_job v ∈ active_jobs (db s) /\
       evaluate config (db s) (clock s) (iv_job v) = Ok v /\
       fst (reclaimable v (clock s)) = true) /\
  (forall id, id ∉ rc_reclaimed r -> state_of (db s') id = state_of (db s) id).
Proof.
  unfold reclaim. intros Hrun. apply bind_ok in Hrun as (s1 & t & Ht & Hrun). injection Ht as <- <-.
  set (enabled := reclaim_enabled config || force) in *.
  apply bind_ok in Hrun as (s1 & vs & Hvs & Hrun).
  unfold idle_jobs, bind, now, gets, query in Hvs. injection Hvs as <- Hvs.
  apply bind_ok in Hrun as (s2 & [[ready recl] held] & Hf & Hrun).
  apply bind_ok in Hrun as (s3 & idle & Hi & Hrun). injection Hrun as <- <-. cbn [rc_reclaimed].
  unfold idle_jobs, bind, now, gets, query in Hi. injection Hi as <- _.
  destruct enabled.
  - split; [done|]. assert (Hinv : reclaim_inv s vs (ready, recl, held) s2).
    { eapply (reclaim_fold_inv s vs vs ([], [], [])); [done| |exact Hf].
      constructor; cbn; try done; by intros ? ?%elem_of_nil. }
    destruct Hinv as [_ Hready Hdone Hother]. cbn in *. split; [|done]. intros id Hid.
    destruct (Hdone id Hid) as [(v & Hv & Hvid) Hst]. split; [done|]. exists v. split; [done|].
    destruct (Hready v Hv) as [Hvin Hrec]. destruct (idle_candidates_in _ _ _ _ _ Hvs Hvin) as (_ & ? & ?).
    by split_and!.
  - pose proof (reads_reclaim_off vs ([], [], []) s) as Hr. rewrite Hf in Hr. cbn in Hr. subst s2.
    apply reclaim_off_none in Hf. cbn in Hf. subst recl.
    split_and!; [done|by intros ? ?%elem_of_nil|done].
Qed.
End Reclaim.

Section Reap.
Context {W : Type} `{TimeZones} (br : Broker W).

Abbreviation config := (br_config br).

Lemma orphan_of_jobs d d' t (b : Backend W) r :
  jobs d' = jobs d -> orphan_of config d' t b r = orphan_of config d t b r.
Proof. intros E. unfold orphan_of, why_orphaned, get_job. by rewrite E. Qed.

(** A reap of the same resources, the records of the jobs being the same. *)
Lemma reap_same reports (s s1 : St W) r :
  Forall2 lists_resources (br_backends br) reports ->
  jobs (db s1) = jobs (db s) -> clock s1 = clock s ->
  reap config (br_backends br) s = (s, Ok r) -> reap config (br_backends br) s1 = (s1, Ok r).
Proof.
  intros Hall Hj Hc. unfold reap, bind, now, gets. rewrite !(reap_fold _ _ _ _ _ _ Hall). cbn.
  assert (E : forall (bs : list (Backend W)) (reports : list (list Resource)),
    zip_with (fun b rs => omap (orphan_of config (db s1) (clock s) b) rs) bs reports
    = zip_with (fun b rs => omap (orphan_of config (db s) (clock s) b) rs) bs reports).
  { induction bs as [|b bs IH]; intros [|rs rss]; cbn; try done. rewrite IH. f_equal.
    induction rs as [|x rs IHr]; cbn; [done|]. by rewrite (orphan_of_jobs (db s) (db s1)), IHr. }
  intros Hr. injection Hr as <-. by rewrite Hc, E.
Qed.

(** What has been charged for a machine. *)
Abbreviation charged := (abandoned_for_handle).

(** What the orphans of a report on one machine burned, where their age is known. *)
Definition burned_by (h : string) (c : Currency) (os : list Orphan) : list Z :=
  map or_burned (List.filter (fun o => cost_known o && bool_decide (or_handle o = h) && bool_decide (or_currency o = c)) os).

Lemma record_orphan_effect o (s s1 : St W) :
  record_orphan br o s = (s1, Ok tt) ->
  clock s1 = clock s /\ world s1 = world s /\ jobs (db s1) = jobs (db s) /\ abandons (db s) (db s1) /\
  forall h c, charged (db s1) h c = fold_left Z.max (burned_by h c [o]) (charged (db s) h c).
Proof.
  unfold record_orphan, burned_by. cbn [List.filter map].
  destruct (cost_known o); [|intros [= <-]; by split_and!].
  intros Hr. apply bind_ok in Hr as (s2 & r & Hr & Hx). injection Hx as <-.
  apply record_abandoned_effect in Hr as (_ & Hc & Hw & Hj & Ha & He).
  rewrite dec_sub_cents in He. unfold quantize in He. rewrite quantize_cents_of_cents in He.
  split_and!; try done. intros h c. rewrite He. cbn [andb].
  case_bool_decide as Hh; [|cbn; lia]. case_bool_decide as Hcc; cbn; [subst; lia|lia].
Qed.

Lemma burned_by_cons h c o os : burned_by h c (o :: os) = burned_by h c [o] ++ burned_by h c os.
Proof. unfold burned_by. cbn [List.filter]. by destruct (_ && _). Qed.

Lemma record_orphans_effect os (s s1 : St W) :
  foldM (fun _ o => record_orphan br o) tt os s = (s1, Ok tt) ->
  clock s1 = clock s /\ world s1 = world s /\ jobs (db s1) = jobs (db s) /\ abandons (db s) (db s1) /\
  forall h c, charged (db s1) h c = fold_left Z.max (burned_by h c os) (charged (db s) h c).
Proof.
  revert s. induction os as [|o os IH]; intros s; cbn [foldM].
  - intros [= <-]. by split_and!.
  - intros Hr. apply bind_ok in Hr as (s2 & [] & H1 & H2).
    apply record_orphan_effect in H1 as (Hc1 & Hw1 & Hj1 & Ha1 & Hk1).
    apply IH in H2 as (Hc2 & Hw2 & Hj2 & Ha2 & Hk2). split_and!; try congruence; [by etransitivity|].
    intros h c. by rewrite Hk2, Hk1, (burned_by_cons h c o os), fold_left_app.
Qed.

Lemma fold_max_above l a : a <= fold_left Z.max l a /\ forall x, x ∈ l -> x <= fold_left Z.max l a.
Proof.
  revert a. induction l as [|y l IH]; intros a; cbn; [split; [lia|by intros ? ?%elem_of_nil]|].
  destruct (IH (Z.max a y)) as [H1 H2]. split; [lia|]. intros x [->|Hx]%elem_of_cons; [lia|by apply H2].
Qed.

(** Nothing is left to write when every orphan is charged. *)
Lemma record_orphans_again os (s : St W) :
  (forall o, o ∈ os -> cost_known o = true -> or_burned o <= charged (db s) (or_handle o) (or_currency o)) ->
  foldM (fun _ o => record_orphan br o) tt os s = (s, Ok tt).
Proof.
  induction os as [|o os IH]; intros Hall; cbn [foldM]; [done|].
  assert (E : record_orphan br o s = (s, Ok tt)).
  { unfold record_orphan. destruct (cost_known o) eqn:Hk; [|done]. unfold bind.
    rewrite record_abandoned_again; [done|].
    rewrite dec_sub_cents. unfold quantize. rewrite quantize_cents_of_cents.
    specialize (Hall o ltac:(left) Hk). lia. }
  unfold bind. rewrite E. apply IH. intros. apply Hall; [by right|done].
Qed.

(** C17: reaping writes charges for abandoned machines and nothing else.  What is
    charged for a machine becomes the most it burned by the report, where its age is
    known, unless more was charged before; another machine is charged nothing; no job
    changes, nothing is terminated, and reaping again at once writes nothing more. *)
Theorem reap_charges_once reports (s s1 : St W) r :
  Forall2 lists_resources (br_backends br) reports ->
  broker_reap br s = (s1, Ok r) ->
  (forall h c, charged (db s1) h c = fold_left Z.max (burned_by h c (rp_orphans r)) (charged (db s) h c)) /\
  abandons (db s) (db s1) /\
  jobs (db s1) = jobs (db s) /\ world s1 = world s /\
  broker_reap br s1 = (s1, Ok r).
Proof.
  intros Hall. unfold broker_reap. intros Hrun. apply bind_ok in Hrun as (s0 & rep & Hreap & Hrun).
  apply bind_ok in Hrun as (s2 & [] & Hrec & Hrun). injection Hrun as <- <-.
  assert (s0 = s) as ->.
  { revert Hreap. unfold reap, bind, now, gets. rewrite (reap_fold _ _ _ _ _ _ Hall). by intros [= <- _]. }
  apply record_orphans_effect in Hrec as (Hc & Hw & Hj & Ha & Hk). split_and!; try done.
  unfold bind. rewrite (reap_same reports s s2 rep Hall Hj Hc Hreap), record_orphans_again; [done|].
  intros o Ho Hkn. rewrite Hk. apply fold_max_above. unfold burned_by. apply list_elem_of_In, in_map_iff. exists o.
  split; [done|]. apply List.filter_In. split; [by apply list_elem_of_In|]. by rewrite Hkn, !bool_decide_eq_true_2.
Qed.
End Reap.
