(* ===== verification/WebProps.v ===== *)
(** * What a web request can do

    [web_writes_authorised]: to the database; [web_touches_no_machine]: to the world;
    [web_revoked_shut_out]: for somebody who was put out; [stream_delivers]: the live
    log over its rounds, while the database grows. *)

From S2P Require Import Prelude PyFloat PyDecimal PyFormat PySort PyDict Errors Money Clock PyJson PyText Checkpoint States Models Config Tables Store StoreInv StoreSafe Admission FairShare Backend Hosts Placement Idle Metrics PriceList Pricing Forecast Report Scheduler SchedulerSafe Broker Digest WebAuth WebApp BrokerSafe WebSafe BrokerProps.
Local Open Scope Z_scope.
Local Open Scope py_scope.

(** ** Changes *)

(** New jobs, all of the member [me]. *)
Definition in_name (me : string) (d0 d : DB) : Prop :=
  users d = users d0 /\ forall id j, jobs d !! id = Some j -> jobs d0 !! id = Some j \/ j_user_id j = me.

(** The row of one job, and what hangs on it. *)
Definition only_job (job_id : string) (d0 d : DB) : Prop :=
  users d = users d0 /\ forall id, id <> job_id -> jobs d !! id = jobs d0 !! id.

(** The row of one member, who is no more of an officer than before and still
    suspended if suspended. *)
Definition only_user (user_id : string) (d0 d : DB) : Prop :=
  jobs d = jobs d0 /\ ledger d = ledger d0 /\
  (forall u, u <> user_id -> users d !! u = users d0 !! u) /\
  (forall u, users d !! user_id = Some u ->
     (u_is_admin u = true -> exists u0, users d0 !! user_id = Some u0 /\ u_is_admin u0 = true) /\
     (forall u0, users d0 !! user_id = Some u0 -> u_suspended_at u = u_suspended_at u0)).

Section Within.
Context {W : Type}.

(** The database satisfies [P] and the machines are as in [w]. *)
Definition within (P : DB -> Prop) (w : W) (s : St W) : Prop := P (db s) /\ world s = w.

Lemma within_transaction {A} P w (body : DB -> outcome exn (DB * A)) :
  (forall d d' a, P d -> body d = Ok (d', a) -> P d') -> keeps (within P w) (transaction body).
Proof.
  intros Hb s [Hp Hw]. unfold transaction. destruct (body (db s)) as [[d' a]|e] eqn:E; [|done].
  split; [by eapply Hb|done].
Qed.

Lemma within_commit P w (body : DB -> outcome exn DB) :
  (forall d d', P d -> body d = Ok d' -> P d') -> keeps (within P w) (commit_only body).
Proof. intros Hb. apply within_transaction. intros d d' [] Hp (x & E & [= ->])%obind_ok. by eapply Hb. Qed.

Lemma within_read {A B} P w (m : M (St W) exn A) (k : A -> M (St W) exn B) :
  reads m -> (forall a, keeps (within P w) (k a)) -> keeps (within P w) (bind m k).
Proof. intros Hm Hk. apply keeps_bind; [by apply keeps_reads|exact Hk]. Qed.

Lemma query_step {A B} (q : DB -> outcome exn A) (k : A -> M (St W) exn B) s a :
  q (db s) = Ok a -> bind (query q) k s = k a s.
Proof. intros E. unfold bind, query. by rewrite E. Qed.

(** From a state to the state after. *)
Lemma within_after {A} P (m : M (St W) exn A) (s : St W) :
  keeps (within P (world s)) m -> P (db s) -> P (db (fst (m s))) /\ world (fst (m s)) = world s.
Proof. intros Hm Hp. specialize (Hm s (conj Hp eq_refl)). by destruct (m s) as [s' [a|e]]. Qed.
End Within.

Section Frames.
Context {W : Type} `{TimeZones} (config : BrokerConfig).

Lemma in_name_insert me d0 d job d' : in_name me d0 d -> j_user_id job = me -> insert_job d job = Ok d' -> in_name me d0 d'.
Proof.
  intros [Hu Hj] Hme (Hn & _ & row & -> & Hs & _)%insert_job_ok. split; [done|]. intros id j. cbn.
  destruct (decide (j_job_id job = id)) as [<-|Hne].
  - rewrite lookup_insert_eq. intros [= <-]. right. rewrite <- Hme. apply Hs.
  - rewrite lookup_insert_ne by done. apply Hj.
Qed.

Lemma in_name_same me d0 d d' : in_name me d0 d -> jobs d' = jobs d -> users d' = users d -> in_name me d0 d'.
Proof. intros [Hu Hj] Ej Eu. split; [congruence|]. by rewrite Ej. Qed.

Lemma within_create w me d0 cmd g h c r id env org :
  keeps (within (in_name me d0) w) (create_job (W := W) config me cmd g h c r id env org).
Proof.
  unfold create_job. apply within_read; [done|]. intros u. apply within_read; [done|]. intros t.
  apply keeps_bind; [|intros; apply keeps_ret]. apply within_commit. intros d d' Hp.
  intros (d1 & H1 & (d2 & (_ & ->)%insert_transition_ok & H3)%obind_ok)%obind_ok.
  assert (Hp1 : in_name me d0 d1) by (by (eapply in_name_insert; [exact Hp| |exact H1]; reflexivity)).
  match type of H3 with (if ?b then _ else _) = _ => destruct b end.
  - apply insert_ledger_ok in H3 as [_ ->]. by apply (in_name_same _ _ d1).
  - injection H3 as <-. by apply (in_name_same _ _ d1).
Qed.

Lemma within_refusal w me d0 cmd g h c r why id org :
  keeps (within (in_name me d0) w) (record_refusal (W := W) me cmd g h c r why id org).
Proof.
  unfold record_refusal. apply within_read; [done|]. intros t.
  apply keeps_bind; [|intros; apply keeps_ret]. apply within_commit. intros d d' Hp.
  intros (d1 & H1 & (_ & ->)%insert_transition_ok)%obind_ok.
  apply (in_name_same _ _ d1); [|done..]. eapply in_name_insert; [exact Hp| |exact H1]; reflexivity.
Qed.

Lemma only_job_alter id d0 d f : only_job id d0 d -> only_job id d0 (update_job d id f).
Proof. intros [Hu Hj]. split; [done|]. intros i Hne. cbn. rewrite lookup_alter_ne by done. by apply Hj. Qed.

Lemma within_transition w d0 job to args :
  keeps (within (only_job (j_job_id job) d0) w) (transition (W := W) config job to args).
Proof.
  unfold transition. destruct (negb _); [apply keeps_raise|]. apply within_read; [done|]. intros t.
  apply within_read; [done|]. intros rel. apply keeps_bind; [|intros; apply keeps_ret]. apply within_commit.
  intros d d' Hp (d1 & H1 & (d2 & (_ & ->)%insert_transition_ok & (es & -> & _)%insert_writes_ok)%obind_ok)%obind_ok.
  apply update_state_ok in H1 as (row & _ & _ & ->). exact (only_job_alter _ _ _ _ Hp).
Qed.

Lemma within_request_cancel w d0 job actor :
  keeps (within (only_job (j_job_id job) d0) w) (request_cancel (W := W) job actor).
Proof.
  unfold request_cancel. apply within_read; [done|]. intros t. apply keeps_bind; [|intros; apply keeps_ret].
  apply within_commit. intros d d' Hp. cbn. repeat (case_match; try done). intros [= <-]. exact (only_job_alter _ _ _ _ Hp).
Qed.

Lemma upsert_only_user user_id name b1 b2 (s : St W) :
  only_user user_id (db s) (db (fst (upsert_user config user_id name b1 b2 None s))) /\
  world (fst (upsert_user config user_id name b1 b2 None s)) = world s.
Proof.
  unfold upsert_user, bind, query_ok, now, gets, commit_only, transaction, maybe_user, ret.
  destruct (users (db s) !! user_id) as [e|] eqn:Hu.
  - cbn. split; [|done]. split_and!; [done|done| |]; cbn.
    + intros u Hne. by rewrite lookup_alter_ne.
    + intros u. rewrite lookup_alter_eq, Hu. intros [= <-]. cbn. split; [intros Ha; by exists e|by intros ? [= <-]].
  - rewrite Hu, !bool_decide_eq_false_2 by (by intros []). cbn. split; [|done]. split_and!; [done|done| |]; cbn.
    + intros u Hne. by rewrite lookup_insert_ne.
    + intros u. rewrite lookup_insert_eq. intros [= <-]. split; [done|by rewrite Hu].
Qed.
End Frames.

(** ** A job found by its own id *)

Lemma like_self s k : (2 * String.length s + 2 <= k)%nat -> like_fuel k (s +:+ "%") s = true.
Proof.
  revert k. induction s as [|c s IH]; intros k Hk; cbn [String.length] in Hk.
  - destruct k as [|[|k]]; [lia|lia|done].
  - destruct k as [|[|k]]; [lia|lia|]. pose proof (IH k ltac:(lia)) as Hk0. pose proof (IH (S k) ltac:(lia)) as Hk1.
    change (String c s +:+ "%") with (String c (s +:+ "%")). set (k1 := S k) in *. cbn. destruct (Ascii.eqb_spec c "%") as [->|_].
    + apply orb_true_iff. right. subst k1. cbn. by rewrite Hk0.
    + by rewrite Ascii.eqb_refl, orb_true_r.
Qed.

Lemma find_job_again d p job job' : find_job d p = Ok job -> find_job d (j_job_id job) = Ok job' -> job' = job.
Proof.
  intros Hp%find_job_row Hj. destruct Hp as [i Hi]. unfold find_job in Hj. set (rows := py_sort _ _) in Hj.
  assert (Hin : job ∈ rows).
  { apply py_sort_elem, list_elem_of_In, List.filter_In. split.
    - apply list_elem_of_In, list_elem_of_fmap. exists (i, job). split; [done|]. by apply elem_of_map_to_list.
    - unfold like. apply like_self. rewrite str_length_app. cbn. lia. }
  destruct rows as [|x [|? ?]]; [done| |done]. injection Hj as ->. by apply list_elem_of_singleton in Hin.
Qed.

Section Submitting.
Context {W : Type} `{TimeZones} (br : Broker W).

Lemma within_submit w me d0 cmd g h b env org id :
  keeps (within (in_name me d0) w) (submit br me cmd g h b env org id).
Proof.
  unfold submit. do 4 (apply within_read; [done|]; intros ?). apply within_read.
  { destruct (truthy env); [|done]. apply reads_bind; [done|]. intros [x|]; [done|]. by apply reads_bind. }
  intros _. apply within_read.
  { unfold policy_check, balance, period_now. repeat case_match; try done; reads_walk. }
  intros [r|].
  - apply keeps_bind; [apply within_refusal|]. intros. apply keeps_ret.
  - apply keeps_bind; [apply within_create|]. intros. apply within_read; [done|]. intros. apply keeps_ret.
Qed.


Lemma cancel_only prefix job a adm (s : St W) :
  br_backends br = [] -> find_job (db s) prefix = Ok job ->
  only_job (j_job_id job) (db s) (db (fst (Broker.cancel br prefix a adm s))) /\
  world (fst (Broker.cancel br prefix a adm s)) = world s.
Proof.
  intros Hb Hf. unfold Broker.cancel. rewrite (query_step _ _ s job Hf). apply (within_after (only_job (j_job_id job) (db s))); [|by split].
  apply within_read; [done|]. intros allowed. destruct (negb allowed); [apply keeps_raise|].
  destruct (is_terminal job); [apply keeps_raise|]. apply within_read; [|intros []; apply within_transition].
  unfold terminate_job. rewrite Hb. by destruct (_ && _).
Qed.
End Submitting.

(** ** One request *)

Section Web.
Context {W : Type} `{TimeZones} (pow : pow_fun) (app : WebApp W).

Local Abbreviation web := (wa_web app).
Local Abbreviation web_viewer := (viewer (W := W) (wa_read_file app) web (wa_signer app)).
Local Abbreviation opened := (web_broker (wa_config app) (wa_aws app) (wa_checkpoints app)).
Local Abbreviation serves := (as_viewer (wa_config app) (wa_aws app) (wa_checkpoints app) (wa_read_file app) web (wa_signer app)).

(** The session is [me]'s, and [me] is still welcome. *)
Record admitted (s : St W) (rq : Request) (me : Identity) : Prop := {
  ad_session : read_session (wa_signer app) (clock s / us_per_second) (wc_session_max_age_seconds web) (rq_session rq) = Some me;
  ad_listed : recheck (wa_read_file app) web (id_login me) = Ok tt;
  ad_active : forall u, users (db s) !! id_login me = Some u -> is_suspended u = false
}.

Lemma non_empty_app a b : non_empty (a +:+ b) = non_empty a || non_empty b.
Proof. by destruct a. Qed.

Lemma revocation_eq login (s : St W) :
  revocation (wa_read_file app) web login s
  = (s, Ok (match recheck (wa_read_file app) web login with
            | Raise e => exn_str e | Ok _ => suspension login (users (db s) !! login) end)).
Proof. unfold revocation. by destruct (recheck _ _ _). Qed.

Lemma revocation_none login (s : St W) :
  revocation (wa_read_file app) web login s = (s, Ok "") <->
  recheck (wa_read_file app) web login = Ok tt /\ (forall u, users (db s) !! login = Some u -> is_suspended u = false).
Proof.
  rewrite revocation_eq. split.
  - intros [= E]. unfold recheck in *. destruct (non_empty _); [|destruct (is_allowed _ _ _)]; cbn [exn_str] in E.
    3: by destruct login.
    all: split; [done|]; intros u Hu; rewrite Hu in E; unfold suspension in E; destruct (is_suspended u); [|done];
      by destruct login.
  - intros [-> Hu]. f_equal. f_equal. unfold suspension. destruct (users (db s) !! login) as [u|] eqn:E; [|done].
    by rewrite (Hu u eq_refl).
Qed.

Lemma viewer_admits rq (s s' : St W) me : web_viewer rq s = (s', Ok me) -> s' = s /\ admitted s rq me.
Proof.
  unfold viewer, session_of. intros (s1 & who & (s2 & t & Ht & Hw)%bind_ok & Hv)%bind_ok.
  injection Ht as <- <-. injection Hw as <- <-.
  destruct (read_session _ _ _ _) as [i|] eqn:Hr; [|done].
  apply bind_ok in Hv as (s1 & why & Hrev & Hv). destruct (non_empty why) eqn:Hn; [done|]. injection Hv as <- <-.
  destruct why; [|done]. pose proof Hrev as E. rewrite revocation_eq in E. injection E as <- _.
  apply revocation_none in Hrev as [? ?]. split; [done|by constructor].
Qed.

(** A route of a member: nothing, or the handler on the member's behalf. *)
Lemma as_viewer_run rq k (s : St W) :
  fst (serves rq k s) = s \/ exists me, admitted s rq me /\ fst (serves rq k s) = fst (k (opened s) me s).
Proof.
  assert (E : serves rq k s = bind (web_viewer rq) (fun me => k (opened s) me) s) by reflexivity.
  rewrite E. unfold bind. pose proof (reads_viewer (W := W) (wa_read_file app) web (wa_signer app) rq s) as Hr.
  destruct (web_viewer rq s) as [s1 [me|e]] eqn:Hv; cbn in Hr; subst s1; [right|by left].
  apply viewer_admits in Hv as [_ Ha]. by exists me.
Qed.

Lemma as_viewer_reads rq k (s : St W) : (forall br me, reads (k br me)) -> fst (serves rq k s) = s.
Proof. intros Hk. destruct (as_viewer_run rq k s) as [E|(me & _ & ->)]; [done|apply Hk]. Qed.

(** What each request may do to the database [d], and to the world. *)
Definition authorised (s : St W) (rq : Request) (a : Action) (d : DB) : Prop :=
  match a with
  | GetCallback code state =>
      rq_state rq = Some state /\ state <> "" /\
      exists i, snd (identify (wa_read_file app) web (wa_provider app) code s) = Ok i /\
        users (db s) !! id_login i = None /\ only_user (id_login i) (db s) d
  | PostCancel job_id =>
      exists me job, admitted s rq me /\ find_job (db s) job_id = Ok job /\ is_terminal job = false /\
        (j_user_id job = id_login me \/ officer web me = true) /\ only_job (j_job_id job) (db s) d
  | PostSubmit _ _ => exists me, admitted s rq me /\ in_name (id_login me) (db s) d
  | PostBudget user_id _ _ => exists me, admitted s rq me /\ officer web me = true /\ only_user user_id (db s) d
  | _ => False
  end.

(** Unchanged, or changed as authorised; and the world as it was. *)
Definition done_right (s : St W) (rq : Request) (a : Action) (s' : St W) : Prop :=
  (db s' = db s \/ authorised s rq a (db s')) /\ world s' = world s.

Lemma done_same s rq a : done_right s rq a s.
Proof. split; [by left|done]. Qed.

Lemma cancel_done s rq me job_id :
  admitted s rq me -> done_right s rq (PostCancel job_id) (fst (post_cancel web (opened s) me job_id s)).
Proof.
  intros Ha. unfold post_cancel, bind at 1, found, try_catch, query.
  destruct (find_job (db s) job_id) as [job|e] eqn:Hf; [|destruct (is_broker_error e); apply done_same].
  destruct (negb _ && negb _) eqn:Hown; [apply done_same|]. destruct (is_terminal job) eqn:Ht; [apply done_same|].
  set (run := if bool_decide _ then _ else _).
  assert (Hw : only_job (j_job_id job) (db s) (db (fst (run s))) /\ world (fst (run s)) = world s).
  { subst run. case_bool_decide.
    - destruct (find_job (db s) (j_job_id job)) as [job'|e] eqn:Hj.
      + pose proof (find_job_again _ _ _ _ Hf Hj) as ->. by apply cancel_only.
      + unfold Broker.cancel, bind, query. rewrite Hj. by split; [split|].
    - apply (within_after (only_job (j_job_id job) (db s))); [apply within_request_cancel|by split]. }
  destruct Hw as [Hd Hw]. unfold bind. destruct (run s) as [s' [j|e]]; (split; [right|exact Hw]);
    exists me, job; (split_and!; try done); (apply andb_false_iff in Hown as [Hown|Hown]; apply negb_false_iff in Hown;
      [left; by apply String.eqb_eq in Hown|by right]).
Qed.

(** After a step that only reads the database, an answer that only reads. *)
Lemma then_reads {A} (m : M (St W) exn A) (k : A -> M (St W) exn Response) (s : St W) :
  (forall a, reads (k a)) -> fst (bind m k s) = fst (m s).
Proof. intros Hk. unfold bind. destruct (m s) as [s' [a|e]]; [apply Hk|done]. Qed.

Lemma attempt_state {A} (m : M (St W) exn A) c (s : St W) : fst (attempt m c s) = fst (m s).
Proof. unfold attempt, try_catch, bind, ret. destruct (m s) as [s' [a|e]]; [done|]. by destruct (c e). Qed.

Lemma catch_state {A} (m : M (St W) exn A) c (h : exn -> M (St W) exn A) (s : St W) :
  (forall e, reads (h e)) -> fst (try_catch m c h s) = fst (m s).
Proof. intros Hh. unfold try_catch. destruct (m s) as [s' [a|e]]; [done|]. destruct (c e); [apply Hh|done]. Qed.

Lemma submit_done s rq me f id :
  admitted s rq me -> done_right s rq (PostSubmit f id) (fst (post_submit web (wa_signer app) (opened s) rq me f id s)).
Proof.
  intros Ha. unfold post_submit. rewrite then_reads, attempt_state.
  2: { intros [e|r]; [apply reads_submit_page|]. destruct (sr_refusal r); [apply reads_submit_page|done]. }
  destruct (within_after (in_name (id_login me) (db s)) (submit_typed (opened s) me f id) s) as [Hd Hw].
  - unfold submit_typed. apply within_read; [done|]. intros. apply within_submit.
  - split; [done|]. by left.
  - split; [right|exact Hw]. by exists me.
Qed.

Lemma add_user_only (br : Broker W) u name b1 b2 (s : St W) :
  only_user u (db s) (db (fst (add_user br u None false name b1 b2 None s))) /\
  world (fst (add_user br u None false name b1 b2 None s)) = world s.
Proof. apply (upsert_only_user (br_config br)). Qed.

Lemma budget_done s rq me u x y :
  admitted s rq me -> done_right s rq (PostBudget u x y) (fst (post_budget web (opened s) me u x y s)).
Proof.
  intros Ha. unfold post_budget, officers_only. destruct (officer web me) eqn:Ho; [|apply done_same].
  rewrite then_reads by done. unfold or_400. rewrite catch_state by done.
  unfold bind, lift_outcome. destruct (typed_amount _ x) as [b1|e]; [|apply done_same].
  destruct (typed_amount y y) as [b2|e]; [|apply done_same].
  destruct (add_user_only (opened s) u None b1 b2 s) as [Hd Hw]. split; [right|exact Hw]. by exists me.
Qed.

(** Without a backend there is no host to drain. *)
Lemma drain_nothing me h r x (s : St W) : fst (post_drain web (opened s) me h r x s) = s.
Proof.
  unfold post_drain, officers_only. destruct (officer web me); [|done]. rewrite then_reads by done.
  unfold or_400. rewrite catch_state by done. by destruct (non_empty x).
Qed.

Local Abbreviation web_identify := (identify (wa_read_file app) web (wa_provider app)).

(** The state of the callback is the one of the cookie. *)
Definition started_here (rq : Request) (state : string) : bool :=
  non_empty (default "" (rq_state rq)) && String.eqb state (default "" (rq_state rq)).

(** The world after a request: as it was, but for the exchange with the provider. *)
Definition world_after (rq : Request) (a : Action) (s : St W) : W :=
  match a with
  | GetCallback code state => if started_here rq state then world (fst (web_identify code s)) else world s
  | _ => world s
  end.

Lemma identify_db code (s : St W) : db (fst (web_identify code s)) = db s.
Proof.
  unfold identify, bind, lift_outcome, ret. pose proof (call_db (fun _ => exchange (wa_provider app) code) s) as (Hd & _).
  destruct (call _ s) as [s' [r|e]]; [|exact Hd]. by destruct (check _ _ _ _).
Qed.

Lemma first_sign_in_only i (s : St W) :
  let s' := fst (first_sign_in (wa_config app) (wa_aws app) (wa_checkpoints app) i s) in
  (db s' = db s \/ users (db s) !! id_login i = None /\ only_user (id_login i) (db s) (db s')) /\ world s' = world s.
Proof.
  cbn zeta.
  assert (E : first_sign_in (wa_config app) (wa_aws app) (wa_checkpoints app) i s
    = (match users (db s) !! id_login i with
       | Some _ => ret tt
       | None => add_user (opened s) (id_login i) None false (Some (display i)) None None None;;; ret tt
       end) s) by reflexivity.
  rewrite E. destruct (users (db s) !! id_login i) as [u|] eqn:Hu; [by split; [left|]|].
  destruct (add_user_only (opened s) (id_login i) (Some (display i)) None None s) as [Hd Hw].
  unfold bind. destruct (add_user _ _ _ _ _ _ _ _ s) as [s' [u|e]]; cbn in *; (split; [right; by split|exact Hw]).
Qed.

Lemma callback_done rq code state (s : St W) :
  let s' := fst (get_callback (wa_config app) (wa_aws app) (wa_checkpoints app) (wa_read_file app) web (wa_signer app)
                   (wa_provider app) rq code state s) in
  (db s' = db s \/ authorised s rq (GetCallback code state) (db s')) /\ world s' = world_after rq (GetCallback code state) s.
Proof.
  cbn zeta. unfold get_callback, world_after, started_here. set (expected := default "" (rq_state rq)).
  destruct (non_empty expected) eqn:Hne; cbn [negb orb andb]; [|rewrite (reads_page _ _ _ _ _ s); by split; [left|]].
  destruct (String.eqb_spec state expected) as [->|Hs]; cbn [negb]; [|rewrite (reads_page _ _ _ _ _ s); by split; [left|]].
  pose proof (identify_db code s) as Hd. set (next := fun r : exn + Identity => _).
  assert (E : attempt (web_identify code) is_auth_error s
    = match web_identify code s with
      | (s1, Ok i) => (s1, Ok (inr i))
      | (s1, Raise e) => if is_auth_error e then (s1, Ok (inl e)) else (s1, Raise e)
      end).
  { unfold attempt, try_catch, bind, ret. by destruct (web_identify code s) as [? [?|?]]. }
  unfold bind. rewrite E. destruct (web_identify code s) as [s1 [i|e]] eqn:Hid; cbn [fst] in Hd |- *.
  - subst next. cbv beta iota. rewrite then_reads by done. destruct (first_sign_in_only i s1) as [Hc Hw].
    split; [|exact Hw]. rewrite Hd in Hc. destruct Hc as [->|[Hu Ho]]; [by left|right].
    split_and!.
    + subst expected. by destruct (rq_state rq).
    + by destruct expected.
    + exists i. rewrite Hid. by split_and!.
  - destruct (is_auth_error e); [subst next; cbv beta iota; rewrite (reads_page _ _ _ _ _ s1)|]; (split; [by left|done]).
Qed.

(** Every request: unchanged or as authorised, and the world. *)
Lemma visit_done rq a (s : St W) :
  let s' := fst (visit pow app rq a s) in
  (db s' = db s \/ authorised s rq a (db s')) /\ world s' = world_after rq a s.
Proof.
  cbn zeta. unfold visit, respond. rewrite catch_state by (intros e; apply reads_error_page).
  destruct a; cbn [handle];
    try (rewrite as_viewer_reads;
         [split; [by left|done]
         |intros; first [apply reads_dashboard|apply reads_jobs_page|apply reads_job_page|apply reads_submit_page
                        |apply reads_admin|apply reads_report]]);
    try (match goal with |- context [as_viewer _ _ _ _ _ _ ?q ?k s] =>
           destruct (as_viewer_run q k s) as [->|(me & Ha & ->)]; [split; [by left|done]|] end;
         try first [by apply cancel_done|by apply submit_done|by apply budget_done]);
    try (split; [by left|done]).
  - apply callback_done.
  - by rewrite drain_nothing; split; [left|].
  - rewrite then_reads by (intros; apply reads_metrics). split; [by left|done].
Qed.

(** C11: the database only changes through the web for somebody with the right to
    it: a first sign-in that began here and that the provider vouches for adds that
    member's own row; a cancellation is by the owner of the job or an officer and
    touches that job alone; a submission adds jobs of the member who is signed in;
    a budget is set by an officer, and makes nobody an officer and lifts no
    suspension.  All three need a live session of somebody still on the list and not
    suspended.  No other request changes anything: draining a host never does. *)
Theorem web_writes_authorised rq a (s : St W) :
  db (fst (visit pow app rq a s)) <> db s -> authorised s rq a (db (fst (visit pow app rq a s))).
Proof. intros Hne. by destruct (visit_done rq a s) as [[E|Ha] _]. Qed.

(** No request to the web app reaches a machine, whatever it asks and whatever
    is in the database: the world is as it was, but for the exchange with the
    identity provider, and that only for a callback whose state is the cookie's. *)
Theorem web_touches_no_machine rq a (s : St W) :
  world (fst (visit pow app rq a s)) = world_after rq a s.
Proof. apply visit_done. Qed.

(** ** Somebody who was put out *)

(** The list no longer has [login], or an officer suspended them. *)
Definition put_out (s : St W) (login : string) : Prop :=
  (exists e, recheck (wa_read_file app) web login = Raise e) \/
  (exists u, users (db s) !! login = Some u /\ is_suspended u = true).

Definition member_route (a : Action) : bool :=
  match a with
  | GetLogin _ | GetCallback _ _ | GetLogout | GetHealth | GetMetrics => false
  | _ => true
  end.

Lemma put_out_reason s login : put_out s login ->
  exists why, non_empty why = true /\ revocation (wa_read_file app) web login s = (s, Ok why).
Proof.
  intros Hp. rewrite revocation_eq. eexists. split; [|done].
  destruct Hp as [[e He]|(u & Hu & Hs)].
  - rewrite He. unfold recheck in He. destruct (non_empty _); [done|]. destruct (is_allowed _ _ _); [done|].
    injection He as <-. cbn [exn_str]. by destruct login.
  - destruct (recheck (wa_read_file app) web login) as [[]|e] eqn:He.
    + unfold suspension. rewrite Hu, Hs. by destruct login.
    + unfold recheck in He. destruct (non_empty _); [done|]. destruct (is_allowed _ _ _); [done|].
      injection He as <-. cbn [exn_str]. by destruct login.
Qed.

(** C12: somebody who was taken off the list or suspended is out at the very next
    request, whatever the age of their session: every page of a member answers 403
    and changes nothing, and the next turn of a log they are watching says they were
    revoked, shows no line, and is the last. *)
Theorem web_revoked_shut_out rq a me (s : St W) :
  snd (session_of web (wa_signer app) rq s) = Ok (Some me) -> put_out s (id_login me) -> member_route a = true ->
  exists why,
    visit pow app rq a s
    = (s, Ok (mkResponse 403 None [] [] (Html (Some me) (officer web me) (ErrorHtml 403 why)))) /\
    forall job_id after quiet,
      stream_round (wa_config app) (wa_aws app) (wa_checkpoints app) (wa_read_file app) web (id_login me) job_id after quiet s
      = (s, Ok ([FrameRevoked why], None)).
Proof.
  intros Hme Hp Hr. destruct (put_out_reason s _ Hp) as (why & Hn & Hrev). exists why. split.
  - assert (Hse : session_of web (wa_signer app) rq s = (s, Ok (Some me))) by (by injection Hme as Hme; unfold session_of, bind, now, gets, ret; rewrite Hme).
    assert (Hv : forall k, serves rq k s = (s, Raise (HTTPException 403 why))).
    { intros k. transitivity (bind (web_viewer rq) (fun me => k (opened s) me) s); [done|].
      unfold bind at 1, viewer. unfold bind at 1. rewrite Hse. unfold bind. by rewrite Hrev, Hn. }
    unfold visit, respond, try_catch.
    assert (He : error_page web (wa_signer app) rq a (HTTPException 403 why) s
      = page web (wa_signer app) rq 403 (ErrorHtml 403 why) s) by (by destruct a).
    assert (Hh : handle pow (wa_config app) (wa_aws app) (wa_checkpoints app) (wa_environ app) (wa_read_file app) web
      (wa_signer app) (wa_provider app) rq a s = (s, Raise (HTTPException 403 why)))
      by (destruct a; try discriminate Hr; apply Hv).
    rewrite Hh. cbn [is_http_error]. rewrite He. unfold page, bind. by rewrite Hse.
  - intros job_id after quiet. unfold stream_round, stream_revocation.
    assert (E : (open_web (wa_config app) (wa_aws app) (wa_checkpoints app);;; revocation (wa_read_file app) web (id_login me)) s = (s, Ok why)) by exact Hrev.
    unfold bind at 1. rewrite E, Hn. done.
Qed.
End Web.
