(* ===== verification/WebStream.v ===== *)
(** * The live log, over its rounds

    Between two rounds of a stream other processes write.  [stream_run] is what a
    reader receives over the states the rounds find; [joblog] is what there is to
    receive. *)

From Stdlib Require Import Sorted.
From S2P Require Import Prelude PyFloat PyDecimal PyFormat PySort PyDict Errors Money Clock PyJson PyText Checkpoint States Models Config Tables Store StoreInv StoreSafe Fixture Admission FairShare Backend Hosts Placement Idle Metrics Pricing Forecast Report Scheduler Broker WebAuth WebApp BrokerSafe WebSafe WebProps.
Local Open Scope Z_scope.
Local Open Scope py_scope.

(** ** The log of a job *)

(** The rows of a job with their ids, oldest first. *)
Definition joblog (d : DB) (job_id : string) : list (Z * LogRow) :=
  List.filter (fun r : Z * LogRow => String.eqb (lg_job_id (snd r)) job_id)
    (imap (fun i r => (Z.of_nat i + 1, r)) (job_logs d)).

Definition id_lt (a b : Z * LogRow) : Prop := fst a < fst b.

Lemma joblog_extends d d' id : extends d d' -> joblog d id `prefix_of` joblog d' id.
Proof.
  intros Hx. destruct (ex_logs _ _ Hx) as [rows E]. unfold joblog. rewrite E, imap_app, List.filter_app. by apply prefix_app_r.
Qed.

Lemma imap_ids_sorted (rows : list LogRow) n :
  StronglySorted id_lt (imap (fun i r => (Z.of_nat (n + i) + 1, r)) rows) /\
  Forall (fun r => Z.of_nat n < fst r) (imap (fun i r => (Z.of_nat (n + i) + 1, r)) rows).
Proof.
  revert n. induction rows as [|r rows IH]; intros n; [split; constructor|].
  rewrite imap_cons, Nat.add_0_r. destruct (IH (S n)) as [Hs Hb].
  assert (E : imap ((fun i r0 => (Z.of_nat (n + i) + 1, r0)) ∘ S) rows = imap (fun i r0 => (Z.of_nat (S n + i) + 1, r0)) rows).
  { apply imap_ext. intros i x _. cbn. f_equal. lia. }
  rewrite E. split; constructor; try done.
  - eapply Forall_impl; [exact Hb|]. intros x Hx. unfold id_lt. cbn [fst] in *. lia.
  - cbn. lia.
  - eapply Forall_impl; [exact Hb|]. intros x Hx. cbn beta in *. lia.
Qed.

Lemma sorted_filter {A} (R : A -> A -> Prop) p l : StronglySorted R l -> StronglySorted R (List.filter p l).
Proof.
  induction 1 as [|x l Hs IH Hx]; cbn; [constructor|]. destruct (p x); [|done]. constructor; [done|].
  rewrite List.Forall_forall in Hx |- *. intros y [Hy _]%filter_In. by apply Hx.
Qed.

Lemma sorted_app {A} (R : A -> A -> Prop) l k : StronglySorted R (l ++ k) ->
  (forall x y, x ∈ l -> y ∈ k -> R x y) /\ StronglySorted R l /\ StronglySorted R k.
Proof.
  induction l as [|a l IH]; cbn; [intros Hs; split_and!; [by intros x y ?%elem_of_nil|constructor|done]|].
  intros [Hs Ha]%StronglySorted_inv. destruct (IH Hs) as (Hlk & Hl & Hk). rewrite Forall_forall in Ha.
  split_and!; [|constructor; [done|]|done].
  - intros x y [->|Hx]%elem_of_cons Hy; [|by apply Hlk]. apply Ha, elem_of_app. by right.
  - apply Forall_forall. intros x Hx. apply Ha, elem_of_app. by left.
Qed.

Lemma filter_nothing {A} (p : A -> bool) l : (forall x, x ∈ l -> p x = false) -> List.filter p l = [].
Proof. induction l as [|a l IH]; intros Hp; [done|]. cbn. rewrite (Hp a), IH by set_solver. done. Qed.

Lemma joblog_sorted d id : StronglySorted id_lt (joblog d id) /\ Forall (fun r => 0 < fst r) (joblog d id).
Proof.
  destruct (imap_ids_sorted (job_logs d) 0) as [Hs Hb]. split; [by apply sorted_filter|].
  rewrite Forall_forall in Hb |- *. intros x Hx%list_elem_of_In. apply filter_In in Hx as [Hx _].
  apply (Hb x), list_elem_of_In, Hx.
Qed.

(** ** The cursor *)

(** The id of the last of the first [n] rows; zero before the first. *)
Definition cursor (l : list (Z * LogRow)) (n : nat) : Z := match last (firstn n l) with Some r => fst r | None => 0 end.

Lemma newest_line l x a : StronglySorted id_lt l -> x ∈ l -> last l = Some a -> fst x <= fst a.
Proof.
  induction l as [|b l IH] using rev_ind; [by intros _ ?%elem_of_nil|]. rewrite last_snoc.
  intros (Hb & _)%sorted_app [Hx|Hx]%elem_of_app [= <-].
  - specialize (Hb x b Hx ltac:(left)). unfold id_lt in Hb. lia.
  - apply list_elem_of_singleton in Hx as ->. lia.
Qed.

Lemma after_cursor l n : StronglySorted id_lt l -> Forall (fun r => 0 < fst r) l ->
  List.filter (fun r => cursor l n <? fst r) l = skipn n l.
Proof.
  intros Hs Hp. rewrite <- (firstn_skipn n l) in Hs. apply sorted_app in Hs as (Hlk & Hl & _).
  transitivity (List.filter (fun r => cursor l n <? fst r) (firstn n l ++ skipn n l)); [by rewrite firstn_skipn|].
  rewrite List.filter_app, filter_nothing, filter_all; [done| |]; intros x Hx; unfold cursor.
  - destruct (last (firstn n l)) as [a|] eqn:Ha; apply Z.ltb_lt.
    + apply (Hlk a x); [by apply last_Some_elem_of|done].
    + rewrite Forall_forall in Hp. apply Hp. rewrite <- (firstn_skipn n l). apply elem_of_app. by right.
  - apply Z.ltb_ge. destruct (last (firstn n l)) as [a|] eqn:Ha; [by eapply newest_line|].
    apply last_None in Ha. rewrite Ha in Hx. by apply elem_of_nil in Hx.
Qed.

Lemma read_at_cursor d id n limit : read_logs d id (cursor (joblog d id) n) limit = firstn limit (skipn n (joblog d id)).
Proof.
  destruct (joblog_sorted d id) as [Hs Hp]. rewrite <- (after_cursor _ n Hs Hp). unfold read_logs. f_equal.
  generalize (cursor (joblog d id) n) as c. intros c. unfold joblog.
  induction (imap _ (job_logs d)) as [|r l IH]; [done|]. cbn [List.filter].
  destruct (String.eqb (lg_job_id (snd r)) id); cbn [andb List.filter]; [|done].
  destruct (c <? fst r); by rewrite IH.
Qed.

(** The cursor depends on the rows before it only. *)
Lemma cursor_prefix l k n : l `prefix_of` k -> (n <= length l)%nat -> cursor k n = cursor l n.
Proof. intros [m ->] Hn. unfold cursor. by rewrite take_app_le. Qed.

Lemma firstn_mono_len {A} (l : list A) n m : (n `min` length l <= m)%nat -> firstn n l `prefix_of` firstn m l.
Proof.
  intros Hm. exists (skipn n (firstn m l)). rewrite <- (firstn_skipn n (firstn m l)) at 1. f_equal.
  rewrite firstn_firstn. destruct (Nat.le_ge_cases n m); [by rewrite Nat.min_l|].
  rewrite Nat.min_r by done. destruct (decide (n = m)) as [->|]; [done|]. by rewrite !firstn_all2 by lia.
Qed.

Lemma prefix_firstn {A} (l k : list A) n : l `prefix_of` k -> firstn n l `prefix_of` firstn n k.
Proof. intros [m ->]. rewrite firstn_app. by apply prefix_app_r. Qed.

(** The cursor after a round. *)
Lemma cursor_moves l n rows : (n <= length l)%nat -> rows `prefix_of` skipn n l ->
  fold_left (fun _ r => fst r) rows (cursor l n) = cursor l (n + length rows).
Proof.
  intros Hn [rest E]. assert (El : firstn (n + length rows) l = firstn n l ++ rows).
  { rewrite <- (firstn_skipn n l) at 1. rewrite E. rewrite firstn_app, length_firstn.
    rewrite firstn_all2 by (rewrite length_firstn; lia). f_equal.
    replace (n + length rows - n `min` length l)%nat with (length rows) by lia. by rewrite take_app_length. }
  unfold cursor at 2. rewrite El. destruct rows as [|r rows _] using rev_ind; [by rewrite app_nil_r|].
  by rewrite fold_left_app, app_assoc, last_snoc.
Qed.

(** ** The rounds *)

(** The log lines among the frames. *)
Definition shown (frames : list Frame) : list (Z * LogRow) :=
  omap (fun f => match f with FrameLine id row => Some (id, row) | _ => None end) frames.

Section Stream.
Context {W : Type} `{TimeZones} (app : WebApp W) (login prefix job_id : string).

Local Abbreviation round := (stream_round (W := W) (wa_config app) (wa_aws app) (wa_checkpoints app) (wa_read_file app) (wa_web app) login prefix).

(** What [events] yields over the states its rounds find. *)
Fixpoint stream_run (rounds : list (St W)) (after quiet : Z) : list Frame :=
  match rounds with
  | [] => []
  | s :: rounds =>
      match snd (round after quiet s) with
      | Ok (frames, Some (after, quiet)) => frames ++ stream_run rounds after quiet
      | Ok (frames, None) => frames
      | Raise _ => []
      end
  end.

(** The reader is still welcome, and the job has not ended. *)
Definition watching (s : St W) : Prop :=
  ~ put_out app s login /\ exists job, find_job (db s) prefix = Ok job /\ is_terminal job = false.

Lemma shown_app a b : shown (a ++ b) = shown a ++ shown b.
Proof. apply omap_app. Qed.

Lemma shown_lines rows : shown (map (fun l : Z * LogRow => FrameLine (fst l) (snd l)) rows) = rows.
Proof. induction rows as [|[i r] rows IH]; [done|]. cbn. f_equal. exact IH. Qed.

Lemma welcome_revocation s : ~ put_out app s login -> revocation (wa_read_file app) (wa_web app) login s = (s, Ok "").
Proof.
  intros Hp. apply revocation_none. unfold put_out in Hp. split.
  - destruct (recheck _ _ _) as [[]|e] eqn:He; [done|]. exfalso. apply Hp. left. by exists e.
  - intros u Hu. apply not_true_is_false. intros Hs. apply Hp. right. by exists u.
Qed.

(** One round from the row [n] on. *)
Lemma round_shows s n quiet :
  (forall job, find_job (db s) prefix = Ok job -> j_job_id job = job_id) ->
  (n <= length (joblog (db s) job_id))%nat ->
  exists frames next rows,
    snd (round (cursor (joblog (db s) job_id) n) quiet s) = Ok (frames, next) /\ shown frames = rows /\
    rows `prefix_of` skipn n (joblog (db s) job_id) /\
    (forall after quiet', next = Some (after, quiet') -> after = cursor (joblog (db s) job_id) (n + length rows)) /\
    (watching s -> is_Some next /\ rows = firstn POLL_LIMIT (skipn n (joblog (db s) job_id))).
Proof.
  intros Hid Hn. set (after := cursor _ n). unfold stream_round.
  assert (Er : stream_revocation (wa_config app) (wa_aws app) (wa_checkpoints app) (wa_read_file app) (wa_web app) login s
    = revocation (wa_read_file app) (wa_web app) login s) by reflexivity.
  destruct (revocation (wa_read_file app) (wa_web app) login s) as [s1 o] eqn:Hrev.
  pose proof (reads_revocation (W := W) (wa_read_file app) (wa_web app) login s) as Hs1. rewrite Hrev in Hs1. cbn in Hs1. subst s1.
  assert (Ho : exists why, o = Ok why) by (rewrite revocation_eq in Hrev; injection Hrev as <-; by eexists). destruct Ho as [why ->].
  unfold bind at 1. rewrite Er. destruct (non_empty why) eqn:Hw.
  { exists [FrameRevoked why], None, []. split_and!; try done; [apply prefix_nil|]. intros [Hp _].
    apply welcome_revocation in Hp. rewrite Hrev in Hp. injection Hp as ->. done. }
  assert (Ep : poll_logs (wa_config app) (wa_aws app) (wa_checkpoints app) prefix after s
    = (s, Ok match find_job (db s) prefix with
             | Raise _ => ([], "gone")
             | Ok job => (read_logs (db s) (j_job_id job) after POLL_LIMIT, if is_terminal job then state_str (j_state job) else "")
             end)).
  { unfold poll_logs, bind at 1. rewrite open_web_eq. unfold bind at 1, attempt, try_catch, bind, query.
    destruct (find_job (db s) prefix) as [job|e] eqn:Hf; [done|].
    assert (He : is_broker_error e = true); [|by rewrite He].
    unfold find_job in Hf. by destruct (py_sort _ _) as [|x [|y l]]; try done; injection Hf as <-. }
  unfold bind. rewrite Ep. destruct (find_job (db s) prefix) as [job|e] eqn:Hf; cbn [fst snd].
  2: { exists [FrameDone "gone"], None, []. split_and!; try done; [apply prefix_nil|]. intros (_ & job & ? & _). congruence. }
  rewrite (Hid _ eq_refl). subst after. rewrite read_at_cursor. set (rows := firstn POLL_LIMIT _).
  assert (Hrows : rows `prefix_of` skipn n (joblog (db s) job_id)) by (exists (skipn POLL_LIMIT (skipn n (joblog (db s) job_id))); symmetry; apply firstn_skipn).
  destruct (is_terminal job) eqn:Ht.
  - assert (Hne : non_empty (state_str (j_state job)) = true) by (by destruct (j_state job)). rewrite Hne.
    eexists _, None, rows. split_and!; [done| |done|done|].
    + rewrite shown_app, shown_lines. apply app_nil_r.
    + intros (_ & job' & Hj & ?). congruence.
  - eexists _, (Some (_, _)), rows. split_and!; [reflexivity| |done| |by split; [eexists|]].
    + rewrite shown_app, shown_lines. destruct (negb _ && _); apply app_nil_r.
    + intros a q [= <- _]. by apply cursor_moves.
Qed.

Lemma watching_found s : watching s -> exists job, find_job (db s) prefix = Ok job.
Proof. intros [_ (job & Hj & _)]. by exists job. Qed.

(** From the row [n] on, over rounds that go forward from [d] and stay before [e]. *)
Lemma rounds_show rounds d e n quiet :
  StronglySorted extends (d :: map db rounds) -> Forall (fun s => extends (db s) e) rounds -> extends d e ->
  Forall (fun s => forall job, find_job (db s) prefix = Ok job -> j_job_id job = job_id) rounds ->
  (n <= length (joblog d job_id))%nat ->
  let out := firstn n (joblog d job_id) ++ shown (stream_run rounds (cursor (joblog d job_id) n) quiet) in
  out `prefix_of` joblog e job_id /\
  (Forall watching rounds -> firstn (n + POLL_LIMIT * length rounds) (joblog d job_id) `prefix_of` out).
Proof.
  revert d n quiet. induction rounds as [|s rounds IH]; intros d n quiet Hc He Hde Hid Hn out.
  { subst out. cbn [stream_run shown omap list_omap]. rewrite app_nil_r. split.
    - etransitivity; [|by apply joblog_extends]. exists (skipn n (joblog d job_id)). symmetry. apply firstn_skipn.
    - intros _. cbn [length]. by rewrite Nat.mul_0_r, Nat.add_0_r. }
  cbn [map] in Hc. apply StronglySorted_inv in Hc as [Hc Hd]. apply Forall_cons in Hd as [Hd _].
  apply Forall_cons in He as [Hse He], Hid as [Hids Hid]. pose proof (joblog_extends _ _ job_id Hd) as Hp.
  set (l := joblog (db s) job_id) in *. assert (Hn' : (n <= length l)%nat) by (pose proof (prefix_length _ _ Hp); lia).
  destruct (round_shows s n quiet Hids Hn') as (frames & next & rows & Hr & Hrows & Hpre & Hnext & Hw).
  fold l in Hr, Hpre, Hnext, Hw. pose proof (cursor_prefix _ _ n Hp Hn) as Ecur.
  assert (Efirst : firstn n (joblog d job_id) = firstn n l).
  { destruct Hp as [m E]. rewrite E. by rewrite take_app_le. }
  assert (Estep : firstn n l ++ rows = firstn (n + length rows) l).
  { destruct Hpre as [rest E]. rewrite <- (firstn_skipn n l) at 2. rewrite E, firstn_app, length_firstn.
    rewrite (firstn_all2 (n := n + length rows)) by (rewrite length_firstn; lia). f_equal.
    replace (n + length rows - n `min` length l)%nat with (length rows) by lia. by rewrite take_app_length. }
  assert (Hlen : (n + length rows <= length l)%nat).
  { pose proof (prefix_length _ _ Hpre) as Hx. rewrite length_skipn in Hx. lia. }
  subst out. rewrite Efirst, <- Ecur. cbn [stream_run]. rewrite Hr.
  destruct next as [[after quiet']|].
  - rewrite (Hnext _ _ eq_refl), shown_app, Hrows, app_assoc, Estep.
    destruct (IH (db s) (n + length rows)%nat quiet' Hc He Hse Hid Hlen) as [H1 H2]. split; [done|].
    intros [Hws Hwr]%Forall_cons. specialize (H2 Hwr). destruct (Hw Hws) as [_ Erows].
    etransitivity; [|exact H2]. fold l. set (k := (POLL_LIMIT * length rounds)%nat).
    etransitivity; [apply (prefix_firstn _ _ _ Hp)|]. cbn [length].
    apply firstn_mono_len. rewrite Erows, length_firstn, length_skipn. subst k. unfold POLL_LIMIT in *. lia.
  - rewrite Hrows, Estep. split.
    + etransitivity; [|by apply (joblog_extends _ _ job_id Hse)]. exists (skipn (n + length rows) l). symmetry. apply firstn_skipn.
    + intros [Hws _]%Forall_cons. by destruct (Hw Hws) as [[? ?] _].
Qed.

(** C14: a reader of a job's log receives its lines once each, in order and without
    a gap, however the database grows between the polls: what was shown is always a
    beginning of the log.  And a reader who stays welcome catches up: after [k] polls
    of a job that has not ended, everything written before the first of them is
    shown, up to two hundred lines a poll. *)
Theorem stream_delivers rounds d e :
  StronglySorted extends (d :: map db rounds) -> Forall (fun s => extends (db s) e) rounds -> extends d e ->
  Forall (fun s => forall job, find_job (db s) prefix = Ok job -> j_job_id job = job_id) rounds ->
  let out := shown (stream_run rounds 0 0) in
  out `prefix_of` joblog e job_id /\
  (Forall watching rounds -> firstn (POLL_LIMIT * length rounds) (joblog d job_id) `prefix_of` out).
Proof. intros Hc He Hde Hid out. exact (rounds_show rounds d e 0 0 Hc He Hde Hid (Nat.le_0_l _)). Qed.
End Stream.

(** * The web application on a small club: witnesses, and what it does not do *)

Local Open Scope Z_scope.
Local Open Scope py_scope.

(** A signature that is the text itself. *)
Definition plain_signer : Signer := mkSigner (fun _ v => dumps default_style v) (fun _ _ s => loads s).

(** Two members on the list; bob is an officer. *)
Definition club_web : WebConfig :=
  {| default_web with wc_allowlist := ["alice"; "bob"; "carol"]; wc_admins := ["bob"]; wc_dev_login := "alice" |}.

Definition club_app : WebApp unit :=
  mkWebApp default_config (mkAwsPrices ∅ "us-west-2") None (fun _ => None) (fun _ => None) club_web plain_signer (dev_provider "alice").

Definition signed_in (login : string) : Request :=
  mkRequest (Some (issue plain_signer 0 (mkIdentity login "" ""))) None "".

Definition no_pow : pow_fun := fun x _ => x.

Definition seen (a : Action) (login : string) (s : St unit) : option (Z * option string) :=
  match snd (visit no_pow club_app (signed_in login) a s) with
  | Ok r => Some (rs_status r, rs_location r)
  | Raise _ => None
  end.

(** The owner may cancel a job, an officer may, and another member may not. *)
Example cancel_pages :
  (seen (PostCancel "job-1") "alice" (with_job tt), seen (PostCancel "job-1") "bob" (with_job tt),
   seen (PostCancel "nope") "alice" (with_job tt), seen (PostCancel "job-1") "carol" (with_job tt))
  = (Some (303, Some "/jobs/job-1"), Some (303, Some "/jobs/job-1"), Some (404, None), Some (403, None)).
Proof. vm_compute. reflexivity. Qed.

(** Draining a host from the page never works, for an officer either: this process
    has no pool to drain. *)
Example drain_page :
  seen (PostDrain "lab-1" "fan" "") "bob" (with_job tt) = Some (400, None).
Proof. vm_compute. reflexivity. Qed.

Lemma web_writes_authorised_witness :
  let s' := fst (visit no_pow club_app (signed_in "alice") (PostCancel "job-1") (with_job tt)) in
  db s' <> db (with_job tt) /\ authorised club_app (with_job tt) (signed_in "alice") (PostCancel "job-1") (db s').
Proof.
  cbv zeta. assert (Hne : db (fst (visit no_pow club_app (signed_in "alice") (PostCancel "job-1") (with_job tt))) <> db (with_job tt)).
  { intros E. apply (f_equal (fun d => option_map j_state (jobs d !! "job-1"))) in E. vm_compute in E. discriminate E. }
  split; [exact Hne|]. exact (web_writes_authorised no_pow club_app (signed_in "alice") (PostCancel "job-1") (with_job tt) Hne).
Defined.

(** alice after an officer suspended her. *)
Definition suspended_alice : St unit := fst (suspend_user "alice" "mining" "bob" (with_job tt)).

Lemma web_revoked_shut_out_witness :
  exists why,
    visit no_pow club_app (signed_in "alice") GetDashboard suspended_alice
    = (suspended_alice, Ok (mkResponse 403 None [] [] (Html (Some (mkIdentity "alice" "" "")) false (ErrorHtml 403 why)))) /\
    forall job_id after quiet,
      stream_round default_config (mkAwsPrices ∅ "us-west-2") None (fun _ => None) club_web "alice" job_id after quiet suspended_alice
      = (suspended_alice, Ok ([FrameRevoked why], None)).
Proof.
  apply (web_revoked_shut_out no_pow club_app (signed_in "alice") GetDashboard (mkIdentity "alice" "" "") suspended_alice).
  - vm_compute. reflexivity.
  - right. eexists. split; vm_compute; reflexivity.
  - reflexivity.
Defined.

(** ** A log being written *)

Definition one_line : St unit := fst (append_log default_config "job-1" "stdout" "epoch 1" (with_job tt)).
Definition two_lines : St unit := fst (append_log default_config "job-1" "stdout" "epoch 2" one_line).

Lemma grows_append (s : St unit) line : sound s -> sound (fst (append_log default_config "job-1" "stdout" line s)) /\
  extends (db s) (db (fst (append_log default_config "job-1" "stdout" line s))).
Proof.
  intros Hs. pose proof (safe_append_log (W := unit) default_config [] "job-1" "stdout" line s Hs (List.Forall_nil _)) as Hx.
  destruct (append_log _ _ _ _ s) as [s' o]. cbn. destruct Hx as (? & [? ?] & _). by split.
Qed.

Lemma one_line_after : sound one_line /\ extends (db (with_job tt)) (db one_line).
Proof. apply grows_append, (sound_with_job tt). Qed.

Lemma two_lines_after : extends (db one_line) (db two_lines).
Proof. apply grows_append, one_line_after. Qed.

Lemma stream_delivers_witness :
  let rounds := [one_line; two_lines] in
  let out := shown (stream_run club_app "alice" "job" rounds 0 0) in
  out `prefix_of` joblog (db two_lines) "job-1" /\
  (Forall (watching club_app "alice" "job") rounds -> firstn (POLL_LIMIT * 2) (joblog (db one_line) "job-1") `prefix_of` out).
Proof.
  apply (stream_delivers club_app "alice" "job" "job-1" [one_line; two_lines] (db one_line) (db two_lines)).
  - assert (Ht : Forall (extends (db one_line)) [db two_lines]) by (constructor; [exact two_lines_after|constructor]).
    constructor; [constructor; [constructor; constructor|exact Ht]|]. constructor; [reflexivity|exact Ht].
  - constructor; [exact two_lines_after|]. by constructor.
  - exact two_lines_after.
  - constructor; [|constructor; [|constructor]]; intros job; vm_compute; by intros [= <-].
Defined.

Example stream_shows :
  map (fun r => lg_line (snd r)) (shown (stream_run club_app "alice" "job" [one_line; two_lines] 0 0)) = ["epoch 1"; "epoch 2"].
Proof. vm_compute. reflexivity. Qed.

(** ** The end of a long log *)

(** The job has ended, and its log is one line longer than a poll. *)
Definition ended_long : St unit :=
  let s := with_job tt in
  let d := update_job (db s) "job-1" (fun j => {| j with j_state := COMPLETED |}) in
  mkSt {| d with job_logs := repeat (mkLogRow "job-1" noon "stdout" "step") 201 |} noon [] tt.

(** The stream says [done] after the first poll of an ended job, with the last line
    unread. *)
Example stream_cuts_the_end :
  let frames := stream_run club_app "alice" "job-1" [ended_long; ended_long] 0 0 in
  (length (shown frames), length (joblog (db ended_long) "job-1"), last frames) = (200%nat, 201%nat, Some (FrameDone "COMPLETED")).
Proof. vm_compute. reflexivity. Qed.

(** The page of a job shows the last 400 of the first thousand lines: a longer log's
    end is not there. *)
Definition thousand_and_one : St unit :=
  let s := with_job tt in
  let d := db s in
  mkSt {| d with job_logs := repeat (mkLogRow "job-1" noon "stdout" "step") 1000 ++ [mkLogRow "job-1" noon "stderr" "Traceback"] |} noon [] tt.

Definition shown_on_page (r : outcome exn Response) : list string :=
  match r with
  | Ok {| rs_body := Html _ _ (JobHtml p) |} => map (fun l => lg_stream (snd l)) (jp_logs p)
  | _ => []
  end.

Example job_page_misses_the_end :
  let streams := shown_on_page (snd (visit no_pow club_app (signed_in "alice") (GetJob "job-1") thousand_and_one)) in
  (length streams, bool_decide ("stderr" ∈ streams)) = (400%nat, false).
Proof. vm_compute. reflexivity. Qed.

(** ** What [validate] and [load_web_config] let through *)

Example localhost_by_prefix :
  validate_web {| default_web with wc_dev_login := "alice"; wc_base_url := "http://localhost.evil.example" |} = Ok tt.
Proof. reflexivity. Qed.

Example allowlist_of_letters :
  match load_web_config (Some [("allowlist", JStr "alice")]) with
  | Ok (Some c) => wc_allowlist c = ["a"; "l"; "i"; "c"; "e"]
  | _ => False
  end.
Proof. vm_compute. reflexivity. Qed.
