(* ===== verification/Club.v ===== *)
(** * A concrete club to evaluate the theorems on

    One cloud backend that always has room and reports its machines as running,
    a member with a queued job, an officer, and the states the witnesses start
    from.  [World] is the number of machines launched so far. *)

From S2P Require Import Prelude PyFloat PyDecimal PyFormat PySort PyDict Errors Money Clock States Models Config Tables Store StoreInv StoreSafe Fixture StoreProps Admission FairShare Backend Placement Idle Metrics Pricing Forecast Reaper Checkpoint Scheduler SchedulerSafe Broker BrokerSafe System.
Local Open Scope Z_scope.
Local Open Scope py_scope.

Definition World : Type := nat.

(** A half-life of zero effect. *)
Definition flat_pow : pow_fun := fun _ _ => f1.

Definition answers {A} (a : A) : method World A := fun _ w => (w, Ok a).

(** A machine whose job the broker has never heard of, launched at 10:30. *)
Definition leaked : Resource :=
  mkResource "i-leaked" "t4" B_RUNNING
    (<["broker-job-id" := "ghost"]> (<["broker-launched-at" := "2026-01-15T10:30:00+00:00"]> ∅)).

Definition rig_with (resources : list Resource) : Backend World := {|
  b_name := "rig"; b_currency := USD; b_tier := Some "ondemand";
  b_supports := fun _ => answers true;
  b_free_slots := fun _ => answers 2;
  b_launch := fun j t w =>
    (S w, Ok (mkAllocation ("i-" +:+ str_of_Z (Z.of_nat w)) (j_gpu_type j) (tags_for j (to_iso t))));
  b_start := fun _ _ => answers tt;
  b_poll := fun _ => answers (mkObservation B_RUNNING None None);
  b_validate_launch := fun j => answers ("would launch a " +:+ j_gpu_type j);
  b_validate_terminate := fun handle => answers ("would stop " +:+ handle);
  b_fetch_logs := fun _ _ => answers [];
  b_terminate := fun _ _ => answers tt;
  b_list_resources := answers resources;
  b_sample_utilization := fun _ => answers [];
  b_local_ops := None
|}.

Definition rig : Backend World := rig_with [leaked].

#[export] Instance rig_looking : Looking rig.
Proof. by constructor. Qed.

#[export] Instance rig_answers : Answers rig.
Proof. constructor; intros; by eexists. Qed.

Lemma rig_lists : Forall2 lists_resources [rig] [[leaked]].
Proof. by repeat constructor. Qed.

Definition no_aws : AwsPrices := mkAwsPrices ∅ "us-west-2".

Definition club : Broker World :=
  mkBroker default_config (new_book default_config no_aws noon) [rig] None.

(** The value a computation returned. *)
Definition result {A} (r : St World * outcome exn A) (a : A) : A := ok_or (snd r) a.

(** ** Systems *)

Definition boot : System := mkSystem club (fresh 0%nat).
Definition joined : System :=
  serve flat_pow (AddUser alice None false None None None None) boot.
Definition booked : System :=
  serve flat_pow (Submit alice "python train.py" "t4" (f_of_Z 2) (Some (dec_of_Z 10)) None "real" "job-1")
    joined.

Lemma booked_steps : rtc (step flat_pow) boot booked.
Proof. eapply rtc_l; [apply step_serve|]. eapply rtc_l; [apply step_serve|]. constructor. Qed.

Lemma booked_reachable : reachable flat_pow booked.
Proof. exists boot. split; [done|apply booked_steps]. Qed.

Lemma booked_on_disk : db (sy_store booked) ∈ journal (sy_store booked).
Proof. destruct (so_newest _ (reachable_sound _ _ booked_reachable)) as [o ->]. left. Qed.

Lemma booked_job : jobs (db (sy_store booked)) !! "job-1" = Some job1.
Proof. vm_compute. reflexivity. Qed.

(** ** States of the store *)

Definition queued_state : St World := with_job 0%nat.

(** The job placed on the rig by a tick. *)
Definition placed_state : St World := fst (broker_tick flat_pow club queued_state).
Definition placed_job : Job :=
  match jobs (db placed_state) !! "job-1" with Some j => j | None => job1 end.

(** A minute later, after the tick that saw the machine running. *)
Definition running_state : St World :=
  fst (broker_tick flat_pow club
         (mkSt (db placed_state) (noon + us_per_minute) (journal placed_state) (world placed_state))).
Definition running_job : Job :=
  match jobs (db running_state) !! "job-1" with Some j => j | None => job1 end.

(** Twenty minutes after noon: a warning at noon, nothing but idle samples since. *)
Definition minutes (n : Z) : Z := n * us_per_minute.
Definition zero_samples : list Sample :=
  map (fun n => mkSample (noon + minutes n) f0 100 "rig") [15; 16; 17; 18; 19].
Definition idle_since_noon (s : St World) : St World :=
  let s0 := mkSt (db s) noon (journal s) (world s) in
  let s1 := fst (notify alice IDLE_NOTIFICATION "idle" (Some "job-1") s0) in
  let s2 := fst (record_samples "job-1" zero_samples s1) in
  mkSt (db s2) (noon + minutes 20) (journal s2) (world s2).

Definition idle_state : St World := idle_since_noon running_state.

(** The same of a job whose machine has not been seen running yet. *)
Definition idle_allocating_state : St World := idle_since_noon placed_state.

(** A pool with an officer, [root], and a member, [alice]. *)
Definition officer_state : St World :=
  fst (add_user club "root" None false None None None (Some true) (with_job 0%nat)).

(** What the states are. *)
Example placed_ex :
  j_state placed_job = ALLOCATING /\ j_backend_handle placed_job = Some "i-0" /\
  world placed_state = 1%nat.
Proof. vm_compute. by split_and!. Qed.

Example idle_ex :
  j_state running_job = RUNNING /\
  match evaluate default_config (db idle_state) (clock idle_state) running_job with
  | Ok v => reclaimable v (clock idle_state)
  | Raise _ => (false, "")
  end = (true, "idle, notified, and out of grace").
Proof. vm_compute. by split. Qed.

(** Every active job is a candidate, but only a running or checkpointing one may
    be reclaimed: on an idle job that is still ALLOCATING, [reclaim] has told its
    owner it was reclaimed, and terminated its machine, before it raises. *)
Lemma reclaim_allocating_raises :
  let r := reclaim club true idle_allocating_state in
  snd r = Raise (IllegalTransition "job-1" "ALLOCATING" "RECLAIMED") /\
  existsb (fun n => String.eqb (ntf_kind n) "reclaimed") (notifications (db (fst r))) = true.
Proof. vm_compute. by split. Qed.

(** * The theorems at concrete inputs

    One closed example per theorem with hypotheses, on the states of [Club.v]:
    the hypotheses hold there, and the theorem is applied. *)

From Stdlib Require Import Permutation Sorted.
From S2P Require Import Prelude PyFloat PyDecimal PyFormat PySort PyDict Errors Money Clock States Models Config Tables Store StoreInv StoreSafe Fixture StoreProps Admission FairShare Backend Placement Idle Metrics Pricing Forecast Reaper Checkpoint Scheduler SchedulerSafe SchedulerStates SchedulerProps Broker BrokerSafe System BrokerProps.
Local Open Scope Z_scope.
Local Open Scope py_scope.

(** ** The queue, placement, idleness, gauges *)

Lemma order_queue_total_witness :
  Permutation (map fst (order_queue flat_pow default_config [job1] (db queued_state) noon)) [job1].
Proof.
  refine (proj1 (order_queue_total flat_pow default_config [job1] [job1] (db queued_state) noon _ _ _)).
  - apply NoDup_singleton.
  - reflexivity.
  - intros j ->%list_elem_of_singleton. vm_compute. reflexivity.
Defined.

Lemma choose_first_fit_witness :
  exists p, choose default_config job1 [rig] queued_state = (queued_state, Ok p) /\
    option_map (fun tb => (fst tb, b_name (snd tb))) (placed_at p) = Some ("ondemand", "rig").
Proof.
  destruct (choose_first_fit default_config job1 (mkGpuType "t4" USD (mkDec 526 (-3)) "g4dn.xlarge, 16GB" 16384)
    [rig] queued_state) as (p & Hp & Hf).
  - reflexivity.
  - constructor; [apply rig_answers|constructor].
  - exists p. split; [exact Hp|]. rewrite Hf. vm_compute. reflexivity.
Defined.

Definition idle_verdict : IdleVerdict :=
  ok_or (evaluate default_config (db idle_state) (clock idle_state) running_job)
    (mkIdleVerdict running_job false "" [] None f0 None None 0 USD).

Lemma reclaimable_justified_witness :
  exists n, n ∈ notifications (db idle_state) /\ ntf_kind n = IDLE_NOTIFICATION /\
    ntf_at n + timedelta_minutes (f_of_Z 15) <= noon + minutes 20.
Proof.
  destruct (reclaimable_justified default_config (db idle_state) (noon + minutes 20) running_job idle_verdict
    "idle, notified, and out of grace") as [(n & Hn & _ & Hk & Hle) _].
  - vm_compute. reflexivity.
  - vm_compute. reflexivity.
  - reflexivity.
  - vm_compute. reflexivity.
  - exists n. split; [exact Hn|]. split; [exact Hk|exact Hle].
Defined.

Lemma bucketed_gaps_witness :
  bucketed (db placed_state) QUEUE_DEPTH noon (noon + minutes 10) 2 !! 1%nat = Some None.
Proof.
  refine (proj2 (proj2 (bucketed_gaps (db placed_state) QUEUE_DEPTH noon (noon + minutes 10) 2 _ _) 1 _) _).
  - vm_compute. reflexivity.
  - discriminate.
  - split; [discriminate|reflexivity].
  - assert (E : Forall (fun p => bucket_index noon (total_seconds (noon + minutes 10 - noon)) 2 p <> 1)
                  (series (db placed_state) QUEUE_DEPTH (Some noon) None)).
    { match goal with |- Forall _ ?l => let v := eval vm_compute in l in
        replace l with v by (vm_compute; reflexivity) end.
      repeat constructor; vm_compute; discriminate. }
    intros p Hp. exact (proj1 (Forall_forall _ _) E p Hp).
Defined.

(** ** The scheduler *)

Definition dry_run : St World * outcome exn (list Decision * list (string * string) * list (string * string)) :=
  decisions flat_pow default_config [rig] noon plan_one ([], [], []) queued_state.

Lemma decisions_policy_witness :
  exists tr : list (Scheduler.step (W := World)), map st_job tr = [job1] /\
    policy default_config (headroom_at default_config queued_state) (suspended_users (db queued_state))
      (running_count (db queued_state)) tr.
Proof.
  destruct (decisions_policy flat_pow default_config [rig] noon plan_one ([], [], []) queued_state
    (fst dry_run) (result dry_run ([], [], []))) as (tr & _ & Hm & Hp).
  - apply sound_with_job.
  - vm_compute. reflexivity.
  - exists tr. split; [|exact Hp]. rewrite Hm. vm_compute. reflexivity.
Defined.

Lemma plan_changes_nothing_witness : fst (plan flat_pow default_config [rig] queued_state) = queued_state.
Proof.
  apply (plan_changes_nothing flat_pow default_config [rig] queued_state).
  constructor; [apply rig_looking|constructor].
Defined.

Lemma reconcile_exact_witness :
  exists drifts, reconcile [rig] placed_state = (placed_state, Ok drifts) /\
    orphan_drift (db placed_state) rig leaked "ghost" ∈ drifts.
Proof.
  destruct (reconcile_exact [rig] placed_state [[leaked]] rig_lists) as (drifts & Hrun & Hall).
  exists drifts. split; [exact Hrun|]. apply Hall. right. left. exists rig, leaked, "ghost".
  split; [exists 0%nat, [leaked]; split; [reflexivity|split; [reflexivity|left]]|].
  split; [reflexivity|]. split; [|reflexivity].
  assert (E : Forall (fun j => drift_key j <> Some (Some "rig", "i-leaked")) (active_jobs (db placed_state))).
  { replace (active_jobs (db placed_state)) with [placed_job] by (vm_compute; reflexivity).
    constructor; [|constructor]. vm_compute. discriminate. }
  intros j Hj. exact (proj1 (Forall_forall _ _) E j Hj).
Defined.

Definition stopping_job : Job := {| placed_job with j_cancel_requested := Some "root" |}.

Lemma advance_state_witness :
  state_of (db (fst (advance_job default_config [rig] None stopping_job noon placed_state))) "job-1"
  = Some CANCELLED /\
  exists ob j1 s4 ceiling started,
    looked default_config placed_job rig "i-0" noon placed_state ob j1 s4 /\
    (ob_status ob = PENDING \/ ob_status ob = B_RUNNING -> at_ceiling default_config placed_job noon = Ok ceiling) /\
    (ob_status ob = READY -> started = is_ok (snd (call (b_start rig "i-0" j1) s4))) /\
    state_of (db (fst (advance_job default_config [rig] None placed_job noon placed_state))) "job-1"
    = next_state (state_of (db placed_state) "job-1") ceiling started placed_job (ob_status ob).
Proof.
  split.
  - refine (proj1 (advance_state default_config [rig] None stopping_job rig "i-0" noon placed_state _
      (result (advance_job default_config [rig] None stopping_job noon placed_state) no_outcome) _ _ _) _).
    + change (default "" (j_backend stopping_job)) with (default "" (j_backend placed_job)).
      replace (j_backend placed_job) with (Some "rig") by (vm_compute; reflexivity). reflexivity.
    + vm_compute. reflexivity.
    + vm_compute. reflexivity.
    + reflexivity.
  - refine (proj2 (advance_state default_config [rig] None placed_job rig "i-0" noon placed_state _
      (result (advance_job default_config [rig] None placed_job noon placed_state) no_outcome) _ _ _) _).
    + replace (j_backend placed_job) with (Some "rig") by (vm_compute; reflexivity). reflexivity.
    + vm_compute. reflexivity.
    + vm_compute. reflexivity.
    + vm_compute. reflexivity.
Defined.

(** ** The system *)

Lemma money_conserved_witness :
  job_holding (db (sy_store booked)) "job-1" USD + ksum SETTLE "job-1" USD (ledger (db (sy_store booked)))
  = 1000.
Proof.
  pose proof (money_conserved flat_pow booked (db (sy_store booked)) "job-1" job1
    booked_reachable booked_on_disk booked_job) as (_ & _ & _ & Hlive & _).
  exact (Hlive eq_refl).
Defined.

Lemma history_legal_witness :
  exists r rows, history (db (sy_store booked)) "job-1" = r :: rows /\
    walk (Some (jt_to_state r)) rows = Some (Some QUEUED).
Proof.
  destruct (history_legal flat_pow booked (db (sy_store booked)) "job-1" job1
    booked_reachable booked_on_disk booked_job) as (r & rows & Hh & _ & _ & Hw).
  exists r, rows. split; [exact Hh|exact Hw].
Defined.

Definition stopped : System := serve flat_pow (Cancel "job-1" (Some alice) false) booked.

Lemma lifecycle_forward_witness :
  exists j', jobs (db (sy_store stopped)) !! "job-1" = Some j' /\ path QUEUED (j_state j').
Proof.
  destruct (lifecycle_forward flat_pow booked stopped (db (sy_store booked)) "job-1" job1
    booked_reachable (rtc_once _ _ (step_serve _ _ _)) booked_on_disk booked_job) as (j' & Hj & _ & Hp & _).
  exists j'. split; [exact Hj|exact Hp].
Defined.

(** ** Submission *)

Definition submit_to (s : St World) (gpu_type : string) (budget : Decimal) (id : string)
  : St World * outcome exn SubmitResult :=
  submit club alice "python train.py" gpu_type (f_of_Z 2) (Some budget) None "real" id s.

Definition no_submission : SubmitResult := mkSubmitResult job1 None None.

Lemma submit_raises_clean_witness :
  fst (submit_to queued_state "h100" (dec_of_Z 10) "job-2") = queued_state.
Proof.
  apply (submit_raises_clean club alice "python train.py" "h100" (f_of_Z 2) (Some (dec_of_Z 10)) None "real"
    "job-2" queued_state _ (UnknownGpuType "h100" ["t4"; "a10g"; "l4"; "a100"; "a6000"])).
  vm_compute. reflexivity.
Defined.

Lemma submit_admits_witness :
  committed_by club alice USD (fst (submit_to queued_state "t4" (dec_of_Z 10) "job-2")) = 2000.
Proof.
  destruct (submit_admits club alice "python train.py" "t4" (f_of_Z 2) (Some (dec_of_Z 10)) None "real"
    "job-2" queued_state (fst (submit_to queued_state "t4" (dec_of_Z 10) "job-2"))
    (result (submit_to queued_state "t4" (dec_of_Z 10) "job-2") no_submission))
    as (gt & user & r & _ & _ & _ & _ & _ & _ & _ & _ & _ & _ & _ & _ & Hc).
  - vm_compute. reflexivity.
  - vm_compute. reflexivity.
  - clear Hc. vm_compute. reflexivity.
Defined.

Lemma submit_refuses_witness :
  ledger (db (fst (submit_to queued_state "t4" (dec_of_Z 20) "job-2"))) = ledger (db queued_state).
Proof.
  destruct (submit_refuses club alice "python train.py" "t4" (f_of_Z 2) (Some (dec_of_Z 20)) None "real"
    "job-2" queued_state (fst (submit_to queued_state "t4" (dec_of_Z 20) "job-2"))
    (result (submit_to queued_state "t4" (dec_of_Z 20) "job-2") no_submission))
    as (gt & user & r & rf & _ & _ & _ & _ & _ & _ & _ & _ & Hl & _).
  - vm_compute. reflexivity.
  - vm_compute. reflexivity.
  - exact Hl.
Defined.

(** ** Privileges *)

Lemma cancel_policy_witness :
  exists why, cancel club "job-1" (Some "bob") false queued_state = (queued_state, Raise (Unauthorized why)).
Proof.
  refine (proj1 (cancel_policy club "job-1" job1 (Some "bob") false queued_state (sound_with_job 0%nat) _) _).
  - vm_compute. reflexivity.
  - vm_compute. reflexivity.
Defined.

Lemma officer_gate_witness :
  exists why, serve_store flat_pow club (RestoreUser alice (Some alice) false) officer_state
    = (officer_state, Raise (Unauthorized why)).
Proof.
  pose proof (officer_gate flat_pow club (RestoreUser alice (Some alice) false) (Some alice) false
    (restore_user alice alice;;; ret tt) officer_state eq_refl) as Hw.
  replace (false || officer_ok (db officer_state) (Some alice)) with false in Hw
    by (vm_compute; reflexivity).
  exact Hw.
Defined.

(** ** Reclaiming, reaping, forecasting *)

Definition reclaimed_run : St World * outcome exn ReclaimReport := reclaim club true idle_state.

Lemma reclaim_justified_witness :
  state_of (db (fst reclaimed_run)) "job-1" = Some RECLAIMED.
Proof.
  destruct (reclaim_justified club true idle_state (fst reclaimed_run)
    (result reclaimed_run (mkReclaimReport 0 false [] [] [] []))) as (_ & Hdone & _).
  - vm_compute. reflexivity.
  - apply (Hdone "job-1"). replace (rc_reclaimed _) with ["job-1"] by (vm_compute; reflexivity). left.
Defined.

Lemma reclaim_unready_witness :
  exists e, snd (reclaim_one club {| idle_verdict with iv_job := placed_job |} idle_allocating_state)
    = Raise e.
Proof.
  destruct (reclaim_unready club {| idle_verdict with iv_job := placed_job |} idle_allocating_state)
    as (s' & e & E & _).
  - vm_compute. reflexivity.
  - exists e. rewrite E. reflexivity.
Defined.

Lemma reap_exact_witness :
  exists orphans, reap default_config [rig] placed_state
    = (placed_state, Ok (mkReapReport noon orphans 1)) /\ map or_handle orphans = ["i-leaked"].
Proof.
  destruct (reap_exact default_config [rig] [[leaked]] placed_state rig_lists) as (os & Hrun & _).
  exists os. split; [exact Hrun|].
  assert (E : os = rp_orphans (result (reap default_config [rig] placed_state) (mkReapReport 0 [] 0)))
    by (rewrite Hrun; reflexivity).
  rewrite E. vm_compute. reflexivity.
Defined.

Definition reaped : St World * outcome exn ReapReport := broker_reap club placed_state.

Lemma reap_charges_once_witness :
  broker_reap club (fst reaped) = (fst reaped, Ok (result reaped (mkReapReport 0 [] 0))) /\
  abandoned_for_handle (db (fst reaped)) "i-leaked" USD = 79.
Proof.
  destruct (reap_charges_once club [[leaked]] placed_state (fst reaped)
    (result reaped (mkReapReport 0 [] 0)) rig_lists) as (_ & _ & _ & _ & Hagain).
  - vm_compute. reflexivity.
  - split; [exact Hagain|vm_compute; reflexivity].
Defined.

(** A pool whose dollars are all gone. *)
Definition broke : BrokerConfig := {| default_config with pool_budget_usd := ZERO |}.

Lemma alerts_exact_witness :
  exists usd gpu_hours,
    forecast broke USD queued_state = (queued_state, Ok usd) /\
    result (alerts broke queued_state) [] = List.filter (due broke) [usd; gpu_hours] /\
    map fc_level (result (alerts broke queued_state) []) = [EXHAUSTED].
Proof.
  destruct (alerts_exact broke queued_state queued_state (result (alerts broke queued_state) []))
    as (_ & usd & gh & Hu & Hg & E).
  - vm_compute. reflexivity.
  - exists usd, gh. split; [exact Hu|]. split; [exact E|]. vm_compute. reflexivity.
Defined.
