(* ===== verification/CliProps.v ===== *)
(** * What the commands promise

    The commands that look leave the database and the journal alone, whatever the
    backends, the hosts and the services answer; [gpu submit] says by its status
    whether the job was taken; and what the last line of [gpu forecast] forgets. *)

From Stdlib Require Import Ascii.
From S2P Require Import Prelude PyFloat PyDecimal PyFormat PySort PyDict Errors Money Clock PyJson PyText Checkpoint States Models Config Tables Store StoreInv StoreSafe Environments Admission FairShare Backend Commands Hosts Placement Idle Metrics PriceList Pricing Forecast Report Reaper Scheduler SchedulerSafe SchedulerProps Broker Digest Trace WebApp BrokerSafe WebSafe BrokerProps WebProps Aws Volumes WebAuth Gce ConfigLoad Fixture Club Doctor Cli CliSafe.
Local Open Scope Z_scope.
Local Open Scope py_scope.

(** ** Commands that look *)

Section Looking.
Context {W : Type} `{TimeZones} (sh : Shell W).

(** C37: a looking command changes nothing.  [gpu status], [queue], [budget], [who], [logs],
    [forecast], [hosts], [doctor], [digest], [reconcile], [metrics] but for [--prune],
    [admin users], [env list], [env show], [trace export], [trace replay] and
    [trace cost-export], [gpu cancel --dry-run], [gpu tick --dry-run], [gpu prices]
    without [--refresh] and [gpu report] without [--baseline] leave the database and the
    journal of transitions as they found them and only add lines to the screen, whether
    they finish, exit or end in an exception, and whatever the backends, the lab hosts,
    the webhook and AWS do when they are asked. *)
Theorem cli_looks_only c (t : Term W) : looking c = true ->
  let t' := fst (main sh c t) in
  db (tm_store t') = db (tm_store t) /\ journal (tm_store t') = journal (tm_store t) /\
  exists more, tm_lines t' = tm_lines t ++ more.
Proof.
  intros Hl. pose proof (quiet_perform sh c Hl t) as Hq. unfold main.
  destruct (perform sh c t) as [t' [u|[code|e]]]; [exact Hq..|]. destruct (is_broker_error e); [|exact Hq].
  destruct Hq as (Hd & Hj & more & Hm), (quietly_die (W := W) (A := unit) (exn_str e) None t') as (Hd' & Hj' & more' & Hm').
  destruct (die (exn_str e) None t') as [t'' [u|x]]; cbn in *; rewrite Hd', Hj', Hm', Hm, <- app_assoc; eauto.
Qed.
End Looking.

(** ** [gpu submit] and its status *)

Section Rows.
Context {W : Type} `{TimeZones} (br : Broker W).
Abbreviation config := (br_config br).

(** The row a new job makes *)
Lemma create_job_row u cmd g h c r id env org (s s' : St W) j :
  create_job config u cmd g h c r id env org s = (s', Ok j) ->
  jobs (db s) !! id = None /\ jobs (db s') = <[id := j]> (jobs (db s)) /\ j_job_id j = id /\
  j_command j = cmd /\ j_user_id j = u /\ j_gpu_type j = g /\ j_currency j = c /\ j_state j = QUEUED.
Proof.
  unfold create_job. intros Hrun. apply bind_ok in Hrun as (s1 & u0 & Hu & Hrun).
  unfold query in Hu. injection Hu as <- _. apply bind_ok in Hrun as (s1 & t & Ht & Hrun).
  injection Ht as <- <-. apply bind_ok in Hrun as (s1 & [] & Hc & Hrun). injection Hrun as <- <-.
  unfold commit_only, transaction in Hc. set (job := mkJob _ _ _ _ _ _ _ _ _ _ _ _ _ _ _ _ _ _ _ _ _ _ _ _ _ _) in *.
  destruct (obind _ _) as [[d' []]|] eqn:Hb; [|done]. injection Hc as <-.
  apply obind_ok in Hb as (d3 & Hb & [= <-]). apply obind_ok in Hb as (d1 & H1 & Hb).
  apply obind_ok in Hb as (d2 & H2 & H3). cbn [db].
  apply insert_new_job in H1 as [Hn ->]; [|done..]. apply insert_transition_ok in H2 as [_ ->].
  destruct (0 <? j_reserved job); [apply insert_ledger_ok in H3 as [_ ->]|injection H3 as <-]; by split_and!.
Qed.

(** A creation that raises writes nothing *)
Lemma create_job_raised u cmd g h c r id env org (s s' : St W) e :
  create_job config u cmd g h c r id env org s = (s', Raise e) -> s' = s.
Proof.
  unfold create_job, bind, query, now, gets, commit_only, transaction.
  destruct (get_user (db s) u); [|by intros [= <- _]]. by destruct (obind _ _) as [[d' []]|]; intros [= <- _].
Qed.

Lemma record_refusal_row u cmd g h c r why id org (s s' : St W) j :
  record_refusal u cmd g h c r why id org s = (s', Ok j) ->
  jobs (db s) !! id = None /\ jobs (db s') = <[id := j]> (jobs (db s)) /\ ledger (db s') = ledger (db s) /\
  j_command j = cmd /\ j_user_id j = u /\ j_state j = REFUSED /\ j_refusal_reason j = Some why.
Proof.
  unfold record_refusal. intros Hj. apply bind_ok in Hj as (s2 & t & Ht & Hj).
  injection Ht as <- <-. apply bind_ok in Hj as (s2 & [] & Hc & Hj). injection Hj as <- <-.
  unfold commit_only, transaction in Hc. destruct (obind _ _) as [[d' []]|] eqn:Hb; [|done].
  injection Hc as <-. apply obind_ok in Hb as (d3 & Hb & [= <-]).
  apply obind_ok in Hb as (d1 & H1 & H2). apply insert_transition_ok in H2 as [_ ->].
  apply insert_new_job in H1 as [Hn ->]; [|done..]. by split_and!.
Qed.

Lemma record_refusal_raised u cmd g h c r why id org (s s' : St W) e :
  record_refusal u cmd g h c r why id org s = (s', Raise e) -> s' = s.
Proof.
  unfold record_refusal, bind, now, gets, commit_only, transaction.
  by destruct (obind _ _) as [[d' []]|]; intros [= <- _].
Qed.

(** The warning never raises an error of the broker: the type is known by then. *)
Lemma ceiling_warning_raises g gt h r e :
  gpu config g = Ok gt -> ceiling_warning config g h r = Raise e -> is_broker_error e = false.
Proof.
  intros Hg. unfold ceiling_warning. rewrite Hg. cbn. destruct (dec_leb _ _); [done|].
  destruct (dec_div _ _); cbn; [done|]. by intros [= <-].
Qed.

(** What a submission that raises an error of the broker leaves behind: nothing. *)
Lemma submit_raised u cmd g h b env org id (s s' : St W) e :
  submit br u cmd g h b env org id s = (s', Raise e) -> is_broker_error e = true -> s' = s.
Proof.
  intros Hrun He. apply submit_steps in Hrun as [(? & _ & ->)|(gt & user & reserved & refusal & _ & _ & Hg & _ & _ & _ & Hrun)]; [done|].
  unfold bind in Hrun. destruct refusal as [rf|].
  - destruct (record_refusal _ _ _ _ _ _ _ _ _ s) as [s1 [j|e1]] eqn:Hr; [done|]. injection Hrun as <- <-.
    exact (record_refusal_raised _ _ _ _ _ _ _ _ _ _ _ _ Hr).
  - destruct (create_job _ _ _ _ _ _ _ _ _ _ s) as [s1 [j|e1]] eqn:Hr.
    + unfold lift_outcome in Hrun. destruct (ceiling_warning _ _ _ _) eqn:Hw; [done|]. injection Hrun as <- <-.
      apply (ceiling_warning_raises _ _ _ _ _ Hg) in Hw. congruence.
    + injection Hrun as <- <-. exact (create_job_raised _ _ _ _ _ _ _ _ _ _ _ _ Hr).
Qed.
End Rows.

Section Submit.
Context {W : Type} `{TimeZones} (sh : Shell W) (t0 : Term W).
Abbreviation o := (opening_of sh).

Definition untouched (t : Term W) : Prop :=
  jobs (db (tm_store t)) = jobs (db (tm_store t0)) /\ ledger (db (tm_store t)) = ledger (db (tm_store t0)).

(** The job [id] of [user_id], and no other, is new and queued; a pilot's runs in the lab. *)
Definition taken (user_id line id : string) (pilot : bool) (t : Term W) : Prop :=
  jobs (db (tm_store t0)) !! id = None /\
  exists j, jobs (db (tm_store t)) = <[id := j]> (jobs (db (tm_store t0))) /\
    j_user_id j = user_id /\ j_command j = line /\ j_state j = QUEUED /\
    (pilot = true -> j_currency j = GPU_HOUR /\ j_pinned_tier j = Some "local").

(** It is on record as refused, with the reason the screen ends with, and has cost nothing. *)
Definition turned_away (user_id line id : string) (t : Term W) : Prop :=
  jobs (db (tm_store t0)) !! id = None /\ ledger (db (tm_store t)) = ledger (db (tm_store t0)) /\
  exists j reason, jobs (db (tm_store t)) = <[id := j]> (jobs (db (tm_store t0))) /\
    j_user_id j = user_id /\ j_command j = line /\ j_state j = REFUSED /\ j_refusal_reason j = Some reason /\
    Err ("[red]" +:+ reason +:+ "[/red]") ∈ tm_lines t.

(** How a submission that did not go through ends *)
Definition gave_up (x : ended) (t : Term W) : Prop :=
  match x with Exit code => code = 1 /\ untouched t | Escaped _ => True end.

Lemma untouched_quietly {A} (m : M (Term W) ended A) :
  quietly m -> (forall t, match snd (m t) with Raise (Exit code) => code = 1 | _ => True end) ->
  triple untouched m (fun _ => untouched) gave_up.
Proof.
  intros Hm Hx t [Hj Hl]. specialize (Hm t). specialize (Hx t). destruct (m t) as [t' [a|[code|e]]]; cbn in *; [|split; [done|]|done];
    destruct Hm as (Hd & _); unfold untouched; by rewrite Hd.
Qed.

Lemma untouched_or_die {A} (m : M (Term W) ended A) Q :
  triple untouched m Q (fun x t => match x with Exit code => code = 1 /\ untouched t | Escaped e => is_broker_error e = true -> untouched t end) ->
  triple untouched (or_die m) Q gave_up.
Proof.
  intros Hm t Ht. unfold or_die, or_die_of, try_catch. specialize (Hm t Ht).
  destruct (m t) as [t' [a|[code|e]]]; [done..|]. destruct (is_broker_error e); [|done]. split; [done|by apply Hm].
Qed.

Lemma untouched_budget budget : triple untouched (parse_budget budget) (fun _ => untouched) gave_up.
Proof.
  unfold parse_budget. destruct budget as [text|]; [|intros t Ht; exact Ht].
  destruct (decimal_text _); [intros t Ht; exact Ht|]. by destruct (is_special _); intros t Ht.
Qed.

Lemma untouched_open : triple untouched (open_cli o) (fun _ => untouched) gave_up.
Proof.
  apply untouched_quietly; [apply quietly_open|]. intros t. unfold open_cli, on_store. by destruct (o (tm_store t)) as [s [b|e]].
Qed.

(** A pilot's GPU is one of the lab's. *)
Lemma untouched_pilot br given :
  triple untouched (pilot_gpu br given)
    (fun name t => untouched t /\ exists g, gpu (br_config br) name = Ok g /\ gt_currency g = GPU_HOUR) gave_up.
Proof.
  unfold pilot_gpu. set (name := match given with Some g => g | None => _ end). apply untouched_or_die.
  intros t Ht. unfold bind, expr, on_store, lift_outcome. destruct (gpu (br_config br) name) as [g|e] eqn:Hg; [|intros _; exact Ht].
  case_bool_decide as Hc; [split; [exact Ht|by exists g]|split; [done|exact Ht]].
Qed.

(** The member is there when the job is submitted. *)
Lemma untouched_ensure br user_id :
  triple untouched (ensure_user br user_id) (fun _ => untouched) (fun x t => match x with Exit _ => False | Escaped _ => untouched t end).
Proof.
  intros t [Hj Hl]. unfold ensure_user. unfold bind at 1, ask_db, on_store at 1, query_ok.
  destruct (maybe_user _ _); [by split|].
  change (on_store (add_user br user_id None false None None None None))
    with (on_store (upsert_user (W := W) (br_config br) user_id None None None None)).
  pose proof (upsert_only_user (br_config br) user_id None None None (tm_store t)) as [(Hj' & Hl' & _) _].
  unfold bind, on_store. cbn [tm_store].
  destruct (upsert_user _ _ _ _ _ _ (tm_store t)) as [s' [u|e]]; cbn in *; split; cbn; congruence.
Qed.

(** What the call of [broker.submit] leaves when it returns *)
Definition submitted (br : Broker W) (user_id line id gpu_name : string) (r : SubmitResult) (t : Term W) : Prop :=
  jobs (db (tm_store t0)) !! id = None /\
  jobs (db (tm_store t)) = <[id := sr_job r]> (jobs (db (tm_store t0))) /\
  j_user_id (sr_job r) = user_id /\ j_command (sr_job r) = line /\
  match sr_refusal r with
  | Some rf => j_state (sr_job r) = REFUSED /\ j_refusal_reason (sr_job r) = Some (rfs_reason rf) /\
      ledger (db (tm_store t)) = ledger (db (tm_store t0))
  | None => j_state (sr_job r) = QUEUED /\ j_job_id (sr_job r) = id /\
      forall g, gpu (br_config br) gpu_name = Ok g -> j_currency (sr_job r) = gt_currency g
  end.

Lemma untouched_submit br user_id line gpu_name hours b env org id :
  triple untouched
    (or_die (ensure_user br user_id;;; on_store (submit br user_id line gpu_name hours b env org id)))
    (submitted br user_id line id gpu_name) gave_up.
Proof.
  apply untouched_or_die. eapply triple_bind.
  { eapply triple_conseq; [apply untouched_ensure| |intros u t Ht; exact Ht|]; [done|]. intros [code|e] t Ht; [done|by intros _]. }
  intros _ t [Hj Hl]. unfold on_store. destruct (submit _ _ _ _ _ _ _ _ _ (tm_store t)) as [s' [r|e]] eqn:Hs.
  - unfold submitted. cbn [tm_store]. rewrite <- Hj, <- Hl. apply submit_steps in Hs
      as [(? & [=] & _)|(gt & user & reserved & refusal & _ & _ & Hg & Hu & Hres & Hp & Hs)].
    destruct refusal as [rf|]; apply bind_ok in Hs as (s1 & j & Hc & Hs).
    + injection Hs as <- <-. destruct (record_refusal_row _ _ _ _ _ _ _ _ _ _ _ _ Hc) as (? & ? & ? & ? & ? & ? & ?).
      by split_and!.
    + apply bind_ok in Hs as (s2 & w & Hw & Hs). injection Hw as <- _. injection Hs as <- <-.
      destruct (create_job_row br _ _ _ _ _ _ _ _ _ _ _ _ Hc) as (? & ? & ? & ? & ? & ? & ? & ?).
      cbn [sr_job sr_refusal]. repeat (split; [done|]). intros g Hg'. rewrite Hg in Hg'. congruence.
  - intros He. by rewrite (submit_raised _ _ _ _ _ _ _ _ _ _ _ _ Hs He).
Qed.

(** What comes after the job is on record changes nothing of it. *)
Lemma after_taken {A} user_id line id pilot (m : M (Term W) ended A) :
  quietly m -> (forall t, match snd (m t) with Raise (Exit _) => False | _ => True end) ->
  triple (taken user_id line id pilot) m (fun _ => taken user_id line id pilot) gave_up.
Proof.
  intros Hm Hx t Ht. specialize (Hm t). specialize (Hx t). destruct (m t) as [t' [a|[code|e]]]; [|done|done].
  destruct Hm as (Hd & _). cbn in Hd. unfold taken. by rewrite Hd.
Qed.

(** A pilot's job is pinned to the lab. *)
Lemma taken_pinned br user_id line id gpu_name r (pilot : bool) :
  sr_refusal r = None ->
  triple (fun t => submitted br user_id line id gpu_name r t /\
            (pilot = true -> exists g, gpu (br_config br) gpu_name = Ok g /\ gt_currency g = GPU_HOUR))
    (if pilot then on_store (pin_tier (sr_job r) "local" "pilot: local capacity only") else ret (sr_job r))
    (fun j t => taken user_id line id pilot t /\ j_job_id j = id) gave_up.
Proof.
  intros Hr t [Hs Hp]. unfold submitted in Hs. rewrite Hr in Hs. destruct Hs as (Hn & Hj & Hu & Hc & Hq & Hid & Hg).
  destruct pilot.
  2: { split; [|exact Hid]. split; [exact Hn|]. by exists (sr_job r). }
  destruct (Hp eq_refl) as (g & Hg' & Hcur). unfold on_store, pin_tier, bind, now, gets, commit_only, transaction. cbn.
  unfold fk_job. cbn. rewrite Hid, Hj, alter_insert_eq, bool_decide_eq_true_2 by (rewrite lookup_insert_eq; by eexists). cbn.
  split; [|done]. split; [exact Hn|]. eexists. cbn. split; [done|]. by rewrite (Hg g Hg').
Qed.


(** The command ends by itself with the job queued, by status 2 with the refusal on
    record, by status 1 with nothing, or by an exception nothing catches. *)
Lemma submit_triple command gpu_option hours budget env pilot user id :
  let user_id := whoami (sh_environ sh) user in
  let line := str_join " " (map quote command) in
  triple untouched (cmd_submit (sh_pow sh) (sh_environ sh) o command gpu_option hours budget env pilot user id)
    (fun _ => taken user_id line id pilot)
    (fun x t => match x with
                | Exit code => code = 1 /\ untouched t \/ code = 2 /\ turned_away user_id line id t
                | Escaped _ => True
                end).
Proof.
  intros user_id line.
  assert (Hw : forall x t, gave_up x t -> match x with
      | Exit code => code = 1 /\ untouched t \/ code = 2 /\ turned_away user_id line id t | Escaped _ => True end).
  { intros [code|e] t Hg; [by left|done]. }
  destruct command as [|word words]; [intros t Ht; left; by split|]. unfold cmd_submit. fold line user_id.
  eapply triple_bind; [eapply triple_conseq; [apply untouched_budget|done|intros b t Ht; exact Ht|exact Hw]|]. intros b.
  eapply triple_bind; [eapply triple_conseq; [apply untouched_open|done|intros br t Ht; exact Ht|exact Hw]|]. intros br.
  eapply triple_bind.
  { instantiate (1 := fun name t => untouched t /\
      (pilot = true -> exists g, gpu (br_config br) name = Ok g /\ gt_currency g = GPU_HOUR)).
    destruct pilot; [|by intros t Ht].
    eapply triple_conseq; [apply (untouched_pilot br gpu_option)|done|intros name t [Ht Hg]; by split|exact Hw]. }
  intros gpu_name t [Ht Hp]. revert t Ht. eapply triple_bind.
  { eapply triple_conseq; [apply untouched_submit|done|intros r t Ht; exact Ht|exact Hw]. }
  intros r. destruct (sr_refusal r) as [rf|] eqn:Hr.
  - intros t Hs. unfold submitted in Hs. rewrite Hr in Hs. destruct Hs as (Hn & Hj & Hu & Hc & Hq & Hwhy & Hl).
    right. split; [done|]. split; [exact Hn|]. split; [exact Hl|]. exists (sr_job r), (rfs_reason rf).
    cbn. set_solver.
  - eapply triple_bind.
    { eapply triple_conseq; [apply (taken_pinned br user_id line id gpu_name r pilot Hr)| | |exact Hw];
        [intros t Hs; split; [exact Hs|exact Hp]|intros j t [Ht _]; exact Ht]. }
    intros j. eapply triple_conseq; [|intros t Ht; exact Ht|intros u t Ht; exact Ht|exact Hw].
    apply after_taken.
    + unfold queue_of, ordered_queue. quiet_walk.
    + intros t. unfold bind, say, print, ret, queue_of, on_store. cbn. by repeat case_match.
Qed.

(** C38: what the status of [gpu submit] says.  The command finishes by status 0, 1 or 2.
    Status 0: one job is new, under the id it was given, queued, of the member the
    environment or [--user] names, with the words of the command quoted and joined;
    with [--pilot] it is one of the lab's currency and pinned to the lab.  Status 2: that
    job is on record as REFUSED with its reason, the reason is on the screen, and the
    ledger is as it was.  Status 1: no job and no entry of the ledger has changed, so
    at most the member is new.  An exception nothing catches is a traceback. *)
Theorem cli_submit_status command gpu_option hours budget env pilot user id :
  let user_id := whoami (sh_environ sh) user in
  let line := str_join " " (map quote command) in
  let (t', f) := main sh (CSubmit command gpu_option hours budget env pilot user id) t0 in
  match f with
  | Finished 0 => taken user_id line id pilot t'
  | Finished 1 => untouched t'
  | Finished 2 => turned_away user_id line id t'
  | Finished _ => False
  | Traceback _ => True
  end.
Proof.
  intros user_id line. pose proof (submit_triple command gpu_option hours budget env pilot user id t0 (conj eq_refl eq_refl)) as Ht.
  unfold main. cbn [perform]. fold line user_id in Ht.
  destruct (cmd_submit _ _ _ _ _ _ _ _ _ _ _ t0) as [t' [u|[code|e]]]; [exact Ht| |].
  - by destruct Ht as [[-> Hu]|[-> Hu]].
  - by destruct (is_broker_error e).
Qed.
End Submit.

(** ** On a concrete club *)

Module Toy.
Definition probe : AwsProbe World :=
  mkAwsProbe World (Ok tt) (fun w => (w, Ok (Some "arn"))) (fun _ w => (w, Ok [])) (fun _ w => (w, Ok tt)) (fun w => (w, Ok f1)).

Definition shell (user : string) : Shell World :=
  mkShell World flat_pow (fun name => if String.eqb name "USER" then Some user else None) unloaded no_aws [rig] None
    (1, 1, "wal")
    probe NoStore (fun _ _ => answers (dec_of_Z 1)) (fun _ _ w => (w, Ok 200)) (fun _ _ w => (w, Ok [])) (fun _ _ => answers tt)
    (fun _ w => (w, Raise "no such file")) (fun _ => None) id (fun _ _ => "").

Definition screen (s : St World) : Term World := mkTerm s [].

Definition submission (pilot : bool) (budget : option string) : Command :=
  CSubmit ["python"; "train model.py"] (if pilot then None else Some "t4") (f_of_Z 2) budget None pilot None "job-2".

(** Alice's submission is taken, her pilot is pinned, the budget of a thousand dollars is
    turned away by status 2 and the one that is no number by status 1. *)
Example submit_statuses :
  let run c := main (shell alice) c (screen (fresh 0%nat)) in
  let row c := jobs (db (tm_store (fst (run c)))) !! "job-2" in
  (snd (run (submission false None)), (fun j => (j_state j, j_command j)) <$> row (submission false None))
    = (Finished 0, Some (QUEUED, "python 'train model.py'")) /\
  (snd (run (submission true None)), row (submission true None) ≫= j_pinned_tier) = (Finished 0, Some "local") /\
  (snd (run (submission false (Some "$1000"))), j_state <$> row (submission false (Some "$1000"))) = (Finished 2, Some REFUSED) /\
  (snd (run (submission false (Some "ten"))), row (submission false (Some "ten"))) = (Finished 1, None).
Proof. vm_compute. by split_and!. Qed.

(** Bob asks what cancelling Alice's job would do. *)
Lemma cli_looks_only_witness :
  let t := screen queued_state in
  let t' := fst (main (shell "bob") (CCancel "job-1" true None) t) in
  looking (CCancel "job-1" true None) = true /\
  db (tm_store t') = db queued_state /\ journal (tm_store t') = journal queued_state /\
  exists more, tm_lines t' = tm_lines t ++ more.
Proof. split; [reflexivity|]. apply (cli_looks_only (shell "bob") (CCancel "job-1" true None) (screen queued_state)). reflexivity. Defined.

(** Three days in which the dollars were spent and a fifth of the hours. *)
Definition settled (c : Currency) (cents : Z) : LedgerEntry :=
  mkLedgerEntry 1 (Some "job-1") (Some alice) c SETTLE cents "2026-01" (noon - 3 * us_per_day) None None.
Definition spent_state : St World :=
  let d := db queued_state in
  mkSt {| d with ledger := ledger d ++ [settled USD 50000; settled GPU_HOUR 8000] |} noon (journal queued_state) 0%nat.

(** The dollars are gone, and the command says 0: its status is the one of the last
    currency that is not well, not of the worst. *)
Example forecast_forgets :
  let run := main (shell alice) CForecast (screen spent_state) in
  snd run = Finished 0 /\
  map (fun l => match l with Out text => str_take 14 text | _ => "" end) (firstn 1 (tm_lines (fst run))) = ["[red]EXHAUSTED"].
Proof. vm_compute. by split. Qed.
End Toy.
